(* ===== verification/_CoqProject ===== *)
-Q . S2P
Prelude.v
Metadata.v
SharedState.v
World.v
Device.v
Flusher.v
Durability.v
StripeSource.v
Fetcher.v
Copying.v
BgWorker.v
LazyDevice.v
Publishing.v
Crypt.v
Uring.v
IoTracking.v
Vhost.v
Ublk.v
StripeServer.v
Secrets.v
Config.v
Remote.v
ArchiveFormat.v
ArchiveSource.v
Archiver.v
Export.v
S3.v
Stack.v
Builder.v
Legacy.v
Backend.v
Rpc.v
VhostBackend.v
UblkDevice.v
Tools.v
Shell.v
Programs.v
