(* ===== verification/Prelude.v ===== *)
(** * A verification of ubiblk

    ubiblk serves a virtual disk to a guest over vhost-user or ublk.  The disk
    may start out empty over a stripe source (a base image, a remote server, an
    archive): stripes are copied to the local base device on demand or in the
    background, and a metadata device records which stripes were fetched and
    written.  Data may be encrypted at rest.  This development models the code
    under src/src and proves what makes it correct.

    ** The program and its model

    Requests enter at a front end, travel down a stack of block devices, and
    come back as completions.  Every device offers an [IoChannel]: requests are
    added with an id, submitted, and reported by [poll].

      front ends      Vhost.v (vhost/request.rs, vhost/backend_thread.rs),
                      VhostBackend.v (vhost/backend.rs, vhost/backend_loop.rs,
                      utils/block.rs): what the vhost daemon drives;
                      Ublk.v (ublk/io_handler.rs), UblkDevice.v
                      (ublk/mod.rs): requests and device of ublk;
                      IoTracking.v (common/io_tracking.rs), Rpc.v
                      (common/rpc.rs, utils/umask_guard.rs): the control socket
      lazy device     LazyDevice.v (bdev_lazy/device.rs): sends requests on
                      fetched stripes to the base, queues the others, asks the
                      background worker for missing stripes
      worker          BgWorker.v (bdev_lazy/bgworker.rs): receives requests,
                      drives the two state machines below
      fetcher         Fetcher.v (bdev_lazy/stripe_fetcher.rs): copies stripes
                      from a source to the base, with retries; Copying.v
                      follows their bytes, Publishing.v does so under the worker
      sources         StripeSource.v (stripe_source/{mod,bdev,flaky,wait}.rs),
                      Remote.v (stripe_source/remote.rs): worker threads with
                      connections to a stripe server,
                      ArchiveSource.v (stripe_source/archive.rs): an archive in
                      an object store that is not trusted
      stripe server   StripeServer.v (stripe_server/{mod,session,client}.rs):
                      both ends of the protocol between hosts
      archives        ArchiveFormat.v (archive/{mod,compression,hmac,
                      stripe_hashes,bytes32,fs_store,mem_store}.rs): the format
                      and two stores; S3.v (archive/s3_store.rs and its
                      workers); Archiver.v (archive/archiver.rs) writes an
                      archive; Export.v (export_archive.rs) turns one into an
                      image
      flusher         Flusher.v (bdev_lazy/metadata_flusher.rs): makes stripe
                      bits durable, then publishes them; Durability.v proves
                      that order
      metadata        Metadata.v (bdev_lazy/metadata/types.rs): the format;
                      SharedState.v (shared_state.rs, status_report.rs): the
                      states all threads share
      devices         Device.v (block_device/{mod,wait_for_completion,bdev_null,
                      bdev_sync}.rs, metadata/{save,load}.rs): the interface
                      and its contracts, null and synchronous devices;
                      Uring.v (bdev_uring.rs); Crypt.v (bdev_crypt.rs, crypt/)
      set-up          Stack.v (common/mod.rs, devices): the devices of a
                      configuration; Builder.v (stripe_source/builder.rs,
                      stripe_server/psk.rs, utils/s3.rs): its stripe source;
                      Legacy.v
                      (stripe_server/{legacy,prepare}.rs): a stripe server over
                      current and old volumes; Backend.v (common/mod.rs, the
                      rest): initialization of metadata, the worker thread and
                      the loop of a backend
      programs        Tools.v (bin/xts.rs, bin/init-metadata.rs,
                      bin/dump-metadata.rs), Shell.v
                      (bin/remote-stripe-shell.rs), Programs.v
                      (bin/remote-stripe-server.rs, bin/archive.rs)
      configuration   Config.v (config/v2/{includes,load,stripe_source,tuning,
                      mod}.rs): includes, merging and validation; Secrets.v
                      (config/v2/secrets.rs): definitions and their resolution
      world           World.v: what threads share through [Arc]s, and
                      utils/aligned_buffer{,_pool}.rs
      this file       outcomes, results, machine integers, slices, tactics

    ** How code is translated

    A call that may panic returns an [outcome]; a Rust [Result] is [result],
    whose errors keep the fields code branches on.  A Rust method on [&mut self]
    becomes a function that takes and returns the state record of the same
    name.  Objects behind an [Arc] (buffers, files, stripe states, the worker's
    queue) live in one [World], so two holders of a buffer see each other's
    writes.  Where a method threads state through many fallible calls, the
    state-and-error monad [eff] does ([Archiver], [Export], [Backend]).  Integers
    are [Z] with the wrap-around of release builds written out; sizes and ids that index vectors are [nat].  Loops over collections
    are structural; the polling loops take the number of rounds their timeout
    allows; the remaining loops take fuel, and theorems show that the fuel they
    are given is enough ([reap], [process_chains], the fetcher's loops) or state
    what happens when it is not ([process_pending_requests], which waits for the
    device).  [archive_all] and the export loop take as fuel a bound on rounds that
    the round-trip theorems show to be the number of stripes, over a store that
    answers promptly; over any store the safety theorems hold for every fuel.
    Sessions of the stripe server and of the control socket need one unit per
    byte received; the image tool needs one per sector; handling an event of a
    queue has fuel enough once the queue is quiet.  Code outside
    the repository (CRC32, AES, SHA-256, HMAC, zstd, CBOR and JSON, TOML, the S3
    client, the network and OpenSSL, YAML, the io_uring rings, guest memory,
    virtqueues, the vhost daemon, the ublk control
    device) is a parameter: a function argument or a class of operations
    with the laws its documentation states, and every theorem that
    uses such laws has a witness with a concrete instance.

    Traits are classes, and what one layer relies on in another is a class of
    laws: [ChannelSafe] (calls with large enough buffers return, and touch only
    buffers and disks), [ChannelContract] (every request is reported exactly
    once), [ChannelServes] (the weaker promise of a channel that takes only some
    requests and may ask the worker for stripes, which the lazy device keeps and
    the front ends rely on), [ChannelDrained] (an idle channel holds nothing),
    [SourceSafe], [SourceContract] (the same for stripe sources),
    [SourceDelivers] (a successful fetch filled its buffer with the stripe),
    [ChannelReliable] (submissions cannot fail).  The last one is true of the
    null and the synchronous device only: io_uring keeps the entries of a submit
    that failed.  The theorems on the fetcher and the worker assume it of the
    target, and say so; [failed_submit_duplicates] shows what happens without it.
    The devices are instances, and the clients' theorems are proved for every
    instance.  Threads interleave
    through step relations: between two calls of a component the environment may
    change everything that its contract does not protect ([stable]).

    ** What is shown

    - Durability.v, BgWorker.v, Fetcher.v, Flusher.v: a stripe bit that other
      threads can see is on stable storage; over a target whose submissions
      cannot fail the worker publishes only stripes it has copied, the fetcher
      accounts for every stripe and buffer, and none of them panics, on any
      other error path.
    - Copying.v, Publishing.v: with source, target and metadata on files whose
      operations may fail at any byte, a stripe that is published as fetched is
      on stable storage of the target, byte for byte; the rest of a stripe that
      the source covers in part is what an earlier stripe left in the buffer.
    - LazyDevice.v: only requests on available stripes reach the base device;
      no request is lost, and each is answered once unless the base refuses to
      submit; in-range requests never panic, and
      queued requests leave the queue once their stripes are there.
    - Vhost.v, Ublk.v, IoTracking.v: over every channel that serves, the lazy one
      included, descriptor chains and kernel requests are answered exactly once,
      for guests that stay inside the device and ask for its id with room for
      it; the parser accepts exactly the chains the virtio
      specification describes; the RPC view is the table of requests in flight.
    - VhostBackend.v, Rpc.v: every queue has a thread that can start; an event
      leaves no request waiting behind enabled notifications; the configuration
      space has the layout of the specification; the control socket answers
      every line once and is never open to others.
    - UblkDevice.v: the link to the device exists while it is served, is removed
      when serving ends well, and nothing else is touched; every queue starts in the state Ublk.v needs.
    - Metadata.v, Device.v, SharedState.v: round trips of the format in memory
      and on disk, rejection of damaged sectors, exact counters.
    - Crypt.v, Uring.v, World.v, StripeSource.v: encryption is transparent and
      keys survive storage; [busy] of the io_uring channel is exact; alignment
      of buffers; the failure injection of the flaky source.
    - StripeServer.v, Remote.v: a client reads exactly the stripes of the server;
      sessions end on any input; the remote source delivers the server's bytes
      or fails under any schedule, reports every request once, and reconnects a
      bounded number of times.
    - ArchiveFormat.v, ArchiveSource.v, Archiver.v, Export.v, S3.v: what is
      authenticated is unambiguous; what an opened archive holds was authenticated
      in the store's answers, and a stripe served or exported from the untrusted
      store has the authenticated hash; archiving followed by serving or exporting gives
      the device back if its stripes with data are whole; the S3 store answers every request once.
    - Stack.v, Builder.v, Legacy.v, Backend.v: the parts fit together.  A
      configuration that loads gives devices and sources that keep the contracts
      the other theorems ask for; metadata that was initialized is what a
      backend with the synchronous engine loads; its worker is safe from start to
      stop; a prepared server
      can serve, also from old volumes.
    - Tools.v: decoding an encoded image gives the image back; the report of
      metadata names exactly the stripes with a flag.
    - Shell.v, Programs.v: a dump of the shell shows the server's bytes, for any
      input; no client of a prepared server can panic its threads.
    - Secrets.v, Config.v: resolution computes the declarative meaning of the
      secrets, in any order of iteration; includes merge disjointly.
    - Behaviour that deviates from its intent is stated as theorems too: stale
      data behind a partial last stripe, devices that end inside a stripe and
      cannot be archived, double completion after a failed submission, panics on malformed guest requests and on identities of another
      length, a stalled ublk batch, metadata files named without a directory.

    ** What is not modelled

    The TLS handshake, process set-up, command lines and the programs that only
    call one component, serde's decoding of fields, the descriptions of errors
    and the names of virtio features in the log.  Log messages and open flags have no counterpart.  Atomics are accessed in
    single steps; weaker memory orderings are not modelled. *)
From stdpp Require Export base tactics option list numbers gmap sets.
From Stdlib Require Export ZArith Lia.

#[global] Open Scope Z_scope.
#[global] Set Default Proof Using "Type".

(** ** Outcomes: a Rust call either returns or panics

    [outcome] is the effect every modelled call may have: returning a value or
    unwinding.  The reason of a panic is kept, so that a theorem can say which
    of the source's checks failed. *)

Inductive panic :=
| IndexOutOfBounds      (* [v[i]] or a slice [v[a..b]] out of range *)
| LengthMismatch        (* [copy_from_slice] on slices of different length *)
| AssertionFailed       (* [assert!] *)
| UnwrapNone            (* [unwrap]/[expect] on [None] *)
| OutOfFuel.            (* the model's loop bound was exhausted *)

Inductive outcome (A : Type) :=
| Done (a : A)
| Panic (p : panic).
Arguments Done {A} a.
Arguments Panic {A} p.

#[global] Instance outcome_ret : MRet outcome := fun A a => Done a.
#[global] Instance outcome_bind : MBind outcome := fun A B f m =>
  match m with Done a => f a | Panic p => Panic p end.
#[global] Instance outcome_fmap : FMap outcome := fun A B f m =>
  match m with Done a => Done (f a) | Panic p => Panic p end.

(** Fold of an outcome-valued body over a list: the [for x in xs] loops. *)
Fixpoint for_each {A S} (f : A -> S -> outcome S) (xs : list A) (s : S) : outcome S :=
  match xs with
  | [] => Done s
  | x :: xs' => s' ← f x s; for_each f xs' s'
  end.

(** ** Errors of the program (error.rs)

    The variants of [UbiblkError] with the fields the code branches on; the
    human-readable descriptions and the [ErrorMeta] location trail, which no
    code path inspects, are left out. *)

Inductive ErrorKind := UnexpectedEof | ConnectionReset | WouldBlock | TimedOut | OtherIo.

(** What the [description] of a [MetadataError] reports. *)
Inductive metadata_fault :=
| BufferTooSmall
| NotSectorMultiple
| HeaderCrcMismatch
| MagicMismatch
| VersionMismatch
| ShiftTooLarge
| StripeCountTooLarge
| GroupCrcMismatch (group : nat)
| OtherMetadataFault.

Inductive UbiblkError :=
| ThreadCreation
| GuestMemoryAccess
| IoError (source : ErrorKind)
| ChannelError
| InvalidParameter
| MetadataError (fault : metadata_fault)
| ProtocolError
| MissingStripeMetadata
| StripeUnavailableData (stripe : Z)
| StripeSizeMismatch (stripe : Z) (expected actual : Z)
| StripeFetchFailed (stripe : nat)
| StripeFetchTimeout (stripe : nat)
| RemoteStatus (status : Z)
| TlsError
| RpcError
| VhostUserError
| VhostUserBackendError
| ArchiveError
| CryptoError
| CpuPinning
| UblkError.

#[global] Instance ErrorKind_eq_dec : EqDecision ErrorKind.
Proof. solve_decision. Defined.
#[global] Instance metadata_fault_eq_dec : EqDecision metadata_fault.
Proof. solve_decision. Defined.
#[global] Instance UbiblkError_eq_dec : EqDecision UbiblkError.
Proof. solve_decision. Defined.

Inductive result (A : Type) :=
| Ok (a : A)
| Err (e : UbiblkError).
Arguments Ok {A} a.
Arguments Err {A} e.

#[global] Instance result_ret : MRet result := fun A a => Ok a.
#[global] Instance result_bind : MBind result := fun A B f m =>
  match m with Ok a => f a | Err e => Err e end.

Definition is_ok {A} (r : result A) : bool :=
  match r with Ok _ => true | Err _ => false end.

(** [ok_or] with the error of a failed conversion. *)
Definition or_err {A} (e : UbiblkError) (o : option A) : result A :=
  match o with Some a => Ok a | None => Err e end.

(** The [?] operator inside a call that may also panic. *)
Definition try_ {A B} (r : result A) (k : A -> outcome (result B)) : outcome (result B) :=
  match r with Ok a => k a | Err e => Done (Err e) end.

Declare Scope ubi_scope.
Delimit Scope ubi_scope with ubi.
#[global] Open Scope ubi_scope.
Notation "'let?' x := r 'in' k" := (try_ r (fun x => k))
  (at level 200, x name, r at level 100, k at level 200, right associativity) : ubi_scope.

(** A [for] loop whose body may return an error early, as [?] and
    [return Err(..)] inside a loop do. *)
Fixpoint for_try {A S} (f : A -> S -> outcome (result S)) (xs : list A) (s : S)
  : outcome (result S) :=
  match xs with
  | [] => Done (Ok s)
  | x :: xs' =>
      r ← f x s;
      match r with Ok s' => for_try f xs' s' | Err e => Done (Err e) end
  end.

(** Methods on [&mut self] that may fail: a state, an error, or a panic.  The
    bind is the [?] operator; the state reached when an error is returned is
    kept, since the caller still holds the object. *)
Definition eff (St A : Type) : Type := St -> outcome (result A * St).
#[global] Instance eff_ret St : MRet (eff St) := fun A a s => Done (Ok a, s).
#[global] Instance eff_bind St : MBind (eff St) := fun A B f m s =>
  match m s with
  | Done (Ok a, s') => f a s'
  | Done (Err e, s') => Done (Err e, s')
  | Panic p => Panic p
  end.

Definition raise {St A} (e : UbiblkError) : eff St A := fun s => Done (Err e, s).
(** A call that neither reads nor changes the state. *)
Definition lift_result {St A} (r : result A) : eff St A := fun s => Done (r, s).
Definition lift_outcome {St A} (o : outcome A) : eff St A := fun s =>
  match o with Done a => Done (Ok a, s) | Panic p => Panic p end.

(** ** Machine integers *)

Definition U8_MAX : Z := 255.
Definition U16_MAX : Z := 65535.
Definition U32_MAX : Z := 4294967295.
Definition U64_MAX : Z := 18446744073709551615.

Definition wrap32 (z : Z) : Z := z mod 2 ^ 32.
Definition wrap64 (z : Z) : Z := z mod 2 ^ 64.

(** Bitwise complement of a byte, [!x] at type [u8]. *)
Definition u8_not (x : Z) : Z := Z.lxor x 255.

Definition is_u8 (z : Z) : Prop := 0 <= z < 256.
Definition is_u32 (z : Z) : Prop := 0 <= z <= U32_MAX.
Definition is_u64 (z : Z) : Prop := 0 <= z <= U64_MAX.

(** [u64::div_ceil]. *)
Definition div_ceil (a b : Z) : Z := if a mod b =? 0 then a / b else a / b + 1.
(** [usize::div_ceil]. *)
Definition ndiv_ceil (a b : nat) : nat :=
  if decide (a `mod` b = 0)%nat then (a `div` b)%nat else (a `div` b + 1)%nat.

(** [checked_mul] at [u64]. *)
Definition checked_mul64 (a b : Z) : option Z :=
  if a * b <=? U64_MAX then Some (a * b) else None.

(** ** Little-endian byte strings ([to_le_bytes]/[from_le_bytes]) *)

Fixpoint to_le (n : nat) (z : Z) : list Z :=
  match n with
  | O => []
  | S n' => z mod 256 :: to_le n' (z / 256)
  end.

Fixpoint from_le (bs : list Z) : Z :=
  match bs with
  | [] => 0
  | b :: bs' => b + 256 * from_le bs'
  end.

(** ** Slices *)

(** [&v[start..start+len]]: panics when the range leaves [v]. *)
Definition slice {A} (v : list A) (start len : nat) : outcome (list A) :=
  if decide (start + len <= length v)%nat then Done (take len (drop start v))
  else Panic IndexOutOfBounds.

(** [v[start..start+src.len()].copy_from_slice(src)]. *)
Definition splice {A} (v : list A) (start : nat) (src : list A) : list A :=
  take start v ++ src ++ drop (start + length src) v.

Definition copy_into {A} (v : list A) (start : nat) (src : list A) : outcome (list A) :=
  if decide (start + length src <= length v)%nat then Done (splice v start src)
  else Panic IndexOutOfBounds.

(** [v[i]] as a read and as an assignment. *)
Definition index {A} (v : list A) (i : nat) : outcome A :=
  match v !! i with Some x => Done x | None => Panic IndexOutOfBounds end.

Definition set_index {A} (v : list A) (i : nat) (x : A) : outcome (list A) :=
  if decide (i < length v)%nat then Done (<[i := x]> v) else Panic IndexOutOfBounds.

(** The inclusive range [first..=last] over stripe ids. *)
Definition range_incl (first last : nat) : list nat := seq first (S last - first).

(** ** Tactics and hint databases *)

Create HintDb ubi discriminated.
Create Rewrite HintDb ubi_len.

(** Split a chain of binds that ended in [Done]. *)
Ltac invert_bind H :=
  lazymatch type of H with
  | mbind _ ?m = Done _ =>
      let a := fresh "a" in let E := fresh "E" in
      destruct m as [a|] eqn:E; [cbn [mbind outcome_bind] in H | discriminate H]
  end.

Ltac done_inv :=
  repeat match goal with
  | H : Done _ = Done _ |- _ => injection H as H; try subst
  | H : Ok _ = Ok _ |- _ => injection H as H; try subst
  | H : Panic _ = Done _ |- _ => discriminate H
  | H : Done _ = Panic _ |- _ => discriminate H
  | H : Err _ = Ok _ |- _ => discriminate H
  | H : Ok _ = Err _ |- _ => discriminate H
  end.

(** Case analysis on the scrutinee of the first [match]/[if] of the goal. *)
Ltac case_goal :=
  match goal with
  | |- context [match ?x with _ => _ end] => destruct x eqn:?
  end.

Ltac len_solve := autorewrite with ubi_len in *; simpl in *; try lia.

(** ** Lemmas on outcomes *)

Section outcome_lemmas.
Context {A S : Type}.

Lemma bind_done {B} (m : outcome A) (k : A -> outcome B) b :
  (m ≫= k) = Done b <-> exists a, m = Done a /\ k a = Done b.
Proof.
  destruct m as [a|p]; cbn; split.
  - intros H; by exists a.
  - by intros (a' & [= ->] & ?).
  - discriminate.
  - by intros (? & ? & ?).
Qed.

Lemma for_each_app (f : A -> S -> outcome S) xs ys s :
  for_each f (xs ++ ys) s = (s' ← for_each f xs s; for_each f ys s').
Proof.
  revert s; induction xs as [|x xs IH]; intros s; simpl; [done|].
  destruct (f x s); simpl; [apply IH|done].
Qed.

(** A loop keeps an invariant that every iteration keeps. *)
Lemma for_each_inv (P : S -> Prop) (f : A -> S -> outcome S) xs s s' :
  (forall x a b, x ∈ xs -> P a -> f x a = Done b -> P b) ->
  P s -> for_each f xs s = Done s' -> P s'.
Proof.
  revert s; induction xs as [|x xs IH]; intros s Hf Hs H; simpl in H.
  - by injection H as <-.
  - destruct (f x s) as [a|] eqn:E; [simpl in H | discriminate].
    apply (IH a); [|by eapply Hf; [left|..]|done].
    intros y b c Hy; apply Hf; by right.
Qed.

(** A loop returns when every iteration, from a state satisfying the
    invariant, returns a state satisfying it. *)
Lemma for_each_total (P : S -> Prop) (f : A -> S -> outcome S) xs s :
  (forall x a, x ∈ xs -> P a -> exists b, f x a = Done b /\ P b) ->
  P s -> exists s', for_each f xs s = Done s' /\ P s'.
Proof.
  revert s; induction xs as [|x xs IH]; intros s Hf Hs; simpl.
  - by exists s.
  - destruct (Hf x s) as (b & -> & Hb); [left | done | ]; simpl.
    apply IH; [|done]. intros y c Hy; apply Hf; by right.
Qed.

Lemma for_try_app (f : A -> S -> outcome (result S)) xs ys s :
  for_try f (xs ++ ys) s =
  (r ← for_try f xs s; match r with Ok s' => for_try f ys s' | Err e => Done (Err e) end).
Proof.
  revert s; induction xs as [|x xs IH]; intros s; simpl; [done|].
  destruct (f x s) as [[a|e]|]; simpl; [apply IH|done|done].
Qed.
End outcome_lemmas.

(** ** Lemmas on stateful calls *)

Section eff_lemmas.
Context {St A B : Type}.
Implicit Types (m : eff St A) (k : A -> eff St B).

Lemma eff_bind_ok m k s a s' : m s = Done (Ok a, s') -> (m ≫= k) s = k a s'.
Proof. intros E. unfold mbind, eff_bind. by rewrite E. Qed.

Lemma eff_bind_err m k s e s' : m s = Done (Err e, s') -> (m ≫= k) s = Done (Err e, s').
Proof. intros E. unfold mbind, eff_bind. by rewrite E. Qed.

Lemma eff_bind_inv m k s r s' :
  (m ≫= k) s = Done (r, s') ->
  (exists a s1, m s = Done (Ok a, s1) /\ k a s1 = Done (r, s')) \/
  (exists e, m s = Done (Err e, s') /\ r = Err e).
Proof.
  unfold mbind, eff_bind. destruct (m s) as [[[a|e] s1]|p] eqn:E; [eauto 10| |done].
  intros [= <- <-]. eauto.
Qed.

End eff_lemmas.

(** Total correctness: from a state with [P] the call returns, and [Q] holds of
    its result and final state. *)
Definition returns {St A} (P : St -> Prop) (m : eff St A) (Q : result A -> St -> Prop) : Prop :=
  forall s, P s -> exists r s', m s = Done (r, s') /\ Q r s'.

(** [P] is an invariant of the call, and [Q] holds of what it returns. *)
Definition keeps {St A} (P : St -> Prop) (m : eff St A) (Q : A -> Prop) : Prop :=
  returns P m (fun r s => P s /\ forall a, r = Ok a -> Q a).

Lemma returns_bind {St A B} (P : St -> Prop) (m : eff St A) (k : A -> eff St B) Q R :
  returns P m Q -> (forall a, returns (Q (Ok a)) (k a) R) -> (forall e s, Q (Err e) s -> R (Err e) s) ->
  returns P (m ≫= k) R.
Proof.
  intros Hm Hk He s HP. destruct (Hm s HP) as ([a|e] & s1 & E & HQ).
  - rewrite (eff_bind_ok _ _ _ _ _ E). by apply Hk.
  - exists (Err e), s1. rewrite (eff_bind_err _ _ _ _ _ E). auto.
Qed.

Lemma keeps_bind {St A B} (P : St -> Prop) (m : eff St A) (k : A -> eff St B) Q R :
  keeps P m Q -> (forall a, Q a -> keeps P (k a) R) -> keeps P (m ≫= k) R.
Proof.
  intros Hm Hk. eapply returns_bind; [exact Hm| |].
  - intros a s [HP HQ]. apply Hk; auto.
  - intros e s [HP _]. by split.
Qed.

Lemma keeps_weaken {St A} (P : St -> Prop) (m : eff St A) (Q R : A -> Prop) :
  keeps P m Q -> (forall a, Q a -> R a) -> keeps P m R.
Proof. intros Hm HQ s HP. destruct (Hm s HP) as (r & s' & E & ? & ?). eauto 10. Qed.

Lemma keeps_ret {St A} (P : St -> Prop) (a : A) (Q : A -> Prop) : Q a -> keeps P (mret a) Q.
Proof. intros HQ s HP. exists (Ok a), s. split_and!; [done..|]. by intros ? [= <-]. Qed.

Lemma keeps_raise {St A} (P : St -> Prop) e (Q : A -> Prop) : keeps P (raise e) Q.
Proof. intros s HP. exists (Err e), s. by split_and!. Qed.

Lemma keeps_lift_result {St A} (P : St -> Prop) (r : result A) (Q : A -> Prop) :
  (forall a, r = Ok a -> Q a) -> keeps P (lift_result r) Q.
Proof. intros HQ s HP. exists r, s. by split_and!. Qed.

Lemma keeps_lift_outcome {St A} (P : St -> Prop) (o : outcome A) a (Q : A -> Prop) :
  o = Done a -> Q a -> keeps P (lift_outcome o) Q.
Proof. intros -> HQ s HP. exists (Ok a), s. split_and!; [done..|]. by intros ? [= <-]. Qed.

(** ** Lemmas on slices *)

Section slice_lemmas.
Context {A : Type}.
Implicit Types v src : list A.

Lemma length_splice v start src :
  (start + length src <= length v)%nat -> length (splice v start src) = length v.
Proof. intros; unfold splice; rewrite !length_app, length_take, length_drop; lia. Qed.

Lemma take_drop_splice v start src :
  (start + length src <= length v)%nat ->
  take (length src) (drop start (splice v start src)) = src.
Proof.
  intros; unfold splice.
  rewrite drop_app_ge by (rewrite length_take; lia).
  rewrite length_take, Nat.min_l, Nat.sub_diag, drop_0 by lia.
  by rewrite take_app_length.
Qed.

(** A write leaves every disjoint window unchanged. *)
Lemma take_drop_splice_ne v start src s n :
  (start + length src <= length v)%nat ->
  (s + n <= start \/ start + length src <= s)%nat ->
  take n (drop s (splice v start src)) = take n (drop s v).
Proof.
  intros Hb Hd. apply list_eq; intros i.
  destruct (decide (i < n)%nat) as [Hi|Hi]; [|by rewrite !lookup_take_ge by lia].
  rewrite !lookup_take_lt, !lookup_drop by lia. unfold splice.
  destruct Hd as [Hd|Hd].
  - rewrite lookup_app_l by (rewrite length_take; lia).
    by rewrite lookup_take_lt by lia.
  - rewrite lookup_app_r by (rewrite length_take; lia).
    rewrite lookup_app_r by (rewrite length_take; lia).
    rewrite lookup_drop, length_take. f_equal; lia.
Qed.

Lemma splice_full v src : length v = length src -> splice v 0 src = src.
Proof. intros H; unfold splice; simpl. by rewrite drop_ge, app_nil_r by lia. Qed.

Lemma splice_app_l v1 v2 start src :
  (start + length src <= length v1)%nat ->
  splice (v1 ++ v2) start src = splice v1 start src ++ v2.
Proof.
  intros; unfold splice.
  by rewrite take_app_le, drop_app_le, !app_assoc by lia.
Qed.

Lemma splice_app_r v1 v2 start src :
  splice (v1 ++ v2) (length v1 + start) src = v1 ++ splice v2 start src.
Proof.
  unfold splice.
  rewrite take_app_ge, drop_app_ge by lia.
  rewrite <- !app_assoc. repeat f_equal; lia.
Qed.

Lemma slice_done v start len :
  (start + len <= length v)%nat -> slice v start len = Done (take len (drop start v)).
Proof. intros; unfold slice; by rewrite decide_True. Qed.

Lemma copy_into_done v start src :
  (start + length src <= length v)%nat -> copy_into v start src = Done (splice v start src).
Proof. intros; unfold copy_into; by rewrite decide_True. Qed.

Lemma index_done v i x : v !! i = Some x -> index v i = Done x.
Proof. intros H; unfold index; by rewrite H. Qed.

Lemma index_inv v i x : index v i = Done x -> v !! i = Some x.
Proof. unfold index. destruct (v !! i); [by intros [= ->]|done]. Qed.

Lemma set_index_done v i x :
  (i < length v)%nat -> set_index v i x = Done (<[i := x]> v).
Proof. intros; unfold set_index; by rewrite decide_True. Qed.

Lemma take_drop_app_middle (a b c : list A) :
  take (length b) (drop (length a) (a ++ b ++ c)) = b.
Proof. by rewrite drop_app_length, take_app_length. Qed.
End slice_lemmas.

(** ** Lemmas on little-endian byte strings *)

Lemma length_to_le n z : length (to_le n z) = n.
Proof. revert z; induction n; intros; simpl; by rewrite ?IHn. Qed.

Lemma to_le_u8 n z : Forall is_u8 (to_le n z).
Proof.
  revert z; induction n as [|n IH]; intros z; simpl; constructor; [|apply IH].
  unfold is_u8; pose proof (Z.mod_pos_bound z 256); lia.
Qed.

Lemma from_to_le n z : 0 <= z < 256 ^ Z.of_nat n -> from_le (to_le n z) = z.
Proof.
  revert z; induction n as [|n IH]; intros z Hz.
  - change (256 ^ Z.of_nat 0) with 1 in Hz; simpl; lia.
  - rewrite Nat2Z.inj_succ, Z.pow_succ_r in Hz by lia.
    simpl. rewrite IH.
    + pose proof (Z.div_mod z 256); lia.
    + split; [apply Z.div_pos; lia|]. apply Z.div_lt_upper_bound; lia.
Qed.

Lemma from_le_bound bs :
  Forall is_u8 bs -> 0 <= from_le bs < 256 ^ Z.of_nat (length bs).
Proof.
  induction 1 as [|b bs Hb Hbs IH]; [simpl; lia|].
  cbn [length from_le]. rewrite Nat2Z.inj_succ, Z.pow_succ_r by lia.
  unfold is_u8 in Hb. lia.
Qed.

Lemma to_from_le bs : Forall is_u8 bs -> to_le (length bs) (from_le bs) = bs.
Proof.
  induction 1 as [|b bs Hb Hbs IH]; [done|]. unfold is_u8 in Hb. simpl.
  replace (b + 256 * from_le bs) with (b + from_le bs * 256) by lia.
  rewrite Z.mod_add, Z.mod_small, Z.div_add, Z.div_small, Z.add_0_l by lia.
  by rewrite IH.
Qed.

(** Little-endian encodings of equal width are injective on their range. *)
Lemma to_le_inj n a b :
  0 <= a < 256 ^ Z.of_nat n -> 0 <= b < 256 ^ Z.of_nat n ->
  to_le n a = to_le n b -> a = b.
Proof. intros Ha Hb E. by rewrite <- (from_to_le n a), E, from_to_le. Qed.

(** ** Lemmas on the integer helpers *)

Lemma ndiv_ceil_spec a b :
  (0 < b)%nat -> (a <= ndiv_ceil a b * b /\ ndiv_ceil a b * b < a + b)%nat.
Proof.
  intros Hb. unfold ndiv_ceil.
  pose proof (Nat.div_mod a b ltac:(lia)); pose proof (Nat.mod_upper_bound a b ltac:(lia)).
  case_decide; nia.
Qed.

(** Block [g] of [n] blocks of size [s] ends within them. *)
Lemma block_within g n s : (g < n)%nat -> (g * s + s <= n * s)%nat.
Proof. intros. nia. Qed.

Lemma div_ceil_spec a b :
  0 < b -> a <= div_ceil a b * b /\ div_ceil a b * b < a + b.
Proof.
  intros Hb. unfold div_ceil.
  pose proof (Z.div_mod a b ltac:(lia)); pose proof (Z.mod_pos_bound a b Hb).
  case (Z.eqb_spec (a mod b) 0); nia.
Qed.

Lemma div_ceil_nonneg a b : 0 <= a -> 0 < b -> 0 <= div_ceil a b.
Proof. intros; pose proof (div_ceil_spec a b); nia. Qed.

(** Setting and clearing one bit of a byte, in terms of [Z.testbit]. *)
Lemma land_pow2_ne0 h n : 0 <= n -> (Z.land h (2 ^ n) =? 0) = negb (Z.testbit h n).
Proof.
  intros Hn. destruct (Z.testbit h n) eqn:E; simpl.
  - apply Z.eqb_neq; intros H0.
    assert (Z.testbit (Z.land h (2 ^ n)) n = true) as Ht
      by (by rewrite Z.land_spec, E, Z.pow2_bits_true by lia).
    rewrite H0, Z.bits_0 in Ht; discriminate.
  - apply Z.eqb_eq, Z.bits_inj'; intros m Hm.
    rewrite Z.land_spec, Z.bits_0. destruct (Z.eq_dec n m) as [<-|Hne].
    + by rewrite E.
    + by rewrite Z.pow2_bits_false, andb_false_r by lia.
Qed.

Lemma testbit_lor_pow2 h n m :
  0 <= n -> 0 <= m -> Z.testbit (Z.lor h (2 ^ n)) m = (Z.testbit h m || (n =? m)).
Proof. intros. by rewrite Z.lor_spec, Z.pow2_bits_eqb by lia. Qed.

Lemma testbit_clear_pow2 h n m :
  0 <= n < 8 -> 0 <= m < 8 ->
  Z.testbit (Z.land h (u8_not (2 ^ n))) m = (Z.testbit h m && negb (n =? m)).
Proof.
  intros. unfold u8_not. rewrite Z.land_spec, Z.lxor_spec, Z.pow2_bits_eqb by lia.
  change 255 with (Z.ones 8). rewrite Z.ones_spec_low by lia.
  by destruct (n =? m).
Qed.

(** A byte is a non-negative number without bits from position 8 on. *)
Lemma is_u8_bits x : is_u8 x <-> 0 <= x /\ forall m, 8 <= m -> Z.testbit x m = false.
Proof.
  unfold is_u8; split.
  - intros [H0 H]; split; [done|]; intros m Hm.
    destruct (Z.eq_dec x 0) as [->|]; [apply Z.bits_0|].
    apply Z.bits_above_log2; [done|].
    enough (Z.log2 x < 8) by lia. apply Z.log2_lt_pow2; lia.
  - intros [H0 H]; split; [done|].
    replace x with (x mod 2 ^ 8); [apply Z.mod_pos_bound; lia|].
    apply Z.bits_inj'; intros m Hm.
    destruct (Z.lt_ge_cases m 8).
    + by rewrite Z.mod_pow2_bits_low by lia.
    + by rewrite Z.mod_pow2_bits_high, H by lia.
Qed.

Lemma is_u8_lor a b : is_u8 a -> is_u8 b -> is_u8 (Z.lor a b).
Proof.
  rewrite !is_u8_bits; intros [Ha Ha'] [Hb Hb']; split; [by apply Z.lor_nonneg|].
  intros m Hm; by rewrite Z.lor_spec, Ha', Hb'.
Qed.

Lemma is_u8_land a b : is_u8 a -> is_u8 (Z.land a b).
Proof.
  rewrite !is_u8_bits; intros [Ha Ha']; split; [apply Z.land_nonneg; by left|].
  intros m Hm; by rewrite Z.land_spec, Ha'.
Qed.

(** ** Further list lemmas *)

Lemma forallb_exists_false {A} (f : A -> bool) l :
  forallb f l = false -> exists x, x ∈ l /\ f x = false.
Proof.
  induction l as [|x l IH]; cbn [forallb]; [done|]. intros [Hf|Hf]%andb_false_iff.
  - exists x. split; [left|done].
  - destruct (IH Hf) as (y & ? & ?). exists y. split; [by right|done].
Qed.

Lemma elem_of_range_incl first last i :
  i ∈ range_incl first last <-> (first <= i <= last)%nat.
Proof. unfold range_incl. rewrite elem_of_seq. lia. Qed.

Lemma Forall_splice {A} (P : A -> Prop) v start src :
  Forall P v -> Forall P src -> Forall P (splice v start src).
Proof.
  intros. unfold splice. apply Forall_app; split; [by apply Forall_take|].
  apply Forall_app; split; [done|by apply Forall_drop].
Qed.

Lemma flat_map_ext_in {A B} (f g : A -> list B) l :
  (forall x, x ∈ l -> f x = g x) -> flat_map f l = flat_map g l.
Proof.
  induction l as [|x l IH]; intros H; [done|]. simpl.
  rewrite H by left. f_equal. apply IH. intros y Hy; apply H; by right.
Qed.

Lemma list_eq_take_drop {A} n (l1 l2 : list A) :
  take n l1 = take n l2 -> drop n l1 = drop n l2 -> l1 = l2.
Proof. intros H1 H2. by rewrite <- (take_drop n l1), H1, H2, take_drop. Qed.

#[export] Hint Rewrite @length_app @length_take @length_drop @length_replicate
  @length_insert @length_splice @length_to_le @length_map @length_seq : ubi_len.
#[export] Hint Resolve to_le_u8 Forall_splice : ubi.
