(* ===== verification/Metadata.v ===== *)
(** * Metadata: the on-disk stripe metadata (UbiMetadata)

    Models src/src/block_device/bdev_lazy/metadata/types.rs: the header
    sector, the CRC-protected sectors of stripe headers, [write_to_buf] and
    [from_bytes].  The CRC-32 function of the crc32fast crate is the parameter
    [crc32]; the theorems use of it only that it yields a [u32].

    [encode] is the specification of the on-disk image: the header sector
    followed by one sector per group of 508 stripe headers.  [write_to_buf] is
    proved to produce exactly that image, [from_bytes] to invert it, and one
    rewritten sector to be the image of the updated metadata. *)
From S2P Require Import Prelude.

(** ** Constants *)

Definition SECTOR_SIZE : nat := 512.
Definition UBI_MAGIC_SIZE : nat := 9.
Definition UBI_MAGIC : list Z := [66; 68; 69; 86; 95; 85; 66; 73; 0]. (* "BDEV_UBI\0" *)
Definition METADATA_VERSION_MAJOR : Z := 2.
Definition METADATA_VERSION_MINOR : Z := 0.
Definition CRC32_SIZE : nat := 4.
Definition STRIPE_HEADERS_PER_SECTOR : nat := SECTOR_SIZE - CRC32_SIZE. (* 508 *)
Definition STRIPE_COUNT_OFFSET : nat := UBI_MAGIC_SIZE + 2 + 2 + 1.
Definition MAX_STRIPE_SECTOR_COUNT_SHIFT : Z := 17.
Definition HEADER_SIZE : nat := UBI_MAGIC_SIZE + 2 + 2 + 1 + 4. (* 18 *)

Definition FETCHED : Z := Z.shiftl 1 0.
Definition WRITTEN : Z := Z.shiftl 1 1.
Definition HAS_SOURCE : Z := Z.shiftl 1 2.

Arguments SECTOR_SIZE : simpl never.
Arguments STRIPE_HEADERS_PER_SECTOR : simpl never.
Arguments HEADER_SIZE : simpl never.

(** Make the sizes visible to [lia]. *)
Ltac sizes := unfold HEADER_SIZE, STRIPE_COUNT_OFFSET, STRIPE_HEADERS_PER_SECTOR,
  CRC32_SIZE, UBI_MAGIC_SIZE, SECTOR_SIZE in *; try lia.

(** ** The metadata record *)

Record UbiMetadata := mkUbiMetadata {
  magic : list Z;
  version_major : list Z;
  version_minor : list Z;
  stripe_sector_count_shift : Z;
  stripe_headers : list Z;
}.

#[global] Instance UbiMetadata_eq_dec : EqDecision UbiMetadata.
Proof. solve_decision. Defined.

Definition with_headers (m : UbiMetadata) (hs : list Z) : UbiMetadata :=
  mkUbiMetadata (magic m) (version_major m) (version_minor m)
    (stripe_sector_count_shift m) hs.

(** Bit tests as the source writes them, [header & FLAG != 0]. *)
Definition has_flag (header flag : Z) : bool := negb (Z.land header flag =? 0).

Definition stripe_header_sector_count (m : UbiMetadata) : nat :=
  ndiv_ceil (length (stripe_headers m)) STRIPE_HEADERS_PER_SECTOR.

Definition metadata_size (m : UbiMetadata) : nat :=
  (SECTOR_SIZE + stripe_header_sector_count m * SECTOR_SIZE)%nat.

Definition stripe_id_to_sector (stripe_id : nat) : Z :=
  Z.of_nat (stripe_id `div` STRIPE_HEADERS_PER_SECTOR + 1).

Definition stripe_id_to_group (stripe_id : nat) : nat :=
  stripe_id `div` STRIPE_HEADERS_PER_SECTOR.

Definition stripe_sector_count (m : UbiMetadata) : Z :=
  Z.shiftl 1 (stripe_sector_count_shift m).

Definition stripe_size (m : UbiMetadata) : Z :=
  stripe_sector_count m * Z.of_nat SECTOR_SIZE.

Definition stripe_count (m : UbiMetadata) : Z := Z.of_nat (length (stripe_headers m)).

Definition version_major_u16 (m : UbiMetadata) : Z := from_le (version_major m).
Definition version_minor_u16 (m : UbiMetadata) : Z := from_le (version_minor m).

(** [UbiMetadata::new] and [new_from_stripe_source]. *)
Definition new_metadata (shift : Z) (base_stripe_count image_stripe_count : nat) : UbiMetadata :=
  mkUbiMetadata UBI_MAGIC (to_le 2 METADATA_VERSION_MAJOR) (to_le 2 METADATA_VERSION_MINOR) shift
    (map (fun i => if bool_decide (i < image_stripe_count)%nat then HAS_SOURCE else 0)
       (seq 0 base_stripe_count)).

Definition new_from_stripe_source (shift : Z) (base_stripe_count : nat)
    (has_stripe : nat -> bool) : UbiMetadata :=
  mkUbiMetadata UBI_MAGIC (to_le 2 METADATA_VERSION_MAJOR) (to_le 2 METADATA_VERSION_MINOR) shift
    (map (fun i => if has_stripe i then HAS_SOURCE else 0) (seq 0 base_stripe_count)).

Definition has_fetched_all_stripes (m : UbiMetadata) : bool :=
  forallb (fun header => (Z.land header HAS_SOURCE =? 0) || has_flag header FETCHED)
    (stripe_headers m).

(** The headers of one metadata sector. *)
Definition header_group (hs : list Z) (g : nat) : list Z :=
  take STRIPE_HEADERS_PER_SECTOR (drop (g * STRIPE_HEADERS_PER_SECTOR) hs).

(** ** Serialization *)

Section crc.
Context (crc32 : list Z -> Z).

Definition compute_sector_crc32 (data : list Z) : list Z := to_le CRC32_SIZE (crc32 data).

Definition write_sector_with_crc32 (sector_buf contents : list Z) : outcome (list Z) :=
  let b := replicate (length sector_buf) 0 in
  b ← copy_into b 0 contents;
  body ← slice b 0 (SECTOR_SIZE - CRC32_SIZE);
  copy_into b (SECTOR_SIZE - CRC32_SIZE) (compute_sector_crc32 body).

Definition sector_crc32_is_valid (sector_buf : list Z) : outcome bool :=
  body ← slice sector_buf 0 (SECTOR_SIZE - CRC32_SIZE);
  stored ← slice sector_buf (SECTOR_SIZE - CRC32_SIZE) CRC32_SIZE;
  Done (bool_decide (stored = compute_sector_crc32 body)).

(** One iteration of the loop of [from_bytes]. *)
Definition read_group (buf : list Z) (group : nat) (all_headers : list Z)
  : outcome (result (list Z)) :=
  let sector_start := (SECTOR_SIZE + group * SECTOR_SIZE)%nat in
  if negb (bool_decide (sector_start + SECTOR_SIZE <= length buf)%nat) then Panic AssertionFailed
  else
  sector_data ← slice buf sector_start SECTOR_SIZE;
  header_data ← slice sector_data 0 STRIPE_HEADERS_PER_SECTOR;
  valid ← sector_crc32_is_valid sector_data;
  if negb valid then Done (Err (MetadataError (GroupCrcMismatch group)))
  else Done (Ok (all_headers ++ header_data)).

Definition from_bytes (buf : list Z) : outcome (result UbiMetadata) :=
  if bool_decide (length buf < SECTOR_SIZE)%nat then Done (Err (MetadataError BufferTooSmall)) else
  if negb (bool_decide (length buf `mod` SECTOR_SIZE = 0)%nat)
  then Done (Err (MetadataError NotSectorMultiple)) else
  header_sector ← slice buf 0 SECTOR_SIZE;
  header_crc_valid ← sector_crc32_is_valid header_sector;
  if negb header_crc_valid then Done (Err (MetadataError HeaderCrcMismatch)) else
  mg ← slice buf 0 UBI_MAGIC_SIZE;
  if negb (bool_decide (mg = UBI_MAGIC)) then Done (Err (MetadataError MagicMismatch)) else
  vmajor ← slice buf UBI_MAGIC_SIZE 2;
  vminor ← slice buf (UBI_MAGIC_SIZE + 2) 2;
  if negb (bool_decide (vmajor = to_le 2 METADATA_VERSION_MAJOR))
     || negb (bool_decide (vminor = to_le 2 METADATA_VERSION_MINOR))
  then Done (Err (MetadataError VersionMismatch)) else
  shift ← index buf (UBI_MAGIC_SIZE + 4);
  if MAX_STRIPE_SECTOR_COUNT_SHIFT <? shift then Done (Err (MetadataError ShiftTooLarge)) else
  count_bytes ← slice buf STRIPE_COUNT_OFFSET 4;
  let count := from_le count_bytes in
  let data_sectors_max := ((length buf - SECTOR_SIZE) `div` SECTOR_SIZE)%nat in
  let max_stripe_count := (data_sectors_max * STRIPE_HEADERS_PER_SECTOR)%nat in
  if Z.of_nat max_stripe_count <? count then Done (Err (MetadataError StripeCountTooLarge)) else
  let stripe_count := Z.to_nat count in
  let data_sectors := ndiv_ceil stripe_count STRIPE_HEADERS_PER_SECTOR in
  r ← for_try (read_group buf) (seq 0 data_sectors) [];
  let? all_headers := r in
  if negb (bool_decide (stripe_count <= length all_headers)%nat) then Panic AssertionFailed else
  Done (Ok (mkUbiMetadata mg vmajor vminor shift (take stripe_count all_headers))).

(** The 18 header bytes that [write_to_buf] assembles. *)
Definition header_bytes (m : UbiMetadata) (count : Z) : outcome (list Z) :=
  let h := replicate HEADER_SIZE 0 in
  h ← copy_into h 0 (magic m);
  h ← copy_into h UBI_MAGIC_SIZE (version_major m);
  h ← copy_into h (UBI_MAGIC_SIZE + 2) (version_minor m);
  h ← set_index h (UBI_MAGIC_SIZE + 4) (stripe_sector_count_shift m);
  copy_into h STRIPE_COUNT_OFFSET (to_le 4 count).

(** One iteration of the loop of [write_to_buf]. *)
Definition write_group (m : UbiMetadata) (group : nat) (buf : list Z) : outcome (list Z) :=
  let start := (group * STRIPE_HEADERS_PER_SECTOR)%nat in
  let end_ := ((start + STRIPE_HEADERS_PER_SECTOR) `min` length (stripe_headers m))%nat in
  headers ← slice (stripe_headers m) start (end_ - start);
  let sector_start := (SECTOR_SIZE + group * SECTOR_SIZE)%nat in
  if negb (bool_decide (sector_start + SECTOR_SIZE <= length buf)%nat) then Panic AssertionFailed
  else
  old ← slice buf sector_start SECTOR_SIZE;
  sector ← write_sector_with_crc32 old headers;
  copy_into buf sector_start sector.

Definition write_to_buf (m : UbiMetadata) (buf : list Z) : outcome (result (list Z)) :=
  let total_len := metadata_size m in
  if bool_decide (length buf < total_len)%nat then Done (Err (MetadataError BufferTooSmall)) else
  let stripe_count := Z.of_nat (length (stripe_headers m)) in
  if U32_MAX <? stripe_count then Done (Err (MetadataError OtherMetadataFault)) else
  header ← header_bytes m stripe_count;
  old ← slice buf 0 SECTOR_SIZE;
  sector ← write_sector_with_crc32 old header;
  buf ← copy_into buf 0 sector;
  buf ← for_each (write_group m) (seq 0 (stripe_header_sector_count m)) buf;
  Done (Ok buf).

(** ** Specification of the on-disk image *)

Definition sector_image (contents : list Z) : list Z :=
  let body := contents ++ replicate (STRIPE_HEADERS_PER_SECTOR - length contents) 0 in
  body ++ compute_sector_crc32 body.

Definition header_image (m : UbiMetadata) : list Z :=
  magic m ++ version_major m ++ version_minor m ++ [stripe_sector_count_shift m]
    ++ to_le 4 (Z.of_nat (length (stripe_headers m))).

Definition groups_image (hs : list Z) (n : nat) : list Z :=
  flat_map (fun g => sector_image (header_group hs g)) (seq 0 n).

Definition encode (m : UbiMetadata) : list Z :=
  sector_image (header_image m) ++ groups_image (stripe_headers m) (stripe_header_sector_count m).
End crc.

(** Metadata that the program creates and stores. *)
Record metadata_wf (m : UbiMetadata) : Prop := {
  wf_magic : magic m = UBI_MAGIC;
  wf_major : version_major m = to_le 2 METADATA_VERSION_MAJOR;
  wf_minor : version_minor m = to_le 2 METADATA_VERSION_MINOR;
  wf_shift : 0 <= stripe_sector_count_shift m <= MAX_STRIPE_SECTOR_COUNT_SHIFT;
  wf_headers : Forall is_u8 (stripe_headers m);
  wf_count : Z.of_nat (length (stripe_headers m)) <= U32_MAX;
}.

(** ** Facts about groups of headers *)

Lemma length_header_group hs g : (length (header_group hs g) <= STRIPE_HEADERS_PER_SECTOR)%nat.
Proof. unfold header_group. rewrite length_take. lia. Qed.

Lemma header_group_lookup hs i :
  header_group hs (stripe_id_to_group i) !! (i `mod` STRIPE_HEADERS_PER_SECTOR)%nat = hs !! i.
Proof.
  unfold header_group, stripe_id_to_group.
  pose proof (Nat.mod_upper_bound i STRIPE_HEADERS_PER_SECTOR ltac:(sizes)) as Hm.
  rewrite lookup_take_lt, lookup_drop by lia. f_equal.
  pose proof (Nat.div_mod i STRIPE_HEADERS_PER_SECTOR ltac:(sizes)). lia.
Qed.

(** The groups partition the header vector. *)
Lemma concat_header_groups hs n :
  (length hs <= n * STRIPE_HEADERS_PER_SECTOR)%nat ->
  flat_map (header_group hs) (seq 0 n) = hs.
Proof.
  revert hs; induction n as [|n IH]; intros hs Hlen.
  - destruct hs; [done|simpl in *; lia].
  - rewrite <- cons_seq, <- fmap_S_seq. cbn [flat_map].
    transitivity (header_group hs 0 ++ drop STRIPE_HEADERS_PER_SECTOR hs).
    2:{ unfold header_group. cbn [Nat.mul]. by rewrite drop_0, take_drop. }
    f_equal. rewrite <- (IH (drop STRIPE_HEADERS_PER_SECTOR hs)) at 1 by (rewrite length_drop; lia).
    clear IH Hlen. induction (seq 0 n) as [|g gs IHg]; [done|]. cbn [fmap list_fmap flat_map].
    f_equal; [|done]. unfold header_group. rewrite drop_drop. do 2 f_equal.
Qed.

(** The headers [hs] with group [g] taken from [hs2]. *)
Definition regroup (hs hs2 : list Z) (g : nat) : list Z :=
  splice hs (g * STRIPE_HEADERS_PER_SECTOR) (header_group hs2 g).

Lemma regroup_lookup hs hs2 g i :
  length hs2 = length hs -> (g * STRIPE_HEADERS_PER_SECTOR <= length hs)%nat ->
  regroup hs hs2 g !! i = if decide (stripe_id_to_group i = g) then hs2 !! i else hs !! i.
Proof.
  intros Hl Hg. unfold regroup, splice. set (s := (g * STRIPE_HEADERS_PER_SECTOR)%nat) in *.
  assert (length (header_group hs2 g) = STRIPE_HEADERS_PER_SECTOR `min` (length hs - s))%nat as Hgl
    by (unfold header_group; rewrite length_take, length_drop, Hl; fold s; lia).
  assert (stripe_id_to_group i = g <-> s <= i < s + STRIPE_HEADERS_PER_SECTOR)%nat as Hi.
  { unfold stripe_id_to_group, s.
    pose proof (Nat.div_mod i STRIPE_HEADERS_PER_SECTOR ltac:(sizes)).
    pose proof (Nat.mod_upper_bound i STRIPE_HEADERS_PER_SECTOR ltac:(sizes)).
    split; [intros <-; lia|]. intros. symmetry.
    apply Nat.div_unique with (i - g * STRIPE_HEADERS_PER_SECTOR)%nat; lia. }
  destruct (decide (i < s)%nat).
  { rewrite lookup_app_l by (rewrite length_take; lia). rewrite lookup_take_lt by lia.
    rewrite decide_False by (rewrite Hi; lia). done. }
  rewrite lookup_app_r by (rewrite length_take; lia). rewrite length_take, Nat.min_l by lia.
  destruct (decide (i - s < length (header_group hs2 g))%nat) as [Hlt|Hge].
  - rewrite decide_True by (rewrite Hi; lia). rewrite lookup_app_l by done.
    unfold header_group. fold s. rewrite lookup_take_lt, lookup_drop by lia. f_equal; lia.
  - rewrite lookup_app_r by lia. rewrite lookup_drop.
    case_decide as Hd; [rewrite Hi in Hd|]; [rewrite (lookup_ge_None_2 hs2) by lia; apply lookup_ge_None_2; lia|].
    rewrite Hi in Hd. f_equal. lia.
Qed.

Lemma length_regroup hs hs2 g :
  length hs2 = length hs -> (g * STRIPE_HEADERS_PER_SECTOR <= length hs)%nat ->
  length (regroup hs hs2 g) = length hs.
Proof.
  intros Hl Hg. unfold regroup. apply length_splice. unfold header_group.
  rewrite length_take, length_drop, Hl. lia.
Qed.

Lemma header_group_ext hs hs' g :
  (forall i, stripe_id_to_group i = g -> hs !! i = hs' !! i) -> header_group hs g = header_group hs' g.
Proof.
  intros H. unfold header_group. apply list_eq; intros j.
  destruct (decide (j < STRIPE_HEADERS_PER_SECTOR)%nat) as [Hj|Hj];
    [|by rewrite !lookup_take_ge by lia].
  rewrite !lookup_take_lt, !lookup_drop by lia. apply H. unfold stripe_id_to_group.
  symmetry. apply Nat.div_unique with j; lia.
Qed.

Section crc_proofs.
Context (crc32 : list Z -> Z).
Notation simage := (sector_image crc32).
Notation gimage := (groups_image crc32).
Notation enc := (encode crc32).

Lemma length_sector_image c :
  (length c <= STRIPE_HEADERS_PER_SECTOR)%nat -> length (simage c) = SECTOR_SIZE.
Proof.
  intros. unfold sector_image, compute_sector_crc32.
  rewrite !length_app, length_replicate, length_to_le. sizes.
Qed.

Lemma write_sector_spec old c :
  length old = SECTOR_SIZE -> (length c <= STRIPE_HEADERS_PER_SECTOR)%nat ->
  write_sector_with_crc32 crc32 old c = Done (simage c).
Proof.
  intros Hold Hc. unfold write_sector_with_crc32.
  rewrite copy_into_done by (rewrite length_replicate; simpl; sizes). cbn [mbind outcome_bind].
  set (body := c ++ replicate (STRIPE_HEADERS_PER_SECTOR - length c) 0).
  assert (length body = STRIPE_HEADERS_PER_SECTOR) as Hbody
    by (unfold body; rewrite length_app, length_replicate; lia).
  assert (splice (replicate (length old) 0) 0 c = body ++ replicate CRC32_SIZE 0) as ->.
  { unfold splice, body. rewrite take_0; cbn [Nat.add app]. rewrite drop_replicate, Hold, <- app_assoc.
    rewrite <- replicate_add. do 2 f_equal. sizes. }
  rewrite slice_done by (rewrite length_app, length_replicate, Hbody; sizes).
  cbn [mbind outcome_bind].
  rewrite drop_0, take_app_le, take_ge by (rewrite Hbody; unfold STRIPE_HEADERS_PER_SECTOR; lia).
  rewrite copy_into_done
    by (unfold compute_sector_crc32; rewrite length_app, length_replicate, length_to_le, Hbody; sizes).
  unfold sector_image. fold body.
  replace (SECTOR_SIZE - CRC32_SIZE)%nat with (length body + 0)%nat
    by (rewrite Hbody; unfold STRIPE_HEADERS_PER_SECTOR; lia).
  by rewrite splice_app_r, splice_full
    by (unfold compute_sector_crc32; by rewrite length_replicate, length_to_le).
Qed.

Lemma sector_image_valid c :
  (length c <= STRIPE_HEADERS_PER_SECTOR)%nat ->
  sector_crc32_is_valid crc32 (simage c) = Done true.
Proof.
  intros Hc. pose proof (length_sector_image c Hc) as Hlen. unfold sector_crc32_is_valid.
  rewrite !slice_done by (rewrite Hlen; sizes). cbn [mbind outcome_bind].
  f_equal. apply bool_decide_eq_true. unfold sector_image in *.
  set (body := c ++ _) in *.
  assert (length body = (SECTOR_SIZE - CRC32_SIZE)%nat) as Hb
    by (unfold body; rewrite length_app, length_replicate; unfold STRIPE_HEADERS_PER_SECTOR in *; lia).
  rewrite drop_0, <- Hb, take_app_length, drop_app_length.
  apply take_ge. unfold compute_sector_crc32. by rewrite length_to_le.
Qed.

(** The contents come first in a sector, followed by the zero padding. *)
Lemma take_sector_image c n :
  (n <= length c)%nat -> take n (simage c) = take n c.
Proof. intros. unfold sector_image. by rewrite <- app_assoc, take_app_le by lia. Qed.

Lemma take_body_sector_image c :
  (length c <= STRIPE_HEADERS_PER_SECTOR)%nat ->
  take STRIPE_HEADERS_PER_SECTOR (simage c)
  = c ++ replicate (STRIPE_HEADERS_PER_SECTOR - length c) 0.
Proof.
  intros Hc. unfold sector_image.
  rewrite take_app_le by (rewrite length_app, length_replicate; lia).
  apply take_ge. rewrite length_app, length_replicate. lia.
Qed.

Lemma groups_image_S hs n :
  gimage hs (S n) = gimage hs n ++ simage (header_group hs n).
Proof.
  unfold groups_image. rewrite seq_S, flat_map_app. simpl. by rewrite app_nil_r.
Qed.

Lemma length_groups_image hs n : length (gimage hs n) = (n * SECTOR_SIZE)%nat.
Proof.
  induction n as [|n IH]; [done|].
  rewrite groups_image_S, length_app, IH, length_sector_image by apply length_header_group. lia.
Qed.

Lemma header_bytes_spec m count :
  length (magic m) = UBI_MAGIC_SIZE -> length (version_major m) = 2%nat ->
  length (version_minor m) = 2%nat ->
  header_bytes m count = Done (magic m ++ version_major m ++ version_minor m
    ++ [stripe_sector_count_shift m] ++ to_le 4 count).
Proof.
  destruct m as [mg vj vn sh hs]; cbn [magic version_major version_minor stripe_sector_count_shift].
  unfold UBI_MAGIC_SIZE; intros H1 H2 H3.
  do 10 (destruct mg as [|? mg]; try discriminate H1).
  do 3 (destruct vj as [|? vj]; try discriminate H2).
  do 3 (destruct vn as [|? vn]; try discriminate H3).
  reflexivity.
Qed.

Lemma header_image_length m : metadata_wf m -> length (header_image m) = HEADER_SIZE.
Proof.
  intros []. unfold header_image. rewrite wf_magic0, wf_major0, wf_minor0. reflexivity.
Qed.

Lemma write_group_spec m g buf :
  (g < stripe_header_sector_count m)%nat -> (metadata_size m <= length buf)%nat ->
  write_group crc32 m g buf =
  Done (splice buf (SECTOR_SIZE + g * SECTOR_SIZE) (simage (header_group (stripe_headers m) g))).
Proof.
  intros Hg Hb. unfold write_group, metadata_size in *.
  pose proof (ndiv_ceil_spec (length (stripe_headers m)) STRIPE_HEADERS_PER_SECTOR ltac:(sizes)) as Hc.
  fold (stripe_header_sector_count m) in Hc.
  set (len := length (stripe_headers m)) in *.
  assert (g * STRIPE_HEADERS_PER_SECTOR < len)%nat by nia.
  rewrite (slice_done (stripe_headers m)) by (fold len; lia). cbn [mbind outcome_bind].
  rewrite bool_decide_true by nia. cbn [negb].
  rewrite slice_done by nia. cbn [mbind outcome_bind].
  assert (take ((g * STRIPE_HEADERS_PER_SECTOR + STRIPE_HEADERS_PER_SECTOR) `min` len
           - g * STRIPE_HEADERS_PER_SECTOR) (drop (g * STRIPE_HEADERS_PER_SECTOR) (stripe_headers m))
          = header_group (stripe_headers m) g) as ->.
  { unfold header_group. destruct (Nat.min_spec (g * STRIPE_HEADERS_PER_SECTOR
      + STRIPE_HEADERS_PER_SECTOR) len) as [[? ->]|[? ->]].
    - f_equal; lia.
    - rewrite !take_ge; [done|rewrite length_drop; fold len; lia..]. }
  rewrite write_sector_spec
    by (try apply length_header_group; rewrite length_take, length_drop; nia).
  cbn [mbind outcome_bind].
  apply copy_into_done. rewrite length_sector_image by apply length_header_group. nia.
Qed.

Lemma write_groups_spec m buf n :
  (n <= stripe_header_sector_count m)%nat -> (metadata_size m <= length buf)%nat ->
  for_each (write_group crc32 m) (seq 0 n) buf =
  Done (take SECTOR_SIZE buf ++ gimage (stripe_headers m) n
        ++ drop (SECTOR_SIZE + n * SECTOR_SIZE) buf).
Proof.
  intros Hn Hb. induction n as [|n IH].
  - cbn. f_equal. symmetry. rewrite Nat.add_0_r. apply take_drop.
  - rewrite seq_S, for_each_app, IH by lia. cbn [mbind outcome_bind for_each Nat.add].
    set (L := take SECTOR_SIZE buf ++ gimage (stripe_headers m) n).
    assert (length L = SECTOR_SIZE + n * SECTOR_SIZE)%nat as HL.
    { unfold L. rewrite length_app, length_groups_image, length_take. unfold metadata_size in Hb. nia. }
    unfold metadata_size in Hb.
    rewrite app_assoc. fold L.
    rewrite write_group_spec.
    2: lia. 2: { unfold metadata_size. rewrite length_app, length_drop, HL. nia. }
    cbn [mbind outcome_bind]. f_equal.
    replace (SECTOR_SIZE + n * SECTOR_SIZE)%nat with (length L + 0)%nat by lia.
    rewrite splice_app_r, groups_image_S, <- app_assoc. unfold L. rewrite <- !app_assoc.
    do 2 f_equal. fold L. unfold splice. rewrite take_0; cbn [Nat.add app].
    rewrite length_sector_image by apply length_header_group.
    rewrite drop_drop, HL. do 2 f_equal. lia.
Qed.

Lemma length_encode m : metadata_wf m -> length (enc m) = metadata_size m.
Proof.
  intros Hwf. unfold encode, metadata_size.
  rewrite length_app, length_groups_image, length_sector_image; [done|].
  rewrite header_image_length by done. sizes.
Qed.

(** [write_to_buf] writes the image and keeps every byte behind it. *)
Lemma write_to_buf_encode m buf :
  metadata_wf m -> (metadata_size m <= length buf)%nat ->
  write_to_buf crc32 m buf = Done (Ok (enc m ++ drop (metadata_size m) buf)).
Proof.
  intros Hwf Hb. pose proof Hwf as []. unfold write_to_buf.
  rewrite bool_decide_false by lia.
  destruct (Z.ltb_spec U32_MAX (Z.of_nat (length (stripe_headers m)))); [lia|].
  rewrite header_bytes_spec by (rewrite ?wf_magic0, ?wf_major0, ?wf_minor0; reflexivity).
  fold (header_image m). cbn [mbind outcome_bind].
  assert (SECTOR_SIZE <= length buf)%nat by (unfold metadata_size in Hb; lia).
  assert (length (header_image m) <= STRIPE_HEADERS_PER_SECTOR)%nat as Hh
    by (rewrite header_image_length by done; sizes).
  rewrite slice_done by lia. cbn [mbind outcome_bind].
  rewrite write_sector_spec by (try done; rewrite length_take, drop_0; lia).
  cbn [mbind outcome_bind].
  rewrite copy_into_done by (rewrite length_sector_image by done; lia).
  cbn [mbind outcome_bind].
  assert (splice buf 0 (simage (header_image m))
          = simage (header_image m) ++ drop SECTOR_SIZE buf) as ->.
  { unfold splice. rewrite take_0; cbn [Nat.add app]. by rewrite length_sector_image. }
  rewrite write_groups_spec; [|lia|].
  2: { rewrite length_app, length_drop, length_sector_image by done. lia. }
  cbn [mbind outcome_bind]. do 2 f_equal. unfold encode.
  rewrite <- (length_sector_image (header_image m)) at 1 by done.
  rewrite take_app_length, <- app_assoc. do 2 f_equal.
  rewrite drop_app_ge by (rewrite length_sector_image by done; lia).
  rewrite length_sector_image by done. rewrite drop_drop. f_equal. unfold metadata_size. lia.
Qed.
(** *** Reading *)

(** The bytes of stripe-header sector [g], and whether its CRC matches. *)
Definition raw_sector (buf : list Z) (g : nat) : list Z :=
  take SECTOR_SIZE (drop (SECTOR_SIZE + g * SECTOR_SIZE) buf).
Definition sector_intact (s : list Z) : Prop :=
  take CRC32_SIZE (drop STRIPE_HEADERS_PER_SECTOR s)
  = compute_sector_crc32 crc32 (take STRIPE_HEADERS_PER_SECTOR s).

#[export] Instance sector_intact_dec s : Decision (sector_intact s).
Proof. unfold sector_intact. apply _. Defined.

Lemma crc_valid_spec s :
  length s = SECTOR_SIZE ->
  sector_crc32_is_valid crc32 s = Done (bool_decide (sector_intact s)).
Proof.
  intros Hs. unfold sector_crc32_is_valid, sector_intact.
  rewrite (slice_done s 0) by (rewrite Hs; sizes). cbn [mbind outcome_bind].
  rewrite slice_done by (rewrite Hs; sizes). cbn [mbind outcome_bind]. by rewrite drop_0.
Qed.

Lemma length_raw_sector buf n g :
  (SECTOR_SIZE + n * SECTOR_SIZE <= length buf)%nat -> (g < n)%nat ->
  length (raw_sector buf g) = SECTOR_SIZE.
Proof. intros. unfold raw_sector. rewrite length_take, length_drop. nia. Qed.

Lemma read_group_spec buf n g acc :
  (SECTOR_SIZE + n * SECTOR_SIZE <= length buf)%nat -> (g < n)%nat ->
  read_group crc32 buf g acc =
  Done (if bool_decide (sector_intact (raw_sector buf g))
        then Ok (acc ++ take STRIPE_HEADERS_PER_SECTOR (raw_sector buf g))
        else Err (MetadataError (GroupCrcMismatch g))).
Proof.
  intros Hb Hg. pose proof (length_raw_sector buf n g Hb Hg) as Hl. unfold read_group.
  rewrite bool_decide_true by nia. cbn [negb].
  rewrite slice_done by nia. cbn [mbind outcome_bind]. fold (raw_sector buf g).
  rewrite slice_done by (rewrite Hl; sizes). cbn [mbind outcome_bind].
  rewrite crc_valid_spec by done. cbn [mbind outcome_bind]. rewrite drop_0.
  by destruct (bool_decide _).
Qed.

(** The read loop returns all headers, or names the first bad sector. *)
Lemma read_groups_cases buf n k :
  (SECTOR_SIZE + n * SECTOR_SIZE <= length buf)%nat -> (k <= n)%nat ->
  ((forall g, (g < k)%nat -> sector_intact (raw_sector buf g)) /\
   for_try (read_group crc32 buf) (seq 0 k) [] =
   Done (Ok (flat_map (fun g => take STRIPE_HEADERS_PER_SECTOR (raw_sector buf g)) (seq 0 k))))
  \/
  (exists g, (g < k)%nat /\ ~ sector_intact (raw_sector buf g) /\
   (forall g', (g' < g)%nat -> sector_intact (raw_sector buf g')) /\
   for_try (read_group crc32 buf) (seq 0 k) [] = Done (Err (MetadataError (GroupCrcMismatch g)))).
Proof.
  intros Hb.
  induction k as [|k IH]; intros Hk; [left; split; [lia|done]|].
  rewrite seq_S, for_try_app, flat_map_app.
  destruct IH as [[Hall ->]|(g & Hg & Hbad & Hpre & ->)]; [lia| |].
  - cbn [mbind outcome_bind for_try Nat.add]. rewrite (read_group_spec buf n k) by lia.
    cbn [mbind outcome_bind]. destruct (decide (sector_intact (raw_sector buf k))) as [Hi|Hi].
    + left. rewrite bool_decide_true by done. split; [|cbn; by rewrite app_nil_r].
      intros g Hg. destruct (decide (g = k)) as [->|]; [done|apply Hall; lia].
    + right. exists k. rewrite bool_decide_false by done. split; [lia|done].
  - right. exists g. cbn [mbind outcome_bind]. split; [lia|done].
Qed.

Lemma length_raw_headers buf n k :
  (SECTOR_SIZE + n * SECTOR_SIZE <= length buf)%nat -> (k <= n)%nat ->
  length (flat_map (fun g => take STRIPE_HEADERS_PER_SECTOR (raw_sector buf g)) (seq 0 k))
  = (k * STRIPE_HEADERS_PER_SECTOR)%nat.
Proof.
  intros Hb. induction k as [|k IH]; intros Hk; [done|].
  rewrite seq_S, flat_map_app, length_app, IH by lia. cbn [flat_map]. rewrite app_nil_r, length_take.
  cbn [Nat.add]. rewrite (length_raw_sector buf n) by lia. sizes.
Qed.

(** What an accepted buffer looks like: the number of data sectors it
    announces, and the bounds that make every later access legal. *)
Lemma announced_sectors_fit len count :
  (SECTOR_SIZE <= len)%nat -> (len `mod` SECTOR_SIZE = 0)%nat -> 0 <= count ->
  count <= Z.of_nat (((len - SECTOR_SIZE) `div` SECTOR_SIZE) * STRIPE_HEADERS_PER_SECTOR) ->
  let n := ndiv_ceil (Z.to_nat count) STRIPE_HEADERS_PER_SECTOR in
  (SECTOR_SIZE + n * SECTOR_SIZE <= len)%nat /\ (Z.to_nat count <= n * STRIPE_HEADERS_PER_SECTOR)%nat.
Proof.
  intros H1 H2 H3 H4 n.
  destruct (ndiv_ceil_spec (Z.to_nat count) STRIPE_HEADERS_PER_SECTOR) as [Ha Hb]; [sizes|].
  fold n in Ha, Hb. split; [|done]. clearbody n.
  set (q := ((len - SECTOR_SIZE) `div` SECTOR_SIZE)%nat) in *.
  assert (SECTOR_SIZE * q <= len - SECTOR_SIZE)%nat by apply Nat.Div0.mul_div_le.
  clearbody q. assert (n <= q)%nat by (clear H2; sizes). nia.
Qed.

(** [from_bytes] with its slices resolved, on a buffer of whole sectors. *)
Lemma from_bytes_resolved buf :
  (SECTOR_SIZE <= length buf)%nat -> (length buf `mod` SECTOR_SIZE = 0)%nat ->
  from_bytes crc32 buf =
  if negb (bool_decide (sector_intact (take SECTOR_SIZE buf)))
  then Done (Err (MetadataError HeaderCrcMismatch)) else
  if negb (bool_decide (take UBI_MAGIC_SIZE buf = UBI_MAGIC))
  then Done (Err (MetadataError MagicMismatch)) else
  if negb (bool_decide (take 2 (drop UBI_MAGIC_SIZE buf) = to_le 2 METADATA_VERSION_MAJOR))
     || negb (bool_decide (take 2 (drop (UBI_MAGIC_SIZE + 2) buf) = to_le 2 METADATA_VERSION_MINOR))
  then Done (Err (MetadataError VersionMismatch)) else
  shift ← index buf (UBI_MAGIC_SIZE + 4);
  if MAX_STRIPE_SECTOR_COUNT_SHIFT <? shift then Done (Err (MetadataError ShiftTooLarge)) else
  let count := from_le (take 4 (drop STRIPE_COUNT_OFFSET buf)) in
  if Z.of_nat (((length buf - SECTOR_SIZE) `div` SECTOR_SIZE) * STRIPE_HEADERS_PER_SECTOR) <? count
  then Done (Err (MetadataError StripeCountTooLarge)) else
  r ← for_try (read_group crc32 buf)
        (seq 0 (ndiv_ceil (Z.to_nat count) STRIPE_HEADERS_PER_SECTOR)) [];
  let? all_headers := r in
  if negb (bool_decide (Z.to_nat count <= length all_headers)%nat) then Panic AssertionFailed else
  Done (Ok (mkUbiMetadata (take UBI_MAGIC_SIZE buf) (take 2 (drop UBI_MAGIC_SIZE buf))
    (take 2 (drop (UBI_MAGIC_SIZE + 2) buf)) shift (take (Z.to_nat count) all_headers))).
Proof.
  intros H1 H2. unfold from_bytes.
  rewrite bool_decide_false by lia. rewrite (bool_decide_true (_ = 0)%nat) by done. cbn [negb].
  rewrite (slice_done buf 0 SECTOR_SIZE) by lia. cbn [mbind outcome_bind].
  rewrite drop_0, crc_valid_spec by (rewrite length_take; lia). cbn [mbind outcome_bind].
  destruct (bool_decide (sector_intact _)); cbn [negb]; [|done].
  rewrite (slice_done buf 0 UBI_MAGIC_SIZE) by sizes. cbn [mbind outcome_bind]. rewrite drop_0.
  destruct (bool_decide (take UBI_MAGIC_SIZE buf = _)); cbn [negb]; [|done].
  rewrite (slice_done buf UBI_MAGIC_SIZE 2) by sizes. cbn [mbind outcome_bind].
  rewrite (slice_done buf (UBI_MAGIC_SIZE + 2) 2) by sizes. cbn [mbind outcome_bind].
  destruct (negb _ || negb _); [done|].
  destruct (index buf (UBI_MAGIC_SIZE + 4)) as [shift|]; cbn [mbind outcome_bind]; [|done].
  destruct (MAX_STRIPE_SECTOR_COUNT_SHIFT <? shift); [done|].
  rewrite (slice_done buf STRIPE_COUNT_OFFSET 4) by sizes. done.
Qed.

(** The header sector of an image, byte range by byte range. *)
Lemma take_drop_encode m rest a n :
  metadata_wf m -> (a + n <= HEADER_SIZE)%nat ->
  take n (drop a (enc m ++ rest)) = take n (drop a (header_image m)).
Proof.
  intros Hwf Han. pose proof (header_image_length m Hwf) as Hl.
  unfold encode, sector_image. rewrite <- !app_assoc.
  rewrite drop_app_le by lia. rewrite take_app_le; [done|]. rewrite length_drop. lia.
Qed.

Lemma raw_sector_encode m rest g :
  metadata_wf m -> (g < stripe_header_sector_count m)%nat ->
  raw_sector (enc m ++ rest) g = simage (header_group (stripe_headers m) g).
Proof.
  intros Hwf Hg. unfold raw_sector, encode.
  assert (length (simage (header_image m)) = SECTOR_SIZE) as Hh.
  { apply length_sector_image. rewrite header_image_length by done. sizes. }
  rewrite <- app_assoc. rewrite <- Hh at 2. rewrite <- drop_drop, drop_app_length.
  revert Hg. generalize (stripe_header_sector_count m) as n. intros n Hg.
  replace n with (S g + (n - S g))%nat by lia. unfold groups_image.
  rewrite seq_app, flat_map_app. cbn [Nat.add].
  fold (groups_image crc32 (stripe_headers m) (S g)). rewrite groups_image_S, <- !app_assoc.
  rewrite <- (length_groups_image (stripe_headers m) g), drop_app_length.
  rewrite <- (length_sector_image (header_group (stripe_headers m) g)) by apply length_header_group.
  apply take_app_length.
Qed.

Lemma padded_group hs n g :
  (g < n)%nat ->
  header_group hs g ++ replicate (STRIPE_HEADERS_PER_SECTOR - length (header_group hs g)) 0
  = header_group (hs ++ replicate (n * STRIPE_HEADERS_PER_SECTOR - length hs) 0) g.
Proof.
  intros Hg. unfold header_group.
  destruct (decide (length hs <= g * STRIPE_HEADERS_PER_SECTOR)%nat) as [Hl|Hl].
  - rewrite drop_ge by done. rewrite take_nil, drop_app_ge, drop_replicate, take_replicate by lia.
    cbn [app length]. f_equal. nia.
  - rewrite drop_app_le by lia. rewrite take_app, take_replicate, length_take, length_drop.
    f_equal. f_equal. nia.
Qed.
End crc_proofs.

(** ** Main results *)

(** A buffer of whole sectors large enough for the metadata. *)
Definition fits (m : UbiMetadata) (buf : list Z) : Prop :=
  (metadata_size m <= length buf)%nat /\ (length buf `mod` SECTOR_SIZE = 0)%nat.

Section main.
Context (crc32 : list Z -> Z).

Lemma intact_image c :
  (length c <= STRIPE_HEADERS_PER_SECTOR)%nat -> sector_intact crc32 (sector_image crc32 c).
Proof.
  intros Hc. pose proof (sector_image_valid crc32 _ Hc) as Hv.
  rewrite crc_valid_spec in Hv by (by apply length_sector_image).
  injection Hv as Hv. by apply bool_decide_eq_true in Hv.
Qed.

(** The fields of the header sector, read back from an image. *)
Lemma encode_fields m rest (buf := encode crc32 m ++ rest) :
  metadata_wf m ->
  take SECTOR_SIZE buf = sector_image crc32 (header_image m) /\
  take UBI_MAGIC_SIZE buf = magic m /\
  take 2 (drop UBI_MAGIC_SIZE buf) = version_major m /\
  take 2 (drop (UBI_MAGIC_SIZE + 2) buf) = version_minor m /\
  index buf (UBI_MAGIC_SIZE + 4) = Done (stripe_sector_count_shift m) /\
  from_le (take 4 (drop STRIPE_COUNT_OFFSET buf)) = Z.of_nat (length (stripe_headers m)).
Proof.
  intros Hwf. pose proof Hwf as [Hmg Hmj Hmn _ _ Hct].
  assert (forall a n, (a + n <= HEADER_SIZE)%nat -> take n (drop a buf) = take n (drop a (header_image m)))
    as Hsl by (intros; by apply take_drop_encode).
  assert (header_image m = UBI_MAGIC ++ [2; 0] ++ [0; 0] ++ [stripe_sector_count_shift m]
    ++ to_le 4 (Z.of_nat (length (stripe_headers m)))) as Hh
    by (unfold header_image; by rewrite Hmg, Hmj, Hmn).
  split_and!.
  - unfold buf, encode. rewrite <- app_assoc.
    rewrite <- (length_sector_image crc32 (header_image m)) at 1; [apply take_app_length|].
    rewrite header_image_length by done. sizes.
  - specialize (Hsl 0 UBI_MAGIC_SIZE ltac:(sizes))%nat. rewrite !drop_0 in Hsl.
    by rewrite Hsl, Hh, Hmg.
  - rewrite Hsl, Hh, Hmj by sizes. done.
  - rewrite Hsl, Hh, Hmn by sizes. done.
  - apply index_done. specialize (Hsl (UBI_MAGIC_SIZE + 4) 1 ltac:(sizes))%nat.
    apply (f_equal (fun l : list Z => l !! 0%nat)) in Hsl.
    rewrite lookup_take_lt, lookup_drop, Nat.add_0_r in Hsl by lia. by rewrite Hsl, Hh.
  - rewrite Hsl, Hh by sizes. change (take 4 _) with (to_le 4 (Z.of_nat (length (stripe_headers m)))).
    apply from_to_le. unfold U32_MAX in Hct. lia.
Qed.

(** The data sectors of an image are intact and hold the stripe headers. *)
Lemma encode_groups m rest (buf := encode crc32 m ++ rest) (n := stripe_header_sector_count m) :
  metadata_wf m ->
  for_try (read_group crc32 buf) (seq 0 n) [] =
  Done (Ok (stripe_headers m ++ replicate (n * STRIPE_HEADERS_PER_SECTOR - length (stripe_headers m)) 0)).
Proof.
  intros Hwf.
  assert (SECTOR_SIZE + n * SECTOR_SIZE <= length buf)%nat as Hfit
    by (unfold buf; rewrite length_app, length_encode by done; unfold metadata_size; fold n; lia).
  destruct (read_groups_cases crc32 buf n n Hfit ltac:(lia)) as [[_ ->]|(g & Hg & Hbad & _)].
  2:{ exfalso; apply Hbad. unfold buf. rewrite raw_sector_encode by done.
      apply intact_image, length_header_group. }
  do 2 f_equal. set (hs := stripe_headers m).
  destruct (ndiv_ceil_spec (length (stripe_headers m)) STRIPE_HEADERS_PER_SECTOR) as [Hc _]; [sizes|].
  fold (stripe_header_sector_count m) n hs in Hc.
  rewrite <- (concat_header_groups (hs ++ replicate _ 0) n)
    by (rewrite length_app, length_replicate; lia).
  apply flat_map_ext_in. intros g Hg. apply elem_of_seq in Hg.
  unfold buf. rewrite raw_sector_encode by (done || lia).
  rewrite take_body_sector_image by apply length_header_group. apply padded_group. lia.
Qed.

(** Parsing inverts the image, whatever whole sectors follow it. *)
Lemma from_bytes_encode m rest :
  metadata_wf m -> (length rest `mod` SECTOR_SIZE = 0)%nat ->
  from_bytes crc32 (encode crc32 m ++ rest) = Done (Ok m).
Proof.
  intros Hwf Hrest. pose proof Hwf as [Hmg Hmj Hmn Hsh _ Hct].
  destruct (encode_fields m rest Hwf) as (E1 & E2 & E3 & E4 & E5 & E6).
  pose proof (encode_groups m rest Hwf) as E7. set (buf := encode crc32 m ++ rest) in *.
  assert (length buf = metadata_size m + length rest)%nat as Hbl
    by (unfold buf; by rewrite length_app, length_encode).
  unfold metadata_size in Hbl. set (n := stripe_header_sector_count m) in *.
  rewrite from_bytes_resolved; [|lia|].
  2:{ rewrite Hbl. replace (SECTOR_SIZE + n * SECTOR_SIZE + length rest)%nat
        with (length rest + (1 + n) * SECTOR_SIZE)%nat by lia. by rewrite Nat.Div0.mod_add. }
  rewrite E1, E2, E3, E4, E5, E6, Hmg, Hmj, Hmn, !bool_decide_true by
    (done || (apply intact_image; rewrite header_image_length by done; sizes)).
  cbn [negb orb mbind outcome_bind]. cbv zeta. rewrite Nat2Z.id.
  fold (stripe_header_sector_count m). fold n.
  destruct (Z.ltb_spec MAX_STRIPE_SECTOR_COUNT_SHIFT (stripe_sector_count_shift m)); [lia|].
  destruct (ndiv_ceil_spec (length (stripe_headers m)) STRIPE_HEADERS_PER_SECTOR) as [Hc _]; [sizes|].
  fold (stripe_header_sector_count m) n in Hc.
  assert (n <= (length buf - SECTOR_SIZE) `div` SECTOR_SIZE)%nat as Hq
    by (apply Nat.div_le_lower_bound; [sizes|]; lia).
  destruct (Z.ltb_spec (Z.of_nat ((length buf - SECTOR_SIZE) `div` SECTOR_SIZE * STRIPE_HEADERS_PER_SECTOR))
    (Z.of_nat (length (stripe_headers m)))); [nia|].
  rewrite E7. cbn [mbind outcome_bind try_].
  rewrite length_app, bool_decide_true by lia. cbn [negb].
  rewrite take_app_length. destruct m; cbn in *. by subst.
Qed.

(** Parsing is total: no slice, index or assertion of [from_bytes] can fail. *)
Lemma from_bytes_total buf : Forall is_u8 buf -> exists r, from_bytes crc32 buf = Done r.
Proof.
  intros Hu8. unfold from_bytes.
  destruct (bool_decide_reflect (length buf < SECTOR_SIZE)%nat) as [|H1]; [eauto|].
  destruct (bool_decide_reflect (length buf `mod` SECTOR_SIZE = 0)%nat) as [H2|]; [|cbn; eauto].
  fold (from_bytes crc32 buf). cbn [negb].
  pose proof (from_bytes_resolved crc32 buf ltac:(lia) H2) as E. unfold from_bytes in E.
  rewrite bool_decide_false, (bool_decide_true (_ = 0)%nat) in E by done. cbn [negb] in E.
  rewrite E; clear E.
  do 3 (match goal with |- exists _, (if ?c then _ else _) = _ => destruct c; [eauto|] end).
  destruct (lookup_lt_is_Some_2 buf (UBI_MAGIC_SIZE + 4)) as [shift Hshift]; [sizes|].
  rewrite (index_done _ _ _ Hshift). cbn [mbind outcome_bind].
  destruct (_ <? shift); [eauto|].
  set (count := from_le _).
  assert (0 <= count) by (apply from_le_bound, Forall_take, Forall_drop, Hu8).
  cbv zeta. destruct (Z.ltb_spec (Z.of_nat ((length buf - SECTOR_SIZE) `div` SECTOR_SIZE
    * STRIPE_HEADERS_PER_SECTOR)) count); [eauto|].
  destruct (announced_sectors_fit (length buf) count) as [Hfit Hcnt]; try (done || lia).
  destruct (read_groups_cases crc32 buf _ _ Hfit (le_n _)) as [[_ ->]|(g & _ & _ & _ & ->)];
    cbn [mbind outcome_bind try_]; [|eauto].
  rewrite (length_raw_headers buf _ _ Hfit (le_n _)), bool_decide_true by done. cbn. eauto.
Qed.

(** Everything an accepted buffer guarantees. *)
Lemma from_bytes_accepted buf m :
  Forall is_u8 buf -> from_bytes crc32 buf = Done (Ok m) ->
  metadata_wf m /\ fits m buf /\
  sector_intact crc32 (take SECTOR_SIZE buf) /\
  (forall g, (g < stripe_header_sector_count m)%nat -> sector_intact crc32 (raw_sector buf g)) /\
  stripe_headers m = take (length (stripe_headers m))
    (flat_map (fun g => take STRIPE_HEADERS_PER_SECTOR (raw_sector buf g))
       (seq 0 (stripe_header_sector_count m))).
Proof.
  intros Hu8 H. pose proof H as H0. unfold from_bytes in H0.
  destruct (bool_decide_reflect (length buf < SECTOR_SIZE)%nat) as [|H1]; [discriminate|].
  destruct (bool_decide_reflect (length buf `mod` SECTOR_SIZE = 0)%nat) as [H2|]; [|discriminate].
  clear H0. rewrite from_bytes_resolved in H by (done || lia).
  destruct (bool_decide_reflect (sector_intact crc32 (take SECTOR_SIZE buf))) as [Hi|]; [|discriminate].
  destruct (bool_decide_reflect (take UBI_MAGIC_SIZE buf = UBI_MAGIC)) as [Hmg|]; [|discriminate].
  destruct (bool_decide_reflect (take 2 (drop UBI_MAGIC_SIZE buf) = to_le 2 METADATA_VERSION_MAJOR))
    as [Hmj|]; [|discriminate].
  destruct (bool_decide_reflect (take 2 (drop (UBI_MAGIC_SIZE + 2) buf) = to_le 2 METADATA_VERSION_MINOR))
    as [Hmn|]; [|discriminate].
  cbn [negb orb] in H.
  destruct (lookup_lt_is_Some_2 buf (UBI_MAGIC_SIZE + 4)) as [shift Hshift]; [sizes|].
  rewrite (index_done _ _ _ Hshift) in H. cbn [mbind outcome_bind] in H.
  destruct (Z.ltb_spec MAX_STRIPE_SECTOR_COUNT_SHIFT shift); [discriminate|].
  set (count := from_le _) in H.
  assert (0 <= count < 256 ^ Z.of_nat 4) as Hcr.
  { pose proof (from_le_bound (take 4 (drop STRIPE_COUNT_OFFSET buf))
      (Forall_take _ _ _ (Forall_drop _ _ _ Hu8))) as Hb.
    rewrite length_take, length_drop in Hb. replace (4 `min` _)%nat with 4%nat in Hb by sizes. done. }
  cbv zeta in H. destruct (Z.ltb_spec (Z.of_nat ((length buf - SECTOR_SIZE) `div` SECTOR_SIZE
    * STRIPE_HEADERS_PER_SECTOR)) count); [discriminate|].
  destruct (announced_sectors_fit (length buf) count) as [Hfit Hcnt]; try (done || lia).
  destruct (read_groups_cases crc32 buf _ _ Hfit (le_n _)) as [[Hall E]|(g & _ & _ & _ & E)];
    rewrite E in H; cbn [mbind outcome_bind try_] in H; [|discriminate].
  pose proof (length_raw_headers buf _ _ Hfit (le_n _)) as Hrl.
  rewrite Hrl, bool_decide_true in H by done. cbn [negb] in H. injection H as <-.
  set (hs := flat_map _ _) in *.
  assert (length (take (Z.to_nat count) hs) = Z.to_nat count) as Hl by (rewrite length_take; lia).
  assert (Forall is_u8 hs) as Hhs.
  { unfold hs. apply Forall_flat_map, Forall_forall. intros g _. unfold raw_sector.
    by apply Forall_take, Forall_take, Forall_drop. }
  assert (is_u8 shift) as Hsh by (by eapply Forall_lookup_1 in Hshift).
  unfold stripe_header_sector_count; cbn [stripe_headers magic]. rewrite Hl.
  split_and!; [constructor| split |..]; cbn [magic version_major version_minor
    stripe_sector_count_shift stripe_headers]; try done.
  - unfold is_u8 in Hsh. lia.
  - by apply Forall_take.
  - rewrite Hl. unfold U32_MAX. simpl in Hcr. lia.
  - unfold metadata_size, stripe_header_sector_count; cbn [stripe_headers]; by rewrite Hl.
Qed.

(** Rewriting the sector of group [g] with the headers [hs'] turns the image of
    [m] into the image of [m] with that group of headers replaced. *)
Lemma encode_update m rest hs' i :
  metadata_wf m -> (i < length (stripe_headers m))%nat ->
  length hs' = length (stripe_headers m) ->
  (forall g, g <> stripe_id_to_group i -> header_group hs' g = header_group (stripe_headers m) g) ->
  splice (encode crc32 m ++ rest) (Z.to_nat (stripe_id_to_sector i) * SECTOR_SIZE)
    (sector_image crc32 (header_group hs' (stripe_id_to_group i)))
  = encode crc32 (with_headers m hs') ++ rest.
Proof.
  intros Hwf Hi Hlen Hoth. set (g := stripe_id_to_group i) in *. set (n := stripe_header_sector_count m).
  assert (header_image (with_headers m hs') = header_image m) as Hh
    by (unfold header_image; cbn; by rewrite Hlen).
  assert (stripe_header_sector_count (with_headers m hs') = n) as Hn
    by (unfold stripe_header_sector_count, n; cbn; by rewrite Hlen).
  assert (length (sector_image crc32 (header_image m)) = SECTOR_SIZE) as Hl
    by (apply length_sector_image; rewrite header_image_length by done; sizes).
  unfold encode. rewrite Hh, Hn. fold n. cbn [stripe_headers with_headers].
  assert (g < n)%nat as Hg.
  { unfold g, n, stripe_id_to_group, stripe_header_sector_count.
    destruct (ndiv_ceil_spec (length (stripe_headers m)) STRIPE_HEADERS_PER_SECTOR) as [Hc _]; [sizes|].
    apply Nat.Div0.div_lt_upper_bound. lia. }
  unfold stripe_id_to_sector. rewrite Nat2Z.id. fold (stripe_id_to_group i). fold g.
  rewrite <- !app_assoc.
  replace ((g + 1) * SECTOR_SIZE)%nat
    with (length (sector_image crc32 (header_image m)) + g * SECTOR_SIZE)%nat by (rewrite Hl; lia).
  rewrite splice_app_r. f_equal.
  clearbody n. replace n with (g + (1 + (n - S g)))%nat by lia. clear Hn.
  unfold groups_image. rewrite !seq_app, !flat_map_app. cbn [seq flat_map Nat.add].
  fold (groups_image crc32 hs' g) (groups_image crc32 (stripe_headers m) g).
  rewrite app_nil_r, <- !app_assoc.
  replace (groups_image crc32 hs' g) with (groups_image crc32 (stripe_headers m) g).
  2:{ apply flat_map_ext_in. intros k Hk%elem_of_seq.
      by rewrite Hoth by lia. }
  replace (flat_map (fun k => sector_image crc32 (header_group hs' k)) (seq (g + 1) (n - S g)))
    with (flat_map (fun k => sector_image crc32 (header_group (stripe_headers m) k)) (seq (g + 1) (n - S g))).
  2:{ apply flat_map_ext_in. intros k Hk%elem_of_seq.
      by rewrite Hoth by lia. }
  rewrite <- (length_groups_image crc32 (stripe_headers m) g), <- (Nat.add_0_r (length _)).
  rewrite splice_app_r, splice_app_l
    by (rewrite !length_sector_image by apply length_header_group; lia).
  by rewrite splice_full by (by rewrite !length_sector_image by apply length_header_group).
Qed.
End main.

(** The metadata [UbiMetadata::new] creates is well formed. *)
Lemma new_metadata_wf shift n k :
  0 <= shift <= MAX_STRIPE_SECTOR_COUNT_SHIFT -> Z.of_nat n <= U32_MAX ->
  metadata_wf (new_metadata shift n k).
Proof.
  intros Hs Hn. constructor; try done; cbn [stripe_headers new_metadata].
  - apply Forall_map, Forall_forall. intros i _. cbn. change HAS_SOURCE with 4.
    case_bool_decide; unfold is_u8; lia.
  - by rewrite length_map, length_seq.
Qed.

(** Damage to one data sector of an image is reported against that sector. *)
Lemma damaged_sector_rejected crc32 m rest g s :
  metadata_wf m -> (length rest `mod` SECTOR_SIZE = 0)%nat ->
  (g < stripe_header_sector_count m)%nat ->
  length s = SECTOR_SIZE -> ~ sector_intact crc32 s ->
  from_bytes crc32 (splice (encode crc32 m ++ rest) (SECTOR_SIZE + g * SECTOR_SIZE) s)
  = Done (Err (MetadataError (GroupCrcMismatch g))).
Proof.
  intros Hwf Hrest Hg Hs Hbad. pose proof Hwf as [Hmg Hmj Hmn Hsh _ Hct].
  destruct (encode_fields crc32 m rest Hwf) as (E1 & E2 & E3 & E4 & E5 & E6).
  set (buf := encode crc32 m ++ rest) in *. set (n := stripe_header_sector_count m) in *.
  assert (length buf = SECTOR_SIZE + n * SECTOR_SIZE + length rest)%nat as Hbl
    by (unfold buf; by rewrite length_app, length_encode).
  set (buf' := splice buf _ s).
  assert (SECTOR_SIZE + g * SECTOR_SIZE + length s <= length buf)%nat as Hin
    by (rewrite Hs, Hbl; pose proof (block_within g n SECTOR_SIZE Hg); lia).
  assert (length buf' = length buf) as Hbl' by (by apply length_splice).
  assert (forall a k, (a + k <= SECTOR_SIZE)%nat -> take k (drop a buf') = take k (drop a buf)) as Hsame
    by (intros a k Hak; apply take_drop_splice_ne; [done|left; lia]).
  assert (index buf' (UBI_MAGIC_SIZE + 4) = index buf (UBI_MAGIC_SIZE + 4)) as Hidx.
  { specialize (Hsame (UBI_MAGIC_SIZE + 4) 1 ltac:(sizes))%nat.
    apply (f_equal (fun l : list Z => l !! 0%nat)) in Hsame.
    rewrite !lookup_take_lt, !lookup_drop, Nat.add_0_r in Hsame by lia. unfold index. by rewrite Hsame. }
  rewrite from_bytes_resolved; [|lia|].
  2:{ rewrite Hbl', Hbl. replace (SECTOR_SIZE + n * SECTOR_SIZE + length rest)%nat
        with (length rest + (1 + n) * SECTOR_SIZE)%nat by lia. by rewrite Nat.Div0.mod_add. }
  assert (forall k, (k <= SECTOR_SIZE)%nat -> take k buf' = take k buf) as Hsame0
    by (intros k Hk; pose proof (Hsame 0%nat k Hk) as H0; by rewrite !drop_0 in H0).
  rewrite !Hsame, !Hsame0 by sizes. rewrite Hidx, Hbl', E1, E2, E3, E4, E5, E6, Hmg, Hmj, Hmn, !bool_decide_true by
    (done || (apply intact_image; rewrite header_image_length by done; sizes)).
  cbn [negb orb mbind outcome_bind]. cbv zeta. rewrite Nat2Z.id.
  fold (stripe_header_sector_count m). fold n.
  destruct (Z.ltb_spec MAX_STRIPE_SECTOR_COUNT_SHIFT (stripe_sector_count_shift m)); [lia|].
  destruct (ndiv_ceil_spec (length (stripe_headers m)) STRIPE_HEADERS_PER_SECTOR) as [Hc _]; [sizes|].
  fold (stripe_header_sector_count m) n in Hc.
  assert (n <= (length buf - SECTOR_SIZE) `div` SECTOR_SIZE)%nat as Hq
    by (apply Nat.div_le_lower_bound; [sizes|]; lia).
  destruct (Z.ltb_spec (Z.of_nat ((length buf - SECTOR_SIZE) `div` SECTOR_SIZE * STRIPE_HEADERS_PER_SECTOR))
    (Z.of_nat (length (stripe_headers m)))); [nia|].
  assert (raw_sector buf' g = s) as Hrg
    by (unfold raw_sector, buf'; rewrite <- Hs at 1; by rewrite take_drop_splice).
  assert (forall k, k <> g -> raw_sector buf' k = raw_sector buf k) as Hro
    by (intros k Hk; apply take_drop_splice_ne; [done|rewrite Hs; nia]).
  destruct (read_groups_cases crc32 buf' n n) as [[Hall _]|(g' & Hg' & Hb' & Hpre & ->)]; [lia|done| |].
  - exfalso. apply Hbad. rewrite <- Hrg. by apply Hall.
  - destruct (decide (g' = g)) as [->|Hne]; [done|]. exfalso. apply Hb'.
    rewrite Hro by done. unfold buf; rewrite raw_sector_encode by done. apply intact_image, length_header_group.
Qed.

(** The CRC-32 (IEEE 802.3) that crc32fast documents, for the witnesses. *)
Definition crc32_bit (c : Z) : Z :=
  if Z.odd c then Z.lxor (Z.shiftr c 1) 3988292384 else Z.shiftr c 1.
Definition crc32_byte (c b : Z) : Z := Nat.iter 8 crc32_bit (Z.lxor c b).
Definition crc32_ieee (data : list Z) : Z :=
  Z.lxor (fold_left crc32_byte data U32_MAX) U32_MAX.

Example crc32_ieee_check : crc32_ieee [49; 50; 51; 52; 53; 54; 55; 56; 57] = 3421780262.
Proof. reflexivity. Qed.

(** C25: serializing well-formed metadata into any buffer of whole sectors that
    is large enough succeeds, keeps the buffer's length, leaves the bytes
    behind the metadata untouched, and parsing the result gives back exactly
    the same metadata. *)
Theorem metadata_roundtrip crc32 m buf :
  metadata_wf m -> fits m buf ->
  exists buf', write_to_buf crc32 m buf = Done (Ok buf') /\
    length buf' = length buf /\
    drop (metadata_size m) buf' = drop (metadata_size m) buf /\
    from_bytes crc32 buf' = Done (Ok m).
Proof.
  intros Hwf [Hsz Hmod]. exists (encode crc32 m ++ drop (metadata_size m) buf).
  pose proof (length_encode crc32 m Hwf) as Hl.
  split_and!.
  - by apply write_to_buf_encode.
  - rewrite length_app, length_drop, Hl. lia.
  - by rewrite <- Hl, drop_app_length.
  - apply from_bytes_encode; [done|]. rewrite length_drop. unfold metadata_size in *.
    set (n := stripe_header_sector_count m) in *.
    replace (length buf) with (length buf - (SECTOR_SIZE + n * SECTOR_SIZE) + (1 + n) * SECTOR_SIZE)%nat
      in Hmod by lia.
    by rewrite Nat.Div0.mod_add in Hmod.
Qed.

Lemma metadata_roundtrip_witness :
  exists buf', write_to_buf crc32_ieee (new_metadata 11 3 2) (replicate 1536 7) = Done (Ok buf') /\
    length buf' = length (replicate 1536 7) /\
    drop (metadata_size (new_metadata 11 3 2)) buf'
      = drop (metadata_size (new_metadata 11 3 2)) (replicate 1536 7) /\
    from_bytes crc32_ieee buf' = Done (Ok (new_metadata 11 3 2)).
Proof.
  apply metadata_roundtrip.
  - apply new_metadata_wf; unfold MAX_STRIPE_SECTOR_COUNT_SHIFT, U32_MAX; lia.
  - split; [apply Nat.leb_le; reflexivity | reflexivity].
Defined.

(** [from_bytes] never panics: on every byte buffer, of any length and
    content, it returns either metadata or an error; none of its slice
    accesses and neither of its assertions can fail. *)
Lemma from_bytes_never_panics crc32 buf :
  Forall is_u8 buf -> exists r, from_bytes crc32 buf = Done r.
Proof. apply from_bytes_total. Qed.

Lemma from_bytes_never_panics_witness :
  exists r, from_bytes crc32_ieee (replicate 700 255) = Done r.
Proof. apply from_bytes_never_panics, Forall_replicate. unfold is_u8; lia. Defined.

(** C26: metadata that [from_bytes] accepts is well formed (magic, version,
    shift at most 17, stripe count within [u32]), fits the buffer, comes only
    from sectors whose stored CRC matches, and its header [i] is the byte at
    offset [i mod 508] of data sector [i / 508]. *)
Theorem from_bytes_sound crc32 buf m :
  Forall is_u8 buf -> from_bytes crc32 buf = Done (Ok m) ->
  metadata_wf m /\ fits m buf /\
  sector_intact crc32 (take SECTOR_SIZE buf) /\
  (forall g, (g < stripe_header_sector_count m)%nat -> sector_intact crc32 (raw_sector buf g)) /\
  (forall i, (i < length (stripe_headers m))%nat ->
     stripe_headers m !! i =
     raw_sector buf (stripe_id_to_group i) !! (i `mod` STRIPE_HEADERS_PER_SECTOR)%nat).
Proof.
  intros Hu8 H. destruct (from_bytes_accepted crc32 buf m Hu8 H) as (Hwf & Hfit & Hi & Hall & Hhs).
  split_and!; try done. intros i Hlt. rewrite Hhs, lookup_take_lt by done.
  set (n := stripe_header_sector_count m) in *.
  assert (SECTOR_SIZE + n * SECTOR_SIZE <= length buf)%nat as Hf
    by (destruct Hfit; unfold metadata_size in *; done).
  destruct (ndiv_ceil_spec (length (stripe_headers m)) STRIPE_HEADERS_PER_SECTOR) as [Hc _]; [sizes|].
  fold (stripe_header_sector_count m) n in Hc.
  set (f g := take STRIPE_HEADERS_PER_SECTOR (raw_sector buf g)).
  assert (stripe_id_to_group i < n)%nat as Hg
    by (unfold stripe_id_to_group; apply Nat.Div0.div_lt_upper_bound; lia).
  rewrite <- header_group_lookup.
  enough (header_group (flat_map f (seq 0 n)) (stripe_id_to_group i) = f (stripe_id_to_group i)) as ->.
  { unfold f. apply lookup_take_lt, Nat.mod_upper_bound. sizes. }
  generalize (stripe_id_to_group i) Hg. intros g Hgn. unfold header_group.
  replace n with (g + (1 + (n - S g)))%nat by lia. rewrite !seq_app, !flat_map_app.
  assert (length (flat_map f (seq 0 g)) = g * STRIPE_HEADERS_PER_SECTOR)%nat as <-
    by (apply (length_raw_headers buf n g); lia).
  rewrite drop_app_length. cbn [seq flat_map Nat.add]. rewrite app_nil_r.
  assert (length (f g) = STRIPE_HEADERS_PER_SECTOR) as <-.
  { unfold f. rewrite length_take, (length_raw_sector buf n) by lia. sizes. }
  apply take_app_length.
Qed.

(** The witness parses the image of the metadata of a three-stripe volume. *)
Lemma from_bytes_sound_witness :
  from_bytes crc32_ieee (encode crc32_ieee (new_metadata 11 3 2)) = Done (Ok (new_metadata 11 3 2)) /\
  stripe_headers (new_metadata 11 3 2) !! 1%nat =
    raw_sector (encode crc32_ieee (new_metadata 11 3 2)) (stripe_id_to_group 1)
      !! (1 `mod` STRIPE_HEADERS_PER_SECTOR)%nat.
Proof.
  assert (from_bytes crc32_ieee (encode crc32_ieee (new_metadata 11 3 2))
    = Done (Ok (new_metadata 11 3 2))) as H by (vm_compute; reflexivity).
  split; [exact H|].
  refine (proj2 (proj2 (proj2 (proj2 (from_bytes_sound crc32_ieee _ _ _ H)))) 1%nat _).
  - apply (bool_decide_unpack _). vm_compute. exact I.
  - apply Nat.ltb_lt. reflexivity.
Defined.

(** A data sector whose CRC does not match its payload is never accepted:
    replacing sector [g] of a valid image by such a sector makes [from_bytes]
    fail with the CRC error of group [g]. *)
Lemma from_bytes_reports_damaged_sector crc32 m rest g s :
  metadata_wf m -> (length rest `mod` SECTOR_SIZE = 0)%nat ->
  (g < stripe_header_sector_count m)%nat ->
  length s = SECTOR_SIZE -> ~ sector_intact crc32 s ->
  from_bytes crc32 (splice (encode crc32 m ++ rest) (SECTOR_SIZE + g * SECTOR_SIZE) s)
  = Done (Err (MetadataError (GroupCrcMismatch g))).
Proof. apply damaged_sector_rejected. Qed.

Lemma from_bytes_reports_damaged_sector_witness :
  from_bytes crc32_ieee (splice (encode crc32_ieee (new_metadata 11 600 2) ++ [])
    (SECTOR_SIZE + 1 * SECTOR_SIZE) (replicate SECTOR_SIZE 1))
  = Done (Err (MetadataError (GroupCrcMismatch 1))).
Proof.
  apply from_bytes_reports_damaged_sector.
  - apply new_metadata_wf; unfold MAX_STRIPE_SECTOR_COUNT_SHIFT, U32_MAX; lia.
  - reflexivity.
  - apply Nat.ltb_lt. reflexivity.
  - reflexivity.
  - apply (bool_decide_unpack _). vm_compute. exact I.
Defined.
