(* ===== verification/SharedState.v ===== *)
(** * SharedState: the in-memory stripe states shared by all threads

    Models src/src/block_device/bdev_lazy/metadata/shared_state.rs
    ([SharedMetadataState], whose [Arc]s of atomics every channel, the stripe
    fetcher and the metadata flusher hold) and
    src/src/block_device/bdev_lazy/status_report.rs.  Each method performs its
    atomic accesses in one step; the vectors never change length. *)
From S2P Require Import Prelude Metadata.

(** ** Stripe states *)

Definition NotFetched : Z := 0.
Definition Fetched : Z := 1.
Definition Failed : Z := 2.
Definition NoSource : Z := 3.

Definition NotWritten : Z := 0.
Definition Written : Z := 1.

Record SharedMetadataState := mkShared {
  stripe_fetch_states : list Z;
  stripe_write_states : list Z;
  shared_shift : Z;
  fetched_stripes_count : Z;
  source_stripes_count : Z;
}.

(** One iteration of the loop of [SharedMetadataState::new]. *)
Definition scan_header (acc : list Z * list Z * Z * Z) (header : Z) : list Z * list Z * Z * Z :=
  let '(fs, ws, fetched, source) := acc in
  let fetch_state := NotFetched in
  let write_state := NotWritten in
  let '(fetch_state, fetched) :=
    if has_flag header FETCHED then (Fetched, fetched + 1) else (fetch_state, fetched) in
  let write_state := if has_flag header WRITTEN then Written else write_state in
  let '(fetch_state, source) :=
    if has_flag header HAS_SOURCE then (fetch_state, source + 1) else (NoSource, source) in
  (fs ++ [fetch_state], ws ++ [write_state], fetched, source).

Definition new_shared (m : UbiMetadata) : SharedMetadataState :=
  let '(fs, ws, fetched, source) := foldl scan_header ([], [], 0, 0) (stripe_headers m) in
  mkShared fs ws (stripe_sector_count_shift m) fetched source.

Definition shared_stripe_sector_count (s : SharedMetadataState) : Z := Z.shiftl 1 (shared_shift s).

Definition sector_to_stripe_id (s : SharedMetadataState) (sector : Z) : nat :=
  Z.to_nat (Z.shiftr sector (shared_shift s)).

Definition stripe_fetched_if_needed (s : SharedMetadataState) (id : nat) : outcome bool :=
  state ← index (stripe_fetch_states s) id;
  Done ((state =? Fetched) || (state =? NoSource)).

Definition stripe_written (s : SharedMetadataState) (id : nat) : outcome bool :=
  state ← index (stripe_write_states s) id; Done (state =? Written).

Definition stripe_fetch_state (s : SharedMetadataState) (id : nat) : outcome Z :=
  index (stripe_fetch_states s) id.

Definition mark_fetched (s : SharedMetadataState) (id : nat) : outcome SharedMetadataState :=
  prev ← index (stripe_fetch_states s) id;
  fs ← set_index (stripe_fetch_states s) id Fetched;
  Done (mkShared fs (stripe_write_states s) (shared_shift s)
    (if negb (prev =? Fetched) && negb (prev =? NoSource)
     then wrap64 (fetched_stripes_count s + 1) else fetched_stripes_count s)
    (source_stripes_count s)).

Definition mark_written (s : SharedMetadataState) (id : nat) : outcome SharedMetadataState :=
  ws ← set_index (stripe_write_states s) id Written;
  Done (mkShared (stripe_fetch_states s) ws (shared_shift s)
    (fetched_stripes_count s) (source_stripes_count s)).

Definition set_stripe_header (s : SharedMetadataState) (id : nat) (header : Z)
  : outcome SharedMetadataState :=
  s ← (if has_flag header FETCHED then mark_fetched s id else Done s);
  if has_flag header WRITTEN then mark_written s id else Done s.

Definition set_stripe_failed (s : SharedMetadataState) (id : nat) : outcome SharedMetadataState :=
  fs ← set_index (stripe_fetch_states s) id Failed;
  Done (mkShared fs (stripe_write_states s) (shared_shift s)
    (fetched_stripes_count s) (source_stripes_count s)).

Definition fetched_stripes (s : SharedMetadataState) : Z := fetched_stripes_count s.
Definition source_stripes (s : SharedMetadataState) : Z := source_stripes_count s.

(** ** Status report *)

Record StripesRecord := mkStripes { total : Z; source : Z; fetched : Z }.
Record StatusReport := mkReport { stripes : StripesRecord }.

(** A [StatusReporter] holds the shared state and the target's size. *)
Definition report (s : SharedMetadataState) (target_sector_count : Z) : StatusReport :=
  mkReport (mkStripes (div_ceil target_sector_count (shared_stripe_sector_count s))
    (source_stripes s) (fetched_stripes s)).

(** ** Invariant *)

Definition count_state (P : Z -> bool) (states : list Z) : Z :=
  Z.of_nat (length (filter (fun z => P z = true) states)).

Definition is_fetched (z : Z) : bool := z =? Fetched.
Definition has_src (z : Z) : bool := negb (z =? NoSource).

(** The two counters are the numbers of stripes they are named after. *)
Record shared_wf (s : SharedMetadataState) : Prop := {
  sw_len : length (stripe_fetch_states s) = length (stripe_write_states s);
  sw_fetch : Forall (fun z => z ∈ [NotFetched; Fetched; Failed; NoSource]) (stripe_fetch_states s);
  sw_write : Forall (fun z => z ∈ [NotWritten; Written]) (stripe_write_states s);
  sw_fetched : fetched_stripes_count s = count_state is_fetched (stripe_fetch_states s);
  sw_source : source_stripes_count s = count_state has_src (stripe_fetch_states s);
  sw_small : Z.of_nat (length (stripe_fetch_states s)) <= U32_MAX;
}.

(** Headers as the program maintains them: only stripes of the source are ever
    fetched. *)
Definition header_ok (h : Z) : Prop := has_flag h FETCHED = true -> has_flag h HAS_SOURCE = true.

(** ** Lemmas *)

Lemma new_metadata_headers_ok shift n k : Forall header_ok (stripe_headers (new_metadata shift n k)).
Proof.
  apply Forall_map, Forall_forall. intros i _ H. case_bool_decide; vm_compute in H; discriminate.
Qed.

Lemma count_state_app P l1 l2 : count_state P (l1 ++ l2) = count_state P l1 + count_state P l2.
Proof. unfold count_state. rewrite filter_app, length_app. lia. Qed.

Lemma count_state_cons P x l : count_state P (x :: l) = (if P x then 1 else 0) + count_state P l.
Proof.
  unfold count_state. rewrite filter_cons. case_decide as H; [rewrite H; simpl; lia|].
  destruct (P x); [done|]. lia.
Qed.

Lemma count_state_insert P l i x y :
  l !! i = Some x ->
  count_state P (<[i := y]> l) = count_state P l - (if P x then 1 else 0) + (if P y then 1 else 0).
Proof.
  intros Hi. pose proof (lookup_lt_Some _ _ _ Hi).
  rewrite <- (take_drop_middle l i x Hi) at 2.
  rewrite insert_take_drop by done.
  rewrite !count_state_app, !count_state_cons. lia.
Qed.

Lemma count_state_bounds P l : 0 <= count_state P l <= Z.of_nat (length l).
Proof. unfold count_state. pose proof (length_filter (fun z => P z = true) l). lia. Qed.

(** The initial state of one stripe, as a function of its header. *)
Definition initial_fetch_state (h : Z) : Z :=
  if has_flag h HAS_SOURCE then (if has_flag h FETCHED then Fetched else NotFetched) else NoSource.
Definition initial_write_state (h : Z) : Z := if has_flag h WRITTEN then Written else NotWritten.

Lemma scan_headers hs fs ws f s :
  foldl scan_header (fs, ws, f, s) hs =
  (fs ++ map initial_fetch_state hs, ws ++ map initial_write_state hs,
   f + count_state (fun h => has_flag h FETCHED) hs,
   s + count_state (fun h => has_flag h HAS_SOURCE) hs).
Proof.
  revert fs ws f s. induction hs as [|h hs IH]; intros fs ws f s.
  - simpl. rewrite !app_nil_r. by unfold count_state; rewrite filter_nil; simpl; rewrite !Z.add_0_r.
  - cbn [foldl map]. unfold scan_header at 2, initial_fetch_state at 1, initial_write_state at 1.
    rewrite !count_state_cons.
    destruct (has_flag h FETCHED), (has_flag h HAS_SOURCE); rewrite IH, <- !app_assoc;
      cbn [app]; rewrite !Z.add_assoc, ?Z.add_0_r; done.
Qed.

Lemma new_shared_states m :
  stripe_fetch_states (new_shared m) = map initial_fetch_state (stripe_headers m) /\
  stripe_write_states (new_shared m) = map initial_write_state (stripe_headers m) /\
  shared_shift (new_shared m) = stripe_sector_count_shift m.
Proof. unfold new_shared. by rewrite scan_headers. Qed.

Lemma count_initial hs :
  Forall header_ok hs ->
  count_state is_fetched (map initial_fetch_state hs) = count_state (fun h => has_flag h FETCHED) hs /\
  count_state has_src (map initial_fetch_state hs) = count_state (fun h => has_flag h HAS_SOURCE) hs.
Proof.
  induction 1 as [|h hs Hh _ [IH1 IH2]]; [done|]. cbn [map]. rewrite !count_state_cons, IH1, IH2.
  unfold header_ok, initial_fetch_state in *.
  destruct (has_flag h FETCHED), (has_flag h HAS_SOURCE); try done.
  discriminate (Hh eq_refl).
Qed.

Lemma new_shared_wf m :
  metadata_wf m -> Forall header_ok (stripe_headers m) -> shared_wf (new_shared m).
Proof.
  intros Hwf Hok. destruct (count_initial _ Hok) as [E1 E2].
  unfold new_shared. rewrite scan_headers. constructor; cbn; rewrite ?length_map; try done.
  - apply Forall_map, Forall_forall. intros h _. unfold initial_fetch_state; cbn.
    destruct (has_flag h HAS_SOURCE), (has_flag h FETCHED); set_solver.
  - apply Forall_map, Forall_forall. intros h _. unfold initial_write_state; cbn.
    destruct (has_flag h WRITTEN); set_solver.
  - apply wf_count, Hwf.
Qed.

(** Marking a stripe of the source as fetched keeps the counters exact. *)
Lemma mark_fetched_wf s id st :
  shared_wf s -> stripe_fetch_states s !! id = Some st -> st <> NoSource ->
  exists s', mark_fetched s id = Done s' /\ shared_wf s' /\
    stripe_fetch_states s' = <[id := Fetched]> (stripe_fetch_states s) /\
    stripe_write_states s' = stripe_write_states s /\ shared_shift s' = shared_shift s.
Proof.
  intros [Hl Hf Hw Hcf Hcs Hsm] Hst Hne. pose proof (lookup_lt_Some _ _ _ Hst).
  unfold mark_fetched. rewrite (index_done _ _ _ Hst), set_index_done by done.
  cbn [mbind outcome_bind]. eexists; split; [done|]. split; [|done].
  pose proof (count_state_insert is_fetched _ _ _ Fetched Hst) as Ef.
  pose proof (count_state_insert has_src _ _ _ Fetched Hst) as Es.
  pose proof (count_state_bounds is_fetched (<[id:=Fetched]> (stripe_fetch_states s))) as Hb.
  rewrite length_insert in Hb. unfold U32_MAX in Hsm.
  assert (has_src st = true) as E by (unfold has_src; destruct (Z.eqb_spec st NoSource); done).
  rewrite E in Es. change (is_fetched Fetched) with true in Ef. change (has_src Fetched) with true in Es.
  constructor; cbn; rewrite ?length_insert; try done.
  - apply Forall_insert; [done|set_solver].
  - unfold has_src in E. rewrite E, andb_true_r. change (st =? Fetched) with (is_fetched st).
    destruct (is_fetched st); cbn; [lia|]. unfold wrap64. rewrite Z.mod_small; lia.
  - rewrite Es; lia.
Qed.

Lemma mark_written_wf s id :
  shared_wf s -> (id < length (stripe_fetch_states s))%nat ->
  exists s', mark_written s id = Done s' /\ shared_wf s' /\
    stripe_fetch_states s' = stripe_fetch_states s /\
    stripe_write_states s' = <[id := Written]> (stripe_write_states s) /\
    shared_shift s' = shared_shift s.
Proof.
  intros [Hl Hf Hw Hcf Hcs Hsm] Hid. unfold mark_written. rewrite set_index_done by lia.
  cbn [mbind outcome_bind]. eexists; split; [done|]. split; [|done].
  constructor; cbn; rewrite ?length_insert; try done.
  apply Forall_insert; [done|set_solver].
Qed.

Lemma set_stripe_header_wf s id h st :
  shared_wf s -> stripe_fetch_states s !! id = Some st ->
  (has_flag h FETCHED = true -> st <> NoSource) ->
  exists s', set_stripe_header s id h = Done s' /\ shared_wf s' /\
    stripe_fetch_states s' =
      (if has_flag h FETCHED then <[id := Fetched]> (stripe_fetch_states s) else stripe_fetch_states s) /\
    stripe_write_states s' =
      (if has_flag h WRITTEN then <[id := Written]> (stripe_write_states s) else stripe_write_states s) /\
    shared_shift s' = shared_shift s.
Proof.
  intros Hwf Hst Hne. pose proof (lookup_lt_Some _ _ _ Hst) as Hlt. unfold set_stripe_header.
  assert (exists s1, (if has_flag h FETCHED then mark_fetched s id else Done s) = Done s1 /\
    shared_wf s1 /\ stripe_fetch_states s1 =
      (if has_flag h FETCHED then <[id := Fetched]> (stripe_fetch_states s) else stripe_fetch_states s) /\
    stripe_write_states s1 = stripe_write_states s /\ shared_shift s1 = shared_shift s)
    as (s1 & -> & Hwf1 & Ef & Ew & Es).
  { destruct (has_flag h FETCHED); [by apply (mark_fetched_wf s id st); auto|by exists s]. }
  cbn [mbind outcome_bind]. destruct (has_flag h WRITTEN); [|exists s1; by rewrite Ew].
  destruct (mark_written_wf s1 id Hwf1) as (s2 & -> & Hwf2 & Ef2 & Ew2 & Es2).
  { rewrite Ef. destruct (has_flag h FETCHED); rewrite ?length_insert; done. }
  exists s2. by rewrite Ef2, Ew2, Es2, Ew.
Qed.

Lemma set_stripe_failed_wf s id st :
  shared_wf s -> stripe_fetch_states s !! id = Some st -> st <> Fetched -> st <> NoSource ->
  exists s', set_stripe_failed s id = Done s' /\ shared_wf s' /\
    stripe_fetch_states s' = <[id := Failed]> (stripe_fetch_states s) /\
    stripe_write_states s' = stripe_write_states s /\ shared_shift s' = shared_shift s.
Proof.
  intros [Hl Hf Hw Hcf Hcs Hsm] Hst Hn1 Hn2. pose proof (lookup_lt_Some _ _ _ Hst).
  unfold set_stripe_failed. rewrite set_index_done by done.
  cbn [mbind outcome_bind]. eexists; split; [done|]. split; [|done].
  pose proof (count_state_insert is_fetched _ _ _ Failed Hst) as Ef.
  pose proof (count_state_insert has_src _ _ _ Failed Hst) as Es.
  assert (is_fetched st = false) as E1 by (unfold is_fetched; by apply Z.eqb_neq).
  assert (has_src st = true) as E2 by (unfold has_src; by rewrite (proj2 (Z.eqb_neq _ _) Hn2)).
  rewrite E1 in Ef; rewrite E2 in Es.
  change (is_fetched Failed) with false in Ef. change (has_src Failed) with true in Es.
  constructor; cbn; rewrite ?length_insert; try done; [|rewrite Ef|rewrite Es]; try lia.
  apply Forall_insert; [done|set_solver].
Qed.

(** The atomic updates other threads may observe, in any order. *)
Inductive shared_step : SharedMetadataState -> SharedMetadataState -> Prop :=
| step_header s id st h s' :
    stripe_fetch_states s !! id = Some st ->
    (has_flag h FETCHED = true -> st <> NoSource) ->
    set_stripe_header s id h = Done s' -> shared_step s s'
| step_failed s id st s' :
    stripe_fetch_states s !! id = Some st -> st <> Fetched -> st <> NoSource ->
    set_stripe_failed s id = Done s' -> shared_step s s'.

Lemma shared_step_wf s s' : shared_wf s -> shared_step s s' -> shared_wf s'.
Proof.
  intros Hwf Hstep. destruct Hstep as [s0 id st h s1 Hst Hne H|s0 id st s1 Hst H1 H2 H].
  - destruct (set_stripe_header_wf s0 id h st Hwf Hst Hne) as (s2 & E & Hwf2 & _). congruence.
  - destruct (set_stripe_failed_wf s0 id st Hwf Hst H1 H2) as (s2 & E & Hwf2 & _). congruence.
Qed.

Lemma shared_steps_wf s s' : shared_wf s -> rtc shared_step s s' -> shared_wf s'.
Proof. intros Hwf. induction 1; eauto using shared_step_wf. Qed.

(** Every stripe that has data in the source has been fetched. *)
Definition all_fetched (s : SharedMetadataState) : Prop :=
  forall i st, stripe_fetch_states s !! i = Some st -> st = Fetched \/ st = NoSource.

Lemma fetched_le_source states : count_state is_fetched states <= count_state has_src states.
Proof.
  induction states as [|x l IH]; [done|]. rewrite !count_state_cons. unfold is_fetched, has_src in *.
  destruct (Z.eqb_spec x Fetched) as [->|]; cbn; [lia|]. destruct (x =? NoSource); cbn; lia.
Qed.

Lemma counts_equal_iff states :
  count_state is_fetched states = count_state has_src states <->
  Forall (fun st => st = Fetched \/ st = NoSource) states.
Proof.
  induction states as [|x l IH]; [by split|]. rewrite !count_state_cons, Forall_cons, <- IH.
  pose proof (fetched_le_source l). unfold is_fetched at 1, has_src at 1.
  destruct (Z.eqb_spec x Fetched) as [->|]; [cbn; intuition lia|].
  destruct (Z.eqb_spec x NoSource) as [->|]; cbn; intuition (congruence || lia).
Qed.

Lemma shared_step_source s s' :
  shared_step s s' ->
  source_stripes_count s' = source_stripes_count s /\
  length (stripe_fetch_states s') = length (stripe_fetch_states s).
Proof.
  destruct 1 as [s id st h s' Hst _ H|s id st s' Hst _ _ H];
    unfold set_stripe_header, set_stripe_failed, mark_fetched, mark_written, set_index, index in H;
    rewrite ?Hst in H; repeat (case_match; simplify_eq/=); rewrite ?length_insert; done.
Qed.

(** The updates of the flusher and the fetcher never change which stripes have
    a source: the source counter stays the number of headers with the flag. *)
Lemma shared_steps_source m s :
  rtc shared_step (new_shared m) s ->
  source_stripes s = count_state (fun h => has_flag h HAS_SOURCE) (stripe_headers m) /\
  length (stripe_fetch_states s) = length (stripe_headers m).
Proof.
  intros Hr. remember (new_shared m) as s0 eqn:E0.
  assert (source_stripes s0 = count_state (fun h => has_flag h HAS_SOURCE) (stripe_headers m) /\
          length (stripe_fetch_states s0) = length (stripe_headers m)) as H0.
  { subst s0. unfold new_shared. rewrite scan_headers. cbn. by rewrite length_map. }
  clear E0. induction Hr as [|s0 s1 s2 H1 _ IH]; [done|]. apply IH.
  destruct (shared_step_source _ _ H1) as [E1 E2]. unfold source_stripes in *. by rewrite E1, E2.
Qed.

(** C31: the two counters that the status report shows, and that the fetcher
    compares before it disconnects from the source, are exact.  For metadata in
    which only stripes with a source are marked as fetched ([header_ok], which
    holds of new metadata by [new_metadata_headers_ok]), in every state
    reachable by header updates that mark only such stripes as fetched and by
    failures of stripes not fetched yet, in any order: the fetched counter is
    the number of stripes whose state is Fetched, the source counter is the
    number of stripes whose state is not NoSource and the number of headers of
    the metadata with HAS_SOURCE, and the report shows both; they are equal
    exactly when every stripe with a source has been fetched. *)
Theorem shared_counters_exact m s :
  metadata_wf m -> Forall header_ok (stripe_headers m) -> rtc shared_step (new_shared m) s ->
  fetched_stripes s = count_state is_fetched (stripe_fetch_states s) /\
  source_stripes s = count_state has_src (stripe_fetch_states s) /\
  source_stripes s = count_state (fun h => has_flag h HAS_SOURCE) (stripe_headers m) /\
  length (stripe_fetch_states s) = length (stripe_headers m) /\
  fetched_stripes s <= source_stripes s /\
  (fetched_stripes s = source_stripes s <-> all_fetched s) /\
  (forall sectors, fetched (stripes (report s sectors)) = count_state is_fetched (stripe_fetch_states s) /\
     source (stripes (report s sectors)) = count_state (fun h => has_flag h HAS_SOURCE) (stripe_headers m)).
Proof.
  intros Hm Hok Hr. pose proof (shared_steps_wf _ _ (new_shared_wf m Hm Hok) Hr) as [_ _ _ Hf Hs _].
  destruct (shared_steps_source _ _ Hr) as [Es El]. pose proof (fetched_le_source (stripe_fetch_states s)) as Hle.
  unfold report, fetched_stripes, source_stripes in *. cbn. rewrite Hf. split_and!; try done.
  - by rewrite Hs.
  - rewrite Hs, counts_equal_iff, Forall_lookup. done.
Qed.

(** Three stripes, two of them in the source: the first is fetched and written,
    the second fails. *)
Lemma shared_counters_exact_witness :
  exists s, rtc shared_step (new_shared (new_metadata 11 3 2)) s /\
    stripe_fetch_states s = [Fetched; Failed; NoSource] /\
    fetched_stripes s = 1 /\ source_stripes s = 2 /\ ~ all_fetched s.
Proof.
  eexists. assert (rtc shared_step (new_shared (new_metadata 11 3 2))
    (mkShared [Fetched; Failed; NoSource] [Written; NotWritten; NotWritten] 11 1 2)) as Hr.
  { eapply rtc_l; [eapply (step_header _ 0%nat NotFetched (Z.lor FETCHED WRITTEN)); [done|done|vm_compute; done]|].
    eapply rtc_l; [eapply (step_failed _ 1%nat NotFetched); [done|done|done|vm_compute; done]|apply rtc_refl]. }
  destruct (shared_counters_exact (new_metadata 11 3 2) _
    ltac:(apply new_metadata_wf; unfold MAX_STRIPE_SECTOR_COUNT_SHIFT, U32_MAX; lia)
    (new_metadata_headers_ok 11 3 2) Hr) as (E1 & _ & E3 & _ & _ & E6 & _).
  split; [exact Hr|]. split; [done|]. split; [rewrite E1; done|]. split; [rewrite E3; vm_compute; done|].
  rewrite <- E6, E1, E3. vm_compute. discriminate.
Defined.
