(* ===== verification/World.v ===== *)
(** * World: what the threads of the program share, and its buffers

    [World] collects every object the source reaches through an [Arc]: the I/O
    buffers ([SharedBuffer = Arc<AtomicRefCell<AlignedBuf>>]), the files behind
    the block devices, the shared stripe states and the request queue of the
    background worker.  A shared object is modelled by its location (a key of
    the map), so two clones of an [Arc] are the same location and a write
    through one is seen through the other.

    The file also models src/src/utils/aligned_buffer.rs and
    src/src/utils/aligned_buffer_pool.rs. *)
From S2P Require Import Prelude Metadata SharedState.

(** ** The world *)

(** An [AlignedBuf] as its users see it: the aligned window [as_slice] and the
    pool index [id].  [AlignedWindow] below models the window itself. *)
Record AlignedBuf := mkBuf { buf_data : list Z; buf_id : nat }.

(** A file: its current contents and the contents known to be on stable
    storage since the last successful [sync_all]. *)
Record Disk := mkDisk { disk_data : list Z; disk_synced : list Z }.

Inductive BgWorkerRequest :=
| Fetch (stripe_id : nat)
| SetWritten (stripe_id : nat)
| Shutdown.

(** The alignment of buffers for direct I/O (utils/aligned_buffer.rs). *)
Definition BUFFER_ALIGNMENT : Z := 4096.

Record World := mkWorld {
  w_bufs : gmap nat AlignedBuf;
  w_next : nat;                       (* the next fresh buffer location *)
  w_disks : gmap nat Disk;
  w_faults : list (option nat);       (* fate of the coming file operations *)
  w_shared : SharedMetadataState;
  w_requests : list BgWorkerRequest;  (* the worker's mpsc queue *)
  w_worker_alive : bool;              (* whether its receiver still exists *)
}.

Definition set_bufs (w : World) b := mkWorld b (w_next w) (w_disks w) (w_faults w)
  (w_shared w) (w_requests w) (w_worker_alive w).
Definition set_disks (w : World) d := mkWorld (w_bufs w) (w_next w) d (w_faults w)
  (w_shared w) (w_requests w) (w_worker_alive w).
Definition set_faults (w : World) f := mkWorld (w_bufs w) (w_next w) (w_disks w) f
  (w_shared w) (w_requests w) (w_worker_alive w).
Definition set_shared (w : World) s := mkWorld (w_bufs w) (w_next w) (w_disks w) (w_faults w)
  s (w_requests w) (w_worker_alive w).
Definition set_requests (w : World) r := mkWorld (w_bufs w) (w_next w) (w_disks w) (w_faults w)
  (w_shared w) r (w_worker_alive w).

(** ** Buffers *)

Definition buf_at (w : World) (b : nat) : AlignedBuf := default (mkBuf [] 0) (w_bufs w !! b).

(** [buf.borrow().as_slice()] *)
Definition read_buf (w : World) (b : nat) : list Z := buf_data (buf_at w b).

(** Assignment to [buf.borrow_mut().as_mut_slice()]. *)
Definition write_buf (w : World) (b : nat) (data : list Z) : World :=
  set_bufs w (<[b := mkBuf data (buf_id (buf_at w b))]> (w_bufs w)).

(** [shared_buffer(size)]: a fresh zeroed buffer. *)
Definition alloc_buf (size : nat) (id : nat) (w : World) : nat * World :=
  (w_next w, mkWorld (<[w_next w := mkBuf (replicate size 0) id]> (w_bufs w)) (S (w_next w))
    (w_disks w) (w_faults w) (w_shared w) (w_requests w) (w_worker_alive w)).

Definition shared_buffer (size : nat) (w : World) : nat * World := alloc_buf size 0 w.

(** [usize::is_power_of_two]. *)
Definition is_power_of_two (n : Z) : bool := (0 <? n) && (Z.land n (n - 1) =? 0).

(** The aligned window inside the allocation of [new_with_alignment]: [ptr] is
    the address the allocator returned for a vector of [len + align] bytes. *)
Definition window_offset (ptr align : Z) : outcome Z :=
  if negb (negb (align =? 0) && is_power_of_two align) then Panic AssertionFailed
  else Done ((align - ptr mod align) mod align).

(** ** Buffer pool *)

Record AlignedBufferPool := mkPool {
  pool_buffers : list nat;
  available_buffers : list nat;
  in_use : list bool;
}.

(** Allocation of the pool's buffers, [index] by [index]. *)
Fixpoint alloc_pool (size : nat) (ids : list nat) (w : World) : list nat * World :=
  match ids with
  | [] => ([], w)
  | id :: ids' =>
      let '(b, w) := alloc_buf size id w in
      let '(bs, w) := alloc_pool size ids' w in
      (b :: bs, w)
  end.

Definition new_pool (alignment : Z) (count size : nat) (w : World)
  : outcome (AlignedBufferPool * World) :=
  if bool_decide (0 < count)%nat && negb (is_power_of_two alignment) then Panic AssertionFailed else
  let '(bs, w) := alloc_pool size (seq 0 count) w in
  Done (mkPool bs (seq 0 count) (replicate count false), w).

Definition get_buffer (p : AlignedBufferPool) : outcome (option nat * AlignedBufferPool) :=
  match available_buffers p with
  | [] => Done (None, p)
  | i :: rest =>
      iu ← set_index (in_use p) i true;
      b ← index (pool_buffers p) i;
      Done (Some b, mkPool (pool_buffers p) rest iu)
  end.

Definition return_buffer (p : AlignedBufferPool) (b : nat) (w : World)
  : outcome AlignedBufferPool :=
  let i := buf_id (buf_at w b) in
  if negb (bool_decide (i < length (pool_buffers p))%nat) then Panic AssertionFailed else
  used ← index (in_use p) i;
  if negb used then Panic AssertionFailed else
  own ← index (pool_buffers p) i;
  if negb (bool_decide (own = b)) then Panic AssertionFailed else
  iu ← set_index (in_use p) i false;
  Done (mkPool (pool_buffers p) (available_buffers p ++ [i]) iu).

Definition has_available (p : AlignedBufferPool) : bool :=
  negb (bool_decide (available_buffers p = [])).

(** Buffers are allocated at fresh locations. *)
Definition fresh_world (w : World) : Prop := forall b, b ∈ dom (w_bufs w) -> (b < w_next w)%nat.

Lemma no_buffers_fresh w : w_bufs w = ∅ -> fresh_world w.
Proof. intros E b Hb. rewrite E, dom_empty in Hb. by apply elem_of_empty in Hb. Qed.

(** ** Frames: what an I/O operation leaves alone *)

(** The buffers keep their identity and size, and the shared state and the
    request queue are untouched. *)
Definition frame (w w' : World) : Prop :=
  (forall b, b ∈ dom (w_bufs w) ->
     b ∈ dom (w_bufs w') /\ buf_id (buf_at w' b) = buf_id (buf_at w b)
     /\ length (read_buf w' b) = length (read_buf w b)) /\
  (w_next w <= w_next w')%nat /\
  (fresh_world w -> fresh_world w') /\
  w_shared w' = w_shared w /\ w_requests w' = w_requests w /\
  w_worker_alive w' = w_worker_alive w.

#[global] Instance frame_refl : Reflexive frame.
Proof. intros w. by split_and!. Qed.

#[global] Instance frame_trans : Transitive frame.
Proof.
  intros w1 w2 w3 (A1 & A2 & A3 & A4 & A5 & A6) (B1 & B2 & B3 & B4 & B5 & B6).
  split_and!; try congruence; [|lia|auto].
  intros b Hb. destruct (A1 b Hb) as (H1 & H2 & H3). destruct (B1 b H1) as (G1 & G2 & G3).
  split_and!; congruence.
Qed.

(** What may additionally happen between two calls of one component: the other
    components publish stripe states, take requests, and so on. *)
Definition stable (w w' : World) : Prop :=
  (forall b, b ∈ dom (w_bufs w) ->
     b ∈ dom (w_bufs w') /\ buf_id (buf_at w' b) = buf_id (buf_at w b)
     /\ length (read_buf w' b) = length (read_buf w b)) /\
  (w_next w <= w_next w')%nat /\
  length (stripe_fetch_states (w_shared w')) = length (stripe_fetch_states (w_shared w)) /\
  length (stripe_write_states (w_shared w')) = length (stripe_write_states (w_shared w)) /\
  shared_shift (w_shared w') = shared_shift (w_shared w).

#[global] Instance stable_refl : Reflexive stable.
Proof. intros w. by split_and!. Qed.

#[global] Instance stable_trans : Transitive stable.
Proof.
  intros w1 w2 w3 (A1 & A2 & A3 & A4 & A5) (B1 & B2 & B3 & B4 & B5). split_and!; try congruence; [|lia].
  intros b Hb. destruct (A1 b Hb) as (H1 & H2 & H3). destruct (B1 b H1) as (G1 & G2 & G3).
  split_and!; congruence.
Qed.

Lemma frame_stable w w' : frame w w' -> stable w w'.
Proof. intros (H1 & H2 & _ & H3 & H4 & H5). split_and!; try done; by rewrite H3. Qed.

Lemma set_shared_stable w sh :
  length (stripe_fetch_states sh) = length (stripe_fetch_states (w_shared w)) ->
  length (stripe_write_states sh) = length (stripe_write_states (w_shared w)) ->
  shared_shift sh = shared_shift (w_shared w) -> stable w (set_shared w sh).
Proof. intros. by split_and!. Qed.

Lemma set_requests_stable w rs : stable w (set_requests w rs).
Proof. by split_and!. Qed.

Lemma buf_at_insert w b x b' :
  buf_at (set_bufs w (<[b := x]> (w_bufs w))) b' = if decide (b = b') then x else buf_at w b'.
Proof. unfold buf_at; cbn. rewrite lookup_insert. by case_decide. Qed.

Lemma read_write_buf w b d b' :
  read_buf (write_buf w b d) b' = if decide (b = b') then d else read_buf w b'.
Proof. unfold read_buf, write_buf. rewrite buf_at_insert. by case_decide. Qed.

Lemma read_write_buf_eq w b d : read_buf (write_buf w b d) b = d.
Proof. rewrite read_write_buf. by rewrite decide_True. Qed.

Lemma read_write_buf_ne w b d b' : b <> b' -> read_buf (write_buf w b d) b' = read_buf w b'.
Proof. intros. rewrite read_write_buf. by rewrite decide_False. Qed.

Lemma write_buf_frame w b d :
  b ∈ dom (w_bufs w) -> length d = length (read_buf w b) -> frame w (write_buf w b d).
Proof.
  intros Hd Hl. split_and!; try done.
  2:{ intros Hfr b' Hb'. apply Hfr. unfold write_buf in Hb'; cbn in Hb'.
      rewrite dom_insert in Hb'. set_solver. }
  intros b' Hb'. split_and!.
  - unfold write_buf; cbn. rewrite dom_insert. set_solver.
  - unfold write_buf. rewrite buf_at_insert. case_decide; [by subst|done].
  - rewrite read_write_buf. case_decide; [by subst|done].
Qed.

Lemma set_disks_frame w d : frame w (set_disks w d).
Proof. by split_and!. Qed.
Lemma set_faults_frame w f : frame w (set_faults w f).
Proof. by split_and!. Qed.

#[export] Hint Resolve frame_refl frame_stable stable_refl set_disks_frame set_faults_frame write_buf_frame : ubi.

(** ** Pool invariant *)

Record pool_wf (p : AlignedBufferPool) (w : World) : Prop := {
  pw_len : length (pool_buffers p) = length (in_use p);
  pw_bufs : NoDup (pool_buffers p);
  pw_ids : forall i b, pool_buffers p !! i = Some b -> b ∈ dom (w_bufs w) /\ buf_id (buf_at w b) = i;
  pw_nodup : NoDup (available_buffers p);
  pw_avail : forall i, i ∈ available_buffers p <-> in_use p !! i = Some false;
}.

(** The buffers currently handed out. *)
Definition handed_out (p : AlignedBufferPool) (b : nat) : Prop :=
  exists i, pool_buffers p !! i = Some b /\ in_use p !! i = Some true.

Lemma pool_wf_stable p w w' : stable w w' -> pool_wf p w -> pool_wf p w'.
Proof.
  intros (Hf & _) [H1 H2 H3 H4 H5]. constructor; try done.
  intros i b Hb. destruct (H3 i b Hb) as [Hd Hid]. destruct (Hf b Hd) as (? & E & _).
  by rewrite E.
Qed.

Lemma handed_out_id p w b :
  pool_wf p w -> handed_out p b ->
  pool_buffers p !! buf_id (buf_at w b) = Some b /\ in_use p !! buf_id (buf_at w b) = Some true.
Proof. intros Hwf (i & Hb & Hi). by destruct (pw_ids _ _ Hwf i b Hb) as [_ ->]. Qed.

(** Taking a buffer: it was free, and only its status changes. *)
Lemma get_buffer_spec p w :
  pool_wf p w -> has_available p = true ->
  exists b p', get_buffer p = Done (Some b, p') /\ pool_wf p' w /\
    ~ handed_out p b /\ b ∈ dom (w_bufs w) /\
    pool_buffers p' = pool_buffers p /\
    (forall b', handed_out p' b' <-> b' = b \/ handed_out p b').
Proof.
  intros [H1 H2 H3 H4 H5] Ha. unfold has_available in Ha. apply negb_true_iff, bool_decide_eq_false in Ha.
  unfold get_buffer. destruct (available_buffers p) as [|i rest] eqn:E; [done|].
  assert (in_use p !! i = Some false) as Hi by (apply H5; left).
  pose proof (lookup_lt_Some _ _ _ Hi) as Hlt.
  rewrite set_index_done by done. cbn [mbind outcome_bind].
  destruct (lookup_lt_is_Some_2 (pool_buffers p) i) as [b Hb]; [lia|].
  rewrite (index_done _ _ _ Hb). cbn [mbind outcome_bind].
  apply NoDup_cons in H4 as [Hni Hnd].
  exists b. eexists; split; [done|]. split_and!.
  - constructor; cbn; rewrite ?length_insert; try done. intros j.
    destruct (decide (i = j)) as [<-|Hne].
    + rewrite list_lookup_insert_eq by done. split; [done|discriminate].
    + rewrite list_lookup_insert_ne, <- H5 by done. split; [by right|]. by inversion 1; subst.
  - intros (j & Hj & Hu). rewrite (NoDup_lookup _ _ _ _ H2 Hj Hb) in Hu. congruence.
  - by destruct (H3 i b Hb).
  - done.
  - intros b'; unfold handed_out; cbn. split.
    + intros (j & Hj & Hu). destruct (decide (i = j)) as [<-|Hne]; [left; congruence|].
      rewrite list_lookup_insert_ne in Hu by done. right; eauto.
    + intros [->|(j & Hj & Hu)].
      * exists i. by rewrite list_lookup_insert_eq.
      * exists j. split; [done|]. rewrite list_lookup_insert_ne; [done|]. intros ->. congruence.
Qed.

(** Returning a handed-out buffer succeeds and makes exactly it free again. *)
Lemma return_buffer_spec p w b :
  pool_wf p w -> handed_out p b ->
  exists p', return_buffer p b w = Done p' /\ pool_wf p' w /\ has_available p' = true /\
    pool_buffers p' = pool_buffers p /\
    (forall b', handed_out p' b' <-> b' <> b /\ handed_out p b').
Proof.
  intros Hwf Hout. destruct (handed_out_id p w b Hwf Hout) as [Hb Hu].
  destruct Hwf as [H1 H2 H3 H4 H5]. unfold return_buffer. set (i := buf_id (buf_at w b)) in *.
  pose proof (lookup_lt_Some _ _ _ Hb). pose proof (lookup_lt_Some _ _ _ Hu).
  rewrite bool_decide_true by done. cbn [negb].
  rewrite (index_done _ _ _ Hu). cbn [mbind outcome_bind negb].
  rewrite (index_done _ _ _ Hb). cbn [mbind outcome_bind].
  rewrite bool_decide_true by done. cbn [negb].
  rewrite set_index_done by done. cbn [mbind outcome_bind].
  eexists; split; [done|]. split_and!.
  - constructor; cbn; rewrite ?length_insert; try done.
    + apply NoDup_app; split_and!; [done| |apply NoDup_singleton].
      intros j Hj ->%list_elem_of_singleton. apply H5 in Hj. congruence.
    + intros j. rewrite elem_of_app, list_elem_of_singleton, H5.
      destruct (decide (i = j)) as [<-|Hne].
      * rewrite list_lookup_insert_eq by done. tauto.
      * rewrite list_lookup_insert_ne by done. naive_solver.
  - unfold has_available; cbn. apply negb_true_iff, bool_decide_eq_false.
    by destruct (available_buffers p).
  - done.
  - intros b'; unfold handed_out; cbn. split.
    + intros (j & Hj & Hv). destruct (decide (i = j)) as [<-|Hne].
      * rewrite list_lookup_insert_eq in Hv by done. discriminate.
      * rewrite list_lookup_insert_ne in Hv by done. split; [|eauto].
        intros ->. apply Hne. by apply (NoDup_lookup (pool_buffers p) _ _ b).
    + intros [Hbb (j & Hj & Hv)]. exists j. split; [done|].
      rewrite list_lookup_insert_ne; [done|]. intros ->. congruence.
Qed.

Lemma read_buf_alloc size id w :
  read_buf (alloc_buf size id w).2 (alloc_buf size id w).1 = replicate size 0.
Proof. unfold read_buf, buf_at. cbn. by rewrite lookup_insert_eq. Qed.

Lemma alloc_frame size id w : fresh_world w -> frame w (alloc_buf size id w).2.
Proof.
  intros Hfr. split_and!; try done; [|cbn; lia|].
  2:{ intros _ b Hb. cbn in *. rewrite dom_insert in Hb. apply elem_of_union in Hb as [Hb|Hb].
      - apply elem_of_singleton in Hb. lia.
      - pose proof (Hfr b Hb). lia. }
  intros b Hb. pose proof (Hfr b Hb).
  split_and!; [cbn; rewrite dom_insert; set_solver|..];
    unfold read_buf, buf_at; cbn; by rewrite lookup_insert_ne by lia.
Qed.

(** A new pool owns fresh buffers of the requested size, all of them free. *)
Lemma alloc_pool_spec size n k w bs w' :
  alloc_pool size (seq k n) w = (bs, w') -> fresh_world w ->
  frame w w' /\ fresh_world w' /\ bs = seq (w_next w) n /\
  w_disks w' = w_disks w /\ w_faults w' = w_faults w /\
  forall i, (i < n)%nat -> (w_next w + i)%nat ∈ dom (w_bufs w') /\
    buf_id (buf_at w' (w_next w + i)) = (k + i)%nat /\
    length (read_buf w' (w_next w + i)) = size.
Proof.
  revert k w bs w'. induction n as [|n IH]; intros k w bs w' E Hfr; cbn [seq alloc_pool] in E.
  { simplify_eq. split_and!; try done. intros; lia. }
  pose proof (alloc_frame size k w Hfr) as Hf. pose proof (read_buf_alloc size k w) as Hr.
  assert (buf_id (buf_at (alloc_buf size k w).2 (w_next w)) = k) as Hid
    by (unfold buf_at; cbn; by rewrite lookup_insert_eq).
  assert (w_next w ∈ dom (w_bufs (alloc_buf size k w).2)) as Hd by (cbn; rewrite dom_insert; set_solver).
  unfold alloc_buf in E. set (w1 := (alloc_buf size k w).2) in *. fold w1 in E.
  change (mkWorld _ _ _ _ _ _ _) with w1 in E. cbn [alloc_buf fst] in Hr.
  destruct (alloc_pool size (seq (S k) n) w1) as [bs1 w2] eqn:E1. simplify_eq.
  destruct (IH (S k) w1 bs1 w' E1) as (Hf2 & Hfr2 & -> & Ed & El & Hall); [by apply Hf|].
  split_and!; [by etransitivity|done|done|done|done|]. intros i Hi. destruct i as [|i].
  - rewrite !Nat.add_0_r. destruct Hf2 as (Hb & _). destruct (Hb _ Hd) as (? & -> & ->).
    split_and!; [done..|]. by rewrite Hr, length_replicate.
  - replace (w_next w + S i)%nat with (w_next w1 + i)%nat by (cbn; lia).
    replace (k + S i)%nat with (S k + i)%nat by lia. apply Hall. lia.
Qed.

Lemma new_pool_spec alignment count size w :
  is_power_of_two alignment = true -> fresh_world w ->
  exists p w', new_pool alignment count size w = Done (p, w') /\ frame w w' /\ pool_wf p w' /\
    (forall b, b ∈ pool_buffers p -> length (read_buf w' b) = size) /\
    (forall b, ~ handed_out p b) /\ length (pool_buffers p) = count /\
    w_disks w' = w_disks w /\ w_faults w' = w_faults w.
Proof.
  intros Ha Hfr. unfold new_pool. rewrite Ha, andb_false_r.
  destruct (alloc_pool size (seq 0 count) w) as [bs w'] eqn:E.
  destruct (alloc_pool_spec size count 0 w bs w' E Hfr) as (Hf & _ & -> & Ed & El & Hall).
  assert (forall i b, seq (w_next w) count !! i = Some b -> (i < count)%nat /\ b = (w_next w + i)%nat) as Hl
    by (intros i b [-> ?]%lookup_seq; lia).
  do 2 eexists; split_and!; [done|done| | | |cbn; apply length_seq|done|done].
  - constructor; cbn.
    + by rewrite length_seq, length_replicate.
    + apply NoDup_seq.
    + intros i b [Hi ->]%Hl. by destruct (Hall i Hi) as (? & -> & _).
    + apply NoDup_seq.
    + intros i. rewrite elem_of_seq, lookup_replicate. intuition lia.
  - intros b [i [Hi ->]%Hl]%list_elem_of_lookup. by apply Hall.
  - intros b (i & _ & Hi). cbn in Hi. by apply lookup_replicate in Hi as [? _].
Qed.

(** The address of the window of an aligned buffer is a multiple of the
    requested alignment, and the window of [len] bytes lies inside the
    allocation of [len + align] bytes, for every address the allocator may
    return; a request with an alignment that is zero or not a power of two
    panics. *)
Theorem aligned_window ptr align len :
  0 <= ptr -> 0 <= len ->
  (is_power_of_two align = true ->
   exists off, window_offset ptr align = Done off /\
     (ptr + off) mod align = 0 /\ 0 <= off /\ off + len <= len + align) /\
  (is_power_of_two align = false -> window_offset ptr align = Panic AssertionFailed).
Proof.
  intros Hp Hl. unfold window_offset. split; intros Ha; rewrite Ha.
  - unfold is_power_of_two in Ha. apply andb_true_iff in Ha as [Ha _]. apply Z.ltb_lt in Ha.
    destruct (Z.eqb_spec align 0); [lia|]. cbn [negb andb]. eexists; split; [done|].
    pose proof (Z.mod_pos_bound (align - ptr mod align) align Ha).
    split_and!; try lia.
    rewrite Z.add_mod_idemp_r by lia.
    replace (ptr + (align - ptr mod align)) with (ptr - ptr mod align + 1 * align) by lia.
    rewrite Z.mod_add by lia. rewrite Zminus_mod, Z.mod_mod, Z.sub_diag by lia. apply Z.mod_0_l; lia.
  - by rewrite andb_false_r.
Qed.

Lemma aligned_window_witness :
  exists off, window_offset 5000 4096 = Done off /\
    (5000 + off) mod 4096 = 0 /\ 0 <= off /\ off + 512 <= 512 + 4096.
Proof. apply aligned_window; [lia|lia|reflexivity]. Defined.
