(* ===== verification/Device.v ===== *)
(** * Device: the IoChannel interface and the synchronous devices

    Models src/src/block_device/mod.rs (the [IoChannel] and [BlockDevice]
    traits), wait_for_completion.rs, bdev_null.rs, bdev_sync.rs, and
    bdev_lazy/metadata/{save,load}.rs.

    [IoChannel] is the trait as a class of operations.  [ChannelSafe] and
    [ChannelContract] are the two promises the layers above rely on: calls with
    large enough buffers return and touch nothing but buffers and disks, and
    every request handed to a channel is reported by [poll] exactly once.
    [ChannelServes] is the weaker promise of a channel that takes only some
    requests and may also ask the background worker for stripes, as the lazy
    device does; the front ends are verified against it. *)
From S2P Require Import Prelude Metadata SharedState World.

(** ** The trait *)

Class IoChannel (C : Type) := {
  add_read : Z -> Z -> nat -> nat -> C -> World -> outcome (C * World);
  add_write : Z -> Z -> nat -> nat -> C -> World -> outcome (C * World);
  add_flush : nat -> C -> World -> outcome (C * World);
  submit : C -> World -> outcome (result unit * C * World);
  poll : C -> World -> outcome (list (nat * bool) * C * World);
  busy : C -> bool;
}.

Class BlockDevice (D C : Type) := {
  create_channel : D -> World -> result C;
  sector_count : D -> Z;
}.

(** [BlockDevice::stripe_count]. *)
Definition dev_stripe_count {D C} `{BlockDevice D C} (d : D) (ssc : Z) : nat :=
  Z.to_nat (div_ceil (sector_count d) ssc).

(** A buffer able to hold [n] sectors. *)
Definition holds (w : World) (b : nat) (n : Z) : Prop :=
  b ∈ dom (w_bufs w) /\ (Z.to_nat n * SECTOR_SIZE <= length (read_buf w b))%nat.

Class ChannelSafe (C : Type) `{IoChannel C} := {
  ch_inv : C -> World -> Prop;
  ch_inv_stable c w w' : stable w w' -> ch_inv c w -> ch_inv c w';
  add_read_safe so n b id c w : ch_inv c w -> holds w b n ->
    exists c' w', add_read so n b id c w = Done (c', w') /\ frame w w' /\ ch_inv c' w';
  add_write_safe so n b id c w : ch_inv c w -> holds w b n ->
    exists c' w', add_write so n b id c w = Done (c', w') /\ frame w w' /\ ch_inv c' w';
  add_flush_safe id c w : ch_inv c w ->
    exists c' w', add_flush id c w = Done (c', w') /\ frame w w' /\ ch_inv c' w';
  submit_safe c w : ch_inv c w ->
    exists r c' w', submit c w = Done (r, c', w') /\ frame w w' /\ ch_inv c' w';
  poll_safe c w : ch_inv c w ->
    exists rs c' w', poll c w = Done (rs, c', w') /\ frame w w' /\ ch_inv c' w';
}.

Class ChannelContract (C : Type) `{IoChannel C} := {
  outstanding : C -> list nat;
  add_read_out so n b id c w c' w' :
    add_read so n b id c w = Done (c', w') -> outstanding c' ≡ₚ id :: outstanding c;
  add_write_out so n b id c w c' w' :
    add_write so n b id c w = Done (c', w') -> outstanding c' ≡ₚ id :: outstanding c;
  add_flush_out id c w c' w' :
    add_flush id c w = Done (c', w') -> outstanding c' ≡ₚ id :: outstanding c;
  submit_out c w r c' w' :
    submit c w = Done (r, c', w') -> outstanding c' ≡ₚ outstanding c;
  poll_out c w rs c' w' :
    poll c w = Done (rs, c', w') -> outstanding c ≡ₚ rs.*1 ++ outstanding c';
}.

(** What a call of a channel may do to the world that its callers see: buffers
    and geometry stay, fresh locations stay fresh. *)
Definition evolves (w w' : World) : Prop := stable w w' /\ (fresh_world w -> fresh_world w').

#[global] Instance evolves_refl : Reflexive evolves.
Proof. intros w. by split. Qed.
#[global] Instance evolves_trans : Transitive evolves.
Proof. intros w1 w2 w3 [A1 A2] [B1 B2]. split; [by etransitivity|auto]. Qed.

Lemma frame_evolves w w' : frame w w' -> evolves w w'.
Proof. intros Hf. split; [by apply frame_stable|apply Hf]. Qed.

Lemma requests_evolve w rs : evolves w (set_requests w rs).
Proof. by split. Qed.

(** [accepts w so n]: the channel takes in requests for [n] sectors at [so]. *)
Class ChannelServes (C : Type) `{IoChannel C} := {
  cs_inv : C -> World -> Prop;
  accepts : World -> Z -> Z -> Prop;
  cs_inv_stable c w w' : stable w w' -> cs_inv c w -> cs_inv c w';
  accepts_stable w w' so n : stable w w' -> accepts w so n -> accepts w' so n;
  serves_read so n b id c w : cs_inv c w -> holds w b n -> accepts w so n ->
    exists c' w', add_read so n b id c w = Done (c', w') /\ evolves w w' /\ cs_inv c' w';
  serves_write so n b id c w : cs_inv c w -> holds w b n -> accepts w so n ->
    exists c' w', add_write so n b id c w = Done (c', w') /\ evolves w w' /\ cs_inv c' w';
  serves_flush id c w : cs_inv c w ->
    exists c' w', add_flush id c w = Done (c', w') /\ evolves w w' /\ cs_inv c' w';
  serves_submit c w : cs_inv c w ->
    exists r c' w', submit c w = Done (r, c', w') /\ evolves w w' /\ cs_inv c' w';
  serves_poll c w : cs_inv c w ->
    exists rs c' w', poll c w = Done (rs, c', w') /\ evolves w w' /\ cs_inv c' w';
}.
Arguments accepts C {_ _}.

(** A safe channel takes every request. *)
#[global] Instance safe_serves {C} `{ChannelSafe C} : ChannelServes C.
Proof.
  refine {| cs_inv := ch_inv; accepts w so n := True |}.
  - intros c w w'. by apply ch_inv_stable.
  - done.
  - intros so n b id c w Hi Hh _. destruct (add_read_safe so n b id c w Hi Hh) as (c' & w' & E & Hf & Hi').
    exists c', w'. split_and!; [done|by apply frame_evolves|done].
  - intros so n b id c w Hi Hh _. destruct (add_write_safe so n b id c w Hi Hh) as (c' & w' & E & Hf & Hi').
    exists c', w'. split_and!; [done|by apply frame_evolves|done].
  - intros id c w Hi. destruct (add_flush_safe id c w Hi) as (c' & w' & E & Hf & Hi').
    exists c', w'. split_and!; [done|by apply frame_evolves|done].
  - intros c w Hi. destruct (submit_safe c w Hi) as (r & c' & w' & E & Hf & Hi').
    exists r, c', w'. split_and!; [done|by apply frame_evolves|done].
  - intros c w Hi. destruct (poll_safe c w Hi) as (r & c' & w' & E & Hf & Hi').
    exists r, c', w'. split_and!; [done|by apply frame_evolves|done].
Defined.

(** A run of any channel: [reqs] are the ids handed to it, [reps] the
    completions it reported. *)
Inductive channel_run {C} `{IoChannel C} : list nat -> list (nat * bool) -> C -> World -> C -> World -> Prop :=
| run_start c w : channel_run [] [] c w c w
| run_read reqs reps c w c1 w1 so n b id c2 w2 : channel_run reqs reps c w c1 w1 ->
    add_read so n b id c1 w1 = Done (c2, w2) -> channel_run (reqs ++ [id]) reps c w c2 w2
| run_write reqs reps c w c1 w1 so n b id c2 w2 : channel_run reqs reps c w c1 w1 ->
    add_write so n b id c1 w1 = Done (c2, w2) -> channel_run (reqs ++ [id]) reps c w c2 w2
| run_flush reqs reps c w c1 w1 id c2 w2 : channel_run reqs reps c w c1 w1 ->
    add_flush id c1 w1 = Done (c2, w2) -> channel_run (reqs ++ [id]) reps c w c2 w2
| run_submit reqs reps c w c1 w1 r c2 w2 : channel_run reqs reps c w c1 w1 ->
    submit c1 w1 = Done (r, c2, w2) -> channel_run reqs reps c w c2 w2
| run_poll reqs reps c w c1 w1 rs c2 w2 : channel_run reqs reps c w c1 w1 ->
    poll c1 w1 = Done (rs, c2, w2) -> channel_run reqs (reps ++ rs) c w c2 w2
| run_world reqs reps c w c1 w1 w2 : channel_run reqs reps c w c1 w1 -> channel_run reqs reps c w c1 w2.

Lemma channel_run_out {C} `{ChannelContract C} reqs reps (c : C) w c' w' :
  channel_run reqs reps c w c' w' -> outstanding c ++ reqs ≡ₚ reps.*1 ++ outstanding c'.
Proof.
  induction 1 as [|????????????? IH E|????????????? IH E|?????????? IH E|?????????? IH E|?????????? IH E|]; try done.
  - by rewrite app_nil_r.
  - rewrite (add_read_out _ _ _ _ _ _ _ _ E), app_assoc, IH. solve_Permutation.
  - rewrite (add_write_out _ _ _ _ _ _ _ _ E), app_assoc, IH. solve_Permutation.
  - rewrite (add_flush_out _ _ _ _ _ E), app_assoc, IH. solve_Permutation.
  - by rewrite (submit_out _ _ _ _ _ E), IH.
  - rewrite IH, (poll_out _ _ _ _ _ E), fmap_app. solve_Permutation.
Qed.

(** ** [wait_for_completion]

    [rounds] is the number of polls the timeout leaves room for. *)
Fixpoint scan_completions (id : nat) (rs : list (nat * bool)) : option bool :=
  match rs with
  | [] => None
  | (i, ok) :: rs' => if decide (i = id) then Some ok else scan_completions id rs'
  end.

Fixpoint wait_for_completion {C} `{IoChannel C} (rounds : nat) (id : nat) (c : C) (w : World)
  : outcome (result unit * C * World) :=
  match rounds with
  | O => Done (Err (IoError TimedOut), c, w)
  | S rounds' =>
      '(rs, c, w) ← poll c w;
      match scan_completions id rs with
      | Some false => Done (Err (IoError OtherIo), c, w)
      | Some true => Done (Ok tt, c, w)
      | None => wait_for_completion rounds' id c w
      end
  end.

(** ** Null device *)

Record NullIoChannel := mkNullCh { null_finished : list (nat * bool) }.

Definition complete_success (c : NullIoChannel) (id : nat) : NullIoChannel :=
  mkNullCh (null_finished c ++ [(id, true)]).

Definition null_add_read (so n : Z) (b id : nat) (c : NullIoChannel) (w : World)
  : outcome (NullIoChannel * World) :=
  let len := (Z.to_nat n * SECTOR_SIZE)%nat in
  let old := read_buf w b in
  let fill_len := (length old `min` len)%nat in
  Done (complete_success c id, write_buf w b (replicate fill_len 0 ++ drop fill_len old)).

Definition null_add_write (so n : Z) (b id : nat) (c : NullIoChannel) (w : World)
  : outcome (NullIoChannel * World) := Done (complete_success c id, w).

#[global] Instance null_channel : IoChannel NullIoChannel := {
  add_read := null_add_read;
  add_write := null_add_write;
  add_flush id c w := Done (complete_success c id, w);
  submit c w := Done (Ok tt, c, w);
  poll c w := Done (null_finished c, mkNullCh [], w);
  busy c := negb (bool_decide (null_finished c = []));
}.

Record NullBlockDevice := mkNullDev { null_sector_count : Z }.
Definition null_new : NullBlockDevice := mkNullDev 0.
#[global] Instance null_device : BlockDevice NullBlockDevice NullIoChannel := {
  create_channel d w := Ok (mkNullCh []);
  sector_count d := null_sector_count d;
}.

(** ** Files

    [read_exact_at], [write_all_at] and [sync_all] of [std::fs::File].  The
    next entry of [w_faults] decides the call's fate: [None] lets it run to its
    end, [Some n] makes it fail after [n] bytes. *)

Definition next_fault (w : World) : option nat * World :=
  match w_faults w with
  | [] => (None, w)
  | f :: fs => (f, set_faults w fs)
  end.

Definition disk_at (w : World) (d : nat) : Disk := default (mkDisk [] []) (w_disks w !! d).

(** The first [k] bytes of [src] over the front of [dst]. *)
Definition overlay (dst src : list Z) (k : nat) : list Z :=
  take k src ++ drop (length (take k src)) dst.

Definition read_exact_at (d : nat) (offset : nat) (dst : list Z) (w : World)
  : bool * list Z * World :=
  let '(fault, w) := next_fault w in
  let src := take (length dst) (drop offset (disk_data (disk_at w d))) in
  match fault with
  | Some n => (false, overlay dst src n, w)
  | None => (bool_decide (length src = length dst), overlay dst src (length dst), w)
  end.

Definition file_write (data : list Z) (offset : nat) (bytes : list Z) : list Z :=
  take offset (data ++ replicate (offset - length data) 0) ++ bytes
    ++ drop (offset + length bytes) data.

Definition write_all_at (d : nat) (writable : bool) (offset : nat) (bytes : list Z) (w : World)
  : bool * World :=
  let '(fault, w) := next_fault w in
  if negb writable then (false, w) else
  let put bs := set_disks w (<[d := mkDisk (file_write (disk_data (disk_at w d)) offset bs)
                                  (disk_synced (disk_at w d))]> (w_disks w)) in
  match fault with
  | Some n => (false, put (take n bytes))
  | None => (true, put bytes)
  end.

Definition sync_all (d : nat) (w : World) : bool * World :=
  let '(fault, w) := next_fault w in
  match fault with
  | Some _ => (false, w)
  | None => (true, set_disks w (<[d := mkDisk (disk_data (disk_at w d)) (disk_data (disk_at w d))]>
                                  (w_disks w)))
  end.

(** [File::set_len]; lengths are at most [i64::MAX]. *)
Definition I64_MAX : Z := 2 ^ 63 - 1.
Definition io_result (ok : bool) : result unit := if ok then Ok tt else Err (IoError OtherIo).

Definition set_len (d : nat) (len : Z) (w : World) : result unit * World :=
  if I64_MAX <? len then (Err (IoError OtherIo), w) else
  let '(fault, w) := next_fault w in
  match fault with
  | Some _ => (Err (IoError OtherIo), w)
  | None =>
      let len := Z.to_nat len in
      let data := disk_data (disk_at w d) in
      (Ok tt, set_disks w (<[d := mkDisk (take len (data ++ replicate (len - length data) 0)) (disk_synced (disk_at w d))]>
                             (w_disks w)))
  end.

(** ** Synchronous device *)

Record SyncIoChannel := mkSyncCh {
  sync_file : nat;
  sync_writable : bool;
  sync_finished : list (nat * bool);
}.

Definition sync_finish (c : SyncIoChannel) (id : nat) (ok : bool) : SyncIoChannel :=
  mkSyncCh (sync_file c) (sync_writable c) (sync_finished c ++ [(id, ok)]).

Definition byte_offset (so : Z) : nat := Z.to_nat (wrap64 (so * Z.of_nat SECTOR_SIZE)).

Definition sync_add_read (so n : Z) (b id : nat) (c : SyncIoChannel) (w : World)
  : outcome (SyncIoChannel * World) :=
  let len := (Z.to_nat n * SECTOR_SIZE)%nat in
  let buf := read_buf w b in
  dst ← slice buf 0 len;
  let '(ok, filled, w) := read_exact_at (sync_file c) (byte_offset so) dst w in
  Done (sync_finish c id ok, write_buf w b (filled ++ drop len buf)).

Definition sync_add_write (so n : Z) (b id : nat) (c : SyncIoChannel) (w : World)
  : outcome (SyncIoChannel * World) :=
  let len := (Z.to_nat n * SECTOR_SIZE)%nat in
  src ← slice (read_buf w b) 0 len;
  let '(ok, w) := write_all_at (sync_file c) (sync_writable c) (byte_offset so) src w in
  Done (sync_finish c id ok, w).

Definition sync_add_flush (id : nat) (c : SyncIoChannel) (w : World)
  : outcome (SyncIoChannel * World) :=
  let '(ok, w) := sync_all (sync_file c) w in
  Done (sync_finish c id ok, w).

#[global] Instance sync_channel : IoChannel SyncIoChannel := {
  add_read := sync_add_read;
  add_write := sync_add_write;
  add_flush := sync_add_flush;
  submit c w := Done (Ok tt, c, w);
  poll c w := Done (sync_finished c, mkSyncCh (sync_file c) (sync_writable c) [], w);
  busy c := negb (bool_decide (sync_finished c = []));
}.

Record SyncBlockDevice := mkSyncDev {
  sync_path : nat;
  sync_sector_count : Z;
  sync_readonly : bool;
}.

(** [SyncBlockDevice::new]: the size of the file must be whole sectors. *)
Definition sync_new (path : nat) (readonly : bool) (w : World) : result SyncBlockDevice :=
  match w_disks w !! path with
  | None => Err (IoError OtherIo)
  | Some d =>
      let size := Z.of_nat (length (disk_data d)) in
      if negb (size mod Z.of_nat SECTOR_SIZE =? 0) then Err InvalidParameter
      else Ok (mkSyncDev path (size / Z.of_nat SECTOR_SIZE) readonly)
  end.

#[global] Instance sync_device : BlockDevice SyncBlockDevice SyncIoChannel := {
  create_channel d w :=
    match w_disks w !! sync_path d with
    | None => Err (IoError OtherIo)
    | Some _ => Ok (mkSyncCh (sync_path d) (negb (sync_readonly d)) [])
    end;
  sector_count d := sync_sector_count d;
}.

(** ** Metadata on a device (save.rs, load.rs) *)

Definition METADATA_WRITE_ID : nat := 0.
Definition METADATA_FLUSH_ID : nat := 1.
Definition DEFAULT_STRIPE_SECTOR_COUNT_SHIFT : Z := 11.

Section metadata_io.
Context (crc32 : list Z -> Z) {D C : Type} `{IoChannel C} `{BlockDevice D C}.

(** [rounds] bounds the polls of each 30-second wait. *)
Definition save_to_bdev (rounds : nat) (m : UbiMetadata) (d : D) (w : World)
  : outcome (result unit * World) :=
  match create_channel d w with
  | Err e => Done (Err e, w)
  | Ok ch =>
    if U32_MAX <? sector_count d then Done (Err InvalidParameter, w) else
    match checked_mul64 (sector_count d) (Z.of_nat SECTOR_SIZE) with
    | None => Done (Err InvalidParameter, w)
    | Some total =>
      let total_size := Z.to_nat total in
      if bool_decide (total_size < metadata_size m)%nat then Done (Err InvalidParameter, w) else
      let '(b, w) := shared_buffer total_size w in
      front ← slice (read_buf w b) 0 (metadata_size m);
      r ← write_to_buf crc32 m front;
      match r with
      | Err e => Done (Err e, w)
      | Ok front' =>
        let w := write_buf w b (front' ++ drop (metadata_size m) (read_buf w b)) in
        '(ch, w) ← add_write 0 (sector_count d) b METADATA_WRITE_ID ch w;
        '(r, ch, w) ← submit ch w;
        match r with Err e => Done (Err e, w) | Ok _ =>
          '(r, ch, w) ← wait_for_completion rounds METADATA_WRITE_ID ch w;
          match r with Err e => Done (Err e, w) | Ok _ =>
            '(ch, w) ← add_flush METADATA_FLUSH_ID ch w;
            '(r, ch, w) ← submit ch w;
            match r with Err e => Done (Err e, w) | Ok _ =>
              '(r, ch, w) ← wait_for_completion rounds METADATA_FLUSH_ID ch w;
              Done (r, w)
            end
          end
        end
      end
    end
  end.

Definition load_from_bdev (rounds : nat) (d : D) (w : World)
  : outcome (result UbiMetadata * World) :=
  match create_channel d w with
  | Err e => Done (Err e, w)
  | Ok ch =>
    let '(b, w) := shared_buffer (Z.to_nat (sector_count d) * SECTOR_SIZE) w in
    if U32_MAX <? sector_count d then Done (Err InvalidParameter, w) else
    '(ch, w) ← add_read 0 (sector_count d) b 0 ch w;
    '(r, ch, w) ← submit ch w;
    match r with Err e => Done (Err e, w) | Ok _ =>
      '(r, ch, w) ← wait_for_completion rounds 0 ch w;
      match r with Err e => Done (Err e, w) | Ok _ =>
        r ← from_bytes crc32 (read_buf w b);
        Done (r, w)
      end
    end
  end.
End metadata_io.

(** ** The synchronous devices keep both promises *)

#[local] Obligation Tactic := idtac.

Lemma length_overlay dst src k :
  (length (take k src) <= length dst)%nat -> length (overlay dst src k) = length dst.
Proof. intros. unfold overlay. rewrite length_app, length_drop. lia. Qed.

Lemma file_write_nil data off : (off <= length data)%nat -> file_write data off [] = data.
Proof.
  intros. unfold file_write. replace (off - length data)%nat with 0%nat by lia.
  cbn. by rewrite app_nil_r, Nat.add_0_r, take_drop.
Qed.

Lemma overlay_all dst src k :
  length src = length dst -> k = length dst -> overlay dst src k = src.
Proof.
  intros H ->. unfold overlay. rewrite take_ge by lia. by rewrite drop_ge, app_nil_r by lia.
Qed.

Lemma file_write_splice data off bs :
  (off <= length data)%nat -> file_write data off bs = splice data off bs.
Proof.
  intros. unfold file_write, splice. replace (off - length data)%nat with 0%nat by lia.
  cbn. by rewrite app_nil_r.
Qed.

Lemma next_fault_frame w : frame w (next_fault w).2.
Proof. unfold next_fault. destruct (w_faults w); [done|apply set_faults_frame]. Qed.

Lemma read_exact_at_frame d off dst w ok filled w' :
  read_exact_at d off dst w = (ok, filled, w') ->
  frame w w' /\ length filled = length dst /\ w_bufs w' = w_bufs w.
Proof.
  unfold read_exact_at, next_fault. intros H.
  assert (forall k (l : list Z), (length (take k (take (length dst) l)) <= length dst)%nat) as Hl
    by (intros; rewrite !length_take; lia).
  destruct (w_faults w) as [|[n|] fs]; simplify_eq/=; rewrite length_overlay by apply Hl;
    split_and!; try done; apply set_faults_frame.
Qed.

Lemma write_all_at_frame d wr off bs w ok w' :
  write_all_at d wr off bs w = (ok, w') -> frame w w' /\ w_bufs w' = w_bufs w.
Proof.
  unfold write_all_at, next_fault. intros H.
  destruct (w_faults w) as [|[n|] fs], wr; simplify_eq/=; by split_and!.
Qed.

Lemma sync_all_frame d w ok w' :
  sync_all d w = (ok, w') -> frame w w' /\ w_bufs w' = w_bufs w.
Proof.
  unfold sync_all, next_fault. intros H.
  destruct (w_faults w) as [|[n|] fs]; simplify_eq/=; by split_and!.
Qed.

Lemma read_buf_bufs w w' b : w_bufs w' = w_bufs w -> read_buf w' b = read_buf w b.
Proof. intros E. unfold read_buf, buf_at. by rewrite E. Qed.

#[global] Program Instance null_safe : ChannelSafe NullIoChannel := {
  ch_inv c w := True;
}.
Next Obligation. done. Qed.
Next Obligation.
  intros so n b id c w _ [Hd Hl]. cbn. do 2 eexists; split_and!; [done| |done].
  apply write_buf_frame; [done|]. rewrite length_app, length_replicate, length_drop. lia.
Qed.
Next Obligation. intros. do 2 eexists; split_and!; done. Qed.
Next Obligation. intros. do 2 eexists; split_and!; done. Qed.
Next Obligation. intros. do 3 eexists; split_and!; done. Qed.
Next Obligation. intros. do 3 eexists; split_and!; done. Qed.

Lemma complete_success_out c id :
  (null_finished (complete_success c id)).*1 ≡ₚ id :: (null_finished c).*1.
Proof. cbn. rewrite fmap_app. cbn. by rewrite <- Permutation_cons_append. Qed.

#[global] Program Instance null_contract : ChannelContract NullIoChannel := {
  outstanding c := (null_finished c).*1;
}.
Next Obligation. unfold add_read, null_channel, null_add_read. intros; simplify_eq. apply complete_success_out. Qed.
Next Obligation. unfold add_write, null_channel, null_add_write. intros; simplify_eq. apply complete_success_out. Qed.
Next Obligation. unfold add_flush, null_channel. intros; simplify_eq. apply complete_success_out. Qed.
Next Obligation. cbn. intros; by simplify_eq/=. Qed.
Next Obligation. cbn. intros; simplify_eq/=. by rewrite app_nil_r. Qed.

Lemma sync_add_read_done so n b id c w :
  holds w b n ->
  exists ok filled w1,
    read_exact_at (sync_file c) (byte_offset so) (take (Z.to_nat n * SECTOR_SIZE) (read_buf w b)) w
      = (ok, filled, w1) /\
    sync_add_read so n b id c w =
      Done (sync_finish c id ok,
            write_buf w1 b (filled ++ drop (Z.to_nat n * SECTOR_SIZE) (read_buf w b))).
Proof.
  intros [_ Hl]. unfold sync_add_read. rewrite slice_done by lia. cbn [mbind outcome_bind].
  rewrite drop_0. destruct (read_exact_at _ _ _ _) as [[ok filled] w1] eqn:E. eauto.
Qed.

Lemma sync_add_write_done so n b id c w :
  holds w b n ->
  exists ok w1,
    write_all_at (sync_file c) (sync_writable c) (byte_offset so)
      (take (Z.to_nat n * SECTOR_SIZE) (read_buf w b)) w = (ok, w1) /\
    sync_add_write so n b id c w = Done (sync_finish c id ok, w1).
Proof.
  intros [_ Hl]. unfold sync_add_write. rewrite slice_done by lia. cbn [mbind outcome_bind].
  rewrite drop_0. destruct (write_all_at _ _ _ _ _) as [ok w1] eqn:E. eauto.
Qed.

#[global] Program Instance sync_safe : ChannelSafe SyncIoChannel := {
  ch_inv c w := True;
}.
Next Obligation. done. Qed.
Next Obligation.
  intros so n b id c w _ Hh. cbn [add_read sync_channel].
  destruct (sync_add_read_done so n b id c w Hh) as (ok & fl & w1 & E & ->).
  destruct (read_exact_at_frame _ _ _ _ _ _ _ E) as (Hf & Hl & Hb). destruct Hh as [Hd Hh].
  do 2 eexists; split_and!; [done| |done]. etransitivity; [apply Hf|].
  apply write_buf_frame; [by rewrite Hb|].
  rewrite (read_buf_bufs w w1 b Hb), length_app, length_drop, Hl, length_take. lia.
Qed.
Next Obligation.
  intros so n b id c w _ Hh. cbn [add_write sync_channel].
  destruct (sync_add_write_done so n b id c w Hh) as (ok & w1 & E & ->).
  destruct (write_all_at_frame _ _ _ _ _ _ _ E) as [Hf _]. eauto.
Qed.
Next Obligation.
  intros id c w _. cbn. unfold sync_add_flush. destruct (sync_all _ _) as [ok w1] eqn:E.
  destruct (sync_all_frame _ _ _ _ E) as [Hf _]. eauto.
Qed.
Next Obligation. intros. do 3 eexists; split_and!; done. Qed.
Next Obligation. intros. do 3 eexists; split_and!; done. Qed.

Lemma sync_finish_out c id ok :
  (sync_finished (sync_finish c id ok)).*1 ≡ₚ id :: (sync_finished c).*1.
Proof. cbn. rewrite fmap_app. cbn. by rewrite <- Permutation_cons_append. Qed.

#[global] Program Instance sync_contract : ChannelContract SyncIoChannel := {
  outstanding c := (sync_finished c).*1;
}.
Next Obligation.
  cbn. unfold sync_add_read. intros. destruct (slice _ _ _); [|done]. cbn [mbind outcome_bind] in *.
  destruct (read_exact_at _ _ _ _) as [[ok fl] w1]. simplify_eq. apply sync_finish_out.
Qed.
Next Obligation.
  cbn. unfold sync_add_write. intros. destruct (slice _ _ _); [|done]. cbn [mbind outcome_bind] in *.
  destruct (write_all_at _ _ _ _ _) as [ok w1]. simplify_eq. apply sync_finish_out.
Qed.
Next Obligation.
  cbn. unfold sync_add_flush. intros. destruct (sync_all _ _) as [ok w1]. simplify_eq.
  apply sync_finish_out.
Qed.
Next Obligation. cbn. intros; by simplify_eq/=. Qed.
Next Obligation. cbn. intros; simplify_eq/=. by rewrite app_nil_r. Qed.

(** ** Saving and loading metadata on a synchronous device *)

Lemma holds_alloc size id w n :
  (Z.to_nat n * SECTOR_SIZE <= size)%nat -> holds (alloc_buf size id w).2 (alloc_buf size id w).1 n.
Proof.
  intros. split; [cbn; rewrite dom_insert; set_solver|]. rewrite read_buf_alloc, length_replicate. lia.
Qed.

Lemma holds_frame w w' b n : frame w w' -> holds w b n -> holds w' b n.
Proof. intros (Hf & _) [Hd Hl]. destruct (Hf b Hd) as (? & _ & E). split; [done|]. by rewrite E. Qed.

(** On a safe channel a wait returns, whatever the channel reports. *)
Lemma wait_safe {C} `{ChannelSafe C} rounds id (c : C) w :
  ch_inv c w -> exists r c' w', wait_for_completion rounds id c w = Done (r, c', w') /\
    frame w w' /\ ch_inv c' w'.
Proof.
  revert c w. induction rounds as [|n IH]; intros c w Hc; cbn [wait_for_completion].
  { do 3 eexists; by split_and!. }
  destruct (poll_safe c w Hc) as (rs & c1 & w1 & -> & Hf & Hc1). cbn [mbind outcome_bind].
  destruct (scan_completions id rs) as [[]|]; [do 3 eexists; by split_and!..|].
  destruct (IH c1 w1 Hc1) as (r & c2 & w2 & -> & Hf2 & Hc2).
  do 3 eexists; split_and!; [done|by etransitivity|done].
Qed.

(** Devices whose channels start in a safe state. *)
Class DeviceSafe (D C : Type) `{ChannelSafe C} `{!BlockDevice D C} := {
  create_channel_safe (d : D) w c : create_channel d w = Ok c -> ch_inv c w;
}.
#[global] Program Instance sync_device_safe : DeviceSafe SyncBlockDevice SyncIoChannel := {}.
Next Obligation. done. Qed.
#[global] Program Instance null_device_safe : DeviceSafe NullBlockDevice NullIoChannel := {}.
Next Obligation. done. Qed.

(** A load leaves everything but buffers and files alone. *)
Lemma load_frame crc32 {D C} `{DeviceSafe D C} rounds (d : D) w r w' :
  fresh_world w -> load_from_bdev crc32 rounds d w = Done (r, w') -> frame w w'.
Proof.
  intros Hfr. unfold load_from_bdev. destruct (create_channel d w) as [ch|] eqn:Ec; [|intros; by simplify_eq].
  unfold shared_buffer. set (n := (Z.to_nat (sector_count d) * SECTOR_SIZE)%nat).
  pose proof (alloc_frame n 0 w Hfr) as Hf. pose proof (holds_alloc n 0 w (sector_count d) ltac:(lia)) as Hh.
  destruct (alloc_buf n 0 w) as [b wa]. cbn [fst snd] in *.
  destruct (U32_MAX <? sector_count d); [intros; by simplify_eq|].
  destruct (add_read_safe 0 (sector_count d) b 0 ch wa) as (c1 & w1 & -> & Hf1 & Hc1);
    [eapply ch_inv_stable; [by apply frame_stable|by eapply create_channel_safe]|done|].
  cbn [mbind outcome_bind]. destruct (submit_safe c1 w1 Hc1) as (r2 & c2 & w2 & -> & Hf2 & Hc2).
  assert (frame w w2) as Hw by (do 2 (etransitivity; [eassumption|]); done).
  cbn [mbind outcome_bind]. destruct r2; [|intros; by simplify_eq].
  destruct (wait_safe rounds 0 c2 w2 Hc2) as (r3 & c3 & w3 & -> & Hf3 & Hc3). cbn [mbind outcome_bind].
  assert (frame w w3) as Hw3 by (by etransitivity).
  destruct r3; [|intros; by simplify_eq].
  destruct (from_bytes crc32 (read_buf w3 b)); cbn [mbind outcome_bind]; intros; by simplify_eq.
Qed.

(** A synchronous channel reports a request at the first poll after it. *)
Lemma sync_wait rounds id ok c w :
  sync_finished c = [(id, ok)] ->
  wait_for_completion (S rounds) id c w =
  Done (if ok then Ok tt else Err (IoError OtherIo), mkSyncCh (sync_file c) (sync_writable c) [], w).
Proof.
  intros E. cbn. rewrite E. cbn. rewrite decide_True by done. by destruct ok.
Qed.

(** A read that fills its buffer, from a file without faults: it succeeds when
    the file reaches that far. *)
Lemma sync_read_file so n b id c w data sy (len := (Z.to_nat n * SECTOR_SIZE)%nat) :
  length (read_buf w b) = len -> w_faults w = [] -> w_disks w !! sync_file c = Some (mkDisk data sy) ->
  let src := take len (drop (byte_offset so) data) in
  sync_add_read so n b id c w =
    Done (sync_finish c id (bool_decide (length src = len)), write_buf w b (overlay (read_buf w b) src len)).
Proof.
  intros Hl Hf Hd src. unfold sync_add_read. fold len. rewrite slice_done by lia. cbn [mbind outcome_bind].
  rewrite drop_0, take_ge by lia. unfold read_exact_at, next_fault. rewrite Hf.
  unfold disk_at. rewrite Hd, Hl. cbn [default disk_data]. fold src.
  by rewrite (drop_ge (read_buf w b)), app_nil_r by lia.
Qed.

Lemma byte_offset_small so :
  0 <= so -> so * Z.of_nat SECTOR_SIZE < 2 ^ 64 -> byte_offset so = (Z.to_nat so * SECTOR_SIZE)%nat.
Proof. intros. unfold byte_offset, wrap64. rewrite Z.mod_small by lia. lia. Qed.

Lemma byte_offset_0 : byte_offset 0 = 0%nat.
Proof. reflexivity. Qed.

(** The device image after a successful save: the metadata image, zero-filled
    to the size of the device. *)
Definition saved_image (crc32 : list Z -> Z) (m : UbiMetadata) (n : nat) : list Z :=
  encode crc32 m ++ replicate (n * SECTOR_SIZE - metadata_size m) 0.

(** *** Devices that keep a file

    Reading and writing all [n] sectors of a device whose file [path] holds
    [enc] of what the device shows: the identity for a plain device, encryption
    for an encrypting one.  [rest] describes a channel without requests. *)

Section file_backed.
Context {D C : Type} `{IoChannel C} `{BlockDevice D C}.

(** Request [id] is reported at the first poll. *)
Definition settles (rest : C -> Prop) (id : nat) (ok : bool) (c : C) : Prop :=
  forall w, exists c1 c2, submit c w = Done (Ok tt, c1, w) /\ poll c1 w = Done ([(id, ok)], c2, w) /\ rest c2.

Lemma wait_first_poll rounds id ok (c c' : C) w w' : poll c w = Done ([(id, ok)], c', w') ->
  wait_for_completion (S rounds) id c w = Done (if ok then Ok tt else Err (IoError OtherIo), c', w').
Proof.
  intros E. cbn [wait_for_completion]. rewrite E. cbn [mbind outcome_bind scan_completions].
  rewrite decide_True by done. by destruct ok.
Qed.

Record file_backed (d : D) (rest : C -> Prop) (enc : list Z -> list Z) (path n : nat) : Prop := {
  fb_sectors : sector_count d = Z.of_nat n;
  fb_length x : length x = (n * SECTOR_SIZE)%nat -> length (enc x) = length x;
  fb_open w : is_Some (w_disks w !! path) -> exists c, create_channel d w = Ok c /\ rest c;
  fb_write c b id w : rest c -> length (read_buf w b) = (n * SECTOR_SIZE)%nat ->
    exists w1, w_disks w1 = w_disks w /\ w_faults w1 = w_faults w /\
      let '(ok, w2) := write_all_at path true 0 (enc (read_buf w b)) w1 in
      exists c', add_write 0 (Z.of_nat n) b id c w = Done (c', w2) /\ settles rest id ok c';
  fb_flush c id w : rest c ->
    let '(ok, w') := sync_all path w in exists c', add_flush id c w = Done (c', w') /\ settles rest id ok c';
  fb_read c b id plain w : rest c -> w_faults w = [] -> length (read_buf w b) = (n * SECTOR_SIZE)%nat ->
    length plain = (n * SECTOR_SIZE)%nat -> disk_data (disk_at w path) = enc plain ->
    exists c1 w1 c2 c3 w2, add_read 0 (Z.of_nat n) b id c w = Done (c1, w1) /\ submit c1 w1 = Done (Ok tt, c2, w1) /\
      poll c2 w1 = Done ([(id, true)], c3, w2) /\
      w_disks w2 = w_disks w /\ w_faults w2 = [] /\ read_buf w2 b = plain;
}.
End file_backed.

Lemma sync_file_backed path n : file_backed (mkSyncDev path (Z.of_nat n) false)
  (fun c => c = mkSyncCh path true []) id path n.
Proof.
  assert (forall id ok, settles (fun c => c = mkSyncCh path true []) id ok (sync_finish (mkSyncCh path true []) id ok)) as Hs.
  { intros id ok w. do 2 eexists. by split_and!. }
  split.
  - done.
  - done.
  - intros w [d Hd]. cbn. rewrite Hd. by eexists.
  - intros c b id w -> Hl. exists w. split_and!; [done..|]. cbn [add_write sync_channel]. unfold sync_add_write.
    rewrite Nat2Z.id, slice_done, drop_0, take_ge, byte_offset_0 by lia. cbn [mbind outcome_bind sync_file sync_writable].
    change (Datatypes.id (read_buf w b)) with (read_buf w b). destruct (write_all_at path true 0 (read_buf w b) w) as [ok w2]. eexists. split; [done|apply Hs].
  - intros c id w ->. destruct (sync_all path w) as [ok w'] eqn:E. cbn [add_flush sync_channel]. unfold sync_add_flush.
    cbn [sync_file]. rewrite E. eexists. split; [done|apply Hs].
  - intros c b id plain w -> Hf Hl Hp Hd. change (Datatypes.id plain) with plain in Hd.
    cbn [add_read submit sync_channel]. unfold sync_add_read. rewrite Nat2Z.id, slice_done by lia.
    rewrite drop_0, take_ge, drop_ge by lia. cbn [mbind outcome_bind]. unfold read_exact_at, next_fault.
    cbn [sync_file]. rewrite Hf, byte_offset_0, drop_0, Hl, Hd, take_ge, bool_decide_true, app_nil_r by lia.
    do 5 eexists. split_and!; [done..|].
    rewrite read_write_buf_eq, overlay_all by lia. by rewrite ?app_nil_r.
Qed.

Section save_load.
Context {D C : Type} `{IoChannel C} `{BlockDevice D C}.
Context (crc32 : list Z -> Z) (m : UbiMetadata) (d : D) (rest : C -> Prop) (enc : list Z -> list Z) (path n : nat).
Context (Hfb : file_backed d rest enc path n).
Context (Hwf : metadata_wf m) (Hfit : (metadata_size m <= n * SECTOR_SIZE)%nat).
Context (Hn : Z.of_nat n <= U32_MAX).
Notation image := (saved_image crc32 m n).

Lemma length_saved_image : length image = (n * SECTOR_SIZE)%nat.
Proof using Hwf Hfit.
  clear Hfb. unfold saved_image. rewrite length_app, length_replicate, length_encode by done. lia.
Qed.

Lemma checked_mul_sectors :
  checked_mul64 (Z.of_nat n) (Z.of_nat SECTOR_SIZE) = Some (Z.of_nat n * Z.of_nat SECTOR_SIZE).
Proof using Hn.
  clear - Hn. unfold checked_mul64. case_match eqn:E; [done|]. apply Z.leb_gt in E.
  unfold U32_MAX, U64_MAX in *. change (Z.of_nat SECTOR_SIZE) with 512 in *. lia.
Qed.

(** [save_to_bdev] reduced to its two file operations. *)
Lemma save_resolved rounds w :
  is_Some (w_disks w !! path) ->
  exists w1, w_disks w1 = w_disks w /\ w_faults w1 = w_faults w /\
    save_to_bdev crc32 (S rounds) m d w =
    let '(ok, w2) := write_all_at path true 0 (enc image) w1 in
    if ok then let '(ok', w3) := sync_all path w2 in
               Done (if ok' then Ok tt else Err (IoError OtherIo), w3)
    else Done (Err (IoError OtherIo), w2).
Proof using Hfb Hwf Hfit Hn.
  intros Hd. pose proof length_saved_image as Hsl. destruct (fb_open _ _ _ _ _ Hfb w Hd) as (c & Ec & Hc).
  unfold save_to_bdev. rewrite Ec, (fb_sectors _ _ _ _ _ Hfb).
  destruct (Z.ltb_spec U32_MAX (Z.of_nat n)); [lia|]. rewrite checked_mul_sectors.
  replace (Z.to_nat (Z.of_nat n * Z.of_nat SECTOR_SIZE)) with (n * SECTOR_SIZE)%nat by lia.
  rewrite bool_decide_false by lia. unfold shared_buffer.
  pose proof (read_buf_alloc (n * SECTOR_SIZE) 0 w) as Hrb.
  destruct (alloc_buf (n * SECTOR_SIZE) 0 w) as [b wa] eqn:Ea. cbn [fst snd] in Hrb. rewrite Hrb.
  assert (w_disks wa = w_disks w /\ w_faults wa = w_faults w) as [Ed Ef]
    by (unfold alloc_buf in Ea; by simplify_eq/=).
  rewrite slice_done by (rewrite length_replicate; lia). cbn [mbind outcome_bind].
  rewrite drop_0, take_replicate, Nat.min_l by lia.
  rewrite write_to_buf_encode by (try done; rewrite length_replicate; lia).
  cbn [mbind outcome_bind].
  rewrite (drop_ge (replicate (metadata_size m) 0)), app_nil_r by (rewrite length_replicate; lia).
  rewrite drop_replicate. fold image. set (wb := write_buf wa b image).
  assert (read_buf wb b = image) as Hr by apply read_write_buf_eq.
  destruct (fb_write _ _ _ _ _ Hfb c b METADATA_WRITE_ID wb Hc) as (w1 & Hd1 & Hf1 & Hw); [by rewrite Hr|].
  exists w1. rewrite Hr in Hw. split_and!; [by rewrite Hd1|by rewrite Hf1|].
  destruct (write_all_at path true 0 (enc image) w1) as [ok w2]. destruct Hw as (c' & Ew & Hs). rewrite Ew.
  destruct (Hs w2) as (c1 & c2 & E1 & E2%(wait_first_poll rounds) & Hc2). cbn [mbind outcome_bind]. rewrite E1. cbn [mbind outcome_bind].
  rewrite E2. cbn [mbind outcome_bind]. destruct ok; [|done].
  pose proof (fb_flush _ _ _ _ _ Hfb c2 METADATA_FLUSH_ID w2 Hc2) as Hfl.
  destruct (sync_all path w2) as [ok' w3]. destruct Hfl as (c3 & Efl & Hs'). rewrite Efl. cbn [mbind outcome_bind].
  destruct (Hs' w3) as (c4 & c5 & E4 & E5%(wait_first_poll rounds) & _). rewrite E4. cbn [mbind outcome_bind]. by rewrite E5.
Qed.

Lemma load_resolved rounds w :
  is_Some (w_disks w !! path) -> w_faults w = [] -> disk_data (disk_at w path) = enc image ->
  exists w', load_from_bdev crc32 (S rounds) d w = Done (Ok m, w') /\
    w_disks w' = w_disks w /\ w_faults w' = [].
Proof using Hfb Hwf Hfit Hn.
  intros Hd Hf Hdata. pose proof length_saved_image as Hsl. destruct (fb_open _ _ _ _ _ Hfb w Hd) as (c & Ec & Hc).
  unfold load_from_bdev. rewrite Ec, (fb_sectors _ _ _ _ _ Hfb), Nat2Z.id. unfold shared_buffer.
  pose proof (read_buf_alloc (n * SECTOR_SIZE) 0 w) as Hrb.
  destruct (alloc_buf (n * SECTOR_SIZE) 0 w) as [b wa] eqn:Ea. cbn [fst snd] in Hrb.
  assert (w_disks wa = w_disks w /\ w_faults wa = []) as [Ed Efl]
    by (unfold alloc_buf in Ea; by simplify_eq/=).
  destruct (Z.ltb_spec U32_MAX (Z.of_nat n)); [lia|].
  destruct (fb_read _ _ _ _ _ Hfb c b 0 image wa Hc Efl) as (c1 & w1 & c2 & c3 & w2 & E1 & E2 & E3%(wait_first_poll rounds) & Hd2 & Hf2 & Hb);
    [by rewrite Hrb, length_replicate|done|unfold disk_at in *; by rewrite Ed|].
  rewrite E1. cbn [mbind outcome_bind]. rewrite E2. cbn [mbind outcome_bind]. rewrite E3. cbn [mbind outcome_bind]. rewrite Hb.
  unfold saved_image. rewrite from_bytes_encode; [|done|].
  { eexists. split_and!; [done|by rewrite Hd2|done]. }
  rewrite length_replicate. unfold metadata_size in *. set (k := stripe_header_sector_count m) in *.
  replace (n * SECTOR_SIZE - (SECTOR_SIZE + k * SECTOR_SIZE))%nat with ((n - 1 - k) * SECTOR_SIZE)%nat
    by (rewrite !Nat.mul_sub_distr_r; lia).
  apply Nat.Div0.mod_mul.
Qed.

(** Saving returns on every sequence of faults, and what it saved can be loaded. *)
Lemma save_then_load rounds w :
  is_Some (w_disks w !! path) -> length (disk_data (disk_at w path)) = (n * SECTOR_SIZE)%nat ->
  exists r w', save_to_bdev crc32 (S rounds) m d w = Done (r, w') /\
    (w_faults w = [] -> r = Ok tt /\ w_faults w' = []) /\
    (forall p, p <> path -> w_disks w' !! p = w_disks w !! p) /\
    is_Some (w_disks w' !! path) /\
    (r = Ok tt ->
     disk_synced (disk_at w' path) = enc image /\ disk_data (disk_at w' path) = enc image).
Proof using Hfb Hwf Hfit Hn.
  intros Hd Hlen. destruct (save_resolved rounds w Hd) as (w1 & Hd1 & Hf1 & ->).
  pose proof length_saved_image as Hsl. pose proof (fb_length _ _ _ _ _ Hfb image Hsl) as Hel.
  assert (file_write (disk_data (disk_at w path)) 0 (enc image) = enc image) as Hfw.
  { unfold file_write. rewrite take_0, drop_ge, app_nil_r by lia. done. }
  unfold write_all_at, sync_all, next_fault. rewrite Hf1.
  destruct (w_faults w) as [|[k|] [|[k'|] fs]] eqn:Ef; cbn [negb w_faults set_disks set_faults]; rewrite ?Hf1; do 2 eexists;
    (split; [reflexivity|]); unfold disk_at in *; cbn [w_disks w_faults set_disks set_faults]; rewrite ?lookup_insert_eq;
    cbn [default disk_data disk_synced id];
    (split_and!; [try done; by rewrite ?Hf1|intros p Hp; by rewrite ?lookup_insert_ne, ?Hd1 by done|by eexists|]); try done;
    intros _; rewrite ?Hd1, ?Hfw; done.
Qed.
End save_load.

(** Saving metadata to a synchronous device returns on every sequence of
    file faults; when it reports success the stable contents of the device are
    exactly the metadata image followed by zeros, and a fault-free load gives
    back the same metadata; without faults it does report success. *)
Lemma save_load_roundtrip crc32 m path n rounds w d0 :
  metadata_wf m -> (metadata_size m <= n * SECTOR_SIZE)%nat -> Z.of_nat n <= U32_MAX ->
  w_disks w !! path = Some d0 -> length (disk_data d0) = (n * SECTOR_SIZE)%nat ->
  let dev := mkSyncDev path (Z.of_nat n) false in
  exists r w', save_to_bdev crc32 (S rounds) m dev w = Done (r, w') /\
    (w_faults w = [] -> r = Ok tt) /\
    (r = Ok tt ->
     disk_synced (disk_at w' path) = saved_image crc32 m n /\
     disk_data (disk_at w' path) = saved_image crc32 m n /\
     exists w'', load_from_bdev crc32 (S rounds) dev (set_faults w' []) = Done (Ok m, w'')).
Proof.
  intros Hwf Hfit Hn Hd Hlen dev. pose proof (sync_file_backed path n) as Hfb.
  destruct (save_then_load crc32 m dev _ _ path n Hfb Hwf Hfit Hn rounds w) as (r & w' & E & Hr & _ & Hs & Hi);
    [by eexists|unfold disk_at; by rewrite Hd|].
  exists r, w'. split_and!; [done|by intros [? _]%Hr|]. intros Hok. destruct (Hi Hok) as [Hi1 Hi2]. split_and!; [done..|].
  destruct (load_resolved crc32 m dev _ _ path n Hfb Hwf Hfit Hn rounds (set_faults w' [])) as (w'' & E' & _);
    [done..|by eexists].
Qed.

(** A world with one 1536-byte file, used by the witnesses. *)
Definition one_disk_world : World :=
  mkWorld ∅ 0 {[ 7%nat := mkDisk (replicate 1536 9) [] ]} [] (new_shared (new_metadata 11 3 2)) [] true.

Lemma save_load_roundtrip_witness :
  exists r w', save_to_bdev crc32_ieee 1 (new_metadata 11 3 2) (mkSyncDev 7 3 false) one_disk_world
      = Done (r, w') /\
    (w_faults one_disk_world = [] -> r = Ok tt) /\
    (r = Ok tt ->
     disk_synced (disk_at w' 7) = saved_image crc32_ieee (new_metadata 11 3 2) 3 /\
     disk_data (disk_at w' 7) = saved_image crc32_ieee (new_metadata 11 3 2) 3 /\
     exists w'', load_from_bdev crc32_ieee 1 (mkSyncDev 7 3 false) (set_faults w' [])
       = Done (Ok (new_metadata 11 3 2), w'')).
Proof.
  apply (save_load_roundtrip crc32_ieee (new_metadata 11 3 2) 7 3 0 one_disk_world
    (mkDisk (replicate 1536 9) [])).
  - apply new_metadata_wf; unfold MAX_STRIPE_SECTOR_COUNT_SHIFT, U32_MAX; lia.
  - apply Nat.leb_le. reflexivity.
  - unfold U32_MAX; lia.
  - reflexivity.
  - reflexivity.
Defined.
