(* ===== verification/Flusher.v ===== *)
(** * Flusher: durable updates of the stripe headers (MetadataFlusher)

    Models src/src/block_device/bdev_lazy/metadata_flusher.rs for an arbitrary
    channel [C] to the metadata device.  A queued request sets one bit of one
    stripe header: the sector of that header is rewritten, then flushed, and
    only then does the shared state show the bit.

    The invariant [flusher_inv] states that at most one update per metadata
    sector is under way, that the buffers handed out by the pool are exactly
    those of updates still being written, and that the shared state and the
    in-memory headers agree on which stripes have source data.  It holds for
    every channel that keeps [ChannelSafe], whatever completions the channel
    reports (unknown, duplicated or failed ones included), and no operation
    panics under it. *)
From S2P Require Import Prelude Metadata SharedState World Device.

Definition MAX_CONCURRENT_CHANGES : nat := 16.

Inductive MetadataFlusherRequestKind := ReqSetFetched | ReqSetWritten.

Record MetadataFlusherRequest := mkReq {
  req_stripe_id : nat;
  req_kind : MetadataFlusherRequestKind;
}.

Inductive RequestStage := Writing | Flushing.
#[global] Instance RequestStage_eq_dec : EqDecision RequestStage.
Proof. solve_decision. Defined.

Record HeaderUpdateStatus := mkStatus {
  hu_buffer : nat;
  hu_stage : RequestStage;
  hu_stripe_id : nat;
  hu_header : Z;
  hu_requested_bitmask : Z;
  hu_sector : Z;
}.

(** The shared state itself is [w_shared] of the world. *)
Record MetadataFlusher (C : Type) := mkFlusher {
  mf_channel : C;
  mf_metadata : UbiMetadata;
  sectors_being_updated : gset Z;
  header_updates : gmap nat HeaderUpdateStatus;
  queued_requests : list MetadataFlusherRequest;
  mf_pool : AlignedBufferPool;
}.
Arguments mkFlusher {C}.
Arguments mf_channel {C}.
Arguments mf_metadata {C}.
Arguments sectors_being_updated {C}.
Arguments header_updates {C}.
Arguments queued_requests {C}.
Arguments mf_pool {C}.

Section flusher.
Context (crc32 : list Z -> Z) {C : Type} `{IoChannel C}.
Implicit Types (f : MetadataFlusher C) (w : World).

(** [MetadataFlusher::new]; [rounds] bounds the wait of the metadata load. *)
Definition flusher_new {D} `{BlockDevice D C} (rounds : nat) (metadata_dev : D)
    (source_sector_count : Z) (w : World) : outcome (result (MetadataFlusher C) * World) :=
  match create_channel metadata_dev w with
  | Err e => Done (Err e, w)
  | Ok ch =>
    '(r, w) ← load_from_bdev crc32 rounds metadata_dev w;
    match r with
    | Err e => Done (Err e, w)
    | Ok m =>
      if stripe_count m <? div_ceil source_sector_count (stripe_sector_count m)
      then Done (Err InvalidParameter, w) else
      '(pool, w) ← new_pool 4096 MAX_CONCURRENT_CHANGES SECTOR_SIZE w;
      Done (Ok (mkFlusher ch m ∅ ∅ [] pool), w)
    end
  end.

Definition flusher_busy f : bool :=
  negb (bool_decide (sectors_being_updated f = ∅)) || negb (bool_decide (queued_requests f = [])).

Definition enqueue (r : MetadataFlusherRequest) f : MetadataFlusher C :=
  mkFlusher (mf_channel f) (mf_metadata f) (sectors_being_updated f) (header_updates f)
    (queued_requests f ++ [r]) (mf_pool f).

Definition set_stripe_fetched (stripe_id : nat) f := enqueue (mkReq stripe_id ReqSetFetched) f.
Definition set_stripe_written (stripe_id : nat) f := enqueue (mkReq stripe_id ReqSetWritten) f.

(** [stripe_headers[i] &= !mask]. *)
Definition clear_header (m : UbiMetadata) (i : nat) (mask : Z) : outcome UbiMetadata :=
  h ← index (stripe_headers m) i;
  hs ← set_index (stripe_headers m) i (Z.land h (u8_not mask));
  Done (with_headers m hs).

(** One iteration of [cleanup_failed_submission]. *)
Definition cleanup_one (give_back : bool) (stripe_id : nat) (s : MetadataFlusher C * World)
  : outcome (MetadataFlusher C * World) :=
  let '(f, w) := s in
  match header_updates f !! stripe_id with
  | None => Done (f, w)
  | Some st =>
      m ← clear_header (mf_metadata f) (hu_stripe_id st) (hu_requested_bitmask st);
      pool ← (if give_back then return_buffer (mf_pool f) (hu_buffer st) w else Done (mf_pool f));
      Done (mkFlusher (mf_channel f) m (sectors_being_updated f ∖ {[hu_sector st]})
              (delete stripe_id (header_updates f)) (queued_requests f) pool, w)
  end.

Definition cleanup_failed_submission (stripe_ids : list nat) (give_back : bool) f w :=
  for_each (cleanup_one give_back) stripe_ids (f, w).

(** State of the completion loop of [poll_channel]: the flusher, the world,
    [finished_stripes] and [newly_flushing]. *)
Definition poll_state : Type := MetadataFlusher C * World * list (nat * Z) * list nat.

Definition on_completion (e : nat * bool) (s : poll_state) : outcome poll_state :=
  let '(stripe_id, success) := e in
  let '(f, w, finished, newly) := s in
  match header_updates f !! stripe_id with
  | None => Done s
  | Some st =>
      if negb success then
        m ← clear_header (mf_metadata f) (hu_stripe_id st) (hu_requested_bitmask st);
        pool ← (if decide (hu_stage st = Writing) then return_buffer (mf_pool f) (hu_buffer st) w
                else Done (mf_pool f));
        Done (mkFlusher (mf_channel f) m (sectors_being_updated f ∖ {[hu_sector st]})
                (delete stripe_id (header_updates f)) (queued_requests f) pool, w, finished, newly)
      else
        match hu_stage st with
        | Writing =>
            pool ← return_buffer (mf_pool f) (hu_buffer st) w;
            '(ch, w) ← add_flush stripe_id (mf_channel f) w;
            let st' := mkStatus (hu_buffer st) Flushing (hu_stripe_id st) (hu_header st)
                         (hu_requested_bitmask st) (hu_sector st) in
            Done (mkFlusher ch (mf_metadata f) (sectors_being_updated f)
                    (<[stripe_id := st']> (header_updates f)) (queued_requests f) pool,
                  w, finished, newly ++ [stripe_id])
        | Flushing =>
            Done (mkFlusher (mf_channel f) (mf_metadata f)
                    (sectors_being_updated f ∖ {[hu_sector st]})
                    (header_updates f) (queued_requests f) (mf_pool f),
                  w, finished ++ [(hu_stripe_id st, hu_header st)], newly)
        end
  end.

(** The loop over [finished_stripes]. *)
Definition finish_one (e : nat * Z) (s : MetadataFlusher C * World)
  : outcome (MetadataFlusher C * World) :=
  let '(stripe, header) := e in
  let '(f, w) := s in
  sh ← set_stripe_header (w_shared w) stripe header;
  Done (mkFlusher (mf_channel f) (mf_metadata f) (sectors_being_updated f)
          (delete stripe (header_updates f)) (queued_requests f) (mf_pool f), set_shared w sh).

Definition with_channel (ch : C) f : MetadataFlusher C :=
  mkFlusher ch (mf_metadata f) (sectors_being_updated f) (header_updates f)
    (queued_requests f) (mf_pool f).

Definition poll_channel f w : outcome (MetadataFlusher C * World) :=
  '(rs, ch, w) ← poll (mf_channel f) w;
  '(f, w, finished, newly) ← for_each on_completion rs (with_channel ch f, w, [], []);
  '(f, w) ← for_each finish_one finished (f, w);
  if bool_decide (newly = []) then Done (f, w) else
  '(r, ch, w) ← submit (mf_channel f) w;
  let f := with_channel ch f in
  match r with
  | Err _ => cleanup_failed_submission newly false f w
  | Ok _ => Done (f, w)
  end.

Definition kind_mask (k : MetadataFlusherRequestKind) : Z :=
  match k with ReqSetFetched => FETCHED | ReqSetWritten => WRITTEN end.

(** Start the update of one header: reserve a buffer, set the bit, serialize
    the header's sector and hand it to the channel. *)
Definition start_one (req : MetadataFlusherRequest) (rest : list MetadataFlusherRequest) f w
  : outcome (MetadataFlusher C * World) :=
  let id := req_stripe_id req in
  let group := stripe_id_to_group id in
  let sector := stripe_id_to_sector id in
  let mask := kind_mask (req_kind req) in
  let hs := stripe_headers (mf_metadata f) in
  h ← index hs id;
  '(mb, pool) ← get_buffer (mf_pool f);
  match mb with
  | None => Panic UnwrapNone
  | Some b =>
      hs ← set_index hs id (Z.lor h mask);
      let headers_start := (group * STRIPE_HEADERS_PER_SECTOR)%nat in
      let headers_end := ((headers_start + STRIPE_HEADERS_PER_SECTOR) `min` length hs)%nat in
      headers ← slice hs headers_start (headers_end - headers_start);
      data ← write_sector_with_crc32 crc32 (read_buf w b) headers;
      let w := write_buf w b data in
      '(ch, w) ← add_write sector 1 b id (mf_channel f) w;
      Done (mkFlusher ch (with_headers (mf_metadata f) hs)
              ({[sector]} ∪ sectors_being_updated f)
              (<[id := mkStatus b Writing id (Z.lor h mask) mask sector]> (header_updates f))
              rest pool, w)
  end.

(** The [while] loop of [start_writes]; every iteration that does not stop
    takes one request off the queue, so the length of the queue bounds it. *)
Fixpoint start_writes_loop (fuel : nat) f w (newly : list nat)
  : outcome (MetadataFlusher C * World * list nat) :=
  if negb (has_available (mf_pool f)) then Done (f, w, newly) else
  match queued_requests f with
  | [] => Done (f, w, newly)
  | req :: rest =>
      match fuel with
      | O => Panic OutOfFuel
      | S fuel' =>
          if bool_decide (stripe_id_to_sector (req_stripe_id req) ∈ sectors_being_updated f)
          then Done (f, w, newly) else
          h ← index (stripe_headers (mf_metadata f)) (req_stripe_id req);
          if has_flag h (kind_mask (req_kind req)) then
            start_writes_loop fuel'
              (mkFlusher (mf_channel f) (mf_metadata f) (sectors_being_updated f)
                 (header_updates f) rest (mf_pool f)) w newly
          else
            '(f, w) ← start_one req rest f w;
            start_writes_loop fuel' f w (newly ++ [req_stripe_id req])
      end
  end.

Definition start_writes f w : outcome (MetadataFlusher C * World) :=
  '(f, w, newly) ← start_writes_loop (length (queued_requests f)) f w [];
  if bool_decide (newly = []) then Done (f, w) else
  '(r, ch, w) ← submit (mf_channel f) w;
  let f := with_channel ch f in
  match r with
  | Err _ => cleanup_failed_submission newly true f w
  | Ok _ => Done (f, w)
  end.

(** [MetadataFlusher::update]. *)
Definition flusher_update f w : outcome (MetadataFlusher C * World) :=
  '(f, w) ← start_writes f w; poll_channel f w.
End flusher.

(** ** Flags of a header *)

Lemma has_flag_lor h a f : has_flag (Z.lor h a) f = has_flag h f || has_flag a f.
Proof.
  unfold has_flag. rewrite Z.land_lor_distr_l. rewrite <- negb_andb. f_equal.
  apply eq_true_iff_eq. rewrite andb_true_iff, !Z.eqb_eq. apply Z.lor_eq_0_iff.
Qed.

(** [header & !FLAG] clears exactly that flag. *)
Lemma has_flag_clear h k k' :
  has_flag (Z.land h (u8_not (kind_mask k))) (kind_mask k')
  = has_flag h (kind_mask k') && negb (has_flag (kind_mask k) (kind_mask k')).
Proof.
  unfold has_flag.
  destruct k, k'; cbn [kind_mask]; change FETCHED with (2 ^ 0); change WRITTEN with (2 ^ 1);
    rewrite !land_pow2_ne0 by lia; rewrite !negb_involutive, testbit_clear_pow2 by lia; reflexivity.
Qed.

Lemma flag_of_mask k k' : has_flag (kind_mask k) (kind_mask k') = true <-> k = k'.
Proof. destruct k, k'; vm_compute; split; congruence. Qed.

(** ** Invariant *)

Section flusher_proofs.
Context (crc32 : list Z -> Z) {C : Type} `{ChannelSafe C}.
Implicit Types (f : MetadataFlusher C) (w : World) (fin : list (nat * Z)).
Notation headers f := (stripe_headers (mf_metadata f)).

(** The fetched bit only goes with stripes that have source data. *)
Definition src_ok (w : World) (k : nat) (h : Z) : Prop :=
  has_flag h FETCHED = true -> stripe_fetch_states (w_shared w) !! k <> Some NoSource.

Record entry_ok f w (k : nat) (st : HeaderUpdateStatus) : Prop := {
  eo_id : hu_stripe_id st = k;
  eo_sector : hu_sector st = stripe_id_to_sector k;
  eo_lt : (k < length (headers f))%nat;
  eo_mask : exists kd, hu_requested_bitmask st = kind_mask kd;
  eo_src : src_ok w k (hu_header st);
  eo_buf : hu_stage st = Writing -> handed_out (mf_pool f) (hu_buffer st);
}.

Definition req_ok f w (r : MetadataFlusherRequest) : Prop :=
  (req_stripe_id r < length (headers f))%nat /\
  src_ok w (req_stripe_id r) (kind_mask (req_kind r)).

(** [fin] are the finished updates the completion loop has not yet published. *)
Record flusher_inv fin f w : Prop := {
  fi_pool : pool_wf (mf_pool f) w;
  fi_size : forall b, b ∈ pool_buffers (mf_pool f) -> length (read_buf w b) = SECTOR_SIZE;
  fi_ch : ch_inv (mf_channel f) w;
  fi_shared : shared_wf (w_shared w);
  fi_len : length (stripe_fetch_states (w_shared w)) = length (headers f);
  fi_headers : forall k h, headers f !! k = Some h -> src_ok w k h;
  fi_entry : forall k st, header_updates f !! k = Some st -> entry_ok f w k st;
  fi_sectors : forall s, s ∈ sectors_being_updated f <->
    exists k st, header_updates f !! k = Some st /\ hu_sector st = s /\ k ∉ fin.*1;
  fi_one : forall k k' st st', header_updates f !! k = Some st -> header_updates f !! k' = Some st' ->
    hu_sector st = hu_sector st' -> k = k';
  fi_bufs : forall k k' st st', header_updates f !! k = Some st -> header_updates f !! k' = Some st' ->
    hu_stage st = Writing -> hu_stage st' = Writing -> hu_buffer st = hu_buffer st' -> k = k';
  fi_handed : forall b, handed_out (mf_pool f) b ->
    exists k st, header_updates f !! k = Some st /\ hu_stage st = Writing /\ hu_buffer st = b;
  fi_queue : Forall (req_ok f w) (queued_requests f);
  fi_fin : forall k h, (k, h) ∈ fin -> (k < length (headers f))%nat /\ src_ok w k h /\
    (forall st, header_updates f !! k = Some st -> hu_stage st = Flushing);
}.

Lemma flusher_inv_frame fin f w w' ch :
  frame w w' -> ch_inv ch w' -> flusher_inv fin f w -> flusher_inv fin (with_channel ch f) w'.
Proof.
  intros Hf Hch I. pose proof Hf as (Hb & _ & _ & Hs & _). destruct I as [I1 I2 I3 I4 I5 I6 I7 I8 I9 I10 I11 I12 I13].
  assert (forall k h, src_ok w k h -> src_ok w' k h) as Hsrc by (unfold src_ok; by rewrite Hs).
  constructor; cbn; rewrite ?Hs; try done.
  - by eapply pool_wf_stable; [apply frame_stable|].
  - intros b Hin. apply list_elem_of_lookup in Hin as [i Hi]. destruct (pw_ids _ _ I1 i b Hi) as [Hd _].
    destruct (Hb b Hd) as (_ & _ & ->). apply I2, list_elem_of_lookup; eauto.
  - eauto.
  - intros k st Hk. destruct (I7 k st Hk). constructor; eauto.
  - eapply Forall_impl; [exact I12|]. intros r [? ?]; split; eauto.
  - intros k h Hk. destruct (I13 k h Hk) as (? & ? & ?). eauto.
Qed.

(** Replacing the headers by others that satisfy [src_ok]. *)
Lemma clear_header_done f w fin k st :
  flusher_inv fin f w -> header_updates f !! k = Some st ->
  exists hs, clear_header (mf_metadata f) (hu_stripe_id st) (hu_requested_bitmask st)
      = Done (with_headers (mf_metadata f) hs) /\ length hs = length (headers f) /\
    (exists h, headers f !! k = Some h /\
       hs = <[k := Z.land h (u8_not (hu_requested_bitmask st))]> (headers f)) /\
    forall k h, hs !! k = Some h -> src_ok w k h.
Proof.
  intros I Hk. destruct (fi_entry _ _ _ I k st Hk) as [-> _ Hlt [kd Hm] _ _].
  destruct (lookup_lt_is_Some_2 _ _ Hlt) as [h Hh]. unfold clear_header.
  rewrite (index_done _ _ _ Hh). cbn [mbind outcome_bind]. rewrite set_index_done by done.
  cbn [mbind outcome_bind]. eexists; split_and!; [done|by rewrite length_insert|by eauto|].
  intros k' h' Hk'. destruct (decide (k' = k)) as [->|Hne].
  - rewrite list_lookup_insert_eq in Hk' by done. simplify_eq. intros Hf. rewrite Hm in Hf.
    apply (fi_headers _ _ _ I k h Hh). change FETCHED with (kind_mask ReqSetFetched) in *.
    rewrite has_flag_clear in Hf. by apply andb_true_iff in Hf as [? _].
  - rewrite list_lookup_insert_ne in Hk' by done. by apply (fi_headers _ _ _ I).
Qed.

(** Giving up an update: its entry, its sector and (when it was still being
    written) its buffer are released. *)
Lemma inv_remove fin f w k st hs pool :
  flusher_inv fin f w -> header_updates f !! k = Some st ->
  length hs = length (headers f) -> (forall k h, hs !! k = Some h -> src_ok w k h) ->
  pool_wf pool w -> pool_buffers pool = pool_buffers (mf_pool f) ->
  (forall b, handed_out pool b <-> handed_out (mf_pool f) b /\ ~ (hu_stage st = Writing /\ b = hu_buffer st)) ->
  flusher_inv fin
    (mkFlusher (mf_channel f) (with_headers (mf_metadata f) hs)
       (sectors_being_updated f ∖ {[hu_sector st]}) (delete k (header_updates f))
       (queued_requests f) pool) w.
Proof.
  intros [I1 I2 I3 I4 I5 I6 I7 I8 I9 I10 I11 I12 I13] Hk Hl Hsrc Hp Hb Hh.
  constructor; cbn; rewrite ?Hl, ?Hb; try done.
  - intros k' st' [Hne Hk']%lookup_delete_Some. destruct (I7 k' st' Hk') as [E1 E2 E3 E4 E5 E6].
    constructor; cbn; rewrite ?Hl; try done. intros Hw. apply Hh. split; [auto|].
    intros [Hw' E]. apply Hne. by eapply I10.
  - intros s. rewrite elem_of_difference, elem_of_singleton, I8. split.
    + intros [(k' & st' & Hk' & E & Hf) Hne]. exists k', st'. split_and!; try done.
      apply lookup_delete_Some. split; [|done]. intros <-. congruence.
    + intros (k' & st' & [Hne Hk']%lookup_delete_Some & E & Hf). split; [eauto|].
      intros Es. apply Hne. eapply I9; [done..|congruence].
  - intros k1 k2 s1 s2 [_ ?]%lookup_delete_Some [_ ?]%lookup_delete_Some. by apply I9.
  - intros k1 k2 s1 s2 [_ ?]%lookup_delete_Some [_ ?]%lookup_delete_Some. by apply I10.
  - intros b [Ho Hn]%Hh. destruct (I11 b Ho) as (k' & st' & Hk' & Hw & E). exists k', st'.
    split_and!; try done. apply lookup_delete_Some; split; [|done]. intros <-.
    apply Hn. by simplify_eq.
  - eapply Forall_impl; [exact I12|]. intros r [? ?]; split; cbn; rewrite ?Hl; done.
  - intros k' h' Hin. destruct (I13 k' h' Hin) as (? & ? & Hst'). split_and!; [done..|].
    intros st' [_ Hk']%lookup_delete_Some. auto.
Qed.

Lemma handed_out_return p pool st :
  hu_stage st = Writing ->
  (forall b', handed_out pool b' <-> b' <> hu_buffer st /\ handed_out p b') ->
  forall b, handed_out pool b <-> handed_out p b /\ ~ (hu_stage st = Writing /\ b = hu_buffer st).
Proof. intros Hw Hh b. rewrite Hh. naive_solver. Qed.

Lemma handed_out_keep p st :
  hu_stage st <> Writing ->
  forall b, handed_out p b <-> handed_out p b /\ ~ (hu_stage st = Writing /\ b = hu_buffer st).
Proof. naive_solver. Qed.

Definition staged (g : RequestStage) (ids : list nat) f : Prop :=
  forall k st, k ∈ ids -> header_updates f !! k = Some st -> hu_stage st = g.

Lemma cleanup_one_inv fin (g : bool) ids k f w :
  flusher_inv fin f w -> staged (if g then Writing else Flushing) ids f -> k ∈ ids ->
  exists f', cleanup_one g k (f, w) = Done (f', w) /\ flusher_inv fin f' w /\
    staged (if g then Writing else Flushing) ids f'.
Proof.
  intros I Hs Hin. unfold cleanup_one. destruct (header_updates f !! k) as [st|] eqn:Hk; [|eauto].
  destruct (clear_header_done f w fin k st I Hk) as (hs & -> & Hl & _ & Hsrc). cbn [mbind outcome_bind].
  pose proof (Hs k st Hin Hk) as Hst.
  assert (exists pool, (if g then return_buffer (mf_pool f) (hu_buffer st) w else Done (mf_pool f))
    = Done pool /\ pool_wf pool w /\ pool_buffers pool = pool_buffers (mf_pool f) /\
    (forall b, handed_out pool b <-> handed_out (mf_pool f) b /\
       ~ (hu_stage st = Writing /\ b = hu_buffer st))) as (pool & -> & Hp & Hb & Hh).
  { destruct g.
    - destruct (return_buffer_spec (mf_pool f) w (hu_buffer st)) as (pool & -> & ? & _ & ? & Hh);
        [apply I|by apply (eo_buf _ _ _ _ (fi_entry _ _ _ I k st Hk))|].
      exists pool. split_and!; try done. by apply handed_out_return.
    - eexists; split_and!; [done|apply I|done|]. apply handed_out_keep. by rewrite Hst. }
  cbn [mbind outcome_bind]. eexists; split; [done|]. split; [by apply inv_remove|].
  unfold staged; cbn. intros k' st' Hk' [_ Hd]%lookup_delete_Some. eauto.
Qed.

Lemma cleanup_inv fin (g : bool) ids f w :
  flusher_inv fin f w -> staged (if g then Writing else Flushing) ids f ->
  exists f', cleanup_failed_submission ids g f w = Done (f', w) /\ flusher_inv fin f' w.
Proof.
  intros I Hs. unfold cleanup_failed_submission.
  destruct (for_each_total (fun s => flusher_inv fin s.1 w /\ s.2 = w /\
    staged (if g then Writing else Flushing) ids s.1) (cleanup_one g) ids (f, w))
    as ([f' w'] & -> & I' & E & _); cbn in *; [|done|subst; eauto].
  intros k [f1 w1] Hin (I1 & E & Hs1). cbn in *; subst w1.
  destruct (cleanup_one_inv fin g ids k f1 w I1 Hs1 Hin) as (f2 & E & ? & ?).
  exists (f2, w). by split_and!.
Qed.

(** A write that completed: its buffer goes back and a flush is added. *)
Lemma inv_flushing fin f w k st pool :
  flusher_inv fin f w -> header_updates f !! k = Some st -> hu_stage st = Writing ->
  pool_wf pool w -> pool_buffers pool = pool_buffers (mf_pool f) ->
  (forall b', handed_out pool b' <-> b' <> hu_buffer st /\ handed_out (mf_pool f) b') ->
  flusher_inv fin
    (mkFlusher (mf_channel f) (mf_metadata f) (sectors_being_updated f)
       (<[k := mkStatus (hu_buffer st) Flushing (hu_stripe_id st) (hu_header st)
                 (hu_requested_bitmask st) (hu_sector st)]> (header_updates f))
       (queued_requests f) pool) w.
Proof.
  intros [I1 I2 I3 I4 I5 I6 I7 I8 I9 I10 I11 I12 I13] Hk Hw Hp Hb Hh.
  assert (forall k' st', <[k := mkStatus (hu_buffer st) Flushing (hu_stripe_id st) (hu_header st)
      (hu_requested_bitmask st) (hu_sector st)]> (header_updates f) !! k' = Some st' ->
    exists st0, header_updates f !! k' = Some st0 /\ hu_sector st' = hu_sector st0 /\
      (k' = k \/ st' = st0)) as Hold.
  { intros k' st' [[<- <-]|[Hne Hk']]%lookup_insert_Some; eauto 6. }
  constructor; cbn; rewrite ?Hb; try done.
  - intros k' st' [[<- <-]|[Hne Hk']]%lookup_insert_Some.
    + destruct (I7 k st Hk). constructor; try done.
    + destruct (I7 k' st' Hk') as [E1 E2 E3 E4 E5 E6]. constructor; try done. intros Hw'.
      apply Hh. split; [|auto]. intros E. apply Hne. eapply I10; eauto.
  - intros s. rewrite I8. split.
    + intros (k' & st' & Hk' & E & Hf). destruct (decide (k = k')) as [<-|Hne].
      * eexists k, _. rewrite lookup_insert_eq. split_and!; [done| |done]. cbn. congruence.
      * exists k', st'. by rewrite lookup_insert_ne.
    + intros (k' & st' & Hk' & E & Hf). destruct (Hold _ _ Hk') as (st0 & ? & E' & _).
      exists k', st0. split_and!; congruence.
  - intros k1 k2 s1 s2 H1 H2 E. destruct (Hold _ _ H1) as (t1 & ? & E1 & _), (Hold _ _ H2) as (t2 & ? & E2 & _).
    eapply I9; [done..|congruence].
  - intros k1 k2 s1 s2 [[<- <-]|[? ?]]%lookup_insert_Some; [done|].
    intros [[<- <-]|[? ?]]%lookup_insert_Some; [done|]. by apply I10.
  - intros b [Hne Ho]%Hh. destruct (I11 b Ho) as (k' & st' & Hk' & Hw' & E). exists k', st'.
    split_and!; try done. rewrite lookup_insert_ne; [done|]. intros <-. simplify_eq.
  - intros k' h' Hin. destruct (I13 k' h' Hin) as (? & ? & Hst'). split_and!; [done..|].
    intros st' [[<- <-]|[_ Hk']]%lookup_insert_Some; [done|auto].
Qed.

(** A flush that completed: the sector is free for the next update. *)
Lemma inv_finished fin f w k st :
  flusher_inv fin f w -> header_updates f !! k = Some st -> hu_stage st = Flushing ->
  flusher_inv (fin ++ [(hu_stripe_id st, hu_header st)])
    (mkFlusher (mf_channel f) (mf_metadata f) (sectors_being_updated f ∖ {[hu_sector st]})
       (header_updates f) (queued_requests f) (mf_pool f)) w.
Proof.
  intros [I1 I2 I3 I4 I5 I6 I7 I8 I9 I10 I11 I12 I13] Hk Hst.
  destruct (I7 k st Hk) as [E1 E2 E3 E4 E5 E6].
  constructor; cbn; try done.
  - intros k' st' Hk'. by destruct (I7 k' st' Hk').
  - intros s. rewrite elem_of_difference, elem_of_singleton, I8, fmap_app. cbn. rewrite E1. split.
    + intros [(k' & st' & Hk' & E & Hf) Hne]. exists k', st'. split_and!; try done.
      rewrite elem_of_app, list_elem_of_singleton. intros [?| ->]; [done|]. congruence.
    + intros (k' & st' & Hk' & E & Hf). rewrite elem_of_app, list_elem_of_singleton in Hf.
      split; [exists k', st'; tauto|]. intros Es. apply Hf. right. eapply I9; [done..|congruence].
  - intros k' h' [Hin|[= -> ->]%list_elem_of_singleton]%elem_of_app; [by apply I13|].
    rewrite E1. split_and!; [done..|]. intros st' ?. by simplify_eq.
Qed.

Definition poll_inv (s : poll_state (C:=C)) : Prop :=
  let '(f, w, fin, newly) := s in flusher_inv fin f w /\ staged Flushing newly f.

Lemma on_completion_inv e (s : poll_state (C:=C)) :
  poll_inv s -> exists s', on_completion e s = Done s' /\ poll_inv s'.
Proof.
  destruct e as [k ok], s as [[[f w] fin] newly]. intros [I Hs]. unfold on_completion.
  destruct (header_updates f !! k) as [st|] eqn:Hk; [|by eexists].
  pose proof (fi_entry _ _ _ I k st Hk) as He.
  destruct ok; cbn [negb]; [destruct (hu_stage st) eqn:Hst|].
  - destruct (return_buffer_spec (mf_pool f) w (hu_buffer st)) as (pool & -> & Hp & _ & Hb & Hh);
      [apply I|by apply (eo_buf _ _ _ _ He)|]. cbn [mbind outcome_bind].
    destruct (add_flush_safe k (mf_channel f) w (fi_ch _ _ _ I)) as (ch & w1 & -> & Hf & Hc).
    cbn [mbind outcome_bind]. eexists; split; [done|]. split.
    + exact (flusher_inv_frame fin _ w w1 ch Hf Hc (inv_flushing fin f w k st pool I Hk Hst Hp Hb Hh)).
    + unfold staged; cbn. intros k' st' Hin [[<- <-]|[Hne Hk']]%lookup_insert_Some; [done|].
      apply elem_of_app in Hin as [?| ->%list_elem_of_singleton]; [by eapply Hs|done].
  - eexists; split; [done|]. split; [by apply (inv_finished fin f w k st)|done].
  - destruct (clear_header_done f w fin k st I Hk) as (hs & -> & Hl & _ & Hsrc). cbn [mbind outcome_bind].
    assert (exists pool, (if decide (hu_stage st = Writing) then return_buffer (mf_pool f) (hu_buffer st) w
        else Done (mf_pool f)) = Done pool /\ pool_wf pool w /\ pool_buffers pool = pool_buffers (mf_pool f) /\
      (forall b, handed_out pool b <-> handed_out (mf_pool f) b /\
         ~ (hu_stage st = Writing /\ b = hu_buffer st))) as (pool & -> & Hp & Hb & Hh).
    { case_decide as Hw.
      - destruct (return_buffer_spec (mf_pool f) w (hu_buffer st)) as (pool & -> & ? & _ & ? & Hh);
          [apply I|by apply (eo_buf _ _ _ _ He)|].
        exists pool. split_and!; try done. by apply handed_out_return.
      - eexists; split_and!; [done|apply I|done|]. by apply handed_out_keep. }
    cbn [mbind outcome_bind]. eexists; split; [done|]. split; [by apply inv_remove|].
    unfold staged; cbn. intros k' st' Hin [_ Hk']%lookup_delete_Some. by eapply Hs.
Qed.

(** Publishing a finished header. *)
Lemma finish_one_inv fin k h f w :
  flusher_inv ((k, h) :: fin) f w ->
  exists f' w', finish_one (k, h) (f, w) = Done (f', w') /\ flusher_inv fin f' w' /\
    header_updates f' = delete k (header_updates f).
Proof.
  intros [I1 I2 I3 I4 I5 I6 I7 I8 I9 I10 I11 I12 I13].
  destruct (I13 k h) as (Hlt & Hsrc & Hfl); [left|].
  destruct (lookup_lt_is_Some_2 (stripe_fetch_states (w_shared w)) k) as [st0 Hst0]; [lia|].
  destruct (set_stripe_header_wf (w_shared w) k h st0 I4 Hst0) as (sh & E & Hwf & Ef & Ew & Esh).
  { intros Hfl' ->. by apply (Hsrc Hfl'). }
  unfold finish_one. rewrite E. cbn [mbind outcome_bind].
  assert (length (stripe_fetch_states sh) = length (stripe_fetch_states (w_shared w))) as Hls
    by (rewrite Ef; destruct (has_flag h FETCHED); by rewrite ?length_insert).
  assert (forall j hj, src_ok w j hj -> src_ok (set_shared w sh) j hj) as Hso.
  { unfold src_ok; cbn. rewrite Ef. intros j hj Hj Hfj. destruct (has_flag h FETCHED); [|auto].
    destruct (decide (j = k)) as [->|]; [rewrite list_lookup_insert_eq by lia; done|].
    rewrite list_lookup_insert_ne by done. auto. }
  do 2 eexists; split_and!; [done| |done].
  constructor; cbn; rewrite ?Hls; try done.
  - destruct I1; by constructor.
  - eapply ch_inv_stable; [|exact I3]. apply set_shared_stable; [done| |done].
    rewrite Ew. destruct (has_flag h WRITTEN); by rewrite ?length_insert.
  - eauto.
  - intros k' st' [Hne Hk']%lookup_delete_Some. destruct (I7 k' st' Hk'). constructor; eauto.
  - intros s. rewrite I8. cbn. split.
    + intros (k' & st' & Hk' & Es & Hf). exists k', st'. split_and!; [|done|set_solver].
      apply lookup_delete_Some. split; [set_solver|done].
    + intros (k' & st' & [Hne Hk']%lookup_delete_Some & Es & Hf). exists k', st'. set_solver.
  - intros k1 k2 s1 s2 [_ ?]%lookup_delete_Some [_ ?]%lookup_delete_Some. by apply I9.
  - intros k1 k2 s1 s2 [_ ?]%lookup_delete_Some [_ ?]%lookup_delete_Some. by apply I10.
  - intros b Ho. destruct (I11 b Ho) as (k' & st' & Hk' & Hw & Eb). exists k', st'.
    split_and!; try done. apply lookup_delete_Some; split; [|done]. intros <-.
    rewrite (Hfl _ Hk') in Hw. done.
  - eapply Forall_impl; [exact I12|]. intros r [? ?]; split; cbn; auto.
  - intros k' h' Hin. destruct (I13 k' h') as (? & ? & Hst'); [by right|].
    split_and!; [done|auto|]. intros st' [_ Hk']%lookup_delete_Some. auto.
Qed.

Lemma finish_all_inv fin f w :
  flusher_inv fin f w ->
  exists f' w', for_each finish_one fin (f, w) = Done (f', w') /\ flusher_inv [] f' w' /\
    forall k st, header_updates f' !! k = Some st -> header_updates f !! k = Some st.
Proof.
  revert f w. induction fin as [|[k h] fin IH]; intros f w I; [eauto|]. cbn [for_each].
  destruct (finish_one_inv fin k h f w I) as (f1 & w1 & -> & I1 & E). cbn [mbind outcome_bind].
  destruct (IH f1 w1 I1) as (f2 & w2 & -> & I2 & Hsub). do 2 eexists; split_and!; [done..|].
  intros k' st' Hk'. apply Hsub in Hk'. rewrite E in Hk'. by apply lookup_delete_Some in Hk' as [_ ?].
Qed.

Lemma poll_channel_inv f w :
  flusher_inv [] f w -> exists f' w', poll_channel f w = Done (f', w') /\ flusher_inv [] f' w'.
Proof.
  intros I. unfold poll_channel.
  destruct (poll_safe (mf_channel f) w (fi_ch _ _ _ I)) as (rs & ch & w1 & -> & Hf & Hc).
  cbn [mbind outcome_bind].
  destruct (for_each_total poll_inv on_completion rs (with_channel ch f, w1, [], []))
    as ([[[f2 w2] fin] newly] & -> & I2 & Hs).
  { intros e s _. apply on_completion_inv. }
  { split; [by eapply flusher_inv_frame|]. intros k st Hk. by apply elem_of_nil in Hk. }
  cbn [mbind outcome_bind].
  destruct (finish_all_inv fin f2 w2 I2) as (f3 & w3 & -> & I3 & Hsub). cbn [mbind outcome_bind].
  case_bool_decide; [eauto|].
  destruct (submit_safe (mf_channel f3) w3 (fi_ch _ _ _ I3)) as (r & ch' & w4 & -> & Hf' & Hc').
  cbn [mbind outcome_bind]. pose proof (flusher_inv_frame [] f3 w3 w4 ch' Hf' Hc' I3) as I4.
  destruct r; [eauto|].
  destruct (cleanup_inv [] false newly (with_channel ch' f3) w4 I4) as (f5 & -> & I5); [|eauto].
  intros k st Hk Hu. eapply Hs; [done|]. by apply Hsub.
Qed.

(** ** Starting updates *)

Lemma group_slice (hs : list Z) k :
  (k < length hs)%nat ->
  let s := (stripe_id_to_group k * STRIPE_HEADERS_PER_SECTOR)%nat in
  slice hs s ((s + STRIPE_HEADERS_PER_SECTOR) `min` length hs - s)
  = Done (header_group hs (stripe_id_to_group k)).
Proof.
  intros Hk s. assert (s <= k)%nat as Hs.
  { unfold s, stripe_id_to_group. pose proof (Nat.Div0.mul_div_le k STRIPE_HEADERS_PER_SECTOR). lia. }
  rewrite slice_done by lia. unfold header_group. fold s. f_equal.
  destruct (decide (s + STRIPE_HEADERS_PER_SECTOR <= length hs)%nat).
  - f_equal. lia.
  - rewrite !take_ge; [done|rewrite length_drop; lia..].
Qed.

Lemma sector_free f w k :
  flusher_inv [] f w -> stripe_id_to_sector k ∉ sectors_being_updated f ->
  forall k' st, header_updates f !! k' = Some st -> hu_sector st <> stripe_id_to_sector k.
Proof.
  intros I Hn k' st Hk' E. apply Hn, (fi_sectors _ _ _ I). exists k', st. set_solver.
Qed.

(** The state after [start_one], with every intermediate value named. *)
Lemma start_one_done req rest f w :
  flusher_inv [] f w -> queued_requests f = req :: rest -> has_available (mf_pool f) = true ->
  let id := req_stripe_id req in
  exists h b pool w1 ch w2,
    headers f !! id = Some h /\
    get_buffer (mf_pool f) = Done (Some b, pool) /\ pool_wf pool w /\
    pool_buffers pool = pool_buffers (mf_pool f) /\ b ∈ pool_buffers pool /\
    ~ handed_out (mf_pool f) b /\
    (forall b', handed_out pool b' <-> b' = b \/ handed_out (mf_pool f) b') /\
    let hs := <[id := Z.lor h (kind_mask (req_kind req))]> (headers f) in
    w1 = write_buf w b (sector_image crc32 (header_group hs (stripe_id_to_group id))) /\
    frame w w1 /\
    add_write (stripe_id_to_sector id) 1 b id (mf_channel f) w1 = Done (ch, w2) /\
    frame w1 w2 /\ ch_inv ch w2 /\
    start_one crc32 req rest f w = Done (mkFlusher ch (with_headers (mf_metadata f) hs)
      ({[stripe_id_to_sector id]} ∪ sectors_being_updated f)
      (<[id := mkStatus b Writing id (Z.lor h (kind_mask (req_kind req)))
                 (kind_mask (req_kind req)) (stripe_id_to_sector id)]> (header_updates f))
      rest pool, w2).
Proof.
  intros I Hq Ha id. pose proof (fi_queue _ _ _ I) as Hr. rewrite Hq in Hr.
  apply Forall_cons in Hr as [[Hlt _] _]. fold id in Hlt.
  destruct (lookup_lt_is_Some_2 _ _ Hlt) as [h Hh].
  destruct (get_buffer_spec (mf_pool f) w (fi_pool _ _ _ I) Ha) as (b & pool & Eg & Hp & Hno & Hd & Hb & Hh').
  assert (b ∈ pool_buffers pool) as Hin.
  { destruct (proj2 (Hh' b) (or_introl eq_refl)) as (i & Hi & _). apply list_elem_of_lookup; eauto. }
  set (hs := <[id := Z.lor h (kind_mask (req_kind req))]> (headers f)).
  set (img := sector_image crc32 (header_group hs (stripe_id_to_group id))).
  assert (length (read_buf w b) = SECTOR_SIZE) as Hsz by (apply (fi_size _ _ _ I); by rewrite <- Hb).
  assert (length img = SECTOR_SIZE) as Himg by (apply length_sector_image, length_header_group).
  assert (frame w (write_buf w b img)) as Hf1 by (apply write_buf_frame; [done|congruence]).
  destruct (add_write_safe (stripe_id_to_sector id) 1 b id (mf_channel f) (write_buf w b img))
    as (ch & w2 & Ew & Hf2 & Hc).
  { eapply ch_inv_stable; [by apply frame_stable|apply I]. }
  { split; [by apply Hf1|]. rewrite read_write_buf_eq, Himg. lia. }
  exists h, b, pool, (write_buf w b img), ch, w2. split_and!; try done.
  unfold start_one. fold id. rewrite (index_done _ _ _ Hh), Eg. cbn [mbind outcome_bind].
  rewrite set_index_done by done. cbn [mbind outcome_bind]. fold hs.
  rewrite group_slice by (unfold hs; by rewrite length_insert). cbn [mbind outcome_bind].
  rewrite write_sector_spec by (try done; apply length_header_group). cbn [mbind outcome_bind].
  fold img. rewrite Ew. done.
Qed.

(** A new update of a free sector keeps the bookkeeping of the sectors in use:
    exactly those of the recorded updates, one update for each. *)
Lemma insert_sectors f w id st :
  flusher_inv [] f w -> header_updates f !! id = None -> stripe_id_to_sector id = hu_sector st ->
  stripe_id_to_sector id ∉ sectors_being_updated f ->
  let m := <[id := st]> (header_updates f) in
  (forall s, s ∈ {[stripe_id_to_sector id]} ∪ sectors_being_updated f <->
     exists k st', m !! k = Some st' /\ hu_sector st' = s /\ k ∉ (@nil (nat * Z)).*1) /\
  (forall k k' s s', m !! k = Some s -> m !! k' = Some s' -> hu_sector s = hu_sector s' -> k = k').
Proof.
  intros I Hnone Hsec Hs m. pose proof (sector_free f w id I Hs) as Hfree. split.
  - intros s. rewrite elem_of_union, elem_of_singleton, (fi_sectors _ _ _ I). split.
    + intros [->|(k & st' & Hk & E & _)].
      * exists id, st. unfold m. rewrite lookup_insert_eq. split_and!; [done|done|set_solver].
      * exists k, st'. unfold m. rewrite lookup_insert_ne by congruence. set_solver.
    + intros (k & st' & [[<- <-]|[Hne Hk]]%lookup_insert_Some & E & _); [left; congruence|right].
      exists k, st'. set_solver.
  - intros k k' s s' [[<- <-]|[Hne Hk]]%lookup_insert_Some [[<- <-]|[Hne' Hk']]%lookup_insert_Some E; [done|..].
    + destruct (Hfree k' s' Hk'). congruence.
    + destruct (Hfree k s Hk). congruence.
    + by eapply (fi_one _ _ _ I).
Qed.

Lemma start_one_inv req rest f w :
  flusher_inv [] f w -> queued_requests f = req :: rest -> has_available (mf_pool f) = true ->
  stripe_id_to_sector (req_stripe_id req) ∉ sectors_being_updated f ->
  exists f' w', start_one crc32 req rest f w = Done (f', w') /\ flusher_inv [] f' w' /\
    queued_requests f' = rest /\
    exists st, hu_stage st = Writing /\ header_updates f' = <[req_stripe_id req := st]> (header_updates f).
Proof.
  intros I Hq Ha Hs. set (id := req_stripe_id req) in *.
  destruct (start_one_done req rest f w I Hq Ha)
    as (h & b & pool & w1 & ch & w2 & Hh & Eg & Hp & Hb & Hin & Hno & Hho & -> & Hf1 & Ew & Hf2 & Hc & ->).
  fold id in Hh. fold id. set (hs := <[id := _]> (headers f)) in *.
  pose proof (sector_free f w id I Hs) as Hfree.
  assert (header_updates f !! id = None) as Hnone.
  { destruct (header_updates f !! id) as [st|] eqn:E; [|done].
    destruct (Hfree id st E). apply (eo_sector _ _ _ _ (fi_entry _ _ _ I id st E)). }
  assert (frame w w2) as Hf by (etransitivity; eassumption).
  do 2 eexists; split_and!; [done| |done|eexists; split; [|done]; done].
  pose proof (fi_queue _ _ _ I) as Hr. rewrite Hq in Hr. apply Forall_cons in Hr as [[Hlt Hsrc] Hr].
  fold id in Hlt, Hsrc.
  pose proof Hf as (Hbufs & _ & _ & Hsh & _).
  assert (forall k x, src_ok w k x -> src_ok w2 k x) as Hso by (unfold src_ok; by rewrite Hsh).
  assert (src_ok w id (Z.lor h (kind_mask (req_kind req)))) as Hnew.
  { unfold src_ok. rewrite has_flag_lor, orb_true_iff. intros [Hx|Hx]; [by apply (fi_headers _ _ _ I id h Hh)|auto]. }
  destruct (insert_sectors f w id (mkStatus b Writing id (Z.lor h (kind_mask (req_kind req)))
    (kind_mask (req_kind req)) (stripe_id_to_sector id)) I Hnone eq_refl Hs) as [Hsecs Hone].
  destruct I as [I1 I2 I3 I4 I5 I6 I7 I8 I9 I10 I11 I12 I13].
  constructor; cbn; rewrite ?Hsh; unfold hs; rewrite ?length_insert; try done.
  - eapply pool_wf_stable; [by apply frame_stable|done].
  - intros b' Hb'. rewrite Hb in Hb'. pose proof Hb' as [i Hi]%list_elem_of_lookup.
    destruct (Hbufs b') as (_ & _ & ->); [apply (pw_ids _ _ I1 i b' Hi)|]. auto.
  - intros k x Hk. destruct (decide (k = id)) as [->|Hne].
    + rewrite list_lookup_insert_eq in Hk by done. simplify_eq. auto.
    + rewrite list_lookup_insert_ne in Hk by done. auto.
  - intros k st [[<- <-]|[Hne Hk]]%lookup_insert_Some.
    + constructor; cbn; rewrite ?length_insert; eauto. intros _. apply Hho. auto.
    + destruct (I7 k st Hk) as [E1 E2 E3 E4 E5 E6]. constructor; cbn; rewrite ?length_insert; eauto.
      intros Hw. apply Hho. auto.
  - intros k k' st st' [[<- <-]|[Hne Hk]]%lookup_insert_Some [[<- <-]|[Hne' Hk']]%lookup_insert_Some; cbn;
      intros S1 S2 E; try done; [| |by eapply I10].
    + destruct Hno. rewrite E. by apply (eo_buf _ _ _ _ (I7 k' st' Hk')).
    + destruct Hno. rewrite <- E. by apply (eo_buf _ _ _ _ (I7 k st Hk)).
  - intros b' [->|Ho]%Hho.
    + eexists id, _. rewrite lookup_insert_eq. by split_and!.
    + destruct (I11 b' Ho) as (k & st & Hk & Hw & E). exists k, st.
      rewrite lookup_insert_ne by congruence. done.
  - eapply Forall_impl; [exact Hr|]. intros r [? ?]; split; cbn; rewrite ?length_insert; auto.
  - intros k x Hk. by apply elem_of_nil in Hk.
Qed.

Lemma skip_request_inv req rest f w :
  flusher_inv [] f w -> queued_requests f = req :: rest ->
  flusher_inv [] (mkFlusher (mf_channel f) (mf_metadata f) (sectors_being_updated f)
                    (header_updates f) rest (mf_pool f)) w.
Proof.
  intros [I1 I2 I3 I4 I5 I6 I7 I8 I9 I10 I11 I12 I13] Hq. rewrite Hq in I12.
  apply Forall_cons in I12 as [_ Hr]. constructor; cbn; try done.
  intros k st Hk. by destruct (I7 k st Hk).
Qed.

Lemma start_writes_loop_inv fuel f w newly :
  flusher_inv [] f w -> staged Writing newly f -> (length (queued_requests f) <= fuel)%nat ->
  exists f' w' newly', start_writes_loop crc32 fuel f w newly = Done (f', w', newly') /\
    flusher_inv [] f' w' /\ staged Writing newly' f'.
Proof.
  revert f w newly. induction fuel as [|fuel IH]; intros f w newly I Hs Hle; cbn [start_writes_loop];
    (destruct (has_available (mf_pool f)) eqn:Ha; cbn [negb]; [|eauto 6]);
    (destruct (queued_requests f) as [|req rest] eqn:Hq; [eauto 6|]); cbn in Hle; [lia|].
  case_bool_decide as Hsec; [eauto 6|].
  pose proof (fi_queue _ _ _ I) as Hr. rewrite Hq in Hr. apply Forall_cons in Hr as [[Hlt _] _].
  destruct (lookup_lt_is_Some_2 _ _ Hlt) as [h Hh]. rewrite (index_done _ _ _ Hh). cbn [mbind outcome_bind].
  destruct (has_flag h _).
  - apply IH; [by eapply skip_request_inv|done|cbn; lia].
  - destruct (start_one_inv req rest f w I Hq Ha Hsec) as (f1 & w1 & -> & I1 & Hq1 & st & Hst & Hu).
    cbn [mbind outcome_bind]. apply IH; [done| |rewrite Hq1; lia].
    intros k st' Hk. rewrite Hu. intros [[<- <-]|[Hne Hk']]%lookup_insert_Some; [done|].
    apply elem_of_app in Hk as [?| ->%list_elem_of_singleton]; [by eapply Hs|done].
Qed.

Lemma start_writes_inv f w :
  flusher_inv [] f w -> exists f' w', start_writes crc32 f w = Done (f', w') /\ flusher_inv [] f' w'.
Proof.
  intros I. unfold start_writes.
  destruct (start_writes_loop_inv (length (queued_requests f)) f w [] I) as (f1 & w1 & newly & -> & I1 & Hs);
    [by intros k st Hk%elem_of_nil|done|]. cbn [mbind outcome_bind].
  case_bool_decide; [eauto|].
  destruct (submit_safe (mf_channel f1) w1 (fi_ch _ _ _ I1)) as (r & ch & w2 & -> & Hf & Hc).
  cbn [mbind outcome_bind]. pose proof (flusher_inv_frame [] f1 w1 w2 ch Hf Hc I1) as I2.
  destruct r; [eauto|].
  destruct (cleanup_inv [] true newly (with_channel ch f1) w2 I2) as (f3 & -> & I3); eauto.
Qed.

Lemma flusher_update_inv f w :
  flusher_inv [] f w ->
  exists f' w', flusher_update crc32 f w = Done (f', w') /\ flusher_inv [] f' w'.
Proof.
  intros I. unfold flusher_update.
  destruct (start_writes_inv f w I) as (f1 & w1 & -> & I1). cbn [mbind outcome_bind].
  by apply poll_channel_inv.
Qed.

Lemma enqueue_inv r f w : flusher_inv [] f w -> req_ok f w r -> flusher_inv [] (enqueue r f) w.
Proof.
  intros [I1 I2 I3 I4 I5 I6 I7 I8 I9 I10 I11 I12 I13] Hr. constructor; cbn; try done.
  - intros k st Hk. by destruct (I7 k st Hk).
  - apply Forall_app; split; [|by constructor]. eapply Forall_impl; [exact I12|]. by intros r' [? ?].
Qed.

(** A flusher created on metadata whose stripe states are the shared ones. *)
Lemma flusher_new_inv {D} `{!BlockDevice D C} `{!DeviceSafe D C} rounds (d : D) n w f w' :
  fresh_world w -> flusher_new crc32 rounds d n w = Done (Ok f, w') ->
  metadata_wf (mf_metadata f) -> Forall header_ok (headers f) ->
  w_shared w = new_shared (mf_metadata f) -> flusher_inv [] f w'.
Proof.
  intros Hfr. unfold flusher_new. destruct (create_channel d w) as [ch|] eqn:Ec; [|done].
  destruct (load_from_bdev crc32 rounds d w) as [[[m|] w1]|] eqn:El; cbn [mbind outcome_bind]; try done.
  pose proof (load_frame crc32 rounds d w _ w1 Hfr El) as Hf1.
  destruct (stripe_count m <? _); [done|].
  destruct (new_pool_spec 4096 MAX_CONCURRENT_CHANGES SECTOR_SIZE w1)
    as (p & w2 & -> & Hf2 & Hp & Hsz & Hno & _ & _); [done|by apply Hf1|].
  cbn [mbind outcome_bind]. intros [= <- <-]. cbn [mf_metadata]. intros Hwf Hok Hsh.
  assert (frame w w2) as Hf by (by etransitivity).
  assert (w_shared w2 = new_shared m) as Hs2 by (destruct Hf as (_ & _ & _ & -> & _); done).
  destruct (new_shared_states m) as (Ef & Ew & _).
  constructor; cbn; try done.
  - eapply ch_inv_stable; [by apply frame_stable|by eapply create_channel_safe].
  - rewrite Hs2. by apply new_shared_wf.
  - by rewrite Hs2, Ef, length_map.
  - unfold src_ok. rewrite Hs2, Ef. intros k h Hk Hfl.
    change (map initial_fetch_state (stripe_headers m)) with (initial_fetch_state <$> stripe_headers m).
    rewrite list_lookup_fmap, Hk. cbn. unfold initial_fetch_state.
    rewrite Hfl. rewrite Forall_lookup in Hok. rewrite (Hok k h Hk Hfl). done.
  - intros s. split; [set_solver|]. intros (k & st & Hk & _). done.
  - intros b Hb. by destruct (Hno b).
  - intros k h Hk. by apply elem_of_nil in Hk.
Qed.

Lemma flusher_new_facts {D} `{!BlockDevice D C} `{!DeviceSafe D C} rounds (d : D) n w f w' :
  fresh_world w -> flusher_new crc32 rounds d n w = Done (Ok f, w') ->
  frame w w' /\ queued_requests f = [] /\ header_updates f = ∅ /\
  div_ceil n (stripe_sector_count (mf_metadata f)) <= stripe_count (mf_metadata f).
Proof.
  intros Hfr. unfold flusher_new. destruct (create_channel d w) as [ch|] eqn:Ec; [|done].
  destruct (load_from_bdev crc32 rounds d w) as [[[m|] w1]|] eqn:El; cbn [mbind outcome_bind]; try done.
  pose proof (load_frame crc32 rounds d w _ w1 Hfr El) as Hf1.
  destruct (Z.ltb_spec (stripe_count m) (div_ceil n (stripe_sector_count m))); [done|].
  destruct (new_pool_spec 4096 MAX_CONCURRENT_CHANGES SECTOR_SIZE w1)
    as (p & w2 & -> & Hf2 & _); [done|by apply Hf1|].
  cbn [mbind outcome_bind]. intros [= <- <-]. split_and!; try done. by etransitivity.
Qed.

(** What the rest of the program may do between two calls of the flusher. *)
Definition environment (w w' : World) : Prop :=
  stable w w' /\ shared_wf (w_shared w') /\
  forall k, stripe_fetch_states (w_shared w') !! k = Some NoSource ->
    stripe_fetch_states (w_shared w) !! k = Some NoSource.

Lemma environment_inv f w w' : environment w w' -> flusher_inv [] f w -> flusher_inv [] f w'.
Proof.
  intros (Hst & Hwf & Hns) [I1 I2 I3 I4 I5 I6 I7 I8 I9 I10 I11 I12 I13].
  assert (forall k h, src_ok w k h -> src_ok w' k h) as Hso by (unfold src_ok; eauto).
  pose proof Hst as (Hb & _ & Hl & _). constructor; try done.
  - by apply (pool_wf_stable _ w w').
  - intros b Hin. pose proof Hin as [i Hi]%list_elem_of_lookup. destruct (pw_ids _ _ I1 i b Hi) as [Hd _].
    destruct (Hb b Hd) as (_ & _ & ->). auto.
  - by apply (ch_inv_stable _ w w').
  - by rewrite Hl.
  - eauto.
  - intros k st Hk. destruct (I7 k st Hk). constructor; eauto.
  - eapply Forall_impl; [exact I12|]. intros r [? ?]; split; eauto.
  - intros k h Hk. by apply elem_of_nil in Hk.
Qed.

(** The flusher's life: requests arrive, [update] runs, the world moves on. *)
Inductive flusher_step : MetadataFlusher C * World -> MetadataFlusher C * World -> Prop :=
| step_enqueue f w r : req_ok f w r -> flusher_step (f, w) (enqueue r f, w)
| step_update f w f' w' : flusher_update crc32 f w = Done (f', w') -> flusher_step (f, w) (f', w')
| step_environment f w w' : environment w w' -> flusher_step (f, w) (f, w').

Lemma flusher_step_inv s s' : flusher_step s s' -> flusher_inv [] s.1 s.2 -> flusher_inv [] s'.1 s'.2.
Proof.
  intros Hs I. destruct Hs as [f w r Hr|f w f' w' E|f w w' He]; cbn [fst snd] in *.
  - by apply enqueue_inv.
  - destruct (flusher_update_inv f w I) as (f1 & w1 & E1 & I1). rewrite E in E1. by simplify_eq.
  - by eapply environment_inv.
Qed.

Lemma flusher_steps_inv s s' : rtc flusher_step s s' -> flusher_inv [] s.1 s.2 -> flusher_inv [] s'.1 s'.2.
Proof. induction 1; eauto using flusher_step_inv. Qed.

(** With no update under way nothing is locked and no buffer is missing. *)
Lemma idle_all_free f w :
  flusher_inv [] f w -> header_updates f = ∅ ->
  sectors_being_updated f = ∅ /\
  forall i, (i < length (pool_buffers (mf_pool f)))%nat -> i ∈ available_buffers (mf_pool f).
Proof.
  intros I He. split.
  - apply set_eq. intros s. rewrite (fi_sectors _ _ _ I), He. split; [|set_solver].
    intros (k & st & Hk & _). by rewrite lookup_empty in Hk.
  - intros i Hi. apply (pw_avail _ _ (fi_pool _ _ _ I)).
    destruct (lookup_lt_is_Some_2 (pool_buffers (mf_pool f)) i Hi) as [b Hb].
    destruct (lookup_lt_is_Some_2 (in_use (mf_pool f)) i) as [[|] Hu];
      [rewrite <- (pw_len _ _ (fi_pool _ _ _ I)); done| |done].
    destruct (fi_handed _ _ _ I b) as (k & st & Hk & _); [by exists i|]. by rewrite He, lookup_empty in Hk.
Qed.
End flusher_proofs.

(** ** What an update may publish *)

Section flusher_effect.
Context (crc32 : list Z -> Z) {C : Type} `{ChannelSafe C}.
Implicit Types (f : MetadataFlusher C) (w : World) (fin : list (nat * Z)).
Notation headers f := (stripe_headers (mf_metadata f)).

(** The stripes whose FETCHED bit the flusher knows of. *)
Definition fetched_soon fin f (id : nat) : Prop :=
  mkReq id ReqSetFetched ∈ queued_requests f \/
  (exists h, headers f !! id = Some h /\ has_flag h FETCHED = true) \/
  (exists st, header_updates f !! id = Some st /\ has_flag (hu_header st) FETCHED = true) \/
  (exists h, (id, h) ∈ fin /\ has_flag h FETCHED = true).

Record flusher_effect fin f w fin' f' w' : Prop := {
  fe_states : forall id st, stripe_fetch_states (w_shared w') !! id = Some st ->
    stripe_fetch_states (w_shared w) !! id = Some st \/ st = Fetched /\ fetched_soon fin f id;
  fe_soon : forall id, fetched_soon fin' f' id -> fetched_soon fin f id;
  fe_stable : stable w w';
  fe_requests : w_requests w' = w_requests w;
  fe_length : length (headers f') = length (headers f);
}.

Lemma effect_trans fin1 f1 w1 fin2 f2 w2 fin3 f3 w3 :
  flusher_effect fin1 f1 w1 fin2 f2 w2 -> flusher_effect fin2 f2 w2 fin3 f3 w3 ->
  flusher_effect fin1 f1 w1 fin3 f3 w3.
Proof.
  intros [A1 A2 A3 A4 A5] [B1 B2 B3 B4 B5]. constructor; [|auto|by etransitivity|congruence|congruence].
  intros id st Hst. destruct (B1 id st Hst) as [Hs|[-> Hs]]; [auto|]. right; auto.
Qed.

Lemma effect_frame fin f w fin' f' w' :
  frame w w' -> (forall id, fetched_soon fin' f' id -> fetched_soon fin f id) ->
  length (headers f') = length (headers f) -> flusher_effect fin f w fin' f' w'.
Proof.
  intros Hf Hs Hl. pose proof Hf as (_ & _ & _ & E & E' & _).
  constructor; rewrite ?E; auto. by apply frame_stable.
Qed.

Lemma effect_refl fin f w : flusher_effect fin f w fin f w.
Proof. apply effect_frame; auto. reflexivity. Qed.

(** Dropping an update takes bits away, never adds any. *)
Lemma remove_soon fin f w k st h secs pool :
  flusher_inv fin f w -> header_updates f !! k = Some st -> headers f !! k = Some h ->
  forall id, fetched_soon fin (mkFlusher (mf_channel f)
      (with_headers (mf_metadata f) (<[k := Z.land h (u8_not (hu_requested_bitmask st))]> (headers f)))
      secs (delete k (header_updates f)) (queued_requests f) pool) id -> fetched_soon fin f id.
Proof.
  intros I Hk Hh id. destruct (eo_mask _ _ _ _ (fi_entry _ _ _ I k st Hk)) as [kd Hm].
  unfold fetched_soon; cbn. intros [?|[(h' & E & Hf)|[(st' & [_ E]%lookup_delete_Some & Hf)|?]]]; eauto 8.
  destruct (decide (k = id)) as [<-|].
  - rewrite list_lookup_insert_eq in E by (by eapply lookup_lt_Some). simplify_eq. right; left. exists h.
    split; [done|]. rewrite Hm in Hf. change FETCHED with (kind_mask ReqSetFetched) in *.
    rewrite has_flag_clear in Hf. by apply andb_true_iff in Hf as [? _].
  - rewrite list_lookup_insert_ne in E by done. eauto 8.
Qed.

Lemma cleanup_one_effect fin g ids k f w f' :
  flusher_inv fin f w -> staged (if g : bool then Writing else Flushing) ids f ->
  cleanup_one g k (f, w) = Done (f', w) -> flusher_effect fin f w fin f' w.
Proof.
  intros I Hs E. unfold cleanup_one in E. destruct (header_updates f !! k) as [st|] eqn:Hk.
  2:{ simplify_eq. apply effect_refl. }
  destruct (clear_header_done f w fin k st I Hk) as (hs & Ec & Hl & (h & Hh & ->) & _). rewrite Ec in E.
  cbn [mbind outcome_bind] in E. destruct (if g then return_buffer _ _ _ else _) as [pool|]; [|done]. cbn [mbind outcome_bind] in E.
  injection E as <-. apply effect_frame; [reflexivity|by apply (remove_soon fin f w)|done].
Qed.

Lemma cleanup_effect fin (g : bool) ids f w f' :
  flusher_inv fin f w -> staged (if g then Writing else Flushing) ids f ->
  cleanup_failed_submission ids g f w = Done (f', w) -> flusher_effect fin f w fin f' w.
Proof.
  unfold cleanup_failed_submission. intros I Hs E.
  enough (forall l f0, (forall k, k ∈ l -> k ∈ ids) -> flusher_inv fin f0 w ->
    staged (if g then Writing else Flushing) ids f0 -> for_each (cleanup_one g) l (f0, w) = Done (f', w) ->
    flusher_effect fin f0 w fin f' w) as Hg by (by apply (Hg ids f)).
  clear. induction l as [|k l IH]; intros f0 Hin I Hs E; cbn [for_each] in E.
  { injection E as ->. apply effect_refl. }
  destruct (cleanup_one_inv fin g ids k f0 w I Hs) as (f1 & E1 & I1 & Hs1); [apply Hin; left|].
  rewrite E1 in E. cbn [mbind outcome_bind] in E.
  eapply effect_trans; [by eapply cleanup_one_effect|]. apply IH; try done. intros k' Hk'. apply Hin. by right.
Qed.

Lemma on_completion_effect e fin newly f w f' w' fin' newly' :
  poll_inv (f, w, fin, newly) -> on_completion e (f, w, fin, newly) = Done (f', w', fin', newly') ->
  flusher_effect fin f w fin' f' w'.
Proof.
  destruct e as [k ok]. intros [I Hs] E. unfold on_completion in E.
  destruct (header_updates f !! k) as [st|] eqn:Hk; [|injection E as <- <- <- <-; apply effect_refl].
  destruct ok; cbn [negb] in E; [destruct (hu_stage st)|].
  - destruct (return_buffer _ _ _) as [pool|]; [|done]. cbn [mbind outcome_bind] in E.
    destruct (add_flush_safe k (mf_channel f) w (fi_ch _ _ _ I)) as (ch & w1 & Ef & Hf & _). rewrite Ef in E.
    cbn [mbind outcome_bind] in E. injection E as <- <- <- <-. apply effect_frame; [done| |done].
    intros id. unfold fetched_soon; cbn. intros [?|[?|[(st' & E & Hfl)|?]]]; auto. do 2 right; left.
    apply lookup_insert_Some in E as [[<- <-]|[_ E]]; eauto.
  - injection E as <- <- <- <-. apply effect_frame; [reflexivity| |done].
    rewrite (eo_id _ _ _ _ (fi_entry _ _ _ I k st Hk)).
    intros id. unfold fetched_soon; cbn. intros [?|[?|[?|(h & Hin & Hfl)]]]; auto.
    apply elem_of_app in Hin as [?|[= -> ->]%list_elem_of_singleton]; eauto 8.
  - destruct (clear_header_done f w fin k st I Hk) as (hs & Ec & Hl & (h & Hh & ->) & _). rewrite Ec in E.
    cbn [mbind outcome_bind] in E. destruct (if decide _ then _ else _) as [pool|]; [|done].
    cbn [mbind outcome_bind] in E. injection E as <- <- <- <-.
    apply effect_frame; [reflexivity|by apply (remove_soon fin f w)|done].
Qed.

Lemma completions_effect rs fin newly f w f' w' fin' newly' :
  poll_inv (f, w, fin, newly) -> for_each on_completion rs (f, w, fin, newly) = Done (f', w', fin', newly') ->
  flusher_effect fin f w fin' f' w'.
Proof.
  revert fin newly f w. induction rs as [|e rs IH]; intros fin newly f w I E; cbn [for_each] in E.
  { injection E as <- <- <- <-. apply effect_refl. }
  destruct (on_completion_inv e (f, w, fin, newly) I) as ([[[f1 w1] fin1] newly1] & E1 & I1).
  rewrite E1 in E. cbn [mbind outcome_bind] in E. eapply effect_trans; [by eapply on_completion_effect|].
  by eapply IH.
Qed.

Lemma finish_one_effect fin k h f w f' w' :
  flusher_inv ((k, h) :: fin) f w -> finish_one (k, h) (f, w) = Done (f', w') ->
  flusher_effect ((k, h) :: fin) f w fin f' w'.
Proof.
  intros I E. unfold finish_one in E. destruct (fi_fin _ _ _ I k h) as (Hlt & Hsrc & _); [left|].
  destruct (lookup_lt_is_Some_2 (stripe_fetch_states (w_shared w)) k) as [st0 Hst0];
    [rewrite (fi_len _ _ _ I); done|].
  destruct (set_stripe_header_wf (w_shared w) k h st0 (fi_shared _ _ _ I) Hst0) as (sh & E1 & Hwf & Ef & Ew & Esh).
  { intros Hf ->. by apply (Hsrc Hf). }
  rewrite E1 in E. cbn [mbind outcome_bind] in E. injection E as <- <-. constructor; cbn; try done.
  - intros id st Hst. rewrite Ef in Hst. destruct (has_flag h FETCHED) eqn:Hf; [|auto].
    destruct (decide (k = id)) as [<-|]; [|rewrite list_lookup_insert_ne in Hst by done; auto].
    rewrite list_lookup_insert_eq in Hst by (by eapply lookup_lt_Some). simplify_eq. right. split; [done|].
    do 3 right. exists h. split; [left|done].
  - intros id. unfold fetched_soon; cbn. intros [?|[?|[(st' & [_ E]%lookup_delete_Some & Hf)|(h' & Hin & Hf)]]]; eauto 8.
    do 3 right. exists h'. split; [by right|done].
  - apply set_shared_stable; [rewrite Ef; destruct (has_flag h FETCHED); by rewrite ?length_insert| |done].
    rewrite Ew; destruct (has_flag h WRITTEN); by rewrite ?length_insert.
Qed.

Lemma finish_all_effect fin f w f' w' :
  flusher_inv fin f w -> for_each finish_one fin (f, w) = Done (f', w') -> flusher_effect fin f w [] f' w'.
Proof.
  revert f w. induction fin as [|[k h] fin IH]; intros f w I E; cbn [for_each] in E.
  { injection E as <- <-. apply effect_refl. }
  destruct (finish_one_inv fin k h f w I) as (f1 & w1 & E1 & I1 & _).
  rewrite E1 in E. cbn [mbind outcome_bind] in E. eapply effect_trans; [by eapply finish_one_effect|]. by apply IH.
Qed.

Lemma with_channel_effect fin f w ch w' :
  frame w w' -> flusher_effect fin f w fin (with_channel ch f) w'.
Proof. intros Hf. by apply effect_frame. Qed.

Lemma poll_channel_effect f w f' w' :
  flusher_inv [] f w -> poll_channel f w = Done (f', w') -> flusher_effect [] f w [] f' w'.
Proof.
  intros I E. unfold poll_channel in E.
  destruct (poll_safe (mf_channel f) w (fi_ch _ _ _ I)) as (rs & ch & w1 & E1 & Hf & Hc). rewrite E1 in E.
  cbn [mbind outcome_bind] in E.
  assert (poll_inv (with_channel ch f, w1, [], [])) as I1.
  { split; [by eapply flusher_inv_frame|]. by intros k st Hk%elem_of_nil. }
  destruct (for_each_total poll_inv on_completion rs (with_channel ch f, w1, [], []))
    as ([[[f2 w2] fin] newly] & E2 & I2 & Hs); [intros; by apply on_completion_inv|done|].
  rewrite E2 in E. cbn [mbind outcome_bind] in E.
  destruct (finish_all_inv fin f2 w2 I2) as (f3 & w3 & E3 & I3 & Hsub). rewrite E3 in E. cbn [mbind outcome_bind] in E.
  eapply effect_trans; [by apply with_channel_effect|].
  eapply effect_trans; [by eapply completions_effect|].
  eapply effect_trans; [by eapply finish_all_effect|].
  case_bool_decide; [injection E as <- <-; apply effect_refl|].
  destruct (submit_safe (mf_channel f3) w3 (fi_ch _ _ _ I3)) as (r & ch' & w4 & E4 & Hf' & Hc'). rewrite E4 in E.
  cbn [mbind outcome_bind] in E. pose proof (flusher_inv_frame [] f3 w3 w4 ch' Hf' Hc' I3) as I4.
  eapply effect_trans; [by apply with_channel_effect|].
  destruct r; [injection E as <- <-; apply effect_refl|].
  assert (staged Flushing newly (with_channel ch' f3)) as Hs' by (intros k st Hk Hu; eapply Hs; [done|by apply Hsub]).
  destruct (cleanup_inv [] false newly (with_channel ch' f3) w4 I4 Hs') as (f5 & E5 & I5).
  rewrite E5 in E. injection E as <- <-. by eapply (cleanup_effect [] false).
Qed.

Lemma start_one_effect req rest f w f' w' :
  flusher_inv [] f w -> queued_requests f = req :: rest -> has_available (mf_pool f) = true ->
  start_one crc32 req rest f w = Done (f', w') -> flusher_effect [] f w [] f' w'.
Proof.
  intros I Hq Ha E. destruct (start_one_done crc32 req rest f w I Hq Ha)
    as (h & b & pool & w1 & ch & w2 & Hh & _ & _ & _ & _ & _ & _ & _ & Hf1 & _ & Hf2 & _ & E1).
  rewrite E1 in E. injection E as <- <-. pose proof (lookup_lt_Some _ _ _ Hh) as Hlt.
  assert (forall x, x = Z.lor h (kind_mask (req_kind req)) -> has_flag x FETCHED = true ->
    fetched_soon [] f (req_stripe_id req)) as Hnew.
  { intros x -> Hf. rewrite has_flag_lor, orb_true_iff in Hf. destruct Hf as [Hf|Hf]; [right; left; eauto|].
    left. rewrite Hq. destruct req as [i [|]]; [left|by vm_compute in Hf]. }
  apply effect_frame; [by etransitivity| |by cbn; rewrite length_insert].
  intros id. unfold fetched_soon at 1; cbn. intros [Hin|[(x & E & Hf)|[(st & E & Hf)|(x & []%elem_of_nil & _)]]].
  - left. rewrite Hq. by right.
  - destruct (decide (req_stripe_id req = id)) as [<-|].
    + rewrite list_lookup_insert_eq in E by done. simplify_eq. eauto.
    + rewrite list_lookup_insert_ne in E by done. right; left. eauto.
  - apply lookup_insert_Some in E as [[<- <-]|[_ E]]; [eauto|]. do 2 right; left. eauto.
Qed.

Lemma start_writes_loop_effect fuel f w newly f' w' newly' :
  flusher_inv [] f w -> start_writes_loop crc32 fuel f w newly = Done (f', w', newly') ->
  flusher_effect [] f w [] f' w'.
Proof.
  revert f w newly. induction fuel as [|fuel IH]; intros f w newly I E; cbn [start_writes_loop] in E;
    (destruct (has_available (mf_pool f)) eqn:Ha; cbn [negb] in E; [|injection E as <- <- <-; apply effect_refl]);
    (destruct (queued_requests f) as [|req rest] eqn:Hq; [injection E as <- <- <-; apply effect_refl|]); [done|].
  case_bool_decide as Hsec; [injection E as <- <- <-; apply effect_refl|].
  destruct (index (headers f) (req_stripe_id req)) as [h|]; [|done]. cbn [mbind outcome_bind] in E.
  destruct (has_flag h _).
  - eapply effect_trans; [|eapply IH; [by eapply skip_request_inv|exact E]].
    apply effect_frame; [reflexivity| |done]. intros id. unfold fetched_soon; cbn. rewrite Hq.
    intros [?|?]; [left; by right|auto].
  - destruct (start_one_inv crc32 req rest f w I Hq Ha Hsec) as (f1 & w1 & E1 & I1 & _).
    rewrite E1 in E. cbn [mbind outcome_bind] in E. eapply effect_trans; [|by eapply IH].
    by eapply start_one_effect.
Qed.

Lemma flusher_update_effect f w f' w' :
  flusher_inv [] f w -> flusher_update crc32 f w = Done (f', w') -> flusher_effect [] f w [] f' w'.
Proof.
  intros I E. unfold flusher_update in E.
  destruct (start_writes_inv crc32 f w I) as (f1 & w1 & E1 & I1). rewrite E1 in E. cbn [mbind outcome_bind] in E.
  eapply effect_trans; [|by eapply poll_channel_effect]. clear E I1. unfold start_writes in E1.
  destruct (start_writes_loop_inv crc32 (length (queued_requests f)) f w [] I) as (f2 & w2 & newly & E2 & I2 & Hs);
    [by intros k st Hk%elem_of_nil|done|]. rewrite E2 in E1. cbn [mbind outcome_bind] in E1.
  eapply effect_trans; [by eapply start_writes_loop_effect|].
  case_bool_decide; [injection E1 as <- <-; apply effect_refl|].
  destruct (submit_safe (mf_channel f2) w2 (fi_ch _ _ _ I2)) as (r & ch & w3 & E3 & Hf & Hc). rewrite E3 in E1.
  cbn [mbind outcome_bind] in E1. pose proof (flusher_inv_frame [] f2 w2 w3 ch Hf Hc I2) as I3.
  eapply effect_trans; [by apply with_channel_effect|].
  destruct r; [injection E1 as <- <-; apply effect_refl|].
  destruct (cleanup_inv [] true newly (with_channel ch f2) w3 I3) as (f4 & E4 & I4); [done|].
  rewrite E4 in E1. injection E1 as <- <-. by eapply (cleanup_effect [] true).
Qed.
End flusher_effect.

(** C8: the metadata flusher never panics, whatever its channel reports: from a
    freshly opened flusher, after any sequence of requests for existing
    stripes, calls of [update] and actions of the other components, [update]
    returns; at most one update per metadata sector is under way; and when no
    update is under way no sector is blocked and every buffer of the pool is
    available again, so failed submissions and failed writes leak nothing. *)
Theorem flusher_safe crc32 {D C} `{DeviceSafe D C} rounds (d : D) ssc w0 f0 w1 f w :
  fresh_world w0 -> flusher_new crc32 rounds d ssc w0 = Done (Ok f0, w1) ->
  metadata_wf (mf_metadata f0) -> Forall header_ok (stripe_headers (mf_metadata f0)) ->
  w_shared w0 = new_shared (mf_metadata f0) ->
  rtc (flusher_step crc32) (f0, w1) (f, w) ->
  (exists f' w', flusher_update crc32 f w = Done (f', w')) /\
  (forall k k' st st', header_updates f !! k = Some st -> header_updates f !! k' = Some st' ->
     hu_sector st = hu_sector st' -> k = k') /\
  (header_updates f = ∅ -> sectors_being_updated f = ∅ /\
     forall i, (i < length (pool_buffers (mf_pool f)))%nat -> i ∈ available_buffers (mf_pool f)).
Proof.
  intros Hfr Hnew Hwf Hok Hsh Hsteps.
  pose proof (flusher_steps_inv crc32 _ _ Hsteps (flusher_new_inv crc32 rounds d ssc w0 f0 w1 Hfr Hnew Hwf Hok Hsh)) as I.
  cbn [fst snd] in I. split_and!.
  - destruct (flusher_update_inv crc32 f w I) as (f' & w' & E & _). eauto.
  - apply I.
  - by apply (idle_all_free f w).
Qed.

(** *** A concrete run, used by the witnesses *)

Definition demo_meta : UbiMetadata := new_metadata 11 3 2.
Definition demo_world : World :=
  mkWorld ∅ 0 {[ 7%nat := mkDisk (saved_image crc32_ieee demo_meta 3) (saved_image crc32_ieee demo_meta 3) ]}
    [] (new_shared demo_meta) [] true.
Definition demo_state : Type := MetadataFlusher SyncIoChannel * World.
Definition demo_none : demo_state :=
  (mkFlusher (mkSyncCh 0 false []) demo_meta ∅ ∅ [] (mkPool [] [] []), demo_world).
Definition demo_open : demo_state :=
  match flusher_new crc32_ieee 1 (mkSyncDev 7 3 false) 4096 demo_world with
  | Done (Ok f, w) => (f, w)
  | _ => demo_none
  end.
Definition demo_update (s : demo_state) : demo_state :=
  match flusher_update crc32_ieee s.1 s.2 with Done s' => s' | Panic _ => demo_none end.
Definition demo_request : demo_state := (set_stripe_fetched 1 demo_open.1, demo_open.2).
Definition demo_end : demo_state := demo_update (demo_update demo_request).

Lemma demo_meta_wf : metadata_wf demo_meta.
Proof. apply new_metadata_wf; unfold MAX_STRIPE_SECTOR_COUNT_SHIFT, U32_MAX; lia. Qed.

Lemma demo_headers_ok : Forall header_ok (stripe_headers demo_meta).
Proof. repeat constructor; unfold header_ok; vm_compute; discriminate. Qed.

Lemma demo_fresh : fresh_world demo_world.
Proof. by apply no_buffers_fresh. Qed.

Lemma demo_opens :
  flusher_new crc32_ieee 1 (mkSyncDev 7 3 false) 4096 demo_world = Done (Ok demo_open.1, demo_open.2).
Proof. vm_compute. reflexivity. Qed.

Lemma demo_open_meta : mf_metadata demo_open.1 = demo_meta.
Proof. vm_compute. reflexivity. Qed.

Lemma demo_request_ok : req_ok demo_open.1 demo_open.2 (mkReq 1 ReqSetFetched).
Proof. split; [vm_compute; lia|]. intros _. vm_compute. discriminate. Qed.

Lemma demo_updates :
  flusher_update crc32_ieee demo_request.1 demo_request.2 = Done (demo_update demo_request) /\
  flusher_update crc32_ieee (demo_update demo_request).1 (demo_update demo_request).2 = Done demo_end.
Proof. split; vm_compute; reflexivity. Qed.

Lemma update_step crc32 (s s' : demo_state) :
  flusher_update crc32 s.1 s.2 = Done s' -> flusher_step crc32 s s'.
Proof. destruct s, s'. apply step_update. Qed.

Lemma enqueue_step crc32 (s : demo_state) r :
  req_ok s.1 s.2 r -> flusher_step crc32 s (enqueue r s.1, s.2).
Proof. destruct s. apply step_enqueue. Qed.

Lemma demo_steps : rtc (flusher_step crc32_ieee) (demo_open.1, demo_open.2) (demo_end.1, demo_end.2).
Proof.
  rewrite <- !surjective_pairing. destruct demo_updates as [E1 E2].
  apply rtc_l with demo_request; [apply (enqueue_step _ _ _ demo_request_ok)|].
  apply rtc_l with (demo_update demo_request); [by apply update_step|].
  apply rtc_once. by apply update_step.
Qed.

Lemma flusher_safe_witness :
  (exists f' w', flusher_update crc32_ieee demo_end.1 demo_end.2 = Done (f', w')) /\
  (forall k k' st st', header_updates demo_end.1 !! k = Some st -> header_updates demo_end.1 !! k' = Some st' ->
     hu_sector st = hu_sector st' -> k = k') /\
  (header_updates demo_end.1 = ∅ -> sectors_being_updated demo_end.1 = ∅ /\
     forall i, (i < length (pool_buffers (mf_pool demo_end.1)))%nat ->
       i ∈ available_buffers (mf_pool demo_end.1)).
Proof.
  apply (flusher_safe crc32_ieee 1 (mkSyncDev 7 3 false) 4096 demo_world demo_open.1 demo_open.2
    demo_end.1 demo_end.2).
  - exact demo_fresh.
  - exact demo_opens.
  - rewrite demo_open_meta. exact demo_meta_wf.
  - rewrite demo_open_meta. exact demo_headers_ok.
  - by rewrite demo_open_meta.
  - exact demo_steps.
Defined.
