(* ===== verification/Durability.v ===== *)
(** * Durability: what the flusher publishes is on stable storage

    Theorems about metadata_flusher.rs (modelled in [Flusher]) over the
    synchronous device of [Device].  [durable_with] relates the headers in
    memory, in the file and on stable storage, the completions not yet polled
    and the published stripe states; every operation of the flusher keeps it,
    for every sequence of file faults that leaves single-sector writes atomic. *)
From S2P Require Import Prelude Metadata SharedState World Device Flusher.

(** [hd] and [hs] are the headers in the file and on stable storage. *)

Section durability.
Context (crc32 : list Z -> Z) (m0 : UbiMetadata) (path : nat) (rest : list Z).
Context (Hm0 : metadata_wf m0).
Notation flusher := (MetadataFlusher SyncIoChannel).
Implicit Types (f : flusher) (w : World) (fin : list (nat * Z)) (r : list (nat * bool)).
Notation headers f := (stripe_headers (mf_metadata f)).

(** Writes of one sector are atomic: a fault strikes before or after them. *)
Definition atomic_faults w : Prop :=
  Forall (fun o => match o with Some n => n = 0%nat \/ (SECTOR_SIZE <= n)%nat | None => True end)
    (w_faults w).

(** The stripe's bit is visible to the other threads. *)
Definition published w (k : nat) (kd : MetadataFlusherRequestKind) : Prop :=
  match kd with
  | ReqSetFetched => stripe_fetch_states (w_shared w) !! k = Some Fetched
  | ReqSetWritten => stripe_write_states (w_shared w) !! k = Some Written
  end.

Definition header_has (hs : list Z) (k : nat) (kd : MetadataFlusherRequestKind) : Prop :=
  exists h, hs !! k = Some h /\ has_flag h (kind_mask kd) = true.

Definition covered (hs : list Z) (k : nat) (h : Z) : Prop :=
  forall kd, has_flag h (kind_mask kd) = true -> header_has hs k kd.

Record durable_with (hd hs : list Z) r fin f w : Prop := {
  du_disk : w_disks w !! path =
    Some (mkDisk (encode crc32 (with_headers m0 hd) ++ rest) (encode crc32 (with_headers m0 hs) ++ rest));
  du_file : sync_file (mf_channel f) = path;
  du_len : length (headers f) = length (stripe_headers m0) /\
    length hd = length (stripe_headers m0) /\ length hs = length (stripe_headers m0);
  du_u8 : Forall is_u8 (headers f) /\ Forall is_u8 hd /\ Forall is_u8 hs;
  du_faults : atomic_faults w;
  du_pend_nodup : NoDup (r.*1 ++ (sync_finished (mf_channel f)).*1 ++ fin.*1);
  du_pend : forall k, k ∈ r.*1 ++ (sync_finished (mf_channel f)).*1 ++ fin.*1 <->
    is_Some (header_updates f !! k);
  du_fin : forall k h, (k, h) ∈ fin ->
    exists st, header_updates f !! k = Some st /\ hu_stage st = Flushing /\ hu_header st = h;
  du_header : forall k st, header_updates f !! k = Some st ->
    headers f !! k = Some (hu_header st);
  du_unset : forall k st kd, header_updates f !! k = Some st -> k ∉ fin.*1 ->
    hu_requested_bitmask st = kind_mask kd -> ~ published w k kd;
  du_shared : forall k kd, published w k kd ->
    header_has (headers f) k kd /\ header_has hd k kd /\ header_has hs k kd;
  du_written : forall k st, header_updates f !! k = Some st ->
    hu_stage st = Flushing \/ (k, true) ∈ r ++ sync_finished (mf_channel f) ->
    covered hd k (hu_header st);
  du_synced : forall k st, header_updates f !! k = Some st -> hu_stage st = Flushing ->
    k ∈ fin.*1 \/ (k, true) ∈ r ++ sync_finished (mf_channel f) ->
    covered hs k (hu_header st);
}.

Definition durable r fin f w : Prop := exists hd hs, durable_with hd hs r fin f w.

(** *** File operations *)

Lemma encode_wf hs :
  length hs = length (stripe_headers m0) -> Forall is_u8 hs -> metadata_wf (with_headers m0 hs).
Proof using Hm0. intros Hl Hu. destruct Hm0. constructor; cbn; rewrite ?Hl; done. Qed.

Lemma next_fault_atomic w :
  atomic_faults w -> atomic_faults (next_fault w).2 /\ w_disks (next_fault w).2 = w_disks w /\
  w_shared (next_fault w).2 = w_shared w /\
  ((next_fault w).1 = None \/ (next_fault w).1 = Some 0%nat \/
   exists n, (next_fault w).1 = Some n /\ (SECTOR_SIZE <= n)%nat).
Proof.
  unfold atomic_faults, next_fault. intros Hf. destruct (w_faults w) as [|[n|] fs] eqn:E;
    cbn; rewrite ?E; split_and!; try done; auto; apply Forall_cons in Hf as [Hn Hf]; try done.
  destruct Hn as [->|]; eauto.
Qed.

Lemma sector_offset k :
  (k < length (stripe_headers m0))%nat ->
  byte_offset (stripe_id_to_sector k) = (Z.to_nat (stripe_id_to_sector k) * SECTOR_SIZE)%nat /\
  (Z.to_nat (stripe_id_to_sector k) * SECTOR_SIZE + SECTOR_SIZE <= metadata_size m0)%nat /\
  (stripe_id_to_group k * STRIPE_HEADERS_PER_SECTOR <= length (stripe_headers m0))%nat.
Proof using Hm0.
  intros Hk. pose proof (wf_count _ Hm0) as Hc. unfold U32_MAX in Hc.
  unfold byte_offset, stripe_id_to_sector, stripe_id_to_group, metadata_size, stripe_header_sector_count.
  pose proof (Nat.Div0.mul_div_le k STRIPE_HEADERS_PER_SECTOR) as Hd.
  destruct (ndiv_ceil_spec (length (stripe_headers m0)) STRIPE_HEADERS_PER_SECTOR) as [Hn _]; [sizes|].
  assert (k `div` STRIPE_HEADERS_PER_SECTOR < ndiv_ceil (length (stripe_headers m0)) STRIPE_HEADERS_PER_SECTOR)%nat
    as Hlt by (apply Nat.Div0.div_lt_upper_bound; lia).
  change STRIPE_HEADERS_PER_SECTOR with 508%nat in *. set (q := (k `div` 508)%nat) in *.
  assert (q <= k)%nat by (unfold q; apply Nat.Div0.div_le_upper_bound; lia).
  change (Z.of_nat SECTOR_SIZE) with 512. unfold wrap64. rewrite Z.mod_small by lia.
  change SECTOR_SIZE with 512%nat. split_and!; lia.
Qed.

Lemma sector_write hd hs mem k wr w ok w' :
  w_disks w !! path =
    Some (mkDisk (encode crc32 (with_headers m0 hd) ++ rest) (encode crc32 (with_headers m0 hs) ++ rest)) ->
  (k < length (stripe_headers m0))%nat ->
  length mem = length (stripe_headers m0) -> length hd = length (stripe_headers m0) ->
  Forall is_u8 hd -> atomic_faults w ->
  write_all_at path wr (byte_offset (stripe_id_to_sector k))
    (sector_image crc32 (header_group mem (stripe_id_to_group k))) w = (ok, w') ->
  atomic_faults w' /\ w_shared w' = w_shared w /\
  exists hd', w_disks w' !! path =
      Some (mkDisk (encode crc32 (with_headers m0 hd') ++ rest) (encode crc32 (with_headers m0 hs) ++ rest)) /\
    (hd' = regroup hd mem (stripe_id_to_group k) \/ hd' = hd /\ ok = false).
Proof using Hm0.
  intros Hd Hk Hl Hl' Hu Ha Hw. destruct (sector_offset k Hk) as (Eo & Hfit & Hgl).
  set (g := stripe_id_to_group k) in *. set (img := sector_image crc32 (header_group mem g)) in *.
  assert (length img = SECTOR_SIZE) as Himg by (apply length_sector_image, length_header_group).
  pose proof (encode_wf hd Hl' Hu) as Hwf.
  assert (Z.to_nat (stripe_id_to_sector k) * SECTOR_SIZE <=
    length (encode crc32 (with_headers m0 hd) ++ rest))%nat as Hoff.
  { rewrite length_app, length_encode by done.
    replace (metadata_size (with_headers m0 hd)) with (metadata_size m0); [lia|].
    unfold metadata_size, stripe_header_sector_count; cbn. by rewrite Hl'. }
  assert (file_write (encode crc32 (with_headers m0 hd) ++ rest) (byte_offset (stripe_id_to_sector k)) img
    = encode crc32 (with_headers m0 (regroup hd mem g)) ++ rest) as Hfull.
  { rewrite Eo, file_write_splice by done. unfold img.
    assert (header_group mem g = header_group (regroup hd mem g) g) as ->.
    { apply header_group_ext. intros i Hi. rewrite regroup_lookup by lia. by rewrite decide_True. }
    unfold g at 2.
    rewrite (encode_update crc32 (with_headers m0 hd) rest (regroup hd mem g) k); cbn; try done; try lia.
    - rewrite length_regroup by lia. done.
    - intros g' Hg'. apply header_group_ext. intros i Hi. rewrite regroup_lookup by lia.
      rewrite decide_False; [done|]. fold g in Hg'. congruence. }
  destruct (next_fault_atomic w Ha) as (Ha' & Ed & Es & Hcase).
  unfold write_all_at in Hw. destruct (next_fault w) as [fault w1]. cbn [fst snd] in *.
  destruct wr; cbn [negb] in Hw.
  2:{ simplify_eq. split_and!; [done..|]. exists hd. rewrite Ed. auto. }
  assert (disk_at w1 path = mkDisk (encode crc32 (with_headers m0 hd) ++ rest)
    (encode crc32 (with_headers m0 hs) ++ rest)) as Edisk by (unfold disk_at; by rewrite Ed, Hd).
  rewrite Edisk in Hw. cbn [disk_data disk_synced] in Hw.
  destruct Hcase as [->|[->|(n & -> & Hn)]]; injection Hw as <- <-;
    cbn [w_disks set_disks w_shared]; rewrite lookup_insert_eq; (split_and!; [done..|]).
  - eexists; split; [by rewrite Hfull|]. auto.
  - exists hd. rewrite take_0, file_write_nil by (rewrite Eo; done). auto.
  - eexists; split; [by rewrite take_ge, Hfull by lia|]. auto.
Qed.

(** A flush that succeeds makes the file's headers the stable ones. *)
Lemma file_sync hd hs w ok w' :
  w_disks w !! path =
    Some (mkDisk (encode crc32 (with_headers m0 hd) ++ rest) (encode crc32 (with_headers m0 hs) ++ rest)) ->
  atomic_faults w -> sync_all path w = (ok, w') ->
  atomic_faults w' /\ w_shared w' = w_shared w /\
  w_disks w' !! path = Some (mkDisk (encode crc32 (with_headers m0 hd) ++ rest)
    (encode crc32 (with_headers m0 (if ok then hd else hs)) ++ rest)).
Proof.
  intros Hd Ha Hw. destruct (next_fault_atomic w Ha) as (Ha' & Ed & Es & _).
  unfold sync_all in Hw. destruct (next_fault w) as [fault w1]. cbn [fst snd] in *.
  assert (disk_at w1 path = mkDisk (encode crc32 (with_headers m0 hd) ++ rest)
    (encode crc32 (with_headers m0 hs) ++ rest)) as Edisk by (unfold disk_at; by rewrite Ed, Hd).
  destruct fault; injection Hw as <- <-; cbn [w_disks set_disks w_shared]; split_and!; try done;
    [by rewrite Ed|]. by rewrite lookup_insert_eq, Edisk.
Qed.

(** *** Every operation keeps the published bits durable *)

Lemma header_has_regroup hd mem g k kd :
  length mem = length hd -> (g * STRIPE_HEADERS_PER_SECTOR <= length hd)%nat ->
  header_has (regroup hd mem g) k kd <->
  if decide (stripe_id_to_group k = g) then header_has mem k kd else header_has hd k kd.
Proof. intros. unfold header_has. rewrite regroup_lookup by done. by case_decide. Qed.

Lemma header_has_insert hs k x k' kd :
  (k < length hs)%nat ->
  header_has (<[k := x]> hs) k' kd <->
  if decide (k = k') then has_flag x (kind_mask kd) = true else header_has hs k' kd.
Proof.
  intros Hk. unfold header_has. case_decide as E; [subst k'|].
  - rewrite list_lookup_insert_eq by done. split; [by intros (h & [= ->] & ?)|eauto].
  - by rewrite list_lookup_insert_ne.
Qed.

Lemma sector_group k k' : stripe_id_to_group k = stripe_id_to_group k' -> stripe_id_to_sector k = stripe_id_to_sector k'.
Proof. unfold stripe_id_to_sector, stripe_id_to_group. by intros ->. Qed.

Lemma is_u8_kind_mask kd : is_u8 (kind_mask kd).
Proof. destruct kd; vm_compute; split; congruence. Qed.

(** Setting a flag of one header loses none. *)
Lemma header_has_lor hs id h m k kd :
  hs !! id = Some h -> header_has hs k kd -> header_has (<[id := Z.lor h m]> hs) k kd.
Proof.
  intros Hh (h' & E & Hfl). apply header_has_insert; [by eapply lookup_lt_Some|].
  case_decide; [subst|by exists h']. rewrite has_flag_lor. simplify_eq. by rewrite Hfl.
Qed.

(** Whether the group of [g] was rewritten or not: the other groups keep their
    flags, and the group itself has those both versions have. *)
Lemma rewritten_keeps hd mem hd' g k kd :
  length mem = length hd -> (g * STRIPE_HEADERS_PER_SECTOR <= length hd)%nat ->
  hd' = regroup hd mem g \/ hd' = hd -> (stripe_id_to_group k = g -> header_has mem k kd) ->
  header_has hd k kd -> header_has hd' k kd.
Proof.
  intros Hl Hg [-> | ->] Hm Hh; [|done]. apply header_has_regroup; [done..|]. case_decide; auto.
Qed.

(** The update of [id] has been handed to the channel: [hd'] are the headers in
    the file afterwards and [ok] tells whether the write succeeded. *)
Lemma durable_insert hd hs hd' id kd h ok b q pool f w w' :
  durable_with hd hs [] [] f w -> header_updates f !! id = None ->
  (forall k st, header_updates f !! k = Some st -> stripe_id_to_group k <> stripe_id_to_group id) ->
  headers f !! id = Some h -> has_flag h (kind_mask kd) = false ->
  let mem := <[id := Z.lor h (kind_mask kd)]> (headers f) in
  atomic_faults w' -> w_shared w' = w_shared w ->
  w_disks w' !! path = Some (mkDisk (encode crc32 (with_headers m0 hd') ++ rest)
                                    (encode crc32 (with_headers m0 hs) ++ rest)) ->
  (hd' = regroup hd mem (stripe_id_to_group id) \/ hd' = hd /\ ok = false) ->
  durable_with hd' hs [] []
    (mkFlusher (sync_finish (mf_channel f) id ok) (with_headers (mf_metadata f) mem)
       ({[stripe_id_to_sector id]} ∪ sectors_being_updated f)
       (<[id := mkStatus b Writing id (Z.lor h (kind_mask kd)) (kind_mask kd)
                  (stripe_id_to_sector id)]> (header_updates f)) q pool) w'.
Proof using Hm0.
  intros [D1 D2 (D3 & D3' & D3'') (D4 & D4' & D4'') D5 D6 D7 D8 D9 D10 D11 D12 D13]
    Hnone Hgne Hh Hflag mem Ha' Esh Hdisk Hhd'.
  pose proof (lookup_lt_Some _ _ _ Hh) as Hlt.
  destruct (sector_offset id ltac:(lia)) as (_ & _ & Hgl).
  assert (length mem = length (stripe_headers m0)) as Hml by (unfold mem; by rewrite length_insert).
  assert (Forall is_u8 mem) as Hmu.
  { unfold mem. apply Forall_insert; [done|]. apply is_u8_lor; [|apply is_u8_kind_mask].
    rewrite Forall_lookup in D4. eauto. }
  assert (forall k kd', published w' k kd' -> published w k kd') as Hpub
    by (intros k []; cbn; by rewrite Esh).
  assert (forall k kd', header_has (headers f) k kd' -> header_has mem k kd') as Hmem
    by (intros k kd'; by apply header_has_lor).
  assert (forall k kd', (stripe_id_to_group k = stripe_id_to_group id -> header_has mem k kd') ->
    header_has hd k kd' -> header_has hd' k kd') as Hhas
    by (intros k kd'; apply rewritten_keeps; [lia..|tauto]).
  assert (id ∉ (sync_finished (mf_channel f)).*1) as Hnin.
  { intros Hin. destruct (D7 id) as [Hs _]. destruct Hs; [set_solver|congruence]. }
  constructor; cbn [mf_channel mf_metadata header_updates sync_finish sync_file sync_finished
    with_headers stripe_headers fmap list_fmap app]; rewrite ?app_nil_r in *; try done.
  - split_and!; [done| |done]. destruct Hhd' as [->|[-> _]]; rewrite ?length_regroup; lia.
  - split_and!; [done| |done]. destruct Hhd' as [->|[-> _]]; [|done].
    unfold regroup. apply Forall_splice; [done|]. unfold header_group. by apply Forall_take, Forall_drop.
  - rewrite fmap_app. cbn. apply NoDup_app; split_and!; [done| |apply NoDup_singleton].
    intros k Hk ->%list_elem_of_singleton. done.
  - intros k. rewrite fmap_app, elem_of_app. cbn. rewrite list_elem_of_singleton, lookup_insert_is_Some, <- D7.
    destruct (decide (k = id)) as [->|]; [tauto|]. cbn. rewrite ?app_nil_r. intuition congruence.
  - intros k x Hk. by apply elem_of_nil in Hk.
  - intros k st [[<- <-]|[Hne Hk]]%lookup_insert_Some; cbn; unfold mem.
    + by rewrite list_lookup_insert_eq.
    + rewrite list_lookup_insert_ne by done. eauto.
  - intros k st kd' [[<- <-]|[Hne Hk]]%lookup_insert_Some Hn; cbn; intros Em Hp; [|eapply D10; eauto].
    assert (kd = kd') as <- by (apply flag_of_mask; rewrite Em; by apply flag_of_mask).
    apply Hpub, D11 in Hp as ((h' & E & Hf) & _). congruence.
  - intros k kd' [H1 [H2 H3]]%Hpub%D11. split_and!; auto.
  - intros k st [[<- <-]|[Hne Hk]]%lookup_insert_Some Hor; cbn in *.
    + destruct Hor as [|[Hin|[= <-]%list_elem_of_singleton]%elem_of_app]; [done| |].
      { destruct Hnin. apply list_elem_of_fmap. by exists (id, true). }
      destruct Hhd' as [->|[_ ?]]; [|done]. intros kd' Hf. apply header_has_regroup; [lia..|].
      rewrite decide_True by done. apply header_has_insert; [done|]. by rewrite decide_True.
    + intros kd' Hf. apply Hhas; [intros E; by destruct (Hgne k st Hk)|]. eapply (D12 k st Hk); [|done].
      destruct Hor as [|[|E%list_elem_of_singleton]%elem_of_app]; auto; by simplify_eq.
  - intros k st [[<- <-]|[Hne Hk]]%lookup_insert_Some Hst Hor; cbn in *; [done|].
    apply (D13 k st Hk Hst). destruct Hor as [|[|E%list_elem_of_singleton]%elem_of_app]; auto; by simplify_eq.
Qed.

Lemma start_one_durable req rst f w f' w' h :
  flusher_inv [] f w -> durable [] [] f w ->
  queued_requests f = req :: rst -> has_available (mf_pool f) = true ->
  stripe_id_to_sector (req_stripe_id req) ∉ sectors_being_updated f ->
  headers f !! req_stripe_id req = Some h -> has_flag h (kind_mask (req_kind req)) = false ->
  start_one crc32 req rst f w = Done (f', w') -> durable [] [] f' w'.
Proof using Hm0.
  intros I (hd & hs & D) Hq Ha Hsec Hh Hflag Hs. set (id := req_stripe_id req) in *.
  set (kd := req_kind req) in *.
  destruct (start_one_done crc32 req rst f w I Hq Ha)
    as (h0 & b & pool & w1 & ch & w2 & Hh0 & _ & _ & _ & _ & _ & _ & -> & Hf1 & Ew & Hf2 & _ & Es).
  fold id in Hh0, Ew, Es. fold kd in Ew, Es. rewrite Hh in Hh0. injection Hh0 as <-.
  rewrite Es in Hs. injection Hs as <- <-. clear Es.
  set (mem := <[id := Z.lor h (kind_mask kd)]> (headers f)) in *.
  set (img := sector_image crc32 (header_group mem (stripe_id_to_group id))) in *.
  pose proof (lookup_lt_Some _ _ _ Hh) as Hlt. destruct (du_len _ _ _ _ _ _ D) as (Hl & Hl' & _).
  assert (length img = SECTOR_SIZE) as Himg by (apply length_sector_image, length_header_group).
  cbn [add_write sync_channel] in Ew. unfold sync_add_write in Ew. rewrite read_write_buf_eq in Ew.
  rewrite slice_done in Ew by lia. cbn [mbind outcome_bind] in Ew.
  rewrite drop_0, take_ge, (du_file _ _ _ _ _ _ D) in Ew by lia.
  destruct (write_all_at _ _ _ _ _) as [ok w3] eqn:Ewr. injection Ew as <- <-.
  assert (length mem = length (stripe_headers m0)) as Hml by (unfold mem; by rewrite length_insert).
  destruct (sector_write hd hs mem id (sync_writable (mf_channel f)) (write_buf w b img) ok w3)
    as (Ha' & Esh & hd' & Hdisk & Hhd'); try done; [apply D|lia|apply D|apply D|].
  pose proof (sector_free f w id I Hsec) as Hfree.
  exists hd', hs. apply (durable_insert hd hs hd' id kd h ok b rst pool f w w3); try done.
  - destruct (header_updates f !! id) as [st|] eqn:E; [|done].
    destruct (Hfree id st E). apply (eo_sector _ _ _ _ (fi_entry _ _ _ I id st E)).
  - intros k st Hk Eg. destruct (Hfree k st Hk).
    rewrite (eo_sector _ _ _ _ (fi_entry _ _ _ I k st Hk)). by apply sector_group.
Qed.

(** The update of [k] failed: its bit is taken back from the in-memory header. *)
Lemma durable_failed hd hs k r fin f w st h secs pool :
  flusher_inv fin f w -> durable_with hd hs ((k, false) :: r) fin f w ->
  header_updates f !! k = Some st -> headers f !! k = Some h ->
  durable_with hd hs r fin
    (mkFlusher (mf_channel f)
       (with_headers (mf_metadata f) (<[k := Z.land h (u8_not (hu_requested_bitmask st))]> (headers f)))
       secs (delete k (header_updates f)) (queued_requests f) pool) w.
Proof using Hm0.
  intros I [D1 D2 (D3 & D3' & D3'') (D4 & D4' & D4'') D5 D6 D7 D8 D9 D10 D11 D12 D13] Hk Hh.
  pose proof (lookup_lt_Some _ _ _ Hh) as Hlt. cbn [fmap list_fmap app] in D6, D7.
  apply NoDup_cons in D6 as [Hnin Hnd]. cbn [fst] in *.
  destruct (eo_mask _ _ _ _ (fi_entry _ _ _ I k st Hk)) as [kd0 Hm].
  constructor; cbn [mf_channel mf_metadata header_updates with_headers stripe_headers]; try done.
  - by rewrite length_insert.
  - split_and!; [|done..]. apply Forall_insert; [done|]. apply is_u8_land. rewrite Forall_lookup in D4. eauto.
  - intros k'. destruct (decide (k = k')) as [<-|Hne].
    + rewrite lookup_delete_eq. split; [done|]. by intros [? ?].
    + rewrite lookup_delete_ne by done. rewrite <- D7, elem_of_cons. intuition congruence.
  - intros k' h' Hin. rewrite lookup_delete_ne; [by apply D8|]. intros <-. apply Hnin.
    rewrite !elem_of_app. right; right. apply list_elem_of_fmap. by exists (k, h').
  - intros k' st' [Hne Hk']%lookup_delete_Some. rewrite list_lookup_insert_ne by done. auto.
  - intros k' st' kd [Hne Hk']%lookup_delete_Some. eauto.
  - intros k' kd Hp. destruct (D11 k' kd Hp) as (H1 & H2 & H3). split_and!; [|done..].
    apply header_has_insert; [done|]. case_decide as E; [subst k'|done].
    destruct H1 as (h' & E' & Hf). simplify_eq. rewrite Hm, has_flag_clear, Hf. cbn. apply negb_true_iff.
    destruct (has_flag (kind_mask kd0) (kind_mask kd)) eqn:Ef; [|done].
    apply flag_of_mask in Ef as <-. destruct (D10 k st kd0 Hk); try done.
    intros Hin. apply Hnin. rewrite !elem_of_app. auto.
  - intros k' st' [Hne Hk']%lookup_delete_Some Hor. apply (D12 k' st' Hk'). set_solver.
  - intros k' st' [Hne Hk']%lookup_delete_Some Hst Hor. apply (D13 k' st' Hk' Hst). set_solver.
Qed.

(** The write of [k] completed and a flush with result [ok] was added. *)
Lemma durable_flushing hd hs k r fin f w w' st (ok : bool) pool :
  durable_with hd hs ((k, true) :: r) fin f w -> header_updates f !! k = Some st ->
  atomic_faults w' -> w_shared w' = w_shared w ->
  w_disks w' !! path = Some (mkDisk (encode crc32 (with_headers m0 hd) ++ rest)
    (encode crc32 (with_headers m0 (if ok then hd else hs)) ++ rest)) ->
  durable_with hd (if ok then hd else hs) r fin
    (mkFlusher (sync_finish (mf_channel f) k ok) (mf_metadata f) (sectors_being_updated f)
       (<[k := mkStatus (hu_buffer st) Flushing (hu_stripe_id st) (hu_header st)
                 (hu_requested_bitmask st) (hu_sector st)]> (header_updates f))
       (queued_requests f) pool) w'.
Proof using Hm0.
  intros [D1 D2 (D3 & D3' & D3'') (D4 & D4' & D4'') D5 D6 D7 D8 D9 D10 D11 D12 D13] Hk Ha' Esh Hdisk.
  cbn [fmap list_fmap app] in D6, D7.
  assert (covered hd k (hu_header st)) as Hcov by (apply (D12 k st Hk); set_solver).
  assert (forall k' kd, published w' k' kd -> published w k' kd) as Hpub by (intros k' []; cbn; by rewrite Esh).
  pose proof D6 as Hnd. apply NoDup_cons in D6 as [Hnin _]. cbn [fst] in *.
  assert (k ∉ fin.*1) as Hkfin by set_solver.
  assert (forall k' b, (k', true) ∈ r ++ sync_finished (mf_channel f) ++ [(k, b)] ->
    k' = k /\ b = true \/ k' <> k /\ (k', true) ∈ r ++ sync_finished (mf_channel f)) as Hin.
  { intros k' b. rewrite app_assoc, elem_of_app, list_elem_of_singleton. intros [Hi|[= <- <-]]; [|by left].
    right. split; [|done]. intros ->. apply Hnin. rewrite app_assoc, <- fmap_app, elem_of_app. left.
    apply list_elem_of_fmap. by exists (k, true). }
  constructor; cbn [mf_channel mf_metadata header_updates sync_finish sync_file sync_finished]; try done.
  - by destruct ok.
  - by destruct ok.
  - rewrite fmap_app. cbn. rewrite <- app_assoc. cbn. by rewrite <- !Permutation_middle.
  - intros k'. rewrite lookup_insert_is_Some, <- D7, !fmap_app. cbn.
    rewrite !elem_of_app, !elem_of_cons, !elem_of_app. cbn. rewrite elem_of_nil.
    destruct (decide (k = k')); intuition congruence.
  - intros k' h' Hi. rewrite lookup_insert_ne; [by apply D8|]. intros <-. apply Hkfin.
    apply list_elem_of_fmap. by exists (k, h').
  - intros k' st' [[<- <-]|[Hne Hk']]%lookup_insert_Some; cbn; eauto.
  - intros k' st' kd [[<- <-]|[Hne Hk']]%lookup_insert_Some Hf Hm Hp; cbn in *.
    + by apply (D10 k st kd Hk); auto.
    + by apply (D10 k' st' kd Hk'); auto.
  - intros k' kd Hp%Hpub. destruct (D11 k' kd Hp) as (? & ? & ?). by destruct ok.
  - intros k' st' [[<- <-]|[Hne Hk']]%lookup_insert_Some Hor; cbn; [done|].
    apply (D12 k' st' Hk'). destruct Hor as [|[[-> _]|[_ ?]]%Hin]; [by left|done|right]. by apply elem_of_cons; right.
  - intros k' st' [[<- <-]|[Hne Hk']]%lookup_insert_Some Hst Hor; cbn in *.
    + destruct Hor as [|[[_ ->]|[? _]]%Hin]; done.
    + destruct ok; [by apply (D12 k' st' Hk'); left|]. apply (D13 k' st' Hk' Hst).
      destruct Hor as [|[[-> _]|[_ ?]]%Hin]; [by left|done|right]. by apply elem_of_cons; right.
Qed.

(** The flush of [k] completed. *)
Lemma durable_finished hd hs k r fin f w st secs :
  durable_with hd hs ((k, true) :: r) fin f w -> header_updates f !! k = Some st ->
  hu_stage st = Flushing ->
  durable_with hd hs r (fin ++ [(k, hu_header st)])
    (mkFlusher (mf_channel f) (mf_metadata f) secs (header_updates f)
       (queued_requests f) (mf_pool f)) w.
Proof using Hm0.
  intros [D1 D2 (D3 & D3' & D3'') (D4 & D4' & D4'') D5 D6 D7 D8 D9 D10 D11 D12 D13] Hk Hst.
  cbn [fmap list_fmap app] in D6, D7.
  constructor; cbn [mf_channel mf_metadata header_updates]; try done.
  - rewrite fmap_app. cbn. by rewrite !app_assoc, <- Permutation_cons_append, <- app_assoc.
  - intros k'. rewrite <- D7, fmap_app. cbn. rewrite elem_of_cons, !elem_of_app, list_elem_of_singleton. tauto.
  - intros k' h' [Hi|[= -> ->]%list_elem_of_singleton]%elem_of_app; [by apply D8|]. eauto.
  - intros k' st' kd Hk' Hf. apply (D10 k' st' kd Hk'). rewrite fmap_app in Hf. set_solver.
  - intros k' st' Hk' Hor. apply (D12 k' st' Hk'). set_solver.
  - intros k' st' Hk' Hst' Hor. apply (D13 k' st' Hk' Hst'). rewrite fmap_app in Hor. cbn in Hor.
    set_solver.
Qed.

Lemma on_completion_durable k ok r fin newly f w f' w' fin' newly' :
  flusher_inv fin f w -> durable ((k, ok) :: r) fin f w ->
  on_completion (k, ok) (f, w, fin, newly) = Done (f', w', fin', newly') -> durable r fin' f' w'.
Proof using Hm0.
  intros I (hd & hs & D) E. unfold on_completion in E.
  destruct (proj1 (du_pend _ _ _ _ _ _ D k)) as [st Hk]; [cbn; left|]. rewrite Hk in E.
  destruct ok; cbn [negb] in E; [destruct (hu_stage st) eqn:Hst|].
  - destruct (return_buffer _ _ _) as [pool|]; [|done]. cbn [mbind outcome_bind add_flush sync_channel] in E.
    unfold sync_add_flush in E. rewrite (du_file _ _ _ _ _ _ D) in E.
    destruct (sync_all path w) as [ok w1] eqn:Es. cbn [mbind outcome_bind] in E. injection E as <- <- <- <-.
    destruct (file_sync hd hs w ok w1) as (Ha & Esh & Hd); [apply D|apply D|done|].
    exists hd, (if ok then hd else hs). by apply (durable_flushing hd hs k r fin f w w1 st ok pool).
  - injection E as <- <- <- <-. rewrite (eo_id _ _ _ _ (fi_entry _ _ _ I k st Hk)).
    exists hd, hs. by apply durable_finished.
  - destruct (clear_header_done f w fin k st I Hk) as (hs' & Ec & _ & (h & Hh & ->) & _).
    rewrite Ec in E. cbn [mbind outcome_bind] in E.
    destruct (if decide _ then _ else _) as [pool|]; [|done]. cbn [mbind outcome_bind] in E.
    injection E as <- <- <- <-. exists hd, hs. by apply durable_failed.
Qed.

Lemma completions_durable rs fin newly f w f' w' fin' newly' :
  poll_inv (f, w, fin, newly) -> durable rs fin f w ->
  for_each on_completion rs (f, w, fin, newly) = Done (f', w', fin', newly') -> durable [] fin' f' w'.
Proof using Hm0.
  revert fin newly f w. induction rs as [|[k ok] rs IH]; intros fin newly f w I D E; cbn [for_each] in E.
  { by injection E as <- <- <- <-. }
  destruct (on_completion_inv (k, ok) (f, w, fin, newly) I) as ([[[f1 w1] fin1] newly1] & E1 & I1).
  rewrite E1 in E. cbn [mbind outcome_bind] in E. apply (IH fin1 newly1 f1 w1); [done| |done].
  destruct I as [I _]. by eapply on_completion_durable.
Qed.

(** The bits a header publishes. *)
Lemma published_header w k h sh k' kd :
  set_stripe_header (w_shared w) k h = Done sh -> published (set_shared w sh) k' kd ->
  published w k' kd \/ k' = k /\ has_flag h (kind_mask kd) = true.
Proof.
  unfold set_stripe_header, mark_fetched, mark_written, index, set_index. cbn. intros E Hp.
  destruct (has_flag h FETCHED) eqn:Ef, (has_flag h WRITTEN) eqn:Ew;
    cbn [mbind outcome_bind] in E; repeat (case_match; cbn [mbind outcome_bind] in E; try done);
    simplify_eq; destruct kd; cbn in *; try (by left);
    destruct (decide (k' = k)) as [->|Hne]; try (by right);
    left; by rewrite list_lookup_insert_ne in Hp.
Qed.

Lemma finish_one_durable k h fin f w f' w' :
  flusher_inv ((k, h) :: fin) f w -> durable [] ((k, h) :: fin) f w ->
  finish_one (k, h) (f, w) = Done (f', w') -> durable [] fin f' w'.
Proof using Hm0.
  intros I (hd & hs & [D1 D2 D3 D4 D5 D6 D7 D8 D9 D10 D11 D12 D13]) E. unfold finish_one in E.
  destruct (set_stripe_header (w_shared w) k h) as [sh|] eqn:Esh; [|done]. cbn [mbind outcome_bind] in E.
  injection E as <- <-. exists hd, hs. destruct (D8 k h) as (st & Hk & Hst & <-); [left|].
  cbn [fmap list_fmap app fst] in D6, D7. rewrite <- Permutation_middle in D6.
  apply NoDup_cons in D6 as [Hnin Hnd].
  assert (forall k' st', delete k (header_updates f) !! k' = Some st' ->
    k' <> k /\ header_updates f !! k' = Some st') as Hdel by (intros k' st' [? ?]%lookup_delete_Some; auto).
  constructor; cbn [mf_channel mf_metadata header_updates w_disks set_shared]; try done.
  - intros k'. destruct (decide (k = k')) as [<-|Hne].
    + rewrite lookup_delete_eq. split; [done|]. by intros [? ?].
    + rewrite lookup_delete_ne by done. rewrite <- D7. cbn. rewrite !elem_of_app, elem_of_cons. naive_solver.
  - intros k' h' Hi. rewrite lookup_delete_ne; [apply D8; by right|]. intros <-. apply Hnin.
    rewrite elem_of_app. right. apply list_elem_of_fmap. by exists (k, h').
  - intros k' st' [_ Hk']%Hdel. auto.
  - intros k' st' kd [Hne Hk']%Hdel Hf Hm [Hp|[? _]]%(published_header _ _ _ _ _ _ Esh); [|done].
    apply (D10 k' st' kd Hk'); try done. cbn. set_solver.
  - intros k' kd [Hp|[-> Hf]]%(published_header _ _ _ _ _ _ Esh); [by apply D11|]. split_and!.
    + exists (hu_header st). auto.
    + apply (D12 k st Hk); auto.
    + apply (D13 k st Hk Hst); [left; left|done].
  - intros k' st' [Hne Hk']%Hdel. auto.
  - intros k' st' [Hne Hk']%Hdel Hst' Hor. apply (D13 k' st' Hk' Hst'). cbn. set_solver.
Qed.

Lemma finish_all_durable fin f w f' w' :
  flusher_inv fin f w -> durable [] fin f w -> for_each finish_one fin (f, w) = Done (f', w') ->
  durable [] [] f' w'.
Proof using Hm0.
  revert f w. induction fin as [|[k h] fin IH]; intros f w I D E; cbn [for_each] in E.
  { by injection E as <- <-. }
  destruct (finish_one_inv fin k h f w I) as (f1 & w1 & E1 & I1 & _).
  rewrite E1 in E. cbn [mbind outcome_bind] in E. apply (IH f1 w1); [done| |done].
  by eapply finish_one_durable.
Qed.

Lemma poll_channel_durable f w f' w' :
  flusher_inv [] f w -> durable [] [] f w -> poll_channel f w = Done (f', w') -> durable [] [] f' w'.
Proof using Hm0.
  intros I (hd & hs & D) E. unfold poll_channel in E. cbn [poll sync_channel mbind outcome_bind] in E.
  set (ch := mkSyncCh (sync_file (mf_channel f)) (sync_writable (mf_channel f)) []) in *.
  assert (durable (sync_finished (mf_channel f)) [] (with_channel ch f) w) as D1.
  { exists hd, hs. destruct D as [D1 D2 D3 D4 D5 D6 D7 D8 D9 D10 D11 D12 D13].
    constructor; cbn in *; rewrite ?app_nil_r in *; try done; intros *; rewrite ?app_nil_r; auto. }
  assert (poll_inv (with_channel ch f, w, [], [])) as I1.
  { split; [by apply (flusher_inv_frame [] f w w)|]. by intros k st Hk%elem_of_nil. }
  destruct (for_each_total poll_inv on_completion (sync_finished (mf_channel f)) (with_channel ch f, w, [], []))
    as ([[[f2 w2] fin] newly] & E2 & I2); [intros; by apply on_completion_inv|done|].
  rewrite E2 in E. cbn [mbind outcome_bind] in E.
  pose proof (completions_durable _ _ _ _ _ _ _ _ _ I1 D1 E2) as D2. destruct I2 as [I2 _].
  destruct (finish_all_inv fin f2 w2 I2) as (f3 & w3 & E3 & I3 & _). rewrite E3 in E.
  cbn [mbind outcome_bind] in E. pose proof (finish_all_durable fin f2 w2 f3 w3 I2 D2 E3) as D3.
  case_bool_decide; [by injection E as <- <-|]. cbn [submit sync_channel mbind outcome_bind] in E.
  injection E as <- <-. destruct D3 as (hd3 & hs3 & D3). exists hd3, hs3. by destruct f3.
Qed.

Lemma start_writes_loop_durable fuel f w newly f' w' newly' :
  flusher_inv [] f w -> durable [] [] f w ->
  start_writes_loop crc32 fuel f w newly = Done (f', w', newly') -> durable [] [] f' w'.
Proof using Hm0.
  revert f w newly. induction fuel as [|fuel IH]; intros f w newly I D E; cbn [start_writes_loop] in E;
    (destruct (has_available (mf_pool f)) eqn:Ha; cbn [negb] in E; [|by injection E as <- <- <-]);
    (destruct (queued_requests f) as [|req rst] eqn:Hq; [by injection E as <- <- <-|]); [done|].
  case_bool_decide as Hsec; [by injection E as <- <- <-|].
  destruct (index (headers f) (req_stripe_id req)) as [h|] eqn:Hi; [|done]. cbn [mbind outcome_bind] in E.
  assert (headers f !! req_stripe_id req = Some h) as Hh
    by (by apply index_inv).
  destruct (has_flag h _) eqn:Hfl.
  - eapply IH; [by eapply skip_request_inv| |exact E]. destruct D as (hd & hs & D). exists hd, hs. by destruct D.
  - destruct (start_one_inv crc32 req rst f w I Hq Ha Hsec) as (f1 & w1 & E1 & I1 & _).
    rewrite E1 in E. cbn [mbind outcome_bind] in E. eapply IH; [exact I1| |exact E].
    by apply (start_one_durable req rst f w f1 w1 h).
Qed.

Lemma flusher_update_durable f w f' w' :
  flusher_inv [] f w -> durable [] [] f w -> flusher_update crc32 f w = Done (f', w') -> durable [] [] f' w'.
Proof using Hm0.
  intros I D E. unfold flusher_update in E.
  destruct (start_writes_inv crc32 f w I) as (f1 & w1 & E1 & I1). rewrite E1 in E. cbn [mbind outcome_bind] in E.
  apply (poll_channel_durable f1 w1); [done| |done]. clear E I1. unfold start_writes in E1.
  destruct (start_writes_loop crc32 _ f w []) as [[[f2 w2] newly]|] eqn:E2; [|done].
  cbn [mbind outcome_bind] in E1. pose proof (start_writes_loop_durable _ _ _ _ _ _ _ I D E2) as D2.
  case_bool_decide; [by injection E1 as <- <-|]. cbn [submit sync_channel mbind outcome_bind] in E1.
  injection E1 as <- <-. destruct D2 as (hd & hs & D2). exists hd, hs. by destruct f2.
Qed.

(** Steps of the flusher and of a world in which only the flusher writes the
    metadata file and publishes stripe bits. *)
Inductive metadata_step : flusher * World -> flusher * World -> Prop :=
| ms_enqueue f w q : req_ok f w q -> metadata_step (f, w) (enqueue q f, w)
| ms_update f w f' w' : flusher_update crc32 f w = Done (f', w') -> metadata_step (f, w) (f', w')
| ms_environment f w w' :
    environment w w' -> w_disks w' !! path = w_disks w !! path -> atomic_faults w' ->
    (forall k kd, published w' k kd -> published w k kd) -> metadata_step (f, w) (f, w').

Lemma metadata_step_durable s s' :
  metadata_step s s' -> flusher_inv [] s.1 s.2 -> durable [] [] s.1 s.2 ->
  flusher_inv [] s'.1 s'.2 /\ durable [] [] s'.1 s'.2.
Proof using Hm0.
  intros Hs I D. destruct Hs as [f w q Hq|f w f' w' E|f w w' He Hd Ha Hp]; cbn [fst snd] in *.
  - split; [by apply enqueue_inv|]. destruct D as (hd & hs & D). exists hd, hs. by destruct D.
  - split; [|by eapply flusher_update_durable].
    destruct (flusher_update_inv crc32 f w I) as (f1 & w1 & E1 & I1). rewrite E in E1. by simplify_eq.
  - split; [by eapply environment_inv|]. destruct D as (hd & hs & D). exists hd, hs.
    destruct D as [D1 D2 D3 D4 D5 D6 D7 D8 D9 D10 D11 D12 D13].
    constructor; try done; [by rewrite Hd| |by eauto].
    intros k st kd Hk Hn Hm Hk'%Hp. by apply (D10 k st kd).
Qed.

Lemma metadata_steps_durable s s' :
  rtc metadata_step s s' -> flusher_inv [] s.1 s.2 -> durable [] [] s.1 s.2 -> durable [] [] s'.1 s'.2.
Proof using Hm0.
  induction 1 as [|x y z Hxy _ IH]; [done|]. intros I D.
  destruct (metadata_step_durable x y Hxy I D) as [I' D']. auto.
Qed.
End durability.

Lemma published_initial m w k kd :
  w_shared w = new_shared m -> published w k kd -> header_has (stripe_headers m) k kd.
Proof.
  intros E. destruct (new_shared_states m) as (Ef & Ew & _). unfold published, header_has. rewrite E.
  destruct kd; rewrite ?Ef, ?Ew;
    [change (map initial_fetch_state (stripe_headers m)) with (initial_fetch_state <$> stripe_headers m)
    |change (map initial_write_state (stripe_headers m)) with (initial_write_state <$> stripe_headers m)];
    rewrite list_lookup_fmap; intros (h & -> & Hh)%fmap_Some; exists h; (split; [done|]).
  - unfold initial_fetch_state in Hh. cbn. destruct (has_flag h HAS_SOURCE), (has_flag h FETCHED); done.
  - unfold initial_write_state in Hh. cbn. destruct (has_flag h WRITTEN); done.
Qed.

(** A flusher opened on a saved image. *)
Lemma flusher_new_sync crc32 m path n rounds ssc w dsk :
  metadata_wf m -> (metadata_size m <= n * SECTOR_SIZE)%nat -> Z.of_nat n <= U32_MAX ->
  w_disks w !! path = Some dsk -> disk_data dsk = saved_image crc32 m n -> w_faults w = [] ->
  fresh_world w -> div_ceil ssc (stripe_sector_count m) <= stripe_count m ->
  exists f w', flusher_new crc32 (S rounds) (mkSyncDev path (Z.of_nat n) false) ssc w = Done (Ok f, w') /\
    mf_metadata f = m /\ mf_channel f = mkSyncCh path true [] /\ header_updates f = ∅ /\
    w_disks w' = w_disks w /\ w_faults w' = [] /\ w_shared w' = w_shared w.
Proof.
  intros Hwf Hfit Hn Hd Hdata Hf Hfr Hc. unfold flusher_new.
  destruct (load_resolved crc32 m _ _ _ path n (sync_file_backed path n) Hwf Hfit Hn rounds w) as (w1 & E & Ed & Ef);
    [by eexists|done|unfold disk_at; by rewrite Hd|].
  cbn [create_channel sync_device sync_path sync_readonly]. rewrite Hd, E. cbn [mbind outcome_bind].
  pose proof (load_frame crc32 (S rounds) (mkSyncDev path (Z.of_nat n) false) w _ w1 Hfr E) as Hfr1.
  destruct (Z.ltb_spec (stripe_count m) (div_ceil ssc (stripe_sector_count m))); [lia|].
  destruct (new_pool_spec 4096 MAX_CONCURRENT_CHANGES SECTOR_SIZE w1)
    as (p & w2 & -> & Hf2 & _ & _ & _ & _ & Ed2 & Ef2); [done|by apply Hfr1|].
  cbn [mbind outcome_bind]. do 2 eexists. split_and!; [done..| | |]; try congruence.
  destruct Hfr1 as (_ & _ & _ & <- & _), Hf2 as (_ & _ & _ & <- & _). done.
Qed.

(** C2: published stripe bits are durable.  On a synchronous metadata device
    whose sector writes are atomic and may fail at any time, in every reachable
    state the stable contents of the device decode to metadata in which every
    stripe that the shared state shows as fetched (or written) carries the
    FETCHED (or WRITTEN) flag; so no crash loses a bit that other threads have
    acted upon. *)
Theorem flusher_durable crc32 m path n rounds ssc w0 f0 w1 f w :
  metadata_wf m -> Forall header_ok (stripe_headers m) ->
  (metadata_size m <= n * SECTOR_SIZE)%nat -> Z.of_nat n <= U32_MAX ->
  w_disks w0 !! path = Some (mkDisk (saved_image crc32 m n) (saved_image crc32 m n)) ->
  w_faults w0 = [] -> fresh_world w0 -> w_shared w0 = new_shared m ->
  div_ceil ssc (stripe_sector_count m) <= stripe_count m ->
  flusher_new crc32 (S rounds) (mkSyncDev path (Z.of_nat n) false) ssc w0 = Done (Ok f0, w1) ->
  rtc (metadata_step crc32 path) (f0, w1) (f, w) ->
  exists m', from_bytes crc32 (disk_synced (disk_at w path)) = Done (Ok m') /\
    forall k kd, published w k kd -> header_has (stripe_headers m') k kd.
Proof.
  intros Hwf Hok Hfit Hn Hd Hfl Hfr Hsh Hc Hnew Hsteps.
  destruct (flusher_new_sync crc32 m path n rounds ssc w0 _ Hwf Hfit Hn Hd eq_refl Hfl Hfr Hc)
    as (f1 & w2 & E & Em & Ech & Eu & Ed & Ef & Es). rewrite E in Hnew. injection Hnew as -> ->.
  assert (flusher_inv [] f0 w1) as I by (apply (flusher_new_inv crc32 _ _ _ _ _ _ Hfr E); by rewrite Em).
  set (rest := replicate (n * SECTOR_SIZE - metadata_size m) 0).
  assert (durable crc32 m path rest [] [] f0 w1) as D.
  { assert (with_headers m (stripe_headers m) = m) as Eid by (by destruct m).
    exists (stripe_headers m), (stripe_headers m).
    constructor; rewrite ?Em, ?Ech, ?Eu, ?Ef, ?Eid; cbn; try done.
    - by rewrite Ed.
    - by split_and!; apply Hwf.
    - unfold atomic_faults. by rewrite Ef.
    - constructor.
    - intros k. rewrite lookup_empty. split; [by intros ?%elem_of_nil|by intros [? ?]].
    - by intros k h Hk%elem_of_nil.
    - intros k kd Hp. enough (header_has (stripe_headers m) k kd) by done.
      apply (published_initial m w1); congruence. }
  destruct (metadata_steps_durable crc32 m path rest Hwf _ _ Hsteps I D) as (hd & hs & [D1 _ D3 D4 _ _ _ _ _ _ D11 _ _]).
  cbn [fst snd] in *. exists (with_headers m hs). split; [|intros k kd Hp; by apply D11].
  unfold disk_at. rewrite D1. cbn [default disk_synced id]. apply from_bytes_encode.
  - apply encode_wf; [done|apply D3|apply D4].
  - unfold rest. rewrite length_replicate. unfold metadata_size.
    replace (n * SECTOR_SIZE - (SECTOR_SIZE + stripe_header_sector_count m * SECTOR_SIZE))%nat
      with ((n - 1 - stripe_header_sector_count m) * SECTOR_SIZE)%nat by (rewrite !Nat.mul_sub_distr_r; lia).
    apply Nat.Div0.mod_mul.
Qed.

Lemma update_mstep crc32 path (s s' : demo_state) :
  flusher_update crc32 s.1 s.2 = Done s' -> metadata_step crc32 path s s'.
Proof. destruct s, s'. apply ms_update. Qed.

Lemma enqueue_mstep crc32 path (s : demo_state) r :
  req_ok s.1 s.2 r -> metadata_step crc32 path s (enqueue r s.1, s.2).
Proof. destruct s. apply ms_enqueue. Qed.

Lemma demo_msteps : rtc (metadata_step crc32_ieee 7) (demo_open.1, demo_open.2) (demo_end.1, demo_end.2).
Proof.
  rewrite <- !surjective_pairing. destruct demo_updates as [E1 E2].
  apply rtc_l with demo_request; [apply (enqueue_mstep _ _ _ _ demo_request_ok)|].
  apply rtc_l with (demo_update demo_request); [by apply update_mstep|].
  apply rtc_once. by apply update_mstep.
Qed.

(** After two updates stripe 1 is published, hence durable. *)
Lemma flusher_durable_witness :
  published demo_end.2 1 ReqSetFetched /\
  exists m', from_bytes crc32_ieee (disk_synced (disk_at demo_end.2 7)) = Done (Ok m') /\
    forall k kd, published demo_end.2 k kd -> header_has (stripe_headers m') k kd.
Proof.
  split; [vm_compute; reflexivity|].
  apply (flusher_durable crc32_ieee demo_meta 7 3 0 4096 demo_world demo_open.1 demo_open.2 demo_end.1 demo_end.2).
  - exact demo_meta_wf.
  - exact demo_headers_ok.
  - apply Nat.leb_le. vm_compute. reflexivity.
  - unfold U32_MAX; lia.
  - vm_compute. reflexivity.
  - vm_compute. reflexivity.
  - exact demo_fresh.
  - vm_compute. reflexivity.
  - vm_compute. discriminate.
  - exact demo_opens.
  - exact demo_msteps.
Defined.
