(* ===== verification/StripeSource.v ===== *)
(** * StripeSource: where stripes come from

    Models src/src/stripe_source/mod.rs (the [StripeSource] trait), bdev.rs,
    flaky.rs and wait.rs.  [SourceSafe] and [SourceContract] are the promises
    the stripe fetcher relies on, in the style of [ChannelSafe] and
    [ChannelContract]; [ChannelReliable] singles out the channels whose
    [submit] cannot fail. *)
From S2P Require Import Prelude Metadata SharedState World Device.

(** ** The trait *)

Class StripeSource (S : Type) := {
  ss_request : nat -> nat -> S -> World -> outcome (result unit * S * World);
  ss_poll : S -> World -> outcome (list (nat * bool) * S * World);
  ss_busy : S -> bool;
  ss_sector_count : S -> Z;
  has_stripe : S -> nat -> bool;
}.

(** A buffer of [ss_stripe_sectors] sectors is large enough for any stripe. *)
Class SourceSafe (S : Type) `{StripeSource S} := {
  ss_inv : S -> World -> Prop;
  ss_stripe_sectors : S -> Z;
  ss_inv_stable s w w' : stable w w' -> ss_inv s w -> ss_inv s w';
  ss_request_safe id b s w : ss_inv s w -> holds w b (ss_stripe_sectors s) ->
    exists r s' w', ss_request id b s w = Done (r, s', w') /\ frame w w' /\ ss_inv s' w' /\
      ss_stripe_sectors s' = ss_stripe_sectors s;
  ss_poll_safe s w : ss_inv s w ->
    exists rs s' w', ss_poll s w = Done (rs, s', w') /\ frame w w' /\ ss_inv s' w' /\
      ss_stripe_sectors s' = ss_stripe_sectors s;
}.

(** An accepted request is reported exactly once, a refused one never.  Sources
    key their requests by stripe, so this is promised for a stripe that is not
    already requested. *)
Class SourceContract (S : Type) `{StripeSource S} := {
  ss_outstanding : S -> list nat;
  ss_request_out id b s w r s' w' : id ∉ ss_outstanding s -> ss_request id b s w = Done (r, s', w') ->
    ss_outstanding s' ≡ₚ (if is_ok r then [id] else []) ++ ss_outstanding s;
  ss_poll_out s w rs s' w' : ss_poll s w = Done (rs, s', w') ->
    ss_outstanding s ≡ₚ rs.*1 ++ ss_outstanding s';
}.

Class ChannelReliable (C : Type) `{IoChannel C} := {
  submit_ok c w r c' w' : submit c w = Done (r, c', w') -> r = Ok tt;
}.
#[global] Instance null_reliable : ChannelReliable NullIoChannel.
Proof. constructor. cbn. intros; by simplify_eq. Qed.
#[global] Instance sync_reliable : ChannelReliable SyncIoChannel.
Proof. constructor. cbn. intros; by simplify_eq. Qed.

(** A new channel has nothing outstanding. *)
Class DeviceContract (D C : Type) `{BlockDevice D C} `{ChannelContract C} := {
  create_channel_out (d : D) w c : create_channel d w = Ok c -> outstanding c = [];
}.
#[global] Instance null_device_contract : DeviceContract NullBlockDevice NullIoChannel.
Proof. constructor. cbn. intros; by simplify_eq. Qed.
#[global] Instance sync_device_contract : DeviceContract SyncBlockDevice SyncIoChannel.
Proof. constructor. cbn. intros d w c E. case_match; by simplify_eq. Qed.

(** A [Box<dyn StripeSource>] that may hold one of two sources. *)
#[global] Instance sum_source {S T} `{StripeSource S} `{StripeSource T} : StripeSource (S + T) := {
  ss_request id b s w :=
    match s with
    | inl s => '(r, s, w) ← ss_request id b s w; Done (r, inl s, w)
    | inr t => '(r, t, w) ← ss_request id b t w; Done (r, inr t, w)
    end;
  ss_poll s w :=
    match s with
    | inl s => '(rs, s, w) ← ss_poll s w; Done (rs, inl s, w)
    | inr t => '(rs, t, w) ← ss_poll t w; Done (rs, inr t, w)
    end;
  ss_busy s := match s with inl s => ss_busy s | inr t => ss_busy t end;
  ss_sector_count s := match s with inl s => ss_sector_count s | inr t => ss_sector_count t end;
  has_stripe s := match s with inl s => has_stripe s | inr t => has_stripe t end;
}.

(** ** Stripes of a block device *)

Record BlockDeviceStripeSource (C : Type) := mkBdevSource {
  bs_channel : C;
  bs_stripe_sector_count : Z;
  bs_source_sector_count : Z;
}.
Arguments mkBdevSource {C}.
Arguments bs_channel {C}.
Arguments bs_stripe_sector_count {C}.
Arguments bs_source_sector_count {C}.

Section bdev_source.
Context {C : Type} `{IoChannel C}.

Definition bdev_source_new {D} `{BlockDevice D C} (device : D) (stripe_sector_count : Z) (w : World)
  : result (BlockDeviceStripeSource C) :=
  match create_channel device w with
  | Err e => Err e
  | Ok ch => Ok (mkBdevSource ch stripe_sector_count (sector_count device))
  end.

Definition bdev_request (stripe_id buffer : nat) (s : BlockDeviceStripeSource C) (w : World)
  : outcome (result unit * BlockDeviceStripeSource C * World) :=
  let offset := wrap64 (Z.of_nat stripe_id * bs_stripe_sector_count s) in
  if bs_source_sector_count s <=? offset then Done (Err InvalidParameter, s, w) else
  let count := bs_stripe_sector_count s `min` (bs_source_sector_count s - offset) in
  '(ch, w) ← add_read offset (wrap32 count) buffer stripe_id (bs_channel s) w;
  '(r, ch, w) ← submit ch w;
  Done (r, mkBdevSource ch (bs_stripe_sector_count s) (bs_source_sector_count s), w).

Definition bdev_poll (s : BlockDeviceStripeSource C) (w : World)
  : outcome (list (nat * bool) * BlockDeviceStripeSource C * World) :=
  '(rs, ch, w) ← poll (bs_channel s) w;
  Done (rs, mkBdevSource ch (bs_stripe_sector_count s) (bs_source_sector_count s), w).

Definition bdev_has_stripe (s : BlockDeviceStripeSource C) (stripe_id : nat) : bool :=
  wrap64 (Z.of_nat stripe_id * bs_stripe_sector_count s) <? bs_source_sector_count s.

#[global] Instance bdev_source : StripeSource (BlockDeviceStripeSource C) := {
  ss_request := bdev_request;
  ss_poll := bdev_poll;
  ss_busy s := busy (bs_channel s);
  ss_sector_count := bs_source_sector_count;
  has_stripe := bdev_has_stripe;
}.
End bdev_source.

(** ** Flaky source *)

Record FlakyStripeSource (S : Type) := mkFlaky {
  fl_inner : S;
  remaining_failures : gmap nat nat;
}.
Arguments mkFlaky {S}.
Arguments fl_inner {S}.
Arguments remaining_failures {S}.

Section flaky.
Context {S : Type} `{StripeSource S}.

Definition flaky_new (inner : S) (failures : list (nat * nat)) : FlakyStripeSource S :=
  mkFlaky inner
    (foldl (fun m '(stripe_id, count) => <[stripe_id := (default 0%nat (m !! stripe_id) + count)%nat]> m)
       ∅ failures).

(** The closure mapped over the completions of the inner source. *)
Definition flaky_filter (rem : gmap nat nat) (c : nat * bool) : (nat * bool) * gmap nat nat :=
  let '(stripe_id, success) := c in
  match rem !! stripe_id with
  | Some (Datatypes.S n) =>
      ((stripe_id, false),
       if decide (n = 0%nat) then delete stripe_id rem else <[stripe_id := n]> rem)
  | _ => ((stripe_id, success), rem)
  end.

Fixpoint flaky_map (rem : gmap nat nat) (cs : list (nat * bool)) : list (nat * bool) * gmap nat nat :=
  match cs with
  | [] => ([], rem)
  | c :: cs' =>
      let '(c', rem) := flaky_filter rem c in
      let '(cs'', rem) := flaky_map rem cs' in
      (c' :: cs'', rem)
  end.

#[global] Instance flaky_source : StripeSource (FlakyStripeSource S) := {
  ss_request id b s w :=
    '(r, inner, w) ← ss_request id b (fl_inner s) w;
    Done (r, mkFlaky inner (remaining_failures s), w);
  ss_poll s w :=
    '(rs, inner, w) ← ss_poll (fl_inner s) w;
    let '(rs, rem) := flaky_map (remaining_failures s) rs in
    Done (rs, mkFlaky inner rem, w);
  ss_busy s := ss_busy (fl_inner s);
  ss_sector_count s := ss_sector_count (fl_inner s);
  has_stripe s := has_stripe (fl_inner s);
}.

(** ** [wait_for_stripe]: [rounds] is the number of polls before the timeout,
    after the first. *)
Fixpoint wait_for_stripe (rounds : nat) (stripe_id : nat) (s : S) (w : World)
  : outcome (result unit * S * World) :=
  '(rs, s, w) ← ss_poll s w;
  match scan_completions stripe_id rs with
  | Some true => Done (Ok tt, s, w)
  | Some false => Done (Err (StripeFetchFailed stripe_id), s, w)
  | None =>
      match rounds with
      | O => Done (Err (StripeFetchTimeout stripe_id), s, w)
      | Datatypes.S rounds => wait_for_stripe rounds stripe_id s w
      end
  end.
End flaky.

(** ** The sources keep their promises *)

#[local] Obligation Tactic := idtac.

Lemma holds_le w b n n' : holds w b n -> n' <= n -> holds w b n'.
Proof. intros [Hd Hl] Hn. split; [done|]. assert (Z.to_nat n' <= Z.to_nat n)%nat by lia. nia. Qed.

Lemma wrap32_le z : 0 <= z -> 0 <= wrap32 z <= z.
Proof.
  intros. unfold wrap32. pose proof (Z.mod_pos_bound z (2 ^ 32) ltac:(lia)).
  pose proof (Z.mod_le z (2 ^ 32) H ltac:(lia)). lia.
Qed.

Section bdev_source_proofs.
Context {C : Type} `{ChannelSafe C}.

#[global] Program Instance bdev_source_safe : SourceSafe (BlockDeviceStripeSource C) := {
  ss_inv s w := ch_inv (bs_channel s) w /\ 0 <= bs_stripe_sector_count s;
  ss_stripe_sectors s := bs_stripe_sector_count s;
}.
Next Obligation. intros s w w' Hs [Hi ?]. split; [by eapply ch_inv_stable|done]. Qed.
Next Obligation.
  intros id b s w [Hi Hn] Hh. cbn. unfold bdev_request. case_match eqn:E.
  { do 3 eexists; by split_and!. }
  apply Z.leb_gt in E. set (count := _ `min` _).
  destruct (add_read_safe (wrap64 (Z.of_nat id * bs_stripe_sector_count s)) (wrap32 count) b id
    (bs_channel s) w Hi) as (c1 & w1 & -> & Hf1 & Hi1).
  { eapply holds_le; [exact Hh|]. pose proof (wrap32_le count ltac:(lia)). lia. }
  cbn [mbind outcome_bind]. destruct (submit_safe c1 w1 Hi1) as (r & c2 & w2 & -> & Hf2 & Hi2).
  do 3 eexists; split_and!; [done|by etransitivity|done..].
Qed.
Next Obligation.
  intros s w [Hi Hn]. cbn. unfold bdev_poll. destruct (poll_safe (bs_channel s) w Hi) as (rs & c & w1 & -> & Hf & Hi1).
  do 3 eexists; by split_and!.
Qed.
End bdev_source_proofs.

Section bdev_source_contract.
Context {C : Type} `{ChannelContract C} `{!ChannelReliable C}.

#[global] Program Instance bdev_source_contract : SourceContract (BlockDeviceStripeSource C) := {
  ss_outstanding s := outstanding (bs_channel s);
}.
Next Obligation.
  intros id b s w r s' w' _. cbn. unfold bdev_request. case_match; [intros; by simplify_eq|].
  intros E. destruct (add_read _ _ _ _ _ _) as [[c1 w1]|] eqn:E1; [|done]. cbn [mbind outcome_bind] in E.
  destruct (submit c1 w1) as [[[r2 c2] w2]|] eqn:E2; [|done]. cbn [mbind outcome_bind] in E. simplify_eq.
  rewrite (submit_ok _ _ _ _ _ E2). cbn. rewrite (submit_out _ _ _ _ _ E2). by rewrite (add_read_out _ _ _ _ _ _ _ _ E1).
Qed.
Next Obligation.
  intros s w rs s' w'. cbn. unfold bdev_poll. intros E.
  destruct (poll (bs_channel s) w) as [[[rs1 c1] w1]|] eqn:E1; [|done]. cbn [mbind outcome_bind] in E. simplify_eq.
  apply (poll_out _ _ _ _ _ E1).
Qed.
End bdev_source_contract.

Section sum_source_proofs.
Context {S T : Type} `{SourceSafe S} `{SourceSafe T}.

#[global] Program Instance sum_source_safe : SourceSafe (S + T) := {
  ss_inv s w := match s with inl s => ss_inv s w | inr t => ss_inv t w end;
  ss_stripe_sectors s := match s with inl s => ss_stripe_sectors s | inr t => ss_stripe_sectors t end;
}.
Next Obligation. intros [s|t] w w' Hs; by apply ss_inv_stable. Qed.
Next Obligation.
  intros id b [s|t] w Hi Hh; cbn;
    destruct (ss_request_safe id b _ w Hi Hh) as (r & s' & w' & -> & ? & ? & ?); do 3 eexists; by split_and!.
Qed.
Next Obligation.
  intros [s|t] w Hi; cbn;
    destruct (ss_poll_safe _ w Hi) as (r & s' & w' & -> & ? & ? & ?); do 3 eexists; by split_and!.
Qed.
End sum_source_proofs.

#[global] Program Instance sum_source_contract {S T} `{SourceContract S} `{SourceContract T}
  : SourceContract (S + T) := {
  ss_outstanding s := match s with inl s => ss_outstanding s | inr t => ss_outstanding t end;
}.
Next Obligation.
  intros S T ?? ?? id b [s|t] w r s' w'; cbn; intros Hn E;
    (destruct (ss_request id b _ w) as [[[r1 s1] w1]|] eqn:E1; [|done]); cbn [mbind outcome_bind] in E;
    simplify_eq; by apply (ss_request_out _ _ _ _ _ _ _ Hn E1).
Qed.
Next Obligation.
  intros S T ?? ?? [s|t] w rs s' w'; cbn; intros E;
    (destruct (ss_poll _ w) as [[[r1 s1] w1]|] eqn:E1; [|done]); cbn [mbind outcome_bind] in E;
    simplify_eq; by apply (ss_poll_out _ _ _ _ _ E1).
Qed.

Lemma flaky_map_ids rem cs : (flaky_map rem cs).1.*1 = cs.*1.
Proof.
  revert rem. induction cs as [|[id ok] cs IH]; intros rem; [done|].
  cbn [flaky_map fmap list_fmap fst].
  destruct (flaky_filter rem (id, ok)) as [c rem1] eqn:E1.
  assert (c.1 = id) as <- by (cbn in E1; destruct (rem !! id) as [[|n]|]; by simplify_eq/=).
  specialize (IH rem1). destruct (flaky_map rem1 cs) as [rs rem']. cbn [fst fmap list_fmap] in *. by rewrite IH.
Qed.

#[global] Program Instance flaky_source_safe {S} `{SourceSafe S} : SourceSafe (FlakyStripeSource S) := {
  ss_inv s w := ss_inv (fl_inner s) w;
  ss_stripe_sectors s := ss_stripe_sectors (fl_inner s);
}.
Next Obligation. intros S ?? s w w' Hs. by apply ss_inv_stable. Qed.
Next Obligation.
  intros S ?? id b s w Hi Hh; cbn.
  destruct (ss_request_safe id b _ w Hi Hh) as (r & s' & w' & -> & ? & ? & ?); do 3 eexists; by split_and!.
Qed.
Next Obligation.
  intros S ?? s w Hi; cbn. destruct (ss_poll_safe _ w Hi) as (r & s' & w' & -> & ? & ? & ?).
  cbn [mbind outcome_bind]. destruct (flaky_map _ _). do 3 eexists; by split_and!.
Qed.

#[global] Program Instance flaky_source_contract {S} `{SourceContract S} : SourceContract (FlakyStripeSource S) := {
  ss_outstanding s := ss_outstanding (fl_inner s);
}.
Next Obligation.
  intros S ?? id b s w r s' w'; cbn; intros Hn E.
  destruct (ss_request id b _ w) as [[[r1 s1] w1]|] eqn:E1; [|done]. cbn [mbind outcome_bind] in E.
  simplify_eq. by apply (ss_request_out _ _ _ _ _ _ _ Hn E1).
Qed.
Next Obligation.
  intros S ?? s w rs s' w'; cbn; intros E.
  destruct (ss_poll _ w) as [[[r1 s1] w1]|] eqn:E1; [|done]. cbn [mbind outcome_bind] in E.
  pose proof (flaky_map_ids (remaining_failures s) r1) as Hids.
  destruct (flaky_map _ r1) as [rs' rem']. simplify_eq/=. rewrite Hids. by apply (ss_poll_out _ _ _ _ _ E1).
Qed.

(** ** What the flaky source does *)

(** How many times stripe [id] occurs in a list of completions. *)
Definition occurrences (id : nat) (cs : list (nat * bool)) : nat := length (filter (fun c => c.1 = id) cs).

Lemma occurrences_cons id c cs :
  occurrences id (c :: cs) = ((if decide (c.1 = id) then 1 else 0) + occurrences id cs)%nat.
Proof. unfold occurrences. rewrite filter_cons. by case_decide. Qed.

Definition failures_left (rem : gmap nat nat) (id : nat) : nat := default 0%nat (rem !! id).

Lemma flaky_filter_spec rem id ok c' rem' :
  flaky_filter rem (id, ok) = (c', rem') ->
  c' = (id, ok && bool_decide (failures_left rem id = 0%nat)) /\
  forall j, failures_left rem' j = (failures_left rem j - if decide (j = id) then 1 else 0)%nat.
Proof.
  unfold flaky_filter, failures_left. intros E.
  destruct (rem !! id) as [[|n]|] eqn:Hr; simplify_eq/=; rewrite ?andb_true_r, ?andb_false_r;
    (split; [done|]); intros j; destruct (decide (j = id)) as [->|Hj]; try lia; rewrite ?Hr; cbn; try lia.
  - case_decide; [subst; rewrite lookup_delete_eq|rewrite lookup_insert_eq]; cbn; lia.
  - case_decide; [rewrite lookup_delete_ne by done|rewrite lookup_insert_ne by done]; lia.
Qed.

Lemma flaky_map_spec rem cs rs rem' :
  flaky_map rem cs = (rs, rem') ->
  length rs = length cs /\
  (forall i id ok, cs !! i = Some (id, ok) ->
     rs !! i = Some (id, ok && bool_decide (failures_left rem id <= occurrences id (take i cs))%nat)) /\
  (forall id, failures_left rem' id = failures_left rem id - occurrences id cs)%nat.
Proof.
  revert rem rs rem'. induction cs as [|[id0 ok0] cs IH]; intros rem rs rem' E; cbn [flaky_map] in E.
  { simplify_eq/=. split_and!; try done. intros id. cbn. lia. }
  destruct (flaky_filter rem (id0, ok0)) as [c' rem1] eqn:E1. destruct (flaky_map rem1 cs) as [cs' rem2] eqn:E2.
  injection E as <- <-. destruct (flaky_filter_spec _ _ _ _ _ E1) as [-> H1].
  destruct (IH _ _ _ E2) as (Hl & Hi & Hr). split_and!; [by cbn; rewrite Hl| |].
  - intros [|i] id ok Hc.
    + cbn in Hc. simplify_eq. cbn. do 3 f_equal. apply bool_decide_ext. unfold occurrences; cbn. lia.
    + refine (eq_trans (Hi i id ok Hc) _). do 3 f_equal. apply bool_decide_ext. rewrite H1. cbn [take].
      rewrite occurrences_cons. cbn [fst]. repeat case_decide; try congruence; lia.
  - intros id. rewrite Hr, H1, occurrences_cons. cbn [fst]. repeat case_decide; try congruence; lia.
Qed.

(** The failures configured for a stripe add up. *)
Lemma flaky_new_total {S} (inner : S) fs id :
  failures_left (remaining_failures (flaky_new inner fs)) id =
  foldr (fun c n => ((if decide (c.1 = id) then c.2 else 0) + n)%nat) 0%nat fs.
Proof.
  unfold flaky_new. cbn [remaining_failures].
  assert (forall m, failures_left (foldl (fun m '(stripe_id, count) =>
      <[stripe_id := (default 0%nat (m !! stripe_id) + count)%nat]> m) m fs) id =
    (failures_left m id + foldr (fun c n => ((if decide (c.1 = id) then c.2 else 0) + n)%nat) 0%nat fs)%nat) as Hg.
  { induction fs as [|[i c] fs IH]; intros m; cbn [foldl foldr fst snd]; [lia|]. rewrite IH.
    unfold failures_left at 1. case_decide as E; [subst; rewrite lookup_insert_eq|rewrite lookup_insert_ne by done];
      unfold failures_left; cbn; lia. }
  rewrite Hg. done.
Qed.

(** The flaky source fails each stripe exactly as often as configured: the
    completion of a stripe is turned into a failure as long as fewer than the
    configured number of its completions have been seen, and passes through
    unchanged afterwards. *)
Theorem flaky_fails_exactly {S} (inner : S) fs cs rs rem' :
  flaky_map (remaining_failures (flaky_new inner fs)) cs = (rs, rem') ->
  length rs = length cs /\
  forall i id ok, cs !! i = Some (id, ok) ->
    rs !! i = Some (id, ok &&
      bool_decide (foldr (fun c n => ((if decide (c.1 = id) then c.2 else 0) + n)%nat) 0%nat fs
                   <= occurrences id (take i cs))%nat).
Proof.
  intros E. destruct (flaky_map_spec _ _ _ _ E) as (Hl & Hi & _). split; [done|].
  intros i id ok Hc. rewrite (Hi i id ok Hc). by rewrite flaky_new_total.
Qed.

Lemma flaky_fails_exactly_witness :
  let cs := [(4, true); (5, true); (4, true); (4, true)]%nat in
  let rs := [(4, false); (5, true); (4, false); (4, true)]%nat in
  length rs = length cs /\
  forall i id ok, cs !! i = Some (id, ok) ->
    rs !! i = Some (id, ok &&
      bool_decide (foldr (fun c n => ((if decide (c.1 = id) then c.2 else 0) + n)%nat) 0%nat [(4, 1); (4, 1)]%nat
                   <= occurrences id (take i cs))%nat).
Proof. apply (flaky_fails_exactly tt [(4, 1); (4, 1)]%nat _ _ ∅). vm_compute. reflexivity. Defined.
