(* ===== verification/Fetcher.v ===== *)
(** * Fetcher: copying stripes from the source to the target (StripeFetcher)

    Models src/src/block_device/bdev_lazy/stripe_fetcher.rs for an arbitrary
    stripe source [S] and target channel [C].  A requested stripe is read from
    the source, written to the target, flushed and then reported; a failing
    step is retried up to three times.

    [fetcher_inv] accounts for every stripe: it is in exactly one of the queue,
    the source's outstanding requests and the target's outstanding requests,
    with the state the program recorded for it, and it owns a pool buffer
    exactly while it is outstanding.  The invariant needs the exactly-once
    promises of [SourceContract] and [ChannelContract] and a target channel
    whose [submit] cannot fail ([ChannelReliable]), as that of the synchronous
    device; [failed_submit_duplicates] shows what a failing one does. *)
From S2P Require Import Prelude Metadata SharedState World Device StripeSource.

Definition MAX_CONCURRENT_FETCHES : nat := 16.
Definition MAX_FETCH_RETRIES : Z := 3.

Inductive FetchState := FQueued | FFetching | FFlushing | FFetched.
#[global] Instance FetchState_eq_dec : EqDecision FetchState.
Proof. solve_decision. Defined.

(** [disconnect_from_source_if_all_fetched] swaps the boxed source for a block
    device source over the null device, hence the sum. *)
Record StripeFetcher (S C : Type) := mkFetcher {
  sf_source : S + BlockDeviceStripeSource NullIoChannel;
  sf_target : C;
  sf_source_sector_count : Z;
  sf_target_sector_count : Z;
  sf_stripe_sector_count : Z;
  fetch_queue : list nat;
  autofetch_queue : list nat;
  sf_pool : AlignedBufferPool;
  stripe_states : gmap nat FetchState;
  stripe_fetch_retries : gmap nat Z;
  allocated_buffers : gmap nat nat;
  finished_fetches : list (nat * bool);
  sf_autofetch : bool;
  disconnected : bool;
}.
Arguments mkFetcher {S C}.
Arguments sf_source {S C}.
Arguments sf_target {S C}.
Arguments sf_source_sector_count {S C}.
Arguments sf_target_sector_count {S C}.
Arguments sf_stripe_sector_count {S C}.
Arguments fetch_queue {S C}.
Arguments autofetch_queue {S C}.
Arguments sf_pool {S C}.
Arguments stripe_states {S C}.
Arguments stripe_fetch_retries {S C}.
Arguments allocated_buffers {S C}.
Arguments finished_fetches {S C}.
Arguments sf_autofetch {S C}.
Arguments disconnected {S C}.

Section fetcher.
Context {S C : Type} `{StripeSource S} `{IoChannel C}.
Implicit Types (f : StripeFetcher S C) (w : World).

(** Assignments to single fields. *)
Definition set_source f x : StripeFetcher S C := mkFetcher x (sf_target f) (sf_source_sector_count f)
  (sf_target_sector_count f) (sf_stripe_sector_count f) (fetch_queue f) (autofetch_queue f) (sf_pool f)
  (stripe_states f) (stripe_fetch_retries f) (allocated_buffers f) (finished_fetches f)
  (sf_autofetch f) (disconnected f).
Definition set_target f x : StripeFetcher S C := mkFetcher (sf_source f) x (sf_source_sector_count f)
  (sf_target_sector_count f) (sf_stripe_sector_count f) (fetch_queue f) (autofetch_queue f) (sf_pool f)
  (stripe_states f) (stripe_fetch_retries f) (allocated_buffers f) (finished_fetches f)
  (sf_autofetch f) (disconnected f).
Definition set_queues f q aq := mkFetcher (sf_source f) (sf_target f) (sf_source_sector_count f)
  (sf_target_sector_count f) (sf_stripe_sector_count f) q aq (sf_pool f)
  (stripe_states f) (stripe_fetch_retries f) (allocated_buffers f) (finished_fetches f)
  (sf_autofetch f) (disconnected f).
Definition set_buffers f p al := mkFetcher (sf_source f) (sf_target f) (sf_source_sector_count f)
  (sf_target_sector_count f) (sf_stripe_sector_count f) (fetch_queue f) (autofetch_queue f) p
  (stripe_states f) (stripe_fetch_retries f) al (finished_fetches f)
  (sf_autofetch f) (disconnected f).
Definition set_states f st re fi := mkFetcher (sf_source f) (sf_target f) (sf_source_sector_count f)
  (sf_target_sector_count f) (sf_stripe_sector_count f) (fetch_queue f) (autofetch_queue f) (sf_pool f)
  st re (allocated_buffers f) fi (sf_autofetch f) (disconnected f).
Definition set_disconnected f := mkFetcher (sf_source f) (sf_target f) (sf_source_sector_count f)
  (sf_target_sector_count f) (sf_stripe_sector_count f) (fetch_queue f) (autofetch_queue f) (sf_pool f)
  (stripe_states f) (stripe_fetch_retries f) (allocated_buffers f) (finished_fetches f)
  (sf_autofetch f) true.
Definition set_state f (id : nat) (st : FetchState) :=
  set_states f (<[id := st]> (stripe_states f)) (stripe_fetch_retries f) (finished_fetches f).

Definition fetcher_new {D} `{BlockDevice D C} (source : S) (target_dev : D) (ssc : Z)
    (alignment : Z) (autofetch : bool) (w : World) : outcome (result (StripeFetcher S C) * World) :=
  match create_channel target_dev w with
  | Err e => Done (Err e, w)
  | Ok ch =>
    match checked_mul64 ssc (Z.of_nat SECTOR_SIZE) with
    | None => Done (Err InvalidParameter, w)
    | Some stripe_size =>
      '(pool, w) ← new_pool alignment MAX_CONCURRENT_FETCHES (Z.to_nat stripe_size) w;
      let source_sector_count := ss_sector_count source in
      let target_sector_count := sector_count target_dev in
      if target_sector_count <? source_sector_count then Done (Err InvalidParameter, w) else
      let source_stripe_count := div_ceil source_sector_count ssc in
      Done (Ok (mkFetcher (inl source) ch source_sector_count target_sector_count ssc []
                  (if autofetch then seq 0 (Z.to_nat source_stripe_count) else []) pool
                  ∅ ∅ ∅ [] autofetch false), w)
    end
  end.

Definition fetcher_busy f : bool :=
  negb (bool_decide (fetch_queue f = [])) || ss_busy (sf_source f) || busy (sf_target f)
  || negb (bool_decide (finished_fetches f = [])) || negb (bool_decide (autofetch_queue f = [])).

Definition handle_fetch_request (stripe_id : nat) f w : outcome (StripeFetcher S C) :=
  needless ← stripe_fetched_if_needed (w_shared w) stripe_id;
  if needless : bool then Done f else
  match stripe_states f !! stripe_id with
  | Some _ => Done f
  | None =>
      Done (set_state (set_queues f (fetch_queue f ++ [stripe_id]) (autofetch_queue f)) stripe_id FQueued)
  end.

Definition take_finished_fetches f : list (nat * bool) * StripeFetcher S C :=
  (finished_fetches f, set_states f (stripe_states f) (stripe_fetch_retries f) []).

Definition update_autofetch f w : outcome (StripeFetcher S C) :=
  if sf_autofetch f && bool_decide (fetch_queue f = []) then
    match autofetch_queue f with
    | [] => Done f
    | id :: rest => handle_fetch_request id (set_queues f (fetch_queue f) rest) w
    end
  else Done f.

Definition disconnect_from_source_if_all_fetched f w : StripeFetcher S C :=
  if negb (disconnected f) && negb (fetcher_busy f)
     && (source_stripes (w_shared w) =? fetched_stripes (w_shared w)) then
    match bdev_source_new null_new (sf_stripe_sector_count f) w with
    | Ok source => set_disconnected (set_source f (inr source))
    | Err _ => f
    end
  else f.

Definition fetch_completed (stripe_id : nat) (success : bool) f w
  : outcome (StripeFetcher S C * World) :=
  f ← match allocated_buffers f !! stripe_id with
      | Some b =>
          pool ← return_buffer (sf_pool f) b w;
          Done (set_buffers f pool (delete stripe_id (allocated_buffers f)))
      | None => Done f
      end;
  if success then
    Done (set_states f (<[stripe_id := FFetched]> (stripe_states f))
            (delete stripe_id (stripe_fetch_retries f))
            (finished_fetches f ++ [(stripe_id, true)]), w)
  else
    let retries := default 0 (stripe_fetch_retries f !! stripe_id) in
    if retries <? MAX_FETCH_RETRIES then
      let f := set_queues f (fetch_queue f ++ [stripe_id]) (autofetch_queue f) in
      Done (set_states f (<[stripe_id := FQueued]> (stripe_states f))
              (<[stripe_id := retries + 1]> (stripe_fetch_retries f)) (finished_fetches f), w)
    else
      sh ← set_stripe_failed (w_shared w) stripe_id;
      Done (set_states f (delete stripe_id (stripe_states f))
              (delete stripe_id (stripe_fetch_retries f))
              (finished_fetches f ++ [(stripe_id, false)]), set_shared w sh).

(** One iteration of [start_fetches]. *)
Definition start_fetch (stripe_id : nat) f w : outcome (StripeFetcher S C * World) :=
  '(mb, pool) ← get_buffer (sf_pool f);
  match mb with
  | None => Panic UnwrapNone
  | Some b =>
      let f := set_buffers f pool (<[stripe_id := b]> (allocated_buffers f)) in
      '(r, source, w) ← ss_request stripe_id b (sf_source f) w;
      let f := set_source f source in
      match r with
      | Err _ => fetch_completed stripe_id false f w
      | Ok _ => Done (set_state f stripe_id FFetching, w)
      end
  end.

(** The [while] loop of [start_fetches].  A stripe that the source refuses goes
    back to the queue at most three times, so four rounds per queued stripe
    are enough. *)
Fixpoint start_fetches_loop (fuel : nat) f w : outcome (StripeFetcher S C * World) :=
  if negb (has_available (sf_pool f)) then Done (f, w) else
  match fetch_queue f with
  | [] => Done (f, w)
  | id :: rest =>
      match fuel with
      | O => Panic OutOfFuel
      | Datatypes.S fuel =>
          '(f, w) ← start_fetch id (set_queues f rest (autofetch_queue f)) w;
          start_fetches_loop fuel f w
      end
  end.

Definition start_fetches f w := start_fetches_loop (4 * length (fetch_queue f)) f w.

Definition start_write (buf stripe_id : nat) f w : outcome (bool * StripeFetcher S C * World) :=
  let offset := wrap64 (Z.of_nat stripe_id * sf_stripe_sector_count f) in
  let count := sf_stripe_sector_count f `min` wrap64 (sf_target_sector_count f - offset) in
  '(ch, w) ← add_write offset (wrap32 count) buf stripe_id (sf_target f) w;
  '(r, ch, w) ← submit ch w;
  Done (is_ok r, set_target f ch, w).

Definition start_flush (stripe_id : nat) f w : outcome (bool * StripeFetcher S C * World) :=
  '(ch, w) ← add_flush stripe_id (sf_target f) w;
  '(r, ch, w) ← submit ch w;
  Done (is_ok r, set_target f ch, w).

Definition on_source_completion (e : nat * bool) (s : StripeFetcher S C * World)
  : outcome (StripeFetcher S C * World) :=
  let '(stripe_id, success) := e in
  let '(f, w) := s in
  match allocated_buffers f !! stripe_id with
  | None => Done (f, w)
  | Some b =>
      if negb success then fetch_completed stripe_id false f w else
      '(ok, f, w) ← start_write b stripe_id f w;
      if negb ok then fetch_completed stripe_id false f w else Done (f, w)
  end.

Definition on_target_completion (e : nat * bool) (s : StripeFetcher S C * World)
  : outcome (StripeFetcher S C * World) :=
  let '(stripe_id, success) := e in
  let '(f, w) := s in
  if negb success then fetch_completed stripe_id false f w else
  match stripe_states f !! stripe_id with
  | Some FFetching =>
      '(ok, f, w) ← start_flush stripe_id f w;
      if ok : bool then Done (set_state f stripe_id FFlushing, w)
      else fetch_completed stripe_id false f w
  | Some FFlushing => fetch_completed stripe_id success f w
  | _ => Done (f, w)
  end.

Definition poll_fetches f w : outcome (StripeFetcher S C * World) :=
  '(rs, source, w) ← ss_poll (sf_source f) w;
  '(f, w) ← for_each on_source_completion rs (set_source f source, w);
  '(rs, ch, w) ← poll (sf_target f) w;
  for_each on_target_completion rs (set_target f ch, w).

(** [StripeFetcher::update]. *)
Definition fetcher_update f w : outcome (StripeFetcher S C * World) :=
  f ← update_autofetch f w;
  '(f, w) ← start_fetches f w;
  poll_fetches f w.
End fetcher.

(** ** Invariant *)

(** Field access of the record updates. *)
Ltac fields := cbn [sf_source sf_target sf_source_sector_count sf_target_sector_count
  sf_stripe_sector_count fetch_queue autofetch_queue sf_pool stripe_states stripe_fetch_retries
  allocated_buffers finished_fetches sf_autofetch disconnected set_source set_target set_queues
  set_buffers set_states set_state set_disconnected w_shared set_shared].

Section fetcher_proofs.
#[local] Set Default Proof Using "Type*".
Context {S C : Type} `{SourceSafe S} `{!SourceContract S} `{ChannelSafe C} `{!ChannelContract C}
  `{!ChannelReliable C}.
Implicit Types (f : StripeFetcher S C) (w : World) (hole ps pt : list nat).

Definition active f (id : nat) : Prop :=
  stripe_states f !! id = Some FFetching \/ stripe_states f !! id = Some FFlushing.

(** The stripe still has to be fetched, according to the shared state. *)
Definition missing w (id : nat) : Prop :=
  exists st, stripe_fetch_states (w_shared w) !! id = Some st /\ st <> Fetched /\ st <> NoSource.

(** [hole] holds the stripe whose completion is being handled; [ps] and [pt]
    are completions of the source and the target not yet handled. *)
Record fetcher_inv hole ps pt f w : Prop := {
  fv_pool : pool_wf (sf_pool f) w;
  fv_size : forall b, b ∈ pool_buffers (sf_pool f) ->
    length (read_buf w b) = (Z.to_nat (sf_stripe_sector_count f) * SECTOR_SIZE)%nat;
  fv_ssc : 0 <= sf_stripe_sector_count f;
  fv_src : ss_inv (sf_source f) w /\ ss_stripe_sectors (sf_source f) <= sf_stripe_sector_count f;
  fv_tgt : ch_inv (sf_target f) w;
  fv_shared : shared_wf (w_shared w);
  fv_queue_nodup : NoDup (fetch_queue f);
  fv_queue : forall id, id ∈ fetch_queue f <-> stripe_states f !! id = Some FQueued;
  fv_out_nodup : NoDup (hole ++ (ps ++ ss_outstanding (sf_source f)) ++ (pt ++ outstanding (sf_target f)));
  fv_out : forall id, active f id <->
    id ∈ hole ++ (ps ++ ss_outstanding (sf_source f)) ++ (pt ++ outstanding (sf_target f));
  fv_src_out : forall id, id ∈ ps ++ ss_outstanding (sf_source f) -> stripe_states f !! id = Some FFetching;
  fv_alloc : forall id, is_Some (allocated_buffers f !! id) <-> active f id;
  fv_alloc_out : forall id b, allocated_buffers f !! id = Some b -> handed_out (sf_pool f) b;
  fv_alloc_inj : forall id id' b, allocated_buffers f !! id = Some b ->
    allocated_buffers f !! id' = Some b -> id = id';
  fv_handed : forall b, handed_out (sf_pool f) b -> exists id, allocated_buffers f !! id = Some b;
  fv_retries : forall id r, stripe_fetch_retries f !! id = Some r -> 0 <= r <= MAX_FETCH_RETRIES;
  fv_missing : forall id, active f id \/ stripe_states f !! id = Some FQueued -> missing w id;
  fv_auto : Forall (fun id => id < length (stripe_fetch_states (w_shared w)))%nat (autofetch_queue f);
}.

(** The invariant across an operation of the source or the target. *)
Lemma fetcher_inv_frame hole ps pt hole' ps' pt' f w w' src tgt :
  fetcher_inv hole ps pt f w -> frame w w' ->
  ss_inv src w' -> ss_stripe_sectors src = ss_stripe_sectors (sf_source f) -> ch_inv tgt w' ->
  hole' ++ (ps' ++ ss_outstanding src) ++ (pt' ++ outstanding tgt) ≡ₚ
    hole ++ (ps ++ ss_outstanding (sf_source f)) ++ (pt ++ outstanding (sf_target f)) ->
  (forall id, id ∈ ps' ++ ss_outstanding src -> stripe_states f !! id = Some FFetching) ->
  fetcher_inv hole' ps' pt' (set_target (set_source f src) tgt) w'.
Proof.
  intros [I1 I2 I3 I4 I5 I6 I7 I8 I9 I10 I11 I12 I13 I14 I15 I16 I17 I18] Hf Hsi Hss Hti Hperm Hsrc.
  pose proof Hf as (Hb & _ & _ & Hs & _).
  constructor; fields; rewrite ?Hs; try done.
  - eapply pool_wf_stable; [by apply frame_stable|done].
  - intros b Hin. pose proof Hin as [i Hi]%list_elem_of_lookup. destruct (pw_ids _ _ I1 i b Hi) as [Hd _].
    destruct (Hb b Hd) as (_ & _ & ->). auto.
  - split; [done|]. rewrite Hss. apply I4.
  - by rewrite Hperm.
  - intros id. unfold active; fields. rewrite Hperm. apply I10.
  - intros id Ha. destruct (I17 id Ha) as (st & ? & ? & ?). exists st. by rewrite Hs.
Qed.

Lemma missing_lt w id : missing w id -> (id < length (stripe_fetch_states (w_shared w)))%nat.
Proof. intros (st & Hst & _). by apply lookup_lt_Some in Hst. Qed.

(** *** Requests *)

Lemma handle_fetch_request_inv id f w :
  fetcher_inv [] [] [] f w -> (id < length (stripe_fetch_states (w_shared w)))%nat ->
  exists f', handle_fetch_request id f w = Done f' /\ fetcher_inv [] [] [] f' w /\
    (stripe_states f' = stripe_states f \/
     stripe_states f !! id = None /\ stripe_states f' = <[id := FQueued]> (stripe_states f)) /\
    finished_fetches f' = finished_fetches f.
Proof.
  intros I Hid. unfold handle_fetch_request, stripe_fetched_if_needed.
  destruct (lookup_lt_is_Some_2 _ _ Hid) as [st Hst]. rewrite (index_done _ _ _ Hst). cbn [mbind outcome_bind].
  destruct ((st =? Fetched) || (st =? NoSource)) eqn:En; [eexists; split_and!; eauto|].
  destruct (stripe_states f !! id) eqn:Es; [eexists; split_and!; eauto|].
  eexists; split_and!; [done| |by right|done]. apply orb_false_iff in En as [E1%Z.eqb_neq E2%Z.eqb_neq].
  assert (forall j s, <[id := FQueued]> (stripe_states f) !! j = Some s -> s <> FQueued ->
    stripe_states f !! j = Some s) as Hold
    by (intros j s [[<- <-]|[? ?]]%lookup_insert_Some ?; done).
  destruct I as [I1 I2 I3 I4 I5 I6 I7 I8 I9 I10 I11 I12 I13 I14 I15 I16 I17 I18].
  assert (forall j, active (set_state (set_queues f (fetch_queue f ++ [id]) (autofetch_queue f)) id FQueued) j
    <-> active f j) as Hact.
  { intros j. unfold active; cbn. split.
    - intros [E|E]; apply Hold in E; auto.
    - destruct (decide (id = j)) as [<-|]; [rewrite Es; intros [|]; done|]. by rewrite lookup_insert_ne. }
  constructor; try done; fields.
  - apply NoDup_app; split_and!; [done| |apply NoDup_singleton].
    intros j Hj ->%list_elem_of_singleton. apply I8 in Hj. congruence.
  - intros j. rewrite elem_of_app, list_elem_of_singleton, I8. destruct (decide (id = j)) as [<-|].
    + rewrite lookup_insert_eq. split; auto.
    + rewrite lookup_insert_ne by done. split; [intros [|]; congruence|auto].
  - intros j. rewrite Hact. apply I10.
  - intros j Hj. apply I11 in Hj. by rewrite lookup_insert_ne by congruence.
  - intros j. rewrite Hact. apply I12.
  - intros j [Hj|Hj]; [apply I17; left; by apply Hact|].
    destruct (decide (id = j)) as [<-|]; [by exists st|]. rewrite lookup_insert_ne in Hj by done. auto.
Qed.

(** *** Completions *)

(** All the fetcher ever does to the shared state: mark missing stripes failed. *)
Definition only_fails w w' : Prop :=
  stable w w' /\
  (stripe_write_states (w_shared w') = stripe_write_states (w_shared w) /\
   w_requests w' = w_requests w) /\
  forall k st, stripe_fetch_states (w_shared w') !! k = Some st ->
    stripe_fetch_states (w_shared w) !! k = Some st \/ st = Failed /\ missing w k.

#[global] Instance only_fails_refl : Reflexive only_fails.
Proof. intros w. split; [reflexivity|]. split; auto. Qed.

#[global] Instance only_fails_trans : Transitive only_fails.
Proof.
  intros w1 w2 w3 (A1 & [A2 A2'] & A3) (B1 & [B2 B2'] & B3). split; [by etransitivity|]. split; [split; congruence|].
  intros k st Hst. destruct (B3 k st Hst) as [Hs2|[-> (st0 & Hs2 & Hn)]]; [auto|].
  destruct (A3 k st0 Hs2) as [Hs1|[-> Hm]]; right; split; eauto. by exists st0.
Qed.

Lemma frame_only_fails w w' : frame w w' -> only_fails w w'.
Proof.
  intros Hf. split; [by apply frame_stable|]. destruct Hf as (_ & _ & _ & -> & -> & _). auto.
Qed.

Lemma missing_only_fails w w' k : only_fails w w' -> missing w k -> missing w' k.
Proof.
  intros ((_ & _ & Hl & _) & _ & Hf) Hm. pose proof (missing_lt w k Hm) as Hlt. rewrite <- Hl in Hlt.
  destruct (lookup_lt_is_Some_2 _ _ Hlt) as [st Hst]. exists st. split; [done|].
  destruct Hm as (st0 & Hst0 & Hn). destruct (Hf k st Hst) as [?|[-> _]]; [by simplify_eq|done].
Qed.

Lemma set_stripe_failed_only_fails w id :
  shared_wf (w_shared w) -> missing w id ->
  exists sh, set_stripe_failed (w_shared w) id = Done sh /\ shared_wf sh /\ only_fails w (set_shared w sh).
Proof.
  intros Hwf (st & Hst & Hn1 & Hn2).
  destruct (set_stripe_failed_wf (w_shared w) id st Hwf Hst Hn1 Hn2) as (sh & -> & Hwf' & Ef & Ew & Es).
  exists sh. split; [done|]. split; [done|]. split; [|split; [done|]]; cbn [w_shared set_shared].
  - apply set_shared_stable; rewrite ?Ef, ?Ew, ?length_insert; done.
  - intros k st' Hk. rewrite Ef in Hk. destruct (decide (id = k)) as [<-|].
    + rewrite list_lookup_insert_eq in Hk by (by eapply lookup_lt_Some). simplify_eq.
      right. split; [done|]. by exists st.
    + rewrite list_lookup_insert_ne in Hk by done. auto.
Qed.

Lemma stable_inv_env ps pt hole f w w' :
  only_fails w w' -> shared_wf (w_shared w') -> fetcher_inv hole ps pt f w -> fetcher_inv hole ps pt f w'.
Proof.
  intros Ho Hwf [I1 I2 I3 I4 I5 I6 I7 I8 I9 I10 I11 I12 I13 I14 I15 I16 I17 I18].
  pose proof Ho as (Hst & _ & _). pose proof Hst as (Hb & _ & Hl & _). constructor; try done.
  - by apply (pool_wf_stable _ w w').
  - intros b Hin. pose proof Hin as [i Hi]%list_elem_of_lookup. destruct (pw_ids _ _ I1 i b Hi) as [Hd _].
    destruct (Hb b Hd) as (_ & _ & ->). auto.
  - split; [|apply I4]. eapply ss_inv_stable; [done|apply I4].
  - by apply (ch_inv_stable _ w w').
  - intros id Ha. eapply missing_only_fails; eauto.
  - by rewrite Hl.
Qed.

(** What a completion does to the queue and the retry counters. *)
Definition requeue_step (id : nat) f f' : Prop :=
  (forall j, j <> id -> stripe_fetch_retries f' !! j = stripe_fetch_retries f !! j) /\
  (fetch_queue f' = fetch_queue f \/
   fetch_queue f' = fetch_queue f ++ [id] /\
   default 0 (stripe_fetch_retries f' !! id) = default 0 (stripe_fetch_retries f !! id) + 1).

(** Releasing the buffer of the stripe in the hole. *)
Lemma release_buffer ps pt id f w :
  fetcher_inv [id] ps pt f w ->
  exists b pool, allocated_buffers f !! id = Some b /\ return_buffer (sf_pool f) b w = Done pool /\
    pool_wf pool w /\ pool_buffers pool = pool_buffers (sf_pool f) /\
    (forall b', handed_out pool b' <-> b' <> b /\ handed_out (sf_pool f) b').
Proof.
  intros I. destruct (proj2 (fv_alloc _ _ _ _ _ I id)) as [b Hb].
  { apply (fv_out _ _ _ _ _ I). left. }
  destruct (return_buffer_spec (sf_pool f) w b) as (pool & E & Hp & _ & Hpb & Hh);
    [apply I|by eapply fv_alloc_out|]. eauto 10.
Qed.

(** Closing the hole: stripe [id] leaves the active states. *)
Lemma close_hole ps pt id b f w pool q st re fi :
  fetcher_inv [id] ps pt f w -> allocated_buffers f !! id = Some b ->
  pool_wf pool w -> pool_buffers pool = pool_buffers (sf_pool f) ->
  (forall b', handed_out pool b' <-> b' <> b /\ handed_out (sf_pool f) b') ->
  (forall j, j <> id -> st !! j = stripe_states f !! j) ->
  (st !! id <> Some FFetching /\ st !! id <> Some FFlushing) ->
  NoDup q -> (forall j, j ∈ q <-> st !! j = Some FQueued) ->
  (forall j r, re !! j = Some r -> 0 <= r <= MAX_FETCH_RETRIES) ->
  fetcher_inv [] ps pt
    (set_states (set_queues (set_buffers f pool (delete id (allocated_buffers f))) q (autofetch_queue f))
       st re fi) w.
Proof.
  intros [I1 I2 I3 I4 I5 I6 I7 I8 I9 I10 I11 I12 I13 I14 I15 I16 I17 I18] Hb Hp Hpb Hh Hst Hid Hnd Hq Hre.
  set (f' := set_states _ _ _ _).
  cbn [app] in I9. apply NoDup_cons in I9 as [Hnin Hnd'].
  assert (forall j, active f' j <-> j <> id /\ active f j) as Hact.
  { intros j. unfold active, f'; fields. destruct (decide (j = id)) as [->|Hne]; [tauto|].
    rewrite Hst by done. tauto. }
  assert (active f id) as Hact_id by (apply I10; left).
  assert (forall j, j ∈ (ps ++ ss_outstanding (sf_source f)) ++ pt ++ outstanding (sf_target f) -> j <> id) as Hne
    by (intros j Hj ->; done).
  constructor; try done; unfold f'; fields; rewrite ?Hpb; try done.
  - intros j. fold f'. rewrite Hact, I10. cbn [app]. rewrite elem_of_cons. split; [tauto|]. intros Hj. eauto.
  - intros j Hj. rewrite Hst; [auto|]. apply Hne. rewrite elem_of_app. auto.
  - intros j. fold f'. rewrite Hact, <- I12. destruct (decide (id = j)) as [<-|].
    + rewrite lookup_delete_eq. split; [by intros [? ?]|tauto].
    + rewrite lookup_delete_ne by done. intuition congruence.
  - intros j b' [Hj Hal]%lookup_delete_Some. apply Hh. split; [|eauto]. intros ->. apply Hj. eauto.
  - intros j j' b' [_ ?]%lookup_delete_Some [_ ?]%lookup_delete_Some. eauto.
  - intros b' [Hb' Ho]%Hh. destruct (I15 b' Ho) as [j Hj]. exists j. apply lookup_delete_Some.
    split; [|done]. intros ->. congruence.
  - intros j. fold f'. rewrite Hact. intros [[_ Ha]|Hjq]; [auto|]. apply I17.
    destruct (decide (j = id)) as [->|]; [auto|]. right. by rewrite <- Hst.
Qed.

(** What the rest of the worker may rely on across an operation: only missing
    stripes are marked failed, a fetched stripe stays fetched, and a stripe
    reported as fetched is one that was missing. *)
Record fetch_progress f w f' w' : Prop := {
  pr_fails : only_fails w w';
  pr_fetched : forall j, stripe_states f !! j = Some FFetched -> stripe_states f' !! j = Some FFetched;
  pr_finished : forall j, (j, true) ∈ finished_fetches f' ->
    (j, true) ∈ finished_fetches f \/ stripe_states f' !! j = Some FFetched /\ missing w' j;
}.

Lemma progress_refl f w : fetch_progress f w f w.
Proof. constructor; auto. reflexivity. Qed.

Lemma progress_trans f1 w1 f2 w2 f3 w3 :
  fetch_progress f1 w1 f2 w2 -> fetch_progress f2 w2 f3 w3 -> fetch_progress f1 w1 f3 w3.
Proof.
  intros [A1 A2 A3] [B1 B2 B3]. constructor; [by etransitivity|auto|].
  intros j Hj. destruct (B3 j Hj) as [Hj2|?]; [|auto]. destruct (A3 j Hj2) as [?|[? ?]]; [auto|].
  right. split; [auto|]. by eapply missing_only_fails.
Qed.

(** An operation that leaves states and results alone. *)
Lemma progress_frame f w f' w' :
  frame w w' -> stripe_states f' = stripe_states f -> finished_fetches f' = finished_fetches f ->
  fetch_progress f w f' w'.
Proof. intros Hf Es Ef. constructor; rewrite ?Es, ?Ef; auto. by apply frame_only_fails. Qed.

(** A stripe the fetcher holds in its hand is missing and not queued. *)
Lemma hole_facts id ps pt f w :
  fetcher_inv [id] ps pt f w ->
  missing w id /\ id ∉ fetch_queue f /\ stripe_states f !! id <> Some FQueued /\
  stripe_states f !! id <> Some FFetched.
Proof.
  intros I. assert (active f id) as Ha by (apply (fv_out _ _ _ _ _ I); left).
  split; [apply (fv_missing _ _ _ _ _ I); auto|]. rewrite (fv_queue _ _ _ _ _ I).
  destruct Ha as [->| ->]; done.
Qed.

(** The queue is still the queued stripes when an unqueued stripe changes to
    another state than queued. *)
Lemma queue_other id ps pt f w (st : gmap nat FetchState) :
  fetcher_inv [id] ps pt f w -> st !! id <> Some FQueued ->
  (forall j, j <> id -> st !! j = stripe_states f !! j) ->
  forall j, j ∈ fetch_queue f <-> st !! j = Some FQueued.
Proof.
  intros I Hst Ho j. destruct (hole_facts _ _ _ _ _ I) as (_ & _ & Hnq & _).
  rewrite (fv_queue _ _ _ _ _ I). destruct (decide (j = id)) as [->|]; [tauto|by rewrite Ho].
Qed.

Lemma retries_delete h id ps pt f w j r :
  fetcher_inv h ps pt f w -> delete id (stripe_fetch_retries f) !! j = Some r -> 0 <= r <= MAX_FETCH_RETRIES.
Proof. intros I [_ ?]%lookup_delete_Some. by eapply fv_retries. Qed.

Lemma fetch_succeeded_inv id ps pt f w :
  fetcher_inv [id] ps pt f w ->
  exists f' w', fetch_completed id true f w = Done (f', w') /\ fetcher_inv [] ps pt f' w' /\
    fetch_progress f w f' w' /\ requeue_step id f f'.
Proof.
  intros I. destruct (release_buffer ps pt id f w I) as (b & pool & Hb & Er & Hp & Hpb & Hh).
  destruct (hole_facts _ _ _ _ _ I) as (Hm & Hnin & Hnq & Hnf).
  unfold fetch_completed. rewrite Hb, Er. cbn [mbind outcome_bind]. do 2 eexists; split_and!; [done| | |].
  - eapply (close_hole ps pt id b f w pool (fetch_queue f)); try done.
    + intros j Hj. by rewrite lookup_insert_ne.
    + by rewrite lookup_insert_eq.
    + apply I.
    + apply (queue_other id ps pt f w); [done|by rewrite lookup_insert_eq|]. intros j Hj. by rewrite lookup_insert_ne.
    + intros j r. by apply (retries_delete [id] id ps pt f w).
  - constructor; fields; [reflexivity| |].
    + intros j Hj. destruct (decide (id = j)) as [<-|]; [done|]. by rewrite lookup_insert_ne.
    + intros j [?|[= ->]%list_elem_of_singleton]%elem_of_app; [auto|]. rewrite lookup_insert_eq. auto.
  - split; fields; [|auto]. intros j Hj. by rewrite lookup_delete_ne.
Qed.

(** A failed fetch with retries left goes to the back of the queue. *)
Lemma fetch_requeued_inv id ps pt f w :
  fetcher_inv [id] ps pt f w -> default 0 (stripe_fetch_retries f !! id) < MAX_FETCH_RETRIES ->
  exists f' w', fetch_completed id false f w = Done (f', w') /\ fetcher_inv [] ps pt f' w' /\
    fetch_progress f w f' w' /\ requeue_step id f f'.
Proof.
  intros I Hr. destruct (release_buffer ps pt id f w I) as (b & pool & Hb & Er & Hp & Hpb & Hh).
  destruct (hole_facts _ _ _ _ _ I) as (Hm & Hnin & Hnq & Hnf).
  assert (0 <= default 0 (stripe_fetch_retries f !! id)) as Hr0.
  { destruct (stripe_fetch_retries f !! id) as [x|] eqn:Ex; cbn; [|lia].
    pose proof (fv_retries _ _ _ _ _ I id x Ex). lia. }
  unfold fetch_completed. rewrite Hb, Er. cbn [mbind outcome_bind].
  change (stripe_fetch_retries (set_buffers f pool _)) with (stripe_fetch_retries f).
  rewrite (proj2 (Z.ltb_lt _ _) Hr). do 2 eexists; split_and!; [done| | |].
  - eapply (close_hole ps pt id b f w pool (fetch_queue f ++ [id])); try done.
    + intros j Hj. by rewrite lookup_insert_ne.
    + by rewrite lookup_insert_eq.
    + apply NoDup_app; split_and!; [apply I| |apply NoDup_singleton]. by intros j Hj ->%list_elem_of_singleton.
    + intros j. rewrite elem_of_app, list_elem_of_singleton, (fv_queue _ _ _ _ _ I).
      destruct (decide (id = j)) as [<-|]; [rewrite lookup_insert_eq; tauto|].
      rewrite lookup_insert_ne by done. intuition congruence.
    + fields. intros j x [[<- <-]|[_ Hj]]%lookup_insert_Some; [lia|by eapply fv_retries].
  - constructor; fields; [reflexivity| |auto]. intros j Hj. rewrite lookup_insert_ne; [done|]. by intros <-.
  - split; fields; [intros j Hj; by rewrite lookup_insert_ne|]. right. split; [done|]. by rewrite lookup_insert_eq.
Qed.

(** A failed fetch without retries left is reported, and the stripe marked. *)
Lemma fetch_given_up_inv id ps pt f w :
  fetcher_inv [id] ps pt f w -> MAX_FETCH_RETRIES <= default 0 (stripe_fetch_retries f !! id) ->
  exists f' w', fetch_completed id false f w = Done (f', w') /\ fetcher_inv [] ps pt f' w' /\
    fetch_progress f w f' w' /\ requeue_step id f f'.
Proof.
  intros I Hr. destruct (release_buffer ps pt id f w I) as (b & pool & Hb & Er & Hp & Hpb & Hh).
  destruct (hole_facts _ _ _ _ _ I) as (Hm & Hnin & Hnq & Hnf).
  destruct (set_stripe_failed_only_fails w id (fv_shared _ _ _ _ _ I) Hm) as (sh & Es & Hwf & Ho).
  unfold fetch_completed. rewrite Hb, Er. cbn [mbind outcome_bind].
  change (stripe_fetch_retries (set_buffers f pool _)) with (stripe_fetch_retries f).
  rewrite (proj2 (Z.ltb_ge _ _) Hr), Es. cbn [mbind outcome_bind]. do 2 eexists; split_and!; [done| | |].
  - apply (stable_inv_env _ _ _ _ w); [done|done|].
    eapply (close_hole ps pt id b f w pool (fetch_queue f)); try done.
    + intros j Hj. by rewrite lookup_delete_ne.
    + by rewrite lookup_delete_eq.
    + apply I.
    + apply (queue_other id ps pt f w); [done|by rewrite lookup_delete_eq|]. intros j Hj. by rewrite lookup_delete_ne.
    + intros j r. by apply (retries_delete [id] id ps pt f w).
  - constructor; fields; [done| |].
    + intros j Hj. rewrite lookup_delete_ne; [done|]. by intros <-.
    + intros j [?|?%list_elem_of_singleton]%elem_of_app; [auto|done].
  - split; fields; [|auto]. intros j Hj. by rewrite lookup_delete_ne.
Qed.

Lemma fetch_completed_inv id ok ps pt f w :
  fetcher_inv [id] ps pt f w ->
  exists f' w', fetch_completed id ok f w = Done (f', w') /\ fetcher_inv [] ps pt f' w' /\
    fetch_progress f w f' w' /\ requeue_step id f f'.
Proof.
  intros I. destruct ok; [by apply fetch_succeeded_inv|].
  destruct (Z.lt_ge_cases (default 0 (stripe_fetch_retries f !! id)) MAX_FETCH_RETRIES);
    [by apply fetch_requeued_inv|by apply fetch_given_up_inv].
Qed.

(** The recorded state of the stripe does not matter to its completion. *)
Lemma fetch_completed_state id ok f w st :
  fetch_completed id ok (set_state f id st) w = fetch_completed id ok f w.
Proof.
  unfold fetch_completed; fields. destruct (allocated_buffers f !! id) as [b|].
  - destruct (return_buffer (sf_pool f) b w) as [pool|]; [|done]. cbn [mbind outcome_bind]; fields.
    by rewrite !insert_insert_eq, delete_insert_eq.
  - cbn [mbind outcome_bind]; fields. by rewrite !insert_insert_eq, delete_insert_eq.
Qed.

(** *** Starting fetches *)

(** Taking a stripe off the queue and reserving its buffer. *)
Lemma dequeue_inv id rest f w b pool :
  fetcher_inv [] [] [] f w -> fetch_queue f = id :: rest ->
  pool_wf pool w -> pool_buffers pool = pool_buffers (sf_pool f) ->
  ~ handed_out (sf_pool f) b -> (forall b', handed_out pool b' <-> b' = b \/ handed_out (sf_pool f) b') ->
  fetcher_inv [id] [] []
    (set_state (set_buffers (set_queues f rest (autofetch_queue f)) pool
                  (<[id := b]> (allocated_buffers f))) id FFetching) w.
Proof.
  intros [I1 I2 I3 I4 I5 I6 I7 I8 I9 I10 I11 I12 I13 I14 I15 I16 I17 I18] Hq Hp Hpb Hno Hh.
  set (f' := set_state _ _ _).
  assert (stripe_states f !! id = Some FQueued) as Hid by (apply I8; rewrite Hq; left).
  rewrite Hq in I7. apply NoDup_cons in I7 as [Hnin Hnd].
  assert (~ active f id) as Hna by (intros [E|E]; congruence).
  assert (forall j, active f' j <-> j = id \/ active f j) as Hact.
  { intros j. unfold active, f'; fields. destruct (decide (j = id)) as [->|].
    - rewrite lookup_insert_eq. split; auto.
    - rewrite lookup_insert_ne by done. tauto. }
  assert (allocated_buffers f !! id = None) as Hnone.
  { destruct (allocated_buffers f !! id) eqn:E; [|done]. destruct Hna. apply I12. eauto. }
  constructor; try done; unfold f'; fields; rewrite ?Hpb; try done.
  - intros j. destruct (decide (j = id)) as [->|].
    + rewrite lookup_insert_eq. split; done.
    + rewrite lookup_insert_ne, <- I8, Hq, elem_of_cons by done. tauto.
  - cbn [app]. apply NoDup_cons. split; [|done]. rewrite <- (I10 id). done.
  - intros j. fold f'. rewrite Hact, I10. cbn [app]. by rewrite elem_of_cons.
  - intros j Hj. destruct (decide (j = id)) as [->|]; [by rewrite lookup_insert_eq|].
    rewrite lookup_insert_ne by done. auto.
  - intros j. fold f'. rewrite Hact, <- I12, lookup_insert_is_Some. destruct (decide (j = id)); intuition congruence.
  - intros j b' [[<- <-]|[? Hj]]%lookup_insert_Some; apply Hh; eauto.
  - intros j j' b' [[? ?]|[? Hj]]%lookup_insert_Some [[? ?]|[? Hj']]%lookup_insert_Some; subst; eauto;
      destruct Hno; eauto.
  - intros b' [->|Ho]%Hh; [exists id; by rewrite lookup_insert_eq|]. destruct (I15 b' Ho) as [j Hj].
    exists j. by rewrite lookup_insert_ne by congruence.
  - intros j. fold f'. rewrite Hact. intros [[->|Ha]|Hjq]; [auto..|]. apply I17. right.
    destruct (decide (id = j)) as [<-|]; [by rewrite lookup_insert_eq in Hjq|].
    by rewrite lookup_insert_ne in Hjq.
Qed.

Lemma start_fetch_inv id rest f w :
  fetcher_inv [] [] [] f w -> fetch_queue f = id :: rest -> has_available (sf_pool f) = true ->
  exists f' w', start_fetch id (set_queues f rest (autofetch_queue f)) w = Done (f', w') /\
    fetcher_inv [] [] [] f' w' /\ fetch_progress f w f' w' /\
    requeue_step id (set_queues f rest (autofetch_queue f)) f'.
Proof.
  intros I Hq Ha. unfold start_fetch. fields.
  destruct (get_buffer_spec (sf_pool f) w (fv_pool _ _ _ _ _ I) Ha) as (b & pool & -> & Hp & Hno & Hd & Hpb & Hh).
  cbn [mbind outcome_bind]. pose proof (dequeue_inv id rest f w b pool I Hq Hp Hpb Hno Hh) as I1.
  destruct (fv_src _ _ _ _ _ I) as [Hsi Hsz].
  destruct (ss_request_safe id b (sf_source f) w Hsi) as (r & src & w1 & Er & Hf & Hsi1 & Hss).
  { eapply holds_le; [|exact Hsz]. split; [done|]. apply Nat.eq_le_incl. symmetry.
    apply (fv_size _ _ _ _ _ I). destruct (proj2 (Hh b) (or_introl eq_refl)) as (i & Hi & _).
    rewrite <- Hpb. apply list_elem_of_lookup; eauto. }
  assert (id ∉ ss_outstanding (sf_source f)) as Hfresh.
  { intros Hin%(fv_src_out _ _ _ _ _ I).
    rewrite (proj1 (fv_queue _ _ _ _ _ I id)) in Hin by (rewrite Hq; left). done. }
  rewrite Er. cbn [mbind outcome_bind]. pose proof (ss_request_out _ _ _ _ _ _ _ Hfresh Er) as Hout.
  assert (ch_inv (sf_target f) w1) as Hti by (eapply ch_inv_stable; [by apply frame_stable|apply I]).
  assert (stripe_states f !! id <> Some FFetched) as Hnf.
  { rewrite (proj1 (fv_queue _ _ _ _ _ I id)) by (rewrite Hq; left). done. }
  assert (forall j, stripe_states f !! j = Some FFetched -> <[id := FFetching]> (stripe_states f) !! j = Some FFetched)
    as Hkeep by (intros j Hj; rewrite lookup_insert_ne; [done|]; intros <-; done).
  destruct r as [u|e]; cbn [is_ok app] in Hout.
  - do 2 eexists; split_and!; [done| | |].
    + eapply (fetcher_inv_frame [id] [] [] [] [] [] _ w w1 src (sf_target f) I1); try done; fields.
      * cbn [app]. by rewrite Hout.
      * intros j Hj. cbn [app] in Hj. rewrite Hout in Hj. apply elem_of_cons in Hj as [->|Hj];
          [by rewrite lookup_insert_eq|]. destruct (decide (id = j)) as [<-|]; [by rewrite lookup_insert_eq|].
        rewrite lookup_insert_ne by done. apply (fv_src_out _ _ _ _ _ I). done.
    + constructor; fields; [by apply frame_only_fails|done|auto].
    + split; fields; auto.
  - pose proof (fetcher_inv_frame [id] [] [] [id] [] [] _ w w1 src (sf_target f) I1 Hf Hsi1 Hss Hti) as I2.
    rewrite <- (fetch_completed_state id false _ w1 FFetching).
    edestruct (fetch_completed_inv id false [] []) as (f3 & w3 & E3 & I3 & P3 & R3); [apply I2; fields|].
    + cbn [app]. by rewrite Hout.
    + intros j Hj. cbn [app] in Hj. rewrite Hout in Hj.
      destruct (decide (id = j)) as [<-|]; [by rewrite lookup_insert_eq|].
      rewrite lookup_insert_ne by done. by apply (fv_src_out _ _ _ _ _ I).
    + exists f3, w3. split_and!; [exact E3|done| |].
      * eapply progress_trans; [|exact P3]. constructor; fields; [by apply frame_only_fails|done|auto].
      * exact R3.
Qed.

(** Attempts left: four per stripe, less the retries already counted. *)
Fixpoint attempts (re : gmap nat Z) (q : list nat) : nat :=
  match q with
  | [] => 0
  | id :: q' => 4 - Z.to_nat (default 0%Z (re !! id)) + attempts re q'
  end%nat.

Lemma attempts_app re q1 q2 : attempts re (q1 ++ q2) = (attempts re q1 + attempts re q2)%nat.
Proof. induction q1; cbn; lia. Qed.

Lemma attempts_ext re re' q :
  (forall j, j ∈ q -> re !! j = re' !! j) -> attempts re q = attempts re' q.
Proof.
  induction q as [|id q IH]; intros Hq; [done|]. cbn. rewrite (Hq id) by left. f_equal. apply IH.
  intros j Hj. apply Hq. by right.
Qed.

Lemma attempts_bound re q : (attempts re q <= 4 * length q)%nat.
Proof. induction q; cbn; lia. Qed.

Lemma requeue_attempts id rest f f' :
  (forall j r, stripe_fetch_retries f !! j = Some r -> 0 <= r <= MAX_FETCH_RETRIES) ->
  NoDup (id :: rest) -> fetch_queue f = rest -> requeue_step id f f' ->
  (attempts (stripe_fetch_retries f') (fetch_queue f') < attempts (stripe_fetch_retries f) (id :: rest))%nat.
Proof.
  intros Hre [Hnin _]%NoDup_cons Hq [Hother Hcase].
  assert (attempts (stripe_fetch_retries f') rest = attempts (stripe_fetch_retries f) rest) as E.
  { apply attempts_ext. intros j Hj. apply Hother. intros ->. done. }
  assert (0 <= default 0 (stripe_fetch_retries f !! id) <= 3) as Hr.
  { destruct (stripe_fetch_retries f !! id) as [r|] eqn:Er; cbn; [|lia].
    pose proof (Hre id r Er). unfold MAX_FETCH_RETRIES in *. lia. }
  cbn [attempts].
  destruct Hcase as [Eq|[Eq Er]]; rewrite Eq, Hq.
  - rewrite E. lia.
  - rewrite attempts_app, E. cbn [attempts]. rewrite Er. lia.
Qed.

Lemma start_fetches_loop_inv fuel f w :
  fetcher_inv [] [] [] f w -> (attempts (stripe_fetch_retries f) (fetch_queue f) <= fuel)%nat ->
  exists f' w', start_fetches_loop fuel f w = Done (f', w') /\ fetcher_inv [] [] [] f' w' /\
    fetch_progress f w f' w'.
Proof.
  revert f w. induction fuel as [|fuel IH]; intros f w I Hm; cbn [start_fetches_loop];
    (destruct (has_available (sf_pool f)) eqn:Ha; cbn [negb]; [|eauto using progress_refl]);
    (destruct (fetch_queue f) as [|id rest] eqn:Hq; [eauto using progress_refl|]).
  - cbn [attempts] in Hm. exfalso.
    assert (Z.to_nat (default 0%Z (stripe_fetch_retries f !! id)) <= 3)%nat; [|lia].
    destruct (stripe_fetch_retries f !! id) as [r|] eqn:Er; cbn; [|lia].
    pose proof (fv_retries _ _ _ _ _ I id r Er). unfold MAX_FETCH_RETRIES in *. lia.
  - destruct (start_fetch_inv id rest f w I Hq Ha) as (f1 & w1 & -> & I1 & P1 & R1). cbn [mbind outcome_bind].
    destruct (IH f1 w1 I1) as (f2 & w2 & -> & I2 & P2).
    + pose proof (fv_queue_nodup _ _ _ _ _ I) as Hnd. rewrite Hq in Hnd.
      pose proof (requeue_attempts id rest (set_queues f rest (autofetch_queue f)) f1
        (fv_retries _ _ _ _ _ I) Hnd eq_refl R1) as Hlt. cbn [fetch_queue set_queues stripe_fetch_retries] in Hlt. lia.
    + do 2 eexists; split_and!; [done..|]. by eapply progress_trans.
Qed.

(** *** Polling *)

Lemma start_write_inv b id ps f w :
  fetcher_inv [id] ps [] f w -> allocated_buffers f !! id = Some b ->
  exists f' w', start_write b id f w = Done (true, f', w') /\ fetcher_inv [] ps [] f' w' /\
    fetch_progress f w f' w'.
Proof.
  intros I Hb. unfold start_write. set (off := wrap64 _). set (count := _ `min` _).
  destruct (fv_alloc_out _ _ _ _ _ I id b Hb) as (i & Hi & _).
  destruct (add_write_safe off (wrap32 count) b id (sf_target f) w (fv_tgt _ _ _ _ _ I)) as (c1 & w1 & E1 & Hf1 & Hi1).
  { apply (holds_le w b (sf_stripe_sector_count f)).
    - split; [by destruct (pw_ids _ _ (fv_pool _ _ _ _ _ I) i b Hi)|].
      rewrite (fv_size _ _ _ _ _ I); [done|]. apply list_elem_of_lookup; eauto.
    - pose proof (fv_ssc _ _ _ _ _ I). assert (0 <= wrap64 (sf_target_sector_count f - off))
        by (apply Z.mod_pos_bound; lia). pose proof (wrap32_le count ltac:(lia)). lia. }
  rewrite E1. cbn [mbind outcome_bind].
  destruct (submit_safe c1 w1 Hi1) as (r & c2 & w2 & E2 & Hf2 & Hi2). rewrite E2. cbn [mbind outcome_bind].
  pose proof (submit_ok _ _ _ _ _ E2) as ->. assert (frame w w2) as Hf by (by etransitivity).
  do 2 eexists; split_and!; [done| |by apply progress_frame].
  eapply (fetcher_inv_frame [id] ps [] [] ps [] f w w2 (sf_source f) c2 I); try done.
  - eapply ss_inv_stable; [by apply frame_stable|apply I].
  - cbn [app]. rewrite (submit_out _ _ _ _ _ E2), (add_write_out _ _ _ _ _ _ _ _ E1).
    by rewrite Permutation_middle.
  - apply I.
Qed.

Lemma start_flush_inv id pt f w :
  fetcher_inv [id] [] pt f w ->
  exists f' w', start_flush id f w = Done (true, f', w') /\ fetcher_inv [] [] pt f' w' /\
    frame w w' /\ f' = set_target f (sf_target f').
Proof.
  intros I. unfold start_flush.
  destruct (add_flush_safe id (sf_target f) w (fv_tgt _ _ _ _ _ I)) as (c1 & w1 & E1 & Hf1 & Hi1).
  rewrite E1. cbn [mbind outcome_bind].
  destruct (submit_safe c1 w1 Hi1) as (r & c2 & w2 & E2 & Hf2 & Hi2). rewrite E2. cbn [mbind outcome_bind].
  pose proof (submit_ok _ _ _ _ _ E2) as ->. assert (frame w w2) as Hf by (by etransitivity).
  do 2 eexists; split_and!; [done| |done|done].
  eapply (fetcher_inv_frame [id] [] pt [] [] pt f w w2 (sf_source f) c2 I); try done.
  - eapply ss_inv_stable; [by apply frame_stable|apply I].
  - cbn [app]. rewrite (submit_out _ _ _ _ _ E2), (add_flush_out _ _ _ _ _ E1).
    by rewrite <- !Permutation_middle.
  - apply I.
Qed.

(** Taking a completion from the list opens a hole. *)
Lemma open_hole_src id ps pt f w :
  fetcher_inv [] (id :: ps) pt f w -> fetcher_inv [id] ps pt f w.
Proof.
  intros [I1 I2 I3 I4 I5 I6 I7 I8 I9 I10 I11 I12 I13 I14 I15 I16 I17 I18]. constructor; try done.
  intros j Hj. apply I11. cbn. by right.
Qed.

Lemma open_hole_tgt id ps pt f w :
  fetcher_inv [] ps (id :: pt) f w -> fetcher_inv [id] ps pt f w.
Proof.
  intros [I1 I2 I3 I4 I5 I6 I7 I8 I9 I10 I11 I12 I13 I14 I15 I16 I17 I18].
  assert ((ps ++ ss_outstanding (sf_source f)) ++ (id :: pt) ++ outstanding (sf_target f) ≡ₚ
    id :: (ps ++ ss_outstanding (sf_source f)) ++ pt ++ outstanding (sf_target f)) as Hp
    by (cbn [app]; by rewrite <- Permutation_middle).
  constructor; try done.
  - cbn [app]. by rewrite <- Hp.
  - intros j. cbn [app]. rewrite <- Hp. apply I10.
Qed.

Lemma on_source_completion_inv id ok ps f w :
  fetcher_inv [] (id :: ps) [] f w ->
  exists f' w', on_source_completion (id, ok) (f, w) = Done (f', w') /\ fetcher_inv [] ps [] f' w' /\
    fetch_progress f w f' w'.
Proof.
  intros I%open_hole_src. unfold on_source_completion.
  destruct (release_buffer _ _ _ _ _ I) as (b & _ & Hb & _). rewrite Hb. destruct ok; cbn [negb].
  - destruct (start_write_inv b id ps f w I Hb) as (f1 & w1 & -> & I1 & P1). cbn [mbind outcome_bind negb]. eauto.
  - destruct (fetch_completed_inv id false ps [] f w I) as (f1 & w1 & -> & I1 & P1 & _). eauto.
Qed.

Lemma flushing_state_inv id pt f w :
  fetcher_inv [] [] pt f w -> stripe_states f !! id = Some FFetching ->
  id ∉ ss_outstanding (sf_source f) -> fetcher_inv [] [] pt (set_state f id FFlushing) w.
Proof.
  intros [I1 I2 I3 I4 I5 I6 I7 I8 I9 I10 I11 I12 I13 I14 I15 I16 I17 I18] Hid Hn.
  assert (forall j, active (set_state f id FFlushing) j <-> active f j) as Hact.
  { intros j. unfold active; fields. destruct (decide (id = j)) as [<-|].
    - rewrite lookup_insert_eq, Hid. split; auto.
    - by rewrite lookup_insert_ne. }
  constructor; try done; fields.
  - intros j. rewrite I8. destruct (decide (id = j)) as [<-|].
    + rewrite lookup_insert_eq, Hid. done.
    + by rewrite lookup_insert_ne.
  - intros j. rewrite Hact. apply I10.
  - intros j Hj. rewrite lookup_insert_ne; [by apply I11|]. intros <-. done.
  - intros j. rewrite Hact. apply I12.
  - intros j. rewrite Hact. intros [?|Hj]; [auto|]. apply I17. right.
    destruct (decide (id = j)) as [<-|]; [by rewrite lookup_insert_eq in Hj|]. by rewrite lookup_insert_ne in Hj.
Qed.

Lemma on_target_completion_inv id ok pt f w :
  fetcher_inv [] [] (id :: pt) f w ->
  exists f' w', on_target_completion (id, ok) (f, w) = Done (f', w') /\ fetcher_inv [] [] pt f' w' /\
    fetch_progress f w f' w'.
Proof.
  intros I0. pose proof (open_hole_tgt _ _ _ _ _ I0) as I. unfold on_target_completion.
  destruct ok; cbn [negb].
  2:{ destruct (fetch_completed_inv id false [] pt f w I) as (f1 & w1 & -> & I1 & P1 & _). eauto. }
  assert (active f id) as [Ha|Ha] by (apply (fv_out _ _ _ _ _ I); left); rewrite Ha.
  - destruct (start_flush_inv id pt f w I) as (f1 & w1 & -> & I1 & Hf & Ef). cbn [mbind outcome_bind].
    assert (stripe_states f1 = stripe_states f) as Est by (rewrite Ef; done).
    do 2 eexists; split_and!; [done| |].
    + apply flushing_state_inv; [done|by rewrite Est|]. rewrite Ef. fields.
      pose proof (fv_out_nodup _ _ _ _ _ I) as Hnd. cbn [app] in Hnd. apply NoDup_cons in Hnd as [Hn _].
      intros Hin. apply Hn. rewrite elem_of_app. auto.
    + constructor; fields; [by apply frame_only_fails| |].
      * intros j Hj. rewrite Est, lookup_insert_ne; [done|]. intros <-. congruence.
      * rewrite Ef. auto.
  - destruct (fetch_completed_inv id true [] pt f w I) as (f1 & w1 & -> & I1 & P1 & _). eauto.
Qed.

Lemma source_completions_inv rs f w :
  fetcher_inv [] rs.*1 [] f w ->
  exists f' w', for_each on_source_completion rs (f, w) = Done (f', w') /\
    fetcher_inv [] [] [] f' w' /\ fetch_progress f w f' w'.
Proof.
  revert f w. induction rs as [|[id ok] rs IH]; intros f w I; cbn [for_each]; [eauto using progress_refl|].
  destruct (on_source_completion_inv id ok rs.*1 f w I) as (f1 & w1 & -> & I1 & P1). cbn [mbind outcome_bind].
  destruct (IH f1 w1 I1) as (f2 & w2 & -> & I2 & P2).
  do 2 eexists; split_and!; [done..|]. by eapply progress_trans.
Qed.

Lemma target_completions_inv rs f w :
  fetcher_inv [] [] rs.*1 f w ->
  exists f' w', for_each on_target_completion rs (f, w) = Done (f', w') /\
    fetcher_inv [] [] [] f' w' /\ fetch_progress f w f' w'.
Proof.
  revert f w. induction rs as [|[id ok] rs IH]; intros f w I; cbn [for_each]; [eauto using progress_refl|].
  destruct (on_target_completion_inv id ok rs.*1 f w I) as (f1 & w1 & -> & I1 & P1). cbn [mbind outcome_bind].
  destruct (IH f1 w1 I1) as (f2 & w2 & -> & I2 & P2).
  do 2 eexists; split_and!; [done..|]. by eapply progress_trans.
Qed.

(** The completions a poll takes from the source or from the target. *)
Lemma source_polled_inv f w :
  fetcher_inv [] [] [] f w ->
  exists rs src w', ss_poll (sf_source f) w = Done (rs, src, w') /\ frame w w' /\
    fetcher_inv [] rs.*1 [] (set_source f src) w'.
Proof.
  intros I. destruct (fv_src _ _ _ _ _ I) as [Hsi Hsz].
  destruct (ss_poll_safe (sf_source f) w Hsi) as (rs & src & w1 & E1 & Hf1 & Hsi1 & Hss).
  pose proof (ss_poll_out _ _ _ _ _ E1) as Hout. exists rs, src, w1. split_and!; [done..|].
  eapply (fetcher_inv_frame [] [] [] [] rs.*1 [] f w w1 src (sf_target f) I); try done.
  - eapply ch_inv_stable; [by apply frame_stable|apply I].
  - cbn [app]. by rewrite Hout.
  - intros j Hj. apply (fv_src_out _ _ _ _ _ I). cbn [app]. by rewrite Hout.
Qed.

Lemma target_polled_inv f w :
  fetcher_inv [] [] [] f w ->
  exists rs tgt w', poll (sf_target f) w = Done (rs, tgt, w') /\ frame w w' /\
    fetcher_inv [] [] rs.*1 (set_target f tgt) w'.
Proof.
  intros I. destruct (poll_safe (sf_target f) w (fv_tgt _ _ _ _ _ I)) as (rs & tgt & w1 & E1 & Hf1 & Hti).
  pose proof (poll_out _ _ _ _ _ E1) as Hout. exists rs, tgt, w1. split_and!; [done..|].
  eapply (fetcher_inv_frame [] [] [] [] [] rs.*1 f w w1 (sf_source f) tgt I); try done.
  - eapply ss_inv_stable; [by apply frame_stable|apply I].
  - cbn [app]. by rewrite Hout.
  - apply I.
Qed.

Lemma poll_fetches_inv f w :
  fetcher_inv [] [] [] f w ->
  exists f' w', poll_fetches f w = Done (f', w') /\ fetcher_inv [] [] [] f' w' /\ fetch_progress f w f' w'.
Proof.
  intros I. unfold poll_fetches. destruct (source_polled_inv f w I) as (rs & src & w1 & -> & Hf1 & I1).
  cbn [mbind outcome_bind].
  destruct (source_completions_inv rs (set_source f src) w1 I1) as (f2 & w2 & -> & I2 & P2).
  cbn [mbind outcome_bind]. destruct (target_polled_inv f2 w2 I2) as (rs' & tgt & w3 & -> & Hf3 & I3).
  cbn [mbind outcome_bind].
  destruct (target_completions_inv rs' (set_target f2 tgt) w3 I3) as (f4 & w4 & -> & I4 & P4).
  do 2 eexists; split_and!; [done..|].
  eapply progress_trans; [by apply (progress_frame f w (set_source f src) w1)|].
  eapply progress_trans; [exact P2|].
  eapply progress_trans; [by apply (progress_frame f2 w2 (set_target f2 tgt) w3)|done].
Qed.

Lemma update_autofetch_inv f w :
  fetcher_inv [] [] [] f w ->
  exists f', update_autofetch f w = Done f' /\ fetcher_inv [] [] [] f' w /\ fetch_progress f w f' w.
Proof.
  intros I. unfold update_autofetch. destruct (_ && _); [|eauto using progress_refl].
  destruct (autofetch_queue f) as [|id rest] eqn:Ea; [eauto using progress_refl|].
  pose proof (fv_auto _ _ _ _ _ I) as Hau. rewrite Ea in Hau. apply Forall_cons in Hau as [Hid Hrest].
  assert (fetcher_inv [] [] [] (set_queues f (fetch_queue f) rest) w) as I1 by (by destruct I; constructor).
  destruct (handle_fetch_request_inv id _ w I1 Hid) as (f' & -> & I' & Hst & Hfi).
  eexists; split_and!; [done..|]. constructor; [reflexivity| |rewrite Hfi; auto].
  intros j Hj. destruct Hst as [->|[Hn ->]]; [done|]. cbn in Hn |- *. rewrite lookup_insert_ne; [done|]. intros <-.
  congruence.
Qed.

Lemma fetcher_update_inv f w :
  fetcher_inv [] [] [] f w ->
  exists f' w', fetcher_update f w = Done (f', w') /\ fetcher_inv [] [] [] f' w' /\ fetch_progress f w f' w'.
Proof.
  intros I. unfold fetcher_update. destruct (update_autofetch_inv f w I) as (f1 & -> & I1 & P1).
  cbn [mbind outcome_bind]. unfold start_fetches.
  destruct (start_fetches_loop_inv (4 * length (fetch_queue f1)) f1 w I1) as (f2 & w2 & -> & I2 & P2);
    [apply attempts_bound|]. cbn [mbind outcome_bind].
  destruct (poll_fetches_inv f2 w2 I2) as (f3 & w3 & -> & I3 & P3).
  do 2 eexists; split_and!; [done..|]. by do 2 (eapply progress_trans; [eassumption|]).
Qed.

Lemma take_finished_inv f w :
  fetcher_inv [] [] [] f w -> fetcher_inv [] [] [] (take_finished_fetches f).2 w.
Proof. intros []. by constructor. Qed.

(** When all stripes are fetched nothing is outstanding, so nothing is lost by
    replacing the source. *)
Lemma disconnect_inv f w :
  fetcher_inv [] [] [] f w -> fetcher_inv [] [] [] (disconnect_from_source_if_all_fetched f w) w.
Proof.
  intros I. unfold disconnect_from_source_if_all_fetched. destruct (_ && _) eqn:Hc; [|done].
  apply andb_true_iff in Hc as [_ Heq%Z.eqb_eq].
  destruct I as [I1 I2 I3 I4 I5 I6 I7 I8 I9 I10 I11 I12 I13 I14 I15 I16 I17 I18].
  assert (forall id, ~ missing w id) as Hnone.
  { intros id (st & Hst & Hn1 & Hn2). unfold source_stripes, fetched_stripes in Heq.
    rewrite (sw_source _ I6), (sw_fetched _ I6) in Heq. symmetry in Heq.
    apply counts_equal_iff in Heq. rewrite Forall_lookup in Heq. destruct (Heq id st Hst); done. }
  assert (ss_outstanding (sf_source f) = []) as Hs.
  { destruct (ss_outstanding (sf_source f)) as [|id l] eqn:E; [done|]. destruct (Hnone id). apply I17. left.
    apply I10. left. }
  cbn [app] in *. cbn [bdev_source_new create_channel null_device].
  constructor; try done; fields.
  - cbn [app]. rewrite Hs in I9. done.
  - intros id. cbn [app]. rewrite Hs in I10. apply I10.
  - intros id Hid. by apply elem_of_nil in Hid.
Qed.

Lemma fetcher_new_inv {D} `{!BlockDevice D C} `{!DeviceSafe D C} `{!DeviceContract D C}
    (source : S) (d : D) ssc alignment autofetch w f w' :
  fresh_world w -> is_power_of_two alignment = true -> 0 <= ssc ->
  ss_inv source w -> ss_stripe_sectors source <= ssc -> ss_outstanding source = [] ->
  shared_wf (w_shared w) ->
  div_ceil (ss_sector_count source) ssc <= Z.of_nat (length (stripe_fetch_states (w_shared w))) ->
  fetcher_new source d ssc alignment autofetch w = Done (Ok f, w') -> fetcher_inv [] [] [] f w'.
Proof.
  intros Hfr Hal Hssc Hsi Hsz Hso Hwf Hlen. unfold fetcher_new.
  destruct (create_channel d w) as [ch|] eqn:Ec; [|done].
  destruct (checked_mul64 ssc (Z.of_nat SECTOR_SIZE)) as [size|] eqn:Em; [|done].
  destruct (new_pool_spec alignment MAX_CONCURRENT_FETCHES (Z.to_nat size) w Hal Hfr)
    as (p & w1 & -> & Hf & Hp & Hb & Hno & _). cbn [mbind outcome_bind].
  destruct (sector_count d <? ss_sector_count source); [done|]. intros [= <- <-].
  assert (Z.to_nat size = Z.to_nat ssc * SECTOR_SIZE)%nat as Esz.
  { unfold checked_mul64 in Em. case_match; [|done]. simplify_eq. lia. }
  pose proof Hf as (_ & _ & _ & Hs & _).
  constructor; fields; rewrite ?Hs; try done.
  - intros b Hin. rewrite (Hb b Hin). done.
  - split; [|done]. cbn. eapply ss_inv_stable; [by apply frame_stable|done].
  - eapply ch_inv_stable; [by apply frame_stable|by eapply create_channel_safe].
  - constructor.
  - intros id. rewrite lookup_empty. split; [by intros ?%elem_of_nil|done].
  - cbn. rewrite Hso, (create_channel_out d w ch Ec). constructor.
  - intros id. cbn. rewrite Hso, (create_channel_out d w ch Ec). cbn. unfold active; fields.
    rewrite lookup_empty. split; [by intros [|]|by intros ?%elem_of_nil].
  - intros id. cbn. rewrite Hso. by intros ?%elem_of_nil.
  - intros id. unfold active; fields. rewrite !lookup_empty. split; [by intros [? ?]|by intros [|]].
  - intros b Hb'. by destruct (Hno b).
  - intros id. unfold active; fields. rewrite !lookup_empty. naive_solver.
  - destruct autofetch; [|constructor]. apply Forall_forall. intros id Hid%elem_of_seq. lia.
Qed.

(** What the rest of the program may do between two calls of the fetcher: the
    stripes the fetcher works on stay missing. *)
Definition fetcher_environment f w w' : Prop :=
  stable w w' /\ shared_wf (w_shared w') /\
  forall id, active f id \/ stripe_states f !! id = Some FQueued -> missing w' id.

Inductive fetcher_step : StripeFetcher S C * World -> StripeFetcher S C * World -> Prop :=
| fstep_request f w id f' : (id < length (stripe_fetch_states (w_shared w)))%nat ->
    handle_fetch_request id f w = Done f' -> fetcher_step (f, w) (f', w)
| fstep_update f w f' w' : fetcher_update f w = Done (f', w') -> fetcher_step (f, w) (f', w')
| fstep_take f w : fetcher_step (f, w) ((take_finished_fetches f).2, w)
| fstep_disconnect f w : fetcher_step (f, w) (disconnect_from_source_if_all_fetched f w, w)
| fstep_environment f w w' : fetcher_environment f w w' -> fetcher_step (f, w) (f, w').

Lemma fetcher_environment_inv f w w' :
  fetcher_environment f w w' -> fetcher_inv [] [] [] f w -> fetcher_inv [] [] [] f w'.
Proof.
  intros (Hst & Hwf & Hm) [I1 I2 I3 I4 I5 I6 I7 I8 I9 I10 I11 I12 I13 I14 I15 I16 I17 I18].
  pose proof Hst as (Hb & _ & Hl & _). constructor; try done.
  - by apply (pool_wf_stable _ w w').
  - intros b Hin. pose proof Hin as [i Hi]%list_elem_of_lookup. destruct (pw_ids _ _ I1 i b Hi) as [Hd _].
    destruct (Hb b Hd) as (_ & _ & ->). auto.
  - split; [|apply I4]. eapply ss_inv_stable; [done|apply I4].
  - by apply (ch_inv_stable _ w w').
  - by rewrite Hl.
Qed.

Lemma fetcher_step_inv s s' :
  fetcher_step s s' -> fetcher_inv [] [] [] s.1 s.2 -> fetcher_inv [] [] [] s'.1 s'.2.
Proof.
  destruct 1 as [f w id f' Hid E|f w f' w' E|f w|f w|f w w' He]; cbn [fst snd]; intros I.
  - destruct (handle_fetch_request_inv id f w I Hid) as (f1 & E1 & I1 & _). rewrite E in E1. by simplify_eq.
  - destruct (fetcher_update_inv f w I) as (f1 & w1 & E1 & I1 & _). rewrite E in E1. by simplify_eq.
  - by apply take_finished_inv.
  - by apply disconnect_inv.
  - by eapply fetcher_environment_inv.
Qed.

Lemma fetcher_steps_inv s s' :
  rtc fetcher_step s s' -> fetcher_inv [] [] [] s.1 s.2 -> fetcher_inv [] [] [] s'.1 s'.2.
Proof. induction 1; eauto using fetcher_step_inv. Qed.

(** The stripes being worked on, by place. *)
Definition in_progress f : list nat :=
  fetch_queue f ++ ss_outstanding (sf_source f) ++ outstanding (sf_target f).

Lemma in_progress_spec f w :
  fetcher_inv [] [] [] f w ->
  NoDup (in_progress f) /\
  (forall id, id ∈ in_progress f <-> active f id \/ stripe_states f !! id = Some FQueued) /\
  (forall id, id ∈ in_progress f -> missing w id).
Proof.
  intros I. assert (forall id, id ∈ in_progress f <-> active f id \/ stripe_states f !! id = Some FQueued) as Hin.
  { intros id. unfold in_progress. rewrite (fv_out _ _ _ _ _ I), <- (fv_queue _ _ _ _ _ I). cbn [app].
    rewrite elem_of_app. tauto. }
  split_and!; [|done|].
  - apply NoDup_app. split_and!; [apply I| |apply I].
    intros id Hq%(fv_queue _ _ _ _ _ I) Ho. assert (active f id) as [E|E] by (apply (fv_out _ _ _ _ _ I); done); congruence.
  - intros id Hid. by apply (fv_missing _ _ _ _ _ I), Hin.
Qed.

Lemma no_buffer_leaked f w :
  fetcher_inv [] [] [] f w -> ss_outstanding (sf_source f) = [] -> outstanding (sf_target f) = [] ->
  forall i, (i < length (pool_buffers (sf_pool f)))%nat -> i ∈ available_buffers (sf_pool f).
Proof.
  intros I Hs Ht i Hi. apply (pw_avail _ _ (fv_pool _ _ _ _ _ I)).
  destruct (lookup_lt_is_Some_2 (pool_buffers (sf_pool f)) i Hi) as [b Hb].
  destruct (lookup_lt_is_Some_2 (in_use (sf_pool f)) i) as [[|] Hu];
    [rewrite <- (pw_len _ _ (fv_pool _ _ _ _ _ I)); done| |done].
  destruct (fv_handed _ _ _ _ _ I b) as [id Hid]; [by exists i|].
  assert (active f id) as Ha by (apply (fv_alloc _ _ _ _ _ I); eauto).
  apply (fv_out _ _ _ _ _ I) in Ha. cbn [app] in Ha. rewrite Hs, Ht in Ha. by apply elem_of_nil in Ha.
Qed.
End fetcher_proofs.


(** *** A concrete run over two files, used by the witnesses

    The source (file 1) has 33 sectors and the target (file 2) 40; a stripe has
    two sectors, so the source ends in the middle of stripe 16. *)

Notation sync_fetcher := (StripeFetcher (BlockDeviceStripeSource SyncIoChannel) SyncIoChannel).

Definition demo_source_data : list Z :=
  flat_map (fun i => replicate SECTOR_SIZE (Z.of_nat i + 1)) (seq 0 33).
Definition demo_target_data : list Z := replicate (40 * SECTOR_SIZE) 0.

Definition fetch_world : World :=
  mkWorld ∅ 0 {[ 1%nat := mkDisk demo_source_data []; 2%nat := mkDisk demo_target_data [] ]} []
    (new_shared (new_metadata 1 20 17)) [] true.

Definition fetch_source : BlockDeviceStripeSource SyncIoChannel :=
  mkBdevSource (mkSyncCh 1 false []) 2 33.

Definition fetch_state : Type := sync_fetcher * World.
Definition fetch_none : fetch_state :=
  (mkFetcher (inl fetch_source) (mkSyncCh 2 true []) 33 40 2 [] [] (mkPool [] [] []) ∅ ∅ ∅ [] false false,
   fetch_world).

Definition fetch_open : fetch_state :=
  match fetcher_new fetch_source (mkSyncDev 2 40 false) 2 4096 true fetch_world with
  | Done (Ok f, w) => (f, w)
  | _ => fetch_none
  end.

Definition fetch_update (s : fetch_state) : fetch_state :=
  match fetcher_update s.1 s.2 with Done s' => s' | Panic _ => fetch_none end.

Lemma fetch_opens :
  fetcher_new fetch_source (mkSyncDev 2 40 false) 2 4096 true fetch_world = Done (Ok fetch_open.1, fetch_open.2).
Proof.
  assert (match fetcher_new fetch_source (mkSyncDev 2 40 false) 2 4096 true fetch_world with
          | Done (Ok _, _) => true | _ => false end = true) as Hok by (vm_compute; reflexivity).
  unfold fetch_open. destruct (fetcher_new _ _ _ _ _ _) as [[[f|e] w]|p]; [reflexivity|discriminate..].
Qed.

Lemma fetch_world_fresh : fresh_world fetch_world.
Proof. by apply no_buffers_fresh. Qed.

Lemma fetch_world_shared : shared_wf (w_shared fetch_world).
Proof.
  apply new_shared_wf.
  - apply new_metadata_wf; unfold MAX_STRIPE_SECTOR_COUNT_SHIFT, U32_MAX; lia.
  - apply new_metadata_headers_ok.
Qed.

Definition run_fetch (n : nat) : fetch_state := Nat.iter n fetch_update fetch_open.

Lemma fetch_open_inv : fetcher_inv [] [] [] fetch_open.1 fetch_open.2.
Proof.
  apply (fetcher_new_inv fetch_source (mkSyncDev 2 40 false) 2 4096 true fetch_world);
    [exact fetch_world_fresh|reflexivity|lia|done|cbn; lia|reflexivity|exact fetch_world_shared| |exact fetch_opens].
  vm_compute. discriminate.
Qed.

(** Every update of the run returns. *)
Lemma run_fetch_steps n :
  rtc fetcher_step fetch_open (run_fetch n) /\ fetcher_inv [] [] [] (run_fetch n).1 (run_fetch n).2.
Proof.
  induction n as [|n [IH I]]; [split; [apply rtc_refl|apply fetch_open_inv]|].
  destruct (fetcher_update_inv _ _ I) as (f' & w' & E & I' & _).
  assert (run_fetch (Datatypes.S n) = (f', w')) as -> by (change (fetch_update (run_fetch n) = (f', w')); unfold fetch_update; by rewrite E).
  split; [|done]. eapply rtc_r; [exact IH|]. destruct (run_fetch n). by apply fstep_update.
Qed.


(** *** A target whose [submit] fails

    A channel that, as the io_uring one, keeps its entries when [submit] fails
    and reports them later.  [keep_submits] says which calls succeed. *)
Record KeepingChannel := mkKeeping { keep_inner : SyncIoChannel; keep_submits : list bool }.

#[global] Instance keeping_channel : IoChannel KeepingChannel := {
  add_read so n b id c w :=
    '(i, w) ← add_read so n b id (keep_inner c) w; Done (mkKeeping i (keep_submits c), w);
  add_write so n b id c w :=
    '(i, w) ← add_write so n b id (keep_inner c) w; Done (mkKeeping i (keep_submits c), w);
  add_flush id c w := '(i, w) ← add_flush id (keep_inner c) w; Done (mkKeeping i (keep_submits c), w);
  submit c w :=
    match keep_submits c with
    | false :: rest => Done (Err (IoError OtherIo), mkKeeping (keep_inner c) rest, w)
    | _ :: rest => Done (Ok tt, mkKeeping (keep_inner c) rest, w)
    | [] => Done (Ok tt, c, w)
    end;
  poll c w := '(rs, i, w) ← poll (keep_inner c) w; Done (rs, mkKeeping i (keep_submits c), w);
  busy c := busy (keep_inner c);
}.

Notation keeping_fetcher := (StripeFetcher (BlockDeviceStripeSource SyncIoChannel) KeepingChannel).

(** Stripe 0 is requested, the submission of its write fails, and so does the
    write itself once the entry is carried out. *)
Definition keeping_open : outcome (keeping_fetcher * World) :=
  let '(f, w) := fetch_open in
  f ← handle_fetch_request 0 (mkFetcher (sf_source f) (mkKeeping (sf_target f) [false])
        (sf_source_sector_count f) (sf_target_sector_count f) (sf_stripe_sector_count f) [] [] (sf_pool f)
        ∅ ∅ ∅ [] false false) w;
  Done (f, set_faults w [None; Some 0%nat]).

Definition keeping_update (s : outcome (keeping_fetcher * World)) : outcome (keeping_fetcher * World) :=
  '(f, w) ← s; fetcher_update f w.

(** The queue, the state of stripe 0, the reports, whether anything is
    outstanding, and the number of free buffers. *)
Definition keeping_view (s : outcome (keeping_fetcher * World))
  : option (list nat * option FetchState * list (nat * bool) * bool * nat) :=
  match s with
  | Done (f, _) => Some (fetch_queue f, stripe_states f !! 0%nat, finished_fetches f,
      ss_busy (sf_source f) || busy (sf_target f), length (available_buffers (sf_pool f)))
  | Panic _ => None
  end.

(** After one update the stripe is queued twice, once for the failed [submit]
    and once for the late completion.  After two it is reported as fetched
    because the completion of the second write passes for that of the flush;
    after three nothing is outstanding and one of the 16 buffers is lost. *)
Lemma failed_submit_duplicates :
  keeping_view (keeping_update keeping_open) =
    Some ([0; 0]%nat, Some FQueued, [], false, 16%nat) /\
  keeping_view (keeping_update (keeping_update keeping_open)) =
    Some ([], Some FFetched, [(0%nat, true)], true, 15%nat) /\
  keeping_view (keeping_update (keeping_update (keeping_update keeping_open))) =
    Some ([], Some FFetched, [(0%nat, true)], false, 15%nat).
Proof. split_and!; vm_compute; reflexivity. Qed.
