(* ===== verification/Copying.v ===== *)
(** * Copying: what a fetched stripe holds

    [Fetcher] accounts for the stripes of a StripeFetcher; this file follows
    their bytes.  [SourceDelivers] is what the fetcher expects of a stripe
    source: when it reports success for a stripe, the buffer it was given holds
    the stripe.  Block device sources over a file keep it, alone or behind the
    flaky source, whatever file operations fail.

    [copy_inv] then follows a stripe from its buffer to the target file and to
    stable storage, next to [fetcher_inv]: a stripe reported as fetched is on
    stable storage of the target.  The closing theorem is about a stripe that
    the source covers in part: the rest of it is what its buffer held before. *)
From S2P Require Import Prelude Metadata SharedState World Device StripeSource Fetcher.

(** ** Bytes at a place *)

Definition present (data : list Z) (off : nat) (bs : list Z) : Prop :=
  take (length bs) (drop off data) = bs.

Lemma present_lookup data off bs :
  present data off bs <-> forall i x, bs !! i = Some x -> data !! (off + i)%nat = Some x.
Proof.
  unfold present. split.
  - intros E i x Hx. rewrite <- E in Hx. apply lookup_take_Some in Hx as [Hx _]. by rewrite lookup_drop in Hx.
  - intros Hl. apply list_eq. intros i. destruct (bs !! i) as [x|] eqn:Hx.
    + rewrite lookup_take_lt by (by eapply lookup_lt_Some). rewrite lookup_drop. auto.
    + apply lookup_take_ge. by apply lookup_ge_None in Hx.
Qed.

Lemma present_take data off bs k : present data off bs -> present data off (take k bs).
Proof.
  rewrite !present_lookup. intros Hl i x [Hx _]%lookup_take_Some. auto.
Qed.

Lemma present_app data off bs bs' :
  present data off (bs ++ bs') <-> present data off bs /\ present data (off + length bs) bs'.
Proof.
  rewrite !present_lookup. split.
  - intros Hl. split; intros i x Hx; [apply Hl; by apply lookup_app_l_Some|].
    rewrite <- Nat.add_assoc. apply Hl. by rewrite lookup_app_r, Nat.add_comm, Nat.add_sub by lia.
  - intros [H1 H2] i x [Hx|[Hi Hx]]%lookup_app_Some; [auto|].
    apply H2 in Hx. by replace (off + i)%nat with (off + length bs + (i - length bs))%nat by lia.
Qed.

(** Bytes kept in a window are kept. *)
Lemma present_window data data' off len bs :
  (length bs <= len)%nat -> take len (drop off data') = take len (drop off data) ->
  present data off bs -> present data' off bs.
Proof.
  intros Hl E. unfold present. rewrite <- (Nat.min_l (length bs) len) by done.
  rewrite <- !take_take, E. done.
Qed.

Lemma file_write_keeps data off bs i x :
  data !! i = Some x -> (i < off \/ off + length bs <= i)%nat -> file_write data off bs !! i = Some x.
Proof.
  intros Hx Hi. pose proof (lookup_lt_Some _ _ _ Hx) as Hlt. unfold file_write.
  assert (length (take off (data ++ replicate (off - length data) 0)) = off) as Hlen
    by (rewrite length_take, length_app, length_replicate; lia).
  destruct Hi as [Hi|Hi].
  - rewrite lookup_app_l by lia. rewrite lookup_take_lt by done. by rewrite lookup_app_l.
  - rewrite lookup_app_r by lia. rewrite Hlen, lookup_app_r by lia. rewrite lookup_drop. rewrite <- Hx. f_equal. lia.
Qed.

Lemma file_write_present data off bs : present (file_write data off bs) off bs.
Proof.
  apply present_lookup. intros i x Hx. pose proof (lookup_lt_Some _ _ _ Hx). unfold file_write.
  assert (length (take off (data ++ replicate (off - length data) 0)) = off) as Hlen
    by (rewrite length_take, length_app, length_replicate; lia).
  rewrite lookup_app_r, Hlen by lia. rewrite lookup_app_l by lia. rewrite <- Hx. f_equal. lia.
Qed.

(** A write beside the bytes leaves them. *)
Lemma present_file_write data off bs off' bs' :
  present data off bs -> (off + length bs <= off' \/ off' + length bs' <= off)%nat ->
  present (file_write data off' bs') off bs.
Proof.
  rewrite !present_lookup. intros Hl Hd i x Hx. pose proof (lookup_lt_Some _ _ _ Hx).
  apply file_write_keeps; [auto|lia].
Qed.

Lemma slice_inv (v : list Z) start len x :
  slice v start len = Done x -> x = take len (drop start v) /\ (start + len <= length v)%nat.
Proof. unfold slice. case_decide; [|done]. by intros [= <-]. Qed.

Lemma return_buffer_buffers p b w p' : return_buffer p b w = Done p' -> pool_buffers p' = pool_buffers p.
Proof.
  unfold return_buffer. intros E. destruct (negb _); [done|]. apply bind_done in E as (u & _ & E).
  destruct (negb u); [done|]. apply bind_done in E as (o & _ & E). destruct (negb _); [done|].
  apply bind_done in E as (iu & _ & E). by injection E as <-.
Qed.

(** ** What a source promises about data

    [al] says which buffer each requested stripe was given; [file] is the file
    behind the source. *)
Class SourceDelivers (S : Type) `{SourceContract S} (file : nat) (content : nat -> list Z) := {
  sd_inv : gmap nat nat -> S -> World -> Prop;
  sd_valid : nat -> Prop;
  sd_keep al al' s w w' : sd_inv al s w ->
    (forall id, id ∈ ss_outstanding s -> al' !! id = al !! id /\
       forall b, al !! id = Some b -> read_buf w' b = read_buf w b) ->
    disk_data (disk_at w' file) = disk_data (disk_at w file) -> sd_inv al' s w';
  sd_request id b al s w r s' w' : sd_valid id -> sd_inv al s w -> id ∉ ss_outstanding s ->
    (forall j b', al !! j = Some b' -> b' <> b) -> ss_request id b s w = Done (r, s', w') ->
    sd_inv (<[id := b]> al) s' w' /\ (w_disks w' = w_disks w /\ w_shared w' = w_shared w) /\
    forall b', b' <> b -> read_buf w' b' = read_buf w b';
  sd_poll al s w rs s' w' : sd_inv al s w -> ss_poll s w = Done (rs, s', w') ->
    sd_inv al s' w' /\ (w_disks w' = w_disks w /\ w_shared w' = w_shared w) /\
    forall id, (id, true) ∈ rs -> exists b, al !! id = Some b /\ present (read_buf w' b) 0 (content id);
}.
Arguments sd_inv {S _ _ file content _}.
Arguments sd_valid {S _ _} file content {_}.

(** Stripe [id] of a source of [n] sectors in a file with contents [data]. *)
Definition source_stripe (data : list Z) (ssc n : Z) (id : nat) : list Z :=
  let off := Z.of_nat id * ssc in
  take (Z.to_nat (ssc `min` (n - off)) * SECTOR_SIZE) (drop (Z.to_nat off * SECTOR_SIZE) data).

#[local] Obligation Tactic := idtac.

(** A block device source over a file. *)
Section file_source.
Context (file : nat) (data : list Z) (ssc n : Z).

(** A read that is reported as successful has put the sectors in the buffer. *)
Lemma sync_read_delivers so k b id c w c' w' :
  sync_add_read so k b id c w = Done (c', w') ->
  (w_disks w' = w_disks w /\ w_shared w' = w_shared w) /\ (forall b', b' <> b -> read_buf w' b' = read_buf w b') /\
  exists ok, c' = sync_finish c id ok /\
    (ok = true -> present (read_buf w' b) 0
       (take (Z.to_nat k * SECTOR_SIZE) (drop (byte_offset so) (disk_data (disk_at w (sync_file c)))))).
Proof.
  unfold sync_add_read. set (len := (Z.to_nat k * SECTOR_SIZE)%nat). intros E.
  destruct (slice (read_buf w b) 0 len) as [dst|] eqn:Es; [|done]. cbn [mbind outcome_bind] in E.
  assert (length dst = len) as Hdst.
  { apply slice_inv in Es as [-> Hl]. rewrite length_take, length_drop. lia. }
  destruct (read_exact_at _ _ _ _) as [[ok filled] w1] eqn:Er. injection E as <- <-.
  destruct (read_exact_at_frame _ _ _ _ _ _ _ Er) as ((_ & _ & _ & Hsh & _) & Hfl & Hb).
  assert (w_disks w1 = w_disks w) as Hd
    by (unfold read_exact_at, next_fault in Er; destruct (w_faults w) as [|[?|] ?]; by simplify_eq/=).
  split_and!; [done|done| |].
  - intros b' Hne. rewrite read_write_buf_ne by done. by apply read_buf_bufs.
  - exists ok. split; [done|]. intros ->. rewrite read_write_buf_eq.
    assert (filled = take len (drop (byte_offset so) (disk_data (disk_at w (sync_file c)))) ) as <-.
    { unfold read_exact_at, next_fault in Er. rewrite Hdst in Er.
      destruct (w_faults w) as [|[?|] ?]; simplify_eq/=;
        match goal with E : bool_decide _ = true |- _ => apply bool_decide_eq_true in E end; apply overlay_all; by rewrite Hdst. }
    unfold present. rewrite drop_0. by apply take_app_length.
Qed.

#[global] Program Instance file_source_delivers :
  SourceDelivers (BlockDeviceStripeSource SyncIoChannel) file (source_stripe data ssc n) := {
  sd_inv al s w :=
    sync_file (bs_channel s) = file /\ disk_data (disk_at w file) = data /\
    (bs_stripe_sector_count s = ssc /\ bs_source_sector_count s = n /\ 0 <= ssc < 2 ^ 32) /\
    forall id, (id, true) ∈ sync_finished (bs_channel s) ->
      exists b, al !! id = Some b /\ present (read_buf w b) 0 (source_stripe data ssc n id);
  sd_valid id := Z.of_nat id * ssc * Z.of_nat SECTOR_SIZE < 2 ^ 64;
}.
Next Obligation.
  intros al al' s w w' (H1 & H2 & H3 & H4) Hal Hd. split_and!; [done|congruence|apply H3..|].
  intros id Hid. destruct (H4 id Hid) as (b & Hb & Hp).
  destruct (Hal id) as [E Hr]; [apply list_elem_of_fmap; by exists (id, true)|].
  exists b. rewrite E. split; [done|]. by rewrite (Hr b Hb).
Qed.
Next Obligation.
  intros id b al s w r s' w' Hv (H1 & H2 & (H3 & H4 & H5) & H6) Hnew Hal. cbn [ss_request bdev_source].
  unfold bdev_request. rewrite H3, H4.
  pose proof (Z.mul_nonneg_nonneg (Z.of_nat id) ssc ltac:(lia) ltac:(lia)) as H0.
  assert (0 <= Z.of_nat id * ssc < 2 ^ 64) as Hoff by (cbn beta in Hv; change (Z.of_nat SECTOR_SIZE) with 512 in Hv; lia).
  assert (wrap64 (Z.of_nat id * ssc) = Z.of_nat id * ssc) as -> by (by apply Z.mod_small).
  assert (forall j, (j, true) ∈ sync_finished (bs_channel s) -> j <> id) as Hne.
  { intros j Hj ->. apply Hnew. apply list_elem_of_fmap. by exists (id, true). }
  destruct (Z.leb_spec n (Z.of_nat id * ssc)) as [Hout|Hin]; intros E.
  - injection E as <- <- <-. split_and!; try (done || lia). intros j Hj. destruct (H6 j Hj) as (b' & Hb' & Hp).
    exists b'. rewrite lookup_insert_ne by (symmetry; eauto). done.
  - cbn [add_read submit sync_channel] in E.
    destruct (sync_add_read _ _ _ _ _ _) as [[c1 w1]|] eqn:E1; [|done]. cbn [mbind outcome_bind] in E.
    injection E as <- <- <-. destruct (sync_read_delivers _ _ _ _ _ _ _ _ E1) as ([Hd Hsh] & Hb & ok & -> & Hok).
    split_and!; try (done || lia); cbn [bs_channel bs_stripe_sector_count bs_source_sector_count sync_finish sync_file sync_finished].
    + unfold disk_at. by rewrite Hd.
    + intros j [Hj|Hj]%elem_of_app.
      * destruct (H6 j Hj) as (b' & Hb' & Hp). exists b'. rewrite lookup_insert_ne by (symmetry; eauto).
        split; [done|]. rewrite Hb; [done|]. by eapply Hal.
      * apply list_elem_of_singleton in Hj. injection Hj as -> <-. exists b. rewrite lookup_insert_eq. split; [done|].
        specialize (Hok eq_refl). rewrite H1, H2, byte_offset_small in Hok by (try exact Hv; lia).
        unfold source_stripe. unfold wrap32 in Hok. rewrite Z.mod_small in Hok by lia. exact Hok.
Qed.
Next Obligation.
  intros al s w rs s' w' (H1 & H2 & H3 & H4). cbn. intros E. injection E as <- <- <-.
  split_and!; try done; cbn; [apply H3..|by intros id Hid%elem_of_nil].
Qed.
End file_source.

(** The source the fetcher has after disconnecting refuses every request. *)
#[global] Program Instance null_source_delivers file content :
  SourceDelivers (BlockDeviceStripeSource NullIoChannel) file content := {
  sd_inv al s w := null_finished (bs_channel s) = [] /\ bs_source_sector_count s = 0;
  sd_valid id := True;
}.
Next Obligation. done. Qed.
Next Obligation.
  intros file content id b al s w r s' w' _ [H1 H2] _ _. cbn [ss_request bdev_source]. unfold bdev_request. rewrite H2.
  assert (0 <= wrap64 (Z.of_nat id * bs_stripe_sector_count s)) as Hz by (apply Z.mod_pos_bound; lia).
  rewrite (proj2 (Z.leb_le _ _) Hz). intros E. by injection E as <- <- <-.
Qed.
Next Obligation.
  intros file content al s w rs s' w' [H1 H2]. cbn. intros E. injection E as <- <- <-. rewrite H1.
  split_and!; try done. by intros id Hid%elem_of_nil.
Qed.

#[global] Program Instance sum_source_delivers {S T} file content `{SourceDelivers S file content} `{SourceDelivers T file content} :
  SourceDelivers (S + T) file content := {
  sd_inv al s w := match s with inl s => sd_inv al s w | inr t => sd_inv al t w end;
  sd_valid id := sd_valid (S := S) file content id /\ sd_valid (S := T) file content id;
}.
Next Obligation. intros S T file content ??? ??? al al' [s|t] w w'; cbn; apply sd_keep. Qed.
Next Obligation.
  intros S T file content ??? ??? id b al [s|t] w r s' w' [V1 V2] Hi Hn Hal; cbn in *; intros E;
    (destruct (ss_request id b _ w) as [[[r1 s1] w1]|] eqn:E1; [|done]); cbn [mbind outcome_bind] in E;
    injection E as <- <- <-; eapply sd_request; eassumption.
Qed.
Next Obligation.
  intros S T file content ??? ??? al [s|t] w rs s' w' Hi; cbn in *; intros E;
    (destruct (ss_poll _ w) as [[[r1 s1] w1]|] eqn:E1; [|done]); cbn [mbind outcome_bind] in E;
    injection E as <- <- <-; eapply sd_poll; eassumption.
Qed.

(** Failures put in by the flaky source only withhold successes. *)
#[global] Program Instance flaky_source_delivers {S} file content `{SourceDelivers S file content} :
  SourceDelivers (FlakyStripeSource S) file content := {
  sd_inv al s w := sd_inv al (fl_inner s) w;
  sd_valid id := sd_valid (S := S) file content id;
}.
Next Obligation. intros S file content ??? al al' s w w'; cbn; apply sd_keep. Qed.
Next Obligation.
  intros S file content ??? id b al s w r s' w' V Hi Hn Hal; cbn in *; intros E.
  destruct (ss_request id b _ w) as [[[r1 s1] w1]|] eqn:E1; [|done]. cbn [mbind outcome_bind] in E.
  injection E as <- <- <-. eapply sd_request; eassumption.
Qed.
Next Obligation.
  intros S file content ??? al s w rs s' w' Hi; cbn in *; intros E.
  destruct (ss_poll _ w) as [[[r1 s1] w1]|] eqn:E1; [|done]. cbn [mbind outcome_bind] in E.
  destruct (flaky_map _ r1) as [rs' rem'] eqn:Em. injection E as <- <- <-.
  destruct (sd_poll _ _ _ _ _ _ Hi E1) as (Hi' & [Hd Hsh] & Hp). split_and!; try done.
  intros id [i Hid]%list_elem_of_lookup. apply Hp. destruct (flaky_map_spec _ _ _ _ Em) as (Hl & Hm & _).
  pose proof (lookup_lt_Some _ _ _ Hid) as Hlt. rewrite Hl in Hlt.
  destruct (lookup_lt_is_Some_2 _ _ Hlt) as [[id' ok] Hc]. pose proof (Hm i id' ok Hc) as Hi2. rewrite Hid in Hi2.
  injection Hi2 as -> Hok. symmetry in Hok. apply andb_true_iff in Hok as [-> _]. apply list_elem_of_lookup; eauto.
Qed.

(** ** Following the bytes *)

(** What a write to a file does, whatever becomes of it. *)
Lemma sync_write_effect so k b id c w c' w' (bytes := take (Z.to_nat k * SECTOR_SIZE) (read_buf w b)) :
  sync_add_write so k b id c w = Done (c', w') ->
  frame w w' /\ (forall b', read_buf w' b' = read_buf w b') /\
  (forall d, d <> sync_file c -> disk_at w' d = disk_at w d) /\
  disk_synced (disk_at w' (sync_file c)) = disk_synced (disk_at w (sync_file c)) /\
  exists ok, c' = sync_finish c id ok /\
    let data := disk_data (disk_at w (sync_file c)) in
    let data' := disk_data (disk_at w' (sync_file c)) in
    (ok = false /\ data' = data \/
     exists j, data' = file_write data (byte_offset so) (take j bytes) /\ (ok = true -> take j bytes = bytes)).
Proof.
  unfold sync_add_write. intros E. destruct (slice _ _ _) as [src|] eqn:Es; [|done]. cbn [mbind outcome_bind] in E.
  apply slice_inv in Es as [-> _]. rewrite drop_0 in E. fold bytes in E.
  destruct (write_all_at _ _ _ _ _) as [ok w1] eqn:Ew. injection E as <- <-.
  destruct (write_all_at_frame _ _ _ _ _ _ _ Ew) as [Hfr Hb]. split; [done|].
  unfold write_all_at, next_fault in Ew.
  destruct (w_faults w) as [|[n|] fs], (sync_writable c); simplify_eq/=;
    (split; [intros b'; by apply read_buf_bufs|]); unfold disk_at; cbn [w_disks set_disks set_faults];
    rewrite ?lookup_insert_eq; cbn [default disk_data disk_synced from_option];
    (split; [intros d Hd; by rewrite ?lookup_insert_ne by done|split; [done|]]); eexists; (split; [done|]); eauto.
  - right. exists (length bytes). by rewrite (take_ge bytes) by done.
  - right. by exists n.
  - right. exists (length bytes). by rewrite (take_ge bytes) by done.
Qed.

Lemma sync_flush_effect id c w c' w' :
  sync_add_flush id c w = Done (c', w') ->
  frame w w' /\ (forall b', read_buf w' b' = read_buf w b') /\
  (forall d, d <> sync_file c -> disk_at w' d = disk_at w d) /\
  (forall d, disk_data (disk_at w' d) = disk_data (disk_at w d)) /\
  exists ok, c' = sync_finish c id ok /\
    disk_synced (disk_at w' (sync_file c)) =
      (if ok then disk_data else disk_synced) (disk_at w (sync_file c)).
Proof.
  unfold sync_add_flush. intros E. destruct (sync_all _ _) as [ok w1] eqn:Ew. injection E as <- <-.
  destruct (sync_all_frame _ _ _ _ Ew) as [Hfr Hb]. split; [done|]. unfold sync_all, next_fault in Ew.
  destruct (w_faults w) as [|[n|] fs]; simplify_eq/=;
    (split; [intros b'; by apply read_buf_bufs|]); unfold disk_at; cbn [w_disks set_disks set_faults];
    (split; [intros d Hd; by rewrite ?lookup_insert_ne by done|]);
    (split; [intros d; try done|eexists; split; [done|]; by rewrite ?lookup_insert_eq]);
    (destruct (decide (sync_file c = d)) as [<-|]; [by rewrite lookup_insert_eq|by rewrite lookup_insert_ne]).
Qed.

Lemma disk_at_disks w w' d : w_disks w' = w_disks w -> disk_at w' d = disk_at w d.
Proof. unfold disk_at. by intros ->. Qed.

Lemma missing_shared w w' id : w_shared w' = w_shared w -> missing w' id <-> missing w id.
Proof. unfold missing. by intros ->. Qed.

Lemma elem_of_finished c id ok pt j :
  (j, true) ∈ pt ++ sync_finished (sync_finish c id ok) ->
  (j, true) ∈ pt ++ sync_finished c \/ j = id /\ ok = true.
Proof.
  cbn [sync_finish sync_finished]. rewrite app_assoc. intros [?|E%list_elem_of_singleton]%elem_of_app; [auto|].
  injection E as -> <-. auto.
Qed.

Section copying.
#[local] Set Default Proof Using "Type*".
Context {S : Type} `{SourceSafe S} `{!SourceContract S}.
Context (sfile tfile : nat) (ssc m : Z) (stripes : nat) (content : nat -> list Z) (bufs : list nat).
Context `{!SourceDelivers S sfile content}.
Notation fetcher := (StripeFetcher S SyncIoChannel).
Implicit Types (f : fetcher) (w : World) (ps pt : list (nat * bool)).

(** The parameters of a fetcher whose stripes, stripe by stripe, fit the target
    of [m] sectors and do not overflow a 64-bit offset. *)
Record copy_params : Prop := {
  cp_files : sfile <> tfile;
  cp_ssc : 0 <= ssc < 2 ^ 32;
  cp_target : 0 <= m < 2 ^ 64;
  cp_fits : forall id, (length (content id) <= Z.to_nat (ssc `min` (m - Z.of_nat id * ssc)) * SECTOR_SIZE)%nat;
  cp_valid : forall id, (id < stripes)%nat -> sd_valid (S := S) sfile content id;
  cp_offset : Z.of_nat stripes * ssc * Z.of_nat SECTOR_SIZE < 2 ^ 64;
}.

(** A stripe's place in the target, in bytes. *)
Definition stripe_bytes : nat := Z.to_nat ssc * SECTOR_SIZE.
Definition stripe_start (id : nat) : nat := id * stripe_bytes.

Definition written w (id : nat) : Prop := present (disk_data (disk_at w tfile)) (stripe_start id) (content id).
Definition stored w (id : nat) : Prop :=
  written w id /\ present (disk_synced (disk_at w tfile)) (stripe_start id) (content id).

Record copy_inv ps pt f w : Prop := {
  c_source : sd_inv (allocated_buffers f) (sf_source f) w;
  c_target : sync_file (sf_target f) = tfile;
  c_size : sf_stripe_sector_count f = ssc /\ sf_target_sector_count f = m /\
           length (stripe_fetch_states (w_shared w)) = stripes;
  c_read : forall id, (id, true) ∈ ps ->
    exists b, allocated_buffers f !! id = Some b /\ present (read_buf w b) 0 (content id);
  c_write : forall id, (id, true) ∈ pt ++ sync_finished (sf_target f) ->
    (stripe_states f !! id = Some FFetching -> written w id) /\
    (stripe_states f !! id = Some FFlushing -> stored w id);
  c_done : forall id, stripe_states f !! id = Some FFetched -> missing w id -> stored w id;
  c_pool : pool_buffers (sf_pool f) = bufs;
}.

Lemma written_disk w w' id : disk_data (disk_at w' tfile) = disk_data (disk_at w tfile) -> written w id -> written w' id.
Proof using. unfold written. by intros ->. Qed.

Lemma stored_disk w w' id : disk_at w' tfile = disk_at w tfile -> stored w id -> stored w' id.
Proof using. unfold stored, written. by intros ->. Qed.

Lemma copy_inv_sub ps pt ps' pt' f w :
  ps' ⊆ ps -> pt' ⊆ pt -> copy_inv ps pt f w -> copy_inv ps' pt' f w.
Proof.
  intros Hs Ht [C1 C2 C3 C4 C5 C6 C7]. constructor; try done; [auto|].
  intros id [?|?]%elem_of_app; apply C5; rewrite elem_of_app; auto.
Qed.

Context (P : copy_params).

Lemma content_length id : (length (content id) <= stripe_bytes)%nat.
Proof. pose proof (cp_fits P id). unfold stripe_bytes. nia. Qed.

(** Writing inside one stripe leaves the others. *)
Lemma write_other_stripe data id bs j :
  j <> id -> (length bs <= stripe_bytes)%nat -> present data (stripe_start j) (content j) ->
  present (file_write data (stripe_start id) bs) (stripe_start j) (content j).
Proof.
  intros Hj Hl Hp. apply present_file_write; [done|]. pose proof (content_length j). unfold stripe_start.
  destruct (Nat.lt_total j id) as [Hlt|[->|Hlt]]; [|done|]; pose proof (block_within _ _ stripe_bytes Hlt); lia.
Qed.

(** Offset and size of the write of a stripe. *)
Lemma write_place id : (id < stripes)%nat ->
  let off := wrap64 (Z.of_nat id * ssc) in
  let k := wrap32 (ssc `min` wrap64 (m - off)) in
  byte_offset off = stripe_start id /\ (length (content id) <= Z.to_nat k * SECTOR_SIZE <= stripe_bytes)%nat.
Proof.
  intros Hid. destruct P as [_ Hs Hm Hf _ Ho]. specialize (Hf id).
  assert (Z.of_nat id * ssc <= Z.of_nat stripes * ssc) by nia.
  assert (0 <= Z.of_nat id * ssc) by nia. change (Z.of_nat SECTOR_SIZE) with 512 in Ho.
  cbn zeta. assert (wrap64 (Z.of_nat id * ssc) = Z.of_nat id * ssc) as -> by (apply Z.mod_small; lia).
  rewrite byte_offset_small by (change (Z.of_nat SECTOR_SIZE) with 512; lia).
  split; [unfold stripe_start, stripe_bytes; rewrite Z2Nat.inj_mul, Nat2Z.id by lia; lia|].
  assert (0 <= wrap64 (m - Z.of_nat id * ssc)) by (apply Z.mod_pos_bound; lia).
  unfold wrap32. rewrite Z.mod_small by lia. unfold stripe_bytes. split; [|nia].
  destruct (Z.le_gt_cases m (Z.of_nat id * ssc)); [nia|].
  unfold wrap64. rewrite (Z.mod_small (m - _)) by lia. done.
Qed.

(** Stripe [id] is in the hand of the fetcher. *)
Definition in_hand (id : nat) ps pt f : Prop :=
  (forall ok : bool, (id, ok) ∉ ps) /\ (forall ok : bool, (id, ok) ∉ pt ++ sync_finished (sf_target f)) /\
  id ∉ ss_outstanding (sf_source f) /\ stripe_states f !! id <> Some FFetched.

Lemma hole_in_hand id ps pt f w : fetcher_inv [id] ps.*1 pt.*1 f w -> in_hand id ps pt f.
Proof.
  intros I. pose proof (fv_out_nodup _ _ _ _ _ I) as [Hn _]%NoDup_cons. split_and!.
  - intros ok Hin. apply Hn. rewrite !elem_of_app. left; left. apply list_elem_of_fmap. by exists (id, ok).
  - intros ok Hin. apply Hn. rewrite elem_of_app. right. cbn [outstanding sync_contract]. rewrite <- fmap_app.
    apply list_elem_of_fmap. by exists (id, ok).
  - intros Hin. apply Hn. rewrite !elem_of_app. auto.
  - by destruct (hole_facts _ _ _ _ _ I) as (_ & _ & _ & ?).
Qed.

(** What [fetch_completed] leaves alone. *)
Lemma fetch_completed_effect id ok f w f' w' : fetch_completed id ok f w = Done (f', w') ->
  (sf_source f' = sf_source f /\ sf_target f' = sf_target f /\
   sf_stripe_sector_count f' = sf_stripe_sector_count f /\ sf_target_sector_count f' = sf_target_sector_count f) /\
  (w_bufs w' = w_bufs w /\ w_disks w' = w_disks w /\
   length (stripe_fetch_states (w_shared w')) = length (stripe_fetch_states (w_shared w)) /\
   (ok = true -> w' = w)) /\
  (forall j, j <> id -> allocated_buffers f' !! j = allocated_buffers f !! j /\
     stripe_states f' !! j = stripe_states f !! j /\ (missing w' j -> missing w j)) /\
  (stripe_states f' !! id = Some FFetched -> ok = true) /\
  pool_buffers (sf_pool f') = pool_buffers (sf_pool f).
Proof.
  unfold fetch_completed. intros E. apply bind_done in E as (f1 & E1 & E).
  assert (exists pool al, f1 = set_buffers f pool al /\ pool_buffers pool = pool_buffers (sf_pool f) /\
    forall j, j <> id -> al !! j = allocated_buffers f !! j) as (pool & al & -> & Hpool & Hal).
  { destruct (allocated_buffers f !! id) as [b|] eqn:Eb.
    - apply bind_done in E1 as (pool & Er & E1). injection E1 as <-. do 2 eexists. split_and!; [done| |].
      + by eapply return_buffer_buffers.
      + intros j Hj. by rewrite lookup_delete_ne.
    - injection E1 as <-. exists (sf_pool f), (allocated_buffers f). by destruct f. }
  destruct ok; [|destruct (_ <? _)].
  - injection E as <- <-. fields. split_and!; try done. intros j Hj. by rewrite lookup_insert_ne, Hal.
  - injection E as <- <-. fields. split_and!; try done; [|by rewrite lookup_insert_eq].
    intros j Hj. by rewrite lookup_insert_ne, Hal.
  - apply bind_done in E as (sh & Es & E). injection E as <- <-. fields.
    unfold set_stripe_failed, set_index in Es. case_decide; [|done]. cbn in Es. injection Es as <-. cbn [w_shared stripe_fetch_states].
    rewrite length_insert, lookup_delete_eq. split_and!; try done.
    intros j Hj. rewrite lookup_delete_ne, Hal by done. split_and!; [done..|].
    intros (st & Hst & ?). exists st. cbn in Hst. by rewrite list_lookup_insert_ne in Hst by done.
Qed.

Lemma fetch_completed_copies id ok ps pt f w f' w' :
  in_hand id ps pt f -> copy_inv ps pt f w -> (ok = true -> stored w id) ->
  fetch_completed id ok f w = Done (f', w') -> copy_inv ps pt f' w'.
Proof.
  intros (Hp & Ht & Hs & Hnf) [C1 C2 C3 C4 C5 C6 C7] Hok E.
  destruct (fetch_completed_effect _ _ _ _ _ _ E) as ((Es & Et & Ec & Em) & (Eb & Ed & El & Ew) & Ej & Ef & Ep).
  assert (forall j, stored w j -> stored w' j) as Hcp by (intros j; apply stored_disk; by apply disk_at_disks).
  constructor; rewrite ?Es, ?Et, ?Ec, ?Em, ?El, ?Ep; try done.
  - eapply sd_keep; [exact C1| |by rewrite (disk_at_disks w w')]. intros j Hj. split.
    + apply Ej. by intros ->.
    + intros b _. by apply read_buf_bufs.
  - intros j Hj. destruct (C4 j Hj) as (b & Hb & Hpr). exists b. rewrite (read_buf_bufs w w') by done.
    split; [|done]. rewrite <- Hb. apply Ej. intros ->. by eapply Hp.
  - intros j Hj. destruct (Ej j) as (_ & -> & _); [intros ->; by eapply Ht|]. destruct (C5 j Hj) as [A B].
    split; [|auto]. intros Hst. eapply written_disk; [|by apply A]. by rewrite (disk_at_disks w w').
  - intros j Hst Hm. apply Hcp. destruct (decide (j = id)) as [->|Hne]; [auto|].
    destruct (Ej j Hne) as (_ & E2 & Hm'). rewrite E2 in Hst. auto.
Qed.

(** *** Writing and flushing *)

(** The write of a stripe, told by what it does to the stripes of the target. *)
Lemma stripe_write_effect b id c w c' w'
    (off := wrap64 (Z.of_nat id * ssc)) (k := wrap32 (ssc `min` wrap64 (m - off))) :
  (id < stripes)%nat -> sync_file c = tfile -> sync_add_write off k b id c w = Done (c', w') ->
  frame w w' /\ (forall b', read_buf w' b' = read_buf w b') /\ disk_at w' sfile = disk_at w sfile /\
  disk_synced (disk_at w' tfile) = disk_synced (disk_at w tfile) /\
  (forall j, j <> id -> written w j -> written w' j) /\
  exists ok, c' = sync_finish c id ok /\
    (ok = true -> present (read_buf w b) 0 (content id) -> written w' id).
Proof.
  intros Hid Hc Ew. destruct (write_place id Hid) as [Hoff Hlen]. fold off k in Hoff, Hlen.
  destruct (sync_write_effect _ _ _ _ _ _ _ _ Ew) as (Hfr & Hbuf & Hfiles & Hsy & ok & -> & Hdata).
  rewrite Hc in Hsy, Hdata, Hfiles. rewrite Hoff in Hdata. cbn zeta in Hdata. unfold written.
  split_and!; try done; [apply Hfiles, (cp_files P)| |exists ok; split; [done|]].
  - intros j Hj Hw. destruct Hdata as [[_ ->]|(i & -> & _)]; [done|]. apply write_other_stripe; try done.
    rewrite !length_take. lia.
  - intros -> Hb. destruct Hdata as [[? _]|(i & -> & Hi)]; [done|]. rewrite (Hi eq_refl).
    unfold present in Hb. rewrite drop_0 in Hb. rewrite <- Hb at 1.
    rewrite <- (Nat.min_l (length (content id)) (Z.to_nat k * SECTOR_SIZE)), <- take_take by lia.
    apply present_take, file_write_present.
Qed.

Lemma start_write_copies ok b id ps f w f' w' :
  in_hand id ps [] f -> copy_inv ps [] f w -> (id < stripes)%nat -> stripe_states f !! id = Some FFetching ->
  present (read_buf w b) 0 (content id) ->
  start_write b id f w = Done (ok, f', w') -> ok = true /\ copy_inv ps [] f' w'.
Proof.
  intros (Hp & Ht & Hs & Hnf) [C1 C2 (E1 & E2 & E3) C4 C5 C6 C7] Hid Hst Hb. unfold start_write. rewrite E1, E2.
  intros E. apply bind_done in E as ([c1 w1] & Ew & E). cbn in E. injection E as <- <- <-. split; [done|].
  destruct (stripe_write_effect _ _ _ _ _ _ Hid C2 Ew) as (Hfr & Hbuf & Hsf & Hsy & Hother & r & -> & Hr).
  pose proof Hfr as (_ & _ & _ & Esh & _).
  assert (forall j, j <> id -> stored w j -> stored w1 j) as Hcp
    by (intros j Hj [? ?]; split; [auto|by rewrite Hsy]).
  constructor; fields; rewrite ?Esh; try done.
  - eapply sd_keep; [exact C1| |by rewrite Hsf]. intros j _. split; [done|auto].
  - intros j Hj. destruct (C4 j Hj) as (b' & ? & ?). exists b'. by rewrite Hbuf.
  - intros j [Hj|[-> ->]]%elem_of_finished.
    + destruct (C5 j Hj) as [A B]. assert (j <> id) by (intros ->; by eapply Ht). auto.
    + split; [auto|]. rewrite Hst. done.
  - intros j Hj Hm. apply Hcp; [by intros ->|]. apply C6; [done|]. by rewrite <- (missing_shared w w1).
Qed.

Lemma start_flush_copies ok id pt f w f' w' :
  in_hand id [] pt f -> copy_inv [] pt f w -> stripe_states f !! id = Some FFetching -> written w id ->
  start_flush id f w = Done (ok, f', w') -> ok = true /\ copy_inv [] pt (set_state f' id FFlushing) w'.
Proof.
  intros (Hp & Ht & Hs & Hnf) [C1 C2 C3 C4 C5 C6 C7] Hst Hw. unfold start_flush.
  intros E. apply bind_done in E as ([c1 w1] & Ew & E). cbn in E. injection E as <- <- <-. split; [done|].
  destruct (sync_flush_effect _ _ _ _ _ Ew) as (Hfr & Hbuf & _ & Hda & r & -> & Hsy). rewrite C2 in Hsy.
  pose proof Hfr as (_ & _ & _ & Esh & _).
  assert (forall j, written w j -> written w1 j) as Hwr by (intros j; by apply written_disk).
  assert (forall j, stored w j -> stored w1 j) as Hcp
    by (intros j [? ?]; split; [auto|rewrite Hsy; by destruct r]).
  constructor; fields; rewrite ?Esh; try done.
  - eapply sd_keep; [exact C1| |by rewrite Hda]. intros j _. split; [done|auto].
  - by intros j Hj%elem_of_nil.
  - intros j [Hj|[-> ->]]%elem_of_finished.
    + destruct (C5 j Hj) as [A B]. rewrite lookup_insert_ne; [auto|]. intros <-. by eapply Ht.
    + rewrite lookup_insert_eq. split; [done|]. intros _. split; [auto|]. by rewrite Hsy.
  - intros j Hj Hm. apply lookup_insert_Some in Hj as [[_ ?]|[_ Hj]]; [done|]. apply Hcp, C6; [done|].
    by rewrite <- (missing_shared w w1).
Qed.

(** *** Completions *)

(** Stripes the fetcher works on exist. *)
Lemma active_lt h a b f w ps pt id :
  fetcher_inv h a b f w -> copy_inv ps pt f w ->
  active f id \/ stripe_states f !! id = Some FQueued -> (id < stripes)%nat.
Proof. intros I C Ha. destruct (c_size _ _ _ _ C) as (_ & _ & <-). by apply missing_lt, (fv_missing _ _ _ _ _ I). Qed.

Lemma on_source_completion_copies id ok ps f w f' w' :
  fetcher_inv [] (id :: ps.*1) [] f w -> copy_inv ((id, ok) :: ps) [] f w ->
  on_source_completion (id, ok) (f, w) = Done (f', w') -> copy_inv ps [] f' w'.
Proof.
  intros I C E. pose proof (hole_in_hand id ps [] f w (open_hole_src _ _ _ _ _ I)) as Hh.
  assert (copy_inv ps [] f w) as C' by (refine (copy_inv_sub _ _ _ _ _ _ _ _ C); set_solver).
  assert (stripe_states f !! id = Some FFetching) as Hst by (apply (fv_src_out _ _ _ _ _ I); left).
  pose proof (active_lt _ _ _ _ _ _ _ id I C (or_introl (or_introl Hst))) as Hlt.
  unfold on_source_completion in E. destruct (allocated_buffers f !! id) as [b|] eqn:Hb; [|by injection E as <- <-].
  destruct ok; cbn [negb] in E.
  - destruct (c_read _ _ _ _ C id) as (b' & Hb' & Hp); [left|]. rewrite Hb in Hb'. injection Hb' as <-.
    apply bind_done in E as ([[ok f1] w1] & E1 & E).
    destruct (start_write_copies _ _ _ _ _ _ _ _ Hh C' Hlt Hst Hp E1) as [-> C1]. cbn in E. by injection E as <- <-.
  - by apply (fetch_completed_copies id false ps [] f w).
Qed.

Lemma on_target_completion_copies id ok pt f w f' w' :
  fetcher_inv [] [] (id :: pt.*1) f w -> copy_inv [] ((id, ok) :: pt) f w ->
  on_target_completion (id, ok) (f, w) = Done (f', w') -> copy_inv [] pt f' w'.
Proof.
  intros I C E. pose proof (hole_in_hand id [] pt f w (open_hole_tgt _ _ _ _ _ I)) as Hh.
  assert (copy_inv [] pt f w) as C' by (refine (copy_inv_sub _ _ _ _ _ _ _ _ C); set_solver).
  unfold on_target_completion in E. destruct ok; cbn [negb] in E; [|by apply (fetch_completed_copies id false [] pt f w)].
  destruct (c_write _ _ _ _ C id) as [Hw Hc]; [left|].
  destruct (stripe_states f !! id) as [[]|] eqn:Hst; try by injection E as <- <-.
  - apply bind_done in E as ([[ok f1] w1] & E1 & E).
    destruct (start_flush_copies _ _ _ _ _ _ _ Hh C' Hst (Hw eq_refl) E1) as [-> C1]. by injection E as <- <-.
  - apply (fetch_completed_copies id true [] pt f w); auto.
Qed.

Lemma source_completions_copies rs f w f' w' :
  fetcher_inv [] rs.*1 [] f w -> copy_inv rs [] f w ->
  for_each on_source_completion rs (f, w) = Done (f', w') -> copy_inv [] [] f' w'.
Proof.
  revert f w. induction rs as [|[id ok] rs IH]; intros f w I C E; cbn [for_each] in E; [by injection E as <- <-|].
  destruct (on_source_completion_inv id ok rs.*1 f w I) as (f1 & w1 & E1 & I1 & _). rewrite E1 in E.
  eapply IH; [exact I1|by eapply on_source_completion_copies|exact E].
Qed.

Lemma target_completions_copies rs f w f' w' :
  fetcher_inv [] [] rs.*1 f w -> copy_inv [] rs f w ->
  for_each on_target_completion rs (f, w) = Done (f', w') -> copy_inv [] [] f' w'.
Proof.
  revert f w. induction rs as [|[id ok] rs IH]; intros f w I C E; cbn [for_each] in E; [by injection E as <- <-|].
  destruct (on_target_completion_inv id ok rs.*1 f w I) as (f1 & w1 & E1 & I1 & _). rewrite E1 in E.
  eapply IH; [exact I1|by eapply on_target_completion_copies|exact E].
Qed.

(** *** Starting fetches *)

Lemma start_fetch_copies id rest f w f' w' :
  fetcher_inv [] [] [] f w -> fetch_queue f = id :: rest -> has_available (sf_pool f) = true -> copy_inv [] [] f w ->
  start_fetch id (set_queues f rest (autofetch_queue f)) w = Done (f', w') -> copy_inv [] [] f' w'.
Proof.
  intros I Hq Ha C E. unfold start_fetch in E. cbn [sf_pool set_queues] in E.
  destruct (get_buffer_spec (sf_pool f) w (fv_pool _ _ _ _ _ I) Ha) as (b & pool & Eg & _ & Hno & _ & Hpb & _).
  rewrite Eg in E. cbn [mbind outcome_bind] in E.
  assert (stripe_states f !! id = Some FQueued) as Hst by (apply (fv_queue _ _ _ _ _ I); rewrite Hq; left).
  assert (~ active f id) as Hna by (intros [?|?]; congruence).
  rewrite (fv_out _ _ _ _ _ I) in Hna. cbn [app] in Hna. rewrite elem_of_app in Hna.
  pose proof (active_lt _ _ _ _ _ _ _ id I C (or_intror Hst)) as Hlt.
  destruct C as [C1 C2 C3 C4 C5 C6 C7]. cbn [sf_source set_buffers set_queues] in E.
  apply bind_done in E as ([[r src] w1] & Er & E).
  destruct (sd_request id b (allocated_buffers f) (sf_source f) w r src w1) as (Hi & [Hd Hsh] & Hb); try done.
  { split; [by apply (cp_valid P)|done]. }
  { by intros ?; apply Hna; left. }
  { intros j b' Hj ->. apply Hno. by eapply fv_alloc_out. }
  assert (forall j, (j, true) ∈ sync_finished (sf_target f) -> j <> id) as Hne.
  { intros j Hj ->. apply Hna. right. apply list_elem_of_fmap. by exists (id, true). }
  assert (forall j, stored w j -> stored w1 j) as Hcp by (intros j; apply stored_disk; by apply disk_at_disks).
  set (f1 := set_source (set_buffers (set_queues f rest (autofetch_queue f)) pool (<[id := b]> (allocated_buffers f))) src).
  assert (copy_inv [] [] (set_state f1 id FFetching) w1) as C.
  { constructor; unfold f1; fields; rewrite ?Hsh; try done.
    - by intros j Hj%elem_of_nil.
    - intros j Hj. rewrite lookup_insert_ne by (symmetry; by apply Hne). destruct (C5 j Hj) as [A B]. split; [|auto].
      intros Hs. eapply written_disk; [|by apply A]. by rewrite (disk_at_disks w w1).
    - intros j Hj Hm. apply lookup_insert_Some in Hj as [[_ ?]|[_ Hj]]; [done|]. apply Hcp, C6; [done|].
      by rewrite <- (missing_shared w w1).
    - by rewrite Hpb. }
  destruct r as [u|e]; [by injection E as <- <-|].
  change (fetch_completed id false f1 w1 = Done (f', w')) in E.
  rewrite <- (fetch_completed_state id false f1 w1 FFetching) in E.
  eapply (fetch_completed_copies id false [] []); [|exact C|done|exact E].
  assert (id ∉ ss_outstanding (sf_source f)) as Hfresh by (intros ?; apply Hna; by left).
  pose proof (ss_request_out _ _ _ _ _ _ _ Hfresh Er) as Hout. cbn [is_ok app] in Hout.
  split_and!; unfold f1; fields.
  - intros ok Hj. by apply elem_of_nil in Hj.
  - intros ok Hj. apply Hna. right. apply list_elem_of_fmap. by exists (id, ok).
  - by rewrite Hout.
  - by rewrite lookup_insert_eq.
Qed.

Lemma start_fetches_copies fuel f w f' w' :
  fetcher_inv [] [] [] f w -> copy_inv [] [] f w -> start_fetches_loop fuel f w = Done (f', w') -> copy_inv [] [] f' w'.
Proof.
  revert f w. induction fuel as [|fuel IH]; intros f w I C; cbn [start_fetches_loop];
    (destruct (has_available (sf_pool f)) eqn:Ha; cbn [negb]; [|by intros [= <- <-]]);
    (destruct (fetch_queue f) as [|id rest] eqn:Hq; [by intros [= <- <-]|]); [done|].
  destruct (start_fetch_inv id rest f w I Hq Ha) as (f1 & w1 & E1 & I1 & _). rewrite E1. cbn [mbind outcome_bind].
  apply IH; [done|]. exact (start_fetch_copies _ _ _ _ _ _ I Hq Ha C E1).
Qed.

Lemma poll_fetches_copies f w f' w' :
  fetcher_inv [] [] [] f w -> copy_inv [] [] f w -> poll_fetches f w = Done (f', w') -> copy_inv [] [] f' w'.
Proof.
  intros I C E. unfold poll_fetches in E. destruct (source_polled_inv f w I) as (rs & src & w1 & E1 & Hf1 & I1).
  rewrite E1 in E. cbn [mbind outcome_bind] in E. destruct C as [C1 C2 C3 C4 C5 C6 C7].
  destruct (sd_poll _ _ _ _ _ _ C1 E1) as (Hi & [Hd Hsh] & Hr).
  assert (copy_inv rs [] (set_source f src) w1) as C.
  { constructor; fields; rewrite ?Hsh; try done.
    - intros j Hj. destruct (C5 j Hj) as [A B]. unfold stored, written in *. by rewrite (disk_at_disks w w1).
    - intros j Hj Hm. rewrite (missing_shared w w1) in Hm by done. unfold stored, written in *.
      rewrite (disk_at_disks w w1) by done. by apply C6. }
  destruct (source_completions_inv rs _ w1 I1) as (f2 & w2 & E2 & I2 & _). rewrite E2 in E. cbn [mbind outcome_bind] in E.
  pose proof (source_completions_copies _ _ _ _ _ I1 C E2) as [D1 D2 D3 D4 D5 D6 D7].
  destruct (target_polled_inv f2 w2 I2) as (rs' & tgt & w3 & E3 & _ & I3). rewrite E3 in E. cbn [mbind outcome_bind] in E.
  eapply target_completions_copies; [exact I3| |exact E]. cbn in E3. injection E3 as <- <- <-.
  constructor; fields; try done. intros j Hj. rewrite app_nil_r in Hj. by apply D5.
Qed.

Lemma handle_fetch_request_copies id f w f' :
  copy_inv [] [] f w -> handle_fetch_request id f w = Done f' -> copy_inv [] [] f' w.
Proof.
  intros C E. unfold handle_fetch_request in E. apply bind_done in E as ([] & _ & E); [by injection E as <-|].
  destruct (stripe_states f !! id) eqn:Hst; [by injection E as <-|]. injection E as <-.
  destruct C as [C1 C2 C3 C4 C5 C6 C7]. constructor; fields; try done.
  - intros j Hj. destruct (decide (id = j)) as [<-|]; [by rewrite lookup_insert_eq|]. rewrite lookup_insert_ne by done. auto.
  - intros j Hj Hm. apply lookup_insert_Some in Hj as [[_ ?]|[_ Hj]]; [done|]. auto.
Qed.

Lemma fetcher_update_copies f w f' w' :
  fetcher_inv [] [] [] f w -> copy_inv [] [] f w -> fetcher_update f w = Done (f', w') -> copy_inv [] [] f' w'.
Proof.
  intros I C E. unfold fetcher_update in E. destruct (update_autofetch_inv f w I) as (f1 & E1 & I1 & _).
  rewrite E1 in E. cbn [mbind outcome_bind] in E.
  assert (copy_inv [] [] f1 w) as C1.
  { unfold update_autofetch in E1. destruct (_ && _); [|by injection E1 as <-].
    destruct (autofetch_queue f) as [|id rest]; [by injection E1 as <-|].
    eapply handle_fetch_request_copies; [|exact E1]. by destruct C; constructor. }
  unfold start_fetches in E.
  destruct (start_fetches_loop_inv (4 * length (fetch_queue f1)) f1 w I1) as (f2 & w2 & E2 & I2 & _);
    [apply attempts_bound|]. rewrite E2 in E. cbn [mbind outcome_bind] in E.
  eapply poll_fetches_copies; [exact I2| |exact E]. exact (start_fetches_copies _ _ _ _ _ I1 C1 E2).
Qed.

Lemma disconnect_copies f w :
  copy_inv [] [] f w -> copy_inv [] [] (disconnect_from_source_if_all_fetched f w) w.
Proof.
  intros [C1 C2 C3 C4 C5 C6 C7]. unfold disconnect_from_source_if_all_fetched. destruct (_ && _); [|done]. by constructor.
Qed.

Lemma take_finished_copies f w : copy_inv [] [] f w -> copy_inv [] [] (take_finished_fetches f).2 w.
Proof. intros []. by constructor. Qed.

(** *** The environment *)

(** What the rest of the program may do between two calls of the fetcher: the
    source file and the fetcher's buffers are left alone, no stripe
    becomes missing again, and the bytes of missing stripes stay as they are on
    the target; anyone may flush the target. *)
Definition target_kept w w' (id : nat) : Prop :=
  let stripe data := take stripe_bytes (drop (stripe_start id) data) in
  let d := disk_at w tfile in
  let d' := disk_at w' tfile in
  stripe (disk_data d') = stripe (disk_data d) /\
  (stripe (disk_synced d') = stripe (disk_synced d) \/ stripe (disk_synced d') = stripe (disk_data d')).

Record copy_environment w w' : Prop := {
  ce_length : length (stripe_fetch_states (w_shared w')) = length (stripe_fetch_states (w_shared w));
  ce_source : disk_data (disk_at w' sfile) = disk_data (disk_at w sfile);
  ce_bufs : forall b, b ∈ bufs -> read_buf w' b = read_buf w b;
  ce_missing : forall id, missing w' id -> missing w id;
  ce_target : forall id, missing w id -> target_kept w w' id;
}.

Lemma target_kept_stored w w' id : target_kept w w' id ->
  (written w id -> written w' id) /\ (stored w id -> stored w' id).
Proof.
  intros [Hd Hy]. pose proof (content_length id) as Hl.
  assert (written w id -> written w' id) as Hw by (by apply present_window with (len := stripe_bytes)).
  split; [done|]. intros [A B]. split; [auto|].
  destruct Hy as [Hy|Hy]; apply (present_window _ _ _ _ _ Hl Hy); [done|by apply Hw].
Qed.

Lemma copy_environment_inv f w w' :
  copy_environment w w' -> fetcher_inv [] [] [] f w -> copy_inv [] [] f w -> copy_inv [] [] f w'.
Proof.
  intros [Hlen Hs Hb Hm Ht] I [C1 C2 C3 C4 C5 C6 C7]. constructor; rewrite ?Hlen; try done.
  - eapply sd_keep; [exact C1| |done]. intros id Hid. split; [done|]. intros b Hal. apply Hb.
    destruct (fv_alloc_out _ _ _ _ _ I id b Hal) as (i & Hi & _). rewrite <- C7. apply list_elem_of_lookup; eauto.
  - by intros id Hid%elem_of_nil.
  - intros id Hid. assert (active f id) as Ha.
    { apply (fv_out _ _ _ _ _ I). cbn [app]. rewrite elem_of_app. right. apply list_elem_of_fmap. by exists (id, true). }
    destruct (C5 id Hid). destruct (target_kept_stored w w' id); [|auto]. apply Ht, (fv_missing _ _ _ _ _ I). auto.
  - intros id Hst Hid%Hm. by apply (target_kept_stored w w' id); auto.
Qed.

Lemma fetcher_new_copies src d alignment autofetch w f w' :
  fresh_world w -> is_power_of_two alignment = true -> ss_outstanding src = [] ->
  sync_path d = tfile -> sync_sector_count d = m -> length (stripe_fetch_states (w_shared w)) = stripes ->
  sd_inv ∅ src w -> fetcher_new src d ssc alignment autofetch w = Done (Ok f, w') ->
  pool_buffers (sf_pool f) = bufs -> copy_inv [] [] f w'.
Proof.
  intros Hfr Hal Hso Hp Hm Hl Hi. unfold fetcher_new.
  destruct (create_channel d w) as [ch|] eqn:Ec; [|done].
  destruct (checked_mul64 _ _) as [size|]; [|done].
  destruct (new_pool_spec alignment MAX_CONCURRENT_FETCHES (Z.to_nat size) w Hal Hfr)
    as (p & w1 & -> & Hf & _ & _ & _ & _ & Hd & _). cbn [mbind outcome_bind].
  destruct (_ <? _); [done|]. intros [= <- <-]. pose proof Hf as (_ & _ & _ & Hs & _).
  cbn in Ec. destruct (w_disks w !! sync_path d); [|done]. injection Ec as <-.
  intros Hbufs. constructor; fields; rewrite ?Hs; try done.
  - cbn. eapply sd_keep; [exact Hi| |by rewrite (disk_at_disks w w1)]. intros id Hid. rewrite Hso in Hid. by apply elem_of_nil in Hid.
  - by intros id Hid%elem_of_nil.
Qed.
End copying.

(** The parameters of a fetcher over a source file: the source is no larger
    than the target, and the offsets of its stripes fit 64 bits. *)
Lemma file_source_params sfile tfile data ssc n m stripes :
  sfile <> tfile -> 0 <= ssc < 2 ^ 32 -> 0 <= m < 2 ^ 64 -> n <= m ->
  Z.of_nat stripes * ssc * Z.of_nat SECTOR_SIZE < 2 ^ 64 ->
  copy_params (S := BlockDeviceStripeSource SyncIoChannel) sfile tfile ssc m stripes (source_stripe data ssc n).
Proof.
  intros Hd Hs Hm Hn Ho. constructor; try done.
  - intros id. unfold source_stripe. rewrite length_take.
    assert (Z.to_nat (ssc `min` (n - Z.of_nat id * ssc)) <= Z.to_nat (ssc `min` (m - Z.of_nat id * ssc)))%nat by lia. nia.
  - intros id Hid. cbn. change (Z.of_nat SECTOR_SIZE) with 512 in *.
    assert (Z.of_nat id * ssc <= Z.of_nat stripes * ssc) by nia. lia.
Qed.

(** ** Stripes the source covers only in part

    Pool buffers are handed out again without being cleared, a block device
    source fills only the sectors it has, and the whole stripe is written. *)

Lemma sync_read_clean so k b id c w (len := (Z.to_nat k * SECTOR_SIZE)%nat) :
  w_faults w = [] -> (len <= length (read_buf w b))%nat ->
  (byte_offset so + len <= length (disk_data (disk_at w (sync_file c))))%nat ->
  sync_add_read so k b id c w = Done (sync_finish c id true,
    write_buf w b (take len (drop (byte_offset so) (disk_data (disk_at w (sync_file c)))) ++ drop len (read_buf w b))).
Proof.
  intros Hf Hb Hd. unfold sync_add_read. fold len. rewrite slice_done by lia. cbn [mbind outcome_bind].
  rewrite drop_0. unfold read_exact_at, next_fault, overlay. rewrite Hf.
  rewrite (length_take_le (read_buf w b)) by done.
  rewrite (take_ge (take len (drop _ _)) len) by (rewrite length_take; lia).
  rewrite length_take_le by (rewrite length_drop; lia). rewrite bool_decide_true by done.
  rewrite (drop_ge (take len (read_buf w b))) by (rewrite length_take; lia). by rewrite app_nil_r.
Qed.

Lemma sync_write_clean so k b id c w (len := (Z.to_nat k * SECTOR_SIZE)%nat) :
  w_faults w = [] -> sync_writable c = true -> (len <= length (read_buf w b))%nat ->
  sync_add_write so k b id c w = Done (sync_finish c id true,
    set_disks w (<[sync_file c := mkDisk
        (file_write (disk_data (disk_at w (sync_file c))) (byte_offset so) (take len (read_buf w b)))
        (disk_synced (disk_at w (sync_file c)))]> (w_disks w))).
Proof.
  intros Hf Hw Hb. unfold sync_add_write. fold len. rewrite slice_done by lia. cbn [mbind outcome_bind].
  unfold write_all_at, next_fault. by rewrite Hf, Hw, drop_0.
Qed.

Lemma set_disks_twice w ds file x y :
  set_disks (set_disks w (<[file := x]> ds)) (<[file := y]> (w_disks (set_disks w (<[file := x]> ds)))) =
  set_disks w (<[file := y]> ds).
Proof. unfold set_disks. cbn. by rewrite insert_insert_eq. Qed.

Section partial_stripe.
#[local] Set Default Proof Using "All".
Context (sfile tfile : nat) (wr : bool) (ssc n m : Z) (id : nat) (sn : Z) (pool : AlignedBufferPool)
  (states : gmap nat FetchState) (retries : gmap nat Z) (alloc : gmap nat nat) (fin : list (nat * bool))
  (auto disc : bool) (w : World) (b : nat) (pool' : AlignedBufferPool).

(** A fetcher over two files that is idle but for stripe [id] in its queue. *)
Definition fetcher_queued : sync_fetcher :=
  mkFetcher (inl (mkBdevSource (mkSyncCh sfile wr []) ssc n)) (mkSyncCh tfile true []) sn m ssc [id] []
    pool states retries alloc fin auto disc.

(** The source ends inside stripe [id], which lies in the target; nothing
    fails, and [b] is the buffer the stripe is given. *)
Record partial_setup : Prop := {
  ps_place : Z.of_nat id * ssc < n < (Z.of_nat id + 1) * ssc /\ (Z.of_nat id + 1) * ssc <= m;
  ps_small : 0 < ssc < 2 ^ 32 /\ m * Z.of_nat SECTOR_SIZE < 2 ^ 64;
  ps_faults : w_faults w = [];
  ps_files : sfile <> tfile;
  ps_source : (Z.to_nat n * SECTOR_SIZE <= length (disk_data (disk_at w sfile)))%nat;
  ps_pool : pool_wf pool w;
  ps_buffer : get_buffer pool = Done (Some b, pool');
  ps_size : length (read_buf w b) = (Z.to_nat ssc * SECTOR_SIZE)%nat;
}.

(** The bytes of the stripe that the source has, and the rest of the buffer as
    it was before. *)
Definition covered : nat := (Z.to_nat (n - Z.of_nat id * ssc) * SECTOR_SIZE)%nat.
Definition stale_tail : list Z := drop covered (read_buf w b).
Definition partial_bytes : list Z :=
  take covered (drop (Z.to_nat (Z.of_nat id * ssc) * SECTOR_SIZE) (disk_data (disk_at w sfile))) ++ stale_tail.

Hypothesis P : partial_setup.

Notation off := (Z.of_nat id * ssc).

Lemma partial_wraps : wrap64 off = off /\ wrap32 (ssc `min` (n - off)) = n - off /\
  wrap32 (ssc `min` wrap64 (m - off)) = ssc.
Proof.
  destruct P as [[? ?] [? ?] _ _ _ _ _ _]. unfold SECTOR_SIZE in *. unfold wrap64, wrap32.
  assert (0 <= off) by nia. assert ((Z.of_nat id + 1) * ssc = off + ssc) as E by lia. rewrite E in *.
  rewrite (Z.mod_small off), (Z.mod_small (m - off)) by lia. rewrite !Z.min_r, !Z.mod_small by lia.
  split_and!; [done..|lia].
Qed.

Lemma partial_offset : byte_offset off = (Z.to_nat off * SECTOR_SIZE)%nat.
Proof. destruct P as [[? ?] [? ?] _ _ _ _ _ _]. apply byte_offset_small; unfold SECTOR_SIZE in *; nia. Qed.

Lemma covered_le : (covered <= Z.to_nat ssc * SECTOR_SIZE)%nat.
Proof. destruct P as [[? ?] [? ?] _ _ _ _ _ _]. unfold covered. nia. Qed.

Lemma partial_read : bdev_request id b (mkBdevSource (mkSyncCh sfile wr []) ssc n) w =
  Done (Ok tt, mkBdevSource (mkSyncCh sfile wr [(id, true)]) ssc n, write_buf w b partial_bytes).
Proof.
  destruct partial_wraps as (E1 & E2 & _). pose proof covered_le as Hc. pose proof P as [[? ?] [? ?] ? _ ? _ _ Hl].
  unfold bdev_request. cbn [bs_stripe_sector_count bs_source_sector_count bs_channel].
  rewrite E1, (proj2 (Z.leb_gt n off)), E2 by lia. cbn [add_read sync_channel].
  rewrite sync_read_clean; cbn [sync_file]; rewrite ?partial_offset; fold covered; [|done|lia|].
  - done.
  - unfold covered. nia.
Qed.

Lemma partial_get : has_available pool = true /\ pool_wf pool' w /\ handed_out pool' b /\ b ∈ dom (w_bufs w).
Proof.
  pose proof P as [_ _ _ _ _ Hp Hb _].
  assert (has_available pool = true) as Ha.
  { unfold has_available. unfold get_buffer in Hb. by destruct (available_buffers pool). }
  destruct (get_buffer_spec pool w Hp Ha) as (b0 & p0 & E & Hp0 & _ & Hd & _ & Hh). rewrite Hb in E. simplify_eq.
  split_and!; [done..| |done]. apply Hh. by left.
Qed.

(** The fetcher once the stripe was requested, then once it is being flushed. *)
Definition partial_fetching : sync_fetcher :=
  mkFetcher (inl (mkBdevSource (mkSyncCh sfile wr [(id, true)]) ssc n)) (mkSyncCh tfile true []) sn m ssc [] []
    pool' (<[id := FFetching]> states) retries (<[id := b]> alloc) fin auto disc.
Definition partial_flushing : sync_fetcher :=
  mkFetcher (inl (mkBdevSource (mkSyncCh sfile wr []) ssc n)) (mkSyncCh tfile true [(id, true)]) sn m ssc [] []
    pool' (<[id := FFlushing]> (<[id := FFetching]> states)) retries (<[id := b]> alloc) fin auto disc.
Definition partial_world : World :=
  set_disks (write_buf w b partial_bytes)
    (<[tfile := mkDisk (file_write (disk_data (disk_at w tfile)) (Z.to_nat off * SECTOR_SIZE) partial_bytes)
                       (file_write (disk_data (disk_at w tfile)) (Z.to_nat off * SECTOR_SIZE) partial_bytes)]> (w_disks w)).

Lemma partial_starts : start_fetches fetcher_queued w = Done (partial_fetching, write_buf w b partial_bytes).
Proof.
  destruct partial_get as (Ha & _). unfold start_fetches, fetcher_queued. fields. cbn [length Nat.mul Nat.add].
  cbn [start_fetches_loop]. fields. rewrite Ha. cbn [negb]. unfold start_fetch. fields.
  rewrite (ps_buffer P). cbn [mbind outcome_bind]. cbn [ss_request sum_source bdev_source].
  rewrite partial_read. cbn [mbind outcome_bind]. fields. by case_match.
Qed.

Lemma partial_bytes_length : length partial_bytes = (Z.to_nat ssc * SECTOR_SIZE)%nat.
Proof.
  pose proof covered_le. pose proof P as [[? ?] [? ?] _ _ Hs _ _ Hl].
  unfold partial_bytes, stale_tail. rewrite length_app, length_drop, length_take, length_drop, Hl.
  assert (covered + Z.to_nat off * SECTOR_SIZE = Z.to_nat n * SECTOR_SIZE)%nat by (unfold covered; nia). lia.
Qed.

Lemma partial_write : start_write b id (set_source partial_fetching (inl (mkBdevSource (mkSyncCh sfile wr []) ssc n)))
    (write_buf w b partial_bytes) =
  Done (true, set_target (set_source partial_fetching (inl (mkBdevSource (mkSyncCh sfile wr []) ssc n)))
      (mkSyncCh tfile true [(id, true)]),
    set_disks (write_buf w b partial_bytes)
      (<[tfile := mkDisk (file_write (disk_data (disk_at w tfile)) (Z.to_nat off * SECTOR_SIZE) partial_bytes)
                         (disk_synced (disk_at w tfile))]> (w_disks w))).
Proof.
  destruct partial_wraps as (E1 & _ & E3). unfold start_write, partial_fetching. fields. rewrite E1, E3.
  cbn [add_write sync_channel]. rewrite sync_write_clean; rewrite ?read_write_buf_eq, ?partial_bytes_length; [|apply P|done|done].
  cbn [mbind outcome_bind sync_file submit sync_channel]. rewrite partial_offset.
  rewrite take_ge by (by rewrite partial_bytes_length). done.
Qed.

Lemma partial_polls : poll_fetches partial_fetching (write_buf w b partial_bytes) = Done (partial_flushing, partial_world).
Proof.
  pose proof partial_write as Ew. set (w1 := write_buf w b partial_bytes) in *.
  set (src := mkBdevSource (mkSyncCh sfile wr []) ssc n) in *. set (f1 := set_source partial_fetching (inl src)) in *.
  unfold poll_fetches. change (ss_poll (sf_source partial_fetching) w1) with
    (Done ([(id, true)], inl src : BlockDeviceStripeSource SyncIoChannel + BlockDeviceStripeSource NullIoChannel, w1)).
  cbn [mbind outcome_bind for_each]. fold f1. unfold on_source_completion at 1.
  change (allocated_buffers f1) with (<[id := b]> alloc). rewrite lookup_insert_eq. cbn [negb].
  rewrite Ew. cbn [mbind outcome_bind negb]. set (w2 := set_disks w1 _).
  change (poll (sf_target (set_target f1 (mkSyncCh tfile true [(id, true)]))) w2) with
    (Done ([(id, true)], mkSyncCh tfile true [], w2)).
  cbn [mbind outcome_bind for_each]. unfold on_target_completion at 1. cbn [negb].
  change (stripe_states _) with (<[id := FFetching]> states). rewrite lookup_insert_eq.
  unfold start_flush. cbn [sf_target set_target add_flush sync_channel]. unfold sync_add_flush, sync_all, next_fault. cbn [sync_file].
  replace (w_faults w2) with (@nil (option nat)) by (symmetry; apply (ps_faults P)).
  assert (disk_data (disk_at w2 tfile) =
    file_write (disk_data (disk_at w tfile)) (Z.to_nat off * SECTOR_SIZE) partial_bytes) as ->
    by (unfold disk_at, w2; cbn [w_disks set_disks]; by rewrite lookup_insert_eq).
  cbn [mbind outcome_bind submit sync_channel is_ok sync_file]. unfold partial_flushing, partial_world, w2.
  rewrite set_disks_twice. done.
Qed.

Lemma partial_updates : exists f' w',
  fetcher_update fetcher_queued w = Done (partial_flushing, partial_world) /\
  fetcher_update partial_flushing partial_world = Done (f', w') /\
  stripe_states f' !! id = Some FFetched /\ finished_fetches f' = fin ++ [(id, true)] /\
  w_disks w' = w_disks partial_world.
Proof.
  destruct partial_get as (_ & Hp & Hh & Hd).
  assert (fetcher_update fetcher_queued w = Done (partial_flushing, partial_world)) as E1.
  { unfold fetcher_update, update_autofetch, fetcher_queued at 1 2. fields.
    rewrite bool_decide_false, andb_false_r by done. cbn [mbind outcome_bind]. fold fetcher_queued.
    rewrite partial_starts. cbn [mbind outcome_bind]. apply partial_polls. }
  destruct (return_buffer_spec pool' partial_world b) as (p2 & Er & _).
  { eapply (pool_wf_stable _ w); [|exact Hp]. apply frame_stable. transitivity (write_buf w b partial_bytes); [|done].
    apply write_buf_frame; [done|]. rewrite partial_bytes_length. symmetry. apply P. }
  { done. }
  assert (update_autofetch partial_flushing partial_world = Done partial_flushing) as Eu
    by (unfold update_autofetch; cbn [autofetch_queue partial_flushing]; by case_match).
  assert (start_fetches partial_flushing partial_world = Done (partial_flushing, partial_world)) as Es
    by (unfold start_fetches; cbn; by case_match).
  do 2 eexists. split; [exact E1|]. unfold fetcher_update. rewrite Eu. cbn [mbind outcome_bind]. rewrite Es.
  cbn [mbind outcome_bind]. unfold poll_fetches. cbn. rewrite lookup_insert_eq. unfold fetch_completed. cbn.
  rewrite lookup_insert_eq, Er. cbn. split; [done|]. cbn. by rewrite lookup_insert_eq.
Qed.
End partial_stripe.

(** C40: the rest of a stripe that the source covers only in part is durably
    filled with stale data.  For any fetcher over two files without faults that
    has only stripe [id] to fetch, where the source ends inside the stripe, and
    for whatever bytes the buffer it is given held before (of a stripe copied
    earlier, since returned buffers are not cleared): two updates fetch the
    stripe and report it as fetched, and the stable contents of the target then
    hold the source's sectors followed, from the end of the source to the end
    of the stripe, by the old bytes of the buffer. *)
Theorem partial_stripe_tail_stale sfile tfile wr ssc n m id sn pool states retries alloc fin auto disc w b pool' :
  partial_setup sfile tfile ssc n m id pool w b pool' ->
  exists f1 w1 f2 w2,
    fetcher_update (fetcher_queued sfile tfile wr ssc n m id sn pool states retries alloc fin auto disc) w
      = Done (f1, w1) /\
    fetcher_update f1 w1 = Done (f2, w2) /\
    stripe_states f2 !! id = Some FFetched /\ finished_fetches f2 = fin ++ [(id, true)] /\
    present (disk_synced (disk_at w2 tfile)) (id * Z.to_nat ssc * SECTOR_SIZE)
      (source_stripe (disk_data (disk_at w sfile)) ssc n id) /\
    present (disk_synced (disk_at w2 tfile)) (Z.to_nat n * SECTOR_SIZE)
      (drop (Z.to_nat (n - Z.of_nat id * ssc) * SECTOR_SIZE) (read_buf w b)) /\
    length (drop (Z.to_nat (n - Z.of_nat id * ssc) * SECTOR_SIZE) (read_buf w b)) =
      (Z.to_nat ((Z.of_nat id + 1) * ssc - n) * SECTOR_SIZE)%nat.
Proof.
  intros P. destruct (partial_updates sfile tfile wr ssc n m id sn pool states retries alloc fin auto disc w b pool' P)
    as (f2 & w2 & E1 & E2 & Es & Ef & Ed).
  pose proof P as [[? ?] [? ?] _ _ Hs _ _ Hl].
  do 4 eexists. split_and!; [exact E1|exact E2|done..| | |].
  all: try (rewrite (disk_at_disks _ _ _ Ed); unfold partial_world, disk_at at 1; cbn [w_disks set_disks];
    rewrite lookup_insert_eq; cbn [default from_option disk_synced]).
  - pose proof (file_write_present (disk_data (disk_at w tfile)) (Z.to_nat (Z.of_nat id * ssc) * SECTOR_SIZE)
      (partial_bytes sfile ssc n id w b)) as [Hp _]%present_app.
    unfold source_stripe. rewrite Z.min_r by lia. replace (id * Z.to_nat ssc)%nat with (Z.to_nat (Z.of_nat id * ssc)) by lia.
    exact Hp.
  - pose proof (file_write_present (disk_data (disk_at w tfile)) (Z.to_nat (Z.of_nat id * ssc) * SECTOR_SIZE)
      (partial_bytes sfile ssc n id w b)) as [_ Hp]%present_app.
    rewrite length_take_le in Hp by (unfold covered; rewrite length_drop; nia).
    unfold covered in Hp at 1. rewrite <- Nat.mul_add_distr_r in Hp.
    replace (Z.to_nat (Z.of_nat id * ssc) + Z.to_nat (n - Z.of_nat id * ssc))%nat with (Z.to_nat n) in Hp by nia.
    exact Hp.
  - rewrite length_drop, Hl. nia.
Qed.

(** After stripes 0 to 15 of the 33-sector source of [fetch_world] were copied,
    stripe 16 is requested and is given the buffer of stripe 0. *)
Definition reuse_fetch (s : fetch_state) (id : nat) : fetch_state :=
  match handle_fetch_request id s.1 s.2 with Done f => (f, s.2) | Panic _ => fetch_none end.

Definition reuse_open : fetch_state :=
  match fetcher_new fetch_source (mkSyncDev 2 40 false) 2 4096 false fetch_world with
  | Done (Ok f, w) => (f, w)
  | _ => fetch_none
  end.

Definition reuse_run : fetch_state :=
  reuse_fetch (fetch_update (fetch_update (foldl reuse_fetch reuse_open (seq 0 16)))) 16.

Lemma reuse_pool_eq : sf_pool reuse_run.1 = mkPool (seq 0 16) (seq 0 16) (replicate 16 false).
Proof. vm_compute. reflexivity. Qed.

Lemma reuse_pool : pool_wf (sf_pool reuse_run.1) reuse_run.2.
Proof.
  rewrite reuse_pool_eq. constructor; cbn [pool_buffers available_buffers in_use]; [done|apply NoDup_seq| |apply NoDup_seq|].
  - intros i b [-> Hi]%lookup_seq.
    assert (Forall (fun i => i ∈ dom (w_bufs reuse_run.2) /\ buf_id (buf_at reuse_run.2 i) = i) (seq 0 16)) as Hall
      by (apply (bool_decide_unpack _); vm_compute; exact I).
    rewrite Forall_forall in Hall. apply Hall, elem_of_seq. lia.
  - intros i. rewrite elem_of_seq. split; [intros; apply lookup_replicate_2; lia|].
    intros [_ ?]%lookup_replicate_1. lia.
Qed.

Lemma reuse_queued : reuse_run.1 =
  fetcher_queued 1 2 false 2 33 40 16 33 (sf_pool reuse_run.1) (stripe_states reuse_run.1)
    (stripe_fetch_retries reuse_run.1) (allocated_buffers reuse_run.1) (finished_fetches reuse_run.1) false false.
Proof. vm_compute. reflexivity. Qed.

Lemma partial_stripe_tail_stale_witness :
  exists f1 w1 f2 w2,
    fetcher_update reuse_run.1 reuse_run.2 = Done (f1, w1) /\ fetcher_update f1 w1 = Done (f2, w2) /\
    stripe_states f2 !! 16%nat = Some FFetched /\
    present (disk_synced (disk_at w2 2)) (33 * SECTOR_SIZE) (replicate SECTOR_SIZE 2).
Proof.
  destruct (partial_stripe_tail_stale 1 2 false 2 33 40 16 33 (sf_pool reuse_run.1) (stripe_states reuse_run.1)
    (stripe_fetch_retries reuse_run.1) (allocated_buffers reuse_run.1) (finished_fetches reuse_run.1) false false
    reuse_run.2 0 (mkPool (seq 0 16) (seq 1 15) (true :: replicate 15 false)))
    as (f1 & w1 & f2 & w2 & E1 & E2 & E3 & _ & _ & E6 & _).
  - constructor; [lia|unfold SECTOR_SIZE; lia|vm_compute; reflexivity|lia| |exact reuse_pool| |].
    + vm_compute; lia.
    + rewrite reuse_pool_eq. reflexivity.
    + vm_compute. reflexivity.
  - exists f1, w1, f2, w2. rewrite <- reuse_queued in E1. split; [exact E1|]. split; [exact E2|]. split; [exact E3|].
    replace (replicate SECTOR_SIZE 2) with
      (drop (Z.to_nat (33 - Z.of_nat 16 * 2) * SECTOR_SIZE) (read_buf reuse_run.2 0)) by (vm_compute; reflexivity).
    exact E6.
Defined.
