(* ===== verification/BgWorker.v ===== *)
(** * BgWorker: the background worker

    Models src/src/block_device/bdev_lazy/bgworker.rs: the worker owns the
    stripe fetcher and the metadata flusher, takes requests from the queue the
    I/O channels fill, and hands every stripe that was copied to the flusher.

    The invariant [worker_inv] joins [fetcher_inv] and [flusher_inv]: the two
    components share the stripe states, and each satisfies what the other
    assumes of its environment.  Its last clause is the reason the lazy device
    may serve reads from the base device: a stripe is published as fetched only
    after the fetcher finished copying it.  Like [fetcher_inv] it needs a target
    whose [submit] cannot fail. *)
From S2P Require Import Prelude Metadata SharedState World Device Flusher StripeSource Fetcher.

Record BgWorker (S C M : Type) := mkWorker {
  bw_fetcher : StripeFetcher S C;
  bw_flusher : MetadataFlusher M;
  bw_done : bool;
}.
Arguments mkWorker {S C M}.
Arguments bw_fetcher {S C M}.
Arguments bw_flusher {S C M}.
Arguments bw_done {S C M}.

Section worker.
Context (crc32 : list Z -> Z) {S C M : Type} `{StripeSource S} `{IoChannel C} `{IoChannel M}.
Implicit Types (b : BgWorker S C M) (w : World).

Definition worker_new {D E} `{BlockDevice D C} `{BlockDevice E M} (rounds : nat)
    (source : S) (target_dev : D) (metadata_dev : E) (alignment : Z) (autofetch : bool) (w : World)
  : outcome (result (BgWorker S C M) * World) :=
  '(r, w) ← flusher_new crc32 rounds metadata_dev (ss_sector_count source) w;
  match r with
  | Err e => Done (Err e, w)
  | Ok flusher =>
      '(r, w) ← fetcher_new source target_dev (shared_stripe_sector_count (w_shared w)) alignment autofetch w;
      match r with
      | Err e => Done (Err e, w)
      | Ok fetcher => Done (Ok (mkWorker fetcher flusher false), w)
      end
  end.

Definition process_request (req : BgWorkerRequest) b w : outcome (BgWorker S C M) :=
  match req with
  | Fetch stripe_id =>
      f ← handle_fetch_request stripe_id (bw_fetcher b) w;
      Done (mkWorker f (bw_flusher b) (bw_done b))
  | SetWritten stripe_id =>
      Done (mkWorker (bw_fetcher b) (set_stripe_written stripe_id (bw_flusher b)) (bw_done b))
  | Shutdown => Done (mkWorker (bw_fetcher b) (bw_flusher b) true)
  end.

(** The [try_recv] loop: it takes every queued request; [senders] tells whether
    a sender is still connected when the queue is found empty. *)
Fixpoint drain (senders : bool) (reqs : list BgWorkerRequest) b w : outcome (BgWorker S C M) :=
  match reqs with
  | [] => Done (if senders then b else mkWorker (bw_fetcher b) (bw_flusher b) true)
  | req :: reqs' => b ← process_request req b w; drain senders reqs' b w
  end.

(** [receive_requests]; [None] means that [recv] blocks: the queue is empty and
    a sender is still connected. *)
Definition receive_requests (block senders : bool) b w : outcome (option (BgWorker S C M * World)) :=
  if block then
    match w_requests w with
    | [] => if senders then Done None
            else Done (Some (mkWorker (bw_fetcher b) (bw_flusher b) true, w))
    | req :: reqs =>
        b ← process_request req b w;
        b ← drain senders reqs b w;
        Done (Some (b, set_requests w []))
    end
  else
    b ← drain senders (w_requests w) b w;
    Done (Some (b, set_requests w [])).

(** The loop over [take_finished_fetches]. *)
Definition report_fetched (e : nat * bool) (fl : MetadataFlusher M) : outcome (MetadataFlusher M) :=
  let '(stripe_id, success) := e in
  Done (if success : bool then set_stripe_fetched stripe_id fl else fl).

Definition worker_update b w : outcome (BgWorker S C M * World) :=
  '(f, w) ← fetcher_update (bw_fetcher b) w;
  let '(finished, f) := take_finished_fetches f in
  fl ← for_each report_fetched finished (bw_flusher b);
  '(fl, w) ← flusher_update crc32 fl w;
  Done (mkWorker (disconnect_from_source_if_all_fetched f w) fl (bw_done b), w).

(** One iteration of the loop of [run]; [None] when the thread blocks in
    [recv]. *)
Definition run_iteration (senders : bool) b w : outcome (option (BgWorker S C M * World)) :=
  if bw_done b then Done (Some (b, w)) else
  let busy := fetcher_busy (bw_fetcher b) || flusher_busy (bw_flusher b) in
  r ← receive_requests (negb busy) senders b w;
  match r with
  | None => Done None
  | Some (b, w) => s ← worker_update b w; Done (Some s)
  end.
End worker.

(** ** Invariant *)

Section worker_proofs.
#[local] Set Default Proof Using "Type*".
Context (crc32 : list Z -> Z) {S C M : Type} `{SourceSafe S} `{!SourceContract S}
  `{ChannelSafe C} `{!ChannelContract C} `{!ChannelReliable C} `{ChannelSafe M}.
Implicit Types (b : BgWorker S C M) (w : World).
Notation nstripes w := (length (stripe_fetch_states (w_shared w))).

Definition request_ok w (r : BgWorkerRequest) : Prop :=
  match r with Fetch id | SetWritten id => (id < nstripes w)%nat | Shutdown => True end.

(** The stripe was copied by this worker, or was already marked fetched. *)
Definition copied (f : StripeFetcher S C) w (id : nat) : Prop :=
  stripe_states f !! id = Some FFetched \/ stripe_fetch_states (w_shared w) !! id = Some Fetched.

(** [orig] are the stripes that were fetched when the worker started. *)
Record worker_inv (orig : nat -> Prop) b w : Prop := {
  wi_fetcher : fetcher_inv [] [] [] (bw_fetcher b) w;
  wi_flusher : flusher_inv [] (bw_flusher b) w;
  wi_finished : forall id, (id, true) ∈ finished_fetches (bw_fetcher b) ->
    stripe_states (bw_fetcher b) !! id = Some FFetched /\
    (id < nstripes w)%nat /\ stripe_fetch_states (w_shared w) !! id <> Some NoSource;
  wi_soon : forall id, fetched_soon [] (bw_flusher b) id -> copied (bw_fetcher b) w id;
  wi_requests : Forall (request_ok w) (w_requests w);
  wi_published : forall id, stripe_fetch_states (w_shared w) !! id = Some Fetched ->
    orig id \/ stripe_states (bw_fetcher b) !! id = Some FFetched;
}.

Lemma only_fails_fetched w w' id :
  only_fails w w' ->
  (stripe_fetch_states (w_shared w') !! id = Some Fetched <->
   stripe_fetch_states (w_shared w) !! id = Some Fetched) /\
  (stripe_fetch_states (w_shared w') !! id = Some NoSource ->
   stripe_fetch_states (w_shared w) !! id = Some NoSource).
Proof.
  intros ((_ & _ & Hl & _) & _ & Hf). split; [split|].
  - intros Hx. by destruct (Hf id Fetched Hx) as [?|[? _]].
  - intros Hx. pose proof (lookup_lt_Some _ _ _ Hx) as Hlt. rewrite <- Hl in Hlt.
    destruct (lookup_lt_is_Some_2 _ _ Hlt) as [st Hst].
    destruct (Hf id st Hst) as [?|[-> (st0 & ? & ? & _)]]; simplify_eq. done.
  - intros Hx. by destruct (Hf id NoSource Hx) as [?|[? _]].
Qed.

Lemma only_fails_environment w w' :
  only_fails w w' -> shared_wf (w_shared w') -> environment w w'.
Proof.
  intros Ho Hwf. split_and!; [apply Ho|done|]. intros k. by apply only_fails_fetched.
Qed.

(** *** Requests *)

Lemma process_request_inv orig req b w :
  worker_inv orig b w -> request_ok w req ->
  exists b', process_request req b w = Done b' /\ worker_inv orig b' w.
Proof.
  intros [I1 I2 I3 I4 I5 I6] Hr. destruct req as [id|id|]; cbn [process_request].
  - destruct (handle_fetch_request_inv id (bw_fetcher b) w I1 Hr) as (f & -> & If & Hst & Hfi).
    cbn [mbind outcome_bind]. eexists; split; [done|].
    assert (forall j, stripe_states (bw_fetcher b) !! j = Some FFetched -> stripe_states f !! j = Some FFetched) as Hk.
    { intros j Hj. destruct Hst as [->|[Hn ->]]; [done|]. rewrite lookup_insert_ne; [done|]. intros <-. congruence. }
    constructor; cbn; try done.
    + rewrite Hfi. intros j Hj. destruct (I3 j Hj) as (? & ? & ?). auto.
    + intros j Hj. destruct (I4 j Hj) as [?|?]; [left|right]; auto.
    + intros j Hj. destruct (I6 j Hj) as [?|?]; auto.
  - eexists; split; [done|]. constructor; cbn; try done.
    + apply enqueue_inv; [done|]. split; cbn; [by rewrite <- (fi_len _ _ _ I2)|].
      intros Hf. by vm_compute in Hf.
    + intros j [Hj|Hj]; [|by apply I4; right]. apply I4. left.
      apply elem_of_app in Hj as [?|[=]%list_elem_of_singleton]; done.
  - eexists; split; [done|]. by constructor.
Qed.

Lemma drain_inv orig senders reqs b w :
  worker_inv orig b w -> Forall (request_ok w) reqs ->
  exists b', drain senders reqs b w = Done b' /\ worker_inv orig b' w.
Proof.
  revert b. induction reqs as [|req reqs IH]; intros b I Hr; cbn [drain].
  { eexists; split; [done|]. destruct senders; [done|]. by destruct I; constructor. }
  apply Forall_cons in Hr as [Hr Hrs]. destruct (process_request_inv orig req b w I Hr) as (b1 & -> & I1).
  cbn [mbind outcome_bind]. by apply IH.
Qed.

Lemma set_requests_inv orig b w reqs :
  worker_inv orig b w -> Forall (request_ok w) reqs -> worker_inv orig b (set_requests w reqs).
Proof.
  intros [I1 I2 I3 I4 I5 I6] Hr. constructor; try done.
  - apply (fetcher_environment_inv _ w); [|done]. split_and!; [apply set_requests_stable|apply I1|].
    intros id Ha. by apply (fv_missing _ _ _ _ _ I1).
  - apply (environment_inv _ w); [|done]. split_and!; [apply set_requests_stable|apply I1|done].
Qed.

Lemma receive_requests_inv orig block senders b w :
  worker_inv orig b w ->
  receive_requests block senders b w = Done None /\ block = true /\ w_requests w = [] \/
  exists b' w', receive_requests block senders b w = Done (Some (b', w')) /\ worker_inv orig b' w'.
Proof.
  intros I. pose proof (wi_requests _ _ _ I) as Hr. unfold receive_requests.
  destruct block; [destruct (w_requests w) as [|req reqs] eqn:Eq|].
  - destruct senders; [by left|]. right. do 2 eexists; split; [done|]. by destruct I; constructor.
  - right. apply Forall_cons in Hr as [Hr Hrs].
    destruct (process_request_inv orig req b w I Hr) as (b1 & -> & I1). cbn [mbind outcome_bind].
    destruct (drain_inv orig senders reqs b1 w I1 Hrs) as (b2 & -> & I2).
    do 2 eexists; split; [done|]. by apply set_requests_inv.
  - right. destruct (drain_inv orig senders (w_requests w) b w I Hr) as (b2 & -> & I2).
    do 2 eexists; split; [done|]. by apply set_requests_inv.
Qed.

(** *** Updates *)

Lemma report_fetched_inv finished fl w :
  flusher_inv [] fl w ->
  (forall id, (id, true) ∈ finished ->
     (id < nstripes w)%nat /\ stripe_fetch_states (w_shared w) !! id <> Some NoSource) ->
  exists fl', for_each report_fetched finished fl = Done fl' /\ flusher_inv [] fl' w /\
    forall id, fetched_soon [] fl' id -> fetched_soon [] fl id \/ (id, true) ∈ finished.
Proof.
  revert fl. induction finished as [|[id ok] fs IH]; intros fl I Hok; cbn [for_each report_fetched].
  { eexists; split_and!; auto. }
  cbn [mbind outcome_bind].
  assert (forall j, (j, true) ∈ fs -> (j < nstripes w)%nat /\ stripe_fetch_states (w_shared w) !! j <> Some NoSource)
    as Hok' by (intros j Hj; apply Hok; by right).
  destruct ok.
  - destruct (Hok id) as [Hlt Hns]; [left|].
    assert (flusher_inv [] (set_stripe_fetched id fl) w) as I1.
    { apply enqueue_inv; [done|]. split; cbn; [by rewrite <- (fi_len _ _ _ I)|by intros _]. }
    destruct (IH _ I1 Hok') as (fl' & -> & I' & Hs). eexists; split_and!; [done..|].
    intros j Hj. destruct (Hs j Hj) as [[Hq|Hq]|Hin].
    + cbn in Hq. apply elem_of_app in Hq as [?|[= ->]%list_elem_of_singleton]; [by left; left|right; left].
    + left. by right.
    + right. by right.
  - destruct (IH fl I Hok') as (fl' & -> & I' & Hs). eexists; split_and!; [done..|].
    intros j Hj. destruct (Hs j Hj); [auto|right; by right].
Qed.

(** What the flusher publishes does not disturb the fetcher: it publishes
    stripes the fetcher is done with, and no fetched stripe is lost. *)
Lemma flusher_effect_fetcher (f : StripeFetcher S C) (fl fl' : MetadataFlusher M) w w' :
  fetcher_inv [] [] [] f w -> flusher_effect [] fl w [] fl' w' -> shared_wf (w_shared w') ->
  (forall id, fetched_soon [] fl id -> copied f w id) ->
  fetcher_inv [] [] [] f w' /\
  forall id, stripe_fetch_states (w_shared w) !! id = Some Fetched ->
    stripe_fetch_states (w_shared w') !! id = Some Fetched.
Proof.
  intros I [Fs _ Fst _ _] Hwf Hcop. pose proof Fst as (_ & _ & Hl & _).
  assert (forall id st, stripe_fetch_states (w_shared w) !! id = Some st ->
    stripe_fetch_states (w_shared w') !! id = Some st \/
    stripe_fetch_states (w_shared w') !! id = Some Fetched /\ fetched_soon [] fl id) as Hback.
  { intros id st Hst. pose proof (lookup_lt_Some _ _ _ Hst) as Hlt. rewrite <- Hl in Hlt.
    destruct (lookup_lt_is_Some_2 _ _ Hlt) as [st' Hst']. destruct (Fs id st' Hst') as [?|[-> ?]]; [left; congruence|auto]. }
  split; [|intros id Hid; destruct (Hback id Fetched Hid) as [?|[? _]]; done].
  apply (fetcher_environment_inv _ w); [|done]. split_and!; [done..|]. intros id Ha.
  destruct (fv_missing _ _ _ _ _ I id Ha) as (st & Hst & Hn1 & Hn2).
  destruct (Hback id st Hst) as [?|[_ Hs]]; [by exists st|].
  destruct (Hcop id Hs) as [Hc|Hc]; [|congruence]. destruct Ha as [[Ha|Ha]|Ha]; congruence.
Qed.

(** The three calls of an update and what holds between them. *)
Record update_calls b w (f : StripeFetcher S C) w1 (fl fl' : MetadataFlusher M) w2 : Prop := {
  uc_fetcher : fetcher_update (bw_fetcher b) w = Done (f, w1);
  uc_report : for_each report_fetched (finished_fetches f) (bw_flusher b) = Done fl;
  uc_flusher : flusher_update crc32 fl w1 = Done (fl', w2);
  uc_fetcher_inv : fetcher_inv [] [] [] f w1;
  uc_progress : fetch_progress (bw_fetcher b) w f w1;
  uc_report_inv : flusher_inv [] fl w1;
  uc_flusher_inv : flusher_inv [] fl' w2;
  uc_effect : flusher_effect [] fl w1 [] fl' w2;
  uc_soon : forall id, fetched_soon [] fl id -> copied f w1 id;
}.

Lemma worker_update_calls orig b w :
  worker_inv orig b w -> exists f w1 fl fl' w2, update_calls b w f w1 fl fl' w2.
Proof.
  intros [I1 I2 I3 I4 I5 I6].
  destruct (fetcher_update_inv (bw_fetcher b) w I1) as (f & w1 & E1 & If & Pr). pose proof Pr as [Pf Ps Pn].
  pose proof Pf as ((_ & _ & Hl & _) & _ & _).
  assert (flusher_inv [] (bw_flusher b) w1) as Ifl
    by (eapply environment_inv; [|exact I2]; apply only_fails_environment; [done|apply If]).
  assert (forall id, (id, true) ∈ finished_fetches f ->
    stripe_states f !! id = Some FFetched /\ (id < nstripes w1)%nat /\
    stripe_fetch_states (w_shared w1) !! id <> Some NoSource) as Hfin.
  { intros id Hid. destruct (Pn id Hid) as [Hold|[Hst (st & Hs & Hn1 & Hn2)]].
    - destruct (I3 id Hold) as (? & ? & Hns). split_and!; [auto|by rewrite Hl|].
      intros Hx. apply Hns. by apply (only_fails_fetched w w1).
    - split_and!; [done|by eapply lookup_lt_Some|congruence]. }
  destruct (report_fetched_inv (finished_fetches f) (bw_flusher b) w1 Ifl) as (fl & Er & Ifl2 & Hsoon);
    [intros id Hid; apply (Hfin id Hid)|].
  destruct (flusher_update_inv crc32 fl w1 Ifl2) as (fl' & w2 & E2 & Ifl3).
  exists f, w1, fl, fl', w2. constructor; try done; [by eapply flusher_update_effect|].
  intros id Hid. destruct (Hsoon id Hid) as [Hs|Hs]; [|left; apply (Hfin id Hs)].
  destruct (I4 id Hs) as [?|?]; [left; by apply Ps|right; by apply (only_fails_fetched w w1)].
Qed.

Lemma update_calls_result b w f w1 fl fl' w2 :
  update_calls b w f w1 fl fl' w2 ->
  worker_update crc32 b w =
    Done (mkWorker (disconnect_from_source_if_all_fetched (take_finished_fetches f).2 w2) fl' (bw_done b), w2).
Proof.
  intros [E1 Er E2 _ _ _ _ _ _]. unfold worker_update. rewrite E1. cbn [mbind outcome_bind take_finished_fetches].
  rewrite Er. cbn [mbind outcome_bind]. by rewrite E2.
Qed.

Lemma worker_update_inv orig b w :
  worker_inv orig b w -> exists b' w', worker_update crc32 b w = Done (b', w') /\ worker_inv orig b' w'.
Proof.
  intros I. destruct (worker_update_calls orig b w I) as (f & w1 & fl & fl' & w2 & U).
  rewrite (update_calls_result _ _ _ _ _ _ _ U). do 2 eexists; split; [done|].
  destruct I as [_ _ _ _ I5 I6], U as [_ _ _ If [Pf Ps _] _ Ifl3 Fe Hcop].
  pose proof (take_finished_inv f w1 If) as If'. set (f' := (take_finished_fetches f).2) in *.
  destruct (flusher_effect_fetcher f' fl fl' w1 w2 If' Fe (fi_shared _ _ _ Ifl3) Hcop) as [If2 Hkeep].
  destruct Fe as [Fs Fso Fst Frq Flen]. pose proof Fst as (_ & _ & Hl2 & _). pose proof Pf as ((_ & _ & Hl & _) & _ & _).
  assert (stripe_states (disconnect_from_source_if_all_fetched f' w2) = stripe_states f /\
    finished_fetches (disconnect_from_source_if_all_fetched f' w2) = []) as [Ed Ef]
    by (unfold disconnect_from_source_if_all_fetched; by repeat case_match).
  constructor; cbn [bw_fetcher bw_flusher]; rewrite ?Ed, ?Ef; try done.
  - by apply disconnect_inv.
  - intros id Hid. by apply elem_of_nil in Hid.
  - intros id Hid. unfold copied. rewrite Ed. destruct (Hcop id (Fso id Hid)) as [?|?]; auto.
  - rewrite Frq. destruct Pf as (_ & [_ ->] & _). eapply Forall_impl; [exact I5|].
    intros [] Hr; cbn in *; rewrite ?Hl2, ?Hl; done.
  - intros id Hid. destruct (Fs id Fetched Hid) as [Hold|[_ Hs]].
    + apply (only_fails_fetched w w1) in Hold; [|done]. destruct (I6 id Hold) as [?|?]; auto.
    + destruct (Hcop id Hs) as [?|Hold]; [auto|]. apply (only_fails_fetched w w1) in Hold; [|done].
      destruct (I6 id Hold) as [?|?]; auto.
Qed.

Lemma run_iteration_inv orig senders b w :
  worker_inv orig b w ->
  run_iteration crc32 senders b w = Done None /\ fetcher_busy (bw_fetcher b) = false /\
    flusher_busy (bw_flusher b) = false /\ w_requests w = [] \/
  exists b' w', run_iteration crc32 senders b w = Done (Some (b', w')) /\ worker_inv orig b' w'.
Proof.
  intros I. unfold run_iteration. destruct (bw_done b); [right; eauto|].
  destruct (receive_requests_inv orig (negb (fetcher_busy (bw_fetcher b) || flusher_busy (bw_flusher b)))
    senders b w I) as [(-> & Hb & Hq)|(b1 & w1 & -> & I1)]; cbn [mbind outcome_bind].
  - left. apply negb_true_iff, orb_false_iff in Hb as [-> ->]. done.
  - right. destruct (worker_update_inv orig b1 w1 I1) as (b2 & w2 & -> & I2). eauto.
Qed.

(** Sending a request from another thread. *)
Lemma send_inv orig b w r :
  worker_inv orig b w -> request_ok w r -> worker_inv orig b (set_requests w (w_requests w ++ [r])).
Proof.
  intros I Hr. apply set_requests_inv; [done|]. apply Forall_app; split; [apply I|by constructor].
Qed.

(** I/O of other threads. *)
Lemma io_inv orig b w w' : worker_inv orig b w -> frame w w' -> worker_inv orig b w'.
Proof.
  intros [I1 I2 I3 I4 I5 I6] Hf. pose proof Hf as (_ & _ & _ & Hs & Hr & _).
  constructor; rewrite ?Hs, ?Hr; try done.
  - apply (fetcher_environment_inv _ w); [|done]. split_and!; [by apply frame_stable|rewrite Hs; apply I1|].
    intros id Ha. destruct (fv_missing _ _ _ _ _ I1 id Ha) as (st & ?). exists st. by rewrite Hs.
  - apply (environment_inv _ w); [|done]. split_and!; [by apply frame_stable|rewrite Hs; apply I1|by rewrite Hs].
  - intros id Hid. destruct (I4 id Hid) as [?|?]; [by left|right]. by rewrite Hs.
  - eapply Forall_impl; [exact I5|]. intros []; cbn; by rewrite ?Hs.
Qed.

Lemma worker_new_inv {D E} `{!BlockDevice D C} `{!DeviceSafe D C} `{!DeviceContract D C}
    `{!BlockDevice E M} `{!DeviceSafe E M} rounds (source : S) (d : D) (e : E) alignment autofetch w b w' :
  fresh_world w -> is_power_of_two alignment = true ->
  worker_new crc32 rounds source d e alignment autofetch w = Done (Ok b, w') ->
  metadata_wf (mf_metadata (bw_flusher b)) ->
  Forall header_ok (stripe_headers (mf_metadata (bw_flusher b))) ->
  w_shared w = new_shared (mf_metadata (bw_flusher b)) -> w_requests w = [] ->
  ss_inv source w -> ss_outstanding source = [] ->
  ss_stripe_sectors source <= stripe_sector_count (mf_metadata (bw_flusher b)) ->
  worker_inv (fun id => stripe_fetch_states (w_shared w) !! id = Some Fetched) b w'.
Proof.
  intros Hfr Hal Hnew Hwf Hok Hsh Hrq Hsi Hso Hsz. unfold worker_new in Hnew.
  destruct (flusher_new crc32 rounds e (ss_sector_count source) w) as [[[fl|] w1]|] eqn:Efl;
    cbn [mbind outcome_bind] in Hnew; try done.
  destruct (fetcher_new source d _ alignment autofetch w1) as [[[f|] w2]|] eqn:Efe;
    cbn [mbind outcome_bind] in Hnew; try done.
  injection Hnew as <- <-. cbn [bw_flusher bw_fetcher] in *.
  destruct (flusher_new_facts crc32 rounds e _ w fl w1 Hfr Efl) as (Hf1 & Hq & Hu & Hcount).
  pose proof (flusher_new_inv crc32 rounds e _ w fl w1 Hfr Efl Hwf Hok Hsh) as Ifl.
  pose proof Hf1 as (_ & _ & Hfr1 & Hs1 & Hr1 & _).
  destruct (new_shared_states (mf_metadata fl)) as (Efs & _ & Esh).
  assert (0 <= stripe_sector_count (mf_metadata fl)) as Hpos
    by (apply Z.shiftl_nonneg; lia).
  assert (shared_stripe_sector_count (w_shared w1) = stripe_sector_count (mf_metadata fl)) as Essc
    by (unfold shared_stripe_sector_count, stripe_sector_count; by rewrite Hs1, Hsh, Esh).
  rewrite Essc in Efe.
  pose proof (fetcher_new_inv source d _ alignment autofetch w1 f w2 (Hfr1 Hfr) Hal Hpos (ss_inv_stable _ _ _ (frame_stable _ _ Hf1) Hsi) Hsz Hso
    (fi_shared _ _ _ Ifl)) as Ife.
  assert (fetcher_inv [] [] [] f w2) as If.
  { apply Ife; [|done]. rewrite (fi_len _ _ _ Ifl). exact Hcount. }
  clear Ife.
  assert (frame w1 w2 /\ stripe_states f = ∅ /\ finished_fetches f = []) as (Hf2 & Est & Efi).
  { unfold fetcher_new in Efe. destruct (create_channel d w1); [|done].
    destruct (checked_mul64 _ _) as [sz|]; [|done].
    destruct (new_pool_spec alignment MAX_CONCURRENT_FETCHES (Z.to_nat sz) w1 Hal (Hfr1 Hfr))
      as (p & w3 & Ep & Hf & _). rewrite Ep in Efe. cbn [mbind outcome_bind] in Efe.
    destruct (_ <? _); [done|]. by injection Efe as <- <-. }
  pose proof Hf2 as (_ & _ & _ & Hs2 & Hr2 & _).
  constructor; cbn [bw_fetcher bw_flusher]; rewrite ?Efi, ?Est; try done.
  - apply (environment_inv _ w1); [|done]. split_and!; [by apply frame_stable|rewrite Hs2; apply Ifl|by rewrite Hs2].
  - intros id Hid. by apply elem_of_nil in Hid.
  - intros id. unfold fetched_soon. rewrite Hq, Hu.
    intros [[]%elem_of_nil|[(h & Hh & Hfl)|[(st & Hx & _)|(h & []%elem_of_nil & _)]]]; [|by rewrite lookup_empty in Hx].
    right. rewrite Hs2, Hs1, Hsh, Efs.
    change (map initial_fetch_state ?l) with (initial_fetch_state <$> l).
    rewrite list_lookup_fmap, Hh. cbn. unfold initial_fetch_state.
    rewrite Forall_lookup in Hok. by rewrite (Hok id h Hh Hfl), Hfl.
  - rewrite Hr2, Hr1, Hrq. constructor.
  - intros id. rewrite Hs2, Hs1. auto.
Qed.

(** The worker thread, the threads that send it requests, and their I/O, in
    any interleaving. *)
Inductive worker_step : BgWorker S C M * World -> BgWorker S C M * World -> Prop :=
| wstep_iteration senders b w b' w' :
    run_iteration crc32 senders b w = Done (Some (b', w')) -> worker_step (b, w) (b', w')
| wstep_send b w r : request_ok w r -> worker_step (b, w) (b, set_requests w (w_requests w ++ [r]))
| wstep_io b w w' : frame w w' -> worker_step (b, w) (b, w').

Lemma worker_steps_inv orig s s' :
  rtc worker_step s s' -> worker_inv orig s.1 s.2 -> worker_inv orig s'.1 s'.2.
Proof.
  induction 1 as [|x y z Hxy _ IH]; [done|]. intros I. apply IH.
  destruct Hxy as [senders b w b' w' E|b w r Hr|b w w' Hf]; cbn [fst snd] in *.
  - destruct (run_iteration_inv orig senders b w I) as [(E1 & _)|(b1 & w1 & E1 & I1)]; rewrite E in E1; by simplify_eq.
  - by apply send_inv.
  - by eapply io_inv.
Qed.
End worker_proofs.

(** C3: the background worker does not panic and publishes only what it copied,
    when its fetcher's target accepts every [submit] ([ChannelReliable], as the
    synchronous device; over io_uring a failed [submit] breaks the fetcher's
    accounting, see [failed_submit_duplicates]).  Started on well-formed
    metadata whose states are the shared ones, over a source and a target that
    report each request exactly once and a metadata device that may fail in any
    way, and with any interleaving of its loop, of requests from other threads
    for existing stripes and of their I/O: every iteration returns; it blocks
    only when there is no request, no fetch and no metadata update under way;
    and every stripe that the shared state shows as fetched was so at the start
    or has been copied, flushed and acknowledged by the fetcher. *)
Theorem worker_publishes_copied crc32 {S C M D E} `{SourceSafe S} `{!SourceContract S} `{DeviceSafe D C}
    `{!ChannelContract C} `{!ChannelReliable C} `{!DeviceContract D C} `{DeviceSafe E M}
    rounds (source : S) (d : D) (e : E) alignment autofetch w0 b0 w1 (b : BgWorker S C M) w :
  fresh_world w0 -> is_power_of_two alignment = true ->
  worker_new crc32 rounds source d e alignment autofetch w0 = Done (Ok b0, w1) ->
  metadata_wf (mf_metadata (bw_flusher b0)) ->
  Forall header_ok (stripe_headers (mf_metadata (bw_flusher b0))) ->
  w_shared w0 = new_shared (mf_metadata (bw_flusher b0)) -> w_requests w0 = [] ->
  ss_inv source w0 -> ss_outstanding source = [] ->
  ss_stripe_sectors source <= stripe_sector_count (mf_metadata (bw_flusher b0)) ->
  rtc (worker_step crc32) (b0, w1) (b, w) ->
  (forall senders, exists r, run_iteration crc32 senders b w = Done r /\
     (r = None -> w_requests w = [] /\ fetcher_busy (bw_fetcher b) = false /\
                  flusher_busy (bw_flusher b) = false)) /\
  (forall id, stripe_fetch_states (w_shared w) !! id = Some Fetched ->
     stripe_fetch_states (w_shared w0) !! id = Some Fetched \/
     stripe_states (bw_fetcher b) !! id = Some FFetched).
Proof.
  intros Hfr Hal Hnew Hwf Hok Hsh Hrq Hsi Hso Hsz Hsteps.
  pose proof (worker_steps_inv crc32 _ _ _ Hsteps (worker_new_inv crc32 rounds source d e alignment autofetch w0 b0 w1
    Hfr Hal Hnew Hwf Hok Hsh Hrq Hsi Hso Hsz)) as I. cbn [fst snd] in I. split.
  - intros senders. destruct (run_iteration_inv crc32 _ senders b w I) as [(E1 & Hb1 & Hb2 & Hq)|(b' & w' & E1 & _)];
      eexists; (split; [exact E1|]); [done|discriminate].
  - apply (wi_published _ _ _ I).
Qed.

(** *** A concrete run, used by the witness: three source stripes of two
    sectors, four target stripes, metadata on a third file. *)

Definition wdemo_meta : UbiMetadata := new_metadata 1 4 3.
Definition wdemo_world : World :=
  mkWorld ∅ 0
    {[ 1%nat := mkDisk (flat_map (fun i => replicate SECTOR_SIZE (Z.of_nat i + 1)) (seq 0 6)) [];
       2%nat := mkDisk (replicate (8 * SECTOR_SIZE) 0) [];
       7%nat := mkDisk (saved_image crc32_ieee wdemo_meta 3) (saved_image crc32_ieee wdemo_meta 3) ]} []
    (new_shared wdemo_meta) [] true.
Definition wdemo_source : BlockDeviceStripeSource SyncIoChannel := mkBdevSource (mkSyncCh 1 false []) 2 6.

Definition wdemo_state : Type :=
  BgWorker (BlockDeviceStripeSource SyncIoChannel) SyncIoChannel SyncIoChannel * World.
Definition wdemo_open : outcome (result (BgWorker (BlockDeviceStripeSource SyncIoChannel) SyncIoChannel SyncIoChannel) * World) :=
  worker_new crc32_ieee 1 wdemo_source (mkSyncDev 2 8 false) (mkSyncDev 7 3 false) 4096 false wdemo_world.

Definition wdemo_iterate (s : wdemo_state) : wdemo_state :=
  match run_iteration crc32_ieee true s.1 s.2 with Done (Some s') => s' | _ => s end.

Definition wdemo_run (n : nat) (s : wdemo_state) : wdemo_state :=
  Nat.iter n wdemo_iterate (s.1, set_requests s.2 (w_requests s.2 ++ [Fetch 1])).

Lemma wdemo_iterate_steps n (s : wdemo_state) : rtc (worker_step crc32_ieee) s (Nat.iter n wdemo_iterate s).
Proof.
  induction n as [|n IH]; [apply rtc_refl|]. etransitivity; [exact IH|].
  change (Nat.iter (Datatypes.S n) wdemo_iterate s) with (wdemo_iterate (Nat.iter n wdemo_iterate s)).
  destruct (Nat.iter n wdemo_iterate s) as [b w]. unfold wdemo_iterate. cbn [fst snd].
  destruct (run_iteration crc32_ieee true b w) as [[[b' w']|]|] eqn:E; [|apply rtc_refl..].
  apply rtc_once. by eapply wstep_iteration.
Qed.

Lemma worker_publishes_copied_witness :
  exists b0 w1, wdemo_open = Done (Ok b0, w1) /\
  let s := wdemo_run 4 (b0, w1) in
  stripe_fetch_states (w_shared s.2) !! 1%nat = Some Fetched /\
  (forall senders, exists r, run_iteration crc32_ieee senders s.1 s.2 = Done r /\
     (r = None -> w_requests s.2 = [] /\ fetcher_busy (bw_fetcher s.1) = false /\
                  flusher_busy (bw_flusher s.1) = false)) /\
  (forall id, stripe_fetch_states (w_shared s.2) !! id = Some Fetched ->
     stripe_fetch_states (w_shared wdemo_world) !! id = Some Fetched \/
     stripe_states (bw_fetcher s.1) !! id = Some FFetched).
Proof.
  assert (match wdemo_open with
          | Done (Ok b, w) => bool_decide (mf_metadata (bw_flusher b) = wdemo_meta) &&
              bool_decide (length (stripe_fetch_states (w_shared w)) = 4%nat) &&
              bool_decide (stripe_fetch_states (w_shared (wdemo_run 4 (b, w)).2) !! 1%nat = Some Fetched)
          | _ => false end = true) as Hok by (vm_compute; reflexivity).
  destruct wdemo_open as [[[b0|] w1]|] eqn:Hopen; [|discriminate Hok..].
  exists b0, w1. split; [reflexivity|].
  apply andb_true_iff in Hok as [[Hm%bool_decide_eq_true Hl%bool_decide_eq_true]%andb_true_iff Hp%bool_decide_eq_true].
  intros s. split; [exact Hp|].
  apply (worker_publishes_copied crc32_ieee 1 wdemo_source (mkSyncDev 2 8 false) (mkSyncDev 7 3 false) 4096 false
    wdemo_world b0 w1 s.1 s.2).
  - exact (no_buffers_fresh wdemo_world eq_refl).
  - reflexivity.
  - exact Hopen.
  - rewrite Hm. apply new_metadata_wf; unfold MAX_STRIPE_SECTOR_COUNT_SHIFT, U32_MAX; lia.
  - rewrite Hm. apply new_metadata_headers_ok.
  - rewrite Hm. reflexivity.
  - reflexivity.
  - split; [exact Logic.I|cbn; lia].
  - reflexivity.
  - rewrite Hm. vm_compute. discriminate.
  - eapply rtc_l.
    + apply (wstep_send crc32_ieee b0 w1 (Fetch 1)). cbn. rewrite Hl. lia.
    + rewrite <- surjective_pairing. apply wdemo_iterate_steps.
Defined.
