(* ===== verification/LazyDevice.v ===== *)
(** * LazyDevice: the device the guest sees (LazyBlockDevice)

    Models src/src/block_device/bdev_lazy/device.rs over a base channel [B] and
    an optional image channel [I].  A request whose stripes are all fetched (or
    have no source data) goes straight to the base; a read inside one missing
    stripe may be served by the image; every other request waits in a queue,
    in order, until the background worker has published its stripes.

    [lazy_run_out] shows that the channel loses no request and, given that base
    and image do and the base's [submit] cannot fail, reports each exactly once.
    [LogChannel] records the calls the channel makes, and [lazy_gate] states
    which calls may reach the base device. *)
From S2P Require Import Prelude Metadata SharedState World Device StripeSource.

Inductive RequestType := In | Out.
#[global] Instance RequestType_eq_dec : EqDecision RequestType.
Proof. solve_decision. Defined.

Inductive StripesFetchStatus :=
| StatusPending
| StatusComplete
| StatusFailed (stripe_id : nat).

Record RWRequest := mkRW {
  rw_id : nat;
  rw_kind : RequestType;
  rw_sector_offset : Z;
  rw_sector_count : Z;
  rw_buf : nat;
  stripe_id_first : nat;
  stripe_id_last : nat;
}.

(** The sender half of the worker's queue is [w_requests], the shared state is
    [w_shared]. *)
Record LazyIoChannel (B I : Type) := mkLazy {
  lz_base : B;
  lz_image : option I;
  queued_rw_requests : list RWRequest;
  lz_finished : list (nat * bool);
  stripe_fetches_requested : gset nat;
  track_written : bool;
}.
Arguments mkLazy {B I}.
Arguments lz_base {B I}.
Arguments lz_image {B I}.
Arguments queued_rw_requests {B I}.
Arguments lz_finished {B I}.
Arguments stripe_fetches_requested {B I}.
Arguments track_written {B I}.

(** [Sender::send]: fails when the receiver is gone. *)
Definition send (r : BgWorkerRequest) (w : World) : result unit * World :=
  if w_worker_alive w then (Ok tt, set_requests w (w_requests w ++ [r])) else (Err ChannelError, w).

Section lazy.
Context {B I : Type} `{IoChannel B} `{IoChannel I}.
Implicit Types (c : LazyIoChannel B I) (w : World).

Definition set_base c x : LazyIoChannel B I :=
  mkLazy x (lz_image c) (queued_rw_requests c) (lz_finished c) (stripe_fetches_requested c) (track_written c).
Definition set_image c x : LazyIoChannel B I :=
  mkLazy (lz_base c) x (queued_rw_requests c) (lz_finished c) (stripe_fetches_requested c) (track_written c).
Definition set_rw_queue c x : LazyIoChannel B I :=
  mkLazy (lz_base c) (lz_image c) x (lz_finished c) (stripe_fetches_requested c) (track_written c).
Definition set_finished c x : LazyIoChannel B I :=
  mkLazy (lz_base c) (lz_image c) (queued_rw_requests c) x (stripe_fetches_requested c) (track_written c).
Definition set_requested c x : LazyIoChannel B I :=
  mkLazy (lz_base c) (lz_image c) (queued_rw_requests c) (lz_finished c) x (track_written c).

Definition lazy_new (base : B) (image : option I) (track : bool) : LazyIoChannel B I :=
  mkLazy base image [] [] ∅ track.

(** [first..=last] *)
Definition stripes_of (r : RWRequest) : list nat := range_incl (stripe_id_first r) (stripe_id_last r).

Fixpoint fetch_status (sh : SharedMetadataState) (ids : list nat) : outcome StripesFetchStatus :=
  match ids with
  | [] => Done StatusComplete
  | id :: ids' =>
      state ← stripe_fetch_state sh id;
      if (state =? Fetched) || (state =? NoSource) then fetch_status sh ids'
      else if state =? NotFetched then Done StatusPending
      else if state =? Failed then Done (StatusFailed id)
      else fetch_status sh ids'
  end.

Definition request_stripes_fetch_status (r : RWRequest) w : outcome StripesFetchStatus :=
  fetch_status (w_shared w) (stripes_of r).

Fixpoint all_written (sh : SharedMetadataState) (ids : list nat) : outcome bool :=
  match ids with
  | [] => Done true
  | id :: ids' => wr ← stripe_written sh id; if negb wr then Done false else all_written sh ids'
  end.

Definition request_stripes_written (r : RWRequest) w : outcome bool :=
  all_written (w_shared w) (stripes_of r).

Fixpoint fetch_stripes (ids : list nat) c w : outcome (result unit * LazyIoChannel B I * World) :=
  match ids with
  | [] => Done (Ok tt, c, w)
  | id :: ids' =>
      fetched ← stripe_fetched_if_needed (w_shared w) id;
      if negb fetched && negb (bool_decide (id ∈ stripe_fetches_requested c)) then
        let '(r, w) := send (Fetch id) w in
        match r with
        | Err e => Done (Err e, c, w)
        | Ok _ => fetch_stripes ids' (set_requested c ({[id]} ∪ stripe_fetches_requested c)) w
        end
      else fetch_stripes ids' c w
  end.

Definition start_stripe_fetches (r : RWRequest) c w := fetch_stripes (stripes_of r) c w.

Fixpoint set_written_stripes (ids : list nat) w : outcome (result unit * World) :=
  match ids with
  | [] => Done (Ok tt, w)
  | id :: ids' =>
      wr ← stripe_written (w_shared w) id;
      if negb wr then
        let '(r, w) := send (SetWritten id) w in
        match r with Err e => Done (Err e, w) | Ok _ => set_written_stripes ids' w end
      else set_written_stripes ids' w
  end.

Definition start_stripe_set_written (r : RWRequest) w := set_written_stripes (stripes_of r) w.

(** The [while let] loop of [process_queued_rw_requests] over the queue [q];
    the requests not taken are the queue of the result. *)
Fixpoint process_queue (q : list RWRequest) c w (added : list nat)
  : outcome (LazyIoChannel B I * World * list nat) :=
  match q with
  | [] => Done (set_rw_queue c [], w, added)
  | front :: q' =>
      status ← request_stripes_fetch_status front w;
      match status with
      | StatusPending => Done (set_rw_queue c q, w, added)
      | StatusFailed _ =>
          process_queue q' (set_finished c (lz_finished c ++ [(rw_id front, false)])) w added
      | StatusComplete =>
          blocked ← (if track_written c && bool_decide (rw_kind front = Out)
                     then wr ← request_stripes_written front w; Done (negb wr) else Done false);
          if blocked : bool then Done (set_rw_queue c q, w, added) else
          let c := set_requested c (stripe_fetches_requested c ∖ list_to_set (stripes_of front)) in
          '(base, w) ← match rw_kind front with
                       | In => add_read (rw_sector_offset front) (rw_sector_count front)
                                 (rw_buf front) (rw_id front) (lz_base c) w
                       | Out => add_write (rw_sector_offset front) (rw_sector_count front)
                                  (rw_buf front) (rw_id front) (lz_base c) w
                       end;
          process_queue q' (set_base c base) w (added ++ [rw_id front])
      end
  end.

Definition process_queued_rw_requests c w : outcome (LazyIoChannel B I * World) :=
  '(c, w, added) ← process_queue (queued_rw_requests c) c w [];
  if bool_decide (added = []) then Done (c, w) else
  '(r, base, w) ← submit (lz_base c) w;
  let c := set_base c base in
  match r with
  | Ok _ => Done (c, w)
  | Err _ => Done (set_finished c (lz_finished c ++ map (fun id => (id, false)) added), w)
  end.

Definition make_request (id : nat) (kind : RequestType) (so n : Z) (b : nat) w : RWRequest :=
  mkRW id kind so n b (sector_to_stripe_id (w_shared w) so)
    (sector_to_stripe_id (w_shared w) (wrap64 (so + n - 1))).

Definition fail_request (id : nat) c : LazyIoChannel B I := set_finished c (lz_finished c ++ [(id, false)]).
Definition queue_request (r : RWRequest) c : LazyIoChannel B I :=
  set_rw_queue c (queued_rw_requests c ++ [r]).

(** The end of [add_read] and of [add_write]: ask the worker for the missing
    stripes and queue the request. *)
Definition queue_read (request : RWRequest) c w : outcome (LazyIoChannel B I * World) :=
  '(r, c, w) ← start_stripe_fetches request c w;
  match r with
  | Err _ => Done (fail_request (rw_id request) c, w)
  | Ok _ => Done (queue_request request c, w)
  end.

Definition queue_write (request : RWRequest) c w : outcome (LazyIoChannel B I * World) :=
  '(r, c, w) ← start_stripe_fetches request c w;
  match r with
  | Err _ => Done (fail_request (rw_id request) c, w)
  | Ok _ =>
      if track_written c then
        '(r, w) ← start_stripe_set_written request w;
        match r with
        | Err _ => Done (fail_request (rw_id request) c, w)
        | Ok _ => Done (queue_request request c, w)
        end
      else Done (queue_request request c, w)
  end.

Definition lazy_add_read (so n : Z) (b id : nat) c w : outcome (LazyIoChannel B I * World) :=
  let request := make_request id In so n b w in
  status ← request_stripes_fetch_status request w;
  match status with
  | StatusComplete => '(base, w) ← add_read so n b id (lz_base c) w; Done (set_base c base, w)
  | StatusFailed _ => Done (fail_request id c, w)
  | StatusPending =>
      if decide (stripe_id_first request = stripe_id_last request) then
        match lz_image c with
        | Some image =>
            '(image, w) ← add_read so n b id image w; Done (set_image c (Some image), w)
        | None => queue_read request c w
        end
      else queue_read request c w
  end.

Definition lazy_add_write (so n : Z) (b id : nat) c w : outcome (LazyIoChannel B I * World) :=
  let request := make_request id Out so n b w in
  status ← request_stripes_fetch_status request w;
  match status with
  | StatusComplete =>
      can_start ← (if track_written c then request_stripes_written request w else Done true);
      if can_start : bool then
        '(base, w) ← add_write so n b id (lz_base c) w; Done (set_base c base, w)
      else queue_write request c w
  | StatusFailed _ => Done (fail_request id c, w)
  | StatusPending => queue_write request c w
  end.

Definition lazy_add_flush (id : nat) c w : outcome (LazyIoChannel B I * World) :=
  '(base, w) ← add_flush id (lz_base c) w; Done (set_base c base, w).

Definition lazy_submit c w : outcome (result unit * LazyIoChannel B I * World) :=
  let submit_base c w := '(r, base, w) ← submit (lz_base c) w; Done (r, set_base c base, w) in
  match lz_image c with
  | Some image =>
      '(r, image, w) ← submit image w;
      let c := set_image c (Some image) in
      match r with Err e => Done (Err e, c, w) | Ok _ => submit_base c w end
  | None => submit_base c w
  end.

Definition lazy_poll c w : outcome (list (nat * bool) * LazyIoChannel B I * World) :=
  '(c, w) ← process_queued_rw_requests c w;
  let results := lz_finished c in
  let c := set_finished c [] in
  '(rs, base, w) ← poll (lz_base c) w;
  let c := set_base c base in
  match lz_image c with
  | Some image =>
      '(rs', image, w) ← poll image w;
      Done (results ++ rs ++ rs', set_image c (Some image), w)
  | None => Done (results ++ rs, c, w)
  end.

Definition lazy_busy c : bool :=
  busy (lz_base c) || match lz_image c with Some i => busy i | None => false end
  || negb (bool_decide (queued_rw_requests c = [])).

#[global] Instance lazy_channel : IoChannel (LazyIoChannel B I) := {
  add_read := lazy_add_read;
  add_write := lazy_add_write;
  add_flush := lazy_add_flush;
  submit := lazy_submit;
  poll := lazy_poll;
  busy := lazy_busy;
}.
End lazy.

Record LazyBlockDevice (D E : Type) := mkLazyDev {
  ld_base : D;
  ld_image : option E;
  ld_track_written : bool;
}.
Arguments mkLazyDev {D E}.
Arguments ld_base {D E}.
Arguments ld_image {D E}.
Arguments ld_track_written {D E}.

#[global] Instance lazy_device {D E B I} `{BlockDevice D B} `{BlockDevice E I}
  : BlockDevice (LazyBlockDevice D E) (LazyIoChannel B I) := {
  create_channel d w :=
    match create_channel (ld_base d) w with
    | Err e => Err e
    | Ok base =>
        match ld_image d with
        | None => Ok (lazy_new base None (ld_track_written d))
        | Some image =>
            match create_channel image w with
            | Err e => Err e
            | Ok ich => Ok (lazy_new base (Some ich) (ld_track_written d))
            end
        end
    end;
  sector_count d := sector_count (ld_base d);
}.

(** ** Exactly-once completion *)

#[local] Obligation Tactic := idtac.

Section lazy_contract.
#[local] Set Default Proof Using "Type*".
Context {B I : Type} `{ChannelContract B} `{ChannelContract I}.
Implicit Types (c : LazyIoChannel B I) (w : World).

Definition image_out c : list nat :=
  match lz_image c with Some i => outstanding i | None => [] end.

Definition queued_ids c : list nat := map rw_id (queued_rw_requests c).

Definition lazy_outstanding c : list nat :=
  (lz_finished c).*1 ++ map rw_id (queued_rw_requests c) ++ outstanding (lz_base c) ++ image_out c.

Lemma fetch_stripes_out ids c w r c' w' :
  fetch_stripes ids c w = Done (r, c', w') -> lazy_outstanding c' = lazy_outstanding c /\ queued_ids c' = queued_ids c.
Proof.
  revert c w. induction ids as [|id ids IH]; intros c w E; cbn [fetch_stripes] in E; [by simplify_eq|].
  destruct (stripe_fetched_if_needed _ _) as [b|]; [|done]. cbn [mbind outcome_bind] in E.
  destruct (_ && _); [|by apply IH in E]. destruct (send _ _) as [[u|e] w1]; [|by simplify_eq].
  by apply IH in E.
Qed.

Lemma fail_request_out id c : lazy_outstanding (fail_request id c) ≡ₚ id :: lazy_outstanding c.
Proof.
  unfold lazy_outstanding, image_out; cbn. rewrite fmap_app, <- app_assoc. cbn. by rewrite <- Permutation_middle.
Qed.

Lemma queue_request_out r c : lazy_outstanding (queue_request r c) ≡ₚ rw_id r :: lazy_outstanding c.
Proof.
  unfold lazy_outstanding, image_out; cbn. rewrite map_app, <- app_assoc. cbn. by rewrite <- !Permutation_middle.
Qed.

Lemma set_base_out c base ids :
  outstanding base ≡ₚ ids ++ outstanding (lz_base c) ->
  lazy_outstanding (set_base c base) ≡ₚ ids ++ lazy_outstanding c.
Proof.
  intros Hp. unfold lazy_outstanding, image_out; cbn. rewrite Hp.
  rewrite !(Permutation_app_comm ids), <- !app_assoc. do 3 f_equiv. apply Permutation_app_comm.
Qed.

Lemma set_image_out c i i' ids :
  lz_image c = Some i -> outstanding i' ≡ₚ ids ++ outstanding i ->
  lazy_outstanding (set_image c (Some i')) ≡ₚ ids ++ lazy_outstanding c.
Proof.
  intros Hi Hp. unfold lazy_outstanding, image_out; cbn. rewrite Hi, Hp.
  rewrite !(Permutation_app_comm ids), <- !app_assoc. done.
Qed.

Lemma process_queue_out q c w added c' w' added' :
  process_queue q c w added = Done (c', w', added') ->
  lazy_outstanding c' ≡ₚ lazy_outstanding (set_rw_queue c q) /\
  added' ++ queued_ids c' ⊆+ added ++ map rw_id q.
Proof.
  revert c w added. induction q as [|front q IH]; intros c w added E; cbn [process_queue] in E; [by simplify_eq|].
  destruct (request_stripes_fetch_status front w) as [st|]; [|done]. cbn [mbind outcome_bind] in E.
  destruct st as [| |sid]; [by simplify_eq| |].
  - destruct (if _ && _ then _ else _) as [blocked|]; [|done]. cbn [mbind outcome_bind] in E.
    destruct blocked; [by simplify_eq|].
    set (c1 := set_requested c _) in E.
    destruct (match rw_kind front with In => _ | Out => _ end) as [[base w1]|] eqn:Ea; [|done].
    cbn [mbind outcome_bind] in E. destruct (IH _ _ _ E) as [-> Hs].
    assert (outstanding base ≡ₚ [rw_id front] ++ outstanding (lz_base c)) as Hb.
    { destruct (rw_kind front); [apply (add_read_out _ _ _ _ _ _ _ _ Ea)|apply (add_write_out _ _ _ _ _ _ _ _ Ea)]. }
    split; [|by rewrite <- app_assoc in Hs].
    unfold lazy_outstanding, image_out; cbn. rewrite Hb. cbn. by rewrite <- !Permutation_middle.
  - destruct (IH _ _ _ E) as [-> Hs]. split.
    + unfold lazy_outstanding, image_out; cbn. rewrite fmap_app, <- app_assoc. done.
    + etransitivity; [exact Hs|]. cbn [map]. apply submseteq_app; [done|]. by apply submseteq_cons.
Qed.

(** Requests taken from the queue are in the base now.  When the base refuses
    the batch they are reported as failed as well, and so held twice: [dup]. *)
Lemma process_queued_out c w c' w' :
  process_queued_rw_requests c w = Done (c', w') ->
  exists dup, lazy_outstanding c' ≡ₚ dup ++ lazy_outstanding c /\ dup ++ queued_ids c' ⊆+ queued_ids c /\
    (ChannelReliable B -> dup = []).
Proof.
  unfold process_queued_rw_requests. intros E.
  destruct (process_queue _ c w []) as [[[c1 w1] added]|] eqn:E1; [|done]. cbn [mbind outcome_bind] in E.
  destruct (process_queue_out _ _ _ _ _ _ _ E1) as [Hp Hs]. cbn [app] in Hs.
  replace (set_rw_queue c (queued_rw_requests c)) with c in Hp by (by destruct c).
  assert (queued_ids c1 ⊆+ queued_ids c) as Hq by (etransitivity; [|exact Hs]; by apply submseteq_inserts_l).
  case_bool_decide; [simplify_eq; exists []; by split_and!|].
  destruct (submit (lz_base c1) w1) as [[[r base] w2]|] eqn:E2; [|done]. cbn [mbind outcome_bind] in E.
  pose proof (set_base_out c1 base [] (submit_out _ _ _ _ _ E2)) as Hb. cbn [app] in Hb.
  destruct r as [u|e]; simplify_eq; [exists []; split_and!; [by rewrite Hb|done..]|].
  exists added. split_and!; [|done|intros Hrel; discriminate (submit_ok _ _ _ _ _ E2)].
  rewrite <- Hp, <- Hb. unfold lazy_outstanding, image_out; cbn. rewrite fmap_app.
  replace (map (fun id => (id, false)) added).*1 with added
    by (clear; induction added; cbn; congruence).
  solve_Permutation.
Qed.

(** Taking a request in adds its id, to the queue at most once. *)
Definition taken id c c' : Prop :=
  lazy_outstanding c' ≡ₚ id :: lazy_outstanding c /\ queued_ids c' ⊆+ id :: queued_ids c.

Lemma fail_request_taken id c0 c :
  lazy_outstanding c = lazy_outstanding c0 /\ queued_ids c = queued_ids c0 -> taken id c0 (fail_request id c).
Proof.
  intros [E1 E2]. split; [by rewrite <- E1, fail_request_out|]. rewrite <- E2. by apply submseteq_cons.
Qed.

Lemma queue_request_taken r c0 c :
  lazy_outstanding c = lazy_outstanding c0 /\ queued_ids c = queued_ids c0 -> taken (rw_id r) c0 (queue_request r c).
Proof.
  intros [E1 E2]. split; [by rewrite <- E1, queue_request_out|]. rewrite <- E2. unfold queued_ids; cbn.
  rewrite map_app. cbn [map]. by rewrite <- Permutation_cons_append.
Qed.

Lemma base_taken id c base :
  outstanding base ≡ₚ [id] ++ outstanding (lz_base c) -> taken id c (set_base c base).
Proof. intros Hb. split; [by apply (set_base_out c base [id])|]. by apply submseteq_cons. Qed.

(** Waiting for the worker adds the request to the queue or fails it. *)
Lemma queue_read_out req c w c' w' : queue_read req c w = Done (c', w') -> taken (rw_id req) c c'.
Proof.
  unfold queue_read, start_stripe_fetches. intros E.
  destruct (fetch_stripes _ c w) as [[[r c1] w1]|] eqn:Ef; [|done].
  cbn [mbind outcome_bind] in E. apply fetch_stripes_out in Ef.
  destruct r; simplify_eq; [by apply queue_request_taken|by apply fail_request_taken].
Qed.

Lemma queue_write_out req c w c' w' : queue_write req c w = Done (c', w') -> taken (rw_id req) c c'.
Proof.
  unfold queue_write, start_stripe_fetches. intros E.
  destruct (fetch_stripes _ c w) as [[[r c1] w1]|] eqn:Ef; [|done].
  cbn [mbind outcome_bind] in E. apply fetch_stripes_out in Ef.
  destruct r; [|simplify_eq; by apply fail_request_taken].
  destruct (track_written c1); [|simplify_eq; by apply queue_request_taken].
  destruct (start_stripe_set_written req w1) as [[[u|e] w2]|]; [| |done]; cbn [mbind outcome_bind] in E;
    simplify_eq; [by apply queue_request_taken|by apply fail_request_taken].
Qed.

Lemma lazy_add_read_out so n b id c w c' w' : lazy_add_read so n b id c w = Done (c', w') -> taken id c c'.
Proof.
  unfold lazy_add_read. intros E.
  destruct (request_stripes_fetch_status _ w) as [st|]; [|done]. cbn [mbind outcome_bind] in E.
  destruct st as [| |sid].
  - case_decide; [destruct (lz_image c) as [i|] eqn:Ei|]; [|by apply queue_read_out in E..].
    destruct (add_read so n b id i w) as [[i' w1]|] eqn:Ea; [|done]. cbn [mbind outcome_bind] in E. simplify_eq.
    split; [|by apply submseteq_cons].
    apply (set_image_out c i i' [id] Ei). apply (add_read_out _ _ _ _ _ _ _ _ Ea).
  - destruct (add_read so n b id (lz_base c) w) as [[base w1]|] eqn:Ea; [|done]. cbn [mbind outcome_bind] in E. simplify_eq.
    apply base_taken, (add_read_out _ _ _ _ _ _ _ _ Ea).
  - simplify_eq. by apply fail_request_taken.
Qed.

Lemma lazy_add_write_out so n b id c w c' w' : lazy_add_write so n b id c w = Done (c', w') -> taken id c c'.
Proof.
  unfold lazy_add_write. intros E.
  destruct (request_stripes_fetch_status _ w) as [st|]; [|done]. cbn [mbind outcome_bind] in E.
  destruct st as [| |sid]; [by apply queue_write_out in E| |simplify_eq; by apply fail_request_taken].
  destruct (if track_written c then _ else _) as [can|]; [|done]. cbn [mbind outcome_bind] in E.
  destruct can; [|by apply queue_write_out in E].
  destruct (add_write so n b id (lz_base c) w) as [[base w1]|] eqn:Ea; [|done]. cbn [mbind outcome_bind] in E. simplify_eq.
  apply base_taken, (add_write_out _ _ _ _ _ _ _ _ Ea).
Qed.

Lemma lazy_add_flush_out id c w c' w' : lazy_add_flush id c w = Done (c', w') -> taken id c c'.
Proof.
  unfold lazy_add_flush. intros E.
  destruct (add_flush id (lz_base c) w) as [[b w1]|] eqn:E1; [|done]. cbn [mbind outcome_bind] in E. simplify_eq.
  apply base_taken, (add_flush_out _ _ _ _ _ E1).
Qed.

Lemma lazy_submit_out c w r c' w' :
  lazy_submit c w = Done (r, c', w') ->
  lazy_outstanding c' ≡ₚ lazy_outstanding c /\ queued_ids c' = queued_ids c.
Proof.
  unfold lazy_submit. intros E.
  destruct (lz_image c) as [i|] eqn:Ei.
  - destruct (submit i w) as [[[r1 i1] w1]|] eqn:E1; [|done]. cbn [mbind outcome_bind] in E.
    pose proof (set_image_out c i i1 [] Ei (submit_out _ _ _ _ _ E1)) as Hi. cbn [app] in Hi. rewrite <- Hi.
    destruct r1; [|by simplify_eq].
    destruct (submit _ w1) as [[[r2 b2] w2]|] eqn:E2; [|done]. cbn [mbind outcome_bind] in E. simplify_eq.
    split; [|done]. apply (set_base_out _ b2 []). apply (submit_out _ _ _ _ _ E2).
  - destruct (submit _ w) as [[[r2 b2] w2]|] eqn:E2; [|done]. cbn [mbind outcome_bind] in E. simplify_eq.
    split; [|done]. apply (set_base_out _ b2 []). apply (submit_out _ _ _ _ _ E2).
Qed.

Lemma lazy_poll_out c w rs c' w' :
  lazy_poll c w = Done (rs, c', w') ->
  exists dup, dup ++ lazy_outstanding c ≡ₚ rs.*1 ++ lazy_outstanding c' /\
    dup ++ queued_ids c' ⊆+ queued_ids c /\ (ChannelReliable B -> dup = []).
Proof.
  unfold lazy_poll. intros E. destruct (process_queued_rw_requests c w) as [[c1 w1]|] eqn:Ep; [|done].
  destruct (process_queued_out _ _ _ _ Ep) as (dup & Hd & Hs & Hr). exists dup. rewrite <- Hd. cbn [mbind outcome_bind] in E.
  destruct (poll (lz_base (set_finished c1 [])) w1) as [[[rb b1] w2]|] eqn:Eb; [|done]. cbn [mbind outcome_bind] in E.
  pose proof (poll_out _ _ _ _ _ Eb) as Hb. cbn in Hb.
  destruct (lz_image (set_base (set_finished c1 []) b1)) as [i|] eqn:Ei; cbn in Ei.
  - destruct (poll i w2) as [[[ri i1] w3]|] eqn:Ex; [|done]. cbn [mbind outcome_bind] in E. simplify_eq.
    split; [|by split]. pose proof (poll_out _ _ _ _ _ Ex) as Hi. unfold lazy_outstanding, image_out; cbn. rewrite Ei, Hb, Hi.
    rewrite !fmap_app. solve_Permutation.
  - simplify_eq. split; [|by split]. unfold lazy_outstanding, image_out; cbn. rewrite Ei, Hb, !fmap_app. solve_Permutation.
Qed.

(** Over a run: what is answered or held beyond the requests is [dup], ids of
    queued requests whose batch the base refused, each at most once. *)
Lemma lazy_run_out reqs reps c w c' w' :
  channel_run reqs reps c w c' w' -> lazy_outstanding c = [] ->
  exists dup, reqs ++ dup ≡ₚ reps.*1 ++ lazy_outstanding c' /\ dup ++ queued_ids c' ⊆+ reqs /\
    (ChannelReliable B -> dup = []).
Proof.
  assert (forall reqs reps dup id c1 c2, taken id c1 c2 ->
    reqs ++ dup ≡ₚ reps ++ lazy_outstanding c1 /\ dup ++ queued_ids c1 ⊆+ reqs /\ (ChannelReliable B -> dup = []) ->
    (reqs ++ [id]) ++ dup ≡ₚ reps ++ lazy_outstanding c2 /\ dup ++ queued_ids c2 ⊆+ reqs ++ [id] /\
    (ChannelReliable B -> dup = [])) as Htake.
  { intros reqs0 reps0 dup id c1 c2 [Ho Hq] (A1 & A2 & A3). split_and!; [| |done].
    - rewrite Ho, <- (Permutation_middle reps0), <- A1. solve_Permutation.
    - rewrite <- Permutation_cons_append. etransitivity; [apply submseteq_app; [reflexivity|exact Hq]|].
      rewrite <- Permutation_middle. by apply submseteq_skip. }
  intros Hrun Hnil.
  induction Hrun as [c0 w0|reqs reps c0 w0 c1 w1 so n b id c2 w2 _ IH E|reqs reps c0 w0 c1 w1 so n b id c2 w2 _ IH E
    |reqs reps c0 w0 c1 w1 id c2 w2 _ IH E|reqs reps c0 w0 c1 w1 r c2 w2 _ IH E
    |reqs reps c0 w0 c1 w1 rs c2 w2 _ IH E|reqs reps c0 w0 c1 w1 w2 _ IH]; [|destruct (IH Hnil) as (dup & Hd)..].
  - exists []. cbn [app]. rewrite Hnil. split_and!; [done| |done].
    assert (queued_ids c0 = []) as ->; [|done]. unfold lazy_outstanding in Hnil. by apply app_nil in Hnil as [_ [? _]%app_nil].
  - exists dup. eapply Htake; [exact (lazy_add_read_out _ _ _ _ _ _ _ _ E)|done].
  - exists dup. eapply Htake; [exact (lazy_add_write_out _ _ _ _ _ _ _ _ E)|done].
  - exists dup. eapply Htake; [exact (lazy_add_flush_out _ _ _ _ _ E)|done].
  - exists dup. destruct (lazy_submit_out _ _ _ _ _ E) as [-> ->]. done.
  - destruct (lazy_poll_out _ _ _ _ _ E) as (dup2 & P1 & P2 & P3). destruct Hd as (D1 & D2 & D3). exists (dup ++ dup2).
    split_and!; [| |intros ?; by rewrite D3, P3].
    + rewrite app_assoc, D1, fmap_app, <- !app_assoc. f_equiv. rewrite <- P1. apply Permutation_app_comm.
    + rewrite <- app_assoc. etransitivity; [|exact D2]. by apply submseteq_app.
  - by exists dup.
Qed.
End lazy_contract.

(** The lazy channel keeps the exactly-once promise when its base and image do
    and the base's [submit] cannot fail. *)
#[global] Program Instance lazy_contract {B I : Type} `{ChannelContract B} `{!ChannelReliable B} `{ChannelContract I}
  : ChannelContract (LazyIoChannel B I) := {
  outstanding := lazy_outstanding;
}.
Next Obligation. intros. by destruct (lazy_add_read_out so n b id c w c' w'). Qed.
Next Obligation. intros. by destruct (lazy_add_write_out so n b id c w c' w'). Qed.
Next Obligation. intros. by destruct (lazy_add_flush_out id c w c' w'). Qed.
Next Obligation. intros. by destruct (lazy_submit_out c w r c' w'). Qed.
Next Obligation.
  intros. destruct (lazy_poll_out c w rs c' w') as (dup & Hp & _ & Hd); [done|]. by rewrite Hd in Hp.
Qed.

(** ** A channel that records the calls it receives *)

Record ChannelCall := mkCall {
  call_kind : RequestType;
  call_offset : Z;
  call_count : Z;
  call_shared : SharedMetadataState;   (* the stripe states at the time of the call *)
}.

Record LogChannel (C : Type) := mkLog { log_inner : C; log_calls : list ChannelCall }.
Arguments mkLog {C}.
Arguments log_inner {C}.
Arguments log_calls {C}.

#[global] Instance log_channel {C} `{IoChannel C} : IoChannel (LogChannel C) := {
  add_read so n b id c w :=
    '(i, w') ← add_read so n b id (log_inner c) w;
    Done (mkLog i (log_calls c ++ [mkCall In so n (w_shared w)]), w');
  add_write so n b id c w :=
    '(i, w') ← add_write so n b id (log_inner c) w;
    Done (mkLog i (log_calls c ++ [mkCall Out so n (w_shared w)]), w');
  add_flush id c w := '(i, w) ← add_flush id (log_inner c) w; Done (mkLog i (log_calls c), w);
  submit c w := '(r, i, w) ← submit (log_inner c) w; Done (r, mkLog i (log_calls c), w);
  poll c w := '(rs, i, w) ← poll (log_inner c) w; Done (rs, mkLog i (log_calls c), w);
  busy c := busy (log_inner c);
}.

(** ** Which requests are possible *)

Definition world_ok (w : World) : Prop := shared_wf (w_shared w) /\ 0 <= shared_shift (w_shared w).

(** A non-empty request inside the device, as far as the stripe table knows. *)
Definition in_range (sh : SharedMetadataState) (so n : Z) : Prop :=
  0 <= so /\ 1 <= n /\ so + n <= 2 ^ 64 /\
  (sector_to_stripe_id sh (so + n - 1) < length (stripe_fetch_states sh))%nat.

Definition available (st : Z) : Prop := st = Fetched \/ st = NoSource.

(** Every sector of [so, so + n) lies in a stripe whose state satisfies [P]. *)
Definition sectors_satisfy (P : Z -> Prop) (states : list Z) (sh : SharedMetadataState) (so n : Z) : Prop :=
  forall s, so <= s < so + n -> exists st, states !! sector_to_stripe_id sh s = Some st /\ P st.

(** What may be sent to the base device. *)
Definition base_call_ok (track : bool) (c : ChannelCall) : Prop :=
  let sh := call_shared c in
  sectors_satisfy available (stripe_fetch_states sh) sh (call_offset c) (call_count c) /\
  (track = true -> call_kind c = Out ->
   sectors_satisfy (eq Written) (stripe_write_states sh) sh (call_offset c) (call_count c)).

(** What may be sent to the image: reads inside one stripe that is not there yet. *)
Definition image_call_ok (c : ChannelCall) : Prop :=
  let sh := call_shared c in
  call_kind c = In /\
  exists id, (forall s, call_offset c <= s < call_offset c + call_count c -> sector_to_stripe_id sh s = id) /\
    stripe_fetch_states sh !! id = Some NotFetched.

Lemma sector_to_stripe_id_mono sh s s' :
  0 <= shared_shift sh -> 0 <= s <= s' -> (sector_to_stripe_id sh s <= sector_to_stripe_id sh s')%nat.
Proof.
  intros. unfold sector_to_stripe_id. rewrite !Z.shiftr_div_pow2 by done.
  apply Z2Nat.inj_le; try (apply Z.div_pos; lia). apply Z.div_le_mono; lia.
Qed.

Lemma fetch_status_total sh ids :
  Forall (fun id => (id < length (stripe_fetch_states sh))%nat) ids -> exists st, fetch_status sh ids = Done st.
Proof.
  induction 1 as [|id ids Hid _ [st IH]]; cbn [fetch_status]; [by eexists|].
  destruct (lookup_lt_is_Some_2 _ _ Hid) as [z Hz].
  unfold stripe_fetch_state. rewrite (index_done _ _ _ Hz). cbn [mbind outcome_bind]. repeat case_match; eauto.
Qed.

Lemma fetch_status_complete sh ids :
  shared_wf sh -> fetch_status sh ids = Done StatusComplete ->
  Forall (fun id => exists st, stripe_fetch_states sh !! id = Some st /\ available st) ids.
Proof.
  intros Hwf. induction ids as [|id ids IH]; cbn [fetch_status]; [done|].
  unfold stripe_fetch_state, index. destruct (stripe_fetch_states sh !! id) as [z|] eqn:Hz; [|done].
  cbn [mbind outcome_bind]. pose proof (Forall_lookup_1 _ _ _ _ (sw_fetch _ Hwf) Hz) as Hin.
  intros E. assert (available z /\ fetch_status sh ids = Done StatusComplete) as [Ha Hs].
  { unfold available. rewrite !elem_of_cons, elem_of_nil in Hin.
    destruct Hin as [->|[->|[->|[->|[]]]]]; cbn in E; try done; split; auto. }
  constructor; eauto.
Qed.

Lemma fetch_status_pending sh id :
  fetch_status sh [id] = Done StatusPending -> stripe_fetch_states sh !! id = Some NotFetched.
Proof.
  cbn [fetch_status]. unfold stripe_fetch_state, index. destruct (stripe_fetch_states sh !! id) as [z|]; [|done].
  cbn [mbind outcome_bind]. destruct (_ || _); [done|]. destruct (z =? NotFetched) eqn:E; [|by case_match].
  intros _. f_equal. lia.
Qed.

Lemma all_written_total sh ids :
  Forall (fun id => (id < length (stripe_write_states sh))%nat) ids -> exists b, all_written sh ids = Done b.
Proof.
  induction 1 as [|id ids Hid _ [b IH]]; cbn [all_written]; [by eexists|].
  destruct (lookup_lt_is_Some_2 _ _ Hid) as [z Hz].
  unfold stripe_written. rewrite (index_done _ _ _ Hz). cbn [mbind outcome_bind]. case_match; eauto.
Qed.

Lemma all_written_true sh ids :
  all_written sh ids = Done true -> Forall (fun id => stripe_write_states sh !! id = Some Written) ids.
Proof.
  induction ids as [|id ids IH]; cbn [all_written]; [done|].
  unfold stripe_written, index. destruct (stripe_write_states sh !! id) as [z|] eqn:Hz; [|done].
  cbn [mbind outcome_bind]. destruct (z =? Written) eqn:E; [|done]. intros H.
  apply Z.eqb_eq in E. subst. constructor; auto.
Qed.

(** A queued request the worker has no more work for. *)
Definition request_ready (track : bool) (sh : SharedMetadataState) (r : RWRequest) : Prop :=
  Forall (fun id => stripe_fetch_states sh !! id <> Some NotFetched) (stripes_of r) /\
  (track = true -> rw_kind r = Out ->
   Forall (fun id => stripe_write_states sh !! id = Some Written) (stripes_of r)).

Lemma ready_not_pending sh ids :
  Forall (fun id => stripe_fetch_states sh !! id <> Some NotFetched) ids ->
  fetch_status sh ids <> Done StatusPending.
Proof.
  induction 1 as [|id ids Hid _ IH]; cbn [fetch_status]; [done|].
  unfold stripe_fetch_state, index. destruct (stripe_fetch_states sh !! id) as [z|]; [|done].
  cbn [mbind outcome_bind]. destruct (_ || _); [done|]. destruct (z =? NotFetched) eqn:E; [|by case_match].
  apply Z.eqb_eq in E. by subst.
Qed.

Lemma ready_written sh ids :
  Forall (fun id => stripe_write_states sh !! id = Some Written) ids -> all_written sh ids = Done true.
Proof.
  induction 1 as [|id ids Hid _ IH]; cbn [all_written]; [done|].
  unfold stripe_written. by rewrite (index_done _ _ _ Hid).
Qed.

(** ** Requests inside the device *)

Record req_ok (w : World) (r : RWRequest) : Prop := {
  ro_range : in_range (w_shared w) (rw_sector_offset r) (rw_sector_count r);
  ro_first : stripe_id_first r = sector_to_stripe_id (w_shared w) (rw_sector_offset r);
  ro_last : stripe_id_last r =
    sector_to_stripe_id (w_shared w) (rw_sector_offset r + rw_sector_count r - 1);
  ro_buf : holds w (rw_buf r) (rw_sector_count r);
}.

Lemma holds_stable w w' b n : stable w w' -> holds w b n -> holds w' b n.
Proof. intros (Hb & _) [Hd Hl]. destruct (Hb b Hd) as (? & _ & Hl'). split; [done|]. by rewrite Hl'. Qed.

Lemma req_ok_stable w w' r : stable w w' -> req_ok w r -> req_ok w' r.
Proof.
  intros Hs [(R0 & R1 & R2 & R3) Rf Rl Rb]. pose proof Hs as (_ & _ & Hlen & _ & Hsh).
  assert (forall s, sector_to_stripe_id (w_shared w') s = sector_to_stripe_id (w_shared w) s) as Hid
    by (intros; unfold sector_to_stripe_id; by rewrite Hsh).
  split; rewrite ?Hid; try done; [|by apply (holds_stable w)]. split_and!; try done. by rewrite Hid, Hlen.
Qed.

(** The stripes of a request inside the device are in the table. *)
Lemma req_bound w r : req_ok w r ->
  Forall (fun id => (id < length (stripe_fetch_states (w_shared w)))%nat) (stripes_of r).
Proof.
  intros [(R0 & R1 & R2 & R3) Rf Rl _]. apply Forall_forall. intros id Hid.
  unfold stripes_of in Hid. rewrite elem_of_range_incl in Hid. lia.
Qed.

Lemma request_made_ok id kind so n b w :
  in_range (w_shared w) so n -> holds w b n -> req_ok w (make_request id kind so n b w).
Proof.
  intros Hr Hh. pose proof Hr as (R0 & R1 & R2 & R3). split; cbn; try done.
  unfold wrap64. by rewrite Z.mod_small by lia.
Qed.

Lemma send_cases r w : exists res rs, send r w = (res, set_requests w rs).
Proof. unfold send. case_match; eexists; [by eexists|]. exists (w_requests w). by destruct w. Qed.

Lemma fetch_stripes_total {B I} ids (c : LazyIoChannel B I) w :
  Forall (fun id => (id < length (stripe_fetch_states (w_shared w)))%nat) ids ->
  exists r x rs, fetch_stripes ids c w = Done (r, set_requested c x, set_requests w rs).
Proof.
  intros Hall. assert (exists x, c = set_requested c x) as [x0 Hc] by (destruct c; by eexists).
  revert c w x0 Hc Hall. induction ids as [|id ids IH]; intros c w x0 Hc Hall; cbn [fetch_stripes].
  { exists (Ok tt), x0, (w_requests w). rewrite <- Hc. by destruct w. }
  apply Forall_cons in Hall as [Hid Hall]. destruct (lookup_lt_is_Some_2 _ _ Hid) as [z Hz].
  unfold stripe_fetched_if_needed. rewrite (index_done _ _ _ Hz). cbn [mbind outcome_bind].
  destruct (_ && _); [|by apply (IH c w x0)].
  destruct (send_cases (Fetch id) w) as (res & rs & ->).
  destruct res; [|by eexists _, x0, rs; rewrite <- Hc].
  destruct (IH (set_requested c ({[id]} ∪ stripe_fetches_requested c)) (set_requests w rs) _ eq_refl Hall)
    as (r & x & rs' & E). eauto.
Qed.

Lemma set_written_total ids w :
  Forall (fun id => (id < length (stripe_write_states (w_shared w)))%nat) ids ->
  exists r rs, set_written_stripes ids w = Done (r, set_requests w rs).
Proof.
  revert w. induction ids as [|id ids IH]; intros w Hall; cbn [set_written_stripes].
  { exists (Ok tt), (w_requests w). by destruct w. }
  apply Forall_cons in Hall as [Hid Hall]. destruct (lookup_lt_is_Some_2 _ _ Hid) as [z Hz].
  unfold stripe_written. rewrite (index_done _ _ _ Hz). cbn [mbind outcome_bind].
  destruct (negb _); [|by apply IH].
  destruct (send_cases (SetWritten id) w) as (res & rs & ->). destruct res; [|eauto].
  destruct (IH (set_requests w rs) Hall) as (r & rs' & E). eauto.
Qed.

(** ** The gate: what the channel lets through *)

Section lazy_gate.
#[local] Set Default Proof Using "Type*".
Context {B I : Type} `{ChannelSafe B} `{ChannelSafe I}.
Implicit Types (c : LazyIoChannel (LogChannel B) (LogChannel I)) (w : World).

Record lazy_inv c w : Prop := {
  li_world : world_ok w;
  li_base : ch_inv (log_inner (lz_base c)) w;
  li_image : forall i, lz_image c = Some i -> ch_inv (log_inner i) w;
  li_queue : Forall (req_ok w) (queued_rw_requests c);
  li_base_calls : Forall (base_call_ok (track_written c)) (log_calls (lz_base c));
  li_image_calls : forall i, lz_image c = Some i -> Forall image_call_ok (log_calls i);
}.

Lemma lazy_inv_stable c w w' : stable w w' -> shared_wf (w_shared w') -> lazy_inv c w -> lazy_inv c w'.
Proof.
  intros Hs Hwf [[_ Hsh] Hb Hi Hq Hc Hic]. split; try done.
  - split; [done|]. destruct Hs as (_ & _ & _ & _ & ->). done.
  - by apply (ch_inv_stable _ w).
  - intros i E. apply (ch_inv_stable _ w); auto.
  - eapply Forall_impl; [done|]. intros r. by apply req_ok_stable.
Qed.

Lemma lazy_inv_frame c w w' : frame w w' -> lazy_inv c w -> lazy_inv c w'.
Proof.
  intros Hf Hi. apply (lazy_inv_stable _ w); [by apply frame_stable| |done].
  destruct Hf as (_ & _ & _ & -> & _). apply (li_world _ _ Hi).
Qed.

Lemma lazy_inv_requests c w rs : lazy_inv c w -> lazy_inv c (set_requests w rs).
Proof. intros Hi. apply (lazy_inv_stable _ w); [by split_and!|apply (li_world _ _ Hi)|done]. Qed.

(** The stripes of a well-formed request are in the table and cover its sectors. *)
Lemma req_stripes_bound w r : world_ok w -> req_ok w r ->
  Forall (fun id => (id < length (stripe_fetch_states (w_shared w)))%nat) (stripes_of r).
Proof. intros _. apply req_bound. Qed.

Lemma req_stripes_cover w r s : world_ok w -> req_ok w r ->
  rw_sector_offset r <= s < rw_sector_offset r + rw_sector_count r ->
  sector_to_stripe_id (w_shared w) s ∈ stripes_of r.
Proof.
  intros [_ Hsh] [(R0 & R1 & R2 & R3) Rf Rl _] Hs. unfold stripes_of. rewrite elem_of_range_incl, Rf, Rl.
  split; apply sector_to_stripe_id_mono; try done; lia.
Qed.

Lemma make_request_ok id kind so n b w :
  world_ok w -> in_range (w_shared w) so n -> holds w b n -> req_ok w (make_request id kind so n b w).
Proof. intros _. apply request_made_ok. Qed.

Lemma status_total w r : world_ok w -> req_ok w r -> exists st, request_stripes_fetch_status r w = Done st.
Proof. intros. by apply fetch_status_total, req_stripes_bound. Qed.

Lemma written_total w r : world_ok w -> req_ok w r -> exists b, request_stripes_written r w = Done b.
Proof.
  intros Hw Hr. apply all_written_total. destruct Hw as [Hwf Hsh]. rewrite <- (sw_len _ Hwf).
  by apply req_stripes_bound.
Qed.

Lemma status_complete w r : world_ok w -> req_ok w r ->
  request_stripes_fetch_status r w = Done StatusComplete ->
  sectors_satisfy available (stripe_fetch_states (w_shared w)) (w_shared w) (rw_sector_offset r) (rw_sector_count r).
Proof.
  intros Hw Hr E s Hs. pose proof (fetch_status_complete _ _ (proj1 Hw) E) as Hall.
  rewrite Forall_forall in Hall. by apply Hall, req_stripes_cover.
Qed.

Lemma written_true w r : world_ok w -> req_ok w r ->
  request_stripes_written r w = Done true ->
  sectors_satisfy (eq Written) (stripe_write_states (w_shared w)) (w_shared w) (rw_sector_offset r) (rw_sector_count r).
Proof.
  intros Hw Hr E s Hs. pose proof (all_written_true _ _ E) as Hall.
  rewrite Forall_forall in Hall. exists Written. split; [|done]. by apply Hall, req_stripes_cover.
Qed.

(** Sending an allowed call to the base, or an allowed read to the image. *)
Lemma base_call kind so n b id c w :
  lazy_inv c w -> base_call_ok (track_written c) (mkCall kind so n (w_shared w)) -> holds w b n ->
  exists base w',
    match kind with
    | In => add_read so n b id (lz_base c) w
    | Out => add_write so n b id (lz_base c) w
    end = Done (base, w') /\ frame w w' /\ lazy_inv (set_base c base) w'.
Proof.
  intros Hi Hok Hh. pose proof (li_base _ _ Hi) as Hb.
  assert (exists i w', match kind with In => add_read so n b id (log_inner (lz_base c)) w
                       | Out => add_write so n b id (log_inner (lz_base c)) w end = Done (i, w')
            /\ frame w w' /\ ch_inv i w') as (i & w' & E & Hf & Hb')
    by (destruct kind; [by apply add_read_safe|by apply add_write_safe]).
  exists (mkLog i (log_calls (lz_base c) ++ [mkCall kind so n (w_shared w)])), w'.
  split_and!; [by destruct kind; cbn; rewrite E|done|].
  destruct (lazy_inv_frame _ _ _ Hf Hi). split; cbn; try done. apply Forall_app; auto.
Qed.

Lemma image_call so n b id c w i :
  lazy_inv c w -> lz_image c = Some i -> image_call_ok (mkCall In so n (w_shared w)) -> holds w b n ->
  exists i' w', add_read so n b id i w = Done (i', w') /\ frame w w' /\ lazy_inv (set_image c (Some i')) w'.
Proof.
  intros Hi Ei Hok Hh. destruct (add_read_safe so n b id _ w (li_image _ _ Hi i Ei) Hh) as (j & w' & E & Hf & Hj).
  eexists _, w'. cbn. rewrite E. split_and!; [done..|].
  pose proof (li_image_calls _ _ Hi i Ei). destruct (lazy_inv_frame _ _ _ Hf Hi).
  split; cbn; try done; intros ? [= <-]; [done|]. cbn. apply Forall_app; auto.
Qed.

Lemma set_requested_inv c w x : lazy_inv c w -> lazy_inv (set_requested c x) w.
Proof. intros []. by split. Qed.
Lemma set_finished_inv c w x : lazy_inv c w -> lazy_inv (set_finished c x) w.
Proof. intros []. by split. Qed.
Lemma queue_request_inv c w r : lazy_inv c w -> req_ok w r -> lazy_inv (queue_request r c) w.
Proof. intros [] Hr. split; try done. cbn. apply Forall_app; auto. Qed.
Lemma set_rw_queue_inv c w q : lazy_inv c w -> Forall (req_ok w) q -> lazy_inv (set_rw_queue c q) w.
Proof. intros [] Hq. by split. Qed.

(** [good c w o]: the call [o] of the channel [c] returned, and kept the invariant. *)
Definition good c w (o : outcome (LazyIoChannel (LogChannel B) (LogChannel I) * World)) : Prop :=
  exists c' w', o = Done (c', w') /\ lazy_inv c' w' /\ stable w w' /\ track_written c' = track_written c.

Lemma queue_read_good req c w : lazy_inv c w -> req_ok w req -> good c w (queue_read req c w).
Proof.
  intros Hi Hr. unfold queue_read, start_stripe_fetches.
  destruct (fetch_stripes_total (stripes_of req) c w) as (r & x & rs & ->).
  { apply req_stripes_bound; [apply (li_world _ _ Hi)|done]. }
  cbn [mbind outcome_bind]. apply (set_requested_inv _ _ x), (lazy_inv_requests _ _ rs) in Hi.
  apply (req_ok_stable _ (set_requests w rs)) in Hr; [|by split_and!].
  destruct r; do 2 eexists; split_and!; try done;
    [by apply queue_request_inv|by apply set_finished_inv].
Qed.

Lemma queue_write_good req c w : lazy_inv c w -> req_ok w req -> good c w (queue_write req c w).
Proof.
  intros Hi Hr. unfold queue_write, start_stripe_fetches.
  destruct (fetch_stripes_total (stripes_of req) c w) as (r & x & rs & ->).
  { apply req_stripes_bound; [apply (li_world _ _ Hi)|done]. }
  cbn [mbind outcome_bind]. apply (set_requested_inv _ _ x), (lazy_inv_requests _ _ rs) in Hi.
  apply (req_ok_stable _ (set_requests w rs)) in Hr; [|by split_and!].
  destruct r; [|do 2 eexists; split_and!; try done; by apply set_finished_inv]. cbn [track_written set_requested].
  destruct (track_written c) eqn:Et; [|do 2 eexists; split_and!; try done; by apply queue_request_inv].
  unfold start_stripe_set_written.
  destruct (set_written_total (stripes_of req) (set_requests w rs)) as (r & rs' & ->).
  { destruct (li_world _ _ Hi) as [Hwf ?]. rewrite <- (sw_len _ Hwf). by apply req_stripes_bound. }
  cbn [mbind outcome_bind]. apply (lazy_inv_requests _ _ rs') in Hi.
  apply (req_ok_stable _ (set_requests (set_requests w rs) rs')) in Hr; [|by split_and!].
  destruct r; do 2 eexists; split_and!; try done; [by apply queue_request_inv|by apply set_finished_inv].
Qed.

Lemma set_base_good c w c1 o :
  (exists base w', o = Done (base, w') /\ frame w w' /\ lazy_inv (set_base c1 base) w') ->
  track_written c1 = track_written c ->
  good c w ('(base, w) ← o; Done (set_base c1 base, w)).
Proof.
  intros (base & w' & -> & Hf & Hi) Ht. do 2 eexists; split_and!; try done. by apply frame_stable.
Qed.

Lemma lazy_add_read_good so n b id c w :
  lazy_inv c w -> in_range (w_shared w) so n -> holds w b n -> good c w (lazy_add_read so n b id c w).
Proof.
  intros Hi Hr Hh. unfold lazy_add_read. pose proof (li_world _ _ Hi) as Hw.
  pose proof (make_request_ok id In so n b w Hw Hr Hh) as Hreq.
  destruct (status_total _ _ Hw Hreq) as [st Est]. rewrite Est. cbn [mbind outcome_bind]. destruct st as [| |sid].
  - case_decide as Heq; [|by apply queue_read_good]. destruct (lz_image c) as [i|] eqn:Ei; [|by apply queue_read_good].
    destruct (image_call so n b id c w i Hi Ei) as (i' & w' & -> & Hf & Hi'); [|done|].
    { unfold request_stripes_fetch_status in Est. rewrite <- (app_nil_r (stripes_of _)) in Est.
      unfold stripes_of, range_incl in Est. rewrite <- Heq in Est.
      replace (S _ - _)%nat with 1%nat in Est by lia. cbn [seq app] in Est.
      split; [done|]. eexists. split; [|by apply fetch_status_pending]. intros s Hs; cbn.
      pose proof (req_stripes_cover _ _ s Hw Hreq Hs) as Hin. unfold stripes_of in Hin.
      rewrite elem_of_range_incl, <- Heq in Hin. cbn in Hin. lia. }
    cbn [mbind outcome_bind]. do 2 eexists; split_and!; try done. by apply frame_stable.
  - apply set_base_good; [|done]. apply (base_call In); try done. split; [|done].
    by apply (status_complete w _ Hw Hreq).
  - do 2 eexists; split_and!; try done. by apply set_finished_inv.
Qed.

Lemma lazy_add_write_good so n b id c w :
  lazy_inv c w -> in_range (w_shared w) so n -> holds w b n -> good c w (lazy_add_write so n b id c w).
Proof.
  intros Hi Hr Hh. unfold lazy_add_write. pose proof (li_world _ _ Hi) as Hw.
  pose proof (make_request_ok id Out so n b w Hw Hr Hh) as Hreq.
  destruct (status_total _ _ Hw Hreq) as [st Est]. rewrite Est. cbn [mbind outcome_bind].
  destruct st as [| |sid]; [by apply queue_write_good| |].
  - destruct (if track_written c then _ else _) as [can|] eqn:Ecan.
    2:{ destruct (written_total _ _ Hw Hreq) as [x Ex]. rewrite Ex in Ecan. by destruct (track_written c). }
    cbn [mbind outcome_bind]. destruct can; [|by apply queue_write_good].
    apply set_base_good; [|done]. apply (base_call Out); try done.
    split; [by apply (status_complete w _ Hw Hreq)|]. intros Ht _. rewrite Ht in Ecan.
    by apply (written_true w _ Hw Hreq).
  - do 2 eexists; split_and!; try done. by apply set_finished_inv.
Qed.

(** The loop over the queue sends only allowed calls, and leaves nothing behind
    when every request of the queue is ready. *)
Lemma process_queue_good q c w added :
  lazy_inv c w -> Forall (req_ok w) q ->
  exists c' w' added', process_queue q c w added = Done (c', w', added') /\
    lazy_inv c' w' /\ frame w w' /\ track_written c' = track_written c /\
    (Forall (request_ready (track_written c) (w_shared w)) q -> queued_rw_requests c' = []).
Proof.
  revert c w added. induction q as [|front q IH]; intros c w added Hi Hq; cbn [process_queue].
  { do 3 eexists; split_and!; try done. by apply set_rw_queue_inv. }
  pose proof Hq as [Hr Hq']%Forall_cons. pose proof (li_world _ _ Hi) as Hw.
  destruct (status_total _ _ Hw Hr) as [st Est]. rewrite Est. cbn [mbind outcome_bind]. destruct st as [| |sid].
  - do 3 eexists; split_and!; try done; [by apply set_rw_queue_inv|].
    intros [[Hready _] _]%Forall_cons. by apply ready_not_pending in Hready.
  - destruct (if _ && _ then _ else _) as [blocked|] eqn:Eb.
    2:{ destruct (written_total _ _ Hw Hr) as [x Ex]. rewrite Ex in Eb. by destruct (_ && _). }
    cbn [mbind outcome_bind]. destruct blocked.
    { do 3 eexists; split_and!; try done; [by apply set_rw_queue_inv|].
      intros [[_ Hready] _]%Forall_cons. destruct (_ && _) eqn:Eand; [|done].
      apply andb_true_iff in Eand as [Et Ek]. unfold request_stripes_written in Eb.
      rewrite (ready_written _ _ (Hready Et (bool_decide_eq_true_1 _ Ek))) in Eb. done. }
    destruct (base_call (rw_kind front) (rw_sector_offset front) (rw_sector_count front) (rw_buf front) (rw_id front)
      (set_requested c (stripe_fetches_requested c ∖ list_to_set (stripes_of front))) w) as (base & w1 & Ea & Hf & Hi1).
    { by apply set_requested_inv. }
    { split; [by apply status_complete|]. cbn. intros Ht Hk. apply written_true; [done..|].
      rewrite Ht, bool_decide_eq_true_2 in Eb by done. cbn [andb] in Eb.
      destruct (request_stripes_written front w) as [[]|]; done. }
    { apply Hr. }
    rewrite Ea. cbn [mbind outcome_bind].
    destruct (IH _ w1 (added ++ [rw_id front]) Hi1) as (c' & w' & added' & -> & Hi' & Hf' & Ht' & Hd).
    { eapply Forall_impl; [exact Hq'|]. intros r. apply req_ok_stable. by apply frame_stable. }
    do 3 eexists; split_and!; try done; [by etrans|]. intros [_ Hall]%Forall_cons. apply Hd. cbn.
    destruct Hf as (_ & _ & _ & -> & _). done.
  - destruct (IH _ w added (set_finished_inv _ _ (lz_finished c ++ [(rw_id front, false)]) Hi) Hq')
      as (c' & w' & added' & -> & Hi' & Hf' & Ht' & Hd).
    do 3 eexists; split_and!; try done. intros [_ Hall]%Forall_cons. by apply Hd.
Qed.

Lemma submit_base_good c w :
  lazy_inv c w ->
  exists r base w', submit (lz_base c) w = Done (r, base, w') /\ frame w w' /\ lazy_inv (set_base c base) w'.
Proof.
  intros Hi. destruct (submit_safe _ w (li_base _ _ Hi)) as (r & i & w' & E & Hf & Hb).
  do 3 eexists. cbn. rewrite E. split_and!; [done..|]. destruct (lazy_inv_frame _ _ _ Hf Hi). by split.
Qed.

Lemma process_queued_good c w :
  lazy_inv c w ->
  exists c' w', process_queued_rw_requests c w = Done (c', w') /\ lazy_inv c' w' /\ frame w w' /\
    track_written c' = track_written c /\
    (Forall (request_ready (track_written c) (w_shared w)) (queued_rw_requests c) -> queued_rw_requests c' = []).
Proof.
  intros Hi. unfold process_queued_rw_requests.
  destruct (process_queue_good (queued_rw_requests c) c w [] Hi (li_queue _ _ Hi))
    as (c1 & w1 & added & -> & Hi1 & Hf1 & Ht1 & Hd). cbn [mbind outcome_bind].
  case_bool_decide; [by do 2 eexists; split_and!|].
  destruct (submit_base_good _ _ Hi1) as (r & base & w2 & -> & Hf2 & Hi2). cbn [mbind outcome_bind].
  destruct r; do 2 eexists; split_and!; try done; try (by etrans). by apply set_finished_inv.
Qed.

Lemma lazy_submit_good c w :
  lazy_inv c w ->
  exists r c' w', lazy_submit c w = Done (r, c', w') /\ lazy_inv c' w' /\ stable w w' /\ track_written c' = track_written c.
Proof.
  intros Hi. unfold lazy_submit. destruct (lz_image c) as [i|] eqn:Ei.
  - destruct (submit_safe _ w (li_image _ _ Hi i Ei)) as (r & j & w1 & E & Hf & Hj). cbn. rewrite E. cbn [mbind outcome_bind].
    assert (lazy_inv (set_image c (Some (mkLog j (log_calls i)))) w1) as Hi1.
    { pose proof (li_image_calls _ _ Hi i Ei). destruct (lazy_inv_frame _ _ _ Hf Hi). split; try done; by intros ? [= <-]. }
    destruct r as [u|e]; [|by do 3 eexists; split_and!; try done; apply frame_stable].
    destruct (submit_base_good _ _ Hi1) as (r & base & w2 & Eb & Hf2 & Hi2). cbn in Eb. rewrite Eb.
    do 3 eexists; split_and!; try done. apply frame_stable. by etrans.
  - destruct (submit_base_good _ _ Hi) as (r & base & w2 & -> & Hf2 & Hi2).
    do 3 eexists; split_and!; try done. by apply frame_stable.
Qed.

Lemma lazy_poll_good c w :
  lazy_inv c w ->
  exists rs c' w', lazy_poll c w = Done (rs, c', w') /\ lazy_inv c' w' /\ stable w w' /\
    track_written c' = track_written c /\
    (Forall (request_ready (track_written c) (w_shared w)) (queued_rw_requests c) -> queued_rw_requests c' = []).
Proof.
  intros Hi. unfold lazy_poll. destruct (process_queued_good _ _ Hi) as (c1 & w1 & -> & Hi1 & Hf1 & Ht1 & Hd).
  cbn [mbind outcome_bind]. apply (set_finished_inv _ _ []) in Hi1.
  destruct (poll_safe _ w1 (li_base _ _ Hi1)) as (rb & b & w2 & Eb & Hf2 & Hb). cbn in Eb |- *. rewrite Eb.
  cbn [mbind outcome_bind lz_image set_base set_finished].
  assert (lazy_inv (set_base (set_finished c1 []) (mkLog b (log_calls (lz_base c1)))) w2) as Hi2
    by (destruct (lazy_inv_frame _ _ _ Hf2 Hi1); by split).
  destruct (lz_image c1) as [i|] eqn:Ei.
  2:{ do 3 eexists; split_and!; try done. apply frame_stable. by etrans. }
  destruct (poll_safe _ w2 (li_image _ _ Hi2 i Ei)) as (ri & j & w3 & E3 & Hf3 & Hj). rewrite E3. cbn [mbind outcome_bind].
  do 3 eexists; split_and!; try done; [|apply frame_stable; etrans; [done|]; by etrans].
  pose proof (li_image_calls _ _ Hi2 i Ei). destruct (lazy_inv_frame _ _ _ Hf3 Hi2). split; try done; by intros ? [= <-].
Qed.

Lemma lazy_add_flush_good id c w : lazy_inv c w -> good c w (lazy_add_flush id c w).
Proof.
  intros Hi. apply set_base_good; [|done].
  destruct (add_flush_safe id _ w (li_base _ _ Hi)) as (i & w' & E & Hf & Hb). cbn. rewrite E.
  do 2 eexists; split_and!; [done..|]. destruct (lazy_inv_frame _ _ _ Hf Hi). by split.
Qed.

(** The users of the channel call it with requests inside the device and large
    enough buffers; between two calls the rest of the program may change
    anything but the geometry, as long as the stripe states stay well formed. *)
Inductive lazy_step :
  LazyIoChannel (LogChannel B) (LogChannel I) * World ->
  LazyIoChannel (LogChannel B) (LogChannel I) * World -> Prop :=
| ls_read so n b id c w c' w' : in_range (w_shared w) so n -> holds w b n ->
    add_read so n b id c w = Done (c', w') -> lazy_step (c, w) (c', w')
| ls_write so n b id c w c' w' : in_range (w_shared w) so n -> holds w b n ->
    add_write so n b id c w = Done (c', w') -> lazy_step (c, w) (c', w')
| ls_flush id c w c' w' : add_flush id c w = Done (c', w') -> lazy_step (c, w) (c', w')
| ls_submit c w r c' w' : submit c w = Done (r, c', w') -> lazy_step (c, w) (c', w')
| ls_poll c w rs c' w' : poll c w = Done (rs, c', w') -> lazy_step (c, w) (c', w')
| ls_world c w w' : stable w w' -> shared_wf (w_shared w') -> lazy_step (c, w) (c, w').

Lemma good_inv c w o c' w' :
  good c w o -> o = Done (c', w') -> lazy_inv c' w' /\ track_written c' = track_written c.
Proof. intros (? & ? & -> & ? & ? & ?) ?. by simplify_eq. Qed.

Lemma lazy_step_inv s s' :
  lazy_step s s' -> lazy_inv s.1 s.2 -> lazy_inv s'.1 s'.2 /\ track_written s'.1 = track_written s.1.
Proof.
  destruct 1 as [so n b id c w c' w' Hr Hh E|so n b id c w c' w' Hr Hh E|id c w c' w' E|c w r c' w' E
    |c w rs c' w' E|c w w' Hs Hwf]; cbn [fst snd]; intros Hi.
  - eapply good_inv; [by apply lazy_add_read_good|exact E].
  - eapply good_inv; [by apply lazy_add_write_good|exact E].
  - eapply good_inv; [by apply lazy_add_flush_good|exact E].
  - destruct (lazy_submit_good _ _ Hi) as (r1 & c1 & w1 & E1 & ? & _ & ?).
    change (lazy_submit c w = Done (r, c', w')) in E. rewrite E1 in E. by simplify_eq.
  - destruct (lazy_poll_good _ _ Hi) as (r1 & c1 & w1 & E1 & ? & _ & ? & _).
    change (lazy_poll c w = Done (rs, c', w')) in E. rewrite E1 in E. by simplify_eq.
  - split; [by apply (lazy_inv_stable _ w)|done].
Qed.

Lemma lazy_steps_inv s s' :
  rtc lazy_step s s' -> lazy_inv s.1 s.2 -> lazy_inv s'.1 s'.2 /\ track_written s'.1 = track_written s.1.
Proof.
  induction 1 as [|s1 s2 s3 Hs _ IH]; [done|]. intros Hi. destruct (lazy_step_inv _ _ Hs Hi) as [Hi2 <-]. by apply IH.
Qed.

(** A new channel over a base and an image nobody has called yet. *)
Definition lazy_start (base : B) (image : option I) (track : bool)
  : LazyIoChannel (LogChannel B) (LogChannel I) :=
  lazy_new (mkLog base []) ((fun i => mkLog i []) <$> image) track.

Lemma lazy_start_inv base image track w :
  world_ok w -> ch_inv base w -> (forall i, image = Some i -> ch_inv i w) ->
  lazy_inv (lazy_start base image track) w.
Proof.
  intros Hw Hb Hi. split; cbn; try done; destruct image as [i|]; intros ? [= <-]; [by apply Hi|constructor].
Qed.
End lazy_gate.

(** ** The promise to the front ends *)

Section lazy_serves.
#[local] Set Default Proof Using "Type*".
Context {B I : Type} `{ChannelSafe B} `{ChannelSafe I}.
Implicit Types (c : LazyIoChannel B I) (w : World).

Record lazy_ready c w : Prop := {
  lr_base : ch_inv (lz_base c) w;
  lr_image : forall i, lz_image c = Some i -> ch_inv i w;
  lr_tables : length (stripe_write_states (w_shared w)) = length (stripe_fetch_states (w_shared w));
  lr_queue : Forall (req_ok w) (queued_rw_requests c);
}.

Lemma lazy_ready_stable c w w' : stable w w' -> lazy_ready c w -> lazy_ready c w'.
Proof.
  intros Hs [L1 L2 L3 L4]. pose proof Hs as (_ & _ & E1 & E2 & _). split.
  - by apply (ch_inv_stable _ w).
  - intros i Hi. apply (ch_inv_stable _ w); auto.
  - by rewrite E1, E2.
  - eapply Forall_impl; [exact L4|]. intros r. by apply req_ok_stable.
Qed.

Definition kept w (o : outcome (LazyIoChannel B I * World)) : Prop :=
  exists c' w', o = Done (c', w') /\ evolves w w' /\ lazy_ready c' w'.

Lemma status_done w r : req_ok w r -> exists st, request_stripes_fetch_status r w = Done st.
Proof. intros. by apply fetch_status_total, req_bound. Qed.

Lemma written_done c w r : lazy_ready c w -> req_ok w r -> exists b, request_stripes_written r w = Done b.
Proof. intros Hl Hr. apply all_written_total. rewrite (lr_tables _ _ Hl). by apply req_bound. Qed.

Lemma ready_set_base c w base : lazy_ready c w -> ch_inv base w -> lazy_ready (set_base c base) w.
Proof. intros [] ?. by split. Qed.
Lemma ready_set_queue c w q : lazy_ready c w -> Forall (req_ok w) q -> lazy_ready (set_rw_queue c q) w.
Proof. intros [] ?. by split. Qed.
Lemma ready_set_requested c w x : lazy_ready c w -> lazy_ready (set_requested c x) w.
Proof. intros []. by split. Qed.
Lemma ready_set_finished c w x : lazy_ready c w -> lazy_ready (set_finished c x) w.
Proof. intros []. by split. Qed.
Lemma ready_requests c w rs : lazy_ready c w -> lazy_ready c (set_requests w rs).
Proof. apply lazy_ready_stable, set_requests_stable. Qed.
Lemma ready_queue_request c w r : lazy_ready c w -> req_ok w r -> lazy_ready (queue_request r c) w.
Proof. intros [] Hr. split; try done. cbn. apply Forall_app; auto. Qed.

Lemma base_kept c w o :
  lazy_ready c w -> (exists base w', o = Done (base, w') /\ frame w w' /\ ch_inv base w') ->
  kept w ('(base, w) ← o; Done (set_base c base, w)).
Proof.
  intros Hl (base & w' & -> & Hf & Hb). do 2 eexists. split; [done|]. split; [by apply frame_evolves|].
  apply ready_set_base; [|done]. apply (lazy_ready_stable _ w); [by apply frame_stable|done].
Qed.

Lemma queue_read_kept req c w : lazy_ready c w -> req_ok w req -> kept w (queue_read req c w).
Proof.
  intros Hl Hr. unfold queue_read, start_stripe_fetches.
  destruct (fetch_stripes_total (stripes_of req) c w (req_bound _ _ Hr)) as (r & x & rs & ->).
  cbn [mbind outcome_bind]. apply (ready_set_requested _ _ x), (ready_requests _ _ rs) in Hl.
  apply (req_ok_stable _ _ _ (set_requests_stable w rs)) in Hr.
  destruct r; do 2 eexists; (split; [done|]); (split; [apply requests_evolve|]);
    [by apply ready_queue_request|by apply ready_set_finished].
Qed.

Lemma queue_write_kept req c w : lazy_ready c w -> req_ok w req -> kept w (queue_write req c w).
Proof.
  intros Hl Hr. unfold queue_write, start_stripe_fetches.
  destruct (fetch_stripes_total (stripes_of req) c w (req_bound _ _ Hr)) as (r & x & rs & ->).
  cbn [mbind outcome_bind]. apply (ready_set_requested _ _ x), (ready_requests _ _ rs) in Hl.
  apply (req_ok_stable _ _ _ (set_requests_stable w rs)) in Hr. cbn [track_written set_requested].
  destruct r; [|do 2 eexists; split; [done|]; split; [apply requests_evolve|by apply ready_set_finished]].
  destruct (track_written c);
    [|do 2 eexists; split; [done|]; split; [apply requests_evolve|by apply ready_queue_request]].
  unfold start_stripe_set_written. destruct (set_written_total (stripes_of req) (set_requests w rs)) as (r & rs' & ->).
  { rewrite (lr_tables _ _ Hl). by apply req_bound. }
  cbn [mbind outcome_bind]. apply (ready_requests _ _ rs') in Hl.
  apply (req_ok_stable _ _ _ (set_requests_stable _ rs')) in Hr.
  destruct r; do 2 eexists; (split; [done|]); (split; [etrans; apply requests_evolve|]);
    [by apply ready_queue_request|by apply ready_set_finished].
Qed.

Lemma lazy_add_read_kept so n b id c w :
  lazy_ready c w -> holds w b n -> in_range (w_shared w) so n -> kept w (lazy_add_read so n b id c w).
Proof.
  intros Hl Hh Hr. unfold lazy_add_read. pose proof (request_made_ok id In so n b w Hr Hh) as Hreq.
  destruct (status_done _ _ Hreq) as [st ->]. cbn [mbind outcome_bind]. destruct st as [| |sid].
  - case_decide; [|by apply queue_read_kept]. destruct (lz_image c) as [i|] eqn:Ei; [|by apply queue_read_kept].
    destruct (add_read_safe so n b id i w (lr_image _ _ Hl i Ei) Hh) as (i' & w' & -> & Hf & Hi'). cbn [mbind outcome_bind].
    do 2 eexists. split; [done|]. split; [by apply frame_evolves|].
    apply (lazy_ready_stable _ w w') in Hl as [L1 L2 L3 L4]; [|by apply frame_stable]. split; try done. by intros ? [= <-].
  - apply base_kept; [done|]. apply add_read_safe; [apply Hl|done].
  - do 2 eexists. split; [done|]. split; [done|]. by apply ready_set_finished.
Qed.

Lemma lazy_add_write_kept so n b id c w :
  lazy_ready c w -> holds w b n -> in_range (w_shared w) so n -> kept w (lazy_add_write so n b id c w).
Proof.
  intros Hl Hh Hr. unfold lazy_add_write. pose proof (request_made_ok id Out so n b w Hr Hh) as Hreq.
  destruct (status_done _ _ Hreq) as [st ->]. cbn [mbind outcome_bind].
  destruct st as [| |sid]; [by apply queue_write_kept| |].
  - assert (exists can, (if track_written c then request_stripes_written (make_request id Out so n b w) w else Done true)
      = Done can) as [can ->] by (destruct (track_written c); [by apply (written_done c)|by eexists]).
    cbn [mbind outcome_bind]. destruct can; [|by apply queue_write_kept].
    apply base_kept; [done|]. apply add_write_safe; [apply Hl|done].
  - do 2 eexists. split; [done|]. split; [done|]. by apply ready_set_finished.
Qed.

Lemma process_queue_kept q c w added :
  lazy_ready c w -> Forall (req_ok w) q ->
  exists c' w' added', process_queue q c w added = Done (c', w', added') /\ evolves w w' /\ lazy_ready c' w'.
Proof.
  revert c w added. induction q as [|front q IH]; intros c w added Hl Hq; cbn [process_queue].
  { do 3 eexists. split; [done|]. split; [done|by apply ready_set_queue]. }
  pose proof Hq as [Hr Hq']%Forall_cons. destruct (status_done _ _ Hr) as [st ->]. cbn [mbind outcome_bind].
  destruct st as [| |sid].
  - do 3 eexists. split; [done|]. split; [done|by apply ready_set_queue].
  - assert (exists bl, (if track_written c && bool_decide (rw_kind front = Out)
      then wr ← request_stripes_written front w; Done (negb wr) else Done false) = Done bl) as [bl ->].
    { destruct (_ && _); [|by eexists]. destruct (written_done c w front Hl Hr) as [x ->]. by eexists. }
    cbn [mbind outcome_bind]. destruct bl; [do 3 eexists; split; [done|]; split; [done|by apply ready_set_queue]|].
    set (c1 := set_requested c _). assert (lazy_ready c1 w) as Hl1 by (by apply ready_set_requested).
    assert (exists base w', match rw_kind front with
        | In => add_read (rw_sector_offset front) (rw_sector_count front) (rw_buf front) (rw_id front) (lz_base c1) w
        | Out => add_write (rw_sector_offset front) (rw_sector_count front) (rw_buf front) (rw_id front) (lz_base c1) w
        end = Done (base, w') /\ frame w w' /\ ch_inv base w') as (base & w1 & -> & Hf & Hb).
    { destruct (rw_kind front); [apply add_read_safe|apply add_write_safe]; apply Hl1 || apply Hr. }
    cbn [mbind outcome_bind].
    destruct (IH (set_base c1 base) w1 (added ++ [rw_id front])) as (c' & w' & added' & -> & He & Hl').
    { apply ready_set_base; [|done]. apply (lazy_ready_stable _ w); [by apply frame_stable|done]. }
    { eapply Forall_impl; [exact Hq'|]. intros r. apply req_ok_stable. by apply frame_stable. }
    do 3 eexists. split; [done|]. split; [|done]. etrans; [by apply frame_evolves|done].
  - apply (IH _ w added); [by apply ready_set_finished|done].
Qed.

Lemma submit_base_kept c w : lazy_ready c w ->
  exists r base w', submit (lz_base c) w = Done (r, base, w') /\ evolves w w' /\ lazy_ready (set_base c base) w'.
Proof.
  intros Hl. destruct (submit_safe _ w (lr_base _ _ Hl)) as (r & base & w' & -> & Hf & Hb).
  do 3 eexists. split; [done|]. split; [by apply frame_evolves|].
  apply ready_set_base; [|done]. apply (lazy_ready_stable _ w); [by apply frame_stable|done].
Qed.

Lemma process_queued_kept c w : lazy_ready c w -> kept w (process_queued_rw_requests c w).
Proof.
  intros Hl. unfold process_queued_rw_requests.
  destruct (process_queue_kept _ c w [] Hl (lr_queue _ _ Hl)) as (c1 & w1 & added & -> & He & Hl1). cbn [mbind outcome_bind].
  case_bool_decide; [by do 2 eexists|].
  destruct (submit_base_kept _ _ Hl1) as (r & base & w2 & -> & He2 & Hl2). cbn [mbind outcome_bind].
  destruct r; do 2 eexists; (split; [done|]); (split; [by etrans|]); [done|by apply ready_set_finished].
Qed.

Lemma ready_set_image c w w' i : evolves w w' -> lazy_ready c w -> ch_inv i w' -> lazy_ready (set_image c (Some i)) w'.
Proof.
  intros [Hs _] Hl Hi. apply (lazy_ready_stable _ w w' Hs) in Hl as [L1 L2 L3 L4]. split; try done. by intros ? [= <-].
Qed.

Lemma lazy_submit_kept c w : lazy_ready c w ->
  exists r c' w', lazy_submit c w = Done (r, c', w') /\ evolves w w' /\ lazy_ready c' w'.
Proof.
  intros Hl. unfold lazy_submit. destruct (lz_image c) as [i|] eqn:Ei.
  - destruct (submit_safe _ w (lr_image _ _ Hl i Ei)) as (r & j & w1 & -> & Hf%frame_evolves & Hj). cbn [mbind outcome_bind].
    pose proof (ready_set_image c w w1 j Hf Hl Hj) as Hl1.
    destruct r as [u|e]; [|by do 3 eexists].
    destruct (submit_base_kept _ _ Hl1) as (r & base & w2 & -> & He2 & Hl2). cbn [mbind outcome_bind].
    do 3 eexists. split; [done|]. split; [by etrans|done].
  - destruct (submit_base_kept _ _ Hl) as (r & base & w2 & -> & He2 & Hl2). by do 3 eexists.
Qed.

Lemma lazy_poll_kept c w : lazy_ready c w ->
  exists rs c' w', lazy_poll c w = Done (rs, c', w') /\ evolves w w' /\ lazy_ready c' w'.
Proof.
  intros Hl. unfold lazy_poll. destruct (process_queued_kept _ _ Hl) as (c1 & w1 & -> & He & Hl1). cbn [mbind outcome_bind].
  apply (ready_set_finished _ _ []) in Hl1.
  destruct (poll_safe _ w1 (lr_base _ _ Hl1)) as (rb & b & w2 & -> & Hf & Hb). cbn [mbind outcome_bind].
  apply (lazy_ready_stable _ w1 w2) in Hl1; [|by apply frame_stable]. apply frame_evolves in Hf.
  pose proof (ready_set_base _ _ b Hl1 Hb) as Hl2.
  destruct (lz_image (set_base (set_finished c1 []) b)) as [i|] eqn:Ei; [|do 3 eexists; split; [done|]; split; [by etrans|done]].
  destruct (poll_safe _ w2 (lr_image _ _ Hl2 i Ei)) as (ri & j & w3 & -> & Hf3%frame_evolves & Hj). cbn [mbind outcome_bind].
  do 3 eexists. split; [done|]. split; [etrans; [done|]; by etrans|]. by eapply ready_set_image.
Qed.

(** The lazy channel serves the requests that lie inside the device. *)
#[global] Instance lazy_serves : ChannelServes (LazyIoChannel B I).
Proof.
  refine {| cs_inv := lazy_ready; accepts w so n := in_range (w_shared w) so n |}.
  - intros c w w'. apply lazy_ready_stable.
  - intros w w' so n (_ & _ & El & _ & Es) (R1 & R2 & R3 & R4). split_and!; try done.
    unfold sector_to_stripe_id in *. by rewrite Es, El.
  - intros so n b id c w. apply lazy_add_read_kept.
  - intros so n b id c w. apply lazy_add_write_kept.
  - intros id c w Hl. apply base_kept; [done|]. apply add_flush_safe, Hl.
  - intros c w. apply lazy_submit_kept.
  - intros c w. apply lazy_poll_kept.
Defined.

Lemma lazy_new_ready (base : B) (image : option I) track w :
  ch_inv base w -> (forall i, image = Some i -> ch_inv i w) ->
  length (stripe_write_states (w_shared w)) = length (stripe_fetch_states (w_shared w)) ->
  cs_inv (lazy_new base image track) w.
Proof. intros. by split. Qed.
End lazy_serves.

(** C4: the gate.  In every run of a lazy channel, each read or write it passes
    to the base device covers only sectors whose stripe was fetched or has no
    source data at that moment; with written-stripe tracking, each write covers
    only stripes already recorded as written; and the image only ever receives
    reads, each inside a single stripe that is not fetched yet. *)
Theorem lazy_gate {B I} `{ChannelSafe B} `{ChannelSafe I} (base : B) (image : option I) track w c w' :
  world_ok w -> ch_inv base w -> (forall i, image = Some i -> ch_inv i w) ->
  rtc lazy_step (lazy_start base image track, w) (c, w') ->
  Forall (base_call_ok track) (log_calls (lz_base c)) /\
  (forall i, lz_image c = Some i -> Forall image_call_ok (log_calls i)).
Proof.
  intros Hw Hb Hi Hrun.
  destruct (lazy_steps_inv _ _ Hrun (lazy_start_inv _ _ _ _ Hw Hb Hi)) as [[_ _ _ _ Hc Hic] Ht].
  cbn in Ht, Hc, Hic. rewrite Ht in Hc. done.
Qed.

(** C7: in every reachable state, a non-empty request inside the device with a
    large enough buffer is accepted without a panic, [submit], [add_flush] and
    [poll] return, and a [poll] that finds every queued request ready leaves
    none of them waiting. *)
Theorem lazy_accepts {B I} `{ChannelSafe B} `{ChannelSafe I} (base : B) (image : option I) track w c w' :
  world_ok w -> ch_inv base w -> (forall i, image = Some i -> ch_inv i w) ->
  rtc lazy_step (lazy_start base image track, w) (c, w') ->
  (forall so n b id, in_range (w_shared w') so n -> holds w' b n ->
     (exists r, add_read so n b id c w' = Done r) /\ (exists r, add_write so n b id c w' = Done r)) /\
  (forall id, exists r, add_flush id c w' = Done r) /\
  (exists r, submit c w' = Done r) /\
  (exists rs c2 w2, poll c w' = Done (rs, c2, w2) /\
     (Forall (request_ready track (w_shared w')) (queued_rw_requests c) -> queued_rw_requests c2 = [])).
Proof.
  intros Hw Hb Hi Hrun.
  destruct (lazy_steps_inv _ _ Hrun (lazy_start_inv _ _ _ _ Hw Hb Hi)) as [Hinv Ht]. cbn in Hinv, Ht. split_and!.
  - intros so n b id Hr Hh. split.
    + destruct (lazy_add_read_good so n b id _ _ Hinv Hr Hh) as (? & ? & E & _). eauto.
    + destruct (lazy_add_write_good so n b id _ _ Hinv Hr Hh) as (? & ? & E & _). eauto.
  - intros id. destruct (lazy_add_flush_good id _ _ Hinv) as (? & ? & E & _). eauto.
  - destruct (lazy_submit_good _ _ Hinv) as (? & ? & ? & E & _). eauto.
  - destruct (lazy_poll_good _ _ Hinv) as (rs & c2 & w2 & E & _ & _ & _ & Hd). rewrite Ht in Hd. eauto 10.
Qed.

(** A run on null devices: stripe 0 is fetched, stripe 1 is not.  A write to
    both stripes waits; a read of stripe 1 goes to the image; once the worker
    has published stripe 1, [poll] lets the write through. *)
Definition ldemo_shared (st : Z) : SharedMetadataState := mkShared [Fetched; st] [NotWritten; NotWritten] 0 1 2.
Definition ldemo_world (st : Z) (rs : list BgWorkerRequest) : World :=
  mkWorld {[ 0%nat := mkBuf (replicate 1024 0) 0 ]} 1 ∅ [] (ldemo_shared st) rs true.
Definition ldemo_start : LazyIoChannel (LogChannel NullIoChannel) (LogChannel NullIoChannel) :=
  lazy_start (mkNullCh []) (Some (mkNullCh [])) false.
Definition ldemo_end : LazyIoChannel (LogChannel NullIoChannel) (LogChannel NullIoChannel) :=
  mkLazy (mkLog (mkNullCh []) [mkCall Out 0 2 (mkShared [Fetched; Fetched] [NotWritten; NotWritten] 0 2 2)])
    (Some (mkLog (mkNullCh []) [mkCall In 1 1 (ldemo_shared NotFetched)])) [] [] ∅ false.
Definition ldemo_world_end : World :=
  set_shared (ldemo_world NotFetched [Fetch 1]) (mkShared [Fetched; Fetched] [NotWritten; NotWritten] 0 2 2).

Lemma ldemo_holds rs n : 0 <= n <= 2 -> holds (ldemo_world NotFetched rs) 0 n.
Proof.
  intros. split; [by apply elem_of_dom; eexists|]. change (read_buf _ 0) with (replicate 1024 0).
  rewrite length_replicate. change SECTOR_SIZE with 512%nat. lia.
Qed.

Lemma ldemo_ok : world_ok (ldemo_world NotFetched []).
Proof. split; [|done]. split; try done; repeat constructor; by apply (bool_decide_unpack _). Qed.

Lemma ldemo_run : rtc lazy_step (ldemo_start, ldemo_world NotFetched []) (ldemo_end, ldemo_world_end).
Proof.
  eapply rtc_l; [apply (ls_write 0 2 0 7)|].
  { by split_and!; [..|apply (bool_decide_unpack _); vm_compute]. }
  { by apply ldemo_holds. }
  { vm_compute. reflexivity. }
  eapply rtc_l; [apply (ls_read 1 1 0 8)|].
  { by split_and!; [..|apply (bool_decide_unpack _); vm_compute]. }
  { apply (ldemo_holds [Fetch 1]). done. }
  { vm_compute. reflexivity. }
  eapply rtc_l; [apply (ls_world _ _ ldemo_world_end)|].
  { change (stable (ldemo_world NotFetched [Fetch 1]) ldemo_world_end). by apply set_shared_stable. }
  { split; try done; repeat constructor; by apply (bool_decide_unpack _). }
  eapply rtc_l; [eapply ls_poll; vm_compute; reflexivity|].
  vm_compute. apply rtc_refl.
Qed.

Lemma lazy_gate_witness :
  log_calls (lz_base ldemo_end) <> [] /\
  Forall (base_call_ok false) (log_calls (lz_base ldemo_end)) /\
  (forall i, lz_image ldemo_end = Some i -> Forall image_call_ok (log_calls i)).
Proof.
  split; [done|]. apply (lazy_gate (mkNullCh []) (Some (mkNullCh [])) false (ldemo_world NotFetched []) _ ldemo_world_end).
  - exact ldemo_ok.
  - exact I.
  - intros. exact I.
  - exact ldemo_run.
Defined.

Lemma lazy_accepts_witness :
  let c := ldemo_end in let w' := ldemo_world_end in
  (forall so n b id, in_range (w_shared w') so n -> holds w' b n ->
     (exists r, add_read so n b id c w' = Done r) /\ (exists r, add_write so n b id c w' = Done r)) /\
  (forall id, exists r, add_flush id c w' = Done r) /\
  (exists r, submit c w' = Done r) /\
  (exists rs c2 w2, poll c w' = Done (rs, c2, w2) /\
     (Forall (request_ready false (w_shared w')) (queued_rw_requests c) -> queued_rw_requests c2 = [])).
Proof.
  apply (lazy_accepts (mkNullCh []) (Some (mkNullCh [])) false (ldemo_world NotFetched []) _ ldemo_world_end).
  - exact ldemo_ok.
  - exact I.
  - intros. exact I.
  - exact ldemo_run.
Defined.

(** ** Exactly-once, over whole runs *)

(** C6: no request is lost, and exactly once when the base accepts every
    [submit].  Over any run of a channel of the lazy device, over a base and an
    image that report each request once, the ids the channel has reported and
    still holds (waiting in its queue, failed and not yet polled, or inside the
    base or image channel) are, counted with multiplicity, the ids handed to it
    and [dup].  [dup] holds only ids of requests that waited in the queue, each
    at most once and none that still waits: those of a batch whose submission
    the base refused, which are reported as failed although the base may keep
    and report them too (see [lazy_answers_twice] in Uring).  If the base's
    [submit] never fails ([ChannelReliable]) [dup] is empty, and when the
    channel then holds nothing every request was answered exactly once. *)
Theorem lazy_exactly_once {D E B I} `{DeviceContract D B} `{DeviceContract E I}
    (d : LazyBlockDevice D E) w0 w c reqs reps c' w' :
  create_channel d w0 = Ok c ->
  channel_run reqs reps c w c' w' ->
  exists dup,
    reqs ++ dup ≡ₚ reps.*1 ++ (lz_finished c').*1 ++ map rw_id (queued_rw_requests c')
            ++ outstanding (lz_base c') ++ image_out c' /\
    dup ++ map rw_id (queued_rw_requests c') ⊆+ reqs /\
    (ChannelReliable B -> dup = []) /\
    (ChannelReliable B -> lz_finished c' = [] -> busy c' = false -> outstanding (lz_base c') = [] -> image_out c' = [] ->
     reqs ≡ₚ reps.*1).
Proof.
  intros Ec Hrun.
  assert (lazy_outstanding c = []) as Hc.
  { cbn in Ec. destruct (create_channel (ld_base d) w0) as [base|] eqn:Eb; [|done].
    apply create_channel_out in Eb. destruct (ld_image d) as [im|].
    - destruct (create_channel im w0) as [i|] eqn:Ei; [|done]. apply create_channel_out in Ei. simplify_eq.
      unfold lazy_outstanding, image_out; cbn. by rewrite Eb, Ei.
    - simplify_eq. unfold lazy_outstanding, image_out; cbn. by rewrite Eb. }
  destruct (lazy_run_out _ _ _ _ _ _ Hrun Hc) as (dup & Hp & Hq & Hd). exists dup. split_and!; [exact Hp|exact Hq|exact Hd|].
  intros Hrel Hf Hb Ho Him. rewrite (Hd Hrel), app_nil_r in Hp. rewrite Hp. unfold lazy_outstanding. rewrite Hf, Ho, Him.
  cbn in Hb. unfold lazy_busy in Hb. apply orb_false_iff in Hb as [_ Hb].
  apply negb_false_iff, bool_decide_eq_true_1 in Hb. rewrite Hb. cbn. by rewrite app_nil_r.
Qed.

(** A request whose first sector lies past the stripe table is not
    answered with an error: looking up its stripe indexes the table out of
    bounds, and the call panics. *)
Lemma lazy_out_of_range_panics {B I} `{IoChannel B} `{IoChannel I} (c : LazyIoChannel B I) w so n b id :
  0 <= shared_shift (w_shared w) -> 0 <= so -> 1 <= n -> so + n <= 2 ^ 64 ->
  (length (stripe_fetch_states (w_shared w)) <= sector_to_stripe_id (w_shared w) so)%nat ->
  add_read so n b id c w = Panic IndexOutOfBounds /\ add_write so n b id c w = Panic IndexOutOfBounds.
Proof.
  intros Hsh Hlo Hn Hhi Hlen.
  assert (forall kind, request_stripes_fetch_status (make_request id kind so n b w) w = Panic IndexOutOfBounds) as E.
  { intros kind. unfold request_stripes_fetch_status, make_request, stripes_of, range_incl; cbn [stripe_id_first stripe_id_last].
    pose proof (sector_to_stripe_id_mono (w_shared w) so (so + n - 1) Hsh ltac:(lia)) as Hm.
    unfold wrap64. rewrite Z.mod_small by lia.
    destruct (S _ - _)%nat as [|k] eqn:Ek; [lia|]. cbn [seq fetch_status].
    unfold stripe_fetch_state, index. by rewrite lookup_ge_None_2. }
  change (lazy_add_read so n b id c w = Panic IndexOutOfBounds /\
    lazy_add_write so n b id c w = Panic IndexOutOfBounds).
  unfold lazy_add_read, lazy_add_write. by rewrite !E.
Qed.

Lemma lazy_out_of_range_panics_witness :
  add_read 2 1 0 5 ldemo_start (ldemo_world NotFetched []) = Panic IndexOutOfBounds /\
  add_write 2 1 0 5 ldemo_start (ldemo_world NotFetched []) = Panic IndexOutOfBounds.
Proof. apply lazy_out_of_range_panics; vm_compute; repeat constructor; try done; discriminate. Defined.

(** A queued write and a read that is answered by the image. *)
Lemma lazy_exactly_once_witness :
  let reqs := [7; 8]%nat in let reps := [(8, true)]%nat in
  exists c' : LazyIoChannel NullIoChannel NullIoChannel, reqs ≡ₚ reps.*1 ++ (lz_finished c').*1 ++ map rw_id (queued_rw_requests c')
            ++ outstanding (lz_base c') ++ image_out c' /\ map rw_id (queued_rw_requests c') = [7%nat].
Proof.
  cbn zeta. set (c0 := lazy_new (mkNullCh []) (Some (mkNullCh [])) false).
  assert (exists c' w', channel_run [7; 8]%nat [(8, true)]%nat c0 (ldemo_world NotFetched []) c' w' /\
    map rw_id (queued_rw_requests c') = [7%nat]) as (c' & w' & Hrun & Hq).
  { do 2 eexists. split.
    - eapply (run_poll _ []).
      + eapply (run_read [7%nat] [] _ _ _ _ 1 1 0 8).
        * eapply (run_write [] [] _ _ _ _ 0 2 0 7); [apply run_start|]. vm_compute. reflexivity.
        * vm_compute. reflexivity.
      + vm_compute. reflexivity.
    - reflexivity. }
  exists c'. split; [|exact Hq].
  destruct (lazy_exactly_once (B := NullIoChannel) (I := NullIoChannel) (mkLazyDev null_new (Some null_new) false)
      (ldemo_world NotFetched []) (ldemo_world NotFetched []) c0 [7; 8]%nat [(8, true)]%nat c' w') as (dup & Hp & _ & Hd & _); [reflexivity|exact Hrun|].
  rewrite (Hd _), app_nil_r in Hp. exact Hp.
Defined.
