(* ===== verification/Publishing.v ===== *)
(** * Publishing: what a published stripe holds

    Puts [Copying] under the background worker of [BgWorker]: source, target
    and metadata on three different files, any of whose operations may fail.
    The flusher only touches its own buffers and the metadata file
    ([flusher_update_local]), so it does not disturb what the fetcher has copied;
    the requests that pass the gate of [LazyDevice] do not either
    ([gated_write_environment]).  The closing theorem says that a stripe's bytes
    are on stable storage of the target when the worker publishes the stripe as
    fetched. *)
From S2P Require Import Prelude Metadata SharedState World Device Flusher StripeSource Fetcher BgWorker LazyDevice Copying.

(** ** What the flusher leaves alone *)

Definition untouched (bs : list nat) (file : nat) (w w' : World) : Prop :=
  (forall b, b ∉ bs -> read_buf w' b = read_buf w b) /\ forall d, d <> file -> disk_at w' d = disk_at w d.

Section local.
Context (crc32 : list Z -> Z) (bs : list nat) (file : nat) (w0 : World).
Notation flusher := (MetadataFlusher SyncIoChannel).

(** The flusher uses the buffers [bs] and [file], and nothing else changed
    since [w0]. *)
Definition local (s : flusher * World) : Prop :=
  pool_buffers (mf_pool s.1) = bs /\ sync_file (mf_channel s.1) = file /\ untouched bs file w0 s.2.

Lemma get_buffer_buffers p mb p' : get_buffer p = Done (mb, p') ->
  pool_buffers p' = pool_buffers p /\ forall b, mb = Some b -> b ∈ pool_buffers p.
Proof.
  unfold get_buffer. intros E. destruct (available_buffers p) as [|i rest]; [by injection E as <- <-|].
  apply bind_done in E as (iu & _ & E). apply bind_done in E as (b & Hb%index_inv & E). injection E as <- <-.
  split; [done|]. intros b' [= ->]. apply list_elem_of_lookup; eauto.
Qed.

Lemma untouched_files w w' : untouched bs file w0 w -> (forall b, read_buf w' b = read_buf w b) ->
  (forall d, d <> file -> disk_at w' d = disk_at w d) -> untouched bs file w0 w'.
Proof. intros [U1 U2] Hb Hd. split; intros x Hx; [rewrite Hb; auto|rewrite Hd; auto]. Qed.

Lemma cleanup_one_local g id s s' : local s -> cleanup_one g id s = Done s' -> local s'.
Proof.
  destruct s as [f w]. intros (L1 & L2 & L3) E. cbn [fst snd] in L1, L2, L3. unfold cleanup_one in E.
  destruct (header_updates f !! id) as [st|]; [|by injection E as <-].
  apply bind_done in E as (m & _ & E). apply bind_done in E as (pool & Ep & E). injection E as <-.
  split_and!; try done. destruct g; [|by injection Ep as <-]. rewrite <- L1. by eapply return_buffer_buffers.
Qed.

Lemma finish_one_local e s s' : local s -> finish_one e s = Done s' -> local s'.
Proof.
  destruct s as [f w], e as [id h]. intros (L1 & L2 & L3) E. cbn [fst snd] in L1, L2, L3. unfold finish_one in E.
  apply bind_done in E as (sh & _ & E). injection E as <-. by split_and!.
Qed.

Lemma on_completion_local e f w fin newly f' w' fin' newly' :
  local (f, w) -> on_completion e (f, w, fin, newly) = Done (f', w', fin', newly') -> local (f', w').
Proof.
  destruct e as [id ok]. intros (L1 & L2 & L3) E. cbn [fst snd] in L1, L2, L3. unfold on_completion in E.
  destruct (header_updates f !! id) as [st|]; [|by injection E as <- <- <- <-].
  destruct ok; cbn [negb] in E.
  - destruct (hu_stage st).
    + apply bind_done in E as (pool & Ep & E). apply bind_done in E as ([c1 w1] & Ef & E). injection E as <- <- <- <-.
      destruct (sync_flush_effect _ _ _ _ _ Ef) as (_ & Hb & Hd & _ & ok & -> & _). rewrite L2 in Hd.
      split_and!; cbn [mf_pool mf_channel sync_finish sync_file]; try done.
      * rewrite <- L1. by eapply return_buffer_buffers.
      * by apply (untouched_files w).
    + injection E as <- <- <- <-. by split_and!.
  - apply bind_done in E as (m & _ & E). apply bind_done in E as (pool & Ep & E). injection E as <- <- <- <-.
    split_and!; try done. case_decide; [|by injection Ep as <-]. rewrite <- L1. by eapply return_buffer_buffers.
Qed.

Lemma start_one_local req rest f w s' : local (f, w) -> start_one crc32 req rest f w = Done s' -> local s'.
Proof.
  intros (L1 & L2 & L3) E. cbn [fst snd] in L1, L2, L3. unfold start_one in E.
  apply bind_done in E as (h & _ & E). apply bind_done in E as ([mb pool] & Eg & E).
  destruct (get_buffer_buffers _ _ _ Eg) as [Hp Hb]. destruct mb as [b|]; [|done].
  apply bind_done in E as (hs & _ & E). apply bind_done in E as (hd & _ & E). apply bind_done in E as (data & _ & E).
  apply bind_done in E as ([c1 w1] & Ew & E). injection E as <-.
  destruct (sync_write_effect _ _ _ _ _ _ _ _ Ew) as (_ & Hbuf & Hd & _ & ok & -> & _). rewrite L2 in Hd.
  split_and!; cbn [fst snd mf_pool mf_channel sync_finish sync_file]; [congruence|done|].
  destruct L3 as [U1 U2]. split.
  - intros b' Hb'. rewrite Hbuf, read_write_buf_ne; [auto|]. intros <-. apply Hb'. rewrite <- L1. auto.
  - intros d Hne. rewrite Hd by done. exact (U2 d Hne).
Qed.

Lemma start_writes_loop_local fuel f w newly f' w' newly' :
  local (f, w) -> start_writes_loop crc32 fuel f w newly = Done (f', w', newly') -> local (f', w').
Proof.
  revert f w newly. induction fuel as [|fuel IH]; intros f w newly L E; cbn [start_writes_loop] in E;
    (destruct (negb _); [by injection E as <- <- <-|]);
    (destruct (queued_requests f) as [|req rest]; [by injection E as <- <- <-|]); [done|].
  destruct (bool_decide _); [by injection E as <- <- <-|]. apply bind_done in E as (h & _ & E).
  destruct (has_flag _ _); [by eapply IH; [|exact E]|]. apply bind_done in E as ([f1 w1] & E1 & E).
  eapply IH; [|exact E]. by eapply start_one_local.
Qed.

Lemma submit_local ch r f w w' : local (f, w) -> submit (mf_channel f) w = Done (r, ch, w') -> local (with_channel ch f, w').
Proof. intros (L1 & L2 & L3) E. cbn in E. injection E as <- <- <-. by split_and!. Qed.

Lemma cleanup_local ids g f w s' : local (f, w) -> cleanup_failed_submission ids g f w = Done s' -> local s'.
Proof. intros L. apply for_each_inv; [|done]. intros id s1 s2 _. apply cleanup_one_local. Qed.

Lemma start_writes_local f w s' : local (f, w) -> start_writes crc32 f w = Done s' -> local s'.
Proof.
  intros L E. unfold start_writes in E. apply bind_done in E as ([[f1 w1] newly] & E1 & E).
  pose proof (start_writes_loop_local _ _ _ _ _ _ _ L E1) as L1. destruct (bool_decide _); [by injection E as <-|].
  apply bind_done in E as ([[r ch] w2] & E2 & E). pose proof (submit_local _ _ _ _ _ L1 E2) as L2.
  destruct r; [by injection E as <-|by eapply cleanup_local].
Qed.

Lemma poll_channel_local f w s' : local (f, w) -> poll_channel f w = Done s' -> local s'.
Proof.
  intros (L1 & L2 & L3) E. unfold poll_channel in E. apply bind_done in E as ([[rs ch] w1] & E1 & E).
  cbn in E1. injection E1 as <- <- <-. apply bind_done in E as ([[[f2 w2] fin] newly] & E2 & E).
  assert (local (f2, w2)) as L.
  { refine (for_each_inv (fun '(f, w, _, _) => local (f, w)) _ _ _ _ _ _ E2); [|by split_and!].
    intros e [[[fa wa] ?] ?] [[[fb wb] ?] ?] _. apply on_completion_local. }
  apply bind_done in E as ([f3 w3] & E3 & E).
  assert (local (f3, w3)) as L'.
  { refine (for_each_inv local _ _ _ _ _ L E3). intros e s1 s2 _. apply finish_one_local. }
  destruct (bool_decide _); [by injection E as <-|].
  apply bind_done in E as ([[r ch] w4] & E4 & E). pose proof (submit_local _ _ _ _ _ L' E4) as L4.
  destruct r; [by injection E as <-|by eapply cleanup_local].
Qed.
End local.

(** An update of the flusher touches only its own buffers and its file. *)
Lemma flusher_update_local crc32 (f f' : MetadataFlusher SyncIoChannel) w w' :
  flusher_update crc32 f w = Done (f', w') ->
  pool_buffers (mf_pool f') = pool_buffers (mf_pool f) /\ sync_file (mf_channel f') = sync_file (mf_channel f) /\
  untouched (pool_buffers (mf_pool f)) (sync_file (mf_channel f)) w w'.
Proof.
  intros E. unfold flusher_update in E. apply bind_done in E as ([f1 w1] & E1 & E).
  change (local (pool_buffers (mf_pool f)) (sync_file (mf_channel f)) w (f', w')).
  eapply poll_channel_local; [|exact E]. eapply start_writes_local; [|exact E1]. by split_and!.
Qed.

(** ** The worker *)

Section publishing.
#[local] Set Default Proof Using "Type*".
Context (crc32 : list Z -> Z) {S : Type} `{SourceSafe S} `{!SourceContract S}.
Context (sfile tfile mfile : nat) (ssc m : Z) (stripes : nat) (content : nat -> list Z) (bufs : list nat).
Context `{!SourceDelivers S sfile content}.
Notation worker := (BgWorker S SyncIoChannel SyncIoChannel).
Notation copies := (copy_inv sfile tfile ssc m stripes content bufs).
Notation on_target := (stored tfile ssc content).
Implicit Types (b : worker) (w : World).

Record publish_inv b w : Prop := {
  pi_copy : copies [] [] (bw_fetcher b) w;
  pi_file : sync_file (mf_channel (bw_flusher b)) = mfile;
  pi_pools : forall x, x ∈ pool_buffers (mf_pool (bw_flusher b)) -> x ∉ bufs;
}.

Context (P : copy_params (S := S) sfile tfile ssc m stripes content) (Hms : mfile <> sfile) (Hmt : mfile <> tfile).

Lemma process_request_publishes req b w b' :
  publish_inv b w -> process_request req b w = Done b' -> publish_inv b' w.
Proof.
  intros [Pc Pf Pp] E. destruct req as [id|id|]; cbn [process_request] in E; [|by injection E as <-..].
  apply bind_done in E as (f & E1 & E). injection E as <-. split; try done. exact (handle_fetch_request_copies _ _ _ _ _ _ _ P _ _ _ _ Pc E1).
Qed.

Lemma drain_publishes senders reqs b w b' :
  publish_inv b w -> drain senders reqs b w = Done b' -> publish_inv b' w.
Proof.
  revert b. induction reqs as [|req reqs IH]; intros b I E; cbn [drain] in E.
  - injection E as <-. destruct senders; [done|]. by destruct I.
  - apply bind_done in E as (b1 & E1 & E). eapply IH; [|exact E]. by eapply process_request_publishes.
Qed.

Lemma set_requests_publishes b w reqs : publish_inv b w -> publish_inv b (set_requests w reqs).
Proof.
  intros [[C1 C2 C3 C4 C5 C6 C7] Pf Pp]. split; [|done..]. constructor; try done.
  by eapply sd_keep; [exact C1|..].
Qed.

Lemma receive_requests_publishes block senders b w b' w' :
  publish_inv b w -> receive_requests block senders b w = Done (Some (b', w')) ->
  publish_inv b' w' /\ w_shared w' = w_shared w.
Proof.
  intros I E. unfold receive_requests in E. destruct block.
  - destruct (w_requests w) as [|req reqs].
    + destruct senders; [done|]. injection E as <- <-. split; [by destruct I|done].
    + apply bind_done in E as (b1 & E1 & E). apply bind_done in E as (b2 & E2 & E). injection E as <- <-. split; [|done].
      apply set_requests_publishes. eapply drain_publishes; [|exact E2]. by eapply process_request_publishes.
  - apply bind_done in E as (b2 & E2 & E). injection E as <- <-. split; [|done].
    apply set_requests_publishes. by eapply drain_publishes.
Qed.

(** The flusher is a good environment for the copies. *)
Lemma flusher_copy_environment (fl fl' : MetadataFlusher SyncIoChannel) w w' :
  flusher_update crc32 fl w = Done (fl', w') -> flusher_effect [] fl w [] fl' w' ->
  sync_file (mf_channel fl) = mfile -> (forall x, x ∈ pool_buffers (mf_pool fl) -> x ∉ bufs) ->
  copy_environment sfile tfile ssc bufs w w' /\ disk_at w' tfile = disk_at w tfile.
Proof.
  intros E [Fs _ (_ & _ & Hl & _) _ _] Hf Hp. destruct (flusher_update_local _ _ _ _ _ E) as (_ & _ & Hb & Hd).
  rewrite Hf in Hd. split; [|by apply Hd]. constructor; [done|by rewrite Hd| | |].
  - intros x Hx. apply Hb. intros Hin. by apply (Hp x Hin).
  - intros id (st & Hst & Hn1 & Hn2). destruct (Fs id st Hst) as [?|[? _]]; [by exists st|done].
  - intros id _. unfold target_kept. rewrite Hd by done. auto.
Qed.

Lemma report_fetched_local finished (fl fl' : MetadataFlusher SyncIoChannel) :
  for_each report_fetched finished fl = Done fl' -> mf_channel fl' = mf_channel fl /\ mf_pool fl' = mf_pool fl.
Proof.
  intros E. refine (for_each_inv (fun x => mf_channel x = mf_channel fl /\ mf_pool x = mf_pool fl) _ _ _ _ _ _ E); [|done].
  intros [id ok] x y _ [<- <-] E1. cbn in E1. injection E1 as <-. by destruct ok.
Qed.

Lemma worker_update_publishes orig b w b' w' :
  worker_inv orig b w -> publish_inv b w -> worker_update crc32 b w = Done (b', w') ->
  publish_inv b' w' /\
  forall id, missing w id -> stripe_fetch_states (w_shared w') !! id = Some Fetched -> on_target w' id.
Proof.
  intros I [Pc Pf Pp] E. destruct (worker_update_calls crc32 orig b w I) as (f & w1 & fl & fl' & w2 & U).
  rewrite (update_calls_result _ _ _ _ _ _ _ _ U) in E. injection E as <- <-. destruct U as [U1 U2 U3 U4 [U5 _ _] _ _ U8 U9].
  pose proof (fetcher_update_copies _ _ _ _ _ _ _ P _ _ _ _ (wi_fetcher _ _ _ I) Pc U1) as C1.
  destruct (report_fetched_local _ _ _ U2) as [Ech Epool].
  destruct (flusher_copy_environment fl fl' w1 w2 U3 U8) as [He Hd]; [by rewrite Ech|by rewrite Epool|].
  destruct (flusher_update_local _ _ _ _ _ U3) as (Epool' & Ech' & _).
  pose proof (copy_environment_inv _ _ _ _ _ _ _ P _ _ _ He (take_finished_inv _ _ U4) (take_finished_copies _ _ _ _ _ _ _ P _ _ C1)) as C2.
  split; [split; cbn [bw_fetcher bw_flusher]|].
  - by apply disconnect_copies.
  - by rewrite Ech', Ech.
  - by rewrite Epool', Epool.
  - intros id Hm Hp. pose proof (missing_only_fails _ _ _ U5 Hm) as Hm1.
    assert (stripe_fetch_states (w_shared w1) !! id <> Some Fetched) as Hn
      by (destruct Hm1 as (st & Hst & ? & _); congruence).
    destruct (fe_states _ _ _ _ _ _ U8 id Fetched Hp) as [?|[_ Hs]]; [done|].
    destruct (U9 id Hs) as [Hst|?]; [|done]. eapply stored_disk; [exact Hd|]. by apply (c_done _ _ _ _ _ _ _ _ _ _ _ C1).
Qed.

Lemma run_iteration_publishes orig senders b w b' w' :
  worker_inv orig b w -> publish_inv b w -> run_iteration crc32 senders b w = Done (Some (b', w')) ->
  publish_inv b' w' /\
  forall id, missing w id -> stripe_fetch_states (w_shared w') !! id = Some Fetched -> on_target w' id.
Proof.
  intros I C E. unfold run_iteration in E. set (blk := negb _) in E. destruct (bw_done b).
  { injection E as <- <-. split; [done|]. intros id (st & Hst & ? & _) Hp. congruence. }
  apply bind_done in E as ([[b1 w1]|] & E1 & E); [|done]. apply bind_done in E as (s & E2 & E). injection E as ->.
  destruct (receive_requests_publishes _ _ _ _ _ _ C E1) as [C1 Hs].
  destruct (receive_requests_inv orig blk senders b w I) as [(E3 & _)|(b3 & w3 & E3 & I3)];
    rewrite E1 in E3; [done|injection E3 as <- <-].
  destruct (worker_update_publishes orig b1 w1 b' w' I3 C1 E2) as [C2 Hp]. split; [done|].
  intros id Hm. apply Hp. by rewrite (missing_shared w w1).
Qed.

(** The worker, the threads that send it requests, and I/O of other threads
    that keeps off the missing stripes of the target. *)
Inductive publish_step : worker * World -> worker * World -> Prop :=
| pstep_iteration senders b w b' w' :
    run_iteration crc32 senders b w = Done (Some (b', w')) -> publish_step (b, w) (b', w')
| pstep_send b w r : request_ok w r -> publish_step (b, w) (b, set_requests w (w_requests w ++ [r]))
| pstep_io b w w' : frame w w' -> copy_environment sfile tfile ssc bufs w w' -> publish_step (b, w) (b, w').

Lemma publish_steps_inv orig s s' : rtc publish_step s s' ->
  worker_inv orig s.1 s.2 -> publish_inv s.1 s.2 -> worker_inv orig s'.1 s'.2 /\ publish_inv s'.1 s'.2.
Proof.
  induction 1 as [|x y z Hxy _ IH]; [done|]. intros I C. apply IH; destruct Hxy as [senders b w b' w' E|b w r Hr|b w w' Hf He]; cbn [fst snd] in *.
  - destruct (run_iteration_inv crc32 orig senders b w I) as [(E1 & _)|(b1 & w1 & E1 & I1)]; rewrite E in E1; by simplify_eq.
  - by apply send_inv.
  - by eapply io_inv.
  - by eapply run_iteration_publishes.
  - by apply set_requests_publishes.
  - destruct C as [Pc Pf Pp]. split; try done. exact (copy_environment_inv _ _ _ _ _ _ _ P _ _ _ He (wi_fetcher _ _ _ I) Pc).
Qed.
End publishing.

(** ** What the lazy device does to the target

    The writes and flushes a lazy channel passes to its base ([base_call_ok]) are
    I/O that [publish_step] allows. *)

(** A stripe that is not available has no sector in an allowed request. *)
Lemma missing_apart w so n id (ssc := shared_stripe_sector_count (w_shared w)) :
  0 <= shared_shift (w_shared w) -> 0 <= so -> 0 <= n ->
  sectors_satisfy available (stripe_fetch_states (w_shared w)) (w_shared w) so n -> missing w id ->
  n = 0 \/ so + n <= Z.of_nat id * ssc \/ (Z.of_nat id + 1) * ssc <= so.
Proof.
  intros Hsh Hso Hn Hall (st & Hst & Hn1 & Hn2).
  assert (ssc = 2 ^ shared_shift (w_shared w)) as Essc by (unfold ssc, shared_stripe_sector_count; by rewrite Z.shiftl_1_l).
  assert (0 < ssc) as Hpos by (rewrite Essc; apply Z.pow_pos_nonneg; lia).
  destruct (Z.le_gt_cases n 0) as [?|Hnpos]; [lia|]. destruct (Z.le_gt_cases (so + n) (Z.of_nat id * ssc)) as [?|H1]; [auto|].
  destruct (Z.le_gt_cases ((Z.of_nat id + 1) * ssc) so) as [?|H2]; [auto|]. exfalso.
  destruct (Hall (so `max` (Z.of_nat id * ssc))) as (st' & Hst' & Hav); [lia|].
  assert (sector_to_stripe_id (w_shared w) (so `max` (Z.of_nat id * ssc)) = id) as Hid.
  { unfold sector_to_stripe_id. rewrite Z.shiftr_div_pow2, <- Essc by done.
    rewrite <- (Z.div_unique (so `max` (Z.of_nat id * ssc)) ssc (Z.of_nat id) (so `max` (Z.of_nat id * ssc) - Z.of_nat id * ssc)); lia. }
  rewrite Hid, Hst in Hst'. injection Hst' as <-. destruct Hav; congruence.
Qed.

Lemma gated_write_environment sfile bufs so n b id c w c' w' (ssc := shared_stripe_sector_count (w_shared w)) :
  sync_add_write so n b id c w = Done (c', w') -> sync_file c <> sfile ->
  0 <= shared_shift (w_shared w) -> 0 <= so -> 0 <= n ->
  (so + n) * Z.of_nat SECTOR_SIZE <= Z.of_nat (length (disk_data (disk_at w (sync_file c)))) < 2 ^ 64 ->
  sectors_satisfy available (stripe_fetch_states (w_shared w)) (w_shared w) so n ->
  frame w w' /\ copy_environment sfile (sync_file c) ssc bufs w w'.
Proof.
  intros E Hf Hsh Hso Hn Hlen Hall.
  destruct (sync_write_effect _ _ _ _ _ _ _ _ E) as (Hfr & Hbuf & Hd & Hsy & ok & -> & Hdata). split; [done|].
  pose proof Hfr as (_ & _ & _ & Es & _). constructor; rewrite ?Es; try done; [by rewrite Hd|intros j; by rewrite (missing_shared w w')|].
  intros j Hm. unfold target_kept. rewrite Hsy. split; [|auto]. cbn zeta in Hdata.
  destruct Hdata as [[_ ->]|(k & -> & _)]; [done|]. set (bytes := take k _).
  assert (length bytes <= Z.to_nat n * SECTOR_SIZE)%nat as Hb by (unfold bytes; rewrite !length_take; lia).
  rewrite byte_offset_small by lia. set (data := disk_data _) in *.
  destruct (missing_apart w so n j Hsh Hso Hn Hall Hm) as [->|Hap].
  { cbn in Hb. destruct bytes; [|cbn in Hb; lia]. by rewrite file_write_nil by lia. }
  rewrite file_write_splice by lia. apply take_drop_splice_ne; [lia|].
  fold ssc in Hap. assert (0 <= ssc) as H0 by (unfold ssc, shared_stripe_sector_count; apply Z.shiftl_nonneg; lia).
  unfold stripe_start, stripe_bytes. destruct Hap as [Hap|Hap].
  - right. assert (Z.to_nat so + Z.to_nat n <= j * Z.to_nat ssc)%nat by nia. nia.
  - left. assert ((j + 1) * Z.to_nat ssc <= Z.to_nat so)%nat by nia. nia.
Qed.

Lemma base_flush_environment sfile bufs ssc id c w c' w' :
  sync_add_flush id c w = Done (c', w') -> frame w w' /\ copy_environment sfile (sync_file c) ssc bufs w w'.
Proof.
  intros E. destruct (sync_flush_effect _ _ _ _ _ E) as (Hfr & Hbuf & _ & Hd & ok & -> & Hsy). split; [done|].
  pose proof Hfr as (_ & _ & _ & Es & _). constructor; rewrite ?Es; try done; [intros j; by rewrite (missing_shared w w')|].
  intros j _. unfold target_kept. rewrite Hsy, Hd. destruct ok; auto.
Qed.

(** ** Opening the worker *)

Lemma new_pool_fresh alignment count size w p w' :
  new_pool alignment count size w = Done (p, w') -> fresh_world w ->
  forall b, b ∈ pool_buffers p -> b ∉ dom (w_bufs w).
Proof.
  unfold new_pool. intros E Hfr. destruct (_ && _); [done|].
  destruct (alloc_pool _ _ _) as [bs w1] eqn:Ea. injection E as <- <-.
  destruct (alloc_pool_spec _ _ _ _ _ _ Ea Hfr) as (_ & _ & -> & _). cbn.
  intros b [Hb _]%elem_of_seq Hd%Hfr. lia.
Qed.

Lemma sync_wait_world rounds id (c : SyncIoChannel) w r c' w' :
  wait_for_completion rounds id c w = Done (r, c', w') -> w' = w.
Proof.
  revert c. induction rounds as [|rounds IH]; intros c E; cbn in E; [by injection E as <- <- <-|].
  destruct (scan_completions _ _) as [[]|]; [by injection E as <- <- <-..|]. by eapply IH.
Qed.

(** Reading the metadata changes no file. *)
Lemma sync_load_disks crc32 rounds (e : SyncBlockDevice) w r w' :
  load_from_bdev crc32 rounds e w = Done (r, w') -> w_disks w' = w_disks w.
Proof.
  unfold load_from_bdev. intros E. destruct (create_channel e w) as [ch|]; [|by injection E as <- <-].
  destruct (shared_buffer _ w) as [b w1] eqn:Es. assert (w_disks w1 = w_disks w) as Hd1 by (unfold shared_buffer, alloc_buf in Es; by simplify_eq/=).
  destruct (_ <? _); [by injection E as <- <-|]. apply bind_done in E as ([c1 w2] & E1 & E).
  destruct (sync_read_delivers _ _ _ _ _ _ _ _ E1) as ([Hd2 _] & _).
  cbn [submit sync_channel mbind outcome_bind] in E. apply bind_done in E as ([[r2 c2] w3] & E2 & E).
  apply sync_wait_world in E2 as ->. destruct r2; [|injection E as <- <-; congruence].
  apply bind_done in E as (r3 & _ & E). injection E as <- <-. congruence.
Qed.

Lemma flusher_opens_file crc32 rounds (e : SyncBlockDevice) n w fl w' :
  fresh_world w -> flusher_new crc32 rounds e n w = Done (Ok fl, w') ->
  w_disks w' = w_disks w /\ sync_file (mf_channel fl) = sync_path e.
Proof.
  intros Hfr E. unfold flusher_new in E. destruct (create_channel e w) as [ch|] eqn:Ec; [|done].
  assert (sync_file ch = sync_path e) as Hch by (clear E; cbn in Ec; case_match; by simplify_eq).
  apply bind_done in E as ([r w1] & E1 & E). destruct r as [m|]; [|done]. destruct (_ <? _); [done|].
  pose proof (load_frame _ _ _ _ _ _ Hfr E1) as (_ & _ & Hfr1 & _).
  destruct (new_pool_spec 4096 MAX_CONCURRENT_CHANGES SECTOR_SIZE w1 eq_refl (Hfr1 Hfr))
    as (p & w2 & Ep & _ & _ & _ & _ & _ & Hd & _). rewrite Ep in E. injection E as <- <-.
  split; [|done]. rewrite Hd. by eapply sync_load_disks.
Qed.

(** The parts of a worker that opened. *)
Lemma worker_new_parts crc32 {S C M D E} `{StripeSource S} `{BlockDevice D C} `{BlockDevice E M} `{IoChannel C} `{IoChannel M}
    rounds (src : S) (d : D) (e : E) alignment autofetch w b w' :
  worker_new crc32 rounds src d e alignment autofetch w = Done (Ok b, w') ->
  exists w1, flusher_new crc32 rounds e (ss_sector_count src) w = Done (Ok (bw_flusher b), w1) /\
    fetcher_new src d (shared_stripe_sector_count (w_shared w1)) alignment autofetch w1 = Done (Ok (bw_fetcher b), w').
Proof.
  unfold worker_new. intros Hn. apply bind_done in Hn as ([[fl|] w1] & E1 & Hn); [|done].
  apply bind_done in Hn as ([[f|] w2] & E2 & Hn); [|done]. injection Hn as <- <-. eauto.
Qed.

Lemma fetcher_new_pool_fresh {S C D} `{StripeSource S} `{BlockDevice D C} `{IoChannel C} (src : S) (d : D) ssc alignment autofetch w f w' :
  fetcher_new src d ssc alignment autofetch w = Done (Ok f, w') -> fresh_world w ->
  forall b, b ∈ pool_buffers (sf_pool f) -> b ∉ dom (w_bufs w).
Proof.
  unfold fetcher_new. intros E. destruct (create_channel d w); [|done]. destruct (checked_mul64 _ _); [|done].
  apply bind_done in E as ([p w1] & Ep & E). destruct (_ <? _); [done|]. injection E as <- <-. by eapply new_pool_fresh.
Qed.

Lemma worker_new_publishes crc32 {S} `{SourceSafe S} `{!SourceContract S} sfile content `{!SourceDelivers S sfile content}
    rounds (src : S) (d e : SyncBlockDevice) alignment autofetch w b w' (meta := mf_metadata (bw_flusher b)) :
  fresh_world w -> is_power_of_two alignment = true ->
  worker_new crc32 rounds src d e alignment autofetch w = Done (Ok b, w') ->
  metadata_wf meta -> Forall header_ok (stripe_headers meta) -> w_shared w = new_shared meta ->
  ss_outstanding src = [] -> sd_inv ∅ src w ->
  copy_params (S := S) sfile (sync_path d) (stripe_sector_count meta) (sync_sector_count d)
    (length (stripe_fetch_states (w_shared w))) content ->
  publish_inv sfile (sync_path d) (sync_path e) (stripe_sector_count meta) (sync_sector_count d)
    (length (stripe_fetch_states (w_shared w))) content (pool_buffers (sf_pool (bw_fetcher b))) b w'.
Proof.
  intros Hfr Hal Hnew Hwf Hok Hsh Hso Hi P. destruct (worker_new_parts _ _ _ _ _ _ _ _ _ _ Hnew) as (w1 & Efl & Efe).
  pose proof (flusher_new_facts crc32 rounds e _ w _ w1 Hfr Efl) as (Hf1 & _). pose proof Hf1 as (_ & _ & Hfr1 & Hs1 & _).
  pose proof (flusher_new_inv crc32 rounds e _ w _ w1 Hfr Efl Hwf Hok Hsh) as Ifl.
  destruct (flusher_opens_file _ _ _ _ _ _ _ Hfr Efl) as [Hd Hch].
  assert (shared_stripe_sector_count (w_shared w1) = stripe_sector_count meta) as Essc.
  { destruct (new_shared_states meta) as (_ & _ & Esh). unfold shared_stripe_sector_count, stripe_sector_count. by rewrite Hs1, Hsh, Esh. }
  rewrite Essc in Efe. split; [|done|].
  - eapply (fetcher_new_copies _ _ _ _ _ _ _ P src d alignment autofetch w1); try done; [by apply Hfr1|by rewrite Hs1|].
    eapply sd_keep; [exact Hi| |by rewrite (disk_at_disks w w1)]. intros id Hid. rewrite Hso in Hid. by apply elem_of_nil in Hid.
  - intros x [i Hx]%list_elem_of_lookup Hin. destruct (pw_ids _ _ (fi_pool _ _ _ Ifl) i x Hx) as [Hdom _].
    exact (fetcher_new_pool_fresh _ _ _ _ _ _ _ _ Efe (Hfr1 Hfr) x Hin Hdom).
Qed.

(** C1: when the background worker publishes a stripe as fetched, the target
    durably holds the stripe.  The source delivers the stripes [content] (its
    promise [SourceDelivers]); target and metadata are files; any operation on
    these files may fail, wholly or after some bytes; other threads send
    requests and do I/O of their own, which keeps off stripes that are still
    missing, as the requests of a lazy device do.  Then every iteration of the worker returns, and if a stripe is
    missing before an iteration and the shared state shows it as fetched after
    it, both the current and the stable contents of the target file hold the
    bytes of the source stripe at the place of the stripe. *)
Theorem published_stripes_stored crc32 {S} `{SourceSafe S} `{!SourceContract S} (sfile : nat) (content : nat -> list Z)
    `{!SourceDelivers S sfile content} rounds (src : S) (d e : SyncBlockDevice) alignment autofetch w0 b0 w1 b w
    (meta := mf_metadata (bw_flusher b0)) (ssc := stripe_sector_count meta) :
  fresh_world w0 -> is_power_of_two alignment = true ->
  worker_new crc32 rounds src d e alignment autofetch w0 = Done (Ok b0, w1) ->
  metadata_wf meta -> Forall header_ok (stripe_headers meta) ->
  w_shared w0 = new_shared meta -> w_requests w0 = [] ->
  ss_inv src w0 -> ss_outstanding src = [] -> ss_stripe_sectors src <= ssc -> sd_inv ∅ src w0 ->
  copy_params (S := S) sfile (sync_path d) ssc (sync_sector_count d)
    (length (stripe_fetch_states (w_shared w0))) content ->
  sync_path e <> sfile -> sync_path e <> sync_path d ->
  rtc (publish_step crc32 sfile (sync_path d) ssc (pool_buffers (sf_pool (bw_fetcher b0)))) (b0, w1) (b, w) ->
  forall senders, exists r, run_iteration crc32 senders b w = Done r /\
    forall b' w' id, r = Some (b', w') -> missing w id ->
      stripe_fetch_states (w_shared w') !! id = Some Fetched ->
      present (disk_data (disk_at w' (sync_path d))) (stripe_start ssc id) (content id) /\
      present (disk_synced (disk_at w' (sync_path d))) (stripe_start ssc id) (content id).
Proof.
  intros Hfr Hal Hnew Hwf Hok Hsh Hrq Hsi Hso Hsz Hi P Hes Het Hsteps senders.
  pose proof (worker_new_inv crc32 rounds src d e alignment autofetch w0 b0 w1 Hfr Hal Hnew Hwf Hok Hsh Hrq Hsi Hso Hsz) as I.
  pose proof (worker_new_publishes crc32 sfile content rounds src d e alignment autofetch w0 b0 w1
    Hfr Hal Hnew Hwf Hok Hsh Hso Hi P) as C.
  destruct (publish_steps_inv _ _ _ _ _ _ _ _ _ P Hes Het _ _ _ Hsteps I C) as [I' C']. cbn [fst snd] in *.
  destruct (run_iteration_inv crc32 _ senders b w I') as [(E1 & _)|(b' & w' & E1 & _)]; eexists; (split; [exact E1|]); [done|].
  intros b'' w'' id [= <- <-] Hm Hp.
  by destruct (run_iteration_publishes _ _ _ _ _ _ _ _ _ P Hes Het _ _ _ _ _ _ I' C' E1) as [_ Hst]; apply Hst.
Qed.

(** *** A run in which the first read of stripe 1 stops after 100 bytes, a write
    after 700 bytes and a flush fails; the worker publishes the stripe at the
    fourth attempt. *)

Definition pdemo_world : World := set_faults wdemo_world [None; Some 100; None; Some 700; None; None; Some 0]%nat.

Definition pdemo_open : outcome (result (BgWorker (BlockDeviceStripeSource SyncIoChannel) SyncIoChannel SyncIoChannel) * World) :=
  worker_new crc32_ieee 1 wdemo_source (mkSyncDev 2 8 false) (mkSyncDev 7 3 false) 4096 false pdemo_world.

Definition pdemo_content : nat -> list Z :=
  source_stripe (flat_map (fun i => replicate SECTOR_SIZE (Z.of_nat i + 1)) (seq 0 6)) 2 6.

Lemma pdemo_source_ready : sd_inv (file := 1) (content := pdemo_content) ∅ wdemo_source pdemo_world.
Proof. split_and!; try done; try lia. by intros id Hid%elem_of_nil. Qed.

Lemma pdemo_iterate_steps bufs n (s : wdemo_state) :
  rtc (publish_step crc32_ieee 1 2 2 bufs) s (Nat.iter n wdemo_iterate s).
Proof.
  induction n as [|n IH]; [apply rtc_refl|]. etransitivity; [exact IH|].
  change (Nat.iter (Datatypes.S n) wdemo_iterate s) with (wdemo_iterate (Nat.iter n wdemo_iterate s)).
  destruct (Nat.iter n wdemo_iterate s) as [b w]. unfold wdemo_iterate. cbn [fst snd].
  destruct (run_iteration crc32_ieee true b w) as [[[b' w']|]|] eqn:E; [|apply rtc_refl..].
  apply rtc_once. by eapply pstep_iteration.
Qed.

Lemma wdemo_iterate_result (s : wdemo_state) r : run_iteration crc32_ieee true s.1 s.2 = Done r ->
  wdemo_iterate s = match r with Some x => x | None => s end.
Proof. unfold wdemo_iterate. intros ->. by destruct r. Qed.

Lemma published_stripes_stored_witness :
  exists b0 w1, pdemo_open = Done (Ok b0, w1) /\
  let s := wdemo_run 6 (b0, w1) in
  let s' := wdemo_iterate s in
  missing s.2 1 /\ stripe_fetch_states (w_shared s'.2) !! 1%nat = Some Fetched /\
  present (disk_data (disk_at s'.2 2)) (stripe_start 2 1) (pdemo_content 1) /\
  present (disk_synced (disk_at s'.2 2)) (stripe_start 2 1) (pdemo_content 1).
Proof.
  assert (match pdemo_open with
          | Done (Ok b, w) => bool_decide (mf_metadata (bw_flusher b) = wdemo_meta) &&
              bool_decide (length (stripe_fetch_states (w_shared w)) = 4%nat) &&
              bool_decide (stripe_fetch_states (w_shared (wdemo_run 6 (b, w)).2) !! 1%nat = Some NotFetched) &&
              bool_decide (stripe_fetch_states (w_shared (wdemo_iterate (wdemo_run 6 (b, w))).2) !! 1%nat = Some Fetched)
          | _ => false end = true) as Hok by (vm_compute; reflexivity).
  destruct pdemo_open as [[[b0|] w1]|] eqn:Hopen; [|discriminate Hok..].
  exists b0, w1. split; [reflexivity|].
  apply andb_true_iff in Hok as [[[Hm%bool_decide_eq_true Hl%bool_decide_eq_true]%andb_true_iff
    Hn%bool_decide_eq_true]%andb_true_iff Hp%bool_decide_eq_true].
  intros s s'. assert (missing s.2 1) as Hmis by (exists NotFetched; split; [exact Hn|split; discriminate]).
  split; [exact Hmis|]. split; [exact Hp|].
  assert (stripe_sector_count (mf_metadata (bw_flusher b0)) = 2) as Essc by (rewrite Hm; reflexivity).
  destruct (published_stripes_stored crc32_ieee 1 pdemo_content 1 wdemo_source (mkSyncDev 2 8 false) (mkSyncDev 7 3 false)
    4096 false pdemo_world b0 w1 s.1 s.2) with (senders := true) as (r & Er & Hr).
  - exact (no_buffers_fresh pdemo_world eq_refl).
  - reflexivity.
  - exact Hopen.
  - rewrite Hm. apply new_metadata_wf; unfold MAX_STRIPE_SECTOR_COUNT_SHIFT, U32_MAX; clear; lia.
  - rewrite Hm. apply new_metadata_headers_ok.
  - rewrite Hm. reflexivity.
  - reflexivity.
  - split; [exact Logic.I|clear; cbn; lia].
  - reflexivity.
  - rewrite Essc. clear; cbn; lia.
  - exact pdemo_source_ready.
  - rewrite Essc. apply file_source_params; cbn [sync_path sync_sector_count]; [discriminate|clear; lia|clear; lia|clear; lia|vm_compute; reflexivity].
  - discriminate.
  - discriminate.
  - rewrite Essc. eapply rtc_l.
    + apply (pstep_send crc32_ieee 1 2 2 _ b0 w1 (Fetch 1)). cbn. rewrite Hl. clear; lia.
    + rewrite <- surjective_pairing. apply pdemo_iterate_steps.
  - rewrite Essc in Hr. change (stripe_fetch_states (w_shared s'.2) !! 1%nat = Some Fetched) in Hp.
    assert (s' = match r with Some x => x | None => s end) as Hs' by exact (wdemo_iterate_result s r Er).
    clearbody s'. subst s'. destruct r as [[b' w']|]; [exact (Hr b' w' 1%nat eq_refl Hmis Hp)|].
    exfalso. destruct Hmis as (st & Hst & Hne & _). rewrite Hp in Hst. injection Hst as <-. exact (Hne eq_refl).
Defined.
