(* ===== verification/Crypt.v ===== *)
(** * Crypt: encryption at rest

    Models src/src/crypt/key.rs ([KeyEncryptionCipher]: the XTS keys are stored
    encrypted under a key-encryption key), src/src/crypt/block.rs
    ([XtsBlockCipher]) and src/src/block_device/bdev_crypt.rs (the device that
    encrypts every sector it passes to its base).

    AES-GCM (the aes-gcm crate) and AES-XTS (isa-l) are not part of the
    repository: the classes [Aead] and [XtsAes] stand for them, and [AeadLaws]
    and [XtsLaws] state what their documentation promises.  Random nonces and
    keys are arguments. *)
From S2P Require Import Prelude Metadata SharedState World Device StripeSource.

(** ** Key encryption *)

Class Aead := {
  key_accepted : list Z -> bool;                             (* [Aes256Gcm::new_from_slice] *)
  seal : list Z -> list Z -> list Z -> list Z -> option (list Z);  (* key, nonce, aad, message *)
  open_ : list Z -> list Z -> list Z -> list Z -> option (list Z);
}.

Definition GCM_TAG_SIZE : nat := 16.
Definition GCM_NONCE_SIZE : nat := 12.

(** What one seals opens again, and sealing appends the tag. *)
Class AeadLaws `{Aead} := {
  open_seal k n a m c : seal k n a m = Some c -> open_ k n a c = Some m;
  seal_length k n a m c : seal k n a m = Some c -> length c = (length m + GCM_TAG_SIZE)%nat;
}.

Inductive CipherMethod := MethodNone | Aes256Gcm.

Record KeyEncryptionCipher := mkKek {
  kek_method : CipherMethod;
  kek_key : option (list Z);
  kek_auth_data : option (list Z);
}.

(** A Rust array [[u8; 32]] from a vector. *)
Definition ensure_32_bytes (data : list Z) : result (list Z) :=
  if decide (length data = 32%nat) then Ok data else Err InvalidParameter.

Section key_encryption.
Context `{Aead}.

Definition init_context (k : KeyEncryptionCipher) : result (list Z * list Z) :=
  match kek_key k with
  | None => Err InvalidParameter
  | Some key =>
      match kek_auth_data k with
      | None => Err InvalidParameter
      | Some auth => Ok (key, auth)
      end
  end.

Definition new_cipher (key : list Z) : result unit :=
  if key_accepted key then Ok tt else Err InvalidParameter.

(** [[12-byte nonce || ciphertext || 16-byte tag]] *)
Definition aes256gcm_decrypt (key aad ciphertext : list Z) : result (list Z) :=
  _ ← new_cipher key;
  if decide (length ciphertext < GCM_NONCE_SIZE + GCM_TAG_SIZE)%nat then Err InvalidParameter else
  let nonce := take GCM_NONCE_SIZE ciphertext in
  let encrypted_data := drop GCM_NONCE_SIZE ciphertext in
  match open_ key nonce aad encrypted_data with
  | None => Err InvalidParameter
  | Some plaintext => Ok plaintext
  end.

(** [nonce] is the random nonce of the call. *)
Definition aes256gcm_encrypt (nonce key aad plaintext : list Z) : result (list Z) :=
  _ ← new_cipher key;
  match seal key nonce aad plaintext with
  | None => Err InvalidParameter
  | Some ciphertext => Ok (nonce ++ ciphertext)
  end.

Definition encrypt_xts_keys (k : KeyEncryptionCipher) (n1 n2 key1 key2 : list Z) : result (list Z * list Z) :=
  match kek_method k with
  | MethodNone => Ok (key1, key2)
  | Aes256Gcm =>
      '(key, auth) ← init_context k;
      k1 ← aes256gcm_encrypt n1 key auth key1;
      k2 ← aes256gcm_encrypt n2 key auth key2;
      Ok (k1, k2)
  end.

Definition decrypt_xts_keys (k : KeyEncryptionCipher) (key1 key2 : list Z) : result (list Z * list Z) :=
  match kek_method k with
  | MethodNone => k1 ← ensure_32_bytes key1; k2 ← ensure_32_bytes key2; Ok (k1, k2)
  | Aes256Gcm =>
      '(key, auth) ← init_context k;
      k1 ← aes256gcm_decrypt key auth key1;
      k2 ← aes256gcm_decrypt key auth key2;
      k1 ← ensure_32_bytes k1; k2 ← ensure_32_bytes k2; Ok (k1, k2)
  end.

Definition decrypt_psk_secret (k : KeyEncryptionCipher) (secret : list Z) : result (list Z) :=
  match kek_method k with
  | MethodNone => Ok secret
  | Aes256Gcm => '(key, auth) ← init_context k; aes256gcm_decrypt key auth secret
  end.

Definition encrypt_key_data (k : KeyEncryptionCipher) (nonce plaintext : list Z) : result (list Z) :=
  match kek_method k with
  | MethodNone => Ok plaintext
  | Aes256Gcm => '(key, auth) ← init_context k; aes256gcm_encrypt nonce key auth plaintext
  end.

Definition decrypt_key_data (k : KeyEncryptionCipher) (ciphertext : list Z) : result (list Z) :=
  match kek_method k with
  | MethodNone => Ok ciphertext
  | Aes256Gcm => '(key, auth) ← init_context k; aes256gcm_decrypt key auth ciphertext
  end.
End key_encryption.

(** ** The sector cipher *)

Record XtsBlockCipher := mkXts { xts_key1 : list Z; xts_key2 : list Z }.

#[global] Instance XtsBlockCipher_eq_dec : EqDecision XtsBlockCipher.
Proof. solve_decision. Defined.

(** The isa-l functions: key for the tweak, key for the data, initial tweak,
    data; the output buffer is the input buffer. *)
Class XtsAes := {
  XTS_AES_256_enc : list Z -> list Z -> list Z -> list Z -> list Z;
  XTS_AES_256_dec : list Z -> list Z -> list Z -> list Z -> list Z;
}.

Class XtsLaws `{XtsAes} := {
  xts_enc_length k2 k1 t s : length (XTS_AES_256_enc k2 k1 t s) = length s;
  xts_dec_length k2 k1 t s : length (XTS_AES_256_dec k2 k1 t s) = length s;
  xts_dec_enc k2 k1 t s : length s = SECTOR_SIZE ->
    XTS_AES_256_dec k2 k1 t (XTS_AES_256_enc k2 k1 t s) = s;
}.

Definition xts_new (key1 key2 : list Z) : result XtsBlockCipher :=
  k1 ← ensure_32_bytes key1; k2 ← ensure_32_bytes key2; Ok (mkXts k1 k2).

Definition from_encrypted `{Aead} (e1 e2 : list Z) (kek : KeyEncryptionCipher) : result XtsBlockCipher :=
  '(k1, k2) ← decrypt_xts_keys kek e1 e2; Ok (mkXts k1 k2).

Definition from_combined_key (combined : list Z) : result XtsBlockCipher :=
  if negb (bool_decide (length combined = 64%nat)) then Err InvalidParameter else
  k1 ← ensure_32_bytes (take 32 combined);
  k2 ← ensure_32_bytes (drop 32 combined);
  Ok (mkXts k1 k2).

Definition from_encrypted_key `{Aead} (encrypted : list Z) (kek : KeyEncryptionCipher) : result XtsBlockCipher :=
  decrypted ← decrypt_key_data kek encrypted; from_combined_key decrypted.

(** [XtsBlockCipher::random], given the bytes the generator returns. *)
Definition xts_random (r1 r2 : option (list Z)) : result XtsBlockCipher :=
  match r1 with
  | None => Err CryptoError
  | Some key1 => match r2 with None => Err CryptoError | Some key2 => Ok (mkXts key1 key2) end
  end.

Definition encrypted_keys `{Aead} (x : XtsBlockCipher) (kek : KeyEncryptionCipher) (n1 n2 : list Z)
  : result (list Z * list Z) := encrypt_xts_keys kek n1 n2 (xts_key1 x) (xts_key2 x).

Definition encrypted_key `{Aead} (x : XtsBlockCipher) (kek : KeyEncryptionCipher) (nonce : list Z)
  : result (list Z) := encrypt_key_data kek nonce (xts_key1 x ++ xts_key2 x).

Definition get_initial_tweak (sector : Z) : list Z := replicate 8 0 ++ to_le 8 sector.

Section sectors.
Context `{XtsAes}.

(** The loop body of [encrypt] and [decrypt] on sector [i] of the buffer. *)
Definition crypt_sector (f : list Z -> list Z -> list Z -> list Z -> list Z) (x : XtsBlockCipher)
    (sector_start : Z) (i : nat) (buf : list Z) : outcome (list Z) :=
  let tweak := get_initial_tweak (wrap64 (sector_start + Z.of_nat i)) in
  data ← slice buf (i * SECTOR_SIZE) SECTOR_SIZE;
  copy_into buf (i * SECTOR_SIZE) (f (xts_key2 x) (xts_key1 x) tweak data).

Definition decrypt (x : XtsBlockCipher) (buf : list Z) (sector_start sector_count : Z) : outcome (list Z) :=
  for_each (crypt_sector XTS_AES_256_dec x sector_start) (seq 0 (Z.to_nat sector_count)) buf.

Definition encrypt (x : XtsBlockCipher) (buf : list Z) (sector_start sector_count : Z) : outcome (list Z) :=
  for_each (crypt_sector XTS_AES_256_enc x sector_start) (seq 0 (Z.to_nat sector_count)) buf.
End sectors.

(** ** The encrypting device *)

Record CryptRequest := mkCryptReq { cr_sector_offset : Z; cr_sector_count : Z; cr_buf : nat }.

Record CryptIoChannel (B : Type) := mkCryptCh {
  cc_base : B;
  xts_cipher : XtsBlockCipher;
  read_requests : list (option CryptRequest);
}.
Arguments mkCryptCh {B}.
Arguments cc_base {B}.
Arguments xts_cipher {B}.
Arguments read_requests {B}.

Section crypt_channel.
Context `{XtsAes} {B : Type} `{IoChannel B}.
Implicit Types (c : CryptIoChannel B) (w : World).

Definition crypt_new (base : B) (x : XtsBlockCipher) : CryptIoChannel B := mkCryptCh base x [].

(** [resize_with(id + 1, || None)] when [id] is past the end, then the assignment. *)
Definition set_read_request (rs : list (option CryptRequest)) (id : nat) (r : CryptRequest)
  : list (option CryptRequest) := <[id := Some r]> (rs ++ replicate (S id - length rs) None).

Definition crypt_add_read (so n : Z) (b id : nat) c w : outcome (CryptIoChannel B * World) :=
  let rs := set_read_request (read_requests c) id (mkCryptReq so n b) in
  '(base, w) ← add_read so n b id (cc_base c) w;
  Done (mkCryptCh base (xts_cipher c) rs, w).

Definition crypt_add_write (so n : Z) (b id : nat) c w : outcome (CryptIoChannel B * World) :=
  data ← encrypt (xts_cipher c) (read_buf w b) so n;
  let w := write_buf w b data in
  '(base, w) ← add_write so n b id (cc_base c) w;
  Done (mkCryptCh base (xts_cipher c) (read_requests c), w).

(** One completion of the base channel: a successful read is decrypted in place. *)
Definition crypt_completion (x : XtsBlockCipher) (r : nat * bool) (s : list (option CryptRequest) * World)
  : outcome (list (option CryptRequest) * World) :=
  let '(id, ok) := r in let '(rs, w) := s in
  match rs !! id with
  | Some (Some req) =>
      let rs := <[id := None]> rs in
      if ok : bool then
        data ← decrypt x (read_buf w (cr_buf req)) (cr_sector_offset req) (cr_sector_count req);
        Done (rs, write_buf w (cr_buf req) data)
      else Done (rs, w)
  | _ => Done (rs, w)
  end.

Definition crypt_poll c w : outcome (list (nat * bool) * CryptIoChannel B * World) :=
  '(results, base, w) ← poll (cc_base c) w;
  '(rs, w) ← for_each (crypt_completion (xts_cipher c)) results (read_requests c, w);
  Done (results, mkCryptCh base (xts_cipher c) rs, w).

#[global] Instance crypt_channel : IoChannel (CryptIoChannel B) := {
  add_read := crypt_add_read;
  add_write := crypt_add_write;
  add_flush id c w :=
    '(base, w) ← add_flush id (cc_base c) w; Done (mkCryptCh base (xts_cipher c) (read_requests c), w);
  submit c w :=
    '(r, base, w) ← submit (cc_base c) w; Done (r, mkCryptCh base (xts_cipher c) (read_requests c), w);
  poll := crypt_poll;
  busy c := busy (cc_base c);
}.
End crypt_channel.

Record CryptBlockDevice (D : Type) := mkCryptDev { cd_base : D; cd_cipher : XtsBlockCipher }.
Arguments mkCryptDev {D}.
Arguments cd_base {D}.
Arguments cd_cipher {D}.

Definition crypt_device_new {D} (base : D) (key1 key2 : list Z) : result (CryptBlockDevice D) :=
  x ← xts_new key1 key2; Ok (mkCryptDev base x).

#[global] Instance crypt_device {D B} `{BlockDevice D B} : BlockDevice (CryptBlockDevice D) (CryptIoChannel B) := {
  create_channel d w :=
    match create_channel (cd_base d) w with
    | Err e => Err e
    | Ok base => Ok (crypt_new base (cd_cipher d))
    end;
  sector_count d := sector_count (cd_base d);
}.

(** ** What the sector loops compute *)

(** Sector by sector, from the front of the buffer. *)
Fixpoint crypt_ref (f : list Z -> list Z -> list Z -> list Z -> list Z) (x : XtsBlockCipher)
    (sector : Z) (n : nat) (buf : list Z) : list Z :=
  match n with
  | O => buf
  | S n' =>
      f (xts_key2 x) (xts_key1 x) (get_initial_tweak (wrap64 sector)) (take SECTOR_SIZE buf)
        ++ crypt_ref f x (sector + 1) n' (drop SECTOR_SIZE buf)
  end.

(** Two sectors never share a tweak. *)
Lemma get_initial_tweak_inj s s' :
  is_u64 s -> is_u64 s' -> get_initial_tweak s = get_initial_tweak s' -> s = s'.
Proof.
  intros Hs Hs' E. apply app_inv_head in E. unfold is_u64, U64_MAX in *.
  apply (to_le_inj 8); try done; change (256 ^ Z.of_nat 8) with 18446744073709551616; lia.
Qed.

Section crypt_ref.
#[local] Set Default Proof Using "Type*".
Context `{XtsLaws}.

Lemma crypt_ref_length f x s n buf :
  (forall k2 k1 t d, length (f k2 k1 t d) = length d) -> length (crypt_ref f x s n buf) = length buf.
Proof.
  intros Hf. revert s buf. induction n as [|n IH]; intros s buf; [done|]. cbn [crypt_ref].
  rewrite length_app, Hf, IH, length_take, length_drop. lia.
Qed.

Lemma crypt_sector_at f x s k pre buf :
  (forall k2 k1 t d, length (f k2 k1 t d) = length d) ->
  length pre = (k * SECTOR_SIZE)%nat -> (SECTOR_SIZE <= length buf)%nat ->
  crypt_sector f x s k (pre ++ buf) =
    Done ((pre ++ f (xts_key2 x) (xts_key1 x) (get_initial_tweak (wrap64 (s + Z.of_nat k))) (take SECTOR_SIZE buf))
            ++ drop SECTOR_SIZE buf).
Proof.
  intros Hf Hp Hl. unfold crypt_sector. rewrite slice_done by (rewrite length_app; lia). cbn [mbind outcome_bind].
  rewrite <- Hp, drop_app_length.
  set (d := f _ _ _ _). assert (length d = SECTOR_SIZE) as Hd by (unfold d; rewrite Hf, length_take; lia).
  rewrite copy_into_done by (rewrite length_app; lia).
  replace (length pre) with (length pre + 0)%nat by lia. rewrite splice_app_r. unfold splice.
  by rewrite take_0, Hd, <- app_assoc.
Qed.

Lemma crypt_loop f x s n k pre buf :
  (forall k2 k1 t d, length (f k2 k1 t d) = length d) ->
  length pre = (k * SECTOR_SIZE)%nat -> (n * SECTOR_SIZE <= length buf)%nat ->
  for_each (crypt_sector f x s) (seq k n) (pre ++ buf) = Done (pre ++ crypt_ref f x (s + Z.of_nat k) n buf).
Proof.
  intros Hf. revert k pre buf. induction n as [|n IH]; intros k pre buf Hp Hl; [done|]. cbn [seq for_each].
  rewrite crypt_sector_at by (done || lia). cbn [mbind outcome_bind].
  rewrite IH; [|rewrite length_app, Hf, length_take; lia|rewrite length_drop; lia].
  cbn [crypt_ref]. rewrite <- app_assoc. do 4 f_equal. lia.
Qed.

Lemma encrypt_spec x buf s n :
  (Z.to_nat n * SECTOR_SIZE <= length buf)%nat ->
  encrypt x buf s n = Done (crypt_ref XTS_AES_256_enc x s (Z.to_nat n) buf).
Proof.
  intros Hl. unfold encrypt. rewrite (crypt_loop _ x s _ 0 [] buf xts_enc_length) by done. by rewrite Z.add_0_r.
Qed.

Lemma decrypt_spec x buf s n :
  (Z.to_nat n * SECTOR_SIZE <= length buf)%nat ->
  decrypt x buf s n = Done (crypt_ref XTS_AES_256_dec x s (Z.to_nat n) buf).
Proof.
  intros Hl. unfold decrypt. rewrite (crypt_loop _ x s _ 0 [] buf xts_dec_length) by done. by rewrite Z.add_0_r.
Qed.

(** Deciphering works on the first [n] sectors alone. *)
Lemma crypt_ref_app f x s n buf rest :
  length buf = (n * SECTOR_SIZE)%nat -> crypt_ref f x s n (buf ++ rest) = crypt_ref f x s n buf ++ rest.
Proof.
  revert s buf. induction n as [|n IH]; intros s buf Hl; cbn [crypt_ref]; [done|].
  rewrite take_app_le, drop_app_le by lia. rewrite IH by (rewrite length_drop; lia). by rewrite app_assoc.
Qed.

Lemma crypt_ref_dec_enc x s n buf :
  length buf = (n * SECTOR_SIZE)%nat ->
  crypt_ref XTS_AES_256_dec x s n (crypt_ref XTS_AES_256_enc x s n buf) = buf.
Proof.
  revert s buf. induction n as [|n IH]; intros s buf Hl; cbn [crypt_ref]; [done|].
  assert (length (take SECTOR_SIZE buf) = SECTOR_SIZE) as Ht by (rewrite length_take; lia).
  set (d := XTS_AES_256_enc _ _ _ _). assert (length d = SECTOR_SIZE) as Hd by (unfold d; by rewrite xts_enc_length).
  rewrite take_app_le, drop_app_le, take_ge, (drop_ge d) by lia. cbn [app]. unfold d.
  rewrite xts_dec_enc, IH by (done || (rewrite length_drop; lia)). by rewrite take_drop.
Qed.
End crypt_ref.

(** ** The encrypting channel keeps the promises of its base *)

#[local] Obligation Tactic := idtac.

Section crypt_safe.
#[local] Set Default Proof Using "Type*".
Context `{XtsLaws} {B : Type} `{ChannelSafe B}.
Implicit Types (c : CryptIoChannel B) (w : World).

(** The buffers of the reads in flight are large enough. *)
Definition reads_hold (rs : list (option CryptRequest)) w : Prop :=
  forall id r, rs !! id = Some (Some r) -> holds w (cr_buf r) (cr_sector_count r).

Lemma reads_hold_stable rs w w' : stable w w' -> reads_hold rs w -> reads_hold rs w'.
Proof.
  intros (Hb & _) Hr id r E. destruct (Hr id r E) as [Hd Hl]. destruct (Hb _ Hd) as (? & _ & Hl').
  split; [done|]. by rewrite Hl'.
Qed.

Lemma set_read_request_hold rs id r w :
  reads_hold rs w -> holds w (cr_buf r) (cr_sector_count r) -> reads_hold (set_read_request rs id r) w.
Proof.
  intros Hr Hh j r' E. unfold set_read_request in E.
  destruct (decide (j = id)) as [->|Hj].
  - rewrite list_lookup_insert_eq in E by (rewrite length_app, length_replicate; lia). by simplify_eq.
  - rewrite list_lookup_insert_ne in E by done. apply lookup_app_Some in E as [E|[_ E]]; [by apply (Hr j)|].
    apply lookup_replicate in E as [E _]. done.
Qed.

Lemma crypt_completion_safe x rs w r :
  reads_hold rs w ->
  exists rs' w', crypt_completion x r (rs, w) = Done (rs', w') /\ frame w w' /\ reads_hold rs' w'.
Proof.
  intros Hr. destruct r as [id ok]. unfold crypt_completion.
  destruct (rs !! id) as [[req|]|] eqn:E; [|by do 2 eexists; split_and!..].
  assert (reads_hold (<[id := None]> rs) w) as Hr'.
  { intros j r' Ej. destruct (decide (j = id)) as [->|Hj].
    - rewrite list_lookup_insert_eq in Ej by (by apply lookup_lt_Some in E). done.
    - rewrite list_lookup_insert_ne in Ej by done. by apply (Hr j). }
  destruct ok; [|by do 2 eexists; split_and!].
  destruct (Hr id req E) as [Hd Hl]. rewrite decrypt_spec by done. cbn [mbind outcome_bind].
  assert (frame w (write_buf w (cr_buf req) (crypt_ref XTS_AES_256_dec x (cr_sector_offset req)
    (Z.to_nat (cr_sector_count req)) (read_buf w (cr_buf req))))) as Hf.
  { apply write_buf_frame; [done|]. apply crypt_ref_length. apply xts_dec_length. }
  do 2 eexists; split_and!; [done..|]. apply (reads_hold_stable _ w); [by apply frame_stable|done].
Qed.

Lemma crypt_completions_safe x results rs w :
  reads_hold rs w ->
  exists rs' w', for_each (crypt_completion x) results (rs, w) = Done (rs', w') /\ frame w w' /\ reads_hold rs' w'.
Proof.
  revert rs w. induction results as [|r results IH]; intros rs w Hr; cbn [for_each].
  { by do 2 eexists; split_and!. }
  destruct (crypt_completion_safe x rs w r Hr) as (rs1 & w1 & -> & Hf & Hr1). cbn [mbind outcome_bind].
  destruct (IH rs1 w1 Hr1) as (rs2 & w2 & -> & Hf2 & Hr2). do 2 eexists; split_and!; try done. by etrans.
Qed.

#[global] Program Instance crypt_safe : ChannelSafe (CryptIoChannel B) := {
  ch_inv c w := ch_inv (cc_base c) w /\ reads_hold (read_requests c) w;
}.
Next Obligation. intros c w w' Hs [Hi Hr]. split; [by apply (ch_inv_stable _ w)|by apply (reads_hold_stable _ w)]. Qed.
Next Obligation.
  intros so n b id c w [Hi Hr] Hh; cbn. unfold crypt_add_read.
  destruct (add_read_safe so n b id _ w Hi Hh) as (base & w' & -> & Hf & Hi').
  do 2 eexists; split_and!; try done. apply (reads_hold_stable _ w); [by apply frame_stable|].
  by apply set_read_request_hold.
Qed.
Next Obligation.
  intros so n b id c w [Hi Hr] Hh; cbn. unfold crypt_add_write. pose proof Hh as [Hd Hl].
  rewrite encrypt_spec by done. cbn [mbind outcome_bind]. set (w1 := write_buf w b _).
  assert (frame w w1) as Hf1 by (apply write_buf_frame; [done|apply crypt_ref_length, xts_enc_length]).
  destruct (add_write_safe so n b id (cc_base c) w1) as (base & w' & -> & Hf & Hi').
  { apply (ch_inv_stable _ w); [by apply frame_stable|done]. }
  { by apply (holds_frame w). }
  assert (frame w w') as Hf' by (by etrans).
  do 2 eexists; split_and!; try done. apply (reads_hold_stable _ w); [by apply frame_stable|done].
Qed.
Next Obligation.
  intros id c w [Hi Hr]; cbn. destruct (add_flush_safe id _ w Hi) as (base & w' & -> & Hf & Hi').
  do 2 eexists; split_and!; try done. apply (reads_hold_stable _ w); [by apply frame_stable|done].
Qed.
Next Obligation.
  intros c w [Hi Hr]; cbn. destruct (submit_safe _ w Hi) as (r & base & w' & -> & Hf & Hi').
  do 3 eexists; split_and!; try done. apply (reads_hold_stable _ w); [by apply frame_stable|done].
Qed.
Next Obligation.
  intros c w [Hi Hr]; cbn. unfold crypt_poll. destruct (poll_safe _ w Hi) as (rs & base & w1 & -> & Hf & Hi').
  cbn [mbind outcome_bind]. apply (reads_hold_stable _ _ w1) in Hr; [|by apply frame_stable].
  destruct (crypt_completions_safe (xts_cipher c) rs _ _ Hr) as (rs' & w2 & -> & Hf2 & Hr2).
  do 3 eexists; split_and!; try done; [by etrans|]. apply (ch_inv_stable _ w1); [by apply frame_stable|done].
Qed.
End crypt_safe.

Section crypt_contract.
#[local] Set Default Proof Using "Type*".
Context `{XtsAes} {B : Type} `{ChannelContract B}.

#[global] Program Instance crypt_contract : ChannelContract (CryptIoChannel B) := {
  outstanding c := outstanding (cc_base c);
}.
Next Obligation.
  intros so n b id c w c' w'; cbn. unfold crypt_add_read. intros E.
  destruct (add_read so n b id _ w) as [[base w1]|] eqn:E1; [|done]. cbn [mbind outcome_bind] in E. simplify_eq.
  apply (add_read_out _ _ _ _ _ _ _ _ E1).
Qed.
Next Obligation.
  intros so n b id c w c' w'; cbn. unfold crypt_add_write. intros E.
  destruct (encrypt _ _ _ _) as [data|]; [|done]. cbn [mbind outcome_bind] in E.
  destruct (add_write so n b id _ _) as [[base w1]|] eqn:E1; [|done]. cbn [mbind outcome_bind] in E. simplify_eq.
  apply (add_write_out _ _ _ _ _ _ _ _ E1).
Qed.
Next Obligation.
  intros id c w c' w'; cbn. intros E.
  destruct (add_flush id _ _) as [[base w1]|] eqn:E1; [|done]. cbn [mbind outcome_bind] in E. simplify_eq.
  apply (add_flush_out _ _ _ _ _ E1).
Qed.
Next Obligation.
  intros c w r c' w'; cbn. intros E.
  destruct (submit _ _) as [[[r1 base] w1]|] eqn:E1; [|done]. cbn [mbind outcome_bind] in E. simplify_eq.
  apply (submit_out _ _ _ _ _ E1).
Qed.
Next Obligation.
  intros c w rs c' w'; cbn. unfold crypt_poll. intros E.
  destruct (poll _ _) as [[[r1 base] w1]|] eqn:E1; [|done]. cbn [mbind outcome_bind] in E.
  destruct (for_each _ _ _) as [[rs' w2]|]; [|done]. cbn [mbind outcome_bind] in E. simplify_eq.
  apply (poll_out _ _ _ _ _ E1).
Qed.

#[global] Instance crypt_reliable `{!ChannelReliable B} : ChannelReliable (CryptIoChannel B).
Proof.
  constructor. intros c w r c' w' E. cbn in E.
  destruct (submit _ _) as [[[r1 base] w1]|] eqn:E1; [|done]. cbn [mbind outcome_bind] in E. simplify_eq.
  by apply (submit_ok _ _ _ _ _ E1).
Qed.
End crypt_contract.

(** ** Round trips *)

Lemma ensure_32_ok d : length d = 32%nat -> ensure_32_bytes d = Ok d.
Proof. intros. unfold ensure_32_bytes. by rewrite decide_True. Qed.

Section keys.
#[local] Set Default Proof Using "Type*".
Context `{AeadLaws}.

Lemma aes256gcm_roundtrip nonce key aad m c :
  length nonce = GCM_NONCE_SIZE ->
  aes256gcm_encrypt nonce key aad m = Ok c -> aes256gcm_decrypt key aad c = Ok m.
Proof.
  intros Hn. unfold aes256gcm_encrypt, aes256gcm_decrypt.
  destruct (new_cipher key); [|done]. cbn [mbind result_bind].
  destruct (seal key nonce aad m) as [ct|] eqn:E; [|done]. intros [= <-].
  rewrite decide_False by (rewrite length_app, (seal_length _ _ _ _ _ E); lia).
  rewrite <- Hn, take_app_length, drop_app_length. by rewrite (open_seal _ _ _ _ _ E).
Qed.

Lemma key_data_roundtrip kek nonce m c :
  length nonce = GCM_NONCE_SIZE -> encrypt_key_data kek nonce m = Ok c -> decrypt_key_data kek c = Ok m.
Proof.
  intros Hn. unfold encrypt_key_data, decrypt_key_data. destruct (kek_method kek); [congruence|].
  destruct (init_context kek) as [[key auth]|]; [|done]. by apply aes256gcm_roundtrip.
Qed.

Lemma encrypted_key_roundtrip x kek nonce e :
  length (xts_key1 x) = 32%nat -> length (xts_key2 x) = 32%nat -> length nonce = GCM_NONCE_SIZE ->
  encrypted_key x kek nonce = Ok e -> from_encrypted_key e kek = Ok x.
Proof.
  destruct x as [k1 k2]; cbn [xts_key1 xts_key2]. intros H1 H2 Hn E. unfold from_encrypted_key.
  rewrite (key_data_roundtrip _ _ _ _ Hn E). cbn [mbind result_bind xts_key1 xts_key2].
  unfold from_combined_key. rewrite bool_decide_eq_true_2 by (rewrite length_app; lia). cbn [negb].
  rewrite take_app_length', drop_app_length' by done. by rewrite !ensure_32_ok.
Qed.
End keys.

(** Key storage.  Whatever the key-encryption method, a cipher saved under
    a key-encryption key, in the combined or in the two-part format, is restored
    exactly. *)
Lemma xts_keys_roundtrip `{AeadLaws} x kek nonce n1 n2 :
  length (xts_key1 x) = 32%nat -> length (xts_key2 x) = 32%nat ->
  length nonce = GCM_NONCE_SIZE -> length n1 = GCM_NONCE_SIZE -> length n2 = GCM_NONCE_SIZE ->
  (forall e, encrypted_key x kek nonce = Ok e -> from_encrypted_key e kek = Ok x) /\
  (forall e1 e2, encrypted_keys x kek n1 n2 = Ok (e1, e2) -> from_encrypted e1 e2 kek = Ok x).
Proof.
  intros H1 H2 Hn Hn1 Hn2. destruct x as [k1 k2]; cbn in H1, H2. split.
  - intros e. by apply encrypted_key_roundtrip.
  - intros e1 e2 E. unfold encrypted_keys, encrypt_xts_keys, from_encrypted, decrypt_xts_keys in *. cbn in E.
    destruct (kek_method kek); [injection E as <- <-; by rewrite !ensure_32_ok|].
    destruct (init_context kek) as [[key auth]|]; [|done]. cbn [mbind result_bind] in *.
    destruct (aes256gcm_encrypt n1 key auth k1) as [c1|] eqn:E1; [|done]. cbn [mbind result_bind] in E.
    destruct (aes256gcm_encrypt n2 key auth k2) as [c2|] eqn:E2; [|done]. cbn [mbind result_bind] in E.
    injection E as <- <-. rewrite (aes256gcm_roundtrip _ _ _ _ _ Hn1 E1). cbn [mbind result_bind].
    rewrite (aes256gcm_roundtrip _ _ _ _ _ Hn2 E2). cbn [mbind result_bind]. by rewrite !ensure_32_ok.
Qed.

(** Toy ciphers that satisfy the laws. *)
Definition toy_aead : Aead := {|
  key_accepted k := bool_decide (length k = 32%nat);
  seal k n a m := Some (map (Z.lxor 85) m ++ replicate GCM_TAG_SIZE 7);
  open_ k n a c := Some (map (Z.lxor 85) (take (length c - GCM_TAG_SIZE) c));
|}.

Lemma map_lxor_involutive z l : map (Z.lxor z) (map (Z.lxor z) l) = l.
Proof.
  induction l as [|a l IH]; [done|]. cbn. rewrite IH. f_equal.
  by rewrite <- Z.lxor_assoc, Z.lxor_nilpotent, Z.lxor_0_l.
Qed.

#[local] Instance toy_aead_laws : @AeadLaws toy_aead.
Proof.
  split; cbn [key_accepted seal open_ toy_aead].
  - intros k n a m c <-%(inj Some). rewrite length_app, length_replicate, length_map.
    replace (_ - _)%nat with (length (map (Z.lxor 85) m)) by (rewrite length_map; lia).
    by rewrite take_app_length, map_lxor_involutive.
  - intros k n a m c <-%(inj Some). by rewrite length_app, length_map, length_replicate.
Qed.

Definition toy_xts : XtsAes := {|
  XTS_AES_256_enc k2 k1 t s := map (Z.lxor (1 + nth 8 t 0)) s;
  XTS_AES_256_dec k2 k1 t s := map (Z.lxor (1 + nth 8 t 0)) s;
|}.

#[local] Instance toy_xts_laws : @XtsLaws toy_xts.
Proof. split; cbn; intros; [apply length_map..|apply map_lxor_involutive]. Qed.

Lemma xts_keys_roundtrip_witness :
  let x := mkXts (replicate 32 3) (replicate 32 4) in
  let kek := mkKek Aes256Gcm (Some (replicate 32 1)) (Some [9]) in
  let n := replicate GCM_NONCE_SIZE 5 in
  (exists e, @encrypted_key toy_aead x kek n = Ok e) /\
  (forall e, @encrypted_key toy_aead x kek n = Ok e -> @from_encrypted_key toy_aead e kek = Ok x) /\
  (forall e1 e2, @encrypted_keys toy_aead x kek n n = Ok (e1, e2) -> @from_encrypted toy_aead e1 e2 kek = Ok x).
Proof.
  cbn zeta. split; [eexists; vm_compute; reflexivity|].
  apply (@xts_keys_roundtrip toy_aead toy_aead_laws); reflexivity.
Defined.

(** Write a range from one buffer, then read it back into another. *)
Definition write_then_read {C} `{IoChannel C} (so n : Z) (b b2 : nat) (c : C) (w : World)
  : outcome (list (nat * bool) * C * World) :=
  '(c, w) ← add_write so n b 0 c w;
  '(r1, c, w) ← poll c w;
  '(c, w) ← add_read so n b2 1 c w;
  '(r2, c, w) ← poll c w;
  Done (r1 ++ r2, c, w).

Lemma file_write_read data off bs : take (length bs) (drop off (file_write data off bs)) = bs.
Proof.
  unfold file_write. set (pre := take off _).
  assert (length pre = off) as Hp by (unfold pre; rewrite length_take, length_app, length_replicate; lia).
  by rewrite <- Hp at 1; rewrite drop_app_length, take_app_length.
Qed.

(** No read is under way. *)
Definition no_reads (rs : list (option CryptRequest)) : Prop := forall i r, rs !! i <> Some (Some r).

Lemma no_reads_done rs id r : no_reads rs -> no_reads (<[id := None]> (set_read_request rs id r)).
Proof.
  intros Hrs i q. unfold set_read_request. rewrite list_insert_insert_eq. destruct (decide (i = id)) as [->|Hn].
  - destruct (decide (id < length (rs ++ replicate (S id - length rs) None))%nat).
    + by rewrite list_lookup_insert_eq.
    + rewrite list_insert_ge by lia. rewrite lookup_ge_None_2 by lia. done.
  - rewrite list_lookup_insert_ne by done. intros Hi. apply lookup_app_Some in Hi as [Hi|[_ Hi]]; [by eapply Hrs|].
    by apply lookup_replicate in Hi as [? _].
Qed.

Section crypt_sync.
#[local] Set Default Proof Using "Type*".
Context `{XtsLaws} (x : XtsBlockCipher) (file : nat).
Context (so n : Z) (w : World) (Hfaults : w_faults w = []).
#[local] Abbreviation len := (Z.to_nat n * SECTOR_SIZE)%nat.

(** A write on a disk without faults stores the cipher text. *)
Lemma crypt_sync_write b id rs :
  holds w b n ->
  let cipher := crypt_ref XTS_AES_256_enc x so (Z.to_nat n) (take len (read_buf w b)) in
  let d := mkDisk (file_write (disk_data (disk_at w file)) (byte_offset so) cipher) (disk_synced (disk_at w file)) in
  add_write so n b id (mkCryptCh (mkSyncCh file true []) x rs) w =
    Done (mkCryptCh (mkSyncCh file true [(id, true)]) x rs,
          set_disks (write_buf w b (cipher ++ drop len (read_buf w b))) (<[file := d]> (w_disks w))).
Proof.
  intros [Hd Hl] cipher d. cbn [add_write crypt_channel sync_channel]. unfold crypt_add_write. cbn [xts_cipher cc_base].
  rewrite encrypt_spec by done. cbn [mbind outcome_bind].
  rewrite <- (take_drop len (read_buf w b)) at 1. rewrite crypt_ref_app by (rewrite length_take; lia). fold cipher.
  assert (length cipher = len) as Hc
    by (unfold cipher; rewrite crypt_ref_length, length_take by apply xts_enc_length; lia).
  cbn [add_write sync_channel read_requests]. unfold sync_add_write. rewrite read_write_buf_eq. rewrite slice_done by (rewrite length_app; lia).
  rewrite drop_0, take_app_length' by done. cbn [mbind outcome_bind].
  unfold write_all_at, next_fault. cbn [w_faults write_buf set_bufs]. rewrite Hfaults. done.
Qed.

(** A read of a range that holds cipher text returns the plain text. *)
Lemma crypt_sync_read b id plain wr rs :
  no_reads rs -> holds w b n -> length plain = len ->
  take len (drop (byte_offset so) (disk_data (disk_at w file))) = crypt_ref XTS_AES_256_enc x so (Z.to_nat n) plain ->
  exists c' w', add_read so n b id (mkCryptCh (mkSyncCh file wr []) x rs) w = Done (c', w') /\ submit c' w' = Done (Ok tt, c', w') /\
    exists rs' w'', poll c' w' = Done ([(id, true)], mkCryptCh (mkSyncCh file wr []) x rs', w'') /\ no_reads rs' /\
      w_disks w'' = w_disks w /\ w_faults w'' = [] /\ read_buf w'' b = plain ++ drop len (read_buf w b).
Proof.
  intros Hrs [Hd Hl] Hp Hdisk. cbn [add_read poll submit crypt_channel sync_channel]. unfold crypt_add_read. cbn [xts_cipher cc_base read_requests].
  set (cipher := crypt_ref _ _ _ _ _) in *.
  assert (length cipher = len) as Hc by (unfold cipher; by rewrite crypt_ref_length by apply xts_enc_length).
  cbn [add_read sync_channel]. unfold sync_add_read. rewrite slice_done by done. rewrite drop_0. cbn [mbind outcome_bind].
  assert (length (take len (read_buf w b)) = len) as Ht by (rewrite length_take; lia).
  unfold read_exact_at, next_fault. rewrite Hfaults, Ht. cbn [sync_file]. rewrite Hdisk.
  rewrite bool_decide_eq_true_2 by done.
  rewrite overlay_all by (rewrite ?length_take; lia).
  do 2 eexists. split; [done|]. split; [done|].
  unfold crypt_poll. cbn [cc_base poll sync_channel sync_finished sync_finish mbind outcome_bind app].
  cbn [for_each crypt_completion xts_cipher read_requests].
  assert (forall r, set_read_request rs id r !! id = Some (Some r)) as Hset
    by (intros r; unfold set_read_request; rewrite list_lookup_insert_eq; [done|rewrite length_app, length_replicate; lia]).
  rewrite Hset. cbn [cr_buf cr_sector_offset cr_sector_count]. rewrite read_write_buf_eq, decrypt_spec by (rewrite length_app; lia).
  cbn [mbind outcome_bind]. do 2 eexists. split_and!; [done|by apply no_reads_done|done..|].
  rewrite read_write_buf_eq, crypt_ref_app by done. unfold cipher. by rewrite crypt_ref_dec_enc.
Qed.
End crypt_sync.

(** *** A whole file through the encrypting device *)

Lemma crypt_completion_idle `{XtsAes} x id ok rs w : no_reads rs -> crypt_completion x (id, ok) (rs, w) = Done (rs, w).
Proof. intros Hrs. unfold crypt_completion. destruct (rs !! id) as [[r|]|] eqn:E; [by destruct (Hrs id r)|done..]. Qed.

Section crypt_file.
#[local] Set Default Proof Using "Type*".
Context `{XtsLaws} {D B : Type} `{IoChannel B} `{BlockDevice D B} (x : XtsBlockCipher).
Context (d : D) (rest : B -> Prop) (enc : list Z -> list Z) (path n : nat) (Hfb : file_backed d rest enc path n).
#[local] Abbreviation cipher := (crypt_ref XTS_AES_256_enc x 0 n).

Definition crypt_rest (c : CryptIoChannel B) : Prop :=
  rest (cc_base c) /\ xts_cipher c = x /\ no_reads (read_requests c).

(** A channel whose base has finished a write or a flush. *)
Lemma crypt_settles id ok base rs : no_reads rs -> settles rest id ok base ->
  settles crypt_rest id ok (mkCryptCh base x rs).
Proof.
  intros Hrs Hs w. destruct (Hs w) as (c1 & c2 & E1 & E2 & Hc). cbn [submit poll crypt_channel]. unfold crypt_poll.
  cbn [cc_base]. rewrite E1. cbn [mbind outcome_bind]. do 2 eexists. split; [done|]. cbn [cc_base]. rewrite E2.
  cbn [mbind outcome_bind for_each xts_cipher read_requests]. rewrite crypt_completion_idle by done. by split_and!.
Qed.

(** Encryption over a device that keeps a file keeps the file's cipher text. *)
Lemma crypt_file_backed : file_backed (mkCryptDev d x) crypt_rest (fun p => enc (cipher p)) path n.
Proof.
  assert (forall p, length (cipher p) = length p) as Hc by (intros; apply crypt_ref_length, xts_enc_length).
  split.
  - apply (fb_sectors _ _ _ _ _ Hfb).
  - intros p Hp. by rewrite (fb_length _ _ _ _ _ Hfb), Hc by (by rewrite Hc).
  - intros w Hd. destruct (fb_open _ _ _ _ _ Hfb w Hd) as (c & Ec & Hr). cbn. rewrite Ec. eexists. split; [done|].
    split_and!; [done..|]. by intros i r Hi.
  - intros [base y rs] b id w (Hr & E2 & Hrs) Hl. cbn in Hr, E2, Hrs. subst y.
    set (w1 := write_buf w b (cipher (read_buf w b))).
    assert (read_buf w1 b = cipher (read_buf w b)) as Hb by apply read_write_buf_eq.
    destruct (fb_write _ _ _ _ _ Hfb base b id w1 Hr) as (w2 & Hd & Hf & Hw); [by rewrite Hb, Hc|].
    rewrite Hb in Hw. exists w2. split_and!; [by rewrite Hd|by rewrite Hf|].
    destruct (write_all_at _ _ _ _ w2) as [ok w3]. destruct Hw as (c' & Ew & Hs).
    cbn [add_write crypt_channel]. unfold crypt_add_write. cbn [xts_cipher cc_base read_requests].
    rewrite encrypt_spec by (rewrite Nat2Z.id; lia). rewrite Nat2Z.id. cbn [mbind outcome_bind]. fold w1. rewrite Ew.
    cbn [mbind outcome_bind]. eexists. split; [done|]. by apply crypt_settles.
  - intros [base y rs] id w (Hr & E2 & Hrs). cbn in Hr, E2, Hrs. subst y.
    pose proof (fb_flush _ _ _ _ _ Hfb base id w Hr) as Hfl. destruct (sync_all path w) as [ok w'].
    destruct Hfl as (c' & Efl & Hs). cbn [add_flush crypt_channel cc_base]. rewrite Efl. cbn [mbind outcome_bind].
    eexists. split; [done|]. by apply crypt_settles.
  - intros [base y rs] b id plain w (Hr & E2 & Hrs) Hf Hl Hp Hd. cbn in Hr, E2, Hrs. subst y.
    destruct (fb_read _ _ _ _ _ Hfb base b id (cipher plain) w Hr Hf Hl) as (c1 & w1 & c2 & c3 & w2 & E1 & E3 & E4 & Hd2 & Hf2 & Hb);
      [by rewrite Hc|done|].
    cbn [add_read submit poll crypt_channel]. unfold crypt_add_read, crypt_poll. cbn [xts_cipher cc_base read_requests].
    rewrite E1. cbn [mbind outcome_bind]. do 5 eexists. split; [done|]. cbn [cc_base]. rewrite E3. cbn [mbind outcome_bind].
    split; [done|]. cbn [cc_base]. rewrite E4. cbn [mbind outcome_bind for_each crypt_completion read_requests xts_cipher].
    unfold set_read_request. rewrite list_lookup_insert_eq by (rewrite length_app, length_replicate; lia).
    cbn [cr_buf cr_sector_offset cr_sector_count]. rewrite Hb, decrypt_spec by (rewrite Nat2Z.id, Hc; lia).
    rewrite Nat2Z.id, crypt_ref_dec_enc by done. cbn [mbind outcome_bind for_each].
    split_and!; [done..|]. apply read_write_buf_eq.
Qed.
End crypt_file.

(** C27: encryption at rest is transparent.  On a working disk, writing [n]
    sectors through the encrypting device and reading them back yields the
    plain text that was written, while the file holds their cipher text at that
    position and is otherwise unchanged. *)
Theorem crypt_read_back `{XtsLaws} x file so n b b2 w :
  w_faults w = [] -> holds w b n -> holds w b2 n ->
  let len := (Z.to_nat n * SECTOR_SIZE)%nat in
  let plain := take len (read_buf w b) in
  exists c' w',
    write_then_read so n b b2 (mkCryptCh (mkSyncCh file true []) x []) w = Done ([(0%nat, true); (1%nat, true)], c', w') /\
    read_buf w' b2 = plain ++ drop len (read_buf w b2) /\
    disk_data (disk_at w' file) =
      file_write (disk_data (disk_at w file)) (byte_offset so) (crypt_ref XTS_AES_256_enc x so (Z.to_nat n) plain).
Proof.
  intros Hf Hb Hb2 len plain. unfold write_then_read.
  rewrite (crypt_sync_write x file so n w Hf b 0 [] Hb). cbn [mbind outcome_bind].
  set (cipher := crypt_ref _ _ _ _ _). set (w1 := set_disks _ _).
  assert (poll (mkCryptCh (mkSyncCh file true [(0%nat, true)]) x []) w1
            = Done ([(0%nat, true)], mkCryptCh (mkSyncCh file true []) x [], w1)) as -> by reflexivity.
  cbn [mbind outcome_bind].
  assert (length plain = len) as Hp by (unfold plain; rewrite length_take; destruct Hb as [_ Hl]; lia).
  assert (length cipher = len) as Hc by (unfold cipher; by rewrite crypt_ref_length by apply xts_enc_length).
  assert (disk_data (disk_at w1 file) = file_write (disk_data (disk_at w file)) (byte_offset so) cipher) as Hd1
    by (unfold disk_at, w1; cbn; by rewrite lookup_insert_eq).
  assert (forall k, holds w k n -> holds w1 k n) as Hh1.
  { intros k. apply holds_frame. etrans; [apply write_buf_frame|apply set_disks_frame]; [apply Hb|].
    rewrite length_app, length_drop, Hc. destruct Hb as [_ Hl]. fold len in Hl |- *. lia. }
  destruct (crypt_sync_read x file so n w1 Hf b2 1 plain true [] (fun i r Hi => ltac:(done)) (Hh1 _ Hb2) Hp) as (c2 & w2 & Er & _ & c3 & w3 & Ep & _ & Hw3 & _ & Hr).
  { fold len. rewrite Hd1, <- Hc. apply file_write_read. }
  rewrite Er. cbn [mbind outcome_bind]. rewrite Ep. cbn [mbind outcome_bind]. do 2 eexists. split_and!; [done| |].
  - rewrite Hr. f_equal. fold len. unfold w1. change (read_buf (set_disks ?a ?d) b2) with (read_buf a b2).
    rewrite read_write_buf. case_decide; [subst|done]. fold len. by rewrite drop_app_length' by done.
  - unfold disk_at. rewrite Hw3. fold (disk_at w1 file). done.
Qed.

Lemma crypt_read_back_witness :
  let w := mkWorld {[ 0%nat := mkBuf (replicate 512 65) 0; 1%nat := mkBuf (replicate 512 0) 0 ]} 2
             {[ 3%nat := mkDisk (replicate 1024 0) [] ]} [] (mkShared [] [] 0 0 0) [] true in
  let x := mkXts [] [] in
  exists c' w',
    @write_then_read _ (@crypt_channel toy_xts _ _) 1 1 0 1 (mkCryptCh (mkSyncCh 3 true []) x []) w
      = Done ([(0%nat, true); (1%nat, true)], c', w') /\
    read_buf w' 1 = take 512 (read_buf w 0) ++ drop 512 (read_buf w 1) /\
    disk_data (disk_at w' 3) = file_write (disk_data (disk_at w 3)) (byte_offset 1)
      (crypt_ref (@XTS_AES_256_enc toy_xts) x 1 1 (take 512 (read_buf w 0))).
Proof.
  cbn zeta. apply (@crypt_read_back toy_xts toy_xts_laws); [reflexivity|..];
    (split; [by apply elem_of_dom; eexists|vm_compute; repeat constructor]).
Defined.
