(* ===== verification/Uring.v ===== *)
(** * Uring: the asynchronous device

    Models src/src/block_device/bdev_uring.rs.  The submission and completion
    rings belong to the io-uring crate and the kernel: [Ring] is their
    interface and [RingLaws] what the crate and io_uring_enter(2) document:
    [in_sq] are the entries pushed and not yet taken by the kernel, [in_kernel]
    those taken and not yet reaped.  In particular an entry stays in the
    submission queue when [submit] fails: it is sent by the next [submit] that
    succeeds. *)
From S2P Require Import Prelude Metadata SharedState World Device StripeSource LazyDevice.

(** ** The rings *)

(** Submission queue entries: file, buffer, length in bytes, offset in bytes,
    [user_data]. *)
Inductive Sqe :=
| SqeRead (fd : nat) (buf : nat) (len : Z) (offset : Z) (user_data : nat)
| SqeWrite (fd : nat) (buf : nat) (len : Z) (offset : Z) (user_data : nat)
| SqeFsync (fd : nat) (user_data : nat).

Definition sqe_id (e : Sqe) : nat :=
  match e with SqeRead _ _ _ _ id | SqeWrite _ _ _ _ id | SqeFsync _ id => id end.

Class Ring (R : Type) := {
  ring_new : Z -> result R;                            (* [IoUring::new(entries)] *)
  push : Sqe -> R -> option R;                         (* [None]: the queue is full *)
  ring_submit : R -> World -> bool * R * World;        (* [true]: [Ok] *)
  ring_next : R -> World -> option (nat * Z) * R * World;  (* [user_data] and [result] of a CQE *)
  in_sq : R -> list Sqe;
  in_kernel : R -> list Sqe;
}.

Definition in_ring {R} `{Ring R} (r : R) : list Sqe := in_sq r ++ in_kernel r.

(** The kernel may access the buffer of an entry up to its length. *)
Definition sqe_holds (w : World) (e : Sqe) : Prop :=
  match e with
  | SqeRead _ b len _ _ | SqeWrite _ b len _ _ =>
      b ∈ dom (w_bufs w) /\ (Z.to_nat len <= length (read_buf w b))%nat
  | SqeFsync _ _ => True
  end.

Class RingLaws (R : Type) `{Ring R} := {
  ring_new_empty n r : ring_new n = Ok r -> in_ring r = [];
  push_in e r r' : push e r = Some r' -> in_sq r' ≡ₚ e :: in_sq r /\ in_kernel r' = in_kernel r;
  ring_submit_in r w ok r' w' : ring_submit r w = (ok, r', w') -> in_ring r' ≡ₚ in_ring r;
  ring_submit_frame r w ok r' w' :
    Forall (sqe_holds w) (in_ring r) -> ring_submit r w = (ok, r', w') -> frame w w';
  ring_next_in r w id res r' w' :
    ring_next r w = (Some (id, res), r', w') ->
    exists e, sqe_id e = id /\ in_sq r' = in_sq r /\ in_kernel r ≡ₚ e :: in_kernel r';
  ring_next_none r w r' w' : ring_next r w = (None, r', w') -> in_sq r' = in_sq r /\ in_kernel r' ≡ₚ in_kernel r;
  ring_next_frame r w o r' w' :
    Forall (sqe_holds w) (in_ring r) -> ring_next r w = (o, r', w') -> frame w w';
}.

(** ** The channel *)

Record UringIoChannel (R : Type) := mkUring {
  ur_file : nat;
  ring : R;
  pending : Z;
  submissions : Z;
  completions : Z;
  ur_finished : list (nat * bool);
  sync_io : bool;
}.
Arguments mkUring {R}.
Arguments ur_file {R}.
Arguments ring {R}.
Arguments pending {R}.
Arguments submissions {R}.
Arguments completions {R}.
Arguments ur_finished {R}.
Arguments sync_io {R}.

Section uring.
Context {R : Type} `{Ring R}.
Implicit Types (c : UringIoChannel R) (w : World).

(** [UringIoChannel::new]: the file is opened (with the flags for direct and
    synchronous I/O), the queue size must fit 32 bits. *)
Definition uring_new (path : nat) (queue_size : Z) (sync_io : bool) w : result (UringIoChannel R) :=
  match w_disks w !! path with
  | None => Err (IoError OtherIo)
  | Some _ =>
      if U32_MAX <? queue_size then Err InvalidParameter else
      r ← ring_new queue_size;
      Ok (mkUring path r 0 0 0 [] sync_io)
  end.

(** Push an entry; when the queue is full, the request fails at once. *)
Definition uring_push (e : Sqe) c : UringIoChannel R :=
  match push e (ring c) with
  | None => mkUring (ur_file c) (ring c) (pending c) (submissions c) (completions c)
              (ur_finished c ++ [(sqe_id e, false)]) (sync_io c)
  | Some r => mkUring (ur_file c) r (wrap64 (pending c + 1)) (submissions c) (completions c)
                (ur_finished c) (sync_io c)
  end.

Definition uring_add_read (so n : Z) (b id : nat) c w : outcome (UringIoChannel R * World) :=
  let len := wrap32 (Z.of_nat (Z.to_nat n * SECTOR_SIZE)) in
  Done (uring_push (SqeRead (ur_file c) b len (wrap64 (so * Z.of_nat SECTOR_SIZE)) id) c, w).

Definition uring_add_write (so n : Z) (b id : nat) c w : outcome (UringIoChannel R * World) :=
  let len := wrap32 (Z.of_nat (Z.to_nat n * SECTOR_SIZE)) in
  Done (uring_push (SqeWrite (ur_file c) b len (wrap64 (so * Z.of_nat SECTOR_SIZE)) id) c, w).

Definition uring_add_flush (id : nat) c w : outcome (UringIoChannel R * World) :=
  if sync_io c then
    Done (mkUring (ur_file c) (ring c) (pending c) (submissions c) (completions c)
            (ur_finished c ++ [(id, true)]) (sync_io c), w)
  else Done (uring_push (SqeFsync (ur_file c) id) c, w).

Definition uring_submit c w : outcome (result unit * UringIoChannel R * World) :=
  if pending c =? 0 then Done (Ok tt, c, w) else
  let subs := wrap64 (submissions c + pending c) in
  let '(ok, r, w) := ring_submit (ring c) w in
  Done ((if ok : bool then Ok tt else Err (IoError OtherIo)),
        mkUring (ur_file c) r 0 subs (completions c) (ur_finished c) (sync_io c), w).

(** The loop of [poll].  Every iteration reaps an entry, so one more than the
    entries in the ring is enough fuel. *)
Fixpoint reap (fuel : nat) c w (finished : list (nat * bool))
  : outcome (list (nat * bool) * UringIoChannel R * World) :=
  match fuel with
  | O => Panic OutOfFuel
  | S fuel' =>
      match ring_next (ring c) w with
      | (Some (id, res), r, w) =>
          let c := mkUring (ur_file c) r (pending c) (submissions c) (wrap64 (completions c + 1))
                     (ur_finished c) (sync_io c) in
          reap fuel' c w (finished ++ [(id, negb (res <? 0))])
      | (None, r, w) =>
          Done (finished, mkUring (ur_file c) r (pending c) (submissions c) (completions c)
                            (ur_finished c) (sync_io c), w)
      end
  end.

Definition uring_poll c w : outcome (list (nat * bool) * UringIoChannel R * World) :=
  let finished := ur_finished c in
  reap (S (length (in_ring (ring c))))
    (mkUring (ur_file c) (ring c) (pending c) (submissions c) (completions c) [] (sync_io c)) w finished.

Definition uring_busy c : bool :=
  (completions c <? submissions c) || negb (bool_decide (ur_finished c = [])) || (0 <? pending c).

#[global] Instance uring_channel : IoChannel (UringIoChannel R) := {
  add_read := uring_add_read;
  add_write := uring_add_write;
  add_flush := uring_add_flush;
  submit := uring_submit;
  poll := uring_poll;
  busy := uring_busy;
}.
End uring.

(** The device; [R] is a phantom parameter, the ring its channels create. *)
Record UringBlockDevice (R : Type) := mkUringDev {
  ud_path : nat;
  ud_sector_count : Z;
  ud_queue_size : Z;
  ud_readonly : bool;
  ud_direct_io : bool;
  ud_sync : bool;
}.
Arguments mkUringDev {R}.
Arguments ud_path {R}.
Arguments ud_sector_count {R}.
Arguments ud_queue_size {R}.
Arguments ud_readonly {R}.
Arguments ud_direct_io {R}.
Arguments ud_sync {R}.

Definition uring_device_new {R} (path : nat) (queue_size : Z) (readonly direct_io sync : bool) (w : World)
  : result (UringBlockDevice R) :=
  if negb (is_power_of_two queue_size) then Err InvalidParameter else
  match w_disks w !! path with
  | None => Err (IoError OtherIo)
  | Some d =>
      let size := Z.of_nat (length (disk_data d)) in
      if negb (size mod Z.of_nat SECTOR_SIZE =? 0) then Err InvalidParameter
      else Ok (mkUringDev path (size / Z.of_nat SECTOR_SIZE) queue_size readonly direct_io sync)
  end.

#[global] Instance uring_device {R} `{Ring R} : BlockDevice (UringBlockDevice R) (UringIoChannel R) := {
  create_channel d w := uring_new (ud_path d) (ud_queue_size d) (ud_sync d) w;
  sector_count d := ud_sector_count d;
}.

(** ** Proofs *)

#[local] Obligation Tactic := idtac.

Section uring_proofs.
#[local] Set Default Proof Using "Type*".
Context {R : Type} `{RingLaws R}.
Implicit Types (c : UringIoChannel R) (w : World).

Definition uring_out c : list nat := (ur_finished c).*1 ++ map sqe_id (in_ring (ring c)).

Lemma push_ring e r r' : push e r = Some r' -> in_ring r' ≡ₚ e :: in_ring r.
Proof. intros E. destruct (push_in _ _ _ E) as [Hs Hk]. unfold in_ring. by rewrite Hs, Hk. Qed.

Lemma uring_push_out e c : uring_out (uring_push e c) ≡ₚ sqe_id e :: uring_out c.
Proof.
  unfold uring_push, uring_out. destruct (push e (ring c)) as [r|] eqn:E; cbn.
  - rewrite (push_ring _ _ _ E). cbn. by rewrite <- Permutation_middle.
  - rewrite fmap_app, <- app_assoc. cbn. by rewrite <- Permutation_middle.
Qed.

(** What the reaping loop did: the reaped entries [es] and their reports [rs]. *)
Record reaped c w c' w' (rs : list (nat * bool)) : Prop := {
  re_entries : exists es, map sqe_id es = rs.*1 /\ in_kernel (ring c) ≡ₚ es ++ in_kernel (ring c');
  re_sq : in_sq (ring c') = in_sq (ring c);
  re_finished : ur_finished c' = ur_finished c;
  re_pending : pending c' = pending c;
  re_submissions : submissions c' = submissions c;
  re_completions : 0 <= completions c ->
    completions c + Z.of_nat (length (in_kernel (ring c))) < 2 ^ 64 ->
    completions c' = completions c + Z.of_nat (length rs);
  re_frame : Forall (sqe_holds w) (in_ring (ring c)) -> frame w w';
}.

Lemma sqe_holds_stable w w' e : stable w w' -> sqe_holds w e -> sqe_holds w' e.
Proof.
  intros (Hb & _). destruct e as [fd b len off k|fd b len off k|fd k]; cbn; try done; intros [Hd Hl];
    destruct (Hb b Hd) as (? & _ & Hl'); (split; [done|lia]).
Qed.

Lemma reaped_cons c w r w1 id res c' w' rs :
  ring_next (ring c) w = (Some (id, res), r, w1) ->
  reaped (mkUring (ur_file c) r (pending c) (submissions c) (wrap64 (completions c + 1)) (ur_finished c) (sync_io c))
    w1 c' w' rs ->
  reaped c w c' w' ((id, negb (res <? 0)) :: rs).
Proof.
  intros E [(es & Hes & Hp) Hsq Hfin Hpe Hs Hc Hfr]. cbn in *.
  destruct (ring_next_in _ _ _ _ _ _ E) as (e & He & Hsq1 & Hin). split; try done.
  - exists (e :: es). cbn. rewrite He, Hes. split; [done|]. by rewrite Hin, Hp.
  - congruence.
  - intros Hpos Hlt. rewrite Hin in Hlt. cbn in Hlt. unfold wrap64 in Hc. rewrite Z.mod_small in Hc by lia.
    rewrite Hc by lia. cbn. lia.
  - intros Hall. pose proof (ring_next_frame _ _ _ _ _ Hall E) as Hf1. etrans; [done|]. apply Hfr.
    unfold in_ring in *. rewrite Hsq1. rewrite Hin in Hall. apply Forall_app in Hall as [Ha [_ Hb]%Forall_cons].
    apply Forall_app; split; (eapply Forall_impl; [eassumption|]); intros x Hx; cbn beta in *;
      apply (sqe_holds_stable w); auto using frame_stable.
Qed.

(** The loop returns, and accounts for every entry it reaps. *)
Lemma reap_spec fuel c w finished :
  (length (in_kernel (ring c)) < fuel)%nat ->
  exists rs c' w', reap fuel c w finished = Done (finished ++ rs, c', w') /\ reaped c w c' w' rs.
Proof.
  revert c w finished. induction fuel as [|fuel IH]; intros c w finished Hf; [lia|]. cbn [reap].
  destruct (ring_next (ring c) w) as [[[[id res]|] r] w1] eqn:E.
  - destruct (IH (mkUring (ur_file c) r (pending c) (submissions c) (wrap64 (completions c + 1)) (ur_finished c) (sync_io c))
      w1 (finished ++ [(id, negb (res <? 0))])) as (rs & c' & w' & -> & Hre).
    { destruct (ring_next_in _ _ _ _ _ _ E) as (e & _ & _ & Hin). cbn. rewrite Hin in Hf. cbn in Hf. lia. }
    exists ((id, negb (res <? 0)) :: rs), c', w'. rewrite <- app_assoc. split; [done|]. by eapply reaped_cons.
  - destruct (ring_next_none _ _ _ _ E) as [Hsq Hin].
    exists [], (mkUring (ur_file c) r (pending c) (submissions c) (completions c) (ur_finished c) (sync_io c)), w1.
    rewrite app_nil_r. split; [done|]. split; cbn; try done; [by exists []; rewrite Hin|lia|].
    intros Hall. by apply (ring_next_frame _ _ _ _ _ Hall E).
Qed.

(** [poll] hands over the finished requests and what it reaped. *)
Lemma uring_poll_spec c w :
  exists rs c' w', uring_poll c w = Done (ur_finished c ++ rs, c', w') /\ ur_finished c' = [] /\
    reaped (mkUring (ur_file c) (ring c) (pending c) (submissions c) (completions c) [] (sync_io c)) w c' w' rs.
Proof.
  unfold uring_poll.
  destruct (reap_spec (S (length (in_ring (ring c))))
    (mkUring (ur_file c) (ring c) (pending c) (submissions c) (completions c) [] (sync_io c)) w (ur_finished c))
    as (rs & c' & w' & E & Hre).
  { cbn. unfold in_ring. rewrite length_app. lia. }
  exists rs, c', w'. split_and!; [done|apply (re_finished _ _ _ _ _ Hre)|done].
Qed.

Lemma reaped_ring c w c' w' rs :
  reaped c w c' w' rs -> exists es, map sqe_id es = rs.*1 /\ in_ring (ring c) ≡ₚ es ++ in_ring (ring c').
Proof.
  intros [(es & Hes & Hp) Hsq _ _ _ _ _]. exists es. split; [done|]. unfold in_ring. rewrite Hsq, Hp.
  by rewrite Permutation_app_swap_app.
Qed.

#[global] Program Instance uring_contract : ChannelContract (UringIoChannel R) := {
  outstanding := uring_out;
}.
Next Obligation. intros so n b id c w c' w' [= <- <-]. apply uring_push_out. Qed.
Next Obligation. intros so n b id c w c' w' [= <- <-]. apply uring_push_out. Qed.
Next Obligation.
  intros id c w c' w'. cbn. unfold uring_add_flush. destruct (sync_io c); intros [= <- <-]; [|apply uring_push_out].
  unfold uring_out; cbn. rewrite fmap_app, <- app_assoc. cbn. by rewrite <- Permutation_middle.
Qed.
Next Obligation.
  intros c w r c' w'. cbn. unfold uring_submit. destruct (pending c =? 0); [by intros [= <- <- <-]|].
  destruct (ring_submit (ring c) w) as [[ok r1] w1] eqn:E. intros [= <- <- <-].
  unfold uring_out; cbn. by rewrite (ring_submit_in _ _ _ _ _ E).
Qed.
Next Obligation.
  intros c w rs c' w' E. destruct (uring_poll_spec c w) as (rs1 & c1 & w1 & E1 & Hfin & Hre).
  destruct (reaped_ring _ _ _ _ _ Hre) as (es & Hes & Hp). cbn in Hp.
  change (uring_poll c w = Done (rs, c', w')) in E. rewrite E1 in E. injection E as <- <- <-. cbn [outstanding]. 
  assert (map sqe_id (in_ring (ring c)) ≡ₚ rs1.*1 ++ map sqe_id (in_ring (ring c1))) as Hm by (by rewrite Hp, map_app, Hes).
  unfold uring_out. rewrite Hm, Hfin, fmap_app. cbn. by rewrite app_assoc.
Qed.

#[global] Instance uring_device_contract : DeviceContract (UringBlockDevice R) (UringIoChannel R).
Proof.
  constructor. intros d w c E. cbn in E. unfold uring_new in E. destruct (w_disks w !! _); [|done].
  destruct (U32_MAX <? _); [done|]. destruct (ring_new _) as [r|] eqn:Er; [|done]. injection E as <-.
  cbn. unfold uring_out; cbn. by rewrite (ring_new_empty _ _ Er).
Qed.

Lemma uring_push_holds e c w :
  Forall (sqe_holds w) (in_ring (ring c)) -> sqe_holds w e -> Forall (sqe_holds w) (in_ring (ring (uring_push e c))).
Proof.
  intros Hall He. unfold uring_push. destruct (push e (ring c)) as [r|] eqn:E; cbn; [|done].
  rewrite (push_ring _ _ _ E). by constructor.
Qed.

Lemma wrap32_len n len : (n <= len)%nat -> (Z.to_nat (wrap32 (Z.of_nat n)) <= len)%nat.
Proof. intros Hl. pose proof (wrap32_le (Z.of_nat n) ltac:(lia)). lia. Qed.

#[global] Program Instance uring_safe : ChannelSafe (UringIoChannel R) := {
  ch_inv c w := Forall (sqe_holds w) (in_ring (ring c));
}.
Next Obligation. intros c w w' Hs Hall. eapply Forall_impl; [exact Hall|]. intros e. by apply sqe_holds_stable. Qed.
Next Obligation.
  intros so n b id c w Hall [Hd Hl]. do 2 eexists; split_and!; [done..|].
  apply uring_push_holds; [done|]. split; [done|]. by apply wrap32_len.
Qed.
Next Obligation.
  intros so n b id c w Hall [Hd Hl]. do 2 eexists; split_and!; [done..|].
  apply uring_push_holds; [done|]. split; [done|]. by apply wrap32_len.
Qed.
Next Obligation.
  intros id c w Hall. cbn. unfold uring_add_flush. destruct (sync_io c); do 2 eexists; split_and!; try done.
  by apply uring_push_holds.
Qed.
Next Obligation.
  intros c w Hall. cbn. unfold uring_submit. destruct (pending c =? 0); [by do 3 eexists; split_and!|].
  destruct (ring_submit (ring c) w) as [[ok r] w'] eqn:E. pose proof (ring_submit_frame _ _ _ _ _ Hall E) as Hf.
  do 3 eexists; split_and!; [done..|]. cbn. rewrite (ring_submit_in _ _ _ _ _ E).
  eapply Forall_impl; [exact Hall|]. intros e. apply sqe_holds_stable. by apply frame_stable.
Qed.
Next Obligation.
  intros c w Hall. destruct (uring_poll_spec c w) as (rs & c' & w' & E & _ & Hre).
  pose proof (re_frame _ _ _ _ _ Hre Hall) as Hf. destruct (reaped_ring _ _ _ _ _ Hre) as (es & _ & Hp). cbn in Hp.
  exists (ur_finished c ++ rs), c', w'. split_and!; [exact E|done|].
  pose proof Hall as Hrest. cbn beta in Hrest. rewrite Hp in Hrest. apply Forall_app in Hrest as [_ Hrest].
  eapply Forall_impl; [exact Hrest|]. intros e. by apply sqe_holds_stable, frame_stable.
Qed.

(** The counters after [n] requests. *)
Record counters (n : nat) c : Prop := {
  co_range : 0 <= completions c /\ 0 <= pending c /\ submissions c + pending c <= Z.of_nat n;
  co_kernel : completions c + Z.of_nat (length (in_kernel (ring c))) <= submissions c;
  co_sq : pending c <= Z.of_nat (length (in_sq (ring c)));
  co_total : submissions c - completions c + pending c = Z.of_nat (length (in_ring (ring c)));
}.

Lemma counters_push n e c :
  Z.of_nat (S n) < 2 ^ 64 -> counters n c -> counters (S n) (uring_push e c).
Proof.
  intros Hn Hc. unfold uring_push. destruct (push e (ring c)) as [r|] eqn:E; [|by destruct Hc; split; cbn; try done; lia].
  destruct Hc as [? ? ? Ht]. destruct (push_in _ _ _ E) as [Hs Hk]. unfold wrap64, in_ring in *. rewrite length_app in Ht.
  rewrite Z.mod_small by lia. split; cbn; unfold in_ring; rewrite ?length_app, ?Hs, ?Hk; cbn; lia.
Qed.

Lemma counters_step n c w r c' w' :
  Z.of_nat n < 2 ^ 64 -> counters n c -> uring_submit c w = Done (r, c', w') -> counters n c'.
Proof.
  intros Hn Hc. unfold uring_submit. destruct (pending c =? 0); [by intros [= <- <- <-]|].
  destruct (ring_submit (ring c) w) as [[ok r1] w1] eqn:E. intros [= <- <- <-].
  pose proof (Permutation_length (ring_submit_in _ _ _ _ _ E)) as Hl. destruct Hc as [? ? ? Ht].
  unfold wrap64. rewrite Z.mod_small by lia. unfold in_ring in *. rewrite !length_app in *. split; cbn; try lia.
  unfold in_ring. rewrite length_app. lia.
Qed.

Lemma counters_poll n c w rs c' w' :
  Z.of_nat n < 2 ^ 64 -> counters n c -> uring_poll c w = Done (rs, c', w') -> counters n c'.
Proof.
  intros Hn [? ? ? Ht]. destruct (uring_poll_spec c w) as (rs1 & c1 & w1 & -> & _ & [(es & Hes & Hp) Hsq _ Hpe Hs Hco _]).
  intros [= <- <- <-]. cbn in *. unfold in_ring in *.
  assert (length rs1 = length es) as Hlen by (rewrite <- (length_fmap fst), <- Hes; apply length_map).
  apply Permutation_length in Hp. rewrite length_app in *.
  assert (completions c1 = completions c + Z.of_nat (length rs1)) as Hc1 by (apply Hco; lia).
  split; rewrite ?Hc1, ?Hpe, ?Hs, ?Hsq; unfold in_ring; rewrite ?length_app, ?Hsq; lia.
Qed.

Lemma counters_run reqs reps c w c' w' :
  counters 0 c -> channel_run reqs reps c w c' w' -> Z.of_nat (length reqs) < 2 ^ 64 -> counters (length reqs) c'.
Proof.
  intros H0' Hrun. induction Hrun as [|????????????? IH E|????????????? IH E|?????????? IH E|?????????? IH E|?????????? IH E|];
    intros Hl; rewrite ?length_app in Hl |- *; rewrite ?Nat.add_1_r in *; auto; cbn [length] in *;
    rewrite ?Nat.add_1_r in *.
  - injection E as <- <-. apply counters_push; [done|]. apply IH; [done|lia].
  - injection E as <- <-. apply counters_push; [done|]. apply IH; [done|lia].
  - cbn in E. unfold uring_add_flush in E. destruct (sync_io _); injection E as <- <-.
    + assert (counters (length reqs) c1) as [] by (apply IH; [done|lia]). split; cbn; try done. lia.
    + apply counters_push; [done|]. apply IH; [done|lia].
  - by eapply counters_step; [| |exact E]; auto.
  - by eapply counters_poll; [| |exact E]; auto.
Qed.
End uring_proofs.

(** C28: [busy] is exact.  Over any run of fewer than 2^64 requests on a channel
    of an io_uring device, [poll] always returns, each request is reported at most once, and [busy] is false exactly when every
    request has been reported. *)
Theorem uring_busy_exact {R} `{RingLaws R} (d : UringBlockDevice R) w0 w c reqs reps c' w' :
  create_channel d w0 = Ok c ->
  channel_run reqs reps c w c' w' -> Z.of_nat (length reqs) < 2 ^ 64 ->
  (exists rs c2 w2, poll c' w' = Done (rs, c2, w2)) /\
  (exists rest, reqs ≡ₚ reps.*1 ++ rest) /\
  (busy c' = false <-> reqs ≡ₚ reps.*1).
Proof.
  intros Ec Hrun Hl. pose proof (create_channel_out _ _ _ Ec) as Hout.
  pose proof (channel_run_out _ _ _ _ _ _ Hrun) as Hp. rewrite Hout in Hp. cbn [app] in Hp.
  assert (counters 0 c) as Hc0.
  { cbn in Ec. unfold uring_new in Ec. destruct (w_disks w0 !! _); [|done]. destruct (U32_MAX <? _); [done|].
    destruct (ring_new _) as [r|] eqn:Er; [|done]. injection Ec as <-.
    pose proof (ring_new_empty _ _ Er) as He. unfold in_ring in He. apply app_eq_nil in He as [E1 E2].
    split; cbn; unfold in_ring; rewrite ?E1, ?E2; cbn; lia. }
  pose proof (counters_run _ _ _ _ _ _ Hc0 Hrun Hl) as [Hr Hk Hs Ht].
  split_and!.
  - destruct (uring_poll_spec c' w') as (rs & c2 & w2 & E & _). eauto.
  - eauto.
  - cbn [outstanding uring_contract] in Hp. unfold uring_out in Hp.
    assert (busy c' = false <-> ur_finished c' = [] /\ in_ring (ring c') = []) as ->.
    { cbn. unfold uring_busy. rewrite !orb_false_iff, negb_false_iff, bool_decide_eq_true.
      rewrite <- (length_zero_iff_nil (in_ring _)). unfold in_ring in *. rewrite length_app in *.
      split; [intros [[? ?] ?]; split; [done|lia]|intros [? ?]; split_and!; [lia|done|lia]]. }
    split; [intros [Hf Hi]; rewrite Hp, Hf, Hi; cbn; by rewrite app_nil_r|].
    intros Heq. rewrite Heq in Hp. apply Permutation_length in Hp. rewrite !length_app, !length_fmap in Hp.
    split; apply length_zero_iff_nil; lia.
Qed.

(** ** A concrete ring

    A ring of [q_size] entries whose kernel completes every entry it takes at
    once, with result 0; [q_fail] makes that many submissions fail. *)
Record QueueRing := mkQ { q_size : nat; q_fail : nat; q_sq : list Sqe; q_kernel : list Sqe }.

#[global] Instance queue_ring : Ring QueueRing := {
  ring_new n := Ok (mkQ (Z.to_nat n) 0 [] []);
  push e r := if decide (length (q_sq r) < q_size r)%nat
              then Some (mkQ (q_size r) (q_fail r) (q_sq r ++ [e]) (q_kernel r)) else None;
  ring_submit r w :=
    match q_fail r with
    | S k => (false, mkQ (q_size r) k (q_sq r) (q_kernel r), w)
    | O => (true, mkQ (q_size r) 0 [] (q_kernel r ++ q_sq r), w)
    end;
  ring_next r w :=
    match q_kernel r with
    | [] => (None, r, w)
    | e :: es => (Some (sqe_id e, 0), mkQ (q_size r) (q_fail r) (q_sq r) es, w)
    end;
  in_sq := q_sq;
  in_kernel := q_kernel;
}.

#[global] Instance queue_ring_laws : RingLaws QueueRing.
Proof.
  split; cbn; unfold in_ring; cbn.
  - by intros n r [= <-].
  - intros e r r'. case_decide; [|done]. intros [= <-]; cbn. split; [|done]. by rewrite <- Permutation_cons_append.
  - intros r w ok r' w'. destruct (q_fail r); intros [= <- <- <-]; cbn; [|done].
    by rewrite (Permutation_app_comm (q_sq r)).
  - intros r w ok r' w' _. by destruct (q_fail r); intros [= <- <- <-].
  - intros r w id res r' w'. destruct (q_kernel r) as [|e es]; [done|]. intros [= <- <- <- <-]. by exists e.
  - intros r w r' w'. destruct (q_kernel r) as [|e es] eqn:E; [|done]. intros [= <- <-]. by rewrite E.
  - intros r w o r' w' _. by destruct (q_kernel r); intros [= <- <- <-].
Qed.

Definition udemo_world : World := mkWorld ∅ 0 {[ 3%nat := mkDisk [] [] ]} [] (mkShared [] [] 0 0 0) [] true.
Definition udemo_device : UringBlockDevice QueueRing := mkUringDev 3 0 4 false false false.

(** One read submitted and answered, another still pending. *)
Lemma uring_busy_exact_witness :
  exists c' : UringIoChannel QueueRing,
  (exists rs c2 w2, poll c' udemo_world = Done (rs, c2, w2)) /\
  (exists rest, [5; 6]%nat ≡ₚ [(5%nat, true)].*1 ++ rest) /\
  (busy c' = false <-> [5; 6]%nat ≡ₚ [(5%nat, true)].*1).
Proof.
  eexists. eapply (uring_busy_exact udemo_device udemo_world udemo_world _ [5; 6]%nat [(5%nat, true)]); [reflexivity| |done].
  eapply (run_read [5%nat] [(5%nat, true)] _ _ _ _ 0 1 0 6).
  - eapply (run_poll [5%nat] []).
    + eapply run_submit.
      * eapply (run_read [] [] _ _ _ _ 0 1 0 5); [apply run_start|reflexivity].
      * reflexivity.
    + reflexivity.
  - reflexivity.
Defined.

(** ** A failed submission *)

(** A lazy channel with one queued write on a fetched stripe, over a ring whose
    next submission fails. *)
Definition failing_ring : QueueRing := mkQ 4 1 [] [].
Definition failing_lazy : LazyIoChannel (UringIoChannel QueueRing) NullIoChannel :=
  lazy_new (mkUring 3 failing_ring 0 0 0 [] false) None false.
Definition lz_world (st : Z) : World :=
  mkWorld {[ 0%nat := mkBuf (replicate 512 0) 0 ]} 1 ∅ [] (mkShared [st] [NotWritten] 0 0 1) [] true.

(** A failed [submit] of the base does not take back the requests handed to
    it.  Here the lazy channel passes queued request 7 to an io_uring base whose
    submission fails and reports 7 as failed; the submission of request 8 then
    also sends 7 to the kernel, and 7 is reported again, as done: two requests,
    three answers, and the write reported as failed has reached the disk queue. *)
Lemma lazy_answers_twice :
  exists c' w', channel_run [7; 8]%nat [(7%nat, false); (7%nat, true); (8%nat, true)]
                  failing_lazy (lz_world NotFetched) c' w'.
Proof.
  do 2 eexists. eapply (run_poll [7; 8]%nat [(7%nat, false)]).
  - eapply run_submit.
    + eapply (run_write [7%nat] [(7%nat, false)] _ _ _ _ 0 1 0 8).
      * eapply (run_poll [7%nat] []).
        -- eapply (run_world _ _ _ _ _ _ (lz_world Fetched)).
           eapply (run_write [] [] _ _ _ _ 0 1 0 7); [apply run_start|]. vm_compute. reflexivity.
        -- vm_compute. reflexivity.
      * vm_compute. reflexivity.
    + vm_compute. reflexivity.
  - vm_compute. reflexivity.
Qed.
