(* ===== verification/IoTracking.v ===== *)
(** * IoTracking: what the front ends report about requests in flight

    Models src/src/backends/common/io_tracking.rs and the [queues] and [stats]
    commands of src/src/backends/common/rpc.rs that read it.  A tracker is
    shared by one queue's thread and the RPC thread; each method is one step.

    The specification is a table of the requests in flight plus running totals;
    [tracker_refines] shows that the RPC view is exactly that table. *)
From S2P Require Import Prelude Metadata.

Definition EXTRA_TRACKING_SLOTS : nat := 8.

Inductive IoKind := KindRead | KindWrite | KindFlush.

(** [IoKind as u8] *)
Definition io_kind_code (k : IoKind) : Z :=
  match k with KindRead => 1 | KindWrite => 2 | KindFlush => 3 end.

Record IoRecord := mkIoRecord { io_kind : Z; offset_sectors : Z; length_sectors : Z }.

Record IoTracker := mkTracker {
  ios : list IoRecord;
  total_bytes_read : Z;
  total_bytes_written : Z;
  total_read_ops : Z;
  total_write_ops : Z;
  total_flush_ops : Z;
}.

Definition tracker_new (size : nat) : IoTracker :=
  mkTracker (replicate (size + EXTRA_TRACKING_SLOTS) (mkIoRecord 0 0 0)) 0 0 0 0 0.

Definition tracker_add_read (slot : nat) (offset length_ : Z) (t : IoTracker) : IoTracker :=
  let bytes := wrap64 (total_bytes_read t + wrap64 (length_ * Z.of_nat SECTOR_SIZE)) in
  let ops := wrap64 (total_read_ops t + 1) in
  let records := if decide (length (ios t) <= slot)%nat then ios t
                 else <[slot := mkIoRecord (io_kind_code KindRead) offset length_]> (ios t) in
  mkTracker records bytes (total_bytes_written t) ops (total_write_ops t) (total_flush_ops t).

Definition tracker_add_write (slot : nat) (offset length_ : Z) (t : IoTracker) : IoTracker :=
  let bytes := wrap64 (total_bytes_written t + wrap64 (length_ * Z.of_nat SECTOR_SIZE)) in
  let ops := wrap64 (total_write_ops t + 1) in
  let records := if decide (length (ios t) <= slot)%nat then ios t
                 else <[slot := mkIoRecord (io_kind_code KindWrite) offset length_]> (ios t) in
  mkTracker records (total_bytes_read t) bytes (total_read_ops t) ops (total_flush_ops t).

(** A flush only sets the kind: offset and length keep their old values. *)
Definition tracker_add_flush (slot : nat) (t : IoTracker) : IoTracker :=
  let records :=
    match ios t !! slot with
    | None => ios t
    | Some r => <[slot := mkIoRecord (io_kind_code KindFlush) (offset_sectors r) (length_sectors r)]> (ios t)
    end in
  mkTracker records (total_bytes_read t) (total_bytes_written t) (total_read_ops t) (total_write_ops t)
    (wrap64 (total_flush_ops t + 1)).

Definition tracker_clear (slot : nat) (t : IoTracker) : IoTracker :=
  let records :=
    match ios t !! slot with
    | None => ios t
    | Some r => <[slot := mkIoRecord 0 (offset_sectors r) (length_sectors r)]> (ios t)
    end in
  mkTracker records (total_bytes_read t) (total_bytes_written t) (total_read_ops t) (total_write_ops t)
    (total_flush_ops t).

(** The closure of [snapshot]; the [unreachable!()] arm is a panic. *)
Definition snapshot_one (r : IoRecord) : outcome (option (IoKind * Z * Z)) :=
  if io_kind r =? 0 then Done None
  else if io_kind r =? 1 then Done (Some (KindRead, offset_sectors r, length_sectors r))
  else if io_kind r =? 2 then Done (Some (KindWrite, offset_sectors r, length_sectors r))
  else if io_kind r =? 3 then Done (Some (KindFlush, offset_sectors r, length_sectors r))
  else Panic AssertionFailed.

Fixpoint snapshot_records (rs : list IoRecord) : outcome (list (IoKind * Z * Z)) :=
  match rs with
  | [] => Done []
  | r :: rs' =>
      o ← snapshot_one r;
      rest ← snapshot_records rs';
      Done (match o with Some x => x :: rest | None => rest end)
  end.

Definition snapshot (t : IoTracker) : outcome (list (IoKind * Z * Z)) := snapshot_records (ios t).

Definition cumulative_stats (t : IoTracker) : Z * Z * Z * Z * Z :=
  (total_bytes_read t, total_bytes_written t, total_read_ops t, total_write_ops t, total_flush_ops t).

(** ** The RPC view *)

(** The JSON values of the [queues] command. *)
Inductive IoView := ViewRead (offset length : Z) | ViewWrite (offset length : Z) | ViewFlush.

Definition view_of (io : IoKind * Z * Z) : IoView :=
  match io with
  | (KindRead, offset, len) => ViewRead offset len
  | (KindWrite, offset, len) => ViewWrite offset len
  | (KindFlush, _, _) => ViewFlush
  end.

Definition queue_snapshot (t : IoTracker) : outcome (list IoView) :=
  l ← snapshot t; Done (map view_of l).

(** ** Specification *)

Inductive tracker_op :=
| OpAdd (slot : nat) (v : IoView)
| OpClear (slot : nat).

Definition tracker_apply (o : tracker_op) (t : IoTracker) : IoTracker :=
  match o with
  | OpAdd slot (ViewRead off len) => tracker_add_read slot off len t
  | OpAdd slot (ViewWrite off len) => tracker_add_write slot off len t
  | OpAdd slot ViewFlush => tracker_add_flush slot t
  | OpClear slot => tracker_clear slot t
  end.

(** The table of requests in flight; slots past its end are not recorded. *)
Definition table_apply (o : tracker_op) (tbl : list (option IoView)) : list (option IoView) :=
  match o with
  | OpAdd slot v => <[slot := Some v]> tbl
  | OpClear slot => <[slot := None]> tbl
  end.

Definition op_stats (o : tracker_op) : Z * Z * Z * Z * Z :=
  match o with
  | OpAdd _ (ViewRead _ len) => (len * Z.of_nat SECTOR_SIZE, 0, 1, 0, 0)
  | OpAdd _ (ViewWrite _ len) => (0, len * Z.of_nat SECTOR_SIZE, 0, 1, 0)
  | OpAdd _ ViewFlush => (0, 0, 0, 0, 1)
  | OpClear _ => (0, 0, 0, 0, 0)
  end.

Definition add_stats (a b : Z * Z * Z * Z * Z) : Z * Z * Z * Z * Z :=
  let '(a1, a2, a3, a4, a5) := a in let '(b1, b2, b3, b4, b5) := b in
  (a1 + b1, a2 + b2, a3 + b3, a4 + b4, a5 + b5).

(** The totals as 64-bit counters show them. *)
Definition wrap_stats (a : Z * Z * Z * Z * Z) : Z * Z * Z * Z * Z :=
  let '(a1, a2, a3, a4, a5) := a in (wrap64 a1, wrap64 a2, wrap64 a3, wrap64 a4, wrap64 a5).

(** ** Refinement *)

Definition record_view (r : IoRecord) : option IoView :=
  if io_kind r =? 1 then Some (ViewRead (offset_sectors r) (length_sectors r))
  else if io_kind r =? 2 then Some (ViewWrite (offset_sectors r) (length_sectors r))
  else if io_kind r =? 3 then Some ViewFlush else None.

Definition record_ok (r : IoRecord) : Prop := 0 <= io_kind r <= 3.

Record refines (t : IoTracker) (tbl : list (option IoView)) (sums : Z * Z * Z * Z * Z) : Prop := {
  rf_table : map record_view (ios t) = tbl;
  rf_ok : Forall record_ok (ios t);
  rf_stats : cumulative_stats t = wrap_stats sums;
}.

Lemma wrap64_add a b : wrap64 (wrap64 a + wrap64 b) = wrap64 (a + b).
Proof. unfold wrap64. by rewrite <- Zplus_mod. Qed.
Lemma wrap64_add_l a b : wrap64 (wrap64 a + b) = wrap64 (a + b).
Proof. unfold wrap64. by rewrite Zplus_mod_idemp_l. Qed.

Lemma table_insert t tbl slot r records :
  map record_view (ios t) = tbl -> Forall record_ok (ios t) -> record_ok r ->
  records = (if decide (length (ios t) <= slot)%nat then ios t else <[slot := r]> (ios t)) ->
  map record_view records = <[slot := record_view r]> tbl /\ Forall record_ok records.
Proof.
  intros <- Hok Hr ->. case_decide.
  - rewrite list_insert_ge by (rewrite length_map; lia). done.
  - split; [apply (list_fmap_insert record_view)|by apply Forall_insert].
Qed.

Lemma set_kind_insert rs slot f :
  match rs !! slot with None => rs | Some r => <[slot := f r]> rs end =
  if decide (length rs <= slot)%nat then rs
  else <[slot := f (default (mkIoRecord 0 0 0) (rs !! slot))]> rs.
Proof.
  case_decide as Hl; [by rewrite lookup_ge_None_2|].
  destruct (lookup_lt_is_Some_2 rs slot) as [r ->]; [lia|done].
Qed.

(** One operation updates the table and the totals. *)
Lemma tracker_apply_refines o t tbl sums :
  refines t tbl sums -> refines (tracker_apply o t) (table_apply o tbl) (add_stats sums (op_stats o)).
Proof.
  intros [Ht Hok Hs]. destruct sums as [[[[s1 s2] s3] s4] s5]. unfold cumulative_stats in Hs. cbn in Hs. injection Hs as E1 E2 E3 E4 E5.
  assert (forall slot r records, record_ok r ->
    records = (if decide (length (ios t) <= slot)%nat then ios t else <[slot := r]> (ios t)) ->
    map record_view records = <[slot := record_view r]> tbl /\ Forall record_ok records) as Hins
    by (intros; by eapply table_insert).
  destruct o as [slot [off len|off len|]|slot]; cbn [tracker_apply table_apply op_stats add_stats].
  - destruct (Hins slot (mkIoRecord 1 off len) _ ltac:(unfold record_ok; cbn; lia) eq_refl) as [H1 H2].
    split; [done..|]. unfold cumulative_stats; cbn. by rewrite E1, E2, E3, E4, E5, wrap64_add, wrap64_add_l, !Z.add_0_r.
  - destruct (Hins slot (mkIoRecord 2 off len) _ ltac:(unfold record_ok; cbn; lia) eq_refl) as [H1 H2].
    split; [done..|]. unfold cumulative_stats; cbn. by rewrite E1, E2, E3, E4, E5, wrap64_add, wrap64_add_l, !Z.add_0_r.
  - pose (f := fun r => mkIoRecord 3 (offset_sectors r) (length_sectors r)).
    destruct (Hins slot (f _) _ ltac:(unfold record_ok; cbn; lia) (set_kind_insert (ios t) slot f)) as [H1 H2].
    split; [done..|]. unfold cumulative_stats; cbn. by rewrite E1, E2, E3, E4, E5, wrap64_add_l, !Z.add_0_r.
  - pose (f := fun r => mkIoRecord 0 (offset_sectors r) (length_sectors r)).
    destruct (Hins slot (f _) _ ltac:(unfold record_ok; cbn; lia) (set_kind_insert (ios t) slot f)) as [H1 H2].
    split; [done..|]. unfold cumulative_stats; cbn. by rewrite E1, E2, E3, E4, E5, !Z.add_0_r.
Qed.

Lemma queue_snapshot_refines t tbl sums : refines t tbl sums -> queue_snapshot t = Done (omap id tbl).
Proof.
  intros [<- Hok _]. unfold queue_snapshot, snapshot. induction Hok as [|r rs Hr _ IH]; [done|].
  cbn [snapshot_records map]. destruct (snapshot_records rs) as [l|]; [|done]. cbn [mbind outcome_bind] in *.
  injection IH as IH. unfold record_ok, snapshot_one, record_view in *. destruct r as [k o len]; cbn in *.
  assert (k = 0 \/ k = 1 \/ k = 2 \/ k = 3) as [-> | [-> | [-> | ->]]] by lia; cbn; by rewrite IH.
Qed.

Lemma tracker_new_refines n : refines (tracker_new n) (replicate (n + EXTRA_TRACKING_SLOTS) None) (0, 0, 0, 0, 0).
Proof.
  split; [apply (fmap_replicate record_view)| |done]. apply Forall_replicate. unfold record_ok; cbn. lia.
Qed.

(** C30: the RPC view of a tracker.  After any sequence of operations the
    [queues] command lists, in slot order, exactly the requests added and not
    cleared since (slots past the pre-allocated ones excepted), the [snapshot]
    never reaches its [unreachable!()] arm, and the counters are the sums over
    all requests modulo 2^64. *)
Theorem tracker_refines n ops :
  let t := foldl (flip tracker_apply) (tracker_new n) ops in
  queue_snapshot t = Done (omap id (foldl (flip table_apply) (replicate (n + EXTRA_TRACKING_SLOTS) None) ops)) /\
  cumulative_stats t = wrap_stats (foldl (fun s o => add_stats s (op_stats o)) (0, 0, 0, 0, 0) ops).
Proof.
  assert (forall t tbl sums, refines t tbl sums ->
    refines (foldl (flip tracker_apply) t ops) (foldl (flip table_apply) tbl ops)
      (foldl (fun s o => add_stats s (op_stats o)) sums ops)) as Hall.
  { induction ops as [|o ops IH]; intros t tbl sums Hr; [done|]. cbn. by apply IH, tracker_apply_refines. }
  pose proof (Hall _ _ _ (tracker_new_refines n)) as Hr. split; [by eapply queue_snapshot_refines|apply Hr].
Qed.

Example tracker_demo :
  queue_snapshot (foldl (flip tracker_apply) (tracker_new 2)
    [OpAdd 0 (ViewRead 8 1); OpAdd 1 (ViewWrite 16 2); OpAdd 3 ViewFlush; OpClear 0]) = Done [ViewWrite 16 2; ViewFlush].
Proof. reflexivity. Qed.
