(* ===== verification/Vhost.v ===== *)
(** * Vhost: the vhost-user front end

    Models src/src/backends/vhost/request.rs (parsing of virtio block requests)
    and src/src/backends/vhost/backend_thread.rs (one queue's worker: it pops
    descriptor chains, turns them into I/O on a channel and completes them).

    Guest memory (vm-memory) and the virtqueue (virtio-queue) are interfaces:
    [GuestMemory] and [VirtQueue] with the laws the crates document.  A chain is
    the list of descriptors its iterator yields.

    The queue's worker is verified over every channel that keeps [ChannelServes],
    the lazy one included.  [guest_ok] is what it needs of a guest: at the time a
    chain is taken its data lies inside the device and below 4 GiB, and a request
    for the device's id has room for it. *)
From S2P Require Import Prelude Metadata SharedState World Device StripeSource IoTracking LazyDevice.

(** ** Guest memory and descriptors *)

Class GuestMemory (M : Type) := {
  check_address : M -> Z -> bool;
  mem_read : M -> Z -> nat -> bool * list Z;     (* success, and the bytes read *)
  mem_write : M -> Z -> list Z -> bool * M;
}.

(** A complete read has the length asked for; a checked address takes a byte,
    and stays valid. *)
Class GuestMemoryLaws (M : Type) `{GuestMemory M} := {
  mem_read_length m a n ok bs : mem_read m a n = (ok, bs) ->
    (length bs <= n)%nat /\ (ok = true -> length bs = n);
  mem_write_byte m a b : check_address m a = true -> (mem_write m a [b]).1 = true;
  mem_write_keeps m a bs a' : check_address (mem_write m a bs).2 a' = check_address m a';
}.

Record Descriptor := mkDesc { d_addr : Z; d_len : Z; has_next : bool; is_write_only : bool }.
Record DescChain := mkChain { head_index : nat; descriptors : list Descriptor }.

(** ** Request parsing *)

Definition VIRTIO_BLK_T_IN : Z := 0.
Definition VIRTIO_BLK_T_OUT : Z := 1.
Definition VIRTIO_BLK_T_FLUSH : Z := 4.
Definition VIRTIO_BLK_T_GET_ID : Z := 8.
Definition VIRTIO_BLK_T_DISCARD : Z := 11.
Definition VIRTIO_BLK_T_WRITE_ZEROES : Z := 13.
Definition VIRTIO_BLK_S_OK : Z := 0.
Definition VIRTIO_BLK_S_IOERR : Z := 1.
Definition VIRTIO_BLK_S_UNSUPP : Z := 2.
Definition VIRTIO_BLK_ID_BYTES : Z := 20.

Inductive ParseError :=
| DescriptorChainTooShort
| DescriptorLengthTooSmall
| GuestMemoryFault
| InvalidFlushSector
| UnexpectedReadOnlyDescriptor
| UnexpectedWriteOnlyDescriptor.

Inductive RequestType := In | Out | Flush | GetDeviceID | Discard | WriteZeroes | Unsupported (t : Z).
#[global] Instance RequestType_eq_dec : EqDecision RequestType.
Proof. solve_decision. Defined.

Definition request_type_from (value : Z) : RequestType :=
  if value =? VIRTIO_BLK_T_IN then In
  else if value =? VIRTIO_BLK_T_OUT then Out
  else if value =? VIRTIO_BLK_T_FLUSH then Flush
  else if value =? VIRTIO_BLK_T_GET_ID then GetDeviceID
  else if value =? VIRTIO_BLK_T_DISCARD then Discard
  else if value =? VIRTIO_BLK_T_WRITE_ZEROES then WriteZeroes
  else Unsupported value.

(** [#[repr(C)]]: type, reserved word, sector; little endian. *)
Record RequestHeader := mkHeader { rh_request_type : Z; rh_sector : Z }.
Definition header_of_bytes (bs : list Z) : RequestHeader :=
  mkHeader (from_le (take 4 bs)) (from_le (take 8 (drop 8 bs))).

Record Request := mkRequest {
  request_type : RequestType;
  data : list (Z * Z);
  sector : Z;
  status_addr : Z;
}.

Definition total_data_len (r : Request) : Z := foldr (fun d acc => snd d + acc) 0 (data r).

Section parse.
Context {M : Type} `{GuestMemory M}.

Definition check_status_desc (m : M) (d : Descriptor) : ParseError + unit :=
  if negb (is_write_only d) then inl UnexpectedReadOnlyDescriptor
  else if d_len d <? 1 then inl DescriptorLengthTooSmall
  else if check_address m (d_addr d) then inr tt else inl GuestMemoryFault.

Definition check_data_desc (d : Descriptor) (t : RequestType) : ParseError + unit :=
  if negb (is_write_only d) && bool_decide (t = In) then inl UnexpectedReadOnlyDescriptor else inr tt.

(** The [while desc.has_next()] loop; [rest] is what the iterator still yields. *)
Fixpoint parse_data (t : RequestType) (desc : Descriptor) (rest : list Descriptor) (acc : list (Z * Z))
  : ParseError + (Descriptor * list (Z * Z)) :=
  if has_next desc then
    match check_data_desc desc t with
    | inl e => inl e
    | inr _ =>
        match rest with
        | [] => inl DescriptorChainTooShort
        | d :: rest' => parse_data t d rest' (acc ++ [(d_addr desc, d_len desc)])
        end
    end
  else inr (desc, acc).

Definition parse (m : M) (c : DescChain) : ParseError + Request :=
  match descriptors c with
  | [] => inl DescriptorChainTooShort
  | chain_head :: rest =>
    if is_write_only chain_head then inl UnexpectedWriteOnlyDescriptor else
    let '(ok, bytes) := mem_read m (d_addr chain_head) 16 in
    if negb ok then inl GuestMemoryFault else
    let h := header_of_bytes bytes in
    if (rh_request_type h =? VIRTIO_BLK_T_FLUSH) && negb (rh_sector h =? 0) then inl InvalidFlushSector else
    let t := request_type_from (rh_request_type h) in
    match rest with
    | [] => inl DescriptorChainTooShort
    | desc :: rest =>
      match parse_data t desc rest [] with
      | inl e => inl e
      | inr (status_desc, d) =>
        match check_status_desc m status_desc with
        | inl e => inl e
        | inr _ => inr (mkRequest t d (rh_sector h) (d_addr status_desc))
        end
      end
    end
  end.
End parse.

(** ** The queue's worker *)

Class VirtQueue (V : Type) := {
  pop_chain : V -> option (DescChain * V);
  add_used : nat -> V -> bool * V;
  needs_notification : V -> option bool * V;     (* [None]: the call failed *)
  signal_used_queue : V -> bool * V;
  available : V -> nat;                          (* chains the driver has made available *)
  used_heads : V -> list nat;                    (* heads put on the used ring *)
  head_valid : nat -> bool;
}.

Class VirtQueueLaws (V : Type) `{VirtQueue V} := {
  pop_available v c v' : pop_chain v = Some (c, v') -> (available v' < available v)%nat;
  pop_used v c v' : pop_chain v = Some (c, v') -> used_heads v' = used_heads v;
  pop_valid v c v' : pop_chain v = Some (c, v') -> head_valid (head_index c) = true;
  add_used_ok h v : head_valid h = true -> (add_used h v).1 = true;
  add_used_heads h v : (add_used h v).1 = true -> used_heads (add_used h v).2 = used_heads v ++ [h];
  add_used_available h v : available (add_used h v).2 = available v;
  needs_notification_used v : used_heads (needs_notification v).2 = used_heads v;
  signal_used v : used_heads (signal_used_queue v).2 = used_heads v;
}.

Record RequestSlot := mkSlot {
  slot_used : bool;
  slot_request_type : RequestType;
  slot_request_sector : Z;
  slot_request_len : nat;
  slot_buffer : nat;
  slot_len : nat;
  slot_status_addr : Z;
  slot_desc_chain : option DescChain;
  data_descriptors : list (Z * Z);
}.

Record UbiBlkBackendThread (C : Type) := mkThread {
  event_idx : bool;
  io_channel : C;
  request_slots : list RequestSlot;
  device_id : list Z;
  th_alignment : Z;
  ios_pending_signal : bool;
  io_tracker : IoTracker;
}.
Arguments mkThread {C}.
Arguments event_idx {C}.
Arguments io_channel {C}.
Arguments request_slots {C}.
Arguments device_id {C}.
Arguments th_alignment {C}.
Arguments ios_pending_signal {C}.
Arguments io_tracker {C}.

(** The guest: its memory and its queue. *)
Record Guest (M V : Type) := mkGuest { g_mem : M; g_ring : V }.
Arguments mkGuest {M V}.
Arguments g_mem {M V}.
Arguments g_ring {M V}.

Section thread.
Context {C : Type} `{IoChannel C} {M : Type} `{GuestMemory M} {V : Type} `{VirtQueue V}.
Implicit Types (t : UbiBlkBackendThread C) (g : Guest M V) (w : World).

Definition th_set_channel t x : UbiBlkBackendThread C := mkThread (event_idx t) x (request_slots t) (device_id t) (th_alignment t)
  (ios_pending_signal t) (io_tracker t).
Definition th_set_slots t x : UbiBlkBackendThread C := mkThread (event_idx t) (io_channel t) x (device_id t) (th_alignment t)
  (ios_pending_signal t) (io_tracker t).
Definition th_set_signal t x : UbiBlkBackendThread C := mkThread (event_idx t) (io_channel t) (request_slots t) (device_id t) (th_alignment t)
  x (io_tracker t).
Definition th_set_tracker t x : UbiBlkBackendThread C := mkThread (event_idx t) (io_channel t) (request_slots t) (device_id t) (th_alignment t)
  (ios_pending_signal t) x.

(** [AlignedBuf::new_with_alignment] *)
Definition new_aligned (len : nat) (alignment : Z) w : outcome (nat * World) :=
  if negb (is_power_of_two alignment) then Panic AssertionFailed else Done (alloc_buf len 0 w).

(** The slots of [UbiBlkBackendThread::new]. *)
Fixpoint new_slots (n : nat) (buf_size : nat) (alignment : Z) w : outcome (list RequestSlot * World) :=
  match n with
  | O => Done ([], w)
  | S n' =>
      '(b, w) ← new_aligned buf_size alignment w;
      '(rest, w) ← new_slots n' buf_size alignment w;
      Done (mkSlot false (Unsupported 0) 0 0 b buf_size 0 None [] :: rest, w)
  end.

(** [seg_count_max * seg_size_max] is a [u32] product. *)
Definition thread_new (ch : C) (seg_count_max seg_size_max : Z) (queue_size : nat) (dev_id : list Z)
    (alignment : Z) (tracker : IoTracker) w : outcome (UbiBlkBackendThread C * World) :=
  let buf_size := Z.to_nat (wrap32 (seg_count_max * seg_size_max)) in
  '(slots, w) ← new_slots queue_size buf_size alignment w;
  Done (mkThread false ch slots dev_id alignment false tracker, w).

Definition complete_bad_chain (c : DescChain) g : Guest M V :=
  mkGuest (g_mem g) (add_used (head_index c) (g_ring g)).2.

Definition fill_slot (s : RequestSlot) (len : nat) (r : Request) (c : DescChain) : RequestSlot :=
  mkSlot true (request_type r) (sector r) len (slot_buffer s) (slot_len s) (status_addr r) (Some c) (data r).

(** The first unused slot that is large enough. *)
Fixpoint find_slot (len : nat) (slots : list RequestSlot) (i : nat) : option (nat * RequestSlot) :=
  match slots with
  | [] => None
  | s :: slots' =>
      if bool_decide (len <= slot_len s)%nat && negb (slot_used s) then Some (i, s)
      else find_slot len slots' (S i)
  end.

Definition get_request_slot (len : nat) (r : Request) (c : DescChain) t w
  : outcome (nat * UbiBlkBackendThread C * World) :=
  match find_slot len (request_slots t) 0 with
  | Some (i, s) => Done (i, th_set_slots t (<[i := fill_slot s len r c]> (request_slots t)), w)
  | None =>
      '(b, w) ← new_aligned len (th_alignment t) w;
      let s := mkSlot true (request_type r) (sector r) len b len (status_addr r) (Some c) (data r) in
      Done (length (request_slots t), th_set_slots t (request_slots t ++ [s]), w)
  end.

Definition put_request_slot (idx : nat) t : outcome (UbiBlkBackendThread C) :=
  s ← index (request_slots t) idx;
  let s := mkSlot false (slot_request_type s) (slot_request_sector s) (slot_request_len s) (slot_buffer s)
             (slot_len s) (slot_status_addr s) (slot_desc_chain s) (data_descriptors s) in
  Done (th_set_tracker (th_set_slots t (<[idx := s]> (request_slots t))) (tracker_clear idx (io_tracker t))).

Definition complete_io (c : DescChain) (addr status : Z) t g : UbiBlkBackendThread C * Guest M V :=
  let t := th_set_signal t true in
  let '(ok, m) := mem_write (g_mem g) addr [status] in
  if negb ok then (t, mkGuest m (g_ring g))
  else (t, mkGuest m (add_used (head_index c) (g_ring g)).2).

(** [write_to_guest]: the buffer of a finished read, descriptor by descriptor. *)
Fixpoint copy_to_guest (ds : list (Z * Z)) (buf : list Z) (pos : nat) (m : M) : outcome (bool * M) :=
  match ds with
  | [] => Done (true, m)
  | (addr, len) :: ds' =>
      chunk ← slice buf pos (Z.to_nat len);
      let '(ok, m) := mem_write m addr chunk in
      if negb ok then Done (false, m) else copy_to_guest ds' buf (pos + Z.to_nat len) m
  end.

Definition write_to_guest (s : RequestSlot) g w : outcome (bool * Guest M V) :=
  match slot_desc_chain s with
  | None => Done (false, g)
  | Some _ =>
      '(ok, m) ← copy_to_guest (data_descriptors s) (read_buf w (slot_buffer s)) 0 (g_mem g);
      Done (ok, mkGuest m (g_ring g))
  end.

(** One completion of [poll_io]. *)
Definition finish_io (r : nat * bool) (s : UbiBlkBackendThread C * Guest M V * World)
  : outcome (UbiBlkBackendThread C * Guest M V * World) :=
  let '(request_id, success) := r in let '(t, g, w) := s in
  req ← index (request_slots t) request_id;
  match slot_desc_chain req with
  | None => Done (t, g, w)
  | Some c =>
      '(copied, g) ← (if bool_decide (slot_request_type req = In) && success
                      then write_to_guest req g w else Done (true, g));
      let status := if (success : bool) && copied then VIRTIO_BLK_S_OK else VIRTIO_BLK_S_IOERR in
      let '(t, g) := complete_io c (slot_status_addr req) status t g in
      t ← put_request_slot request_id t;
      Done (t, g, w)
  end.

Definition poll_io t g w : outcome (UbiBlkBackendThread C * Guest M V * World) :=
  '(rs, ch, w) ← poll (io_channel t) w;
  for_each finish_io rs (th_set_channel t ch, g, w).

(** The lengths are summed as [u32]s. *)
Definition request_len (r : Request) : nat :=
  Z.to_nat (foldl (fun acc d => wrap32 (acc + snd d)) 0 (data r)).

Definition sectors_of (len : nat) : Z := Z.of_nat (len `div` SECTOR_SIZE).

Definition process_read (r : Request) (c : DescChain) t g w
  : outcome (UbiBlkBackendThread C * Guest M V * World) :=
  let len := request_len r in
  if negb (bool_decide (len `mod` SECTOR_SIZE = 0)%nat) then
    let '(t, g) := complete_io c (status_addr r) VIRTIO_BLK_S_IOERR t g in Done (t, g, w)
  else
  '(id, t, w) ← get_request_slot len r c t w;
  slot ← index (request_slots t) id;
  '(ch, w) ← add_read (sector r) (sectors_of len) (slot_buffer slot) id (io_channel t) w;
  let t := th_set_channel t ch in
  Done (th_set_tracker t (tracker_add_read id (sector r) (sectors_of len) (io_tracker t)), g, w).

(** The loop of [process_write] over the data descriptors. *)
Fixpoint copy_from_guest (ds : list (Z * Z)) (b : nat) (pos : nat) (failed : bool) (m : M) w
  : outcome (bool * World) :=
  match ds with
  | [] => Done (failed, w)
  | (addr, len) :: ds' =>
      let buf := read_buf w b in
      dst ← slice buf pos (Z.to_nat len);
      let '(ok, bytes) := mem_read m addr (Z.to_nat len) in
      let w := write_buf w b (splice buf pos (bytes ++ drop (length bytes) dst)) in
      copy_from_guest ds' b (pos + Z.to_nat len) (failed || negb ok) m w
  end.

Definition process_write (r : Request) (c : DescChain) t g w
  : outcome (UbiBlkBackendThread C * Guest M V * World) :=
  let len := request_len r in
  if negb (bool_decide (len `mod` SECTOR_SIZE = 0)%nat) then
    let '(t, g) := complete_io c (status_addr r) VIRTIO_BLK_S_IOERR t g in Done (t, g, w)
  else
  '(id, t, w) ← get_request_slot len r c t w;
  slot ← index (request_slots t) id;
  '(failed, w) ← copy_from_guest (data r) (slot_buffer slot) 0 false (g_mem g) w;
  if failed : bool then
    let '(t, g) := complete_io c (status_addr r) VIRTIO_BLK_S_IOERR t g in
    t ← put_request_slot id t;
    Done (t, g, w)
  else
  '(ch, w) ← add_write (sector r) (sectors_of len) (slot_buffer slot) id (io_channel t) w;
  let t := th_set_channel t ch in
  Done (th_set_tracker t (tracker_add_write id (sector r) (sectors_of len) (io_tracker t)), g, w).

Definition process_flush (r : Request) (c : DescChain) t g w
  : outcome (UbiBlkBackendThread C * Guest M V * World) :=
  '(id, t, w) ← get_request_slot 0 r c t w;
  '(ch, w) ← add_flush id (io_channel t) w;
  let t := th_set_channel t ch in
  Done (th_set_tracker t (tracker_add_flush id (io_tracker t)), g, w).

Definition process_get_device_id (r : Request) (c : DescChain) t g w
  : outcome (UbiBlkBackendThread C * Guest M V * World) :=
  '(data_addr, data_len) ← index (data r) 0;
  if data_len <? VIRTIO_BLK_ID_BYTES then
    let '(t, g) := complete_io c (status_addr r) VIRTIO_BLK_S_IOERR t g in Done (t, g, w)
  else
  let id_bytes := Z.to_nat VIRTIO_BLK_ID_BYTES in
  let buf := take id_bytes (device_id t) ++ replicate (id_bytes - length (device_id t)) 0 in
  let '(ok, m) := mem_write (g_mem g) data_addr buf in
  let g := mkGuest m (g_ring g) in
  let status := if negb ok then VIRTIO_BLK_S_IOERR else VIRTIO_BLK_S_OK in
  let '(t, g) := complete_io c (status_addr r) status t g in
  Done (t, g, w).

(** The body of the loop of [process_queue] on one chain. *)
Definition process_chain (c : DescChain) (s : UbiBlkBackendThread C * Guest M V * World)
  : outcome (UbiBlkBackendThread C * Guest M V * World) :=
  let '(t, g, w) := s in
  match parse (g_mem g) c with
  | inr r =>
      match request_type r with
      | In => process_read r c t g w
      | Out => process_write r c t g w
      | Flush => process_flush r c t g w
      | GetDeviceID => process_get_device_id r c t g w
      | _ => let '(t, g) := complete_io c (status_addr r) VIRTIO_BLK_S_UNSUPP t g in Done (t, g, w)
      end
  | inl _ => Done (t, complete_bad_chain c g, w)
  end.

(** The [while let Some(..) = pop_descriptor_chain(..)] loop, with the chains
    it popped. *)
Fixpoint process_chains (fuel : nat) (t : UbiBlkBackendThread C) (g : Guest M V) (w : World) (popped : list DescChain)
  : outcome (list DescChain * UbiBlkBackendThread C * Guest M V * World) :=
  match fuel with
  | O => Panic OutOfFuel
  | S fuel' =>
      match pop_chain (g_ring g) with
      | None => Done (popped, t, g, w)
      | Some (c, v) =>
          '(t, g, w) ← process_chain c (t, mkGuest (g_mem g) v, w);
          process_chains fuel' t g w (popped ++ [c])
      end
  end.

Definition needs_signalling t g : bool * Guest M V :=
  if ios_pending_signal t then
    if event_idx t then
      let '(r, v) := needs_notification (g_ring g) in
      (match r with Some need => need | None => true end, mkGuest (g_mem g) v)
    else (true, g)
  else (false, g).

(** [process_queue]: the popped chains and [busy]. *)
Definition process_queue t g w
  : outcome (list DescChain * bool * UbiBlkBackendThread C * Guest M V * World) :=
  '(popped, t, g, w) ← process_chains (S (available (g_ring g))) t g w [];
  '(_, ch, w) ← submit (io_channel t) w;
  '(t, g, w) ← poll_io (th_set_channel t ch) g w;
  let is_busy := negb (bool_decide (popped = [])) || busy (io_channel t) in
  let '(signal, g) := needs_signalling t g in
  if signal : bool then
    let g := mkGuest (g_mem g) (signal_used_queue (g_ring g)).2 in
    Done (popped, is_busy, th_set_signal t false, g, w)
  else Done (popped, is_busy, t, g, w).
End thread.

(** ** What [parse] accepts *)

Definition desc_span (d : Descriptor) : Z * Z := (d_addr d, d_len d).

(** The data descriptors are those up to the first one without a successor. *)
Lemma parse_data_spec t desc rest acc st ds :
  parse_data t desc rest acc = inr (st, ds) <->
  exists datas rest', desc :: rest = datas ++ st :: rest' /\ Forall (fun d => has_next d = true) datas /\
    has_next st = false /\ (t = In -> Forall (fun d => is_write_only d = true) datas) /\
    ds = acc ++ map desc_span datas.
Proof.
  revert desc acc. induction rest as [|d rest IH]; intros desc acc; cbn [parse_data].
  - split.
    + destruct (has_next desc) eqn:Hn; [by destruct (check_data_desc desc t)|]. intros [= -> ->].
      exists [], []. split_and!; try done. cbn. by rewrite app_nil_r.
    + intros ([|x datas] & rest' & E & Hall & Hst & Hw & ->); cbn in E; simplify_eq/=.
      * by rewrite Hst, app_nil_r.
      * by destruct datas.
  - destruct (has_next desc) eqn:Hn.
    + unfold check_data_desc. destruct (negb _ && _) eqn:Ec.
      { apply andb_true_iff in Ec as [Ew%negb_true_iff Et%bool_decide_eq_true]. split; [done|].
        intros ([|x datas] & rest' & E & Hall & Hst & Hw & ->); cbn in E; simplify_eq/=; [congruence|].
        specialize (Hw eq_refl). apply Forall_cons in Hw as [Hw _]. congruence. }
      rewrite IH. split.
      * intros (datas & rest' & E & Hall & Hst & Hw & ->). exists (desc :: datas), rest'.
        rewrite E. split_and!; try done; [by constructor| |cbn; by rewrite <- app_assoc].
        intros ->. constructor; [|by apply Hw]. rewrite bool_decide_eq_true_2, andb_true_r in Ec by done.
        by apply negb_false_iff in Ec.
      * intros ([|x datas] & rest' & E & Hall & Hst & Hw & ->); cbn in E; simplify_eq/=; [congruence|].
        exists datas, rest'. apply Forall_cons in Hall as [_ Hall]. split_and!; try done; [|by rewrite <- app_assoc].
        intros Ht. specialize (Hw Ht). by apply Forall_cons in Hw as [_ Hw].
    + split.
      * intros [= -> ->]. exists [], (d :: rest). split_and!; try done. cbn. by rewrite app_nil_r.
      * intros ([|x datas] & rest' & E & Hall & Hst & Hw & ->); cbn in E; simplify_eq/=.
        -- by rewrite app_nil_r.
        -- apply Forall_cons in Hall as [Hx _]. congruence.
Qed.

Lemma check_status_desc_ok {M} `{GuestMemory M} (m : M) d :
  (exists u, check_status_desc m d = inr u) <->
  is_write_only d = true /\ 1 <= d_len d /\ check_address m (d_addr d) = true.
Proof.
  unfold check_status_desc. destruct (is_write_only d); cbn; [|split; [by intros [? ?]|by intros (? & _)]].
  destruct (d_len d <? 1) eqn:E; [split; [by intros [? ?]|intros (_ & ? & _); lia]|].
  destruct (check_address m (d_addr d)); split; try (by intros [? ?]); try (by intros (_ & _ & ?)); [|by eexists].
  intros _. split_and!; [done|lia|done].
Qed.

(** C29: [parse] accepts exactly the chains the virtio specification describes,
    and reads the request off them: a device-readable header of 16 readable
    bytes, data descriptors (all device-writable when the request is a read),
    and a final device-writable status byte at a valid address; the sector of a
    flush must be 0. *)
Theorem parse_spec {M} `{GuestMemory M} (m : M) c r :
  parse m c = inr r <->
  exists head datas st rest bytes,
    descriptors c = head :: datas ++ st :: rest /\
    is_write_only head = false /\ mem_read m (d_addr head) 16 = (true, bytes) /\
    Forall (fun d => has_next d = true) datas /\ has_next st = false /\
    (request_type r = In -> Forall (fun d => is_write_only d = true) datas) /\
    is_write_only st = true /\ 1 <= d_len st /\ check_address m (d_addr st) = true /\
    (request_type r = Flush -> sector r = 0) /\
    r = mkRequest (request_type_from (from_le (take 4 bytes))) (map desc_span datas)
          (from_le (take 8 (drop 8 bytes))) (d_addr st).
Proof.
  assert (forall v, request_type_from v = Flush <-> v = VIRTIO_BLK_T_FLUSH) as Hflush.
  { intros v. unfold request_type_from. split; [|by intros ->].
    destruct (v =? VIRTIO_BLK_T_IN); [done|]. destruct (v =? VIRTIO_BLK_T_OUT); [done|].
    destruct (v =? VIRTIO_BLK_T_FLUSH) eqn:E; [by intros _; apply Z.eqb_eq in E|]. by repeat case_match. }
  unfold parse. split.
  - destruct (descriptors c) as [|head rest] eqn:Ed; [done|]. destruct (is_write_only head) eqn:Eh; [done|].
    destruct (mem_read m (d_addr head) 16) as [[] bytes] eqn:Er; [|done]. cbn [negb].
    destruct (_ && _) eqn:Ef; [done|]. destruct rest as [|desc rest]; [done|].
    destruct (parse_data _ desc rest []) as [|[st ds]] eqn:Ep; [done|].
    destruct (check_status_desc m st) as [|u] eqn:Es; [done|]. intros [= <-].
    apply parse_data_spec in Ep as (datas & rest' & -> & Hall & Hst & Hw & ->).
    destruct (proj1 (check_status_desc_ok m st) ltac:(eauto)) as (? & ? & ?).
    exists head, datas, st, rest', bytes. split_and!; try done. cbn. intros Ht%Hflush. cbn in Ef.
    rewrite Ht in Ef. cbn in Ef. by apply negb_false_iff, Z.eqb_eq in Ef.
  - intros (head & datas & st & rest & bytes & -> & -> & -> & Hall & Hst & Hw & Hsw & Hsl & Hsa & Hf & ->). cbn [negb].
    cbn [request_type sector] in *.
    assert ((rh_request_type (header_of_bytes bytes) =? VIRTIO_BLK_T_FLUSH) && negb (rh_sector (header_of_bytes bytes) =? 0) = false) as ->.
    { apply andb_false_iff. cbn. destruct (_ =? VIRTIO_BLK_T_FLUSH) eqn:E; [right|by left].
      apply Z.eqb_eq, Hflush, Hf in E. by rewrite E. }
    destruct (datas ++ st :: rest) as [|desc rest'] eqn:El; [by destruct datas|].
    assert (parse_data (request_type_from (rh_request_type (header_of_bytes bytes))) desc rest' [] = inr (st, map desc_span datas)) as ->.
    { apply parse_data_spec. exists datas, rest. by rewrite El. }
    destruct (proj2 (check_status_desc_ok m st) ltac:(done)) as [u ->]. done.
Qed.

(** ** Accounting for descriptor chains *)

(** The bytes the data descriptors span. *)
Definition data_len (ds : list (Z * Z)) : nat := sum_list_with (fun d => Z.to_nat (snd d)) ds.

(** A chain whose data fits 32 bits: the sum of [request_len] does not wrap. *)
Definition data_ok (ds : list (Z * Z)) : Prop :=
  Forall (fun d => 0 <= snd d) ds /\ Z.of_nat (data_len ds) <= U32_MAX.

Lemma request_len_exact r : data_ok (data r) -> request_len r = data_len (data r).
Proof.
  intros [Hp Hl]. unfold request_len.
  assert (forall ds acc, Forall (fun d => 0 <= snd d) ds -> 0 <= acc -> acc + Z.of_nat (data_len ds) <= U32_MAX ->
    foldl (fun a (d : Z * Z) => wrap32 (a + d.2)) acc ds = acc + Z.of_nat (data_len ds)) as Hg.
  { unfold data_len. induction ds as [|d ds IH]; intros acc Hall Ha Hs; cbn; [lia|]. cbn in Hs. apply Forall_cons in Hall as [Hd Hall].
    unfold wrap32, U32_MAX in *. rewrite Z.mod_small by lia. rewrite IH by (done || lia). lia. }
  rewrite Hg by (done || lia). lia.
Qed.

(** The requests in flight: the slot and the head of the chain it holds. *)
Definition flight (k : nat) (s : RequestSlot) : list (nat * nat) :=
  if slot_used s then match slot_desc_chain s with Some c => [(k, head_index c)] | None => [] end else [].

Fixpoint flights_from (k : nat) (slots : list RequestSlot) : list (nat * nat) :=
  match slots with [] => [] | s :: slots' => flight k s ++ flights_from (S k) slots' end.

Definition flights (slots : list RequestSlot) : list (nat * nat) := flights_from 0 slots.

Lemma flights_insert slots i s s' :
  slots !! i = Some s -> flight i s ++ flights (<[i := s']> slots) ≡ₚ flight i s' ++ flights slots.
Proof.
  unfold flights. change i with (0 + i)%nat at 2 4. generalize 0%nat as k. revert i.
  induction slots as [|x slots IH]; intros [|i] k E; cbn in E; simplify_eq; cbn [flights_from insert list_insert].
  - rewrite Nat.add_0_r. cbn. solve_Permutation.
  - rewrite !(Permutation_app_swap_app (flight (k + S i) _)).
    replace (k + S i)%nat with (S k + i)%nat by lia. by rewrite (IH i (S k) E).
Qed.

Lemma flights_app slots s : flights (slots ++ [s]) ≡ₚ flight (length slots) s ++ flights slots.
Proof.
  unfold flights. change (length slots) with (0 + length slots)%nat. generalize 0%nat as k.
  induction slots as [|x slots IH]; intros k; cbn [flights_from app length].
  - by rewrite Nat.add_0_r.
  - rewrite (IH (S k)). replace (S k + length slots)%nat with (k + S (length slots))%nat by lia.
    by rewrite Permutation_app_swap_app.
Qed.

Lemma flights_lookup slots id h :
  (id, h) ∈ flights slots -> exists s c, slots !! id = Some s /\ slot_used s = true /\
    slot_desc_chain s = Some c /\ head_index c = h.
Proof.
  unfold flights. assert (forall k, (id, h) ∈ flights_from k slots ->
    exists i s c, id = (k + i)%nat /\ slots !! i = Some s /\ slot_used s = true /\ slot_desc_chain s = Some c /\ head_index c = h) as Hg.
  { induction slots as [|x slots IH]; intros k; cbn [flights_from]; [by intros ?%elem_of_nil|].
    intros [Hx|Hx]%elem_of_app.
    - unfold flight in Hx. destruct (slot_used x) eqn:Eu; [|by apply elem_of_nil in Hx].
      destruct (slot_desc_chain x) as [c|] eqn:Ec; [|by apply elem_of_nil in Hx].
      apply list_elem_of_singleton in Hx as [= -> ->]. exists 0%nat, x, c. by rewrite Nat.add_0_r.
    - destruct (IH (S k) Hx) as (i & s & c & -> & ?). exists (S i), s, c. split; [lia|done]. }
  intros Hin. destruct (Hg 0%nat Hin) as (i & s & c & -> & ?). eauto.
Qed.

Section accounting.
#[local] Set Default Proof Using "Type*".
Context {C : Type} `{ChannelServes C} `{!ChannelContract C}.
Context {M : Type} `{GuestMemoryLaws M} {V : Type} `{VirtQueueLaws V}.
Implicit Types (t : UbiBlkBackendThread C) (g : Guest M V) (w : World).

Record slot_ok (m : M) w (s : RequestSlot) : Prop := {
  so_buf : slot_buffer s ∈ dom (w_bufs w);
  so_len : (slot_len s <= length (read_buf w (slot_buffer s)))%nat;
  so_chain : slot_used s = true -> exists c, slot_desc_chain s = Some c /\ head_valid (head_index c) = true;
  so_status : slot_used s = true -> check_address m (slot_status_addr s) = true;
  so_data : slot_used s = true -> slot_request_type s = In -> (data_len (data_descriptors s) <= slot_len s)%nat;
}.

(** [extra]: slots taken for requests the channel does not hold (yet, or any
    more); [due]: chains popped and not yet in a slot or on the used ring;
    [popped]: the heads of all chains popped so far. *)
Record thread_inv (extra due popped : list nat) t g w : Prop := {
  vi_chan : cs_inv (io_channel t) w;
  vi_align : is_power_of_two (th_alignment t) = true;
  vi_fresh : fresh_world w;
  vi_slots : Forall (slot_ok (g_mem g) w) (request_slots t);
  vi_out : extra ++ outstanding (io_channel t) ≡ₚ (flights (request_slots t)).*1;
  vi_heads : popped ≡ₚ due ++ used_heads (g_ring g) ++ (flights (request_slots t)).*2;
}.

Lemma slot_ok_stable m w w' s : stable w w' -> slot_ok m w s -> slot_ok m w' s.
Proof.
  intros (Hb & _) [S1 S2 S3 S4 S5]. destruct (Hb _ S1) as (? & _ & Hl). split; try done. by rewrite Hl.
Qed.

Lemma thread_inv_evolves e d p t g w w' : evolves w w' -> thread_inv e d p t g w -> thread_inv e d p t g w'.
Proof.
  intros [Hs Hf] [I1 I2 I3 I4 I5 I6]. split; try done.
  - by apply (cs_inv_stable _ w).
  - auto.
  - eapply Forall_impl; [exact I4|]. intros s. by apply slot_ok_stable.
Qed.

Lemma thread_inv_mem e d p t g w m :
  (forall a, check_address m a = check_address (g_mem g) a) ->
  thread_inv e d p t g w -> thread_inv e d p t (mkGuest m (g_ring g)) w.
Proof.
  intros Hm [I1 I2 I3 I4 I5 I6]. split; try done. eapply Forall_impl; [exact I4|].
  intros s [S1 S2 S3 S4 S5]. split; try done. cbn. by rewrite Hm.
Qed.

(** Status byte and used ring entry: the chain is no longer due. *)
Lemma complete_io_inv e d p t g w c addr st :
  thread_inv e (head_index c :: d) p t g w ->
  check_address (g_mem g) addr = true -> head_valid (head_index c) = true ->
  thread_inv e d p (complete_io c addr st t g).1 (complete_io c addr st t g).2 w /\
  (forall a, check_address (g_mem (complete_io c addr st t g).2) a = check_address (g_mem g) a) /\
  request_slots (complete_io c addr st t g).1 = request_slots t /\
  io_channel (complete_io c addr st t g).1 = io_channel t.
Proof.
  intros Hi Ha Hv. unfold complete_io. pose proof (mem_write_byte (g_mem g) addr st Ha) as Hw.
  pose proof (mem_write_keeps (g_mem g) addr [st]) as Hk.
  destruct (mem_write (g_mem g) addr [st]) as [ok m]. cbn in Hw, Hk. subst ok. cbn [negb fst snd].
  split_and!; try done.
  pose proof (thread_inv_mem _ _ _ _ _ _ m Hk Hi) as [I1 I2 I3 I4 I5 I6]. split; try done. cbn in *.
  rewrite I6, add_used_heads by (by apply add_used_ok). cbn.
  rewrite <- app_assoc. cbn. rewrite <- !Permutation_middle. done.
Qed.

Lemma find_slot_spec len slots k i s :
  find_slot len slots k = Some (i, s) ->
  exists j, i = (k + j)%nat /\ slots !! j = Some s /\ slot_used s = false /\ (len <= slot_len s)%nat.
Proof.
  revert k. induction slots as [|x slots IH]; intros k; cbn [find_slot]; [done|].
  destruct (_ && _) eqn:E.
  - intros [= <- <-]. apply andb_true_iff in E as [El%bool_decide_eq_true Eu%negb_true_iff].
    exists 0%nat. split_and!; [lia|done..].
  - intros (j & -> & ?)%IH. exists (S j). split; [lia|done].
Qed.

(** Taking a slot for a due chain. *)
Lemma get_request_slot_inv e d p t g w len r c :
  thread_inv e (head_index c :: d) p t g w ->
  head_valid (head_index c) = true -> check_address (g_mem g) (status_addr r) = true ->
  (request_type r = In -> (data_len (data r) <= len)%nat) ->
  exists id t' w' s, get_request_slot len r c t w = Done (id, t', w') /\ evolves w w' /\
    thread_inv (id :: e) d p t' g w' /\ request_slots t' !! id = Some s /\
    (len <= slot_len s)%nat /\ slot_status_addr s = status_addr r /\ slot_desc_chain s = Some c /\ slot_used s = true /\
    io_channel t' = io_channel t.
Proof.
  intros Hi Hv Ha Hd. unfold get_request_slot.
  destruct (find_slot len (request_slots t) 0) as [[i s]|] eqn:Ef.
  - destruct (find_slot_spec _ _ _ _ _ Ef) as (j & -> & Hj & Hu & Hl). cbn.
    eexists (0 + j)%nat, _, w, (fill_slot s len r c).
    split_and!; try done; [|by apply list_lookup_insert_eq, (lookup_lt_Some _ _ _ Hj)].
    destruct Hi as [I1 I2 I3 I4 I5 I6]. pose proof (Forall_lookup_1 _ _ _ _ I4 Hj) as [S1 S2 S3 S4 S5].
    pose proof (flights_insert _ _ _ (fill_slot s len r c) Hj) as Hp.
    unfold flight in Hp. rewrite Hu in Hp. cbn in Hp.
    split; cbn; try done.
    + apply Forall_insert; [done|]. split; cbn; try done; [eauto|]. intros _ Ht. etrans; [by apply Hd|done].
    + rewrite Hp. cbn. by rewrite I5.
    + rewrite Hp. cbn. rewrite I6. cbn. by rewrite <- !Permutation_middle.
  - unfold new_aligned. rewrite (vi_align _ _ _ _ _ _ Hi). cbn [negb mbind outcome_bind].
    destruct (alloc_buf len 0 w) as [b w'] eqn:Eb. cbn [mbind outcome_bind].
    pose proof (frame_evolves _ _ (alloc_frame len 0 w (vi_fresh _ _ _ _ _ _ Hi))) as Hf. rewrite Eb in Hf. cbn in Hf.
    pose proof (read_buf_alloc len 0 w) as Hrb. rewrite Eb in Hrb. cbn in Hrb.
    do 4 eexists. split_and!; [reflexivity|done| |by apply list_lookup_middle|cbn; try done..].
    apply (thread_inv_evolves _ _ _ _ _ _ w' Hf) in Hi as [I1 I2 I3 I4 I5 I6].
    set (s := mkSlot _ _ _ _ _ _ _ _ _). pose proof (flights_app (request_slots t) s) as Hp. cbn in Hp.
    split; cbn; try done.
    + apply Forall_app; split; [done|]. constructor; [|done]. split; cbn; try done; [|by rewrite Hrb, length_replicate|by eauto].
      injection Eb as <- <-. cbn. rewrite dom_insert. set_solver.
    + rewrite Hp. cbn. by rewrite I5.
    + rewrite Hp. cbn. rewrite I6. cbn. by rewrite <- !Permutation_middle.
Qed.

(** The channel accepted the request of slot [id]. *)
Lemma channel_took_inv e d p t g w w' id ch tr :
  thread_inv (id :: e) d p t g w -> evolves w w' -> cs_inv ch w' ->
  outstanding ch ≡ₚ id :: outstanding (io_channel t) ->
  thread_inv e d p (th_set_tracker (th_set_channel t ch) tr) g w'.
Proof.
  intros Hi Hf Hc Ho. apply (thread_inv_evolves _ _ _ _ _ _ w' Hf) in Hi as [I1 I2 I3 I4 I5 I6].
  split; cbn; try done. rewrite Ho, <- I5. cbn. by rewrite <- Permutation_middle.
Qed.

(** The end of a request: status, used ring, slot released. *)
Lemma finish_slot_inv e d p t g w id s c st :
  thread_inv (id :: e) d p t g w -> request_slots t !! id = Some s ->
  slot_used s = true -> slot_desc_chain s = Some c ->
  exists t', put_request_slot id (complete_io c (slot_status_addr s) st t g).1 = Done t' /\
    thread_inv e d p t' (complete_io c (slot_status_addr s) st t g).2 w /\ io_channel t' = io_channel t.
Proof.
  intros Hi Hs Hu Hc. pose proof (Forall_lookup_1 _ _ _ _ (vi_slots _ _ _ _ _ _ Hi) Hs) as [S1 S2 S3 S4 S5].
  destruct (S3 Hu) as (c' & Hc' & Hv). rewrite Hc in Hc'. injection Hc' as <-.
  set (s' := mkSlot false (slot_request_type s) (slot_request_sector s) (slot_request_len s) (slot_buffer s)
             (slot_len s) (slot_status_addr s) (slot_desc_chain s) (data_descriptors s)).
  set (t1 := th_set_tracker (th_set_slots t (<[id := s']> (request_slots t))) (tracker_clear id (io_tracker t))).
  assert (thread_inv e (head_index c :: d) p t1 g w) as Hi1.
  { destruct Hi as [I1 I2 I3 I4 I5 I6]. pose proof (flights_insert _ _ _ s' Hs) as Hp.
    unfold flight in Hp. rewrite Hu, Hc in Hp. cbn in Hp. split; cbn; try done.
    - apply Forall_insert; [done|]. by split.
    - rewrite <- Hp in I5. cbn in I5. by apply Permutation_cons_inv in I5.
    - rewrite I6, <- Hp. cbn. by rewrite <- !Permutation_middle. }
  destruct (complete_io_inv _ _ _ _ _ _ _ _ st Hi1 (S4 Hu) Hv) as (Hi2 & _ & Hsl & Hch).
  unfold put_request_slot. destruct (complete_io c (slot_status_addr s) st t g) as [t2 g2] eqn:E.
  assert (complete_io c (slot_status_addr s) st t1 g
    = (th_set_tracker (th_set_slots t2 (<[id := s']> (request_slots t2))) (tracker_clear id (io_tracker t2)), g2)) as E1.
  { unfold complete_io in *. destruct (mem_write _ _ _) as [ok m]. destruct (negb ok); injection E as <- <-; done. }
  assert (request_slots t2 = request_slots t /\ io_channel t2 = io_channel t) as [Et2 Ec2].
  { unfold complete_io in E. destruct (mem_write _ _ _) as [ok m]. destruct (negb ok); injection E as <- <-; done. }
  cbn [fst snd]. rewrite Et2, (index_done _ _ _ Hs). cbn [mbind outcome_bind].
  rewrite E1 in Hi2. cbn [fst snd] in Hi2. fold s'. rewrite Et2 in Hi2. eexists; split_and!; [done|exact Hi2|done].
Qed.

(** *** Copying between guest memory and buffers *)

Lemma copy_to_guest_total ds buf pos m :
  (pos + data_len ds <= length buf)%nat ->
  exists ok m', copy_to_guest ds buf pos m = Done (ok, m') /\ forall a, check_address m' a = check_address m a.
Proof.
  revert pos m. unfold data_len. induction ds as [|[addr len] ds IH]; intros pos m Hl; cbn [copy_to_guest].
  { by do 2 eexists. }
  cbn in Hl. rewrite slice_done by lia. cbn [mbind outcome_bind]. set (bs := take _ _).
  pose proof (mem_write_keeps m addr bs) as Hk. destruct (mem_write m addr bs) as [ok m1]. cbn in Hk.
  destruct ok; cbn [negb]; [|by do 2 eexists].
  destruct (IH (pos + Z.to_nat len)%nat m1 ltac:(lia)) as (ok & m' & -> & Hm). do 2 eexists; split; [done|].
  intros a. by rewrite Hm.
Qed.

Lemma copy_from_guest_total ds b pos failed m w :
  b ∈ dom (w_bufs w) -> (pos + data_len ds <= length (read_buf w b))%nat ->
  exists f w', copy_from_guest ds b pos failed m w = Done (f, w') /\ frame w w'.
Proof.
  revert pos failed w. unfold data_len. induction ds as [|[addr len] ds IH]; intros pos failed w Hb Hl; cbn [copy_from_guest].
  { by do 2 eexists. }
  cbn in Hl. rewrite slice_done by lia. cbn [mbind outcome_bind].
  destruct (mem_read m addr (Z.to_nat len)) as [ok bytes] eqn:Er.
  destruct (mem_read_length _ _ _ _ _ Er) as [Hlb _]. set (src := bytes ++ _).
  assert (length src = Z.to_nat len) as Hs by (unfold src; rewrite length_app, length_drop, length_take, length_drop; lia).
  assert (frame w (write_buf w b (splice (read_buf w b) pos src))) as Hf
    by (apply write_buf_frame; [done|apply length_splice; lia]).
  destruct (IH (pos + Z.to_nat len)%nat (failed || negb ok) (write_buf w b (splice (read_buf w b) pos src)))
    as (f & w' & -> & Hf').
  { by apply Hf. }
  { rewrite read_write_buf_eq, length_splice; lia. }
  do 2 eexists; split; [done|]. by etrans.
Qed.

(** *** One chain *)

(** What the worker relies on when it takes request [r]: the lengths of the
    data descriptors add up within 32 bits, an id request has a buffer, and the
    channel takes reads and writes of these sectors. *)
Record request_ok w (r : Request) : Prop := {
  rq_data : data_ok (data r);
  rq_id : request_type r = GetDeviceID -> data r <> [];
  rq_range : request_type r = In \/ request_type r = Out -> (request_len r `mod` SECTOR_SIZE = 0)%nat ->
    accepts C w (sector r) (sectors_of (request_len r));
}.

Lemma complete_io_available c addr st t g :
  available (g_ring (complete_io c addr st t g).2) = available (g_ring g).
Proof.
  unfold complete_io. destruct (mem_write _ _ _) as [ok m]. destruct (negb ok); cbn; [done|apply add_used_available].
Qed.

(** The outcome of handling a chain: everything is accounted for. *)
Definition settled (p : list nat) g (o : outcome (UbiBlkBackendThread C * Guest M V * World)) : Prop :=
  exists t' g' w', o = Done (t', g', w') /\ thread_inv [] [] p t' g' w' /\
    available (g_ring g') = available (g_ring g).

Lemma complete_io_settled p t g w c addr st :
  thread_inv [] [head_index c] p t g w ->
  check_address (g_mem g) addr = true -> head_valid (head_index c) = true ->
  settled p g (let '(t, g) := complete_io c addr st t g in Done (t, g, w)).
Proof.
  intros Hi Ha Hv. destruct (complete_io_inv _ _ _ _ _ _ _ _ st Hi Ha Hv) as (Hi' & _).
  pose proof (complete_io_available c addr st t g) as Hav.
  destruct (complete_io c addr st t g) as [t' g']. by exists t', g', w.
Qed.

Lemma slot_holds m w s len : slot_ok m w s -> (len <= slot_len s)%nat -> holds w (slot_buffer s) (sectors_of len).
Proof.
  intros [S1 S2 _ _ _] Hl. split; [done|]. unfold sectors_of. rewrite Nat2Z.id.
  pose proof (Nat.Div0.mul_div_le len SECTOR_SIZE). lia.
Qed.

Lemma process_read_settled p t g w r c :
  thread_inv [] [head_index c] p t g w -> head_valid (head_index c) = true ->
  check_address (g_mem g) (status_addr r) = true -> request_ok w r -> request_type r = In ->
  settled p g (process_read r c t g w).
Proof.
  intros Hi Hv Ha [Hd _ Hrg] Ht. unfold process_read. case_bool_decide as Hm; cbn [negb]; [|by apply complete_io_settled].
  specialize (Hrg (or_introl Ht) Hm).
  destruct (get_request_slot_inv _ _ _ _ _ _ (request_len r) r c Hi Hv Ha) as
    (id & t1 & w1 & s & -> & Hf & Hi1 & Hs & Hl & _ & _ & _ & Hch); [by intros _; rewrite request_len_exact|].
  cbn [mbind outcome_bind]. rewrite (index_done _ _ _ Hs). cbn [mbind outcome_bind].
  pose proof (Forall_lookup_1 _ _ _ _ (vi_slots _ _ _ _ _ _ Hi1) Hs) as Hok.
  destruct (serves_read (sector r) (sectors_of (request_len r)) (slot_buffer s) id (io_channel t1) w1)
    as (ch & w2 & E & Hf2 & Hc2); [apply Hi1|by apply (slot_holds (g_mem g))|by apply (accepts_stable w); [apply Hf|]|]. rewrite E. cbn [mbind outcome_bind].
  do 3 eexists; split_and!; [done| |done]. eapply channel_took_inv; [exact Hi1|done..|].
  by apply (add_read_out _ _ _ _ _ _ _ _ E).
Qed.

Lemma process_write_settled p t g w r c :
  thread_inv [] [head_index c] p t g w -> head_valid (head_index c) = true ->
  check_address (g_mem g) (status_addr r) = true -> request_ok w r -> request_type r = Out ->
  settled p g (process_write r c t g w).
Proof.
  intros Hi Hv Ha [Hd _ Hrg] Ht. unfold process_write. case_bool_decide as Hm; cbn [negb]; [|by apply complete_io_settled].
  specialize (Hrg (or_intror Ht) Hm).
  destruct (get_request_slot_inv _ _ _ _ _ _ (request_len r) r c Hi Hv Ha) as
    (id & t1 & w1 & s & -> & Hf & Hi1 & Hs & Hl & Hsa & Hsc & Hsu & Hch); [by intros _; rewrite request_len_exact|].
  cbn [mbind outcome_bind]. rewrite (index_done _ _ _ Hs). cbn [mbind outcome_bind].
  pose proof (Forall_lookup_1 _ _ _ _ (vi_slots _ _ _ _ _ _ Hi1) Hs) as Hok.
  destruct (copy_from_guest_total (data r) (slot_buffer s) 0 false (g_mem g) w1) as (f & w2 & -> & Hf2).
  { apply Hok. } { pose proof (so_len _ _ _ Hok). rewrite request_len_exact in Hl by done. lia. }
  cbn [mbind outcome_bind]. apply frame_evolves in Hf2. apply (thread_inv_evolves _ _ _ _ _ _ w2 Hf2) in Hi1.
  apply (slot_ok_stable _ _ w2) in Hok; [|apply Hf2].
  destruct f.
  - destruct (finish_slot_inv _ _ _ _ _ _ id s c VIRTIO_BLK_S_IOERR Hi1 Hs Hsu Hsc) as (t' & Hput & Hi' & _).
    pose proof (complete_io_available c (slot_status_addr s) VIRTIO_BLK_S_IOERR t1 g) as Hav. rewrite Hsa in *.
    destruct (complete_io c (status_addr r) _ t1 g) as [t3 g3]. cbn [fst snd] in *. rewrite Hput. cbn [mbind outcome_bind].
    by do 3 eexists.
  - destruct (serves_write (sector r) (sectors_of (request_len r)) (slot_buffer s) id (io_channel t1) w2)
      as (ch & w3 & E & Hf3 & Hc3); [apply Hi1|by apply (slot_holds (g_mem g))| |].
    { apply (accepts_stable w); [|done]. etrans; [apply Hf|apply Hf2]. } rewrite E. cbn [mbind outcome_bind].
    do 3 eexists; split_and!; [done| |done]. eapply channel_took_inv; [exact Hi1|done..|].
    by apply (add_write_out _ _ _ _ _ _ _ _ E).
Qed.

Lemma process_flush_settled p t g w r c :
  thread_inv [] [head_index c] p t g w -> head_valid (head_index c) = true ->
  check_address (g_mem g) (status_addr r) = true -> data_ok (data r) -> request_type r = Flush ->
  settled p g (process_flush r c t g w).
Proof.
  intros Hi Hv Ha Hd Ht. unfold process_flush.
  destruct (get_request_slot_inv _ _ _ _ _ _ 0 r c Hi Hv Ha) as
    (id & t1 & w1 & s & -> & Hf & Hi1 & _ & _ & _ & _ & _ & Hch); [by rewrite Ht|]. cbn [mbind outcome_bind].
  destruct (serves_flush id (io_channel t1) w1) as (ch & w2 & E & Hf2 & Hc2); [apply Hi1|]. rewrite E. cbn [mbind outcome_bind].
  do 3 eexists; split_and!; [done| |done]. eapply channel_took_inv; [exact Hi1|done..|].
  by apply (add_flush_out _ _ _ _ _ E).
Qed.

Lemma process_get_device_id_settled p t g w r c :
  thread_inv [] [head_index c] p t g w -> head_valid (head_index c) = true ->
  check_address (g_mem g) (status_addr r) = true -> data r <> [] ->
  settled p g (process_get_device_id r c t g w).
Proof.
  intros Hi Hv Ha Hd. unfold process_get_device_id. destruct (data r) as [|[addr len] ds]; [done|].
  cbn [index lookup list_lookup mbind outcome_bind].
  destruct (len <? _); [by apply complete_io_settled|]. set (buf := take _ _ ++ _).
  pose proof (mem_write_keeps (g_mem g) addr buf) as Hk. destruct (mem_write (g_mem g) addr buf) as [ok m]. cbn in Hk.
  pose proof (thread_inv_mem _ _ _ _ _ _ m Hk Hi) as Hi1.
  apply (complete_io_settled p t (mkGuest m (g_ring g)) w c); [done|by rewrite Hk|done].
Qed.

Lemma process_chain_settled p t g w c :
  thread_inv [] [head_index c] p t g w -> head_valid (head_index c) = true ->
  (forall r, parse (g_mem g) c = inr r -> request_ok w r) ->
  settled p g (process_chain c (t, g, w)).
Proof.
  intros Hi Hv Hwf. unfold process_chain. destruct (parse (g_mem g) c) as [err|r] eqn:Ep.
  - exists t, (complete_bad_chain c g), w. split_and!; [done| |apply add_used_available].
    destruct Hi as [I1 I2 I3 I4 I5 I6]. split; try done. cbn.
    rewrite add_used_heads by (by apply add_used_ok). rewrite I6, <- app_assoc. cbn.
    by rewrite <- Permutation_middle.
  - pose proof (Hwf _ eq_refl) as Hok.
    assert (check_address (g_mem g) (status_addr r) = true) as Ha.
    { apply parse_spec in Ep as (? & ? & ? & ? & ? & _ & _ & _ & _ & _ & _ & _ & _ & ? & _ & ->). done. }
    destruct (request_type r) eqn:Et; try (by apply complete_io_settled).
    + by apply process_read_settled.
    + by apply process_write_settled.
    + apply process_flush_settled; try done. apply Hok.
    + apply process_get_device_id_settled; try done. by apply Hok.
Qed.

(** *** Completions *)

Lemma finish_io_inv e d p t g w id ok :
  thread_inv (id :: e) d p t g w ->
  exists t' g', finish_io (id, ok) (t, g, w) = Done (t', g', w) /\ thread_inv e d p t' g' w /\
    io_channel t' = io_channel t.
Proof.
  intros Hi. assert (id ∈ (flights (request_slots t)).*1) as Hin.
  { rewrite <- (vi_out _ _ _ _ _ _ Hi). by left. }
  apply list_elem_of_fmap in Hin as ([id' h] & -> & Hin). cbn in *.
  apply flights_lookup in Hin as (s & c & Hs & Hu & Hc & _).
  pose proof (Forall_lookup_1 _ _ _ _ (vi_slots _ _ _ _ _ _ Hi) Hs) as Hok.
  rewrite (index_done _ _ _ Hs). cbn [mbind outcome_bind]. rewrite Hc.
  assert (exists b m, (if bool_decide (slot_request_type s = In) && ok then write_to_guest s g w else Done (true, g))
      = Done (b, mkGuest m (g_ring g)) /\ forall a, check_address m a = check_address (g_mem g) a) as (b & m & -> & Hm).
  { destruct (_ && _) eqn:E; [|by exists true, (g_mem g); destruct g].
    apply andb_true_iff in E as [Et%bool_decide_eq_true _]. unfold write_to_guest. rewrite Hc.
    destruct (copy_to_guest_total (data_descriptors s) (read_buf w (slot_buffer s)) 0 (g_mem g)) as (b & m & -> & Hm).
    - pose proof (so_data _ _ _ Hok Hu Et). pose proof (so_len _ _ _ Hok). lia.
    - cbn. eauto. }
  cbn [mbind outcome_bind]. apply (thread_inv_mem _ _ _ _ _ _ m Hm) in Hi.
  set (st := if ok && b then _ else _).
  destruct (finish_slot_inv _ _ _ _ _ _ id' s c st Hi Hs Hu Hc) as (t' & Hput & Hi' & Hch).
  destruct (complete_io c (slot_status_addr s) st t _) as [t3 g3]. cbn [fst snd] in *. rewrite Hput.
  cbn [mbind outcome_bind]. by do 2 eexists.
Qed.

Lemma finish_ios_inv rs d p t g w :
  thread_inv rs.*1 d p t g w ->
  exists t' g', for_each finish_io rs (t, g, w) = Done (t', g', w) /\ thread_inv [] d p t' g' w.
Proof.
  revert t g. induction rs as [|[id ok] rs IH]; intros t g Hi; cbn [for_each]; [by do 2 eexists|].
  destruct (finish_io_inv rs.*1 d p t g w id ok Hi) as (t1 & g1 & E & Hi1 & _). rewrite E. cbn [mbind outcome_bind]. by apply IH.
Qed.

Lemma poll_io_inv p t g w :
  thread_inv [] [] p t g w ->
  exists t' g' w', poll_io t g w = Done (t', g', w') /\ thread_inv [] [] p t' g' w'.
Proof.
  intros Hi. unfold poll_io. destruct (serves_poll _ w (vi_chan _ _ _ _ _ _ Hi)) as (rs & ch & w1 & E & Hf & Hc).
  rewrite E. cbn [mbind outcome_bind]. pose proof (poll_out _ _ _ _ _ E) as Ho.
  destruct (finish_ios_inv rs [] p (th_set_channel t ch) g w1) as (t' & g' & -> & Hi').
  - apply (thread_inv_evolves _ _ _ _ _ _ w1 Hf) in Hi as [I1 I2 I3 I4 I5 I6]. split; cbn; try done. by rewrite <- Ho.
  - by do 3 eexists.
Qed.

(** *** The whole handler *)

Lemma new_slots_inv n size al w :
  is_power_of_two al = true -> fresh_world w ->
  exists slots w', new_slots n size al w = Done (slots, w') /\ frame w w' /\
    (forall m, Forall (slot_ok m w') slots) /\ forall k, flights_from k slots = [].
Proof.
  intros Hal. revert w. induction n as [|n IH]; intros w Hfr; cbn [new_slots]; [by do 2 eexists|].
  unfold new_aligned. rewrite Hal. cbn [negb mbind outcome_bind].
  destruct (alloc_buf size 0 w) as [b w1] eqn:Eb. cbn [mbind outcome_bind].
  pose proof (alloc_frame size 0 w Hfr) as Hf. pose proof (read_buf_alloc size 0 w) as Hrb. rewrite Eb in Hf, Hrb. cbn in Hf, Hrb.
  destruct (IH w1) as (slots & w' & -> & Hf' & Hok & Hfl). { destruct Hf as (_ & _ & Hf & _). auto. }
  cbn [mbind outcome_bind]. do 2 eexists; split_and!; [done|by etrans| |].
  - intros m. constructor; [|done]. apply (slot_ok_stable _ w1); [by apply frame_stable|].
    split; cbn; try done; [|by rewrite Hrb, length_replicate]. injection Eb as <- <-. cbn. rewrite dom_insert. set_solver.
  - intros k. cbn. by rewrite Hfl.
Qed.

(** A new thread, for any guest whose used ring is empty. *)
Lemma thread_new_inv (ch : C) segs seg_size queue_size dev_id al tracker w :
  is_power_of_two al = true -> fresh_world w -> cs_inv ch w -> outstanding ch = [] ->
  exists t w', thread_new ch segs seg_size queue_size dev_id al tracker w = Done (t, w') /\ frame w w' /\
    forall m v, used_heads v = [] -> thread_inv [] [] [] t (mkGuest m v) w'.
Proof.
  intros Hal Hfr Hc Ho. unfold thread_new.
  destruct (new_slots_inv queue_size (Z.to_nat (wrap32 (segs * seg_size))) al w Hal Hfr) as (slots & w2 & -> & Hf & Hok & Hfl).
  cbn [mbind outcome_bind]. do 2 eexists. split_and!; [done..|]. intros m v Hu.
  split; cbn; try done; [by apply (cs_inv_stable _ w); [apply frame_stable|]| |by unfold flights; rewrite Hfl, Ho
    |by unfold flights; rewrite Hfl, Hu]. destruct Hf as (_ & _ & Hf & _). auto.
Qed.

(** One turn of the loop over the queue: a chain is taken and handled. *)
Definition pop_step (s s' : UbiBlkBackendThread C * Guest M V * World) : Prop :=
  let '(t, g, w) := s in
  exists c v, pop_chain (g_ring g) = Some (c, v) /\ process_chain c (t, mkGuest (g_mem g) v, w) = Done s'.

(** The guest behaves during the next [process_queue]: every chain that the
    loop takes reads, in the guest's memory at that time, as a request that the
    worker can rely on, or does not parse. *)
Definition guest_ok t g w : Prop :=
  forall t1 g1 w1 c v r, rtc pop_step (t, g, w) (t1, g1, w1) ->
    pop_chain (g_ring g1) = Some (c, v) -> parse (g_mem g1) c = inr r -> request_ok w1 r.

Lemma guest_ok_unfold t g w :
  guest_ok t g w <->
  match pop_chain (g_ring g) with
  | None => True
  | Some (c, v) =>
      (forall r, parse (g_mem g) c = inr r -> request_ok w r) /\
      forall t' g' w', process_chain c (t, mkGuest (g_mem g) v, w) = Done (t', g', w') -> guest_ok t' g' w'
  end.
Proof.
  split.
  - intros Hg. destruct (pop_chain (g_ring g)) as [[c v]|] eqn:Ep; [|done]. split.
    + intros r. by apply (Hg t g w c v), Ep.
    + intros t' g' w' E t1 g1 w1 c1 v1 r Hr. apply (Hg t1 g1 w1 c1 v1 r). eapply rtc_l; [|exact Hr]. by exists c, v.
  - intros Hg t1 g1 w1 c1 v1 r Hr Ep Epa.
    inversion Hr as [|? [[t2 g2] w2] ? Hs Hr2]; subst.
    + rewrite Ep in Hg. by apply Hg.
    + destruct Hs as (c & v & Ep2 & E2). rewrite Ep2 in Hg. destruct Hg as [_ Hg]. exact (Hg _ _ _ E2 _ _ _ _ _ _ Hr2 Ep Epa).
Qed.

(** Enough for that: whatever is in memory, no chain of the queue is a request
    that the worker cannot rely on. *)
Lemma chains_ok_guest_ok t g w :
  (forall (v : V) c v' (m : M) r w, pop_chain v = Some (c, v') -> parse m c = inr r -> request_ok w r) ->
  guest_ok t g w.
Proof. intros Hg t1 g1 w1 c v r _. apply Hg. Qed.

Lemma process_chains_inv fuel p t g w acc :
  thread_inv [] [] p t g w -> guest_ok t g w -> (available (g_ring g) < fuel)%nat ->
  exists cs t' g' w', process_chains fuel t g w acc = Done (acc ++ cs, t', g', w') /\
    thread_inv [] [] (p ++ map head_index cs) t' g' w'.
Proof.
  revert p t g w acc. induction fuel as [|fuel IH]; intros p t g w acc Hi Hg%guest_ok_unfold Hf; [lia|]. cbn [process_chains].
  destruct (pop_chain (g_ring g)) as [[c v]|] eqn:Ep.
  2:{ exists [], t, g, w. cbn. by rewrite !app_nil_r. }
  assert (thread_inv [] [head_index c] (p ++ [head_index c]) t (mkGuest (g_mem g) v) w) as Hi1.
  { destruct Hi as [I1 I2 I3 I4 I5 I6]. split; try done. cbn. rewrite (pop_used _ _ _ Ep), I6. cbn. by rewrite <- Permutation_cons_append. }
  destruct Hg as [Hc Hg]. destruct (process_chain_settled _ _ _ _ c Hi1 (pop_valid _ _ _ Ep) Hc)
    as (t1 & g1 & w1 & E1 & Hi2 & Hav). rewrite E1. cbn [mbind outcome_bind]. cbn in Hav.
  destruct (IH _ t1 g1 w1 (acc ++ [c]) Hi2 (Hg _ _ _ E1)) as (cs & t' & g' & w' & -> & Hi3).
  { pose proof (pop_available _ _ _ Ep). lia. }
  exists (c :: cs), t', g', w'. rewrite <- app_assoc. split; [done|]. by rewrite <- app_assoc in Hi3.
Qed.

Lemma process_queue_inv p t g w :
  thread_inv [] [] p t g w -> guest_ok t g w ->
  exists cs b t' g' w', process_queue t g w = Done (cs, b, t', g', w') /\
    thread_inv [] [] (p ++ map head_index cs) t' g' w'.
Proof.
  intros Hi Hg. unfold process_queue.
  destruct (process_chains_inv (S (available (g_ring g))) p t g w [] Hi Hg) as (cs & t1 & g1 & w1 & -> & Hi1); [lia|].
  cbn [mbind outcome_bind app].
  destruct (serves_submit _ w1 (vi_chan _ _ _ _ _ _ Hi1)) as (r & ch & w2 & Es & Hf & Hc). rewrite Es. cbn [mbind outcome_bind].
  assert (thread_inv [] [] (p ++ map head_index cs) (th_set_channel t1 ch) g1 w2) as Hi2.
  { apply (thread_inv_evolves _ _ _ _ _ _ w2 Hf) in Hi1 as [I1 I2 I3 I4 I5 I6]. split; try done. cbn in *.
    by rewrite (submit_out _ _ _ _ _ Es). }
  destruct (poll_io_inv _ _ _ _ Hi2) as (t3 & g3 & w3 & -> & [I1 I2 I3 I4 I5 I6]). cbn [mbind outcome_bind].
  set (bz := _ || _). unfold needs_signalling. pose proof (needs_notification_used (g_ring g3)) as Hnn.
  destruct (ios_pending_signal t3); [destruct (event_idx t3); [destruct (needs_notification (g_ring g3)) as [o v']|]|];
    [destruct (match o with Some _ => _ | None => _ end)| |]; (do 5 eexists; split; [done|]); split; try done; cbn in *;
    rewrite ?signal_used, ?Hnn; done.
Qed.

(** Between two calls the driver may change its buffers and make chains
    available, and the rest of the program may act on the world. *)
Inductive vhost_step : list nat * UbiBlkBackendThread C * Guest M V * World ->
                       list nat * UbiBlkBackendThread C * Guest M V * World -> Prop :=
| vs_queue p t g w cs b t' g' w' : guest_ok t g w -> process_queue t g w = Done (cs, b, t', g', w') ->
    vhost_step (p, t, g, w) (p ++ map head_index cs, t', g', w')
| vs_env p t g w g' w' : used_heads (g_ring g') = used_heads (g_ring g) ->
    (forall a, check_address (g_mem g') a = check_address (g_mem g) a) ->
    stable w w' -> (fresh_world w -> fresh_world w') -> vhost_step (p, t, g, w) (p, t, g', w').

Definition vhost_inv (s : list nat * UbiBlkBackendThread C * Guest M V * World) : Prop :=
  let '(p, t, g, w) := s in thread_inv [] [] p t g w.

Lemma vhost_step_inv s s' : vhost_step s s' -> vhost_inv s -> vhost_inv s'.
Proof.
  destruct 1 as [p t g w cs b t' g' w' Hg E|p t g w g' w' Hu Ha Hs Hfr]; cbn; intros Hi.
  - destruct (process_queue_inv _ _ _ _ Hi Hg) as (cs1 & b1 & t1 & g1 & w1 & E1 & Hi1). rewrite E1 in E. by simplify_eq.
  - apply (thread_inv_mem _ _ _ _ _ _ _ Ha) in Hi as [I1 I2 I3 I4 I5 I6]. split; try done; cbn in *.
    + by apply (cs_inv_stable _ w).
    + auto.
    + eapply Forall_impl; [exact I4|]. intros s. by apply slot_ok_stable.
    + by rewrite Hu.
Qed.
End accounting.

(** C9: every descriptor chain is answered exactly once.  Start a queue's
    worker over a channel with nothing outstanding that serves requests
    ([ChannelServes], also the lazy device's channel) and reports each once
    ([ChannelContract]), and let it run against a guest that behaves whenever
    the queue is processed ([guest_ok]): each chain it takes that parses has
    data lengths that add up below 4 GiB, a data descriptor if it asks for the
    device id, and for a read or write of whole sectors a range that the channel
    accepts (any for the plain devices, inside the stripe table for the lazy
    one).  Then at every point the chains popped so far are, counted with
    multiplicity, those on the used ring plus those held by request slots;
    those slots are exactly the requests outstanding in the channel; and
    [process_queue] returns for a guest that behaves.  Guests that do not can
    make it panic: [write_len_wraps], [get_id_without_data_panics] and, over the
    lazy device, [lazy_out_of_range_panics]. *)
Theorem vhost_exactly_once {C} `{ChannelServes C} `{!ChannelContract C} {M} `{GuestMemoryLaws M} {V} `{VirtQueueLaws V}
    (ch : C) segs seg_size queue_size dev_id al tracker (m : M) (v : V) w0 t0 w1 p t g w :
  is_power_of_two al = true -> fresh_world w0 -> cs_inv ch w0 -> outstanding ch = [] -> used_heads v = [] ->
  thread_new ch segs seg_size queue_size dev_id al tracker w0 = Done (t0, w1) ->
  rtc vhost_step ([], t0, mkGuest m v, w1) (p, t, g, w) ->
  p ≡ₚ used_heads (g_ring g) ++ (flights (request_slots t)).*2 /\
  outstanding (io_channel t) ≡ₚ (flights (request_slots t)).*1 /\
  (guest_ok t g w -> exists r, process_queue t g w = Done r).
Proof.
  intros Hal Hfr Hc Ho Hu Ht Hrun.
  destruct (thread_new_inv (M := M) (V := V) ch segs seg_size queue_size dev_id al tracker w0 Hal Hfr Hc Ho) as (t1 & w2 & E & _ & Hi0).
  rewrite E in Ht. injection Ht as -> ->. specialize (Hi0 m v Hu).
  assert (vhost_inv (p, t, g, w)) as Hi.
  { revert Hi0. change (thread_inv [] [] [] t0 (mkGuest m v) w1) with (vhost_inv ([], t0, mkGuest m v, w1)).
    induction Hrun as [|s1 s2 s3 Hs _ IH]; [done|]. intros Hi. apply IH. by eapply vhost_step_inv. }
  split_and!; [apply Hi|apply Hi|]. intros Hg. destruct (process_queue_inv _ _ _ _ Hi Hg) as (? & ? & ? & ? & ? & Eq & _). eauto.
Qed.

(** *** Chains that make the worker panic *)

Section panics.
Context {C : Type} `{IoChannel C} {M : Type} `{GuestMemory M} {V : Type} `{VirtQueue V}.
Implicit Types (t : UbiBlkBackendThread C) (g : Guest M V) (w : World).

Lemma get_request_slot_buffer len r c t w id t' w' s :
  get_request_slot len r c t w = Done (id, t', w') -> request_slots t' !! id = Some s ->
  (exists s0, s0 ∈ request_slots t /\ slot_buffer s = slot_buffer s0 /\ w' = w) \/
  length (read_buf w' (slot_buffer s)) = len.
Proof.
  unfold get_request_slot. destruct (find_slot len (request_slots t) 0) as [[i x]|] eqn:Ef.
  - destruct (find_slot_spec _ _ _ _ _ Ef) as (j & -> & Hj & _). intros [= <- <- <-] Hs. left. cbn in Hs.
    rewrite list_lookup_insert_eq in Hs by (by apply lookup_lt_Some in Hj). injection Hs as <-.
    exists x. split_and!; try done. by eapply list_elem_of_lookup_2.
  - unfold new_aligned. destruct (negb _); [done|]. cbn [mbind outcome_bind].
    destruct (alloc_buf len 0 w) as [b w1] eqn:Eb. cbn [mbind outcome_bind]. intros [= <- <- <-] Hs. right. cbn in Hs.
    rewrite list_lookup_middle in Hs by done. injection Hs as <-. cbn.
    pose proof (read_buf_alloc len 0 w) as Hrb. rewrite Eb in Hrb. cbn in Hrb. by rewrite Hrb, length_replicate.
Qed.
End panics.

(** [request_len] adds the descriptor lengths as [u32]s.  For a write with
    two data descriptors of 2 GiB the sum wraps to 0: the request passes the
    sector check, gets a slot sized for nothing, and copying the first
    descriptor out of it panics the worker. *)
Lemma write_len_wraps {C} `{IoChannel C} {M} `{GuestMemory M} {V} `{VirtQueue V}
    (t : UbiBlkBackendThread C) (g : Guest M V) w r c a1 a2 :
  data r = [(a1, 2147483648); (a2, 2147483648)] -> is_power_of_two (th_alignment t) = true ->
  Forall (fun s => Z.of_nat (length (read_buf w (slot_buffer s))) < 2147483648) (request_slots t) ->
  request_len r = 0%nat /\ process_write r c t g w = Panic IndexOutOfBounds.
Proof.
  intros Hd Hal Hsl. assert (request_len r = 0%nat) as Hl by (unfold request_len; by rewrite Hd).
  split; [done|]. unfold process_write. rewrite Hl.
  rewrite bool_decide_eq_true_2 by done. cbn [negb].
  destruct (get_request_slot 0 r c t w) as [[[id t'] w']|] eqn:Eg.
  2:{ unfold get_request_slot in Eg. destruct (find_slot _ _ _) as [[? ?]|]; [done|].
      unfold new_aligned in Eg. rewrite Hal in Eg. done. }
  cbn [mbind outcome_bind]. unfold index. destruct (request_slots t' !! id) as [s|] eqn:Es; [|done]. cbn [mbind outcome_bind].
  rewrite Hd. cbn [copy_from_guest]. unfold slice. rewrite decide_False; [done|]. cbn [plus].
  destruct (get_request_slot_buffer _ _ _ _ _ _ _ _ _ Eg Es) as [(s0 & Hs0 & -> & ->)|Hlen]; [|lia].
  rewrite Forall_forall in Hsl. specialize (Hsl _ Hs0). cbn beta in Hsl. lia.
Qed.

(** A "get device id" request without a data descriptor is accepted by
    [parse], and makes the worker panic on [request.data()[0]]. *)
Lemma get_id_without_data_panics {C} `{IoChannel C} {M} `{GuestMemory M} {V} `{VirtQueue V}
    (t : UbiBlkBackendThread C) (g : Guest M V) w h hd st bytes :
  is_write_only hd = false -> mem_read (g_mem g) (d_addr hd) 16 = (true, bytes) ->
  from_le (take 4 bytes) = VIRTIO_BLK_T_GET_ID ->
  has_next st = false -> is_write_only st = true -> 1 <= d_len st -> check_address (g_mem g) (d_addr st) = true ->
  process_chain (mkChain h [hd; st]) (t, g, w) = Panic IndexOutOfBounds.
Proof.
  intros Hh Hr Ht Hn Hw Hl Ha. unfold process_chain.
  assert (parse (g_mem g) (mkChain h [hd; st])
    = inr (mkRequest GetDeviceID [] (from_le (take 8 (drop 8 bytes))) (d_addr st))) as ->.
  { apply parse_spec. exists hd, [], st, [], bytes. split_and!; try done. by rewrite Ht. }
  done.
Qed.

(** ** A concrete guest *)

(** Flat memory. *)
#[global] Instance flat_memory : GuestMemory (list Z) := {
  check_address m a := (0 <=? a) && (a <? Z.of_nat (length m));
  mem_read m a n := if (0 <=? a) && bool_decide (Z.to_nat a + n <= length m)%nat
                    then (true, take n (drop (Z.to_nat a) m)) else (false, []);
  mem_write m a bs := if (0 <=? a) && bool_decide (Z.to_nat a + length bs <= length m)%nat
                      then (true, splice m (Z.to_nat a) bs) else (false, m);
}.

#[global] Instance flat_memory_laws : GuestMemoryLaws (list Z).
Proof.
  split; cbn.
  - intros m a n ok bs. destruct (_ && _) eqn:E; intros [= <- <-]; [|cbn; split; [lia|done]].
    apply andb_true_iff in E as [_ E%bool_decide_eq_true]. rewrite length_take, length_drop. lia.
  - intros m a b [E1 E2]%andb_true_iff. rewrite E1, bool_decide_eq_true_2; [done|]. cbn. lia.
  - intros m a bs a'. destruct ((0 <=? a) && bool_decide _) eqn:E; [|done]. cbn.
    apply andb_true_iff in E as [_ E%bool_decide_eq_true]. by rewrite length_splice by lia.
Qed.

(** A ring whose available heads stand for the chains [chain_of] gives. *)
Record DemoQueue (chain_of : nat -> DescChain) := mkRQ { rq_avail : list nat; rq_used : list nat }.
Arguments mkRQ {chain_of}.
Arguments rq_avail {chain_of}.
Arguments rq_used {chain_of}.

#[global] Instance demo_queue (chain_of : nat -> DescChain) : VirtQueue (DemoQueue chain_of) := {|
  pop_chain v := match rq_avail v with [] => None | h :: hs => Some (chain_of h, mkRQ hs (rq_used v)) end;
  add_used h v := if bool_decide (h < 256)%nat then (true, mkRQ (rq_avail v) (rq_used v ++ [h])) else (false, v);
  needs_notification v := (Some true, v);
  signal_used_queue v := (true, v);
  available v := length (rq_avail v);
  used_heads := rq_used;
  head_valid h := bool_decide (h < 256)%nat;
|}.

Lemma demo_queue_laws chain_of :
  (forall h, (head_index (chain_of h) < 256)%nat) -> VirtQueueLaws (DemoQueue chain_of).
Proof.
  intros Hc. split; cbn -[Nat.modulo]; try done.
  - intros v c v'. destruct (rq_avail v); [done|]. intros [= <- <-]. cbn. lia.
  - intros v c v'. destruct (rq_avail v); [done|]. by intros [= <- <-].
  - intros v c v'. destruct (rq_avail v) as [|h hs]; [done|]. intros [= <- <-].
    by apply bool_decide_eq_true.
  - intros h v E. by rewrite E.
  - intros h v. by case_bool_decide.
  - intros h v. by case_bool_decide.
Qed.

(** A driver that keeps reading one sector: header at 0, data at 16, status at 528. *)
Definition read_chain (h : nat) : DescChain :=
  mkChain (h `mod` 256) [mkDesc 0 16 true false; mkDesc 16 512 true true; mkDesc 528 1 false true].

Notation ReadQueue := (DemoQueue read_chain).
#[global] Instance read_queue_laws : VirtQueueLaws ReadQueue.
Proof. apply demo_queue_laws. intros h. apply Nat.mod_upper_bound. lia. Qed.

Lemma read_queue_behaves (v : ReadQueue) c v' (m : list Z) r w :
  pop_chain v = Some (c, v') -> parse m c = inr r -> request_ok (C := NullIoChannel) w r.
Proof.
  cbn. destruct (rq_avail v) as [|h hs]; [done|]. intros [= <- <-] Ep.
  apply parse_spec in Ep as (head & datas & st & rest & bytes & Ed & _ & _ & Hall & Hst & _ & _ & _ & _ & _ & ->).
  cbn in Ed |- *. injection Ed as <- Ed.
  destruct datas as [|d1 [|d2 [|d3 ds]]]; cbn in Ed; simplify_eq.
  split; [|done|done]. split; [constructor; [cbn; lia|constructor]|]. vm_compute. discriminate.
Qed.

(** Heads from 128 on flush: the header, at 529, says so. *)
Definition mixed_chain (h : nat) : DescChain :=
  if bool_decide (h < 128)%nat then read_chain h
  else mkChain (h `mod` 256) [mkDesc 529 16 true false; mkDesc 528 1 false true].

Notation MixedQueue := (DemoQueue mixed_chain).
#[global] Instance mixed_queue_laws : VirtQueueLaws MixedQueue.
Proof.
  apply demo_queue_laws. intros h. unfold mixed_chain. case_bool_decide; cbn [head_index read_chain];
    apply Nat.mod_upper_bound; lia.
Qed.

Definition vdemo_mem : list Z := replicate 529 0.
Definition vdemo_world : World := mkWorld ∅ 0 ∅ [] (mkShared [] [] 0 0 0) [] true.

(** Two fetched stripes of one sector, behind a lazy channel. *)
Definition mixed_mem : list Z := replicate 529 0 ++ [VIRTIO_BLK_T_FLUSH] ++ replicate 15 0.
Definition mixed_world : World :=
  mkWorld ∅ 0 ∅ [] (mkShared [Fetched; Fetched] [NotWritten; NotWritten] 0 2 2) [] true.
Definition mixed_channel : LazyIoChannel NullIoChannel NullIoChannel := lazy_new (mkNullCh []) None false.
Definition mixed_start : UbiBlkBackendThread (LazyIoChannel NullIoChannel NullIoChannel) * World :=
  match thread_new mixed_channel 1 512 1 [] 512 (tracker_new 1) mixed_world with
  | Done s => s
  | Panic _ => (mkThread false mixed_channel [] [] 512 false (tracker_new 1), mixed_world)
  end.
Definition mixed_guest : Guest (list Z) MixedQueue := mkGuest mixed_mem (mkRQ [5; 200]%nat []).

Lemma mixed_guest_ok : guest_ok mixed_start.1 mixed_guest mixed_start.2.
Proof.
  apply guest_ok_unfold. cbn [pop_chain demo_queue g_ring mixed_guest rq_avail]. split.
  - intros r E. vm_compute in E. injection E as <-. split; [|done|].
    + split; [repeat constructor; cbn; lia|vm_compute; discriminate].
    + intros _ _. vm_compute. split_and!; try discriminate; lia.
  - intros t' g' w' E. vm_compute in E. injection E as <- <- <-.
    apply guest_ok_unfold. cbn [pop_chain demo_queue g_ring rq_avail]. split.
    + intros r E. vm_compute in E. injection E as <-. split; [|done|by intros [|]].
      split; [constructor|vm_compute; discriminate].
    + intros t' g' w' E. vm_compute in E. injection E as <- <- <-. apply guest_ok_unfold. exact Logic.I.
Qed.

(** A read and a flush through the lazy device: both are popped and answered. *)
Lemma vhost_exactly_once_witness :
  exists (t : UbiBlkBackendThread (LazyIoChannel NullIoChannel NullIoChannel)) (g : Guest (list Z) MixedQueue) w,
    rq_used (g_ring g) = [5; 200]%nat /\
    [5; 200]%nat ≡ₚ rq_used (g_ring g) ++ (flights (request_slots t)).*2 /\
    outstanding (io_channel t) ≡ₚ (flights (request_slots t)).*1 /\
    (guest_ok t g w -> exists r, process_queue t g w = Done r).
Proof.
  destruct (process_queue mixed_start.1 mixed_guest mixed_start.2) as [[[[[cs b] t] g] w]|] eqn:E1;
    [|vm_compute in E1; discriminate].
  assert (map head_index cs = [5; 200]%nat /\ rq_used (g_ring g) = [5; 200]%nat) as [Hcs Hu].
  { clear - E1. vm_compute in E1. injection E1 as <- <- <- <- <-. done. }
  exists t, g, w. split; [done|].
  refine (vhost_exactly_once mixed_channel 1 512 1 [] 512 (tracker_new 1) mixed_mem (mkRQ [5; 200]%nat [])
    mixed_world mixed_start.1 mixed_start.2 [5; 200]%nat t g w eq_refl _ _ eq_refl eq_refl _ _).
  - exact (no_buffers_fresh mixed_world eq_refl).
  - apply lazy_new_ready; [exact Logic.I|done|reflexivity].
  - vm_compute. reflexivity.
  - apply rtc_once. pose proof (vs_queue [] _ _ _ _ _ _ _ _ mixed_guest_ok E1) as Hs. rewrite Hcs in Hs. exact Hs.
Defined.

Lemma write_len_wraps_witness :
  let t := mkThread false (mkNullCh []) [] [] 512 false (tracker_new 1) in
  let r := mkRequest Out [(16, 2147483648); (16, 2147483648)] 0 528 in
  request_len r = 0%nat /\
  process_write r (read_chain 0) t (mkGuest vdemo_mem (mkRQ [] [] : ReadQueue)) vdemo_world = Panic IndexOutOfBounds.
Proof. cbn zeta. apply (write_len_wraps _ _ _ _ _ 16 16); [reflexivity|reflexivity|constructor]. Defined.

Lemma get_id_without_data_panics_witness :
  let t := mkThread false (mkNullCh []) [] [] 512 false (tracker_new 1) in
  let m := 8 :: replicate 20 0 in
  process_chain (mkChain 0 [mkDesc 0 16 true false; mkDesc 16 1 false true]) (t, mkGuest m (mkRQ [] [] : ReadQueue), vdemo_world)
    = Panic IndexOutOfBounds.
Proof. cbn zeta. by eapply get_id_without_data_panics. Defined.
