(* ===== verification/Ublk.v ===== *)
(** * Ublk: the ublk front end

    Models src/src/backends/ublk/io_handler.rs and the request types of
    src/src/backends/ublk/mod.rs.  The kernel's queue (libublk) is reduced to
    what the handler does with it: it reads the fields of an I/O descriptor, and
    its completions are appended to a list.  A tag is the index of a kernel
    request; the kernel does not reuse a tag before its completion.

    The handler is verified over every channel that keeps [ChannelServes], with
    submissions that may fail. *)
From S2P Require Import Prelude Metadata SharedState World Device StripeSource IoTracking LazyDevice.

(** ** Data *)

Definition UBLK_IO_OP_READ : Z := 0.
Definition UBLK_IO_OP_WRITE : Z := 1.
Definition UBLK_IO_OP_FLUSH : Z := 2.

Inductive UblkOp := UblkRead | UblkWrite | UblkFlush | UblkUnsupported.
#[global] Instance UblkOp_eq_dec : EqDecision UblkOp.
Proof. solve_decision. Defined.

Definition ublk_op_from_raw (op : Z) : UblkOp :=
  if op =? UBLK_IO_OP_READ then UblkRead
  else if op =? UBLK_IO_OP_WRITE then UblkWrite
  else if op =? UBLK_IO_OP_FLUSH then UblkFlush
  else UblkUnsupported.

Record UblkIoRequest := mkUblkReq {
  uq_op : UblkOp;
  uq_sector_offset : Z;
  uq_sector_count : Z;
  request_id : nat;
  bytes : nat;
}.

(** The fields of the kernel's I/O descriptor. *)
Record Iod := mkIod { op_flags : Z; start_sector : Z; nr_sectors : Z }.

Inductive UblkIoError := UblkInvalid | UblkIo.

(** A completion: the tag, and the result ([None]: [Err(InvalidVal)]). *)
Notation Completion := (nat * option Z)%type.

Record UblkIoHandler (C : Type) := mkHandler {
  max_io_bytes : nat;
  pending_requests : list UblkIoRequest;
  inflight_requests : list (option UblkIoRequest);
  uh_channel : C;
  backend_bufs : list nat;
  bufs : list (list Z);          (* the kernel-visible buffers, one per tag *)
  uh_tracker : IoTracker;
  completed : list Completion;   (* what was sent to the kernel *)
}.
Arguments mkHandler {C}.
Arguments max_io_bytes {C}.
Arguments pending_requests {C}.
Arguments inflight_requests {C}.
Arguments uh_channel {C}.
Arguments backend_bufs {C}.
Arguments bufs {C}.
Arguments uh_tracker {C}.
Arguments completed {C}.

Section handler.
Context {C : Type} `{IoChannel C}.
Implicit Types (h : UblkIoHandler C) (w : World).

Definition uh_set_pending h x : UblkIoHandler C := mkHandler (max_io_bytes h) x (inflight_requests h) (uh_channel h)
  (backend_bufs h) (bufs h) (uh_tracker h) (completed h).
Definition uh_set_inflight h x : UblkIoHandler C := mkHandler (max_io_bytes h) (pending_requests h) x (uh_channel h)
  (backend_bufs h) (bufs h) (uh_tracker h) (completed h).
Definition uh_set_channel h x : UblkIoHandler C := mkHandler (max_io_bytes h) (pending_requests h) (inflight_requests h) x
  (backend_bufs h) (bufs h) (uh_tracker h) (completed h).
Definition uh_set_bufs h x : UblkIoHandler C := mkHandler (max_io_bytes h) (pending_requests h) (inflight_requests h)
  (uh_channel h) (backend_bufs h) x (uh_tracker h) (completed h).
Definition uh_set_tracker h x : UblkIoHandler C := mkHandler (max_io_bytes h) (pending_requests h) (inflight_requests h)
  (uh_channel h) (backend_bufs h) (bufs h) x (completed h).

(** [q.complete_io_cmd_unified(tag, ..)], after indexing [self.bufs[tag]]. *)
Definition complete_cmd (tag : nat) (r : option Z) h : outcome (UblkIoHandler C) :=
  _ ← index (bufs h) tag;
  Done (mkHandler (max_io_bytes h) (pending_requests h) (inflight_requests h) (uh_channel h)
          (backend_bufs h) (bufs h) (uh_tracker h) (completed h ++ [(tag, r)])).

(** [UblkIoHandler::new], given the kernel-visible buffers. *)
Definition handler_new (alignment : Z) (max_io : nat) (ch : C) (ublk_bufs : list (list Z)) (queue_size : nat)
    (tracker : IoTracker) w : outcome (UblkIoHandler C * World) :=
  if bool_decide (0 < queue_size)%nat && negb (is_power_of_two alignment) then Panic AssertionFailed else
  let '(bs, w) := alloc_pool max_io (replicate queue_size 0%nat) w in
  Done (mkHandler max_io [] (replicate queue_size None) ch bs ublk_bufs tracker [], w).

Definition enqueue_request (r : UblkIoRequest) h w
  : outcome ((UblkIoError + unit) * UblkIoHandler C * World) :=
  let tag := request_id r in
  b ← index (backend_bufs h) tag;
  ub ← index (bufs h) tag;
  if bool_decide (length (read_buf w b) < bytes r)%nat || bool_decide (length ub < bytes r)%nat
  then Done (inl UblkInvalid, h, w) else
  match uq_op r with
  | UblkRead =>
      '(ch, w) ← add_read (uq_sector_offset r) (uq_sector_count r) b tag (uh_channel h) w;
      let h := uh_set_channel h ch in
      Done (inr tt, uh_set_tracker h
              (tracker_add_read tag (uq_sector_offset r) (uq_sector_count r) (uh_tracker h)), w)
  | UblkWrite =>
      src ← slice ub 0 (bytes r);
      dst ← copy_into (read_buf w b) 0 src;
      let w := write_buf w b dst in
      '(ch, w) ← add_write (uq_sector_offset r) (uq_sector_count r) b tag (uh_channel h) w;
      let h := uh_set_channel h ch in
      Done (inr tt, uh_set_tracker h
              (tracker_add_write tag (uq_sector_offset r) (uq_sector_count r) (uh_tracker h)), w)
  | UblkFlush =>
      '(ch, w) ← add_flush tag (uh_channel h) w;
      let h := uh_set_channel h ch in
      Done (inr tt, uh_set_tracker h (tracker_add_flush tag (uh_tracker h)), w)
  | UblkUnsupported => Done (inl UblkInvalid, h, w)
  end.

(** [bytes as i32] *)
Definition as_i32 (n : nat) : Z :=
  let z := wrap32 (Z.of_nat n) in if z <? 2 ^ 31 then z else z - 2 ^ 32.

Definition complete_request (r : UblkIoRequest) (success : bool) h w
  : outcome ((UblkIoError + Z) * UblkIoHandler C) :=
  if negb success then Done (inl UblkIo, h) else
  let tag := request_id r in
  b ← index (backend_bufs h) tag;
  ub ← index (bufs h) tag;
  match uq_op r with
  | UblkRead =>
      src ← slice (read_buf w b) 0 (bytes r);
      ub' ← copy_into ub 0 src;
      Done (inr (as_i32 (bytes r)), uh_set_bufs h (<[tag := ub']> (bufs h)))
  | UblkWrite => Done (inr (as_i32 (bytes r)), h)
  | UblkFlush => Done (inr 0, h)
  | UblkUnsupported => Done (inl UblkInvalid, h)
  end.

(** The inner [while let Some(request) = pop_front()] loop. *)
Fixpoint enqueue_all (rs : list UblkIoRequest) (queued : bool) h w
  : outcome (bool * UblkIoHandler C * World) :=
  match rs with
  | [] => Done (queued, uh_set_pending h [], w)
  | r :: rs' =>
      let tag := request_id r in
      '(res, h, w) ← enqueue_request r h w;
      match res with
      | inl _ => h ← complete_cmd tag None h; enqueue_all rs' queued h w
      | inr _ =>
          inflight ← set_index (inflight_requests h) tag (Some r);
          enqueue_all rs' true (uh_set_inflight h inflight) w
      end
  end.

(** After a failed submission every request in flight is completed with an error. *)
Fixpoint fail_inflight (slots : list (option UblkIoRequest)) (tag : nat) h : outcome (UblkIoHandler C) :=
  match slots with
  | [] => Done h
  | None :: slots' => fail_inflight slots' (S tag) h
  | Some _ :: slots' =>
      h ← complete_cmd tag None (uh_set_inflight h (<[tag := None]> (inflight_requests h)));
      fail_inflight slots' (S tag) h
  end.

(** One completion of the channel. *)
Definition finish_request (c : nat * bool) (s : UblkIoHandler C * World) : outcome (UblkIoHandler C * World) :=
  let '(id, success) := c in let '(h, w) := s in
  match inflight_requests h !! id with
  | Some (Some r) =>
      let h := uh_set_inflight h (<[id := None]> (inflight_requests h)) in
      let h := uh_set_tracker h (tracker_clear id (uh_tracker h)) in
      '(res, h) ← complete_request r success h w;
      h ← complete_cmd id (match res with inr n => Some n | inl _ => None end) h;
      Done (h, w)
  | _ => Done (h, w)
  end.

(** [process_pending_requests]; [fuel] bounds the rounds of the outer loop, which
    waits for the channel. *)
Fixpoint process_pending_requests (fuel : nat) h w : outcome (UblkIoHandler C * World) :=
  if negb (bool_decide (pending_requests h = [])) || busy (uh_channel h) then
    match fuel with
    | O => Panic OutOfFuel
    | S fuel' =>
        '(queued, h, w) ← enqueue_all (pending_requests h) false h w;
        '(r, h, w) ← (if queued : bool then
                        '(r, ch, w) ← submit (uh_channel h) w; Done (r, uh_set_channel h ch, w)
                      else Done (Ok tt, h, w));
        match r with
        | Err _ => h ← fail_inflight (inflight_requests h) 0 h; Done (h, w)
        | Ok _ =>
            '(rs, ch, w) ← poll (uh_channel h) w;
            '(h, w) ← for_each finish_request rs (uh_set_channel h ch, w);
            process_pending_requests fuel' h w
        end
    end
  else Done (h, w).

(** [handle]: one kernel request; the batch is processed on its last entry. *)
Definition handle (fuel : nat) (tag : nat) (iod : Iod) (is_tgt_io is_last_cqe : bool) h w
  : outcome (UblkIoHandler C * World) :=
  if is_tgt_io then Done (h, w) else
  let op := ublk_op_from_raw (Z.land (op_flags iod) 255) in
  let n := (Z.to_nat (nr_sectors iod) * SECTOR_SIZE)%nat in
  if bool_decide (max_io_bytes h < n)%nat then
    h ← complete_cmd tag None h; Done (h, w)
  else
  let h := uh_set_pending h (pending_requests h ++
             [mkUblkReq op (start_sector iod) (nr_sectors iod) tag n]) in
  if is_last_cqe then process_pending_requests fuel h w else Done (h, w).
End handler.

(** ** Accounting for requests *)

(** A channel that has completed everything once it is polled. *)
Class ChannelPrompt (C : Type) `{IoChannel C} := {
  poll_idle c w rs c' w' : poll c w = Done (rs, c', w') -> busy c' = false;
}.
#[global] Instance null_prompt : ChannelPrompt NullIoChannel.
Proof. constructor. cbn. by intros c w rs c' w' [= <- <- <-]. Qed.
#[global] Instance sync_prompt : ChannelPrompt SyncIoChannel.
Proof. constructor. cbn. by intros c w rs c' w' [= <- <- <-]. Qed.

(** A channel that is idle after a poll holds nothing. *)
Class ChannelDrained (C : Type) `{ChannelContract C} := {
  poll_drained c w rs c' w' : poll c w = Done (rs, c', w') -> busy c' = false -> outstanding c' = [];
}.
#[global] Instance null_drained : ChannelDrained NullIoChannel.
Proof. constructor. by intros c w rs c' w' [= <- <- <-]. Qed.
#[global] Instance sync_drained : ChannelDrained SyncIoChannel.
Proof. constructor. by intros c w rs c' w' [= <- <- <-]. Qed.

#[global] Instance lazy_drained {B I} `{ChannelDrained B} `{!ChannelReliable B} `{ChannelDrained I}
  : ChannelDrained (LazyIoChannel B I).
Proof.
  constructor. intros c w rs c' w' E Hb. change (lazy_poll c w = Done (rs, c', w')) in E.
  change (lazy_outstanding c' = []). change (lazy_busy c' = false) in Hb. unfold lazy_busy in Hb.
  apply orb_false_iff in Hb as [[Hb Hi]%orb_false_iff Hq%negb_false_iff]. apply bool_decide_eq_true_1 in Hq.
  unfold lazy_poll in E. destruct (process_queued_rw_requests c w) as [[c1 w1]|]; [|done]. cbn [mbind outcome_bind] in E.
  destruct (poll (lz_base (LazyDevice.set_finished c1 [])) w1) as [[[rb b1] w2]|] eqn:Eb; [|done]. cbn [mbind outcome_bind] in E.
  unfold lazy_outstanding, image_out.
  destruct (lz_image (set_base (LazyDevice.set_finished c1 []) b1)) as [i|] eqn:Ei.
  - destruct (poll i w2) as [[[ri i1] w3]|] eqn:Ex; [|done]. cbn [mbind outcome_bind] in E. simplify_eq. cbn in *.
    by rewrite Hq, (poll_drained _ _ _ _ _ Eb Hb), (poll_drained _ _ _ _ _ Ex Hi).
  - simplify_eq. cbn in *. rewrite Hq, (poll_drained _ _ _ _ _ Eb Hb). by rewrite Ei.
Qed.

(** The tags whose slot is occupied. *)
Fixpoint occupied_from (k : nat) (slots : list (option UblkIoRequest)) : list nat :=
  match slots with
  | [] => []
  | Some _ :: slots' => k :: occupied_from (S k) slots'
  | None :: slots' => occupied_from (S k) slots'
  end.
Definition occupied (slots : list (option UblkIoRequest)) : list nat := occupied_from 0 slots.

Lemma elem_of_occupied i slots : i ∈ occupied slots <-> exists r, slots !! i = Some (Some r).
Proof.
  unfold occupied. assert (forall k, i ∈ occupied_from k slots <-> exists j r, i = (k + j)%nat /\ slots !! j = Some (Some r)) as Hg.
  { induction slots as [|[x|] slots IH]; intros k; cbn [occupied_from].
    - rewrite elem_of_nil. split; [done|]. by intros (j & r & _ & ?).
    - rewrite elem_of_cons, IH. split.
      + intros [->|(j & r & -> & E)]; [by exists 0%nat, x; rewrite Nat.add_0_r|]. exists (S j), r. split; [lia|done].
      + intros ([|j] & r & -> & E); [left; lia|right]. exists j, r. split; [lia|done].
    - rewrite IH. split.
      + intros (j & r & -> & E). exists (S j), r. split; [lia|done].
      + intros ([|j] & r & -> & E); [done|]. exists j, r. split; [lia|done]. }
  rewrite (Hg 0%nat). split; [intros (j & r & -> & E); eauto|intros [r E]; eauto].
Qed.

Lemma occupied_set slots i r :
  slots !! i = Some None -> occupied (<[i := Some r]> slots) ≡ₚ i :: occupied slots.
Proof.
  unfold occupied. change i with (0 + i)%nat at 3. generalize 0%nat as k. revert i.
  induction slots as [|[x|] slots IH]; intros [|i] k E; cbn in E; simplify_eq; cbn [occupied_from insert list_insert].
  - rewrite (IH i (S k) E). replace (S k + i)%nat with (k + S i)%nat by lia. apply Permutation_swap.
  - by rewrite Nat.add_0_r.
  - rewrite (IH i (S k) E). by replace (S k + i)%nat with (k + S i)%nat by lia.
Qed.

Lemma occupied_clear slots i r :
  slots !! i = Some (Some r) -> occupied slots ≡ₚ i :: occupied (<[i := None]> slots).
Proof.
  intros E. rewrite <- (list_insert_id slots i (Some r) E) at 1. rewrite <- (list_insert_insert_eq slots i (Some r) None).
  apply occupied_set. apply list_lookup_insert_eq. by apply lookup_lt_Some in E.
Qed.

Lemma alloc_pool_any size ids w bs w' :
  alloc_pool size ids w = (bs, w') -> fresh_world w ->
  frame w w' /\ length bs = length ids /\ Forall (fun b => b ∈ dom (w_bufs w')) bs.
Proof.
  revert w bs w'. induction ids as [|k ids IH]; intros w bs w' E Hfr; cbn [alloc_pool] in E; [by simplify_eq|].
  pose proof (alloc_frame size k w Hfr) as Hf. destruct (alloc_buf size k w) as [b w1] eqn:Eb. cbn in Hf.
  destruct (alloc_pool size ids w1) as [bs1 w2] eqn:E1. simplify_eq.
  destruct (IH w1 bs1 w' E1) as (Hf2 & Hl & Hall); [by apply Hf|].
  split_and!; [by etrans|by cbn; rewrite Hl|]. constructor; [|done]. apply Hf2.
  injection Eb as <- <-. cbn. rewrite dom_insert. set_solver.
Qed.

Lemma occupied_replicate n : occupied (replicate n None) = [].
Proof. unfold occupied. generalize 0%nat. induction n as [|n IH]; intros k; cbn; [done|apply IH]. Qed.

Section ublk_accounting.
#[local] Set Default Proof Using "Type*".
Context {C : Type} `{ChannelServes C} `{!ChannelContract C}.
Implicit Types (h : UblkIoHandler C) (w : World).

(** The buffers of tag [i] hold [n] bytes. *)
Definition fits h w (i n : nat) : Prop :=
  exists b ub, backend_bufs h !! i = Some b /\ bufs h !! i = Some ub /\
    (n <= length (read_buf w b))%nat /\ (n <= length ub)%nat.

(** The channel takes the sectors of a read or write. *)
Definition served w (op : UblkOp) (so n : Z) : Prop := op = UblkRead \/ op = UblkWrite -> accepts C w so n.

(** [reqs]: the tags handed over by the kernel so far; [rs]: requests still to
    be enqueued; [extra]: completions reported by the channel and not yet
    processed. *)
Record handler_inv (reqs extra : list nat) (rs : list UblkIoRequest) h w : Prop := {
  hi_chan : cs_inv (uh_channel h) w;
  hi_len : length (inflight_requests h) = length (bufs h) /\ length (backend_bufs h) = length (bufs h);
  hi_bufs : Forall (fun b => b ∈ dom (w_bufs w)) (backend_bufs h);
  hi_slots : forall i r, inflight_requests h !! i = Some (Some r) -> request_id r = i /\ fits h w i (bytes r);
  hi_rs : Forall (fun r => (request_id r < length (bufs h))%nat /\
                           bytes r = (Z.to_nat (uq_sector_count r) * SECTOR_SIZE)%nat /\
                           served w (uq_op r) (uq_sector_offset r) (uq_sector_count r)) rs;
  hi_nodup : NoDup (map request_id rs ++ occupied (inflight_requests h));
  hi_out : Forall (fun i => i ∈ extra ++ outstanding (uh_channel h)) (occupied (inflight_requests h));
  hi_acc : reqs ≡ₚ map request_id rs ++ occupied (inflight_requests h) ++ (completed h).*1;
}.

Lemma handler_inv_stable reqs extra rs h w w' :
  stable w w' -> handler_inv reqs extra rs h w -> handler_inv reqs extra rs h w'.
Proof.
  intros Hf [I1 I2 I3 I4 I5 I6 I7 I8]. pose proof Hf as (Hb & _). split; try done.
  - by apply (cs_inv_stable _ w).
  - eapply Forall_impl; [exact I3|]. intros b Hd. by apply Hb.
  - intros i r E. destruct (I4 i r E) as [? (b & ub & E1 & E2 & L1 & L2)]. split; [done|].
    exists b, ub. split_and!; try done. destruct (Hb b) as (_ & _ & Hl); [|lia].
    rewrite Forall_forall in I3. by apply I3; eapply list_elem_of_lookup_2.
  - eapply Forall_impl; [exact I5|]. intros r (? & ? & Hs). split_and!; [done..|]. intros Ho.
    apply (accepts_stable w); auto.
Qed.

Lemma handler_inv_evolves reqs extra rs h w w' :
  evolves w w' -> handler_inv reqs extra rs h w -> handler_inv reqs extra rs h w'.
Proof. intros [Hs _]. by apply handler_inv_stable. Qed.

Lemma complete_cmd_done tag r h : (tag < length (bufs h))%nat ->
  complete_cmd tag r h = Done (mkHandler (max_io_bytes h) (pending_requests h) (inflight_requests h) (uh_channel h)
          (backend_bufs h) (bufs h) (uh_tracker h) (completed h ++ [(tag, r)])).
Proof.
  intros Hl. unfold complete_cmd. destruct (lookup_lt_is_Some_2 _ _ Hl) as [ub Hub]. by rewrite (index_done _ _ _ Hub).
Qed.

(** A request is handed to the channel, or refused with everything unchanged. *)
Lemma enqueue_request_inv reqs extra r rs h w :
  handler_inv reqs extra (r :: rs) h w ->
  (exists e, enqueue_request r h w = Done (inl e, h, w)) \/
  (exists ch tr w', enqueue_request r h w = Done (inr tt, uh_set_tracker (uh_set_channel h ch) tr, w') /\ evolves w w' /\
     cs_inv ch w' /\ outstanding ch ≡ₚ request_id r :: outstanding (uh_channel h) /\ fits h w' (request_id r) (bytes r)).
Proof.
  intros [I1 [I2 I2'] I3 I4 [(Hid & Hby & Hsv) I5]%Forall_cons I6 I7 I8]. unfold enqueue_request.
  destruct (lookup_lt_is_Some_2 (backend_bufs h) (request_id r)) as [b Hb]; [lia|].
  destruct (lookup_lt_is_Some_2 (bufs h) (request_id r)) as [ub Hub]; [done|].
  rewrite (index_done _ _ _ Hb), (index_done _ _ _ Hub). cbn [mbind outcome_bind].
  destruct (bool_decide (length (read_buf w b) < bytes r)%nat || _) eqn:E; [left; eauto|].
  apply orb_false_iff in E as [L1%bool_decide_eq_false L2%bool_decide_eq_false].
  assert (b ∈ dom (w_bufs w)) as Hd by (rewrite Forall_forall in I3; by apply I3; eapply list_elem_of_lookup_2).
  assert (forall w', evolves w w' -> fits h w' (request_id r) (bytes r)) as Hfit.
  { intros w' [(Hfb & _) _]. exists b, ub. destruct (Hfb b Hd) as (_ & _ & Hl). split_and!; try done; lia. }
  destruct (uq_op r) eqn:Eop; [| | |left; eauto]; right.
  - destruct (serves_read (uq_sector_offset r) (uq_sector_count r) b (request_id r) _ w I1) as (ch & w' & Ea & Hf & Hc).
    { split; [done|lia]. } { apply Hsv. by left. }
    rewrite Ea. cbn [mbind outcome_bind]. do 3 eexists; split_and!; try done; [|by apply Hfit].
    by apply (add_read_out _ _ _ _ _ _ _ _ Ea).
  - rewrite slice_done by lia. cbn [mbind outcome_bind]. rewrite drop_0.
    assert (length (take (bytes r) ub) = bytes r) as Ht by (rewrite length_take; lia).
    rewrite copy_into_done by (rewrite Ht; lia). cbn [mbind outcome_bind]. set (w1 := write_buf w b _).
    assert (frame w w1) as Hf1 by (apply write_buf_frame; [done|apply length_splice; rewrite Ht; lia]).
    destruct (serves_write (uq_sector_offset r) (uq_sector_count r) b (request_id r) (uh_channel h) w1)
      as (ch & w' & Ea & Hf & Hc).
    { apply (cs_inv_stable _ w); [by apply frame_stable|done]. }
    { apply (holds_frame w); [done|]. split; [done|lia]. }
    { apply (accepts_stable w); [by apply frame_stable|]. apply Hsv. by right. }
    rewrite Ea. cbn [mbind outcome_bind]. assert (evolves w w') by (etrans; [by apply frame_evolves|done]).
    do 3 eexists; split_and!; try done; [|by apply Hfit]. by apply (add_write_out _ _ _ _ _ _ _ _ Ea).
  - destruct (serves_flush (request_id r) _ w I1) as (ch & w' & Ea & Hf & Hc). rewrite Ea. cbn [mbind outcome_bind].
    do 3 eexists; split_and!; try done; [|by apply Hfit]. by apply (add_flush_out _ _ _ _ _ Ea).
Qed.

Lemma enqueue_all_queued rs h w q h' w' : enqueue_all rs true h w = Done (q, h', w') -> q = true.
Proof.
  revert h w. induction rs as [|x rs IH]; intros h w; cbn [enqueue_all]; [by intros [= <- <- <-]|].
  destruct (enqueue_request x h w) as [[[[e|u] h2] w3]|]; [| |done]; cbn [mbind outcome_bind].
  - destruct (complete_cmd _ _ _); [|done]. apply IH.
  - destruct (set_index _ _ _); [|done]. apply IH.
Qed.

Lemma enqueue_all_inv reqs extra rs q h w :
  handler_inv reqs extra rs h w ->
  exists q' h' w', enqueue_all rs q h w = Done (q', h', w') /\ handler_inv reqs extra [] h' w' /\
    pending_requests h' = [] /\ (q = false -> q' = false -> uh_channel h' = uh_channel h).
Proof.
  revert q h w. induction rs as [|r rs IH]; intros q h w Hi; cbn [enqueue_all].
  { do 3 eexists; split_and!; try done. by destruct Hi; split. }
  destruct (enqueue_request_inv _ _ _ _ _ _ Hi) as [[e ->]|(ch & tr & w' & -> & Hf & Hc & Ho & Hfit)]; cbn [mbind outcome_bind].
  - destruct Hi as [I1 I2 I3 I4 [(Hid & Hby & Hsv) I5]%Forall_cons I6 I7 I8]. rewrite complete_cmd_done by done. cbn [mbind outcome_bind].
    destruct (IH q (mkHandler (max_io_bytes h) (pending_requests h) (inflight_requests h) (uh_channel h)
          (backend_bufs h) (bufs h) (uh_tracker h) (completed h ++ [(request_id r, None)])) w) as (q' & h' & w' & ? & ? & ? & ?); [|eauto 10].
    split; try done; cbn in *; [by apply NoDup_cons in I6 as [_ I6]|].
    rewrite I8, fmap_app. cbn. solve_Permutation.
  - cbn [inflight_requests uh_set_tracker uh_set_channel].
    destruct (handler_inv_evolves _ _ _ _ _ _ Hf Hi) as [I1 I2 I3 I4 [(Hid & Hby & Hsv) I5]%Forall_cons I6 I7 I8].
    rewrite set_index_done by lia. cbn [mbind outcome_bind]. cbn in I6, I8.
    apply NoDup_cons in I6 as [Hnin I6]. rewrite elem_of_app, elem_of_occupied in Hnin.
    assert (inflight_requests h !! request_id r = Some None) as Hfree.
    { destruct (lookup_lt_is_Some_2 (inflight_requests h) (request_id r)) as [[x|] Hx]; [lia| |done]. naive_solver. }
    pose proof (occupied_set _ _ r Hfree) as Hocc.
    match goal with |- context [enqueue_all rs true ?h1 w'] => destruct (IH true h1 w') as (q' & h' & w2 & E & Hi' & Hp & _) end.
    2:{ exists q', h', w2. split_and!; try done. intros _ ->. by apply enqueue_all_queued in E. }
    split; cbn; try done.
    + rewrite length_insert. lia.
    + intros i x Hix. destruct (decide (i = request_id r)) as [->|Hne].
      * rewrite list_lookup_insert_eq in Hix by lia. injection Hix as <-. done.
      * rewrite list_lookup_insert_ne in Hix by done. by apply I4.
    + rewrite Hocc. rewrite <- Permutation_middle. apply NoDup_cons. split; [|done].
      rewrite elem_of_app, elem_of_occupied. naive_solver.
    + apply Forall_forall. intros i. rewrite Hocc, Ho. intros [->|Hin]%elem_of_cons; [set_solver|].
      rewrite Forall_forall in I7. specialize (I7 i Hin). set_solver.
    + rewrite I8, Hocc. cbn. by rewrite <- Permutation_middle.
Qed.

Lemma complete_request_done r ok h w :
  fits h w (request_id r) (bytes r) ->
  exists res bs, complete_request r ok h w = Done (res, uh_set_bufs h bs) /\ map length bs = map length (bufs h).
Proof.
  intros (b & ub & Hb & Hub & L1 & L2). unfold complete_request.
  assert (h = uh_set_bufs h (bufs h)) as Heta by (by destruct h).
  destruct ok; cbn [negb]; [|by exists (inl UblkIo), (bufs h); rewrite <- Heta].
  rewrite (index_done _ _ _ Hb), (index_done _ _ _ Hub). cbn [mbind outcome_bind].
  destruct (uq_op r); [|by do 2 eexists; rewrite <- Heta..].
  rewrite slice_done by lia. cbn [mbind outcome_bind]. rewrite drop_0.
  assert (length (take (bytes r) (read_buf w b)) = bytes r) as Ht by (rewrite length_take; lia).
  rewrite copy_into_done by (rewrite Ht; lia). cbn [mbind outcome_bind]. do 2 eexists; split; [done|].
  change (map length) with (fmap (M := list) (A := list Z) length).
  rewrite list_fmap_insert, length_splice by (rewrite Ht; lia).
  apply list_insert_id. by rewrite list_lookup_fmap, Hub.
Qed.

(** A slot is emptied and its tag completed. *)
Lemma clear_slot_inv reqs extra rs h w id r bs tr res :
  handler_inv reqs extra rs h w -> inflight_requests h !! id = Some (Some r) ->
  map length bs = map length (bufs h) ->
  handler_inv reqs extra rs
    (mkHandler (max_io_bytes h) (pending_requests h) (<[id := None]> (inflight_requests h)) (uh_channel h)
       (backend_bufs h) bs tr (completed h ++ [(id, res)])) w /\
  occupied (inflight_requests h) ≡ₚ id :: occupied (<[id := None]> (inflight_requests h)).
Proof.
  intros [I1 I2 I3 I4 I5 I6 I7 I8] Hr Hbs. pose proof (occupied_clear _ _ _ Hr) as Hocc.
  assert (length bs = length (bufs h)) as Hlb by (by rewrite <- (length_map length bs), Hbs, length_map).
  split; [|done]. rewrite Hocc in I6, I8. split; cbn; rewrite ?Hlb; try done.
  - by rewrite length_insert.
  - intros i x Hx. destruct (decide (i = id)) as [->|Hne].
    + rewrite list_lookup_insert_eq in Hx by (by apply lookup_lt_Some in Hr). done.
    + rewrite list_lookup_insert_ne in Hx by done. destruct (I4 i x Hx) as [? (b & ub & E1 & E2 & L1 & L2)].
      split; [done|]. assert (map length bs !! i = Some (length ub)) as Hl.
      { rewrite Hbs. change (map length) with (fmap (M := list) (A := list Z) length). by rewrite list_lookup_fmap, E2. }
      change (map length) with (fmap (M := list) (A := list Z) length) in Hl.
      apply list_lookup_fmap_Some in Hl as (ub' & Hlen & Hub'). exists b, ub'. cbn. split_and!; try done; lia.
  - rewrite <- Permutation_middle in I6. by apply NoDup_cons in I6 as [_ I6].
  - rewrite Forall_forall in I7 |- *. intros i Hi. apply I7. rewrite Hocc. by right.
  - rewrite I8, fmap_app. cbn. solve_Permutation.
Qed.

(** A completion for an occupied slot ends its request; one for any other id,
    as a channel may report late for a request that was given up, is ignored. *)
Lemma finish_request_inv reqs extra rs id ok h w :
  handler_inv reqs (id :: extra) rs h w ->
  exists h', finish_request (id, ok) (h, w) = Done (h', w) /\ handler_inv reqs extra rs h' w /\
    pending_requests h' = pending_requests h /\ uh_channel h' = uh_channel h.
Proof.
  intros Hi.
  assert (forall h', ~ (exists r, inflight_requests h' !! id = Some (Some r)) ->
    handler_inv reqs (id :: extra) rs h' w -> handler_inv reqs extra rs h' w) as Hdrop.
  { intros h' Hno [I1 I2 I3 I4 I5 I6 I7 I8]. split; try done. rewrite Forall_forall in I7 |- *. intros i Hin.
    specialize (I7 i Hin). apply elem_of_occupied in Hin. cbn in I7. apply elem_of_cons in I7 as [->|I7]; done. }
  unfold finish_request. destruct (inflight_requests h !! id) as [[r|]|] eqn:Hr.
  2,3: exists h; split_and!; try done; apply Hdrop; [|done]; intros [x Hx]; congruence.
  destruct (hi_slots _ _ _ _ _ Hi id r Hr) as [<- Hfit]. set (h1 := uh_set_tracker _ _).
  destruct (complete_request_done r ok h1 w Hfit) as (res & bs & -> & Hbs). cbn [mbind outcome_bind].
  change (bufs h1) with (bufs h) in Hbs.
  assert (length bs = length (bufs h)) as Hlb by (by rewrite <- (length_map length bs), Hbs, length_map).
  rewrite complete_cmd_done
    by (cbn; rewrite Hlb; pose proof (hi_len _ _ _ _ _ Hi); apply lookup_lt_Some in Hr; lia).
  cbn [mbind outcome_bind].
  destruct (clear_slot_inv _ _ _ _ _ _ _ bs (tracker_clear (request_id r) (uh_tracker h))
    (match res with inr n => Some n | inl _ => None end) Hi Hr Hbs) as [Hi' _].
  eexists; split_and!; [done| |done|done]. apply Hdrop; [|exact Hi'].
  intros [x Hx]. cbn in Hx. rewrite list_lookup_insert_eq in Hx by (by apply lookup_lt_Some in Hr). done.
Qed.

Lemma finish_requests_inv reqs cs rs h w :
  handler_inv reqs cs.*1 rs h w ->
  exists h', for_each finish_request cs (h, w) = Done (h', w) /\ handler_inv reqs [] rs h' w /\
    pending_requests h' = pending_requests h /\ uh_channel h' = uh_channel h.
Proof.
  revert h. induction cs as [|[id ok] cs IH]; intros h Hi; cbn [for_each]; [by eexists|].
  destruct (finish_request_inv reqs cs.*1 rs id ok h w Hi) as (h1 & -> & Hi1 & Hp & Hc). cbn [mbind outcome_bind].
  destruct (IH h1 Hi1) as (h' & -> & Hi' & Hp' & Hc'). eexists; split_and!; try done; congruence.
Qed.

Lemma replicate_shift {A} k (x : A) l : replicate k x ++ x :: l = replicate (S k) x ++ l.
Proof. induction k as [|k IH]; [done|]. cbn [replicate app]. by rewrite IH. Qed.

(** After a failed submission every request in flight is completed. *)
Lemma fail_inflight_inv reqs slots k h w :
  handler_inv reqs [] [] h w -> inflight_requests h = replicate k None ++ slots ->
  exists h', fail_inflight slots k h = Done h' /\ handler_inv reqs [] [] h' w /\
    occupied (inflight_requests h') = [] /\ pending_requests h' = pending_requests h.
Proof.
  revert k h. induction slots as [|[r|] slots IH]; intros k h Hi Hs; cbn [fail_inflight].
  - exists h. split_and!; try done. rewrite Hs, app_nil_r. apply occupied_replicate.
  - assert (inflight_requests h !! k = Some (Some r)) as Hr
      by (rewrite Hs, lookup_app_r, length_replicate, Nat.sub_diag by (rewrite length_replicate; lia); done).
    rewrite complete_cmd_done by (cbn; pose proof (hi_len _ _ _ _ _ Hi); apply lookup_lt_Some in Hr; lia).
    cbn [mbind outcome_bind].
    destruct (clear_slot_inv _ _ _ _ _ _ _ (bufs h) (uh_tracker h) None Hi Hr eq_refl) as [Hi' _].
    apply (IH (S k) _ Hi'). cbn. rewrite Hs. rewrite insert_app_r_alt by (rewrite length_replicate; lia).
    rewrite length_replicate, Nat.sub_diag. apply replicate_shift.
  - apply (IH (S k) h Hi). rewrite Hs. apply replicate_shift.
Qed.

(** If the channel holds nothing when idle, no slot is occupied when it is. *)
Definition quiet h : Prop :=
  forall D : ChannelDrained C, busy (uh_channel h) = false -> occupied (inflight_requests h) = [].

Lemma polled_quiet reqs rs h w c0 w0 cs w1 :
  handler_inv reqs [] rs h w -> poll c0 w0 = Done (cs, uh_channel h, w1) -> quiet h.
Proof.
  intros Hi Ep D Hb. pose proof (hi_out _ _ _ _ _ Hi) as Ho. cbn [app] in Ho.
  rewrite (poll_drained _ _ _ _ _ Ep Hb) in Ho. destruct (occupied _) as [|i l]; [done|].
  apply Forall_cons in Ho as [Ho _]. by apply elem_of_nil in Ho.
Qed.

(** One round of the outer loop: the submission fails and everything is
    completed, or the completions of the channel are handled. *)
Lemma process_pending_round fuel reqs h w :
  handler_inv reqs [] (pending_requests h) h w ->
  negb (bool_decide (pending_requests h = [])) || busy (uh_channel h) = true ->
  exists h' w', handler_inv reqs [] (pending_requests h') h' w' /\ pending_requests h' = [] /\
   (process_pending_requests (S fuel) h w = Done (h', w') /\ occupied (inflight_requests h') = [] \/
    process_pending_requests (S fuel) h w = process_pending_requests fuel h' w' /\
    quiet h' /\ exists c w1 rs w2, poll c w1 = Done (rs, uh_channel h', w2)).
Proof.
  intros Hi Hcond. cbn [process_pending_requests]. rewrite Hcond.
  destruct (enqueue_all_inv _ _ _ false h w Hi) as (q & h1 & w1 & -> & Hi1 & Hp1 & _). cbn [mbind outcome_bind].
  assert (exists r h2 w2, (if q then '(r, ch, w) ← submit (uh_channel h1) w1; Done (r, uh_set_channel h1 ch, w)
                         else Done (Ok tt, h1, w1)) = Done (r, h2, w2) /\
     handler_inv reqs [] [] h2 w2 /\ pending_requests h2 = []) as (r & h2 & w2 & -> & Hi2 & Hp2).
  { destruct q; [|by do 3 eexists]. destruct (serves_submit _ w1 (hi_chan _ _ _ _ _ Hi1)) as (r & ch & w2 & E & Hf & Hc).
    rewrite E. cbn [mbind outcome_bind]. do 3 eexists; split_and!; [done| |done].
    apply (handler_inv_evolves _ _ _ _ _ _ Hf) in Hi1 as [I1 I2 I3 I4 I5 I6 I7 I8]. split; try done. cbn in *.
    eapply Forall_impl; [exact I7|]. intros i. cbn. by rewrite (submit_out _ _ _ _ _ E). }
  cbn [mbind outcome_bind]. destruct r as [u|e].
  2:{ destruct (fail_inflight_inv reqs (inflight_requests h2) 0 h2 w2 Hi2 eq_refl) as (h3 & -> & Hi3 & Ho & Hp3).
      exists h3, w2. rewrite Hp3, Hp2. split_and!; [done..|]. left. by split. }
  destruct (serves_poll _ w2 (hi_chan _ _ _ _ _ Hi2)) as (rs & ch & w3 & E & Hf & Hc). rewrite E. cbn [mbind outcome_bind].
  destruct (finish_requests_inv reqs rs [] (uh_set_channel h2 ch) w3) as (h3 & -> & Hi3 & Hp3 & Hc3).
  { apply (handler_inv_evolves _ _ _ _ _ _ Hf) in Hi2 as [I1 I2 I3 I4 I5 I6 I7 I8]. split; try done. cbn in *.
    eapply Forall_impl; [exact I7|]. intros i. cbn. by rewrite (poll_out _ _ _ _ _ E). }
  cbn [mbind outcome_bind]. exists h3, w3. cbn in Hp3, Hc3. rewrite Hp3, Hp2. rewrite <- Hc3 in E.
  split_and!; try done. right. split_and!; [done| |eauto]. by eapply polled_quiet.
Qed.

Lemma process_pending_inv fuel reqs h w :
  handler_inv reqs [] (pending_requests h) h w -> quiet h ->
  process_pending_requests fuel h w = Panic OutOfFuel \/
  exists h' w', process_pending_requests fuel h w = Done (h', w') /\
    handler_inv reqs [] [] h' w' /\ pending_requests h' = [] /\ quiet h' /\
    (forall D : ChannelDrained C, occupied (inflight_requests h') = []) /\
    (busy (uh_channel h') = true -> occupied (inflight_requests h') = []).
Proof.
  revert h w. induction fuel as [|fuel IH]; intros h w Hi Hq.
  all: destruct (negb (bool_decide (pending_requests h = [])) || busy (uh_channel h)) eqn:Hcond.
  1: by left; cbn [process_pending_requests]; rewrite Hcond.
  2: destruct (process_pending_round fuel reqs h w Hi Hcond)
       as (h1 & w1 & Hi1 & Hp1 & [[-> Ho]|(-> & Hq1 & _)]); [|by apply IH].
  2: right; rewrite Hp1 in Hi1; exists h1, w1; split_and!; try done; by intros ? ?.
  all: right; cbn [process_pending_requests]; rewrite Hcond; apply orb_false_iff in Hcond as [Hp Hb];
    apply negb_false_iff, bool_decide_eq_true_1 in Hp; rewrite Hp in Hi; exists h, w; split_and!; try done;
    [intros D; by apply Hq|congruence].
Qed.

(** With a channel that is idle after a poll, two rounds are enough. *)
Lemma process_pending_prompt `{!ChannelPrompt C} fuel reqs h w :
  handler_inv reqs [] (pending_requests h) h w ->
  exists r, process_pending_requests (S fuel) h w = Done r.
Proof.
  intros Hi. destruct (negb (bool_decide (pending_requests h = [])) || busy (uh_channel h)) eqn:Hcond.
  2:{ cbn [process_pending_requests]. rewrite Hcond. eauto. }
  destruct (process_pending_round fuel reqs h w Hi Hcond)
    as (h1 & w1 & _ & Hp & [[-> _]|(-> & _ & c & w2 & rs & w3 & Ep)]); [eauto|].
  pose proof (poll_idle _ _ _ _ _ Ep) as Hb.
  destruct fuel; cbn [process_pending_requests]; rewrite Hp, Hb; cbn; eauto.
Qed.

(** The kernel hands over a request with a free tag, for sectors the channel
    takes; in between, the rest of the program may act. *)
Definition tag_free (tag : nat) h : Prop :=
  (tag < length (bufs h))%nat /\ tag ∉ map request_id (pending_requests h) ++ occupied (inflight_requests h).
Definition iod_ok w (iod : Iod) : Prop :=
  served w (ublk_op_from_raw (Z.land (op_flags iod) 255)) (start_sector iod) (nr_sectors iod).
Definition iod_bytes (iod : Iod) : nat := Z.to_nat (nr_sectors iod) * SECTOR_SIZE.

Inductive ublk_step : list nat * UblkIoHandler C * World -> list nat * UblkIoHandler C * World -> Prop :=
| us_handle reqs h w fuel tag iod last h' w' : tag_free tag h -> iod_ok w iod ->
    handle fuel tag iod false last h w = Done (h', w') -> ublk_step (reqs, h, w) (reqs ++ [tag], h', w')
| us_world reqs h w w' : stable w w' -> ublk_step (reqs, h, w) (reqs, h, w').

Definition ublk_inv (s : list nat * UblkIoHandler C * World) : Prop :=
  let '(reqs, h, w) := s in
  handler_inv reqs [] (pending_requests h) h w /\ forall D : ChannelDrained C, occupied (inflight_requests h) = [].

(** [handle] either answers at once, or puts the request on the list. *)
Lemma handle_cases reqs h w fuel tag iod last :
  handler_inv reqs [] (pending_requests h) h w -> tag_free tag h -> iod_ok w iod ->
  let n := iod_bytes iod in
  let h1 := uh_set_pending h (pending_requests h ++
     [mkUblkReq (ublk_op_from_raw (Z.land (op_flags iod) 255)) (start_sector iod) (nr_sectors iod) tag n]) in
  ((max_io_bytes h < n)%nat /\ exists h', handle fuel tag iod false last h w = Done (h', w) /\
     handler_inv (reqs ++ [tag]) [] (pending_requests h') h' w /\ inflight_requests h' = inflight_requests h) \/
  ((n <= max_io_bytes h)%nat /\ handler_inv (reqs ++ [tag]) [] (pending_requests h1) h1 w /\
     handle fuel tag iod false last h w = if last : bool then process_pending_requests fuel h1 w else Done (h1, w)).
Proof.
  intros [I1 I2 I3 I4 I5 I6 I7 I8] [Hlt Hfree] Hok n h1. unfold handle. fold (iod_bytes iod) n.
  case_bool_decide as Hn; [left|right].
  - split; [done|]. rewrite complete_cmd_done by done. eexists; split_and!; [done| |done]. split; try done. cbn.
    rewrite I8, fmap_app. cbn. solve_Permutation.
  - split_and!; [lia| |done]. split; try done; cbn.
    + apply Forall_app; split; [done|]. constructor; [|constructor]. by split_and!.
    + rewrite map_app. cbn. rewrite <- app_assoc. cbn. rewrite <- Permutation_middle. by apply NoDup_cons.
    + rewrite I8, map_app. cbn. solve_Permutation.
Qed.

Lemma handle_inv reqs h w fuel tag iod last :
  ublk_inv (reqs, h, w) -> tag_free tag h -> iod_ok w iod ->
  handle fuel tag iod false last h w = Panic OutOfFuel \/
  exists h' w', handle fuel tag iod false last h w = Done (h', w') /\ ublk_inv (reqs ++ [tag], h', w') /\
    (last = true -> (iod_bytes iod <= max_io_bytes h)%nat -> pending_requests h' = [] /\
       (busy (uh_channel h') = true -> occupied (inflight_requests h') = [])).
Proof.
  intros [Hi Hq] Hf Hok. destruct (handle_cases reqs h w fuel tag iod last Hi Hf Hok)
    as [(Hn & h1 & -> & Hi1 & Hin)|(_ & Hi1 & ->)].
  { right. exists h1, w. split_and!; [done|split; [done|by rewrite Hin]|intros _ ?; lia]. }
  set (h1 := uh_set_pending h _) in *. destruct last; [|right; exists h1, w; by split_and!].
  destruct (process_pending_inv fuel _ h1 w Hi1) as [->|(h2 & w2 & -> & Hi2 & Hp & _ & Hd & Hb)]; [by intros D _; apply Hq|by left|].
  right. exists h2, w2. split_and!; [done|split; [by rewrite Hp|done]|done].
Qed.

Lemma ublk_step_inv s s' : ublk_step s s' -> ublk_inv s -> ublk_inv s'.
Proof.
  destruct 1 as [reqs h w fuel tag iod last h' w' Hfree Hok E|reqs h w w' Hs]; intros Hi.
  - destruct (handle_inv reqs h w fuel tag iod last Hi Hfree Hok) as [E1|(h1 & w1 & E1 & Hi1 & _)]; rewrite E1 in E; by simplify_eq.
  - destruct Hi as [Hi Hq]. split; [|done]. by apply (handler_inv_stable _ _ _ _ w).
Qed.

Lemma handler_new_inv al max_io (ch : C) ub qs tracker w h w' :
  cs_inv ch w -> length ub = qs -> fresh_world w ->
  handler_new al max_io ch ub qs tracker w = Done (h, w') -> ublk_inv ([], h, w').
Proof.
  intros Hc Hl Hfr. unfold handler_new. destruct (_ && _); [done|].
  destruct (alloc_pool max_io (replicate qs 0%nat) w) as [bs w1] eqn:E. intros [= <- <-].
  destruct (alloc_pool_any _ _ _ _ _ E Hfr) as (Hf & Hlb & Hall). rewrite length_replicate in Hlb.
  split; [|intros _; apply occupied_replicate].
  split; cbn; rewrite ?occupied_replicate, ?length_replicate; try done.
  - apply (cs_inv_stable _ w); [by apply frame_stable|done].
  - split; lia.
  - intros i r Hr. by apply lookup_replicate in Hr as [? _].
  - constructor.
Qed.
End ublk_accounting.


(** Two reads on a null device, answered at the end of the batch. *)
Definition udemo_world0 : World := mkWorld ∅ 0 ∅ [] (mkShared [] [] 0 0 0) [] true.


(** An oversized request that arrives last stalls its batch: it is
    completed with an error, and [handle] returns without processing the
    requests collected before it, although the kernel has no further entry to
    deliver. *)
Lemma oversized_last_stalls {C} `{IoChannel C} (h : UblkIoHandler C) w fuel tag iod :
  (max_io_bytes h < Z.to_nat (nr_sectors iod) * SECTOR_SIZE)%nat -> (tag < length (bufs h))%nat ->
  exists h', handle fuel tag iod false true h w = Done (h', w) /\
    pending_requests h' = pending_requests h /\ inflight_requests h' = inflight_requests h /\
    completed h' = completed h ++ [(tag, None)].
Proof.
  intros Hn Ht. unfold handle. rewrite bool_decide_eq_true_2 by done. unfold complete_cmd.
  destruct (lookup_lt_is_Some_2 _ _ Ht) as [ub Hub]. rewrite (index_done _ _ _ Hub). by eexists.
Qed.

Lemma oversized_last_stalls_witness :
  let r0 := mkUblkReq UblkRead 8 1 0 512 in
  let h := mkHandler 1024 [r0] [None; None] (mkNullCh []) [0; 1]%nat [[]; []] (tracker_new 2) [] in
  exists h', handle 5 1 (mkIod 0 9 4) false true h udemo_world0 = Done (h', udemo_world0) /\
    pending_requests h' = pending_requests h /\ inflight_requests h' = inflight_requests h /\
    completed h' = completed h ++ [(1%nat, None)].
Proof.
  cbn zeta. apply oversized_last_stalls; apply (bool_decide_unpack _); vm_compute; done.
Defined.
