(* ===== verification/StripeServer.v ===== *)
(** * StripeServer: the stripe protocol, its server sessions and its client

    Models src/src/stripe_server/mod.rs (constants, [StripeServer]),
    session.rs ([StripeServerSession]) and client.rs ([StripeServerClient]).

    Both ends talk over a [DynStream], here the class [Stream]; [Pipe] is a TCP
    connection as one end sees it, with the bytes that will arrive, the way
    reading past them fails, and the fate of coming writes.  [Served] is the
    connection a client has with a live session: what the client writes is
    what the session reads, and the reverse.  The theorems show that a session
    survives any input without panicking, that it ends, and that a client
    reads through the protocol exactly what is stored behind the server. *)
From S2P Require Import Prelude Metadata SharedState World Device StripeSource.

(** ** The protocol *)

Definition METADATA_CMD : Z := 0.
Definition READ_STRIPE_CMD : Z := 1.
Definition HELLO_CMD : Z := 2.
Definition PROTOCOL_VERSION : Z := 1.

Definition STATUS_OK : Z := 0.
Definition STATUS_INVALID_STRIPE : Z := 1.
Definition STATUS_NO_DATA : Z := 2.
Definition STATUS_NOT_FETCHED : Z := 3.
Definition STATUS_INVALID_COMMAND : Z := 254.
Definition STATUS_SERVER_ERROR : Z := 255.

Definition MAX_REMOTE_METADATA_SIZE : Z := 64 * 1024 * 1024.

(** ** Streams: [Read + Write] *)

Class Stream (T : Type) := {
  read_exact : nat -> T -> result (list Z) * T;
  write_all : list Z -> T -> result unit * T;
  flush : T -> result unit * T;
}.

(** A TCP connection as one of its ends sees it. *)
Record Pipe := mkPipe {
  p_in : list Z;                                (* bytes that will arrive *)
  p_end : ErrorKind;                            (* how a read past them fails *)
  p_out : list Z;                               (* bytes sent *)
  p_wfaults : list (option (nat * ErrorKind));  (* fate of the coming writes *)
}.

Definition pipe_read (n : nat) (p : Pipe) : result (list Z) * Pipe :=
  if decide (n <= length (p_in p))%nat
  then (Ok (take n (p_in p)), mkPipe (drop n (p_in p)) (p_end p) (p_out p) (p_wfaults p))
  else (Err (IoError (p_end p)), mkPipe [] (p_end p) (p_out p) (p_wfaults p)).

Definition pipe_write (bs : list Z) (p : Pipe) : result unit * Pipe :=
  match p_wfaults p with
  | Some (k, e) :: fs => (Err (IoError e), mkPipe (p_in p) (p_end p) (p_out p ++ take k bs) fs)
  | None :: fs => (Ok tt, mkPipe (p_in p) (p_end p) (p_out p ++ bs) fs)
  | [] => (Ok tt, mkPipe (p_in p) (p_end p) (p_out p ++ bs) [])
  end.

#[global] Instance pipe_stream : Stream Pipe := {
  read_exact := pipe_read;
  write_all := pipe_write;
  flush p := (Ok tt, p);
}.

(** ** Sessions *)

Record StripeServerSession (C S T : Type) := mkSession {
  ses_stream : T;
  ses_metadata : UbiMetadata;
  ses_channel : C;
  ses_source : option S;
}.
Arguments mkSession {C S T}.
Arguments ses_stream {C S T}.
Arguments ses_metadata {C S T}.
Arguments ses_channel {C S T}.
Arguments ses_source {C S T}.

(** [StripeServer]: the source is built anew for every session, so the builder
    is a function of the world. *)
Record StripeServer (D S : Type) := mkServer {
  srv_metadata : UbiMetadata;
  srv_device : D;
  srv_source_builder : option (World -> outcome (result S));
}.
Arguments mkServer {D S}.
Arguments srv_metadata {D S}.
Arguments srv_device {D S}.
Arguments srv_source_builder {D S}.

Section session.
Context (crc32 : list Z -> Z) {C S T : Type} `{IoChannel C} `{StripeSource S} `{Stream T}.
(** Polls that the 30-second waits leave room for. *)
Context (rounds : nat).

Definition start_session {D} `{BlockDevice D C} (server : StripeServer D S) (stream : T) (w : World)
  : outcome (result (StripeServerSession C S T)) :=
  match create_channel (srv_device server) w with
  | Err e => Done (Err e)
  | Ok ch =>
      match srv_source_builder server with
      | None => Done (Ok (mkSession stream (srv_metadata server) ch None))
      | Some build =>
          r ← build w;
          match r with
          | Err e => Done (Err e)
          | Ok src => Done (Ok (mkSession stream (srv_metadata server) ch (Some src)))
          end
      end
  end.

(** A session and the process it runs in. *)
Definition session_st : Type := StripeServerSession C S T * World.

Definition with_stream (t : T) (s : StripeServerSession C S T) : StripeServerSession C S T :=
  mkSession t (ses_metadata s) (ses_channel s) (ses_source s).
Definition with_ses_channel (c : C) (s : StripeServerSession C S T) : StripeServerSession C S T :=
  mkSession (ses_stream s) (ses_metadata s) c (ses_source s).
Definition with_ses_source (x : option S) (s : StripeServerSession C S T) : StripeServerSession C S T :=
  mkSession (ses_stream s) (ses_metadata s) (ses_channel s) x.

Definition on_stream {A} (f : T -> result A * T) : eff session_st A := fun '(s, w) =>
  let '(r, t) := f (ses_stream s) in Done (r, (with_stream t s, w)).

Definition recv (n : nat) : eff session_st (list Z) := on_stream (read_exact n).
Definition send (bs : list Z) : eff session_st unit := on_stream (write_all bs).
Definition flush_stream : eff session_st unit := on_stream flush.

(** [self.metadata]. *)
Definition metadata_of : eff session_st UbiMetadata := fun '(s, w) => Done (Ok (ses_metadata s), (s, w)).

Definition handle_hello_request : eff session_st unit :=
  _ ← send [STATUS_OK];
  _ ← send (to_le 4 PROTOCOL_VERSION);
  flush_stream.

Definition handle_metadata_request : eff session_st unit :=
  m ← metadata_of;
  let metadata_size := metadata_size m in
  r ← lift_outcome (write_to_buf crc32 m (replicate metadata_size 0));
  metadata_buf ← lift_result r;
  _ ← send [STATUS_OK];
  _ ← send (to_le 8 (Z.of_nat metadata_size));
  _ ← send metadata_buf;
  flush_stream.

Definition stripe_not_fetched (m : UbiMetadata) (stripe_id : Z) : outcome bool :=
  stripe_header ← index (stripe_headers m) (Z.to_nat stripe_id);
  let has_source := has_flag stripe_header HAS_SOURCE in
  let fetched := has_flag stripe_header FETCHED in
  Done (has_source && negb fetched).

Definition stripe_has_data (m : UbiMetadata) (stripe_id : Z) : outcome bool :=
  stripe_header ← index (stripe_headers m) (Z.to_nat stripe_id);
  let written := has_flag stripe_header WRITTEN in
  let has_source := has_flag stripe_header HAS_SOURCE in
  let fetched := has_flag stripe_header FETCHED in
  Done (written || (has_source && fetched)).

(** Calls on the session's channel, and a fresh buffer. *)
Definition on_channel {A} (f : C -> World -> outcome (result A * C * World)) : eff session_st A :=
  fun '(s, w) => '(r, c, w) ← f (ses_channel s) w; Done (r, (with_ses_channel c s, w)).
Definition new_buffer (size : nat) : eff session_st nat :=
  fun '(s, w) => let '(b, w) := shared_buffer size w in Done (Ok b, (s, w)).

Definition read_stripe (stripe_id : Z) : eff session_st nat :=
  m ← metadata_of;
  let stripe_sector_count := wrap32 (stripe_sector_count m) in
  let offset := wrap64 (stripe_id * stripe_sector_count) in
  buffer ← new_buffer (Z.to_nat (stripe_size m));
  _ ← on_channel (fun c w =>
    '(c, w) ← add_read offset stripe_sector_count buffer 0 c w; Done (Ok tt, c, w));
  _ ← on_channel submit;
  _ ← on_channel (wait_for_completion rounds 0);
  mret buffer.

Definition on_source {A} (f : S -> World -> outcome (result A * S * World)) : eff session_st A :=
  fun '(s, w) =>
    match ses_source s with
    | None => Panic UnwrapNone
    | Some src => '(r, src, w) ← f src w; Done (r, (with_ses_source (Some src) s, w))
    end.

Definition read_stripe_from_source (stripe_id : Z) : eff session_st nat :=
  m ← metadata_of;
  buffer ← new_buffer (Z.to_nat (stripe_size m));
  _ ← on_source (ss_request (Z.to_nat stripe_id) buffer);
  _ ← on_source (wait_for_stripe rounds (Z.to_nat stripe_id));
  mret buffer.

(** Reply with a single status byte and no payload. *)
Definition reply_status (status : Z) : eff session_st unit :=
  _ ← send [status]; flush_stream.

(** [notify_server_error]: a failure to notify is only logged. *)
Definition notify_server_error (st : session_st) : session_st :=
  let '(s, w) := st in (with_stream (write_all [STATUS_SERVER_ERROR] (ses_stream s)).2 s, w).

(** [.inspect_err(|_| self.notify_server_error())]. *)
Definition inspect_err_notify {A} (m : eff session_st A) : eff session_st A := fun st =>
  match m st with
  | Done (Err e, st') => Done (Err e, notify_server_error st')
  | other => other
  end.

Definition has_ses_source : eff session_st bool :=
  fun '(s, w) => Done (Ok (bool_decide (is_Some (ses_source s))), (s, w)).

Definition borrow_buf (b : nat) : eff session_st (list Z) := fun '(s, w) => Done (Ok (read_buf w b), (s, w)).

Definition send_stripe (stripe_data : nat) : eff session_st unit :=
  m ← metadata_of;
  let stripe_len_bytes := stripe_size m in
  _ ← send [STATUS_OK];
  _ ← send (to_le 8 stripe_len_bytes);
  data ← borrow_buf stripe_data;
  _ ← send data;
  flush_stream.

Definition handle_read_stripe_request (stripe_id : Z) : eff session_st unit :=
  m ← metadata_of;
  if stripe_count m <=? stripe_id then reply_status STATUS_INVALID_STRIPE else
  not_fetched ← lift_outcome (stripe_not_fetched m stripe_id);
  if not_fetched : bool then
    source ← has_ses_source;
    if negb source then reply_status STATUS_NOT_FETCHED else
    stripe_data ← inspect_err_notify (read_stripe_from_source stripe_id);
    send_stripe stripe_data
  else
    has_data ← lift_outcome (stripe_has_data m stripe_id);
    if negb has_data then reply_status STATUS_NO_DATA else
    stripe_data ← inspect_err_notify (read_stripe stripe_id);
    send_stripe stripe_data.

Definition handle_single_request : eff session_st unit :=
  opcode ← recv 1;
  let opcode := from_le opcode in
  if decide (opcode = HELLO_CMD) then handle_hello_request
  else if decide (opcode = METADATA_CMD) then handle_metadata_request
  else if decide (opcode = READ_STRIPE_CMD) then
    stripe_id_bytes ← recv 8;
    handle_read_stripe_request (from_le stripe_id_bytes)
  else
    _ ← send [STATUS_INVALID_COMMAND];
    flush_stream.

(** [handle_requests]: the loop ends at the first error, which is only logged. *)
Fixpoint handle_requests (fuel : nat) (st : session_st) : outcome session_st :=
  match fuel with
  | O => Panic OutOfFuel
  | Datatypes.S fuel =>
      '(r, st) ← handle_single_request st;
      match r with
      | Ok _ => handle_requests fuel st
      | Err _ => Done st
      end
  end.
End session.
Arguments session_st : clear implicits.

(** ** The client *)

Record StripeServerClient (T : Type) := mkClient {
  cl_stream : T;
  cl_metadata : option UbiMetadata;
}.
Arguments mkClient {T}.
Arguments cl_stream {T}.
Arguments cl_metadata {T}.

Section client.
Context (crc32 : list Z -> Z) {T : Type} `{Stream T}.

Definition new_client (stream : T) : StripeServerClient T := mkClient stream None.

Definition cl_on_stream {A} (f : T -> result A * T) : eff (StripeServerClient T) A := fun c =>
  let '(r, t) := f (cl_stream c) in Done (r, mkClient t (cl_metadata c)).
Definition cl_recv (n : nat) : eff (StripeServerClient T) (list Z) := cl_on_stream (read_exact n).
Definition cl_send (bs : list Z) : eff (StripeServerClient T) unit := cl_on_stream (write_all bs).
Definition cl_flush : eff (StripeServerClient T) unit := cl_on_stream flush.

Definition set_cl_metadata (m : UbiMetadata) : eff (StripeServerClient T) unit := fun c =>
  Done (Ok tt, mkClient (cl_stream c) (Some m)).

Definition fetch_metadata : eff (StripeServerClient T) unit :=
  _ ← cl_send [METADATA_CMD];
  _ ← cl_flush;
  status ← cl_recv 1;
  let status := from_le status in
  if decide (status <> STATUS_OK) then raise (RemoteStatus status) else
  size_bytes ← cl_recv 8;
  let metadata_size := from_le size_bytes in
  if metadata_size <? Z.of_nat SECTOR_SIZE then raise ProtocolError else
  if MAX_REMOTE_METADATA_SIZE <? metadata_size then raise ProtocolError else
  metadata_bytes ← cl_recv (Z.to_nat metadata_size);
  r ← lift_outcome (from_bytes crc32 metadata_bytes);
  metadata ← lift_result r;
  set_cl_metadata metadata.

Definition hello : eff (StripeServerClient T) unit :=
  _ ← cl_send [HELLO_CMD];
  _ ← cl_flush;
  status ← cl_recv 1;
  let status := from_le status in
  if decide (status = STATUS_INVALID_COMMAND) then raise ProtocolError else
  if decide (status <> STATUS_OK) then raise (RemoteStatus status) else
  version_bytes ← cl_recv 4;
  if decide (from_le version_bytes <> PROTOCOL_VERSION) then raise ProtocolError else
  mret tt.

(** [metadata.stripe_size()] is compared as [usize], so as a 64-bit number. *)
Definition fetch_stripe (stripe_idx : Z) : eff (StripeServerClient T) (list Z) := fun c =>
  match cl_metadata c with
  | None => Done (Err MissingStripeMetadata, c)
  | Some metadata =>
      (_ ← cl_send (READ_STRIPE_CMD :: to_le 8 stripe_idx);
       _ ← cl_flush;
       status ← cl_recv 1;
       let status := from_le status in
       if decide (status = STATUS_OK) then
         size_bytes ← cl_recv 8;
         let stripe_size' := from_le size_bytes in
         let expected_stripe_size := stripe_size metadata in
         if decide (stripe_size' <> expected_stripe_size)
         then raise (StripeSizeMismatch stripe_idx expected_stripe_size stripe_size') else
         cl_recv (Z.to_nat stripe_size')
       else if decide (status = STATUS_INVALID_STRIPE) then raise InvalidParameter
       else if decide (status = STATUS_NO_DATA \/ status = STATUS_NOT_FETCHED)
       then raise (StripeUnavailableData stripe_idx)
       else if decide (status = STATUS_SERVER_ERROR) then raise (RemoteStatus STATUS_SERVER_ERROR)
       else raise (RemoteStatus status)) c
  end.

(** The tail of [connect_to_stripe_server], once the stream is established. *)
Definition handshake (stream : T) : outcome (result (StripeServerClient T)) :=
  '(r, c) ← (_ ← hello; fetch_metadata) (new_client stream);
  Done (match r with Ok _ => Ok c | Err e => Err e end).
End client.

(** ** A client connected to a session

    The connection is in order and lossless: bytes the client writes are the
    session's input, and bytes the session writes are the client's.  The client
    blocks in [read_exact] until they are there, so the session, which runs in
    its own process and world, is run on demand; when it ends the connection
    closes. *)

Record Served (C S : Type) := mkServed {
  sv_crc32 : list Z -> Z;
  sv_rounds : nat;
  sv_session : StripeServerSession C S Pipe;
  sv_world : World;
  sv_open : bool;
}.
Arguments mkServed {C S}.
Arguments sv_crc32 {C S}.
Arguments sv_rounds {C S}.
Arguments sv_session {C S}.
Arguments sv_world {C S}.
Arguments sv_open {C S}.

Section served.
Context {C S : Type} `{IoChannel C} `{StripeSource S}.

Definition sv_pipe (sv : Served C S) : Pipe := ses_stream (sv_session sv).
Definition with_pipe (sv : Served C S) (p : Pipe) : Served C S :=
  mkServed (sv_crc32 sv) (sv_rounds sv) (with_stream p (sv_session sv)) (sv_world sv) (sv_open sv).

(** One turn of the session. *)
Definition serve_one (sv : Served C S) : Served C S :=
  match handle_single_request (sv_crc32 sv) (sv_rounds sv) (sv_session sv, sv_world sv) with
  | Done (Ok _, (s, w)) => mkServed (sv_crc32 sv) (sv_rounds sv) s w true
  | Done (Err _, (s, w)) => mkServed (sv_crc32 sv) (sv_rounds sv) s w false
  | Panic _ => mkServed (sv_crc32 sv) (sv_rounds sv) (sv_session sv) (sv_world sv) false
  end.

(** The session runs until [n] bytes are there, it waits for input, or it has
    ended; every turn uses up input. *)
Fixpoint serve_until (turns n : nat) (sv : Served C S) : Served C S :=
  match turns with
  | O => sv
  | Datatypes.S turns =>
      if decide (n <= length (p_out (sv_pipe sv)))%nat then sv
      else if sv_open sv && bool_decide (p_in (sv_pipe sv) <> [])
      then serve_until turns n (serve_one sv) else sv
  end.

Definition served_read (n : nat) (sv : Served C S) : result (list Z) * Served C S :=
  let sv := serve_until (Datatypes.S (length (p_in (sv_pipe sv)))) n sv in
  let p := sv_pipe sv in
  if decide (n <= length (p_out p))%nat
  then (Ok (take n (p_out p)), with_pipe sv (mkPipe (p_in p) (p_end p) (drop n (p_out p)) (p_wfaults p)))
  else (Err (IoError (if sv_open sv then WouldBlock else UnexpectedEof)),
        with_pipe sv (mkPipe (p_in p) (p_end p) [] (p_wfaults p))).

Definition served_write (bs : list Z) (sv : Served C S) : result unit * Served C S :=
  let p := sv_pipe sv in
  if sv_open sv
  then (Ok tt, with_pipe sv (mkPipe (p_in p ++ bs) (p_end p) (p_out p) (p_wfaults p)))
  else (Err (IoError ConnectionReset), sv).

#[global] Instance served_stream : Stream (Served C S) := {
  read_exact := served_read;
  write_all := served_write;
  flush sv := (Ok tt, sv);
}.
End served.

(** A client that asks for one stripe after the other. *)
Fixpoint fetch_each {T} `{Stream T} (ids : list Z) (c : StripeServerClient T)
  : outcome (list (result (list Z)) * StripeServerClient T) :=
  match ids with
  | [] => Done ([], c)
  | id :: ids =>
      '(r, c) ← fetch_stripe id c;
      '(rs, c) ← fetch_each ids c;
      Done (r :: rs, c)
  end.

(** ** A session survives whatever the client sends *)

Lemma frame_stable_source {S} `{SourceSafe S} (src : S) w w' : frame w w' -> ss_inv src w -> ss_inv src w'.
Proof. intros Hf. apply ss_inv_stable. by apply frame_stable. Qed.

Lemma wait_stripe_safe {S} `{SourceSafe S} rounds id (s : S) w :
  ss_inv s w -> exists r s' w', wait_for_stripe rounds id s w = Done (r, s', w') /\
    frame w w' /\ ss_inv s' w' /\ ss_stripe_sectors s' = ss_stripe_sectors s.
Proof.
  revert s w. induction rounds as [|n IH]; intros s w Hs; cbn [wait_for_stripe];
    destruct (ss_poll_safe s w Hs) as (rs & s1 & w1 & -> & Hf & Hs1 & Hss); cbn [mbind outcome_bind];
    destruct (scan_completions id rs) as [[]|]; try by (do 3 eexists; split_and!).
  destruct (IH s1 w1 Hs1) as (r & s2 & w2 & -> & Hf2 & Hs2 & Hss2).
  do 3 eexists; split_and!; [done|by etransitivity|done|congruence].
Qed.

Lemma stripe_sectors_bound m :
  metadata_wf m -> 0 < stripe_sector_count m <= 2 ^ 17 /\ wrap32 (stripe_sector_count m) = stripe_sector_count m /\
  stripe_size m = stripe_sector_count m * 512.
Proof.
  intros [_ _ _ Hs _ _]. unfold MAX_STRIPE_SECTOR_COUNT_SHIFT in Hs. unfold stripe_size, stripe_sector_count, wrap32.
  rewrite Z.shiftl_1_l. assert (0 < 2 ^ stripe_sector_count_shift m <= 2 ^ 17) as Hb
    by (split; [lia|apply Z.pow_le_mono_r; lia]).
  split_and!; [lia|lia|apply Z.mod_small; lia|done].
Qed.

Lemma stripe_flags_done m id :
  0 <= id < stripe_count m ->
  (exists b, stripe_not_fetched m id = Done b) /\ (exists b, stripe_has_data m id = Done b).
Proof.
  intros Hid. unfold stripe_count in Hid. unfold stripe_not_fetched, stripe_has_data.
  destruct (lookup_lt_is_Some_2 (stripe_headers m) (Z.to_nat id)) as [h Hh]; [lia|].
  rewrite (index_done _ _ _ Hh). cbn [mbind outcome_bind]. split; by eexists.
Qed.

Section session_safety.
Context (crc32 : list Z -> Z) (rounds : nat) {C S : Type} `{ChannelSafe C} `{SourceSafe S}.
#[local] Set Default Proof Using "Type*".
Notation St := (session_st C S Pipe).

(** A session between two requests: [n] bounds the input left. *)
Record session_ok (m : UbiMetadata) (n : nat) (st : St) : Prop := {
  so_meta : ses_metadata st.1 = m;
  so_wf : metadata_wf m;
  so_ch : ch_inv (ses_channel st.1) st.2;
  so_src : forall src, ses_source st.1 = Some src ->
    ss_inv src st.2 /\ ss_stripe_sectors src <= stripe_sector_count m;
  so_fresh : fresh_world st.2;
  so_bytes : Forall is_u8 (p_in (ses_stream st.1));
  so_left : (length (p_in (ses_stream st.1)) <= n)%nat;
}.

Lemma ok_stream m n n' s w t :
  session_ok m n (s, w) -> Forall is_u8 (p_in t) -> (length (p_in t) <= n')%nat ->
  session_ok m n' (with_stream t s, w).
Proof. intros []. by constructor. Qed.

(** Calls of the devices touch buffers and files only. *)
Lemma ok_frame m n s w w' c :
  session_ok m n (s, w) -> frame w w' -> ch_inv c w' -> session_ok m n (with_ses_channel c s, w').
Proof.
  intros [I1 I2 I3 I4 I5 I6 I7] Hf Hc. constructor; try done.
  - intros src Hs. destruct (I4 src Hs). split; [by eapply frame_stable_source|done].
  - apply Hf, I5.
Qed.

Lemma ok_source m n s w w' src src' :
  session_ok m n (s, w) -> ses_source s = Some src -> frame w w' -> ss_inv src' w' ->
  ss_stripe_sectors src' = ss_stripe_sectors src -> session_ok m n (with_ses_source (Some src') s, w').
Proof.
  intros [I1 I2 I3 I4 I5 I6 I7] Hs Hf Hi Hss. destruct (I4 src Hs) as [_ Hle]. constructor; try done.
  - eapply ch_inv_stable; [by apply frame_stable|done].
  - cbn. intros ? [= <-]. split; [done|congruence].
  - apply Hf, I5.
Qed.

Lemma send_keeps m n bs : keeps (session_ok m n) (send bs) (fun _ => True).
Proof.
  intros [s w] I. pose proof (so_bytes _ _ _ I) as Hb. pose proof (so_left _ _ _ I) as Hl.
  unfold send, on_stream. cbn [write_all pipe_stream]. unfold pipe_write.
  destruct (p_wfaults (ses_stream s)) as [|[[k e]|] fs];
    (do 2 eexists; split_and!; [done|by eapply ok_stream|done]).
Qed.

Lemma flush_keeps m n : keeps (session_ok m n) flush_stream (fun _ => True).
Proof.
  intros [s w] I. pose proof (so_bytes _ _ _ I) as Hb. pose proof (so_left _ _ _ I) as Hl.
  do 2 eexists; split_and!; [done|by eapply ok_stream|done].
Qed.

Lemma recv_keeps m n k :
  returns (session_ok m n) (recv k) (fun r st => match r with
    | Ok bs => session_ok m (n - k) st /\ (k <= n)%nat /\ Forall is_u8 bs /\ length bs = k
    | Err _ => session_ok m n st end).
Proof.
  intros [s w] I. pose proof (so_bytes _ _ _ I) as Hb. pose proof (so_left _ _ _ I) as Hl. cbn in Hb, Hl.
  unfold recv, on_stream. cbn [read_exact pipe_stream]. unfold pipe_read. case_decide as Hk.
  - do 2 eexists; split; [done|]. split_and!.
    + eapply ok_stream; [done|by apply Forall_drop|cbn; rewrite length_drop; lia].
    + lia.
    + by apply Forall_take.
    + rewrite length_take. lia.
  - do 2 eexists; split; [done|]. eapply ok_stream; [done|by constructor|cbn; lia].
Qed.

Lemma metadata_keeps m n : keeps (session_ok m n) metadata_of (fun m' => m' = m /\ metadata_wf m).
Proof.
  intros [s w] I. do 2 eexists; split_and!; [done|done|]. intros ? [= <-]. by destruct I.
Qed.

Lemma reply_status_keeps m n status : keeps (session_ok m n) (reply_status status) (fun _ => True).
Proof. eapply keeps_bind; [apply send_keeps|]. intros _ _. apply flush_keeps. Qed.

Lemma hello_keeps m n : keeps (session_ok m n) handle_hello_request (fun _ => True).
Proof. do 2 (eapply keeps_bind; [apply send_keeps|]; intros _ _). apply flush_keeps. Qed.

Lemma metadata_request_keeps m n : keeps (session_ok m n) (handle_metadata_request crc32) (fun _ => True).
Proof.
  eapply keeps_bind; [apply metadata_keeps|]. intros m' [-> Hwf].
  eapply keeps_bind.
  { eapply (keeps_lift_outcome _ _ _ (fun r => exists x, r = Ok x)); [|by eexists].
    apply write_to_buf_encode; [done|]. by rewrite length_replicate. }
  intros r [x ->]. eapply keeps_bind; [by apply (keeps_lift_result _ _ (fun _ => True))|]. intros buf _.
  do 3 (eapply keeps_bind; [apply send_keeps|]; intros _ _). apply flush_keeps.
Qed.

Lemma send_stripe_keeps m n b : keeps (session_ok m n) (send_stripe b) (fun _ => True).
Proof.
  eapply keeps_bind; [apply metadata_keeps|]. intros m' [-> Hwf].
  do 2 (eapply keeps_bind; [apply send_keeps|]; intros _ _).
  eapply (keeps_bind _ _ _ (fun _ => True)); [intros [s w] I; do 2 eexists; by split_and!|]. intros bs _.
  eapply keeps_bind; [apply send_keeps|]. intros _ _. apply flush_keeps.
Qed.

Lemma inspect_keeps m n {A} (c : eff St A) Q :
  keeps (session_ok m n) c Q -> keeps (session_ok m n) (inspect_err_notify c) Q.
Proof.
  intros Hc st I. destruct (Hc st I) as (r & [s w] & E & I' & HQ). unfold inspect_err_notify. rewrite E.
  destruct r as [a|e]; [by do 2 eexists|]. do 2 eexists; split_and!; [done| |done].
  destruct (send_keeps m n [STATUS_SERVER_ERROR] (s, w) I') as (r & st' & E' & I'' & _).
  unfold send, on_stream in E'. cbn [notify_server_error].
  destruct (write_all [STATUS_SERVER_ERROR] (ses_stream s)) as [r1 t]. by simplify_eq/=.
Qed.

Lemma new_buffer_ok m n s w :
  session_ok m n (s, w) ->
  exists w1, new_buffer (Z.to_nat (stripe_size m)) (s, w) = Done (Ok (w_next w), (s, w1)) /\
    session_ok m n (s, w1) /\ holds w1 (w_next w) (stripe_sector_count m).
Proof.
  intros I. eexists; split; [done|]. split.
  - pose proof (alloc_frame (Z.to_nat (stripe_size m)) 0 w (so_fresh _ _ _ I)) as Hf.
    pose proof (ok_frame _ _ _ _ _ (ses_channel s) I Hf) as Hok. destruct s; apply Hok.
    eapply ch_inv_stable; [by apply frame_stable|apply I].
  - apply (holds_alloc (Z.to_nat (stripe_size m)) 0 w). destruct (stripe_sectors_bound m (so_wf _ _ _ I)) as (? & _ & ->).
    unfold SECTOR_SIZE. lia.
Qed.

Lemma read_stripe_keeps m n id : keeps (session_ok m n) (read_stripe rounds id) (fun _ => True).
Proof.
  intros [s w] I. pose proof (so_wf _ _ _ I) as Hwf. destruct (stripe_sectors_bound m Hwf) as (Hb & Hw & _).
  unfold read_stripe. rewrite (eff_bind_ok _ _ (s, w) m (s, w)) by (by destruct I as [<-]).
  destruct (new_buffer_ok m n s w I) as (w1 & E1 & I1 & Hh). rewrite (eff_bind_ok _ _ _ _ _ E1). rewrite Hw.
  destruct (add_read_safe (wrap64 (id * stripe_sector_count m)) (stripe_sector_count m) (w_next w) 0
    (ses_channel s) w1 (so_ch _ _ _ I1) Hh) as (c2 & w2 & E2 & Hf2 & Hc2).
  rewrite (eff_bind_ok _ _ _ tt (with_ses_channel c2 s, w2)) by (cbn; by rewrite E2).
  pose proof (ok_frame _ _ _ _ _ _ I1 Hf2 Hc2) as I2.
  destruct (submit_safe c2 w2 Hc2) as (r3 & c3 & w3 & E3 & Hf3 & Hc3).
  pose proof (ok_frame _ _ _ _ _ _ I2 Hf3 Hc3) as I3. destruct r3 as [[]|e]; cbn in I3.
  2:{ do 2 eexists; split_and!; [|exact I3|done]. apply eff_bind_err. cbn. by rewrite E3. }
  rewrite (eff_bind_ok _ _ _ tt (with_ses_channel c3 s, w3)) by (cbn; by rewrite E3).
  destruct (wait_safe rounds 0 c3 w3 Hc3) as (r4 & c4 & w4 & E4 & Hf4 & Hc4).
  pose proof (ok_frame _ _ _ _ _ _ I3 Hf4 Hc4) as I4. destruct r4 as [[]|e]; cbn in I4.
  2:{ do 2 eexists; split_and!; [|exact I4|done]. apply eff_bind_err. cbn. by rewrite E4. }
  rewrite (eff_bind_ok _ _ _ tt (with_ses_channel c4 s, w4)) by (cbn; by rewrite E4).
  do 2 eexists; by split_and!.
Qed.

Lemma read_source_keeps m n id st src :
  session_ok m n st -> ses_source st.1 = Some src ->
  exists r st', read_stripe_from_source rounds id st = Done (r, st') /\ session_ok m n st'.
Proof.
  destruct st as [s w]. intros I Hsrc. cbn in Hsrc. unfold read_stripe_from_source.
  rewrite (eff_bind_ok _ _ (s, w) m (s, w)) by (by destruct I as [<-]).
  destruct (new_buffer_ok m n s w I) as (w1 & E1 & I1 & Hh). rewrite (eff_bind_ok _ _ _ _ _ E1).
  destruct (so_src _ _ _ I1 src Hsrc) as [Hi Hle].
  destruct (ss_request_safe (Z.to_nat id) (w_next w) src w1 Hi (holds_le _ _ _ _ Hh Hle))
    as (r2 & src2 & w2 & E2 & Hf2 & Hi2 & Hss2).
  pose proof (ok_source _ _ _ _ _ _ _ I1 Hsrc Hf2 Hi2 Hss2) as I2.
  destruct r2 as [[]|e].
  2:{ do 2 eexists; split; [|exact I2]. apply eff_bind_err. cbn. by rewrite Hsrc, E2. }
  rewrite (eff_bind_ok _ _ _ tt (with_ses_source (Some src2) s, w2)) by (cbn; by rewrite Hsrc, E2).
  destruct (wait_stripe_safe rounds (Z.to_nat id) src2 w2 Hi2) as (r3 & src3 & w3 & E3 & Hf3 & Hi3 & Hss3).
  pose proof (ok_source _ _ _ _ _ _ _ I2 eq_refl Hf3 Hi3 Hss3) as I3.
  destruct r3 as [[]|e].
  2:{ do 2 eexists; split; [|exact I3]. apply eff_bind_err. cbn. by rewrite E3. }
  rewrite (eff_bind_ok _ _ _ tt (with_ses_source (Some src3) s, w3)) by (cbn; by rewrite E3).
  do 2 eexists; by split.
Qed.

Lemma read_request_keeps m n id :
  0 <= id -> keeps (session_ok m n) (handle_read_stripe_request rounds id) (fun _ => True).
Proof.
  intros Hid. eapply keeps_bind; [apply metadata_keeps|]. intros m' [-> Hwf].
  destruct (Z.leb_spec (stripe_count m) id) as [|Hlt]; [apply reply_status_keeps|].
  destruct (stripe_flags_done m id) as [[nf Enf] [hd Ehd]]; [lia|].
  eapply keeps_bind; [by eapply (keeps_lift_outcome _ _ _ (fun b => b = nf))|]. intros ? ->. destruct nf.
  - intros st I. destruct (ses_source st.1) as [src|] eqn:Hsrc.
    + rewrite (eff_bind_ok _ _ _ true st) by (destruct st; cbn in *; by rewrite Hsrc). cbn [negb].
      apply (returns_bind (fun st' => session_ok m n st' /\ ses_source st'.1 = Some src) _ _
        (fun _ => session_ok m n)); [|intros b st' I'|done|done].
      * intros st' [I' Hsrc']. destruct (read_source_keeps m n id st' src I' Hsrc') as (r & st1 & E1 & I1).
        unfold inspect_err_notify. rewrite E1. destruct r as [b|e]; do 2 eexists; (split; [done|]); [done|].
        edestruct (inspect_keeps m n (fun _ => Done (Err e, st1)) (fun _ : nat => True)) as (? & ? & E & I2 & _);
          [|exact I1|by cbn in E; simplify_eq]. intros ? _. do 2 eexists; by split_and!.
      * destruct (send_stripe_keeps m n b st' I') as (r & st2 & E2 & I2 & _).
        do 2 eexists; split; [exact E2|]. by split.
    + rewrite (eff_bind_ok _ _ _ false st) by (destruct st; cbn in *; by rewrite Hsrc).
      by apply reply_status_keeps.
  - eapply keeps_bind; [by eapply (keeps_lift_outcome _ _ _ (fun b => b = hd))|]. intros ? ->.
    destruct hd; [|apply reply_status_keeps]. cbn [negb].
    eapply keeps_bind; [apply inspect_keeps, read_stripe_keeps|]. intros b _. apply send_stripe_keeps.
Qed.

(** A request uses up at least the byte of its opcode. *)
Lemma single_request_ok m n :
  returns (session_ok m n) (handle_single_request crc32 rounds) (fun r st =>
    match r with Ok _ => session_ok m (n - 1) st /\ (0 < n)%nat | Err _ => session_ok m n st end).
Proof.
  eapply returns_bind; [apply recv_keeps| |done]. intros op st (I & Hn & Hop & Hl).
  assert (forall n', keeps (session_ok m n') (
    if decide (from_le op = HELLO_CMD) then handle_hello_request
    else if decide (from_le op = METADATA_CMD) then handle_metadata_request crc32
    else if decide (from_le op = READ_STRIPE_CMD) then
      stripe_id_bytes ← recv 8; handle_read_stripe_request rounds (from_le stripe_id_bytes)
    else _ ← send [STATUS_INVALID_COMMAND]; flush_stream) (fun _ : unit => True)) as Hk.
  { intros n'. repeat case_decide; [apply hello_keeps|apply metadata_request_keeps| |].
    - eapply keeps_bind; [|intros bs Hbs; apply read_request_keeps, Hbs].
      intros st' I'. destruct (recv_keeps m n' 8 st' I') as (r & st1 & E1 & HQ).
      exists r, st1. destruct r as [bs|e]; [|by split_and!]. destruct HQ as ([] & Hle & Hbs & _).
      split; [done|]. split; [constructor; try done; lia|]. intros ? [= <-]. pose proof (from_le_bound bs Hbs). lia.
    - eapply keeps_bind; [apply send_keeps|]. intros _ _. apply flush_keeps. }
  destruct (Hk (n - 1)%nat st I) as (r & st' & E & I' & _). exists r, st'. split; [exact E|].
  destruct r; [by split; [|lia]|]. destruct I'; constructor; try done; lia.
Qed.

Lemma handle_requests_ok m n fuel st :
  session_ok m n st -> (n < fuel)%nat ->
  exists st', handle_requests crc32 rounds fuel st = Done st' /\ session_ok m n st'.
Proof.
  revert n st. induction fuel as [|fuel IH]; intros n st I Hlt; [lia|]. cbn [handle_requests].
  destruct (single_request_ok m n st I) as ([u|e] & st1 & -> & HQ); cbn [mbind outcome_bind]; [|eauto].
  destruct HQ as [I1 Hn]. destruct (IH (n - 1)%nat st1 I1 ltac:(lia)) as (st' & -> & I').
  eexists; split; [done|]. destruct I'; constructor; try done; lia.
Qed.
End session_safety.

(** ** What a client reads is what the server stores *)

(** What a server without a source answers for a stripe, given the contents of
    its data device. *)
Definition stripe_served (m : UbiMetadata) (data : list Z) (id : Z) : result (list Z) :=
  match stripe_headers m !! Z.to_nat id with
  | None => Err InvalidParameter
  | Some h =>
      let local := has_flag h WRITTEN || (has_flag h HAS_SOURCE && has_flag h FETCHED) in
      let missing := has_flag h HAS_SOURCE && negb (has_flag h FETCHED) in
      let size := Z.to_nat (stripe_size m) in
      if missing || negb local then Err (StripeUnavailableData id) else
      if decide ((S (Z.to_nat id)) * size <= length data)%nat
      then Ok (take size (drop (Z.to_nat id * size) data))
      else Err (RemoteStatus STATUS_SERVER_ERROR)
  end.

(** The bytes of a reply. *)
Definition reply_bytes (m : UbiMetadata) (r : result (list Z)) (status : Z) : list Z :=
  match r with
  | Ok bs => STATUS_OK :: to_le 8 (stripe_size m) ++ bs
  | Err _ => [status]
  end.

Lemma offset_no_wrap m id :
  metadata_wf m -> 0 <= id < stripe_count m -> 
  byte_offset (wrap64 (id * stripe_sector_count m)) = (Z.to_nat id * Z.to_nat (stripe_size m))%nat.
Proof.
  intros Hwf Hid. destruct (stripe_sectors_bound m Hwf) as (Hb & _ & Es). pose proof (wf_count _ Hwf) as Hc.
  unfold stripe_count in Hid. unfold U32_MAX in Hc. unfold byte_offset, wrap64. rewrite Es.
  change (Z.of_nat SECTOR_SIZE) with 512.
  assert (0 <= id * stripe_sector_count m < 2 ^ 50) by nia.
  rewrite (Z.mod_small (id * stripe_sector_count m)) by lia. rewrite Z.mod_small by lia. nia.
Qed.

(** The status byte that goes with an error. *)
Definition status_of (h : option Z) (r : result (list Z)) : Z :=
  match h, r with
  | None, _ => STATUS_INVALID_STRIPE
  | _, Err (RemoteStatus s) => s
  | Some h, _ => if has_flag h HAS_SOURCE && negb (has_flag h FETCHED) then STATUS_NOT_FETCHED else STATUS_NO_DATA
  end.

Lemma stripe_served_cases m data id :
  let r := stripe_served m data id in
  let status := status_of (stripe_headers m !! Z.to_nat id) r in
  (exists bs, r = Ok bs /\ length bs = Z.to_nat (stripe_size m)) \/
  (exists e, r = Err e /\
     (e = InvalidParameter /\ status = STATUS_INVALID_STRIPE \/
      e = StripeUnavailableData id /\ (status = STATUS_NO_DATA \/ status = STATUS_NOT_FETCHED) \/
      e = RemoteStatus STATUS_SERVER_ERROR /\ status = STATUS_SERVER_ERROR)).
Proof.
  unfold stripe_served. destruct (stripe_headers m !! Z.to_nat id) as [h|]; cbn [status_of]; [|right; eauto].
  destruct (has_flag h HAS_SOURCE && negb (has_flag h FETCHED)); cbn [orb]; [right; eauto 10|].
  destruct (negb _); [right; eauto 10|]. case_decide; [left|right; eauto 10].
  eexists; split; [done|]. rewrite length_take, length_drop. lia.
Qed.

Section sync_server.
Context (crc32 : list Z -> Z) (rounds : nat) {S : Type} `{StripeSource S}.
Context (m : UbiMetadata) (path : nat) (data : list Z).
Hypothesis Hwf : metadata_wf m.
Hypothesis Hrounds : (0 < rounds)%nat.

#[local] Set Default Proof Using "All".
Notation St := (session_st SyncIoChannel S Pipe).

(** A session on the file [path], without faults and without a source. *)
Record file_session (st : St) : Prop := {
  fs_meta : ses_metadata st.1 = m;
  fs_source : ses_source st.1 = None;
  fs_file : sync_file (ses_channel st.1) = path;
  fs_idle : sync_finished (ses_channel st.1) = [];
  fs_disk : exists sy, w_disks st.2 !! path = Some (mkDisk data sy);
  fs_faults : w_faults st.2 = [];
  fs_writes : p_wfaults (ses_stream st.1) = [];
}.

Lemma read_stripe_sync id st :
  file_session st -> 0 <= id < stripe_count m ->
  let size := Z.to_nat (stripe_size m) in
  exists st', file_session st' /\ ses_stream st'.1 = ses_stream st.1 /\
    if decide (Datatypes.S (Z.to_nat id) * size <= length data)%nat
    then exists b, read_stripe rounds id st = Done (Ok b, st') /\
      read_buf st'.2 b = take size (drop (Z.to_nat id * size) data)
    else read_stripe rounds id st = Done (Err (IoError OtherIo), st').
Proof.
  destruct st as [s w]. intros F Hid size. pose proof F as [F1 F2 F3 F4 [sy F5] F6 F7]. cbn in F1, F2, F3, F4, F5, F6, F7.
  destruct (stripe_sectors_bound m Hwf) as (Hb & Hw & Es).
  assert (Z.to_nat (stripe_sector_count m) * SECTOR_SIZE = size)%nat as Esz by (unfold size, SECTOR_SIZE; lia).
  set (w1 := (alloc_buf size 0 w).2).
  assert (read_buf w1 (w_next w) = replicate size 0) as Ebuf by (apply (read_buf_alloc size 0 w)).
  pose proof (sync_read_file (wrap64 (id * stripe_sector_count m)) (stripe_sector_count m) (w_next w) 0
    (ses_channel s) w1 data sy) as E3.
  rewrite Esz, Ebuf, length_replicate, F3, offset_no_wrap in E3 by done. specialize (E3 eq_refl F6 F5). fold size in E3.
  cbv zeta in E3. set (src := take size _) in *. set (ok := bool_decide (length src = size)) in *.
  set (w2 := write_buf w1 (w_next w) (overlay (replicate size 0) src size)) in *.
  set (s' := with_ses_channel (mkSyncCh path (sync_writable (ses_channel s)) []) s).
  assert (read_stripe rounds id (s, w) =
    Done (if ok then Ok (w_next w) else Err (IoError OtherIo), (s', w2))) as Er.
  { unfold read_stripe. rewrite (eff_bind_ok _ _ (s, w) m (s, w)) by (cbn; by rewrite F1).
    rewrite (eff_bind_ok _ _ _ (w_next w) (s, w1)) by done. rewrite Hw. unfold on_channel.
    rewrite (eff_bind_ok _ _ _ tt (with_ses_channel (sync_finish (ses_channel s) 0 ok) s, w2))
      by (cbn [add_read sync_channel]; by rewrite E3).
    rewrite (eff_bind_ok _ _ _ tt (with_ses_channel (sync_finish (ses_channel s) 0 ok) s, w2)) by done.
    unfold mbind at 1, eff_bind. cbn [ses_channel with_ses_channel].
    destruct rounds as [|r']; [lia|]. rewrite (sync_wait r' 0 ok) by (cbn; by rewrite F4).
    cbn [mbind outcome_bind]. unfold s'. cbn. rewrite F3. by destruct ok. }
  exists (s', w2). split; [constructor; try done; by exists sy|]. split; [done|]. rewrite Er.
  assert (length src = size <-> Datatypes.S (Z.to_nat id) * size <= length data)%nat as Hsrc
    by (unfold src; rewrite length_take, length_drop; lia).
  case_decide as Hc; unfold ok.
  - rewrite bool_decide_true by by apply Hsrc. eexists; split; [done|].
    cbn [snd]. unfold w2. rewrite read_write_buf_eq. apply overlay_all; rewrite ?length_replicate; [by apply Hsrc|done].
  - by rewrite bool_decide_false by (rewrite Hsrc; done).
Qed.

(** Writing and reading on a stream without faults. *)
Definition put_out (st : St) (bs : list Z) : St :=
  (with_stream (mkPipe (p_in (ses_stream st.1)) (p_end (ses_stream st.1)) (p_out (ses_stream st.1) ++ bs) []) st.1, st.2).
Definition set_in (st : St) (bs : list Z) : St :=
  (with_stream (mkPipe bs (p_end (ses_stream st.1)) (p_out (ses_stream st.1)) []) st.1, st.2).

Lemma put_out_session st bs : file_session st -> file_session (put_out st bs).
Proof. intros []. by constructor. Qed.
Lemma set_in_session st bs : file_session st -> file_session (set_in st bs).
Proof. intros []. by constructor. Qed.
Lemma put_out_app st a b : put_out (put_out st a) b = put_out st (a ++ b).
Proof. unfold put_out; cbn. by rewrite app_assoc. Qed.

Lemma send_session st bs : file_session st -> send bs st = Done (Ok tt, put_out st bs).
Proof.
  destruct st as [s w]. intros F. unfold send, on_stream. cbn [write_all pipe_stream]. unfold pipe_write.
  pose proof (fs_writes _ F) as Hw. cbn in Hw. by rewrite Hw.
Qed.

Lemma recv_session st k bs rest :
  file_session st -> p_in (ses_stream st.1) = bs ++ rest -> length bs = k ->
  recv k st = Done (Ok bs, set_in st rest).
Proof.
  destruct st as [s w]. intros F Hin <-. unfold recv, on_stream. cbn [read_exact pipe_stream]. unfold pipe_read.
  cbn in Hin. rewrite decide_True by (rewrite Hin, length_app; lia).
  rewrite Hin, take_app_length, drop_app_length. pose proof (fs_writes _ F) as Hw. unfold set_in. cbn in *. by rewrite Hw.
Qed.

Lemma flush_session (st : St) : flush_stream st = Done (Ok tt, st).
Proof. by destruct st as [[] w]. Qed.

Ltac talk := repeat (erewrite eff_bind_ok by (apply send_session; auto using put_out_session, set_in_session));
  rewrite ?flush_session, ?put_out_app.

Lemma reply_session status st : file_session st -> reply_status status st = Done (Ok tt, put_out st [status]).
Proof. intros F. unfold reply_status. by talk. Qed.

Lemma metadata_session {B} (k : UbiMetadata -> eff St B) st :
  file_session st -> (x ← metadata_of; k x) st = k m st.
Proof. destruct st as [s w]. intros F. apply eff_bind_ok. pose proof (fs_meta _ F) as Hm. cbn in *. by rewrite Hm. Qed.

Lemma hello_served st rest :
  file_session st -> p_in (ses_stream st.1) = HELLO_CMD :: rest ->
  handle_single_request crc32 rounds st
    = Done (Ok tt, put_out (set_in st rest) (STATUS_OK :: to_le 4 PROTOCOL_VERSION)).
Proof.
  intros F Hin. unfold handle_single_request.
  rewrite (eff_bind_ok _ _ _ _ _ (recv_session st 1 [HELLO_CMD] rest F Hin eq_refl)).
  rewrite decide_True by done. unfold handle_hello_request. by talk.
Qed.

Lemma metadata_served st rest :
  file_session st -> p_in (ses_stream st.1) = METADATA_CMD :: rest ->
  handle_single_request crc32 rounds st
    = Done (Ok tt, put_out (set_in st rest)
        (STATUS_OK :: to_le 8 (Z.of_nat (metadata_size m)) ++ encode crc32 m)).
Proof.
  intros F Hin. unfold handle_single_request.
  rewrite (eff_bind_ok _ _ _ _ _ (recv_session st 1 [METADATA_CMD] rest F Hin eq_refl)).
  rewrite decide_False, decide_True by done. unfold handle_metadata_request.
  rewrite metadata_session by by apply set_in_session.
  erewrite eff_bind_ok; [|unfold lift_outcome; rewrite write_to_buf_encode; [done..|by rewrite length_replicate]].
  rewrite drop_ge, app_nil_r by (by rewrite length_replicate).
  erewrite eff_bind_ok by done. by talk.
Qed.

Lemma borrow_session {B} (k : list Z -> eff St B) b st :
  (x ← borrow_buf b; k x) st = k (read_buf st.2 b) st.
Proof. by destruct st as [s w]. Qed.

Lemma send_stripe_session b st :
  file_session st -> send_stripe b st =
    Done (Ok tt, put_out st (STATUS_OK :: to_le 8 (stripe_size m) ++ read_buf st.2 b)).
Proof.
  intros F. unfold send_stripe. rewrite metadata_session by done. talk. rewrite borrow_session. talk.
  cbn [snd]. by rewrite <- app_assoc.
Qed.

(** One read request, on every branch: the reply is the one of [stripe_served],
    and only a failed read of the device ends the session. *)
Lemma stripe_request_served st id rest :
  file_session st -> is_u64 id -> p_in (ses_stream st.1) = READ_STRIPE_CMD :: to_le 8 id ++ rest ->
  let r := stripe_served m data id in
  exists st1, file_session st1 /\ ses_stream st1.1 = ses_stream (set_in st rest).1 /\
    handle_single_request crc32 rounds st =
      Done (match r with Err (RemoteStatus _) => Err (IoError OtherIo) | _ => Ok tt end,
            put_out st1 (reply_bytes m r (status_of (stripe_headers m !! Z.to_nat id) r))).
Proof.
  intros F Hid Hin r. unfold is_u64, U64_MAX in Hid.
  assert (handle_single_request crc32 rounds st = handle_read_stripe_request rounds id (set_in st rest)) as ->.
  { unfold handle_single_request.
    rewrite (eff_bind_ok _ _ _ _ _ (recv_session st 1 [READ_STRIPE_CMD] (to_le 8 id ++ rest) F Hin eq_refl)).
    rewrite !decide_False, decide_True by done.
    erewrite eff_bind_ok; [|apply (recv_session _ 8 (to_le 8 id) rest);
      [by apply set_in_session|done|apply length_to_le]].
    rewrite from_to_le by (change (256 ^ Z.of_nat 8) with 18446744073709551616; lia). done. }
  pose proof (set_in_session st rest F) as F1. set (st1 := set_in st rest) in *.
  unfold handle_read_stripe_request. rewrite metadata_session by done. unfold r, stripe_served.
  destruct (stripe_headers m !! Z.to_nat id) as [h|] eqn:Hh.
  2:{ apply lookup_ge_None in Hh. rewrite (proj2 (Z.leb_le _ _)) by (unfold stripe_count; lia).
      exists st1. split_and!; [done..|]. by apply reply_session. }
  pose proof (lookup_lt_Some _ _ _ Hh) as Hlt. rewrite (proj2 (Z.leb_gt _ _)) by (unfold stripe_count; lia).
  unfold stripe_not_fetched, stripe_has_data. rewrite (index_done _ _ _ Hh). cbn [mbind outcome_bind].
  erewrite eff_bind_ok by done. cbn [status_of].
  destruct (has_flag h HAS_SOURCE && negb (has_flag h FETCHED)); cbn [orb].
  { exists st1. split_and!; [done..|]. rewrite (eff_bind_ok _ _ _ false st1); [by apply reply_session|].
    destruct st1 as [s1 w1]. pose proof (fs_source _ F1) as Hs. cbn in *. by rewrite Hs. }
  erewrite eff_bind_ok by done. destruct (has_flag h WRITTEN || _); cbn [negb].
  2:{ exists st1. split_and!; [done..|]. by apply reply_session. }
  destruct (read_stripe_sync id st1 F1) as (st2 & F2 & Hst & Hread); [unfold stripe_count; lia|].
  exists st2. split_and!; [done..|]. case_decide.
  - destruct Hread as (b & E & Hb). erewrite eff_bind_ok; [|unfold inspect_err_notify; by rewrite E].
    rewrite send_stripe_session by done. by rewrite Hb.
  - erewrite eff_bind_err; [|unfold inspect_err_notify; by rewrite Hread]. do 2 f_equal.
    pose proof (send_session st2 [STATUS_SERVER_ERROR] F2) as Hsend. destruct st2 as [s2 w2].
    unfold send, on_stream in Hsend. cbn [notify_server_error].
    destruct (write_all [STATUS_SERVER_ERROR] (ses_stream s2)). by simplify_eq/=.
Qed.

(** The connection while the client reads: the session has taken all input and
    written [out], which the client has yet to read. *)
Record linked (op : bool) (out : list Z) (sv : Served SyncIoChannel S) : Prop := {
  lk_crc : sv_crc32 sv = crc32;
  lk_rounds : sv_rounds sv = rounds;
  lk_open : sv_open sv = op;
  lk_session : file_session (sv_session sv, sv_world sv);
  lk_in : p_in (sv_pipe sv) = [];
  lk_out : p_out (sv_pipe sv) = out;
}.

Lemma linked_read op out1 out2 n sv :
  linked op (out1 ++ out2) sv -> length out1 = n ->
  exists sv', read_exact n sv = (Ok out1, sv') /\ linked op out2 sv'.
Proof.
  intros [L1 L2 L3 L4 L5 L6] <-. cbn [read_exact served_stream]. unfold served_read. rewrite L5. cbn [length serve_until].
  assert ((length out1 <= length (p_out (sv_pipe sv)))%nat) as Hle by (rewrite L6, length_app; lia).
  rewrite !(decide_True _ _ Hle). rewrite L6, take_app_length, drop_app_length.
  eexists; split; [done|]. constructor; try done. destruct L4. by constructor.
Qed.

(** A request and the first [n] bytes of its reply. *)
Lemma linked_call sv req r st1 reply1 reply2 n :
  linked true [] sv -> req <> [] -> n = length reply1 -> (0 < n)%nat ->
  handle_single_request crc32 rounds (set_in (sv_session sv, sv_world sv) req) = Done (r, put_out st1 (reply1 ++ reply2)) ->
  file_session st1 -> p_in (ses_stream st1.1) = [] -> p_out (ses_stream st1.1) = [] ->
  exists sv1 sv2, write_all req sv = (Ok tt, sv1) /\ read_exact n sv1 = (Ok reply1, sv2) /\
    linked (is_ok r) reply2 sv2.
Proof.
  intros [L1 L2 L3 L4 L5 L6] Hreq -> Hn Hh F1 Hin1 Hout1. cbn [write_all served_stream]. unfold served_write. rewrite L3.
  eexists _, _. split; [done|].
  assert (with_pipe sv (mkPipe (p_in (sv_pipe sv) ++ req) (p_end (sv_pipe sv)) (p_out (sv_pipe sv)) (p_wfaults (sv_pipe sv)))
    = mkServed crc32 rounds (set_in (sv_session sv, sv_world sv) req).1 (sv_world sv) true) as ->.
  { unfold with_pipe, set_in. pose proof (fs_writes _ L4) as Hw. rewrite L1, L2, L3, L5.
    unfold sv_pipe in *. cbn in *. by rewrite Hw. }
  set (sv0 := mkServed _ _ _ _ _).
  assert (serve_until (Datatypes.S (length (p_in (sv_pipe sv0)))) (length reply1) sv0 =
    mkServed crc32 rounds (put_out st1 (reply1 ++ reply2)).1 (put_out st1 (reply1 ++ reply2)).2 (is_ok r)) as Hs.
  { change (p_in (sv_pipe sv0)) with req. destruct req as [|x req]; [done|]. cbn [length].
    cbn [serve_until]. change (p_out (sv_pipe sv0)) with (p_out (sv_pipe sv)). rewrite L6. cbn [length].
    rewrite decide_False by lia. cbn [sv_open sv0 andb]. rewrite bool_decide_true by done.
    unfold serve_one. cbn [sv_crc32 sv_rounds sv_session sv_world sv0].
    change ((set_in (sv_session sv, sv_world sv) (x :: req)).1, sv_world sv) with (set_in (sv_session sv, sv_world sv) (x :: req)).
    rewrite Hh.
    destruct r; cbn [is_ok]; (rewrite decide_True; [done|]); cbn; rewrite Hout1, !length_app; lia. }
  cbn [read_exact served_stream]. unfold served_read. rewrite Hs.
  rewrite decide_True by (cbn; rewrite Hout1, !length_app; lia). cbn. rewrite Hout1. cbn [app].
  rewrite take_app_length, drop_app_length. split; [done|]. constructor; try done. destruct F1. by constructor.
Qed.

Notation Client := (StripeServerClient (Served SyncIoChannel S)).

Lemma client_call sv mm req r st1 status reply :
  linked true [] sv -> req <> [] ->
  handle_single_request crc32 rounds (set_in (sv_session sv, sv_world sv) req) = Done (r, put_out st1 (status :: reply)) ->
  file_session st1 -> p_in (ses_stream st1.1) = [] -> p_out (ses_stream st1.1) = [] ->
  exists sv', linked (is_ok r) reply sv' /\ forall B (k : list Z -> eff Client B),
    (_ ← cl_send req; _ ← cl_flush; x ← cl_recv 1; k x) (mkClient sv mm) = k [status] (mkClient sv' mm).
Proof.
  intros L Hreq Hh F1 Hin Hout.
  destruct (linked_call sv req r st1 [status] reply 1 L Hreq eq_refl ltac:(lia) Hh F1 Hin Hout)
    as (sv1 & sv2 & E1 & E2 & L2).
  exists sv2. split; [done|]. intros B k. unfold cl_send, cl_recv, cl_flush, cl_on_stream.
  rewrite (eff_bind_ok _ _ _ tt (mkClient sv1 mm)) by (cbn [cl_stream]; by rewrite E1).
  rewrite (eff_bind_ok _ _ _ tt (mkClient sv1 mm)) by done.
  by rewrite (eff_bind_ok _ _ _ [status] (mkClient sv2 mm)) by (cbn [cl_stream]; by rewrite E2).
Qed.

Lemma client_read sv mm op out1 out2 :
  linked op (out1 ++ out2) sv ->
  exists sv', linked op out2 sv' /\ forall B (k : list Z -> eff Client B),
    (x ← cl_recv (length out1); k x) (mkClient sv mm) = k out1 (mkClient sv' mm).
Proof.
  intros L. destruct (linked_read op out1 out2 (length out1) sv L eq_refl) as (sv' & E & L').
  exists sv'. split; [done|]. intros B k. unfold cl_recv, cl_on_stream.
  by rewrite (eff_bind_ok _ _ _ out1 (mkClient sv' mm)) by (cbn [cl_stream]; by rewrite E).
Qed.

Lemma hello_linked sv mm :
  linked true [] sv -> exists sv', hello (mkClient sv mm) = Done (Ok tt, mkClient sv' mm) /\ linked true [] sv'.
Proof.
  intros L. pose proof (set_in_session _ [HELLO_CMD] (lk_session _ _ _ L)) as F.
  pose proof (lk_out _ _ _ L) as Ho.
  destruct (client_call sv mm [HELLO_CMD] _ _ _ _ L ltac:(done) (hello_served _ [] F eq_refl)
    (set_in_session _ _ F) eq_refl Ho) as (sv1 & L1 & E1).
  unfold hello. rewrite E1. change (from_le [STATUS_OK]) with 0.
  rewrite decide_False, decide_False by (unfold STATUS_INVALID_COMMAND, STATUS_OK; lia).
  destruct (client_read sv1 mm true (to_le 4 PROTOCOL_VERSION) []) as (sv2 & L2 & E2); [by rewrite app_nil_r|].
  change 4%nat with (length (to_le 4 PROTOCOL_VERSION)) at 1. rewrite E2. exists sv2. by split.
Qed.

Lemma fetch_metadata_linked sv mm :
  linked true [] sv -> Z.of_nat (metadata_size m) <= MAX_REMOTE_METADATA_SIZE ->
  exists sv', fetch_metadata crc32 (mkClient sv mm) = Done (Ok tt, mkClient sv' (Some m)) /\ linked true [] sv'.
Proof.
  intros L Hmax. pose proof (set_in_session _ [METADATA_CMD] (lk_session _ _ _ L)) as F.
  pose proof (lk_out _ _ _ L) as Ho. pose proof (length_encode crc32 m Hwf) as Hl.
  destruct (client_call sv mm [METADATA_CMD] _ _ _ _ L ltac:(done) (metadata_served _ [] F eq_refl)
    (set_in_session _ _ F) eq_refl Ho) as (sv1 & L1 & E1).
  unfold fetch_metadata. rewrite E1. change (from_le [STATUS_OK]) with 0.
  rewrite decide_False by (unfold STATUS_OK; lia).
  destruct (client_read sv1 mm true _ _ L1) as (sv2 & L2 & E2). rewrite length_to_le in E2. rewrite E2.
  unfold MAX_REMOTE_METADATA_SIZE in Hmax. rewrite from_to_le by (change (256 ^ Z.of_nat 8) with 18446744073709551616; lia).
  rewrite (proj2 (Z.ltb_ge _ _)) by (unfold metadata_size; lia).
  rewrite (proj2 (Z.ltb_ge _ _)) by (unfold MAX_REMOTE_METADATA_SIZE; lia).
  destruct (client_read sv2 mm true (encode crc32 m) []) as (sv3 & L3 & E3); [by rewrite app_nil_r|].
  rewrite Nat2Z.id, <- Hl, E3. pose proof (from_bytes_encode crc32 m [] Hwf eq_refl) as Hfb. rewrite app_nil_r in Hfb.
  rewrite (eff_bind_ok _ _ _ (Ok m) (mkClient sv3 mm)) by (unfold lift_outcome; by rewrite Hfb).
  rewrite (eff_bind_ok _ _ _ m (mkClient sv3 mm)) by done. exists sv3. by split.
Qed.

(** One stripe: the client gets [stripe_served]. *)
Lemma fetch_stripe_linked sv id :
  linked true [] sv -> is_u64 id ->
  let r := stripe_served m data id in
  exists sv', fetch_stripe id (mkClient sv (Some m)) = Done (r, mkClient sv' (Some m)) /\
    linked (match r with Err (RemoteStatus _) => false | _ => true end) [] sv'.
Proof.
  intros L Hid r. set (req := READ_STRIPE_CMD :: to_le 8 id).
  pose proof (set_in_session _ req (lk_session _ _ _ L)) as F.
  destruct (stripe_request_served _ id [] F Hid) as (st1 & F1 & Hs1 & Eh); [by rewrite app_nil_r|]. fold r in Eh.
  assert (p_in (ses_stream st1.1) = []) as Hin by by rewrite Hs1.
  assert (p_out (ses_stream st1.1) = []) as Hout by (rewrite Hs1; apply (lk_out _ _ _ L)).
  unfold fetch_stripe. cbn [cl_metadata].
  destruct (stripe_sectors_bound m Hwf) as (Hb & _ & Es).
  destruct (stripe_served_cases m data id) as [(bs & Hr & Hlen)|(e & Hr & Hst)]; fold r in Hr;
    [|fold r in Hst]; rewrite Hr in *; cbn [reply_bytes] in Eh.
  - destruct (client_call sv (Some m) req _ _ _ _ L ltac:(done) Eh F1 Hin Hout) as (sv1 & L1 & E1).
    rewrite E1. rewrite decide_True by done. cbn [is_ok] in L1.
    destruct (client_read sv1 (Some m) true _ _ L1) as (sv2 & L2 & E2). rewrite length_to_le in E2. rewrite E2.
    rewrite from_to_le by (change (256 ^ Z.of_nat 8) with 18446744073709551616; lia).
    rewrite decide_False by tauto. rewrite <- Hlen.
    destruct (linked_read true bs [] (length bs) sv2) as (sv3 & E3 & L3); [by rewrite app_nil_r|done|].
    exists sv3. split; [|done]. unfold cl_recv, cl_on_stream. cbn [cl_stream]. by rewrite E3.
  - destruct (client_call sv (Some m) req _ _ _ _ L ltac:(done) Eh F1 Hin Hout) as (sv1 & L1 & E1).
    exists sv1. rewrite E1.
    destruct Hst as [[-> Hs]|[[-> [Hs|Hs]]|[-> Hs]]]; rewrite Hs; by split.
Qed.

(** Any sequence of requests for stripes that lie within the file. *)
Lemma fetch_whole_linked sv id :
  linked true [] sv -> is_u64 id -> Z.of_nat (length data) = stripe_count m * stripe_size m ->
  exists sv', fetch_stripe id (mkClient sv (Some m)) = Done (stripe_served m data id, mkClient sv' (Some m)) /\ linked true [] sv'.
Proof.
  intros L Hid Hlen. destruct (fetch_stripe_linked sv id L Hid) as (sv1 & E1 & L1). exists sv1. split; [done|].
  unfold stripe_served in L1. destruct (stripe_headers m !! Z.to_nat id) as [h|] eqn:Hh; [|done].
  destruct (_ || _) in L1; [done|]. rewrite decide_True in L1; [done|].
  apply lookup_lt_Some in Hh. unfold stripe_count in Hlen.
  destruct (stripe_sectors_bound m Hwf) as (Hb & _ & Es). nia.
Qed.

Lemma fetch_each_linked ids sv :
  linked true [] sv -> Forall is_u64 ids -> Z.of_nat (length data) = stripe_count m * stripe_size m ->
  exists sv', fetch_each ids (mkClient sv (Some m)) = Done (map (stripe_served m data) ids, mkClient sv' (Some m)) /\
    linked true [] sv'.
Proof.
  intros L Hids Hlen. revert sv L. induction Hids as [|id ids Hid _ IH]; intros sv L; [by exists sv|].
  cbn [fetch_each map]. destruct (fetch_whole_linked sv id L Hid Hlen) as (sv1 & E1 & L1).
  rewrite E1. cbn [mbind outcome_bind]. destruct (IH sv1 L1) as (sv2 & E2 & L2). rewrite E2. exists sv2. by split.
Qed.
End sync_server.

(** ** Main theorems *)

(** A connection that a server on the file [path] has just accepted. *)
Definition fresh_pipe : Pipe := mkPipe [] WouldBlock [] [].

(** A client that connects has the metadata, and the server waits for it. *)
Lemma connect_linked crc32 rounds m path data sy (S : Type) `{StripeSource S} w :
  metadata_wf m -> Z.of_nat (metadata_size m) <= MAX_REMOTE_METADATA_SIZE -> (0 < rounds)%nat ->
  w_disks w !! path = Some (mkDisk data sy) -> w_faults w = [] ->
  let server := mkServer (S := S) m (mkSyncDev path (Z.of_nat (length data) / 512) true) None in
  exists s sv, start_session server fresh_pipe w = Done (Ok s) /\
    handshake crc32 (mkServed crc32 rounds s w true) = Done (Ok (mkClient sv (Some m))) /\ linked crc32 rounds m path data true [] sv.
Proof.
  intros Hwf Hmax Hr Hd Hf server. unfold start_session. cbn. rewrite Hd.
  set (s := mkSession (S := S) fresh_pipe m _ None). set (sv := mkServed crc32 rounds s w true).
  assert (linked crc32 rounds m path data true [] sv) as L0
    by (constructor; [done..| |done|done]; constructor; try done; by exists sy).
  destruct (hello_linked crc32 rounds m path data Hwf Hr sv None L0) as (sv1 & E1 & L1).
  destruct (fetch_metadata_linked crc32 rounds m path data Hwf Hr sv1 None L1 Hmax) as (sv2 & E2 & L2).
  exists s, sv2. split_and!; [done| |done]. unfold handshake, new_client. by rewrite (eff_bind_ok _ _ _ _ _ E1), E2.
Qed.

(** C19: end to end, the protocol is exact.  A client that connects to a server
    on a file of whole stripes completes the handshake, has the server's
    metadata, and for any sequence of stripe ids, valid or not, repeated or
    not, receives for each one exactly the bytes the file holds at that stripe,
    or the error that says why there are none; the connection never gets out
    of step. *)
Theorem remote_reads_exact crc32 rounds m path data sy (S : Type) `{StripeSource S} ids w :
  metadata_wf m -> Z.of_nat (metadata_size m) <= MAX_REMOTE_METADATA_SIZE -> (0 < rounds)%nat ->
  w_disks w !! path = Some (mkDisk data sy) -> w_faults w = [] ->
  Z.of_nat (length data) = stripe_count m * stripe_size m -> Forall is_u64 ids ->
  let server := mkServer (S := S) m (mkSyncDev path (Z.of_nat (length data) / 512) true) None in
  exists s client client', start_session server fresh_pipe w = Done (Ok s) /\
    handshake crc32 (mkServed crc32 rounds s w true) = Done (Ok client) /\ cl_metadata client = Some m /\
    fetch_each ids client = Done (map (stripe_served m data) ids, client').
Proof.
  intros Hwf Hmax Hr Hd Hf Hlen Hids server.
  destruct (connect_linked crc32 rounds m path data sy S w Hwf Hmax Hr Hd Hf) as (s & sv & Es & Eh & L).
  destruct (fetch_each_linked crc32 rounds m path data Hwf Hr ids sv L Hids Hlen) as (sv' & E & _).
  exists s, (mkClient sv (Some m)), (mkClient sv' (Some m)). by split_and!.
Qed.

(** Two stripes of one sector; the second was never written. *)
Definition demo_metadata : UbiMetadata := with_headers (new_metadata 0 2 0) [WRITTEN; 0].
Definition demo_world : World :=
  mkWorld ∅ 0 {[ 5%nat := mkDisk (replicate 512 7 ++ replicate 512 9) [] ]} [] (new_shared (new_metadata 0 2 0)) [] true.

Lemma demo_metadata_wf : metadata_wf demo_metadata.
Proof. constructor; try done. repeat constructor; vm_compute; congruence. Qed.

Lemma remote_reads_exact_witness :
  let server := mkServer (S := BlockDeviceStripeSource NullIoChannel) demo_metadata
    (mkSyncDev 5 (Z.of_nat (length (replicate 512 7 ++ replicate 512 9)) / 512) true) None in
  exists s client client', start_session server fresh_pipe demo_world = Done (Ok s) /\
    handshake crc32_ieee (mkServed crc32_ieee 1 s demo_world true) = Done (Ok client) /\
    cl_metadata client = Some demo_metadata /\
    fetch_each [0; 1; 2; 0] client =
      Done (map (stripe_served demo_metadata (replicate 512 7 ++ replicate 512 9)) [0; 1; 2; 0], client').
Proof.
  apply (remote_reads_exact crc32_ieee 1 demo_metadata 5 _ [] _ [0; 1; 2; 0] demo_world).
  - apply demo_metadata_wf.
  - vm_compute. congruence.
  - lia.
  - reflexivity.
  - reflexivity.
  - vm_compute. reflexivity.
  - repeat constructor; vm_compute; congruence.
Defined.

Lemma sessions_end crc32 rounds {D C S} `{DeviceSafe D C} `{SourceSafe S} (server : StripeServer D S) pipe w s :
  metadata_wf (srv_metadata server) -> fresh_world w -> Forall is_u8 (p_in pipe) ->
  (forall build src, srv_source_builder server = Some build -> build w = Done (Ok src) ->
     ss_inv src w /\ ss_stripe_sectors src <= stripe_sector_count (srv_metadata server)) ->
  start_session server pipe w = Done (Ok s) ->
  exists st', handle_requests crc32 rounds (Datatypes.S (length (p_in pipe))) (s, w) = Done st'.
Proof.
  intros Hwf Hfr Hb Hsrc E. unfold start_session in E.
  destruct (create_channel (srv_device server) w) as [ch|] eqn:Ec; [|done].
  pose proof (create_channel_safe _ _ _ Ec) as Hc.
  assert (session_ok (srv_metadata server) (length (p_in pipe)) (s, w)) as I.
  { destruct (srv_source_builder server) as [build|] eqn:Eb.
    - destruct (build w) as [[src|]|] eqn:Ebw; [|done..]. cbn [mbind outcome_bind] in E. simplify_eq. constructor; cbn; try done.
      intros ? [= <-]. by eapply Hsrc.
    - simplify_eq. by constructor. }
  destruct (handle_requests_ok crc32 rounds _ _ (Datatypes.S (length (p_in pipe))) _ I) as (st' & Est & _); [lia|].
  eauto.
Qed.

(** C34: a session ends, and ends without a panic, whatever bytes the client
    sends, however reads and writes fail, and whatever the device and the source
    report: it handles at most one request per byte received. *)
Theorem session_ends crc32 rounds {D C S} `{DeviceSafe D C} `{SourceSafe S} (server : StripeServer D S) pipe w s :
  metadata_wf (srv_metadata server) -> fresh_world w -> Forall is_u8 (p_in pipe) ->
  (forall build src, srv_source_builder server = Some build -> build w = Done (Ok src) ->
     ss_inv src w /\ ss_stripe_sectors src <= stripe_sector_count (srv_metadata server)) ->
  start_session server pipe w = Done (Ok s) ->
  exists st', handle_requests crc32 rounds (Datatypes.S (length (p_in pipe))) (s, w) = Done st'.
Proof. intros. by eapply sessions_end. Qed.

(** The input of the witness: a hello, a read of stripe 0, an unknown opcode and
    half a read request. *)
Definition demo_input : list Z := HELLO_CMD :: READ_STRIPE_CMD :: to_le 8 0 ++ [170; READ_STRIPE_CMD; 1; 2].

Lemma session_ends_witness :
  let server := mkServer (S := BlockDeviceStripeSource NullIoChannel) demo_metadata (mkSyncDev 5 2 true) None in
  exists s, start_session server (mkPipe demo_input UnexpectedEof [] [None; Some (2%nat, ConnectionReset)]) demo_world = Done (Ok s) /\
    exists st', handle_requests crc32_ieee 1 (Datatypes.S (length demo_input)) (s, demo_world) = Done st'.
Proof.
  eexists. split; [reflexivity|].
  apply (session_ends crc32_ieee 1 (mkServer (S := BlockDeviceStripeSource NullIoChannel) demo_metadata (mkSyncDev 5 2 true) None)
    (mkPipe demo_input UnexpectedEof [] [None; Some (2%nat, ConnectionReset)])).
  - apply demo_metadata_wf.
  - apply no_buffers_fresh. reflexivity.
  - repeat constructor; vm_compute; congruence.
  - intros build src Hx. discriminate Hx.
  - reflexivity.
Defined.

(** A session reads whole stripes only, so a last stripe that the file does
    not fill cannot be served by the synchronous engine: the read fails, the
    client is told of a server error, and the connection is closed.  (The
    device counts the partial stripe, and its own stripe source reads it.) *)
Lemma partial_last_stripe_unservable crc32 rounds m path data sy (S : Type) `{StripeSource S} s w h :
  metadata_wf m -> (0 < rounds)%nat ->
  w_disks w !! path = Some (mkDisk data sy) -> w_faults w = [] ->
  Z.of_nat (length data) mod 512 = 0 ->
  (stripe_count m - 1) * stripe_size m < Z.of_nat (length data) < stripe_count m * stripe_size m ->
  last (stripe_headers m) = Some h -> has_flag h WRITTEN = true -> has_flag h HAS_SOURCE = false ->
  start_session (mkServer (S := S) m (mkSyncDev path (Z.of_nat (length data) / 512) true) None) fresh_pipe w = Done (Ok s) ->
  exists client', fetch_stripe (stripe_count m - 1) (mkClient (mkServed crc32 rounds s w true) (Some m))
      = Done (Err (RemoteStatus STATUS_SERVER_ERROR), client') /\
    sv_open (cl_stream client') = false /\
    dev_stripe_count (mkSyncDev path (Z.of_nat (length data) / 512) true) (stripe_sector_count m)
      = length (stripe_headers m).
Proof.
  intros Hwf Hr Hd Hf Hmod Hlen Hlast Hw Hs E. unfold start_session in E. cbn in E. rewrite Hd in E. simplify_eq E; clear E; intros <-.
  set (s := mkSession _ _ _ _). set (sv := mkServed crc32 rounds s w true).
  assert (linked crc32 rounds m path data true [] sv) as L0
    by (constructor; [done..| |done|done]; constructor; try done; by exists sy).
  pose proof (wf_count _ Hwf) as Hct. destruct (stripe_sectors_bound m Hwf) as (Hb & _ & Es).
  destruct (fetch_stripe_linked crc32 rounds m path data Hwf Hr sv (stripe_count m - 1) L0) as (sv' & E & L').
  { unfold is_u64, U64_MAX. unfold stripe_count in *. unfold U32_MAX in Hct. lia. }
  assert (stripe_served m data (stripe_count m - 1) = Err (RemoteStatus STATUS_SERVER_ERROR)) as Es'.
  { unfold stripe_served. rewrite last_lookup in Hlast.
    replace (Z.to_nat (stripe_count m - 1)) with (pred (length (stripe_headers m))) by (unfold stripe_count; lia).
    rewrite Hlast, Hw, Hs. cbn [orb andb negb]. rewrite decide_False; [done|]. unfold stripe_count in *. nia. }
  rewrite Es' in E, L'. exists (mkClient sv' (Some m)). split_and!; [exact E|apply L'|].
  unfold dev_stripe_count. cbn [sector_count sync_device sync_sector_count].
  pose proof (div_ceil_spec (Z.of_nat (length data) / 512) (stripe_sector_count m) ltac:(lia)) as Hdc.
  pose proof (Z.div_mod (Z.of_nat (length data)) 512 ltac:(lia)) as Hdm. rewrite Hmod in Hdm. rewrite Es in Hlen.
  unfold stripe_count in *. set (n := Z.of_nat (length data) / 512) in *. nia.
Qed.

Lemma partial_last_stripe_unservable_witness :
  let m := with_headers (new_metadata 1 2 0) [0; WRITTEN] in
  let w := mkWorld ∅ 0 {[ 5%nat := mkDisk (replicate 1536 7) [] ]} [] (new_shared m) [] true in
  exists s client', fetch_stripe 1 (mkClient (mkServed (S := BlockDeviceStripeSource NullIoChannel) crc32_ieee 1 s w true) (Some m))
      = Done (Err (RemoteStatus STATUS_SERVER_ERROR), client') /\
    sv_open (cl_stream client') = false /\
    dev_stripe_count (mkSyncDev 5 (Z.of_nat (length (replicate 1536 7)) / 512) true) (stripe_sector_count m) = 2%nat.
Proof.
  intros m w. eexists.
  apply (partial_last_stripe_unservable crc32_ieee 1 m 5 (replicate 1536 7) [] (BlockDeviceStripeSource NullIoChannel)
    _ w WRITTEN).
  - constructor; try done. repeat constructor; vm_compute; congruence.
  - lia.
  - reflexivity.
  - reflexivity.
  - reflexivity.
  - split; reflexivity.
  - reflexivity.
  - reflexivity.
  - reflexivity.
  - reflexivity.
Defined.
