(* ===== verification/Secrets.v ===== *)
(** * Secrets: resolving the secrets of a configuration

    Models src/src/config/v2/secrets.rs and the [DangerZone] of
    src/src/config/v2/mod.rs.  A secret comes from a file, from the
    configuration text or from the environment, and may be encrypted by another
    secret.  [resolve_secrets] resolves them in rounds, in the unspecified order
    in which a [HashMap] is iterated; [resolves] says declaratively what the
    value of a secret is.  The main theorem is that the two agree: the order
    does not matter, cycles and missing keys are rejected, the loop ends, and
    every source is read at most once, which named pipes need. *)
From stdpp Require Export strings.
From Stdlib Require String Ascii.
From S2P Require Import Prelude Metadata SharedState World Device Crypt.

(** ** Safety overrides *)

Record DangerZone := mkDanger {
  dz_enabled : bool;
  allow_unencrypted_disk : bool;
  allow_inline_plaintext_secrets : bool;
  allow_secret_over_regular_file : bool;
  allow_unencrypted_connection : bool;
  allow_env_secrets : bool;
}.

Definition ignored_flags (dz : DangerZone) : list string :=
  if dz_enabled dz then [] else
  (if allow_unencrypted_disk dz then ["allow_unencrypted_disk"] else []) ++
  (if allow_inline_plaintext_secrets dz then ["allow_inline_plaintext_secrets"] else []) ++
  (if allow_secret_over_regular_file dz then ["allow_secret_over_regular_file"] else []) ++
  (if allow_unencrypted_connection dz then ["allow_unencrypted_connection"] else []) ++
  (if allow_env_secrets dz then ["allow_env_secrets"] else []).

(** ** Definitions of secrets *)

Inductive SecretSource :=
| SecretFile (path : string)
| Inline (data : string)
| EnvVar (var : string).

Inductive SecretEncoding := Plaintext | Base64.

Inductive SecretRef := Ref (id : string).
Definition ref_id (r : SecretRef) : string := match r with Ref id => id end.

Record SecretDef := mkSecretDef {
  sd_source : SecretSource;
  sd_encoding : SecretEncoding;
  sd_encrypted_by : option SecretRef;
}.

Definition MAX_SECRET_BYTES : nat := 8192.
(** Room for base64 and padding, and one byte more. *)
Definition MAX_FILE_BYTES : nat := ndiv_ceil MAX_SECRET_BYTES 3 * 4 + 4.

(** [str::as_bytes]. *)
Definition bytes_of (s : string) : list Z :=
  map (fun a => Z.of_nat (Ascii.nat_of_ascii a)) (String.list_ascii_of_string s).

(** [String::from_utf8]: well-formed byte sequences (Unicode, table 3-7). *)
Definition between (lo hi b : Z) : bool := (lo <=? b) && (b <=? hi).
Definition continuation : Z -> bool := between 128 191.
Fixpoint utf8_valid (bs : list Z) : bool :=
  match bs with
  | [] => true
  | b0 :: bs0 =>
      if between 0 127 b0 then utf8_valid bs0 else
      match bs0 with
      | [] => false
      | b1 :: bs1 =>
          if between 194 223 b0 then continuation b1 && utf8_valid bs1 else
          match bs1 with
          | [] => false
          | b2 :: bs2 =>
              if between 224 239 b0 then
                between (if b0 =? 224 then 160 else 128) (if b0 =? 237 then 159 else 191) b1 &&
                continuation b2 && utf8_valid bs2
              else
              match bs2 with
              | [] => false
              | b3 :: bs3 =>
                  between 240 244 b0 && between (if b0 =? 240 then 144 else 128) (if b0 =? 244 then 143 else 191) b1 &&
                  continuation b2 && continuation b3 && utf8_valid bs3
              end
          end
      end
  end.
Definition string_of_bytes (bs : list Z) : string :=
  String.string_of_list_ascii (map (fun b => Ascii.ascii_of_nat (Z.to_nat b)) bs).
Definition from_utf8 (bs : list Z) : option string := if utf8_valid bs then Some (string_of_bytes bs) else None.

(** [u8::is_ascii_whitespace] and [<[u8]>::trim_ascii_end]. *)
Definition is_ascii_whitespace (b : Z) : bool := existsb (Z.eqb b) [9; 10; 12; 13; 32].
Fixpoint drop_while {A} (f : A -> bool) (l : list A) : list A :=
  match l with [] => [] | x :: l' => if f x then drop_while f l' else l end.
Definition trim_ascii_end (bs : list Z) : list Z := reverse (drop_while is_ascii_whitespace (reverse bs)).

(** [KeyEncryptionCipher::decrypt_aws_credential]. *)
Definition decrypt_aws_credential `{Aead} (k : KeyEncryptionCipher) (cred : list Z) : result string :=
  decrypted_bytes ← match kek_method k with
    | MethodNone => Ok cred
    | Aes256Gcm => '(key, auth) ← init_context k; aes256gcm_decrypt key auth cred
    end;
  or_err InvalidParameter (from_utf8 decrypted_bytes).

(** The process environment: opening a path tells whether it is a regular file
    and what reading it gives.  [base64_decode] is the base64 crate. *)
Class ConfigEnv := {
  open_file : string -> option (bool * result (list Z));
  env_var : string -> option (list Z);
  base64_decode : list Z -> option (list Z);
}.

Section secrets.
Context `{Aead} `{ConfigEnv}.

(** The sources read so far, in order. *)
Definition reads : Type := list string.
Notation E := (eff reads).
Definition note_read (name : string) : E unit := fun log => Done (Ok tt, log ++ [name]).

Definition load_file_source (path : string) (dz : DangerZone) : E (list Z) :=
  match open_file path with
  | None => raise InvalidParameter
  | Some (is_file, contents) =>
      if is_file && negb (dz_enabled dz && allow_secret_over_regular_file dz) then raise InvalidParameter else
      buf ← lift_result contents;
      mret (take (MAX_FILE_BYTES + 1) buf)
  end.

Definition load_inline_source (data : string) (encrypted : bool) (dz : DangerZone) : E (list Z) :=
  if negb (encrypted || dz_enabled dz && allow_inline_plaintext_secrets dz) then raise InvalidParameter
  else mret (bytes_of data).

Definition load_env_source (var : string) (dz : DangerZone) : E (list Z) :=
  if negb (dz_enabled dz && allow_env_secrets dz) then raise InvalidParameter else
  match env_var var with
  | None => raise InvalidParameter
  | Some value => mret value
  end.

Definition load_source (name : string) (source : SecretSource) (encrypted : bool) (dz : DangerZone) : E (list Z) :=
  _ ← note_read name;
  match source with
  | SecretFile path => load_file_source path dz
  | Inline data => load_inline_source data encrypted dz
  | EnvVar var => load_env_source var dz
  end.

Definition decode (bytes : list Z) (encoding : SecretEncoding) : result (list Z) :=
  match encoding with
  | Plaintext => Ok bytes
  | Base64 =>
      match base64_decode (trim_ascii_end bytes) with
      | None => Err InvalidParameter
      | Some bs => Ok bs
      end
  end.

Definition validate_secret_length (bytes : list Z) : result unit :=
  if decide (MAX_SECRET_BYTES < length bytes)%nat then Err InvalidParameter else Ok tt.

Definition maybe_resolve_secret (name : string) (def : SecretDef) (resolved : gmap string (list Z)) (dz : DangerZone)
  : E (option (list Z)) :=
  match sd_encrypted_by def with
  | Some (Ref kek_ref) =>
      match resolved !! kek_ref with
      | None => mret None
      | Some kek_bytes =>
          ciphertext_encoded ← load_source name (sd_source def) true dz;
          ciphertext ← lift_result (decode ciphertext_encoded (sd_encoding def));
          _ ← lift_result (validate_secret_length ciphertext);
          decrypted ← lift_result (aes256gcm_decrypt kek_bytes (bytes_of name) ciphertext);
          mret (Some decrypted)
      end
  | None =>
      bytes_encoded ← load_source name (sd_source def) false dz;
      bytes ← lift_result (decode bytes_encoded (sd_encoding def));
      _ ← lift_result (validate_secret_length bytes);
      mret (Some bytes)
  end.

(** [defs] is the map in the order in which it is iterated. *)
Definition keks_present (defs : list (string * SecretDef)) : bool :=
  forallb (fun '(_, def) =>
    match sd_encrypted_by def with
    | None => true
    | Some (Ref kek_ref) => bool_decide (kek_ref ∈ defs.*1)
    end) defs.

(** One pass over the remaining definitions: the updated map and the
    definitions that have to wait. *)
Fixpoint resolve_pass (dz : DangerZone) (remaining : list (string * SecretDef)) (resolved : gmap string (list Z))
  : E (gmap string (list Z) * list (string * SecretDef)) :=
  match remaining with
  | [] => mret (resolved, [])
  | (name, def) :: remaining =>
      r ← maybe_resolve_secret name def resolved dz;
      match r with
      | Some bytes => resolve_pass dz remaining (<[name := bytes]> resolved)
      | None =>
          '(resolved, waiting) ← resolve_pass dz remaining resolved;
          mret (resolved, (name, def) :: waiting)
      end
  end.

Fixpoint resolve_loop (fuel secret_count : nat) (dz : DangerZone) (remaining : list (string * SecretDef))
    (resolved : gmap string (list Z)) : E (gmap string (list Z)) :=
  if decide (size resolved < secret_count)%nat then
    match fuel with
    | O => fun _ => Panic OutOfFuel
    | S fuel =>
        '(resolved, waiting) ← resolve_pass dz remaining resolved;
        if decide (length waiting = length remaining) then raise InvalidParameter
        else resolve_loop fuel secret_count dz waiting resolved
    end
  else mret resolved.

(** Every round but the last removes a definition, so one round per definition
    is enough. *)
Definition resolve_secrets (defs : list (string * SecretDef)) (dz : DangerZone) : E (gmap string (list Z)) :=
  if negb (keks_present defs) then raise InvalidParameter
  else resolve_loop (length defs) (length defs) dz defs ∅.

Definition get_resolved_secret (r : SecretRef) (resolved : gmap string (list Z)) : result (list Z) :=
  match resolved !! ref_id r with
  | None => Err InvalidParameter
  | Some bytes => Ok bytes
  end.

(** ** What the value of a secret is *)

Definition to_option {A} (r : result A) : option A := match r with Ok a => Some a | Err _ => None end.

(** The bytes of a source, when the overrides permit reading it. *)
Definition source_spec (dz : DangerZone) (src : SecretSource) (encrypted : bool) : option (list Z) :=
  match src with
  | SecretFile path =>
      '(is_file, contents) ← open_file path;
      if decide (is_file = true -> dz_enabled dz = true /\ allow_secret_over_regular_file dz = true)
      then take (MAX_FILE_BYTES + 1) <$> to_option contents else None
  | Inline data =>
      if decide (encrypted = true \/ dz_enabled dz = true /\ allow_inline_plaintext_secrets dz = true)
      then Some (bytes_of data) else None
  | EnvVar var =>
      if decide (dz_enabled dz = true /\ allow_env_secrets dz = true) then env_var var else None
  end.

(** The value of a secret, given its key-encryption key if it has one. *)
Definition value_spec (dz : DangerZone) (name : string) (def : SecretDef) (kek : option (list Z)) : option (list Z) :=
  encoded ← source_spec dz (sd_source def) (bool_decide (is_Some kek));
  bytes ← to_option (decode encoded (sd_encoding def));
  if decide (length bytes <= MAX_SECRET_BYTES)%nat then
    match kek with
    | None => Some bytes
    | Some k => to_option (aes256gcm_decrypt k (bytes_of name) bytes)
    end
  else None.

Inductive resolves (defs : list (string * SecretDef)) (dz : DangerZone) : string -> list Z -> Prop :=
| resolves_plain name def b :
    (name, def) ∈ defs -> sd_encrypted_by def = None ->
    value_spec dz name def None = Some b -> resolves defs dz name b
| resolves_wrapped name def kek k b :
    (name, def) ∈ defs -> sd_encrypted_by def = Some (Ref kek) -> resolves defs dz kek k ->
    value_spec dz name def (Some k) = Some b -> resolves defs dz name b.

(** ** Loading follows the specification *)

(** A call that only appends [l] to the log and gives the result [o]. *)
Definition gives {A} (m : E A) (l : list string) (o : option A) : Prop :=
  forall log, exists r, m log = Done (r, log ++ l) /\ to_option r = o.

Lemma gives_ret {A} (a : A) : gives (mret a) [] (Some a).
Proof. intros log. exists (Ok a). by rewrite app_nil_r. Qed.

Lemma gives_raise {A} e : gives (@raise reads A e) [] None.
Proof. intros log. exists (Err e). by rewrite app_nil_r. Qed.

Lemma gives_lift {A} (r : result A) : gives (lift_result r) [] (to_option r).
Proof. intros log. exists r. by rewrite app_nil_r. Qed.

Lemma gives_bind {A B} (m : E A) (k : A -> E B) l o ok :
  gives m l o -> (forall a, o = Some a -> gives (k a) [] (ok a)) -> gives (m ≫= k) l (o ≫= ok).
Proof.
  intros Hm Hk log. destruct (Hm log) as (r & E1 & Hr). destruct r as [a|e]; cbn in Hr; subst o.
  - destruct (Hk a eq_refl (log ++ l)) as (r & E2 & Hr). exists r.
    rewrite (eff_bind_ok _ _ _ _ _ E1), E2, app_nil_r. by split.
  - exists (Err e). by rewrite (eff_bind_err _ _ _ _ _ E1).
Qed.

Lemma load_source_gives name src enc dz : gives (load_source name src enc dz) [name] (source_spec dz src enc).
Proof.
  assert (forall (k : E (list Z)) o, gives k [] o -> gives (_ ← note_read name; k) [name] o) as Hn.
  { intros k o Hk. apply (gives_bind (note_read name) (fun _ => k) [name] (Some tt) (fun _ => o)); [|done].
    intros log. by exists (Ok tt). }
  unfold load_source. apply Hn. destruct src as [path|data|var]; cbn [source_spec].
  - unfold load_file_source. destruct (open_file path) as [[is_file contents]|]; [|apply gives_raise]. cbn [mbind option_bind].
    assert (is_file && negb (dz_enabled dz && allow_secret_over_regular_file dz) = false <->
      (is_file = true -> dz_enabled dz = true /\ allow_secret_over_regular_file dz = true)) as Hg
      by (destruct is_file, (dz_enabled dz), (allow_secret_over_regular_file dz); naive_solver).
    case_decide as Hd.
    + rewrite (proj2 Hg Hd).
      replace (take _ <$> to_option contents) with (to_option contents ≫= fun a => Some (take (MAX_FILE_BYTES + 1) a))
        by by destruct contents.
      apply gives_bind; [apply gives_lift|].
      intros a _. apply gives_ret.
    + destruct (_ && _); [apply gives_raise|]. by destruct Hd; apply Hg.
  - unfold load_inline_source. case_decide as Hd.
    + assert (enc || dz_enabled dz && allow_inline_plaintext_secrets dz = true) as ->
        by (destruct Hd as [->|[-> ->]]; [done|by destruct enc]). apply gives_ret.
    + assert (enc || dz_enabled dz && allow_inline_plaintext_secrets dz = false) as ->
        by (destruct enc, (dz_enabled dz), (allow_inline_plaintext_secrets dz); naive_solver). apply gives_raise.
  - unfold load_env_source. case_decide as Hd.
    + destruct Hd as [-> ->]. cbn. destruct (env_var var); [apply gives_ret|apply gives_raise].
    + assert (dz_enabled dz && allow_env_secrets dz = false) as ->
        by (destruct (dz_enabled dz), (allow_env_secrets dz); naive_solver). apply gives_raise.
Qed.

(** One resolution step: a secret whose key is not there yet is left alone, any
    other is read once and gets its value. *)
Lemma maybe_resolve_waits name def resolved dz kek log :
  sd_encrypted_by def = Some (Ref kek) -> resolved !! kek = None ->
  maybe_resolve_secret name def resolved dz log = Done (Ok None, log).
Proof. intros He Hr. unfold maybe_resolve_secret. by rewrite He, Hr. Qed.

Lemma maybe_resolve_gives name def resolved dz kek :
  (sd_encrypted_by def = None /\ kek = None \/
   exists k kb, sd_encrypted_by def = Some (Ref k) /\ resolved !! k = Some kb /\ kek = Some kb) ->
  gives (maybe_resolve_secret name def resolved dz) [name] (Some <$> value_spec dz name def kek).
Proof.
  intros Hk log. unfold maybe_resolve_secret, value_spec.
  assert (forall bytes, lift_result (validate_secret_length bytes) = fun s : reads =>
    Done (if decide (length bytes <= MAX_SECRET_BYTES)%nat then Ok tt else Err InvalidParameter, s)) as Hv.
  { intros bytes. unfold validate_secret_length, lift_result. do 2 case_decide; lia || done. }
  destruct Hk as [[-> ->]|(k & kb & -> & -> & ->)].
  - change (bool_decide _) with false.
    destruct (load_source_gives name (sd_source def) false dz log) as ([bs|e] & E & Hs); cbn in Hs.
    2:{ exists (Err e). by rewrite (eff_bind_err _ _ _ _ _ E), <- Hs. }
    rewrite (eff_bind_ok _ _ _ _ _ E). rewrite <- Hs. cbn [mbind option_bind].
    unfold mbind, eff_bind, lift_result at 1. destruct (decode bs (sd_encoding def)) as [x|e]; cbn [to_option]; [|by eexists].
    rewrite Hv. cbn [option_bind]. case_decide; by eexists.
  - change (bool_decide _) with true.
    destruct (load_source_gives name (sd_source def) true dz log) as ([bs|e] & E & Hs); cbn in Hs.
    2:{ exists (Err e). by rewrite (eff_bind_err _ _ _ _ _ E), <- Hs. }
    rewrite (eff_bind_ok _ _ _ _ _ E). rewrite <- Hs. cbn [mbind option_bind].
    unfold mbind, eff_bind, lift_result at 1. destruct (decode bs (sd_encoding def)) as [x|e]; cbn [to_option]; [|by eexists].
    rewrite Hv. cbn [option_bind]. case_decide; [|by eexists]. unfold lift_result.
    destruct (aes256gcm_decrypt kb (bytes_of name) x); by eexists.
Qed.

(** ** The rounds *)

Lemma missing_kek defs :
  keks_present defs = false -> exists n d k, (n, d) ∈ defs /\ sd_encrypted_by d = Some (Ref k) /\ k ∉ defs.*1.
Proof.
  intros Hp. destruct (forallb_exists_false _ _ Hp) as ([n d] & Hd & Hf). exists n, d.
  destruct (sd_encrypted_by d) as [[k]|]; [|done]. exists k. by apply bool_decide_eq_false in Hf.
Qed.

Section rounds.
Context (defs : list (string * SecretDef)) (dz : DangerZone).
Hypothesis Hnd : NoDup defs.*1.
#[local] Set Default Proof Using "All".

Lemma def_unique n d d' : (n, d) ∈ defs -> (n, d') ∈ defs -> d = d'.
Proof.
  intros H1 H2. apply list_elem_of_lookup in H1 as [i H1]. apply list_elem_of_lookup in H2 as [j H2].
  assert (i = j) as <- by (eapply (NoDup_lookup defs.*1); [done|rewrite list_lookup_fmap, H1|rewrite list_lookup_fmap, H2]; done).
  congruence.
Qed.

Lemma resolves_known n b : resolves defs dz n b -> n ∈ defs.*1.
Proof. intros [name def|name def]; apply list_elem_of_fmap; by exists (name, def). Qed.

Lemma resolves_det n b b' : resolves defs dz n b -> resolves defs dz n b' -> b = b'.
Proof.
  intros R. revert b'. induction R as [n d b Hd He Hv|n d k kb b Hd He Hk IH Hv]; intros b' R';
    inversion R' as [n' d' b'' Hd' He' Hv'|n' d' k' kb' b'' Hd' He' Hk' Hv']; subst;
    pose proof (def_unique _ _ _ Hd Hd') as <-; try congruence.
  rewrite He in He'. injection He' as <-. apply IH in Hk' as <-. congruence.
Qed.

(** The values found so far are right. *)
Definition sound (resolved : gmap string (list Z)) : Prop :=
  forall n b, resolved !! n = Some b -> resolves defs dz n b.

(** A secret whose turn has come: either it gets its value, or it has none. *)
Lemma turn_spec name def resolved log :
  (name, def) ∈ defs -> sound resolved ->
  (exists kek, sd_encrypted_by def = Some (Ref kek) /\ resolved !! kek = None /\
     maybe_resolve_secret name def resolved dz log = Done (Ok None, log)) \/
  (exists b, resolves defs dz name b /\
     maybe_resolve_secret name def resolved dz log = Done (Ok (Some b), log ++ [name])) \/
  (exists e, (forall b, ~ resolves defs dz name b) /\
     maybe_resolve_secret name def resolved dz log = Done (Err e, log ++ [name])).
Proof.
  intros Hd Hs. assert ((exists kek, sd_encrypted_by def = Some (Ref kek) /\ resolved !! kek = None) \/
    exists kek, (sd_encrypted_by def = None /\ kek = None \/
      exists k kb, sd_encrypted_by def = Some (Ref k) /\ resolved !! k = Some kb /\ kek = Some kb)) as [(k & He & Hr)|[kek Hk]].
  { destruct (sd_encrypted_by def) as [[k]|] eqn:He; [|right; exists None; by left].
    destruct (resolved !! k) as [kb|] eqn:Hr; [right; exists (Some kb); right; eauto|left; eauto]. }
  { left. exists k. split_and!; [done..|]. by eapply maybe_resolve_waits. }
  right. destruct (maybe_resolve_gives name def resolved dz kek Hk log) as (r & E & Ho).
  destruct (value_spec dz name def kek) as [b|] eqn:Hv.
  - left. exists b. destruct r as [x|]; [|done]. cbn in Ho. injection Ho as ->. split; [|done].
    destruct Hk as [[He ->]|(k & kb & He & Hr & ->)]; [by eapply resolves_plain|].
    eapply resolves_wrapped; eauto.
  - right. destruct r as [|e]; [done|]. exists e. split; [|done]. intros b R.
    destruct Hk as [[He ->]|(k & kb & He & Hr & ->)];
      inversion R as [n' d' b'' Hd' He' Hv'|n' d' k' kb' b'' Hd' He' Hk' Hv']; subst;
      pose proof (def_unique _ _ _ Hd Hd') as <-; try congruence.
    rewrite He in He'. injection He' as <-. apply Hs in Hr. rewrite (resolves_det _ _ _ Hk' Hr) in Hv'. congruence.
Qed.

Lemma resolve_pass_spec rem resolved log :
  sound resolved -> (forall x, x ∈ rem -> x ∈ defs) -> NoDup rem.*1 -> (forall n, n ∈ rem.*1 -> resolved !! n = None) ->
  exists r read, resolve_pass dz rem resolved log = Done (r, log ++ read) /\ read ⊆+ rem.*1 /\
    match r with
    | Ok (resolved', waiting) => exists new, rem ≡ₚ new ++ waiting /\ read = new.*1 /\ sound resolved' /\
        (size resolved' = size resolved + length new)%nat /\
        dom resolved' = dom resolved ∪ list_to_set new.*1 /\
        (forall n d, (n, d) ∈ waiting -> exists kek, sd_encrypted_by d = Some (Ref kek) /\ resolved !! kek = None)
    | Err _ => exists n, n ∈ rem.*1 /\ forall b, ~ resolves defs dz n b
    end.
Proof.
  revert resolved log. induction rem as [|[name def] rem IH]; intros resolved log Hs Hin Hn Hfresh; cbn [resolve_pass].
  { exists (Ok (resolved, [])), []. rewrite app_nil_r. split_and!; [done..|]. exists []. split_and!; try done.
    - set_solver.
    - intros n d Hx. by apply elem_of_nil in Hx. }
  apply NoDup_cons in Hn as [Hnn Hn]. cbn [fmap list_fmap fst] in *.
  assert (forall x, x ∈ rem -> x ∈ defs) as Hin' by (intros x Hx; apply Hin; by right).
  destruct (turn_spec name def resolved log) as [(k & He & Hr & E)|[(b & R & E)|(e & Hno & E)]]; [apply Hin; left|done|..].
  - rewrite (eff_bind_ok _ _ _ _ _ E).
    destruct (IH resolved log Hs Hin' Hn) as (r & read & E' & Hsub & HQ); [intros n Hx; apply Hfresh; by right|].
    destruct r as [[resolved' waiting]|e].
    + rewrite (eff_bind_ok _ _ _ _ _ E'). do 2 eexists; split_and!; [done|by apply submseteq_cons|].
      destruct HQ as (new & Hp & -> & Hs' & Hsz & Hdom & Hw). exists new. split_and!; try done.
      * rewrite Hp. by rewrite Permutation_middle.
      * intros n d [[= -> ->]|Hx]%elem_of_cons; [eauto|naive_solver].
    + rewrite (eff_bind_err _ _ _ _ _ E'). do 2 eexists; split_and!; [done|by apply submseteq_cons|].
      destruct HQ as (n & Hx & Hno). exists n. split; [by right|done].
  - rewrite (eff_bind_ok _ _ _ _ _ E).
    destruct (IH (<[name := b]> resolved) (log ++ [name])) as (r & read & E' & Hsub & HQ); [|done|done|..].
    { intros n b' [[<- <-]|[_ Hl]]%lookup_insert_Some; auto. }
    { intros n Hx. rewrite lookup_insert_ne by (by intros ->). apply Hfresh. by right. }
    exists r, (name :: read). rewrite <- app_assoc in E'. split_and!; [done|by apply submseteq_skip|].
    destruct r as [[resolved' waiting]|e]; [|destruct HQ as (n & Hx & Hno); exists n; split; [by right|done]].
    destruct HQ as (new & Hp & -> & Hs' & Hsz & Hdom & Hw). exists ((name, def) :: new). split_and!; try done.
    + by rewrite Hp.
    + rewrite Hsz, map_size_insert_None by (apply Hfresh; left). cbn [length]. lia.
    + rewrite Hdom, dom_insert_L. cbn [fmap list_fmap fst list_to_set]. set_solver.
    + intros n d Hx. destruct (Hw n d Hx) as (k & He & Hl). exists k. split; [done|].
      by apply lookup_insert_None in Hl as [? _].
  - rewrite (eff_bind_err _ _ _ _ _ E). do 2 eexists; split_and!; [done| |].
    + apply submseteq_skip, submseteq_nil_l.
    + exists name. split; [left|done].
Qed.

(** The secrets that wait for one another have no value. *)
Lemma stuck_unresolved rem (resolved : gmap string (list Z)) :
  keks_present defs = true -> (forall x, x ∈ rem -> x ∈ defs) ->
  (forall n, n ∈ defs.*1 -> n ∈ rem.*1 \/ is_Some (resolved !! n)) ->
  (forall n d, (n, d) ∈ rem -> exists kek, sd_encrypted_by d = Some (Ref kek) /\ resolved !! kek = None) ->
  forall n b, resolves defs dz n b -> n ∉ rem.*1.
Proof.
  intros Hp Hin Hcov Hw n b R. induction R as [n d b Hd He Hv|n d k kb b Hd He Hk IH Hv];
    intros ([n' d'] & -> & Hx)%list_elem_of_fmap; cbn in *; pose proof (def_unique _ _ _ Hd (Hin _ Hx)) as <-;
    destruct (Hw _ _ Hx) as (k' & He' & Hr); [congruence|].
  rewrite He in He'. injection He' as <-. destruct (Hcov k) as [?|[? ?]]; [|done|congruence].
  by eapply resolves_known.
Qed.

Lemma resolve_loop_spec fuel rem resolved log :
  keks_present defs = true -> sound resolved -> (forall x, x ∈ rem -> x ∈ defs) -> NoDup rem.*1 ->
  (forall n, n ∈ rem.*1 -> resolved !! n = None) -> (forall n, n ∈ defs.*1 -> n ∈ rem.*1 \/ is_Some (resolved !! n)) ->
  (size resolved + length rem = length defs)%nat -> (length rem <= fuel)%nat ->
  exists r read, resolve_loop fuel (length defs) dz rem resolved log = Done (r, log ++ read) /\ read ⊆+ rem.*1 /\
    match r with
    | Ok m => sound m /\ forall n, n ∈ defs.*1 -> is_Some (m !! n)
    | Err _ => exists n, n ∈ defs.*1 /\ forall b, ~ resolves defs dz n b
    end.
Proof.
  intros Hp. revert rem resolved log. induction fuel as [|fuel IH]; intros rem resolved log Hs Hin Hn Hfresh Hcov Hsz Hf;
    cbn [resolve_loop]; (case_decide as Hlt; [|exists (Ok resolved), []; rewrite app_nil_r; split_and!;
      [done|apply submseteq_nil_l|done|intros n Hx; destruct (Hcov n Hx) as [Hy|?]; [|done];
       destruct rem; [by apply elem_of_nil in Hy|cbn in *; lia]]]); [lia|].
  destruct (resolve_pass_spec rem resolved log Hs Hin Hn Hfresh) as (r & read & E & Hsub & HQ).
  assert (forall n, n ∈ rem.*1 -> n ∈ defs.*1) as Hnames
    by (intros n (x & -> & Hx)%list_elem_of_fmap; apply list_elem_of_fmap; eauto).
  destruct r as [[resolved' waiting]|e].
  2:{ rewrite (eff_bind_err _ _ _ _ _ E). do 2 eexists; split_and!; [done..|]. naive_solver. }
  rewrite (eff_bind_ok _ _ _ _ _ E). destruct HQ as (new & Hperm & -> & Hs' & Hsz' & Hdom & Hw).
  pose proof (Permutation_length Hperm) as Hlen. rewrite length_app in Hlen. case_decide as Hstuck.
  - do 2 eexists; split_and!; [done|done|]. destruct new; [|cbn in *; lia]. cbn [app] in Hperm.
    destruct rem as [|[n d] rem]; [cbn in *; lia|]. exists n. split; [apply Hnames; left|]. intros b R.
    refine (stuck_unresolved ((n, d) :: rem) resolved Hp Hin Hcov _ n b R _); [|left].
    intros n' d' Hx. apply (Hw n'). by rewrite <- Hperm.
  - assert (rem.*1 ≡ₚ new.*1 ++ waiting.*1) as Hnp by (rewrite Hperm, fmap_app; done).
    rewrite Hnp in Hn. apply NoDup_app in Hn as (Hn1 & Hdisj & Hn2).
    destruct (IH waiting resolved' (log ++ new.*1)) as (r & read & E' & Hsub' & HQ'); try done.
    + intros x Hx. apply Hin. rewrite Hperm. apply elem_of_app. by right.
    + intros n Hx. apply not_elem_of_dom. rewrite Hdom, not_elem_of_union, elem_of_list_to_set. split.
      * apply not_elem_of_dom, Hfresh. rewrite Hnp. apply elem_of_app. by right.
      * intros Hy. by apply (Hdisj n).
    + intros n Hx. destruct (Hcov n Hx) as [Hy|Hy].
      * rewrite Hnp in Hy. apply elem_of_app in Hy as [Hy|?]; [right|by left].
        apply elem_of_dom. rewrite Hdom. set_solver.
      * right. apply elem_of_dom. rewrite Hdom. apply elem_of_dom in Hy. set_solver.
    + lia.
    + lia.
    + exists r, (new.*1 ++ read). rewrite app_assoc. split_and!; [done| |done].
      rewrite Hnp. by apply submseteq_app.
Qed.

Lemma resolve_secrets_spec :
  exists r read, resolve_secrets defs dz [] = Done (r, read) /\ NoDup read /\
    match r with
    | Ok m => (forall n b, m !! n = Some b <-> resolves defs dz n b) /\ forall n, n ∈ defs.*1 -> is_Some (m !! n)
    | Err _ => exists n, n ∈ defs.*1 /\ forall b, ~ resolves defs dz n b
    end.
Proof.
  unfold resolve_secrets. destruct (keks_present defs) eqn:Hp; cbn [negb].
  - destruct (resolve_loop_spec (length defs) defs ∅ [] Hp) as (r & read & E & Hsub & HQ); try done.
    + intros n Hn. by left.
    + exists r, read. split_and!; [done| |].
      { apply submseteq_Permutation in Hsub as [rest Hrest]. rewrite Hrest in Hnd. by apply NoDup_app in Hnd as [? _]. }
      destruct r as [m|]; [|done].
      destruct HQ as [Hs Hall]. split; [|done]. intros n b. split; [apply Hs|]. intros R.
      destruct (Hall n) as [b' Hb]; [by eapply resolves_known|]. by rewrite Hb, (resolves_det _ _ _ R (Hs _ _ Hb)).
  - exists (Err InvalidParameter), []. split_and!; [done|apply NoDup_nil_2|].
    destruct (missing_kek defs Hp) as (n & d & k & Hd & He & Hk). exists n.
    split; [apply list_elem_of_fmap; by exists (n, d)|]. intros b R.
    inversion R as [n' d' b'' Hd' He' Hv'|n' d' k' kb' b'' Hd' He' Hk' Hv']; subst;
      pose proof (def_unique _ _ _ Hd Hd') as <-; rewrite He in He'; [done|]. injection He' as <-.
    by apply Hk, (resolves_known k kb').
Qed.
End rounds.
End secrets.

(** ** Main theorems *)

(** C36: resolving secrets follows its declarative meaning.  For any set of
    definitions, in any iteration order, the loop ends and reads every source at
    most once; if it succeeds, the map holds exactly the values that [resolves]
    derives and has one for every definition; if it fails, some definition has
    no value: its key is missing or part of a cycle, its source is unreadable or
    not permitted, too long, badly encoded, or does not decrypt. *)
Theorem secrets_resolved_exactly `{Aead} `{ConfigEnv} defs dz :
  NoDup defs.*1 ->
  exists r read, resolve_secrets defs dz [] = Done (r, read) /\ NoDup read /\
    match r with
    | Ok m => (forall n b, m !! n = Some b <-> resolves defs dz n b) /\ forall n, n ∈ defs.*1 -> is_Some (m !! n)
    | Err _ => exists n, n ∈ defs.*1 /\ forall b, ~ resolves defs dz n b
    end.
Proof. apply resolve_secrets_spec. Qed.

Lemma resolves_perm `{Aead} `{ConfigEnv} defs defs' dz n b :
  defs ≡ₚ defs' -> resolves defs dz n b -> resolves defs' dz n b.
Proof.
  intros Hp. induction 1 as [n d b Hd He Hv|n d k kb b Hd He Hk IH Hv]; rewrite Hp in Hd;
    [by eapply resolves_plain|by eapply resolves_wrapped].
Qed.

(** A key in a pipe, a secret wrapped by it, listed before the key. *)
Definition toy_env : ConfigEnv := {|
  open_file p := if decide (p = "/run/kek") then Some (false, Ok (replicate 32 1)) else None;
  env_var _ := None;
  base64_decode bs := Some bs;
|}.
Definition toy_defs : list (string * SecretDef) :=
  [("psk", mkSecretDef (Inline "0123456789abcdefghijklmnopqrstuvwxyz0123456789") Base64 (Some (Ref "kek")));
   ("kek", mkSecretDef (SecretFile "/run/kek") Plaintext None)].
Definition no_danger : DangerZone := mkDanger false false false false false false.

Lemma toy_defs_nodup : NoDup toy_defs.*1.
Proof. by vm_compute; repeat constructor; set_solver. Qed.

Lemma secrets_resolved_exactly_witness :
  exists r read, @resolve_secrets toy_aead toy_env toy_defs no_danger [] = Done (r, read) /\ NoDup read /\
    match r with
    | Ok m => (forall n b, m !! n = Some b <-> @resolves toy_aead toy_env toy_defs no_danger n b) /\
        forall n, n ∈ toy_defs.*1 -> is_Some (m !! n)
    | Err _ => exists n, n ∈ toy_defs.*1 /\ forall b, ~ @resolves toy_aead toy_env toy_defs no_danger n b
    end.
Proof. apply (@secrets_resolved_exactly toy_aead toy_env toy_defs no_danger), toy_defs_nodup. Defined.

(** Both secrets are found, the wrapped one in the second round. *)
Example toy_defs_resolved :
  exists m, @resolve_secrets toy_aead toy_env toy_defs no_danger [] = Done (Ok m, ["kek"; "psk"]) /\
    m !! "kek" = Some (replicate 32 1) /\ is_Some (m !! "psk").
Proof. eexists. split_and!; [vm_compute; reflexivity|vm_compute; reflexivity|by eexists]. Qed.

(** C38: the order in which the map of definitions is iterated, which Rust leaves
    unspecified, has no influence: any two orders accept the same definitions
    and give the same values. *)
Theorem secrets_order_irrelevant `{Aead} `{ConfigEnv} defs defs' dz r read :
  NoDup defs.*1 -> defs ≡ₚ defs' -> resolve_secrets defs dz [] = Done (r, read) ->
  exists r' read', resolve_secrets defs' dz [] = Done (r', read') /\ to_option r' = to_option r.
Proof.
  intros Hnd Hp E. assert (NoDup defs'.*1) as Hnd' by (by rewrite <- Hp).
  destruct (resolve_secrets_spec defs dz Hnd) as (r1 & read1 & E1 & _ & H1). rewrite E in E1. simplify_eq E1.
  intros <- <-. destruct (resolve_secrets_spec defs' dz Hnd') as (r' & read' & E' & _ & H2).
  exists r', read'. split; [done|].
  destruct r as [m|e], r' as [m'|e']; cbn.
  - f_equal. apply map_eq. intros n. apply option_eq. intros b. destruct H1 as [H1 _], H2 as [H2 _].
    rewrite H1, H2. split; intros R; (eapply resolves_perm; [|exact R]); done.
  - destruct H2 as (n & Hn & Hno), H1 as [H1 Hall]. destruct (Hall n) as [b Hb]; [by rewrite Hp|].
    destruct (Hno b). by eapply resolves_perm, H1.
  - destruct H1 as (n & Hn & Hno), H2 as [H2 Hall]. destruct (Hall n) as [b Hb]; [by rewrite <- Hp|].
    destruct (Hno b). by eapply resolves_perm, H2.
  - done.
Qed.

Lemma secrets_order_irrelevant_witness :
  exists r' read', @resolve_secrets toy_aead toy_env (reverse toy_defs) no_danger [] = Done (r', read') /\
    to_option r' = to_option (match @resolve_secrets toy_aead toy_env toy_defs no_danger [] with
      Done (r, _) => r | Panic _ => Err InvalidParameter end).
Proof.
  eapply (@secrets_order_irrelevant toy_aead toy_env toy_defs (reverse toy_defs) no_danger);
    [apply toy_defs_nodup|symmetry; apply reverse_Permutation|vm_compute; reflexivity].
Defined.
