(* ===== verification/Config.v ===== *)
(** * Config: loading and validating configurations

    Models src/src/config/v2/includes.rs (merging of included files), load.rs,
    stripe_source.rs, tuning.rs and the sections of mod.rs.  The TOML parser and
    serde's typed sections are parameters ([TomlEnv], [SectionParsers]); what
    the program itself does with their results is modelled: which files are
    read, how tables are merged, which keys are refused, how paths and secrets
    are resolved and what is validated.

    The theorems: merging loses and overrides nothing, and a configuration that
    loads satisfies the safety rules that the rest of the program relies on. *)
From Stdlib Require String Ascii.
From S2P Require Import Prelude Metadata SharedState World Device Crypt Secrets.
#[local] Open Scope Z_scope.

(** ** TOML values *)

Inductive Value :=
| VTable (kvs : list (string * Value))
| VArray (vs : list Value)
| VString (s : string)
| VInteger (z : Z)
| VBoolean (b : bool)
| VOther (text : string).            (* floats and dates *)

Notation Table := (list (string * Value)).

(** [Map::get], [contains_key], [insert] of an existing or a new key, [remove]. *)
Fixpoint assoc {A} (k : string) (t : list (string * A)) : option A :=
  match t with
  | [] => None
  | (k', v) :: t => if decide (k' = k) then Some v else assoc k t
  end.
Fixpoint assoc_set {A} (k : string) (v : A) (t : list (string * A)) : list (string * A) :=
  match t with
  | [] => [(k, v)]
  | (k', v') :: t => if decide (k' = k) then (k, v) :: t else (k', v') :: assoc_set k v t
  end.
Definition assoc_remove {A} (k : string) (t : list (string * A)) : list (string * A) :=
  filter (fun kv => kv.1 <> k) t.

Definition get (v : Value) (k : string) : option Value :=
  match v with VTable t => assoc k t | _ => None end.

(** [try_into::<Vec<String>>()]. *)
Fixpoint strings_of (vs : list Value) : option (list string) :=
  match vs with
  | [] => Some []
  | VString s :: vs => ss ← strings_of vs; Some (s :: ss)
  | _ :: _ => None
  end.
Definition as_strings (v : Value) : option (list string) :=
  match v with VArray vs => strings_of vs | _ => None end.

(** ** Paths ([std::path] on Unix) *)

Definition chars (s : string) : list Ascii.ascii := String.list_ascii_of_string s.
Definition of_chars (l : list Ascii.ascii) : string := String.string_of_list_ascii l.
Definition slash : Ascii.ascii := Ascii.ascii_of_nat 47.
Definition dot : Ascii.ascii := Ascii.ascii_of_nat 46.
Definition question : Ascii.ascii := Ascii.ascii_of_nat 63.

Inductive Component := RootDir | CurDir | ParentDir | Normal (s : string).
#[global] Instance Component_eq_dec : EqDecision Component.
Proof. solve_decision. Defined.

Definition is_absolute (p : string) : bool :=
  match chars p with c :: _ => bool_decide (c = slash) | [] => false end.

(** The parts between slashes. *)
Fixpoint split_slash (cur : list Ascii.ascii) (l : list Ascii.ascii) : list (list Ascii.ascii) :=
  match l with
  | [] => [reverse cur]
  | c :: l => if decide (c = slash) then reverse cur :: split_slash [] l else split_slash (c :: cur) l
  end.

(** Empty parts are dropped, and so is a dot unless the path starts with it. *)
Fixpoint part_components (first : bool) (parts : list (list Ascii.ascii)) : list Component :=
  match parts with
  | [] => []
  | p :: parts =>
      (if decide (p = []) then []
       else if decide (p = [dot]) then (if first then [CurDir] else [])
       else if decide (p = [dot; dot]) then [ParentDir]
       else [Normal (of_chars p)]) ++ part_components false parts
  end.

Definition components (p : string) : list Component :=
  (if is_absolute p then [RootDir] else []) ++
  part_components (negb (is_absolute p)) (split_slash [] (chars p)).

(** [Path::join] of a relative path. *)
Definition join_path (dir p : string) : string :=
  if is_absolute p then p
  else match last (chars dir) with
       | None => p
       | Some c => if decide (c = slash) then of_chars (chars dir ++ chars p)
                   else of_chars (chars dir ++ [slash] ++ chars p)
       end.

Definition resolve_path (p config_dir : string) : string :=
  if is_absolute p then p else join_path config_dir p.
Definition resolve_optional_path (p : option string) (config_dir : string) : option string :=
  (fun p => resolve_path p config_dir) <$> p.

(** [str::trim().is_empty()] of an ASCII string. *)
Definition is_blank (s : string) : bool :=
  forallb (fun c => existsb (Nat.eqb (Ascii.nat_of_ascii c)) [9; 10; 11; 12; 13; 32]%nat) (chars s).

(** [str::strip_suffix('?')]. *)
Definition strip_question (s : string) : option string :=
  match last (chars s) with
  | Some c => if decide (c = question) then Some (of_chars (take (length (chars s) - 1) (chars s))) else None
  | None => None
  end.

(** ** Includes *)

Inductive file_error := NotFound | OtherFileError.

Class TomlEnv := {
  read_to_string : string -> file_error + string;   (* [std::fs::read_to_string] *)
  toml_from_str : string -> option Table;           (* [toml::from_str] *)
}.

Record IncludeEntry := mkInclude { inc_path : string; inc_optional : bool }.

Definition validate_include_path (path : string) : result unit :=
  if is_blank path then Err InvalidParameter
  else if is_absolute path then Err InvalidParameter
  else if existsb (fun c => match c with ParentDir | RootDir => true | _ => false end) (components path)
  then Err InvalidParameter else Ok tt.

Definition parse_include (s : string) : result IncludeEntry :=
  let '(path, optional) := match strip_question s with Some p => (p, true) | None => (s, false) end in
  _ ← validate_include_path path;
  Ok (mkInclude path optional).

Fixpoint collect_results {A B} (f : A -> result B) (l : list A) : result (list B) :=
  match l with
  | [] => Ok []
  | x :: l => y ← f x; ys ← collect_results f l; Ok (y :: ys)
  end.

Definition parse_include_array (root : Value) : result (list IncludeEntry) :=
  match get root "include" with
  | None => Ok []
  | Some v =>
      match as_strings v with
      | None => Err InvalidParameter
      | Some includes => collect_results parse_include includes
      end
  end.

(** [merge_tables]: the keys of [addition] into [base]; [merge] is the recursive
    call on the tables both have. *)
Section merge_entries.
Context (merge : Value -> Table -> result Table).
Fixpoint merge_entries (addition base : Table) : result Table :=
  match addition with
  | [] => Ok base
  | (key, value) :: addition =>
      match assoc key base, value with
      | Some (VTable base_table), VTable _ =>
          merged ← merge value base_table;
          merge_entries addition (assoc_set key (VTable merged) base)
      | Some _, _ => Err InvalidParameter
      | None, _ => merge_entries addition (base ++ [(key, value)])
      end
  end.
End merge_entries.

Fixpoint merge_value (addition : Value) (base : Table) : result Table :=
  match addition with
  | VTable kvs => merge_entries merge_value kvs base
  | _ => Err InvalidParameter
  end.
Definition merge_tables (base addition : Table) : result Table := merge_value (VTable addition) base.

Section includes.
Context `{TomlEnv}.

Fixpoint include_all (config_dir : string) (entries : list IncludeEntry) (root_table : Table) : result Table :=
  match entries with
  | [] => Ok root_table
  | entry :: entries =>
      match read_to_string (join_path config_dir (inc_path entry)) with
      | inl NotFound =>
          if inc_optional entry then include_all config_dir entries root_table else Err InvalidParameter
      | inl OtherFileError => Err InvalidParameter
      | inr content =>
          match toml_from_str content with
          | None => Err InvalidParameter
          | Some included =>
              match assoc "include" included with
              | Some _ => Err InvalidParameter
              | None =>
                  merged ← merge_tables root_table included;
                  include_all config_dir entries merged
              end
          end
      end
  end.

Definition resolve_includes (root : Value) (config_dir : string) : result Value :=
  entries ← parse_include_array root;
  match root with
  | VTable root_table =>
      merged ← include_all config_dir entries (assoc_remove "include" root_table);
      Ok (VTable merged)
  | _ => Err InvalidParameter
  end.
End includes.

(** ** Sections *)

Inductive IoEngine := IoUring | SyncEngine.
#[global] Instance IoEngine_eq_dec : EqDecision IoEngine.
Proof. solve_decision. Defined.

Definition MAX_NUM_QUEUES : Z := 63.

Record TuningSection := mkTuning {
  num_queues : Z;
  queue_size : Z;
  seg_size_max : Z;
  seg_count_max : Z;
  poll_timeout_us : Z;
  cpus : option (list nat);
  io_engine : IoEngine;
  write_through : bool;
}.
Definition default_tuning : TuningSection := mkTuning 1 64 65536 4 1000 None IoUring false.

Definition tuning_validate (t : TuningSection) : result unit :=
  if (num_queues t =? 0) || (MAX_NUM_QUEUES <? num_queues t) then Err InvalidParameter
  else if (queue_size t =? 0) || (65536 <? queue_size t) || negb (is_power_of_two (queue_size t)) then Err InvalidParameter
  else if (seg_size_max t =? 0) || (1048576 <? seg_size_max t) then Err InvalidParameter
  else if (seg_count_max t =? 0) || (256 <? seg_count_max t) then Err InvalidParameter
  else if match cpus t with Some l => negb (Z.of_nat (length l) =? num_queues t) | None => false end
  then Err InvalidParameter
  else if 10000000 <? poll_timeout_us t then Err InvalidParameter
  else Ok tt.

Record DeviceSection := mkDevice {
  data_path : string;
  metadata_path : option string;
  vhost_socket : option string;
  rpc_socket : option string;
  device_id : string;
  track_written : bool;
}.
Definition resolve_device_paths (d : DeviceSection) (config_dir : string) : DeviceSection :=
  mkDevice (resolve_path (data_path d) config_dir) (resolve_optional_path (metadata_path d) config_dir)
    (resolve_optional_path (vhost_socket d) config_dir) (resolve_optional_path (rpc_socket d) config_dir)
    (device_id d) (track_written d).

Record EncryptionSection := mkEncryption { xts_key : SecretRef }.

Record PskConfig := mkPsk { psk_identity : string; psk_secret : SecretRef }.

Record RemoteStripeConfig := mkRemote {
  rem_address : string;
  rem_psk : option PskConfig;
  rem_autofetch : bool;
  rem_connect_timeout_ms : Z;
  rem_operation_attempt_timeout_ms : Z;
  rem_connections : Z;
}.

Record RateLimitedRetryConfig := mkRetry { rl_enabled : bool; min_delay_ms : Z; jitter_ms : Z }.

Record S3Config := mkS3 {
  s3_bucket : string;
  s3_prefix : option string;
  s3_region : option string;
  s3_access_key_id : SecretRef;
  s3_secret_access_key : SecretRef;
  s3_session_token : option SecretRef;
  s3_endpoint : option string;
  s3_connections : Z;
  s3_connect_timeout_ms : Z;
  s3_operation_attempt_timeout_ms : Z;
  s3_max_attempts : Z;
  s3_rate_limited_retry : RateLimitedRetryConfig;
  s3_archive_kek : option SecretRef;
  s3_autofetch : bool;
}.

Inductive ArchiveStorageConfig :=
| Filesystem (path : string) (archive_kek : option SecretRef) (autofetch : bool)
| S3 (conf : S3Config).

Inductive StripeSourceConfig :=
| Raw (image_path : string) (autofetch copy_on_read : bool)
| Archive (storage : ArchiveStorageConfig)
| Remote (conf : RemoteStripeConfig).

Definition ssc_autofetch (s : StripeSourceConfig) : bool :=
  match s with
  | Raw _ autofetch _ => autofetch
  | Archive (Filesystem _ _ autofetch) => autofetch
  | Archive (S3 conf) => s3_autofetch conf
  | Remote conf => rem_autofetch conf
  end.
Definition copy_on_read (s : StripeSourceConfig) : bool :=
  match s with Raw _ _ c => c | _ => true end.
Definition raw_image_path (s : StripeSourceConfig) : option string :=
  match s with Raw p _ _ => Some p | _ => None end.
Definition resolve_paths (s : StripeSourceConfig) (config_dir : string) : StripeSourceConfig :=
  match s with
  | Raw p a c => Raw (resolve_path p config_dir) a c
  | Archive (Filesystem p k a) => Archive (Filesystem (resolve_path p config_dir) k a)
  | _ => s
  end.

(** *** Validation *)

Notation Secrets := (gmap string (list Z)).

(** [if cond { return Err(..) }]. *)
Definition reject_if (b : bool) : result unit := if b then Err InvalidParameter else Ok tt.

Definition validate_psk_secret (secret : list Z) : result unit := reject_if (bool_decide (length secret < 16)%nat).

Definition remote_validate (c : RemoteStripeConfig) (dz : DangerZone) (resolved : Secrets) : result unit :=
  _ ← reject_if (bool_decide (rem_psk c = None) && negb (dz_enabled dz && allow_unencrypted_connection dz));
  _ ← match rem_psk c with
      | Some psk => secret ← get_resolved_secret (psk_secret psk) resolved; validate_psk_secret secret
      | None => Ok tt
      end;
  _ ← reject_if (rem_connect_timeout_ms c =? 0);
  _ ← reject_if (rem_operation_attempt_timeout_ms c =? 0);
  reject_if (rem_connections c =? 0).

Definition validate_archive_kek (secret : list Z) : result unit :=
  reject_if (negb (bool_decide (length secret = 32%nat))).
Definition validate_not_empty (secret : list Z) : result unit := reject_if (bool_decide (secret = [])).
Definition validate_prefix (prefix : option string) : result unit :=
  match prefix with
  | Some p => reject_if (existsb (fun c => match c with CurDir | ParentDir => true | _ => false end) (components p))
  | None => Ok tt
  end.
Definition validate_rate_limited_retry (c : RateLimitedRetryConfig) : result unit :=
  reject_if (rl_enabled c && (min_delay_ms c =? 0)).

(** An optional reference: when present it must resolve and pass [check]. *)
Definition validate_optional (r : option SecretRef) (check : list Z -> result unit) (resolved : Secrets) : result unit :=
  match r with
  | Some r => secret ← get_resolved_secret r resolved; check secret
  | None => Ok tt
  end.

Definition archive_validate (c : ArchiveStorageConfig) (resolved : Secrets) : result unit :=
  match c with
  | Filesystem _ archive_kek _ => validate_optional archive_kek validate_archive_kek resolved
  | S3 s =>
      _ ← validate_optional (s3_archive_kek s) validate_archive_kek resolved;
      access_key_id ← get_resolved_secret (s3_access_key_id s) resolved;
      _ ← validate_not_empty access_key_id;
      secret_access_key ← get_resolved_secret (s3_secret_access_key s) resolved;
      _ ← validate_not_empty secret_access_key;
      _ ← validate_optional (s3_session_token s) validate_not_empty resolved;
      _ ← validate_prefix (s3_prefix s);
      _ ← reject_if (s3_connections s =? 0);
      _ ← reject_if (s3_connect_timeout_ms s =? 0);
      _ ← reject_if (s3_operation_attempt_timeout_ms s =? 0);
      _ ← reject_if (s3_max_attempts s =? 0);
      validate_rate_limited_retry (s3_rate_limited_retry s)
  end.

Definition stripe_source_validate (s : StripeSourceConfig) (dz : DangerZone) (resolved : Secrets) : result unit :=
  match s with
  | Remote conf => remote_validate conf dz resolved
  | Archive storage => archive_validate storage resolved
  | Raw _ _ _ => Ok tt
  end.

Definition validate_secrets (e : EncryptionSection) (resolved : Secrets) : result unit :=
  match resolved !! ref_id (xts_key e) with
  | None => Err InvalidParameter
  | Some key => reject_if (negb (bool_decide (length key = 64%nat)))
  end.

(** ** Loading *)

Record Config := mkConfig {
  cfg_device : DeviceSection;
  cfg_tuning : TuningSection;
  cfg_encryption : option EncryptionSection;
  cfg_danger_zone : DangerZone;
  cfg_stripe_source : option StripeSourceConfig;
  cfg_secrets : Secrets;
}.
Record ArchiveTargetConfig := mkArchiveTarget {
  at_target : ArchiveStorageConfig; at_danger_zone : DangerZone; at_secrets : Secrets }.
Record ExportArchiveConfig := mkExportArchive {
  ea_archive : ArchiveStorageConfig; ea_danger_zone : DangerZone; ea_secrets : Secrets }.
Record RemoteStripeServerConfig := mkServerConfig {
  rs_server : RemoteStripeConfig; rs_danger_zone : DangerZone; rs_secrets : Secrets }.

(** serde's [try_into] for the types of the sections.  The secrets come as a
    map, listed in the order in which it is iterated. *)
Class SectionParsers := {
  parse_device : Value -> option DeviceSection;
  parse_tuning : Value -> option TuningSection;
  parse_encryption : Value -> option EncryptionSection;
  parse_danger_zone : Value -> option DangerZone;
  parse_stripe_source : Value -> option StripeSourceConfig;
  parse_secret_defs : Value -> option (list (string * SecretDef));
  parse_archive : Value -> option ArchiveStorageConfig;
  parse_remote : Value -> option RemoteStripeConfig;
}.

Definition default_danger_zone : DangerZone := mkDanger false false false false false false.

Section load.
Context `{Aead} `{ConfigEnv} `{TomlEnv} `{SectionParsers}.
Notation E := (eff reads).

Definition parse_required_section {T} (parse : Value -> option T) (merged : Value) (key : string) : result T :=
  match get merged key with
  | None => Err InvalidParameter
  | Some v => match parse v with None => Err InvalidParameter | Some t => Ok t end
  end.
Definition parse_optional_section {T} (parse : Value -> option T) (merged : Value) (key : string) : result (option T) :=
  match get merged key with
  | None => Ok None
  | Some v => match parse v with None => Err InvalidParameter | Some t => Ok (Some t) end
  end.

Definition parse_secrets (table : Value) : result (list (string * SecretDef)) :=
  match get table "secrets" with
  | None => Ok []
  | Some (VTable kvs) =>
      match parse_secret_defs (VTable kvs) with None => Err InvalidParameter | Some defs => Ok defs end
  | Some _ => Err InvalidParameter
  end.

Definition resolve_secret_path (config_dir : string) (d : SecretDef) : SecretDef :=
  match sd_source d with
  | SecretFile p => mkSecretDef (SecretFile (resolve_path p config_dir)) (sd_encoding d) (sd_encrypted_by d)
  | _ => d
  end.
Definition resolve_secret_paths (config_dir : string) (defs : list (string * SecretDef)) : list (string * SecretDef) :=
  prod_map id (resolve_secret_path config_dir) <$> defs.

Definition validate_top_level_keys (root : Value) (allowed : list string) : result unit :=
  match root with
  | VTable t => reject_if (negb (forallb (fun kv => bool_decide (kv.1 ∈ allowed)) t))
  | _ => Err InvalidParameter
  end.

Definition load_merged (root : Value) (config_dir : string) (allowed : list string) : result Value :=
  merged ← resolve_includes root config_dir;
  _ ← validate_top_level_keys merged allowed;
  Ok merged.

Definition load_common (merged : Value) (config_dir : string) : E (DangerZone * Secrets) :=
  dz ← lift_result (parse_optional_section parse_danger_zone merged "danger_zone");
  let dz := default default_danger_zone dz in
  defs ← lift_result (parse_secrets merged);
  secrets ← resolve_secrets (resolve_secret_paths config_dir defs) dz;
  mret (dz, secrets).

Definition config_keys : list string :=
  ["device"; "tuning"; "encryption"; "danger_zone"; "stripe_source"; "secrets"].

(** [Config::load_from_value]. *)
Definition load_config (root : Value) (config_dir : string) : E Config :=
  merged ← lift_result (load_merged root config_dir config_keys);
  '(dz, secrets) ← load_common merged config_dir;
  device ← lift_result (parse_required_section parse_device merged "device");
  let device := resolve_device_paths device config_dir in
  tuning ← lift_result (parse_optional_section parse_tuning merged "tuning");
  let tuning := default default_tuning tuning in
  _ ← lift_result (tuning_validate tuning);
  encryption ← lift_result (parse_optional_section parse_encryption merged "encryption");
  stripe_source ← lift_result (parse_optional_section parse_stripe_source merged "stripe_source");
  let stripe_source := (fun s => resolve_paths s config_dir) <$> stripe_source in
  _ ← lift_result (match stripe_source with Some s => stripe_source_validate s dz secrets | None => Ok tt end);
  _ ← lift_result (match encryption with
        | Some e => validate_secrets e secrets
        | None => reject_if (negb (dz_enabled dz && allow_unencrypted_disk dz))
        end);
  mret (mkConfig device tuning encryption dz stripe_source secrets).

Definition load_archive_target (root : Value) (config_dir : string) : E ArchiveTargetConfig :=
  merged ← lift_result (load_merged root config_dir ["target"; "danger_zone"; "secrets"]);
  '(dz, secrets) ← load_common merged config_dir;
  target ← lift_result (parse_required_section parse_archive merged "target");
  _ ← lift_result (archive_validate target secrets);
  mret (mkArchiveTarget target dz secrets).

Definition load_export_archive (root : Value) (config_dir : string) : E ExportArchiveConfig :=
  merged ← lift_result (load_merged root config_dir ["archive"; "danger_zone"; "secrets"]);
  '(dz, secrets) ← load_common merged config_dir;
  archive ← lift_result (parse_required_section parse_archive merged "archive");
  let archive := match archive with
    | Filesystem p k a => Filesystem (resolve_path p config_dir) k a
    | S3 c => S3 c
    end in
  _ ← lift_result (archive_validate archive secrets);
  mret (mkExportArchive archive dz secrets).

Definition load_server_config (root : Value) (config_dir : string) : E RemoteStripeServerConfig :=
  merged ← lift_result (load_merged root config_dir ["server"; "danger_zone"; "secrets"]);
  '(dz, secrets) ← load_common merged config_dir;
  server ← lift_result (parse_required_section parse_remote merged "server");
  _ ← lift_result (remote_validate server dz secrets);
  mret (mkServerConfig server dz secrets).
End load.

(** ** Merging loses and overrides nothing *)

Fixpoint lookup_path (p : list string) (v : Value) : option Value :=
  match p with
  | [] => Some v
  | k :: p => v' ← get v k; lookup_path p v'
  end.

Definition is_table (v : Value) : bool := match v with VTable _ => true | _ => false end.

(** The value [v] sets the key path [p] to [x]. *)
Definition sets (v : Value) (p : list string) (x : Value) : Prop := lookup_path p v = Some x /\ is_table x = false.

(** Keys are unique in every table, as TOML demands. *)
Fixpoint unique_keys (v : Value) : Prop :=
  match v with
  | VTable t => NoDup t.*1 /\ fold_right (fun kv P => unique_keys kv.2 /\ P) True t
  | _ => True
  end.

Lemma unique_entries t : fold_right (fun kv P => unique_keys kv.2 /\ P) True t -> Forall (fun kv : string * Value => unique_keys kv.2) t.
Proof. induction t as [|kv t IH]; cbn; [constructor|]. intros [? ?]. constructor; auto. Qed.

(** Induction on the nested tables. *)
Lemma Value_table_ind (P : Value -> Prop) :
  (forall t, Forall (fun kv => P kv.2) t -> P (VTable t)) -> (forall v, is_table v = false -> P v) -> forall v, P v.
Proof.
  intros Ht Hl. fix IH 1. intros [t| | | | |]; [|by apply Hl..]. apply Ht.
  induction t as [|kv t IHt]; constructor; [apply IH|done].
Qed.

Section assoc_lemmas.
Context {A : Type}.
Implicit Types t : list (string * A).

Lemma assoc_set_lookup k k' v t : assoc k' (assoc_set k v t) = if decide (k = k') then Some v else assoc k' t.
Proof.
  induction t as [|[k0 v0] t IH]; cbn; [done|]. destruct (decide (k0 = k)) as [->|Hne]; cbn; [by case_decide|].
  rewrite IH. repeat case_decide; congruence.
Qed.

Lemma assoc_app k t t' : assoc k (t ++ t') = match assoc k t with Some v => Some v | None => assoc k t' end.
Proof. induction t as [|[k0 v0] t IH]; cbn; [done|]. by case_decide. Qed.

Lemma assoc_None k t : assoc k t = None <-> k ∉ t.*1.
Proof.
  induction t as [|[k0 v0] t IH]; cbn; [split; [intros _ Hx; by apply elem_of_nil in Hx|done]|].
  rewrite not_elem_of_cons. case_decide; naive_solver.
Qed.
End assoc_lemmas.

(** What one merge makes of a key. *)
Lemma merge_entries_lookup add base t k :
  NoDup add.*1 -> merge_entries merge_value add base = Ok t ->
  match assoc k add, assoc k base with
  | None, o => assoc k t = o
  | Some v, None => assoc k t = Some v
  | Some v, Some b => exists bt m, b = VTable bt /\ is_table v = true /\ merge_value v bt = Ok m /\ assoc k t = Some (VTable m)
  end.
Proof.
  revert base. induction add as [|[key v] add IH]; intros base Hnd E; cbn in E.
  { injection E as ->. cbn. by destruct (assoc k t). }
  cbn [fmap list_fmap fst] in Hnd. apply NoDup_cons in Hnd as [Hnin Hnd]. apply assoc_None in Hnin.
  cbn [assoc]. destruct (assoc key base) as [b|] eqn:Hb.
  - destruct b as [bt| | | | |]; try done. destruct v as [vt| | | | |]; try done.
    destruct (merge_value (VTable vt) bt) as [m|] eqn:Em; [|done]. cbn [mbind result_bind] in E.
    specialize (IH _ Hnd E). rewrite assoc_set_lookup in IH. case_decide; [subst key|].
    + rewrite Hnin in IH. rewrite Hb. exists bt, m. by rewrite IH.
    + by destruct (assoc k add), (assoc k base).
  - assert (merge_entries merge_value add (base ++ [(key, v)]) = Ok t) as E' by (by destruct v). clear E.
    specialize (IH _ Hnd E'). rewrite assoc_app in IH. cbn [assoc] in IH. case_decide; [subst key|].
    + rewrite Hnin, Hb in IH. by rewrite Hb.
    + by destruct (assoc k add), (assoc k base).
Qed.

Lemma merge_value_sets add base t :
  unique_keys add -> merge_value add base = Ok t ->
  (forall p x, sets (VTable t) p x <-> sets (VTable base) p x \/ sets add p x) /\
  (forall p x y, sets (VTable base) p x -> sets add p y -> False).
Proof.
  revert base t. induction add as [kvs IH|v Hv] using Value_table_ind; intros base t Hu E;
    [|by destruct v].
  destruct Hu as [Hnd Hu%unique_entries]. cbn [merge_value] in E.
  assert (forall k v bt m, assoc k kvs = Some v -> merge_value v bt = Ok m ->
    (forall p x, sets (VTable m) p x <-> sets (VTable bt) p x \/ sets v p x) /\
    (forall p x y, sets (VTable bt) p x -> sets v p y -> False)) as Hrec.
  { intros k v bt m Hk Hm. assert ((k, v) ∈ kvs) as Hin.
    { clear -Hk. induction kvs as [|[k0 v0] kvs IHk]; cbn in Hk; [done|].
      case_decide; [simplify_eq; left|right; auto]. }
    rewrite Forall_forall in IH, Hu. apply (IH _ Hin); [by apply (Hu (k, v))|done]. }
  split; intros [|k p] x.
  - split; [by intros [[= <-] ?]|by intros [[[= <-] ?]|[[= <-] ?]]].
  - pose proof (merge_entries_lookup kvs base t k Hnd E) as Hk. unfold sets in *. cbn [lookup_path get].
    destruct (assoc k kvs) as [v|] eqn:Ek, (assoc k base) as [b|] eqn:Eb.
    + destruct Hk as (bt & m & -> & _ & Em & ->). apply (proj1 (Hrec k v bt m Ek Em)).
    + rewrite Hk. cbn. naive_solver.
    + rewrite Hk. cbn. naive_solver.
    + rewrite Hk. cbn. naive_solver.
  - intros y [[= <-] ?]. done.
  - intros y [Hb Hx] [Ha Hy]. pose proof (merge_entries_lookup kvs base t k Hnd E) as Hk. cbn [lookup_path get] in Hb, Ha.
    destruct (assoc k kvs) as [v|] eqn:Ek, (assoc k base) as [b|] eqn:Eb; try done.
    destruct Hk as (bt & m & -> & _ & Em & _). by eapply (proj2 (Hrec k v bt m Ek Em)).
Qed.

Section include_spec.
Context `{TomlEnv}.
Hypothesis parsed_unique : forall c t, toml_from_str c = Some t -> unique_keys (VTable t).

(** The table of an include, if it could be read. *)
Definition file_table (config_dir : string) (e : IncludeEntry) : option Table :=
  match read_to_string (join_path config_dir (inc_path e)) with
  | inr content => toml_from_str content
  | inl _ => None
  end.

(** The settings of several files: each comes from exactly one of them. *)
Definition disjoint_union (files : list Table) (merged : Table) : Prop :=
  (forall p x, sets (VTable merged) p x <-> exists f, f ∈ files /\ sets (VTable f) p x) /\
  (forall i j fi fj p x y, files !! i = Some fi -> files !! j = Some fj ->
     sets (VTable fi) p x -> sets (VTable fj) p y -> i = j).

Lemma disjoint_union_snoc files base add t :
  disjoint_union files base -> unique_keys (VTable add) -> merge_tables base add = Ok t ->
  disjoint_union (files ++ [add]) t.
Proof using Type.
  intros [H1 H2] Hu E. destruct (merge_value_sets (VTable add) base t Hu E) as [M1 M2]. split.
  - intros p x. rewrite M1, H1. split.
    + intros [(f & Hf & Hs)|Hs]; [exists f|exists add]; rewrite elem_of_app, ?list_elem_of_singleton; auto.
    + intros (f & [Hf| ->%list_elem_of_singleton]%elem_of_app & Hs); eauto.
  - assert (forall i fi p x y, files !! i = Some fi -> sets (VTable fi) p x -> sets (VTable add) p y -> False) as Hd.
    { intros i fi p x y Hi Hx. apply (M2 p x y). apply H1. exists fi. split; [|done]. by eapply list_elem_of_lookup_2. }
    intros i j fi fj p x y [Hi|[Hi [Ei <-]%list_lookup_singleton_Some]]%lookup_app_Some
      [Hj|[Hj [Ej <-]%list_lookup_singleton_Some]]%lookup_app_Some Hx Hy; [by eapply H2|by exfalso; eauto..|lia].
Qed.

Lemma include_all_spec config_dir entries files base t :
  disjoint_union files base -> include_all config_dir entries base = Ok t ->
  disjoint_union (files ++ omap (file_table config_dir) entries) t.
Proof using parsed_unique.
  revert files base. induction entries as [|e entries IH]; intros files base Hd E; cbn [include_all] in E.
  { injection E as <-. cbn. by rewrite app_nil_r. }
  cbn [omap list_omap]. unfold file_table at 1. destruct (read_to_string _) as [[]|content].
  - destruct (inc_optional e); [by eapply IH|done].
  - done.
  - destruct (toml_from_str content) as [add|] eqn:Ep; [|done]. destruct (assoc "include" add); [done|].
    destruct (merge_tables base add) as [t1|] eqn:Em; [|done]. cbn [mbind result_bind] in E.
    rewrite (cons_middle add), app_assoc. eapply IH; [|done]. eapply disjoint_union_snoc; eauto.
Qed.

Lemma resolve_includes_spec rt config_dir entries merged :
  parse_include_array (VTable rt) = Ok entries -> resolve_includes (VTable rt) config_dir = Ok merged ->
  exists t, merged = VTable t /\
    disjoint_union (assoc_remove "include" rt :: omap (file_table config_dir) entries) t.
Proof using parsed_unique.
  intros Hp E. unfold resolve_includes in E. rewrite Hp in E. cbn [mbind result_bind] in E.
  destruct (include_all _ _ _) as [t|] eqn:Ei; [|done]. injection E as <-. exists t. split; [done|].
  eapply (include_all_spec config_dir entries [assoc_remove "include" rt]); [|done]. split.
  - intros p x. split; [eexists; split; [left|done]|by intros (f & ->%list_elem_of_singleton & Hs)].
  - intros i j fi fj p x y [Hi _]%list_lookup_singleton_Some [Hj _]%list_lookup_singleton_Some _ _. lia.
Qed.
End include_spec.

(** ** What a loaded configuration guarantees *)

Record config_safe (c : Config) : Prop := {
  cs_disk : match cfg_encryption c with
    | Some e => exists key, cfg_secrets c !! ref_id (xts_key e) = Some key /\ length key = 64%nat
    | None => dz_enabled (cfg_danger_zone c) = true /\ allow_unencrypted_disk (cfg_danger_zone c) = true
    end;
  cs_remote : forall rc, cfg_stripe_source c = Some (Remote rc) ->
    rem_connections rc <> 0 /\ rem_connect_timeout_ms rc <> 0 /\ rem_operation_attempt_timeout_ms rc <> 0 /\
    match rem_psk rc with
    | Some psk => exists secret, cfg_secrets c !! ref_id (psk_secret psk) = Some secret /\ (16 <= length secret)%nat
    | None => dz_enabled (cfg_danger_zone c) = true /\ allow_unencrypted_connection (cfg_danger_zone c) = true
    end;
  cs_archive_kek : forall path kek a, cfg_stripe_source c = Some (Archive (Filesystem path (Some kek) a)) ->
    exists key, cfg_secrets c !! ref_id kek = Some key /\ length key = 32%nat;
  cs_queues : num_queues (cfg_tuning c) <> 0 /\ num_queues (cfg_tuning c) <= MAX_NUM_QUEUES /\
    queue_size (cfg_tuning c) <= 65536 /\ is_power_of_two (queue_size (cfg_tuning c)) = true;
}.

(** Every plaintext secret was permitted: no inline text, environment variable or
    regular file without its override. *)
Definition secrets_permitted `{ConfigEnv} (defs : list (string * SecretDef)) (c : Config) : Prop :=
  forall n d, (n, d) ∈ defs -> is_Some (cfg_secrets c !! n) ->
    match sd_source d with
    | SecretFile path => forall contents, open_file path = Some (true, contents) ->
        dz_enabled (cfg_danger_zone c) = true /\ allow_secret_over_regular_file (cfg_danger_zone c) = true
    | Inline _ => sd_encrypted_by d = None ->
        dz_enabled (cfg_danger_zone c) = true /\ allow_inline_plaintext_secrets (cfg_danger_zone c) = true
    | EnvVar _ => dz_enabled (cfg_danger_zone c) = true /\ allow_env_secrets (cfg_danger_zone c) = true
    end.

Lemma reject_ok b : reject_if b = Ok tt -> b = false.
Proof. by destruct b. Qed.

Lemma get_resolved_ok r m x : get_resolved_secret r m = Ok x -> m !! ref_id r = Some x.
Proof. unfold get_resolved_secret. destruct (m !! ref_id r); [by intros [= ->]|done]. Qed.

(** Split a validation that succeeded into its checks. *)
Ltac checks H :=
  repeat match type of H with
  | mbind _ ?m = Ok _ => let E := fresh "V" in destruct m as [[]|] eqn:E; [cbn [mbind result_bind] in H|done]
  end.

Lemma remote_validate_ok rc dz m :
  remote_validate rc dz m = Ok tt ->
  rem_connections rc <> 0 /\ rem_connect_timeout_ms rc <> 0 /\ rem_operation_attempt_timeout_ms rc <> 0 /\
  match rem_psk rc with
  | Some psk => exists secret, m !! ref_id (psk_secret psk) = Some secret /\ (16 <= length secret)%nat
  | None => dz_enabled dz = true /\ allow_unencrypted_connection dz = true
  end.
Proof.
  intros Hv. unfold remote_validate in Hv. checks Hv.
  apply reject_ok in V, V1, V2, Hv. apply Z.eqb_neq in V1, V2, Hv. split_and!; [done..|].
  destruct (rem_psk rc) as [psk|].
  - destruct (get_resolved_secret _ m) as [secret|] eqn:E; [|done]. cbn [mbind result_bind] in V0.
    apply reject_ok, bool_decide_eq_false in V0. exists secret. split; [by apply get_resolved_ok|lia].
  - rewrite bool_decide_true in V by done. cbn in V. by apply negb_false_iff, andb_true_iff in V.
Qed.

Lemma archive_kek_ok kek m :
  validate_optional (Some kek) validate_archive_kek m = Ok tt ->
  exists key, m !! ref_id kek = Some key /\ length key = 32%nat.
Proof.
  cbn. destruct (get_resolved_secret kek m) as [key|] eqn:E; [|done]. cbn [mbind result_bind].
  intros Hv%reject_ok%negb_false_iff%bool_decide_eq_true. exists key. split; [by apply get_resolved_ok|done].
Qed.

Lemma tuning_validate_ok t :
  tuning_validate t = Ok tt ->
  num_queues t <> 0 /\ num_queues t <= MAX_NUM_QUEUES /\ queue_size t <= 65536 /\ is_power_of_two (queue_size t) = true.
Proof.
  unfold tuning_validate. intros Hv. destruct (_ || _) eqn:E1 in Hv; [done|]. destruct (_ || _) eqn:E2 in Hv; [done|].
  apply orb_false_iff in E1 as [E1%Z.eqb_neq ?%Z.ltb_ge].
  by apply orb_false_iff in E2 as [[_ ?%Z.ltb_ge]%orb_false_iff ?%negb_false_iff].
Qed.

Lemma tuning_validate_segments t : tuning_validate t = Ok tt -> seg_size_max t <= 1048576 /\ seg_count_max t <= 256.
Proof.
  unfold tuning_validate. intros Hv. do 2 (destruct (_ || _) in Hv; [done|]).
  destruct (_ || _) eqn:E1 in Hv; [done|]. destruct (_ || _) eqn:E2 in Hv; [done|].
  apply orb_false_iff in E1 as [_ ?%Z.ltb_ge]. by apply orb_false_iff in E2 as [_ ?%Z.ltb_ge].
Qed.

Lemma tuning_validate_cpus t l :
  tuning_validate t = Ok tt -> cpus t = Some l -> Z.of_nat (length l) = num_queues t.
Proof.
  unfold tuning_validate. intros Hv El. rewrite El in Hv. do 4 (destruct (_ || _) in Hv; [done|]).
  destruct (Z.eqb_spec (Z.of_nat (length l)) (num_queues t)); done.
Qed.

(** What a derivation says about its source. *)
Lemma resolves_permitted `{Aead} `{ConfigEnv} defs dz n d b :
  NoDup defs.*1 -> (n, d) ∈ defs -> resolves defs dz n b ->
  match sd_source d with
  | SecretFile path => forall contents, open_file path = Some (true, contents) ->
      dz_enabled dz = true /\ allow_secret_over_regular_file dz = true
  | Inline _ => sd_encrypted_by d = None -> dz_enabled dz = true /\ allow_inline_plaintext_secrets dz = true
  | EnvVar _ => dz_enabled dz = true /\ allow_env_secrets dz = true
  end.
Proof.
  intros Hnd Hd R.
  assert (exists kek, (sd_encrypted_by d = None -> kek = None) /\ is_Some (value_spec dz n d kek)) as (kek & Hk & [v Hv]).
  { destruct R as [n d' b Hd' He Hv|n d' k kb b Hd' He Hk Hv]; pose proof (def_unique defs dz Hnd _ _ _ Hd Hd') as <-.
    - exists None. split; [done|by eexists].
    - exists (Some kb). split; [congruence|by eexists]. }
  unfold value_spec in Hv. destruct (source_spec dz (sd_source d) _) as [x|] eqn:Hs; [|done].
  destruct (sd_source d) as [path|data|var]; cbn in Hs.
  - intros contents Hf. rewrite Hf in Hs. cbn in Hs. case_decide as Hc; [by apply Hc|done].
  - intros He. rewrite (Hk He) in Hs. case_decide as Hc; [|done]. by destruct Hc as [?|?].
  - by case_decide.
Qed.

Section load_spec.
Context `{Aead} `{ConfigEnv} `{TomlEnv} `{SectionParsers}.
(** A parsed table of secrets has one definition per name. *)
Hypothesis defs_unique : forall v defs, parse_secret_defs v = Some defs -> NoDup defs.*1.

Lemma parse_secrets_unique v defs : parse_secrets v = Ok defs -> NoDup defs.*1.
Proof using defs_unique.
  unfold parse_secrets. destruct (get v "secrets") as [[kvs| | | | |]|]; try done.
  - destruct (parse_secret_defs (VTable kvs)) as [ds|] eqn:E; [|done]. intros [= <-]. by eapply defs_unique.
  - intros [= <-]. apply NoDup_nil_2.
Qed.

Lemma resolve_secret_paths_names dir defs : (resolve_secret_paths dir defs).*1 = defs.*1.
Proof using Type. unfold resolve_secret_paths. rewrite <- list_fmap_compose. by apply list_fmap_ext. Qed.

Lemma load_common_spec merged dir :
  exists r log, load_common merged dir [] = Done (r, log) /\ NoDup log /\
    forall dz m, r = Ok (dz, m) -> exists defs, NoDup defs.*1 /\
      (forall n b, m !! n = Some b <-> resolves defs dz n b) /\
      (exists raw, parse_secrets merged = Ok raw /\ defs = resolve_secret_paths dir raw).
Proof using defs_unique.
  unfold load_common, lift_result.
  destruct (parse_optional_section parse_danger_zone merged "danger_zone") as [dz|e];
    [|exists (Err e), []; split_and!; [done|apply NoDup_nil_2|done]].
  erewrite eff_bind_ok by done. destruct (parse_secrets merged) as [raw|e] eqn:Ep;
    [|exists (Err e), []; split_and!; [done|apply NoDup_nil_2|done]].
  erewrite eff_bind_ok by done. pose proof (parse_secrets_unique _ _ Ep) as Hu.
  rewrite <- (resolve_secret_paths_names dir) in Hu.
  destruct (resolve_secrets_spec (resolve_secret_paths dir raw) (default default_danger_zone dz) Hu) as (r & log & E & Hn & HQ).
  destruct r as [m|e].
  - rewrite (eff_bind_ok _ _ _ _ _ E). do 2 eexists; split_and!; [done..|]. intros dz' m' [= <- <-].
    exists (resolve_secret_paths dir raw). split_and!; [done|apply HQ|eauto].
  - rewrite (eff_bind_err _ _ _ _ _ E). by do 2 eexists; split_and!.
Qed.

(** Loading always returns, reads every secret at most once, and what it accepts
    is safe. *)
Lemma load_config_spec root dir :
  exists r log, load_config root dir [] = Done (r, log) /\ NoDup log /\
    forall c, r = Ok c -> config_safe c /\
      exists merged raw, load_merged root dir config_keys = Ok merged /\ parse_secrets merged = Ok raw /\
        secrets_permitted (resolve_secret_paths dir raw) c.
Proof using defs_unique.
  unfold load_config. unfold lift_result at 1.
  destruct (load_merged root dir config_keys) as [merged|e]; [|exists (Err e), []; split_and!; [done|apply NoDup_nil_2|done]].
  erewrite eff_bind_ok by done. destruct (load_common_spec merged dir) as (r & log & E & Hn & HQ).
  destruct r as [[dz m]|e]; [|rewrite (eff_bind_err _ _ _ _ _ E); by do 2 eexists; split_and!].
  rewrite (eff_bind_ok _ _ _ _ _ E). destruct (HQ dz m eq_refl) as (defs & Hnd & Hres & raw & Hraw & ->).
  match goal with |- context [?k log = _] => set (body := k) end.
  assert (exists r, body log = Done (r, log) /\ forall c, r = Ok c ->
    config_safe c /\ cfg_danger_zone c = dz /\ cfg_secrets c = m) as (r & Eb & Hc).
  { unfold body, lift_result. repeat (match goal with
      | |- context [mbind (M := eff _) _ (fun s => Done (?x, s)) log] =>
          let E := fresh "V" in destruct x eqn:E;
          [erewrite eff_bind_ok by done|erewrite eff_bind_err by done; by eexists]
      end). eexists; split; [done|]. intros c [= <-]. split_and!; [|done..].
    repeat match goal with u : unit |- _ => destruct u end. constructor; cbn.
    - destruct a2 as [e|].
      + unfold validate_secrets in V5. destruct (m !! ref_id (xts_key e)) as [key|] eqn:Ek; [|done].
        apply reject_ok, negb_false_iff, bool_decide_eq_true in V5. by exists key.
      + by apply reject_ok, negb_false_iff, andb_true_iff in V5.
    - intros rc Hrc. rewrite Hrc in V4. by apply remote_validate_ok.
    - intros path kek b Hrc. rewrite Hrc in V4. by apply archive_kek_ok.
    - by apply tuning_validate_ok. }
  rewrite Eb. exists r, log. split_and!; [done..|]. intros c Hr. destruct (Hc c Hr) as (Hs & Hdz & Hm).
  split; [done|]. exists merged, raw. split_and!; [done..|]. intros n d Hd [b Hb]. rewrite Hm in Hb. apply Hres in Hb.
  pose proof (resolves_permitted _ _ _ _ _ Hnd Hd Hb) as Hp. by rewrite Hdz.
Qed.
End load_spec.

(** ** Main theorems *)

(** C37: included files are merged without loss and without overriding.  When
    the includes of a configuration resolve, a key path is set in the result
    exactly when one of the files that were read sets it, to the same value, and
    no key path is set by two of them ("duplicate key paths across files are
    rejected").  The premise is that the TOML parser yields tables with unique
    keys. *)
Theorem includes_merge_disjointly `{TomlEnv} rt config_dir entries merged :
  (forall c t, toml_from_str c = Some t -> unique_keys (VTable t)) ->
  parse_include_array (VTable rt) = Ok entries -> resolve_includes (VTable rt) config_dir = Ok merged ->
  let files := assoc_remove "include" rt :: omap (file_table config_dir) entries in
  (forall p x, sets merged p x <-> exists f, f ∈ files /\ sets (VTable f) p x) /\
  (forall i j fi fj p x y, files !! i = Some fi -> files !! j = Some fj ->
     sets (VTable fi) p x -> sets (VTable fj) p y -> i = j).
Proof.
  intros Hu Hp E files. destruct (resolve_includes_spec Hu rt config_dir entries merged Hp E) as (t & -> & Hd). exact Hd.
Qed.

(** A root file, a second file for another section of the same table, and an
    optional file that does not exist. *)
Definition toy_toml : TomlEnv := {|
  read_to_string p := if decide (p = "/etc/ubi/b.toml") then inr "b" else inl NotFound;
  toml_from_str c := if decide (c = "b") then Some [("device", VTable [("track_written", VBoolean true)])] else None;
|}.
Definition toy_root : Table :=
  [("include", VArray [VString "b.toml"; VString "c.toml?"]); ("device", VTable [("data_path", VString "/dev/sda")])].

Lemma includes_merge_disjointly_witness :
  let files := [[("device", VTable [("data_path", VString "/dev/sda")])];
                [("device", VTable [("track_written", VBoolean true)])]] in
  let merged := VTable [("device", VTable [("data_path", VString "/dev/sda"); ("track_written", VBoolean true)])] in
  (forall p x, sets merged p x <-> exists f, f ∈ files /\ sets (VTable f) p x) /\
  (forall i j fi fj p x y, files !! i = Some fi -> files !! j = Some fj ->
     sets (VTable fi) p x -> sets (VTable fj) p y -> i = j).
Proof.
  apply (@includes_merge_disjointly toy_toml toy_root "/etc/ubi" [mkInclude "b.toml" false; mkInclude "c.toml" true]).
  - intros c t. cbn. case_decide; [|done]. intros [= <-]. vm_compute. repeat constructor; set_solver.
  - vm_compute. reflexivity.
  - vm_compute. reflexivity.
Defined.

(** [validate_prefix] means to refuse every dot component, but [components]
    reports a dot only at the start of the path. *)
Lemma prefix_inner_dot_accepted :
  validate_prefix (Some "./backups") = Err InvalidParameter /\ validate_prefix (Some "backups/./daily") = Ok tt.
Proof. split; vm_compute; reflexivity. Qed.
