(* ===== verification/Remote.v ===== *)
(** * Remote: stripes of a remote stripe server

    Models src/src/stripe_source/remote.rs: [fetch_with_reconnect], which
    re-dials a dropped connection with exponential backoff, and
    [RemoteStripeSource], which spreads stripe requests over worker threads with
    one connection each.  The threads appear as the list of workers of the
    source; a schedule, fixed in advance and arbitrary, says which of them run
    before each poll.  The source is an instance of [SourceSafe] and
    [SourceContract], so the stripe fetcher can use it.

    The theorems: reconnecting is bounded and keeps to one image, and in any run
    every accepted request is reported once, with the server's bytes if it is
    reported as a success. *)
From S2P Require Import Prelude Metadata SharedState World Device StripeSource StripeServer.

(** ** Connections *)

(** What a call to a client leaves behind when it panics is kept: the worker
    goes on using the client. *)
Class RemoteStripeProvider (P : Type) := {
  rp_fetch : Z -> P -> outcome (result (list Z)) * P;
  get_metadata : P -> option UbiMetadata;
}.

#[global] Instance client_provider {T} `{Stream T} : RemoteStripeProvider (StripeServerClient T) := {
  rp_fetch id c := match fetch_stripe id c with Done (r, c) => (Done r, c) | Panic p => (Panic p, c) end;
  get_metadata := cl_metadata;
}.

(** [ConnectFn]: dialing the server over the network [N]. *)
Class ConnectFn (N P : Type) := { dial : N -> outcome (result P) * N }.

Record MetadataFingerprint := mkFingerprint { fp_stripe_sector_count : Z; fp_stripe_count : nat }.
#[global] Instance MetadataFingerprint_eq_dec : EqDecision MetadataFingerprint.
Proof. solve_decision. Defined.

Definition fingerprint_of (m : UbiMetadata) : MetadataFingerprint :=
  mkFingerprint (stripe_sector_count m) (length (stripe_headers m)).

Definition RECONNECT_INITIAL_BACKOFF : Z := 500.
Definition RECONNECT_MAX_BACKOFF : Z := 30000.
Definition RECONNECT_MAX_ATTEMPTS : nat := 10.

Definition is_connection_error (e : UbiblkError) : bool :=
  match e with IoError _ => true | _ => false end.

(** ** Fetching with reconnects *)

Section reconnect.
Context {P N : Type} `{RemoteStripeProvider P} `{ConnectFn N P}.

(** What the worker did, in order; [Sleep] is in milliseconds. *)
Inductive reconnect_event :=
| Sleep (ms : Z)
| Dial (r : outcome (result P))
| Fetch (client : P) (r : outcome (result (list Z))).

Definition same_image (expected : MetadataFingerprint) (fresh : P) : bool :=
  bool_decide (fingerprint_of <$> get_metadata fresh = Some expected).

(** The backoff before an attempt: the first reconnect is immediate. *)
Definition wait_turn (attempt : nat) (delay : Z) (log : list reconnect_event) : list reconnect_event * Z :=
  if decide (1 < attempt)%nat then (log ++ [Sleep delay], (delay * 2) `min` RECONNECT_MAX_BACKOFF)
  else (log, delay).

(** Attempt 0 uses the current connection, later ones dial. *)
Definition connection (attempt : nat) (client : P) (net : N) (log : list reconnect_event)
  : outcome (result P) * N * list reconnect_event :=
  if decide (0 < attempt)%nat then let '(r, net) := dial net in (r, net, log ++ [Dial r])
  else (Done (Ok client), net, log).

(** The iterations [attempt], [attempt + 1], ... of the loop, [n] of them. *)
Fixpoint attempts_from (n attempt : nat) (expected : MetadataFingerprint) (stripe_id : nat) (delay : Z)
    (last_err : option UbiblkError) (client : P) (net : N) (log : list reconnect_event)
  : outcome (result (list Z)) * P * N * list reconnect_event :=
  match n with
  | O => (Done (Err (default (IoError OtherIo) last_err)), client, net, log)
  | S n =>
      let '(log, delay) := wait_turn attempt delay log in
      let '(conn, net, log) := connection attempt client net log in
      match conn with
      | Panic p => (Panic p, client, net, log)
      | Done (Err e) => attempts_from n (S attempt) expected stripe_id delay (Some e) client net log
      | Done (Ok fresh) =>
          if bool_decide (0 < attempt)%nat && negb (same_image expected fresh)
          then (Done (Err (MetadataError OtherMetadataFault)), client, net, log) else
          let '(r, client) := rp_fetch (Z.of_nat stripe_id) fresh in
          let log := log ++ [Fetch fresh r] in
          match r with
          | Done (Ok data) => (Done (Ok data), client, net, log)
          | Done (Err e) =>
              if negb (is_connection_error e) then (Done (Err e), client, net, log)
              else attempts_from n (S attempt) expected stripe_id delay (Some e) client net log
          | Panic _ => (Done (Err (IoError OtherIo)), client, net, log)
          end
      end
  end.

Definition fetch_with_reconnect (client : P) (net : N) (expected : MetadataFingerprint) (stripe_id : nat)
  : outcome (result (list Z)) * P * N * list reconnect_event :=
  attempts_from (S RECONNECT_MAX_ATTEMPTS) 0 expected stripe_id RECONNECT_INITIAL_BACKOFF None client net [].
End reconnect.
Arguments reconnect_event : clear implicits.

(** ** The source *)

(** A worker waits for a request, fetches a stripe, or has died of a panic
    outside [catch_unwind], when the stripe it was fetching is lost. *)
Inductive Worker (P : Type) := Idle (client : P) | Fetching (stripe_id : nat) (client : P) | Gone (lost : nat).
Arguments Idle {P}.
Arguments Fetching {P}.
Arguments Gone {P}.

Record RemoteStripeSource (P N : Type) := mkRemoteSource {
  rs_source_sector_count : Z;
  remote_headers : list Z;
  request_queue : list nat;                  (* request_tx / request_rx *)
  result_queue : list (nat * result (list Z)); (* result_tx / result_rx *)
  pending : gmap nat nat;
  rs_workers : list (Worker P);
  rs_expected : MetadataFingerprint;
  rs_net : N;
  rs_schedule : list (list nat);             (* which workers run before each poll *)
}.
Arguments mkRemoteSource {P N}.
Arguments rs_source_sector_count {P N}.
Arguments remote_headers {P N}.
Arguments request_queue {P N}.
Arguments result_queue {P N}.
Arguments pending {P N}.
Arguments rs_workers {P N}.
Arguments rs_expected {P N}.
Arguments rs_net {P N}.
Arguments rs_schedule {P N}.

(** [deliver]: the data, padded with zeroes, if it fits. *)
Definition deliver (data : list Z) (buffer : nat) (w : World) : bool * World :=
  let buf := read_buf w buffer in
  if decide (length buf < length data)%nat then (false, w)
  else (true, write_buf w buffer (data ++ replicate (length buf - length data) 0)).

Definition has_source_data (header : Z) : bool := negb (Z.land header (Z.lor WRITTEN HAS_SOURCE) =? 0).

(** [rposition] of a header with data, plus one, or 0. *)
Fixpoint stripe_count_with_data (headers : list Z) : nat :=
  match headers with
  | [] => 0
  | h :: hs =>
      match stripe_count_with_data hs with
      | O => if has_source_data h then 1 else 0
      | S n => S (S n)
      end
  end.

Section source.
Context {P N : Type} `{RemoteStripeProvider P} `{ConnectFn N P}.
Notation Source := (RemoteStripeSource P N).

(** [spawn i] is the result of creating the [i]-th thread. *)
Definition remote_new (spawn : nat -> result unit) (schedule : list (list nat)) (clients : list P) (net : N)
    (stripe_sector_count' : Z) : result Source :=
  match clients with
  | [] => Err InvalidParameter
  | first :: _ =>
      match get_metadata first with
      | None => Err (MetadataError OtherMetadataFault)
      | Some metadata =>
          let remote_headers := stripe_headers metadata in
          let remote_stripe_sector_count := stripe_sector_count metadata in
          if negb (remote_stripe_sector_count =? stripe_sector_count') then Err InvalidParameter else
          match checked_mul64 (Z.of_nat (stripe_count_with_data remote_headers)) remote_stripe_sector_count with
          | None => Err InvalidParameter
          | Some source_sector_count =>
              let expected := mkFingerprint remote_stripe_sector_count (length remote_headers) in
              _ ← foldr (fun i r => _ ← spawn i; r) (Ok tt) (seq 0 (length clients));
              Ok (mkRemoteSource source_sector_count remote_headers [] [] ∅ (Idle <$> clients) expected net schedule)
          end
      end
  end.

Definition set_workers (s : Source) (queue : list nat) (results : list (nat * result (list Z)))
    (workers : list (Worker P)) (net : N) : Source :=
  mkRemoteSource (rs_source_sector_count s) (remote_headers s) queue results (pending s) workers
    (rs_expected s) net (rs_schedule s).

(** One step of worker [i]: it takes the next request, or finishes its fetch and
    sends the result. *)
Definition worker_step (i : nat) (s : Source) : Source :=
  match rs_workers s !! i with
  | Some (Idle client) =>
      match request_queue s with
      | [] => s
      | stripe_id :: queue =>
          set_workers s queue (result_queue s) (<[i := Fetching stripe_id client]> (rs_workers s)) (rs_net s)
      end
  | Some (Fetching stripe_id client) =>
      let '(r, client, net, _) := fetch_with_reconnect client (rs_net s) (rs_expected s) stripe_id in
      match r with
      | Done r => set_workers s (request_queue s) (result_queue s ++ [(stripe_id, r)])
                    (<[i := Idle client]> (rs_workers s)) net
      | Panic _ => set_workers s (request_queue s) (result_queue s) (<[i := Gone stripe_id]> (rs_workers s)) net
      end
  | Some (Gone _) | None => s
  end.

Definition run_workers (steps : list nat) (s : Source) : Source := foldl (fun s i => worker_step i s) s steps.

Definition is_gone (wk : Worker P) : bool := match wk with Gone _ => true | _ => false end.

Definition remote_request (stripe_id buffer : nat) (s : Source) (w : World) : outcome (result unit * Source * World) :=
  if forallb is_gone (rs_workers s) then Done (Err (IoError OtherIo), s, w)
  else Done (Ok tt, mkRemoteSource (rs_source_sector_count s) (remote_headers s) (request_queue s ++ [stripe_id])
         (result_queue s) (<[stripe_id := buffer]> (pending s)) (rs_workers s) (rs_expected s) (rs_net s)
         (rs_schedule s), w).

(** The loop of [poll] over the results received. *)
Fixpoint take_results (results : list (nat * result (list Z))) (pend : gmap nat nat) (w : World)
  : list (nat * bool) * gmap nat nat * World :=
  match results with
  | [] => ([], pend, w)
  | (stripe_id, r) :: results =>
      match pend !! stripe_id with
      | None => take_results results pend w
      | Some buffer =>
          let '(success, w) := match r with Ok data => deliver data buffer w | Err _ => (false, w) end in
          let '(completions, pend, w) := take_results results (delete stripe_id pend) w in
          ((stripe_id, success) :: completions, pend, w)
      end
  end.

Definition remote_poll (s : Source) (w : World) : outcome (list (nat * bool) * Source * World) :=
  let s := run_workers (hd [] (rs_schedule s)) s in
  let '(completions, pend, w) := take_results (result_queue s) (pending s) w in
  Done (completions, mkRemoteSource (rs_source_sector_count s) (remote_headers s) (request_queue s) [] pend
    (rs_workers s) (rs_expected s) (rs_net s) (tl (rs_schedule s)), w).

Definition remote_has_stripe (s : Source) (stripe_id : nat) : bool :=
  match remote_headers s !! stripe_id with
  | None => false
  | Some header => negb (Z.land header WRITTEN =? 0) || negb (Z.land header HAS_SOURCE =? 0)
  end.

#[global] Instance remote_source : StripeSource Source := {
  ss_request := remote_request;
  ss_poll := remote_poll;
  ss_busy s := negb (bool_decide (pending s = ∅));
  ss_sector_count := rs_source_sector_count;
  has_stripe := remote_has_stripe;
}.
End source.

(** ** Reconnecting is bounded and never changes the image *)

(** A call to a client does not change what it knows of the server. *)
Class ProviderLaws (P : Type) `{RemoteStripeProvider P} := {
  rp_fetch_metadata id (p : P) : get_metadata (rp_fetch id p).2 = get_metadata p;
}.

Section reconnect_proofs.
Context {P N : Type} `{ProviderLaws P} `{ConnectFn N P}.
#[local] Set Default Proof Using "Type*".
Notation event := (reconnect_event P).

Definition slept (log : list event) : Z :=
  foldr (fun e n => match e with Sleep ms => ms + n | _ => n end) 0 log.
Definition dials (log : list event) : nat :=
  foldr (fun e n => match e with Dial _ => S n | _ => n end) O log.

(** The sum of [n] sleeps of the backoff schedule. *)
Fixpoint backoff (n : nat) (delay : Z) : Z :=
  match n with O => 0 | S n => delay + backoff n ((delay * 2) `min` RECONNECT_MAX_BACKOFF) end.

Lemma slept_app l1 l2 : slept (l1 ++ l2) = slept l1 + slept l2.
Proof. unfold slept. rewrite foldr_app. induction l1 as [|[] l1 IH]; cbn [foldr]; lia. Qed.
Lemma dials_app l1 l2 : dials (l1 ++ l2) = (dials l1 + dials l2)%nat.
Proof. unfold dials. rewrite foldr_app. induction l1 as [|[] l1 IH]; cbn [foldr]; lia. Qed.

(** Stripes are only read from connections to the expected image. *)
Definition fetches_same (expected : MetadataFingerprint) (e : event) : Prop :=
  match e with Fetch c _ => same_image expected c = true | _ => True end.

(** The last event failed with [e], in a way that another attempt may cure. *)
Definition failed_with (e : UbiblkError) (log : list event) : Prop :=
  last log = Some (Dial (Done (Err e))) \/
  exists c, last log = Some (Fetch c (Done (Err e))) /\ is_connection_error e = true.

(** Why the call ended as it did. *)
Definition verdict (expected : MetadataFingerprint) (r : outcome (result (list Z))) (log : list event) : Prop :=
  match r with
  | Done (Ok data) => exists c, last log = Some (Fetch c (Done (Ok data)))
  | Panic p => last log = Some (Dial (Panic p))
  | Done (Err e) =>
      (exists c, last log = Some (Fetch c (Done (Err e))) /\ is_connection_error e = false) \/
      (exists c p, last log = Some (Fetch c (Panic p)) /\ e = IoError OtherIo) \/
      (exists c, last log = Some (Dial (Done (Ok c))) /\ same_image expected c = false /\
         e = MetadataError OtherMetadataFault) \/
      (failed_with e log /\ dials log = RECONNECT_MAX_ATTEMPTS)
  end.

Record ends_well (expected : MetadataFingerprint) (total : Z) (r : outcome (result (list Z))) (client : P)
    (log : list event) : Prop := {
  ew_slept : slept log <= total;
  ew_dials : (dials log <= RECONNECT_MAX_ATTEMPTS)%nat;
  ew_fetches : Forall (fetches_same expected) log;
  ew_client : same_image expected client = true;
  ew_verdict : verdict expected r log;
}.

(** Between two iterations. *)
Record between (expected : MetadataFingerprint) (total : Z) (n attempt : nat) (delay : Z) (last_err : option UbiblkError)
    (client : P) (log : list event) : Prop := {
  bt_left : (attempt + n = S RECONNECT_MAX_ATTEMPTS)%nat;
  bt_delay : 0 <= delay;
  bt_slept : slept log + backoff (n - (2 - attempt)) delay <= total;
  bt_dials : dials log = Nat.pred attempt;
  bt_fetches : Forall (fetches_same expected) log;
  bt_client : same_image expected client = true;
  bt_err : match last_err with None => attempt = 0%nat | Some e => failed_with e log end;
}.

Lemma backoff_nonneg n d : 0 <= d -> 0 <= backoff n d.
Proof. revert d. induction n as [|n IH]; intros d Hd; cbn; [lia|]. specialize (IH ((d * 2) `min` RECONNECT_MAX_BACKOFF)). unfold RECONNECT_MAX_BACKOFF in *. lia. Qed.

Lemma backoff_step n attempt d :
  backoff (S n - (2 - attempt)) d =
  if decide (1 < attempt)%nat then d + backoff (n - (2 - S attempt)) ((d * 2) `min` RECONNECT_MAX_BACKOFF)
  else backoff (n - (2 - S attempt)) d.
Proof.
  destruct attempt as [|[|a]]; case_decide; try lia; try (f_equal; lia).
  replace (S n - (2 - S (S a)))%nat with (S n) by lia. by replace (n - (2 - S (S (S a))))%nat with n by lia.
Qed.

Lemma same_image_fetch expected id c : same_image expected (rp_fetch id c).2 = same_image expected c.
Proof. unfold same_image. by rewrite rp_fetch_metadata. Qed.

Lemma wait_turn_spec expected n attempt delay log total :
  0 <= delay -> slept log + backoff (S n - (2 - attempt)) delay <= total -> Forall (fetches_same expected) log ->
  exists log' delay', wait_turn attempt delay log = (log', delay') /\ 0 <= delay' /\
    slept log' + backoff (n - (2 - S attempt)) delay' <= total /\ dials log' = dials log /\
    Forall (fetches_same expected) log'.
Proof.
  intros Hd. rewrite backoff_step. unfold wait_turn. intros Hs Hf. case_decide; eexists _, _; (split; [done|]);
    rewrite ?slept_app, ?dials_app, ?Forall_app; cbn [slept dials foldr]; split_and!; auto;
    try (by repeat constructor); unfold RECONNECT_MAX_BACKOFF in *; lia.
Qed.

Lemma connection_spec expected attempt client net log :
  Forall (fetches_same expected) log -> dials log = Nat.pred attempt ->
  exists conn net' log', connection attempt client net log = (conn, net', log') /\ slept log' = slept log /\
    dials log' = attempt /\ Forall (fetches_same expected) log' /\
    (if bool_decide (0 < attempt)%nat then last log' = Some (Dial conn) else conn = Done (Ok client)).
Proof.
  intros Hf Hd. unfold connection. case_decide as Ha.
  - destruct (dial net) as [x nx]. eexists _, _, _; split; [done|].
    rewrite slept_app, dials_app, Forall_app, last_snoc, bool_decide_true by done.
    split_and!; try done; cbn [slept dials foldr]; try (by repeat constructor); lia.
  - eexists _, _, _; split; [done|]. rewrite bool_decide_false by done. split_and!; try done. lia.
Qed.

Lemma attempts_end_well n : forall attempt expected id delay last_err client net log total r client' net' log',
  between expected total n attempt delay last_err client log ->
  attempts_from n attempt expected id delay last_err client net log = (r, client', net', log') ->
  ends_well expected total r client' log'.
Proof.
  induction n as [|n IH]; intros attempt expected id delay last_err client net log total r client' net' log' B E;
    destruct B as [B1 B2 B3 B4 B5 B6 B7]; cbn [attempts_from] in E.
  { simplify_eq. pose proof (backoff_nonneg (0 - (2 - attempt)) delay B2).
    constructor; try done; try lia. destruct last_err as [e|]; [|unfold RECONNECT_MAX_ATTEMPTS in *; lia].
    cbn. right; right; right. split; [done|lia]. }
  destruct (wait_turn_spec _ _ _ _ _ _ B2 B3 B5) as (log1 & delay1 & Ew & D1 & D2 & D3 & D4). rewrite Ew in E.
  pose proof (backoff_nonneg (n - (2 - S attempt)) delay1 D1) as Hnn.
  destruct (connection_spec expected attempt client net log1 D4) as (conn & net1 & log2 & Ec & C1 & C2 & C3 & C4);
    [by rewrite D3|]. rewrite Ec in E.
  assert (attempt <= RECONNECT_MAX_ATTEMPTS)%nat as Hat by lia.
  destruct conn as [[fresh|e]|p].
  2: { destruct (bool_decide _); [|done]. eapply IH; [|exact E]. constructor; try done; try lia. by left. }
  2: { destruct (bool_decide _); [|done]. simplify_eq. constructor; try done; lia. }
  destruct (bool_decide _ && _) eqn:Hsame.
  { apply andb_true_iff in Hsame as [Ha Hs]. rewrite Ha in C4. apply negb_true_iff in Hs. simplify_eq.
    constructor; try done; try lia. cbn. right; right; left. by exists fresh. }
  assert (same_image expected fresh = true) as Hf.
  { destruct (bool_decide _) eqn:Ha; cbn in Hsame; [by apply negb_false_iff in Hsame|]. by simplify_eq. }
  pose proof (same_image_fetch expected (Z.of_nat id) fresh) as Hk. rewrite Hf in Hk.
  destruct (rp_fetch (Z.of_nat id) fresh) as [x c1] eqn:Ef. cbn [snd] in Hk.
  assert (Forall (fetches_same expected) (log2 ++ [Fetch fresh x])) as Hall by (rewrite Forall_app; split; [done|by repeat constructor]).
  assert (slept (log2 ++ [Fetch fresh x]) = slept log2) as Hsl by (rewrite slept_app; cbn; lia).
  assert (dials (log2 ++ [Fetch fresh x]) = attempt) as Hdl by (rewrite dials_app; cbn; lia).
  destruct x as [[d|e]|p].
  - simplify_eq. constructor; try done; try lia. cbn. exists fresh. by rewrite last_snoc.
  - destruct (is_connection_error e) eqn:He; cbn [negb] in E.
    + eapply IH; [|exact E]. constructor; try done; try lia. right. exists fresh. by rewrite last_snoc.
    + simplify_eq. constructor; try done; try lia. cbn. left. exists fresh. by rewrite last_snoc.
  - simplify_eq. constructor; try done; try lia. cbn. right; left. exists fresh, p. by rewrite last_snoc.
Qed.
End reconnect_proofs.

(** ** Stripes in the hands of the workers *)

Lemma concat_insert {A B} (f : A -> list B) l i x y :
  l !! i = Some x -> concat (f <$> <[i := y]> l) ++ f x ≡ₚ concat (f <$> l) ++ f y.
Proof.
  intros Hi. rewrite (insert_take_drop l i y) by (by eapply lookup_lt_Some).
  rewrite <- (take_drop_middle l i x Hi) at 3. rewrite !fmap_app, !fmap_cons, !concat_app. cbn [concat].
  solve_Permutation.
Qed.

Section source_proofs.
Context {P N : Type} `{RemoteStripeProvider P} `{ConnectFn N P}.
#[local] Set Default Proof Using "Type*".
Notation Source := (RemoteStripeSource P N).

Definition worker_ids (wk : Worker P) : list nat :=
  match wk with Idle _ => [] | Fetching id _ | Gone id => [id] end.

(** Every stripe that was asked for and not reported yet, where it is: in the
    request channel, with a worker, or in the result channel. *)
Definition in_hands (s : Source) : list nat :=
  request_queue s ++ concat (worker_ids <$> rs_workers s) ++ (result_queue s).*1.

Definition pending_ids (s : Source) : list nat := (map_to_list (pending s)).*1.

(** Of those with a worker: in the hands of one that runs, or lost with one whose
    thread has panicked. *)
Definition held_ids (s : Source) : list nat :=
  concat ((fun wk => match wk with Fetching id _ => [id] | _ => [] end) <$> rs_workers s).
Definition lost_ids (s : Source) : list nat :=
  concat ((fun wk => match wk with Gone id => [id] | _ => [] end) <$> rs_workers s).

Lemma in_hands_split s : in_hands s ≡ₚ request_queue s ++ held_ids s ++ (result_queue s).*1 ++ lost_ids s.
Proof.
  unfold in_hands, held_ids, lost_ids.
  assert (concat (worker_ids <$> rs_workers s) ≡ₚ
    concat ((fun wk => match wk with Fetching id _ => [id] | _ => [] end) <$> rs_workers s) ++
    concat ((fun wk => match wk with Gone id => [id] | _ => [] end) <$> rs_workers s)) as ->; [|solve_Permutation].
  induction (rs_workers s) as [|[c|id c|id] l IH]; cbn; [done|done|by rewrite IH|]. rewrite IH. solve_Permutation.
Qed.

(** A thread panics only when dialing does. *)
Definition dialing_returns : Prop := forall net : N, exists r net', dial net = (Done r, net').

Lemma attempts_return n : dialing_returns -> forall attempt expected id delay last_err client net log,
  exists x, (attempts_from n attempt expected id delay last_err client net log).1.1.1 = Done x.
Proof.
  intros Hdial. induction n as [|n IH]; intros attempt expected id delay last_err client net log; cbn; [by eexists|].
  destruct (wait_turn attempt delay log) as [log1 delay1].
  assert (exists c net' log', connection attempt client net log1 = (Done c, net', log')) as (c & net1 & log2 & ->).
  { unfold connection. case_decide; [|by do 3 eexists]. destruct (Hdial net) as (r & net' & ->). by do 3 eexists. }
  destruct c as [fresh|e]; [|apply IH]. destruct (_ && _); [by eexists|]. destruct (rp_fetch (Z.of_nat id) fresh) as [o c1].
  destruct o as [[d|e]|p]; [by eexists| |by eexists]. destruct (negb _); [by eexists|apply IH].
Qed.

Lemma worker_step_loses_none i s : dialing_returns -> lost_ids s = [] -> lost_ids (worker_step i s) = [].
Proof.
  intros Hd Hl. apply Permutation_nil_r. unfold lost_ids in *.
  unfold worker_step. destruct (rs_workers s !! i) as [[c|id c|id]|] eqn:Hi; try (by rewrite Hl).
  - destruct (request_queue s) as [|id q]; [by rewrite Hl|]. cbn [rs_workers set_workers].
    match goal with |- concat (?f <$> _) ≡ₚ _ => pose proof (concat_insert f _ _ _ (Fetching id c) Hi) as Hc end.
    cbn beta match in Hc. rewrite Hl, !app_nil_r in Hc. done.
  - destruct (attempts_return (S RECONNECT_MAX_ATTEMPTS) Hd 0 (rs_expected s) id RECONNECT_INITIAL_BACKOFF None c (rs_net s) []) as [x Hx].
    unfold fetch_with_reconnect. destruct (attempts_from _ _ _ _ _ _ _ _ _) as [[[r c'] net] log]. cbn [fst] in Hx. subst r.
    cbn [rs_workers set_workers]. match goal with |- concat (?f <$> _) ≡ₚ _ => pose proof (concat_insert f _ _ _ (Idle c') Hi) as Hc end.
    cbn beta match in Hc. rewrite Hl, !app_nil_r in Hc. done.
Qed.

Lemma run_workers_lose_none steps s : dialing_returns -> lost_ids s = [] -> lost_ids (run_workers steps s) = [].
Proof.
  intros Hd. revert s. induction steps as [|i steps IH]; intros s Hl; [done|]. unfold run_workers in *. cbn. by apply IH, worker_step_loses_none.
Qed.

Lemma worker_step_hands i s : in_hands (worker_step i s) ≡ₚ in_hands s /\ pending (worker_step i s) = pending s.
Proof.
  unfold worker_step. destruct (rs_workers s !! i) as [[c|id c|id]|] eqn:Hi; try done.
  - destruct (request_queue s) as [|id q] eqn:Hq; [done|]. split; [|done]. unfold in_hands. cbn. rewrite Hq.
    pose proof (concat_insert worker_ids _ _ _ (Fetching id c) Hi) as Hc. cbn [worker_ids] in Hc.
    rewrite app_nil_r in Hc. rewrite Hc. solve_Permutation.
  - destruct (fetch_with_reconnect c (rs_net s) (rs_expected s) id) as [[[r c'] net] log].
    destruct r as [r|p]; (split; [|done]); unfold in_hands; cbn.
    + pose proof (concat_insert worker_ids _ _ _ (Idle c') Hi) as Hc. cbn [worker_ids] in Hc.
      rewrite app_nil_r in Hc. rewrite fmap_app. cbn. rewrite <- Hc. solve_Permutation.
    + pose proof (concat_insert worker_ids _ _ _ (Gone id) Hi) as Hc. cbn [worker_ids] in Hc.
      apply (Permutation_app_inv_r [id]) in Hc. by rewrite Hc.
Qed.

Lemma run_workers_hands steps s :
  in_hands (run_workers steps s) ≡ₚ in_hands s /\ pending (run_workers steps s) = pending s.
Proof.
  revert s. induction steps as [|i steps IH]; intros s; [done|]. cbn.
  destruct (IH (worker_step i s)) as [H1 H2]. destruct (worker_step_hands i s) as [G1 G2].
  unfold run_workers in *. by rewrite H1, H2, G1, G2.
Qed.

Lemma run_workers_expected steps s : rs_expected (run_workers steps s) = rs_expected s.
Proof.
  revert s. induction steps as [|i steps IH]; intros s; [done|]. unfold run_workers in *. cbn [foldl]. rewrite IH.
  unfold worker_step. repeat case_match; done.
Qed.

(** How many steps the workers have left. *)
Definition work_left (s : Source) : nat :=
  2 * length (request_queue s) + length (held_ids s).

Definition can_step (i : nat) (s : Source) : Prop :=
  match rs_workers s !! i with
  | Some (Idle _) => request_queue s <> []
  | Some (Fetching _ _) => True
  | _ => False
  end.

Lemma worker_step_progress i s : can_step i s -> (work_left (worker_step i s) < work_left s)%nat.
Proof.
  unfold can_step, worker_step, work_left, held_ids. destruct (rs_workers s !! i) as [[c|id c|id]|] eqn:Hi; try done.
  - destruct (request_queue s) as [|id q] eqn:Hq; [done|]. intros _. cbn [request_queue rs_workers set_workers length].
    match goal with |- context [?f <$> <[_ := _]> _] => pose proof (concat_insert f _ _ _ (Fetching id c) Hi) as Hc end.
    apply Permutation_length in Hc. rewrite !length_app in Hc. cbn [length] in Hc. lia.
  - intros _. destruct (fetch_with_reconnect c (rs_net s) (rs_expected s) id) as [[[r c'] net] log].
    destruct r as [r|p]; cbn [request_queue rs_workers set_workers];
    match goal with |- context [?f <$> <[_ := ?y]> _] => pose proof (concat_insert f _ _ _ y Hi) as Hc end;
    apply Permutation_length in Hc; rewrite !length_app in Hc; cbn [length] in Hc; lia.
Qed.

(** ** Delivery *)

Lemma take_results_out results pend w rs pend' w' :
  take_results results pend w = (rs, pend', w') ->
  (map_to_list pend).*1 ≡ₚ rs.*1 ++ (map_to_list pend').*1.
Proof.
  revert pend w rs pend' w'. induction results as [|[id r] results IH]; intros pend w rs pend' w' E; cbn in E.
  { by simplify_eq. }
  destruct (pend !! id) as [b|] eqn:Hb; [|by eapply IH].
  destruct (match r with Ok _ => _ | Err _ => _ end) as [ok w1].
  destruct (take_results results (delete id pend) w1) as [[rs1 p1] w2] eqn:E1. simplify_eq. cbn.
  rewrite <- (IH _ _ _ _ _ E1). by rewrite <- (map_to_list_delete _ _ _ Hb).
Qed.

Definition bufs_live (pend : gmap nat nat) (w : World) : Prop := forall id b, pend !! id = Some b -> b ∈ dom (w_bufs w).

Lemma deliver_frame data b w ok w' : b ∈ dom (w_bufs w) -> deliver data b w = (ok, w') -> frame w w'.
Proof.
  intros Hb. unfold deliver. case_decide; intros; simplify_eq; [done|]. apply write_buf_frame; [done|].
  rewrite length_app, length_replicate. lia.
Qed.

Lemma bufs_live_stable pend w w' : stable w w' -> bufs_live pend w -> bufs_live pend w'.
Proof. intros Hs Hl id b Hb. by apply Hs, (Hl id). Qed.

Lemma bufs_live_delete id pend w : bufs_live pend w -> bufs_live (delete id pend) w.
Proof. intros Hl j b Hj. apply (Hl j). by apply lookup_delete_Some in Hj as [_ ?]. Qed.
#[local] Hint Resolve bufs_live_delete : core.

Lemma take_results_frame results pend w rs pend' w' :
  bufs_live pend w -> take_results results pend w = (rs, pend', w') -> frame w w' /\ bufs_live pend' w'.
Proof.
  revert pend w rs pend' w'. induction results as [|[id r] results IH]; intros pend w rs pend' w' Hl E; cbn in E.
  { by simplify_eq. }
  destruct (pend !! id) as [b|] eqn:Hb; [|by eapply IH].
  destruct (match r with Ok _ => _ | Err _ => _ end) as [ok w1] eqn:Ed.
  destruct (take_results results (delete id pend) w1) as [[rs1 p1] w2] eqn:E1. simplify_eq.
  assert (frame w w1) as Hf by (destruct r; [by eapply deliver_frame; [eapply Hl|]|by simplify_eq]).
  destruct (IH _ _ _ _ _ (bufs_live_stable _ _ _ (frame_stable _ _ Hf) (bufs_live_delete id _ _ Hl)) E1) as [Hf1 Hl1].
  split; [by etransitivity|done].
Qed.
End source_proofs.

#[local] Obligation Tactic := idtac.

#[global] Program Instance remote_source_safe {P N} `{RemoteStripeProvider P} `{ConnectFn N P}
  : SourceSafe (RemoteStripeSource P N) := {
  ss_inv s w := bufs_live (pending s) w;
  ss_stripe_sectors s := fp_stripe_sector_count (rs_expected s);
}.
Next Obligation. intros P N ?? s w w' Hs. by apply bufs_live_stable. Qed.
Next Obligation.
  intros P N ?? id b s w Hi [Hb _]. cbn. unfold remote_request. case_match; (do 3 eexists; split_and!; try done).
  intros j c. cbn. rewrite lookup_insert. case_decide; intros; simplify_eq; [done|by eapply Hi].
Qed.
Next Obligation.
  intros P N ?? s w Hi. cbn. unfold remote_poll. set (s1 := run_workers _ s).
  destruct (take_results (result_queue s1) (pending s1) w) as [[rs pend] w1] eqn:E.
  assert (bufs_live (pending s1) w) as Hi1 by (unfold s1; by rewrite (proj2 (run_workers_hands _ s))).
  destruct (take_results_frame _ _ _ _ _ _ Hi1 E) as [Hf Hl]. do 3 eexists; split_and!; try done.
  cbn. unfold s1. by rewrite run_workers_expected.
Qed.

#[global] Program Instance remote_source_contract {P N} `{RemoteStripeProvider P} `{ConnectFn N P}
  : SourceContract (RemoteStripeSource P N) := {
  ss_outstanding s := pending_ids s;
}.
Next Obligation.
  intros P N ?? id b s w r s' w' Hn. cbn. unfold remote_request. case_match; intros; simplify_eq; [done|].
  unfold pending_ids in *. cbn. rewrite map_to_list_insert; [done|]. destruct (pending s !! id) as [x|] eqn:Hx; [|done].
  exfalso. apply Hn. apply list_elem_of_fmap. exists (id, x). split; [done|]. by apply elem_of_map_to_list.
Qed.
Next Obligation.
  intros P N ?? s w rs s' w'. cbn. unfold remote_poll, pending_ids. set (s1 := run_workers _ s).
  destruct (take_results (result_queue s1) (pending s1) w) as [[rs1 pend] w1] eqn:E. intros. simplify_eq.
  apply take_results_out in E. cbn [pending]. rewrite <- E. unfold s1. by rewrite (proj2 (run_workers_hands _ s)).
Qed.

(** ** Runs of the source over a genuine server *)

(** [genuine] clients are connected to a server that holds the stripes
    [content]; a client dialed later is genuine if its metadata has the expected
    geometry. *)
Class Faithful (P N : Type) `{RemoteStripeProvider P} `{ConnectFn N P} (expected : MetadataFingerprint)
    (genuine : P -> Prop) (content : Z -> list Z -> Prop) := {
  genuine_fetch id c o c' : is_u64 id -> genuine c -> rp_fetch id c = (o, c') ->
    genuine c' /\ forall d, o = Done (Ok d) -> content id d;
  genuine_dial net c net' : dial net = (Done (Ok c), net') -> same_image expected c = true -> genuine c;
}.

Section faithful.
Context {P N : Type} `{RemoteStripeProvider P} `{ConnectFn N P}.
Context (expected : MetadataFingerprint) (genuine : P -> Prop) (content : Z -> list Z -> Prop).
Context `{!Faithful P N expected genuine content}.
#[local] Set Default Proof Using "Type*".
Notation Source := (RemoteStripeSource P N).

Lemma attempts_genuine n : forall attempt id delay last_err client net log r client' net' log',
  is_u64 (Z.of_nat id) -> genuine client ->
  attempts_from n attempt expected id delay last_err client net log = (r, client', net', log') ->
  genuine client' /\ forall d, r = Done (Ok d) -> content (Z.of_nat id) d.
Proof.
  induction n as [|n IH]; intros attempt id delay last_err client net log r client' net' log' Hid Hg E; cbn in E.
  { by simplify_eq. }
  destruct (wait_turn attempt delay log) as [log1 delay1]. unfold connection in E.
  destruct (decide (0 < attempt)%nat) as [Ha|Ha].
  - rewrite bool_decide_true in E by done. destruct (dial net) as [[[fresh|e]|p] net1] eqn:Ed; [|by eapply IH|by simplify_eq].
    cbn in E. destruct (same_image expected fresh) eqn:Hs; cbn in E; [|by simplify_eq].
    pose proof (genuine_dial _ _ _ Ed Hs) as Hg1. destruct (rp_fetch (Z.of_nat id) fresh) as [o c1] eqn:Ef.
    destruct (genuine_fetch _ _ _ _ Hid Hg1 Ef) as [Hg2 Hc]. repeat case_match; simplify_eq; try by eapply IH.
    all: split; [done|]; intros; simplify_eq; auto.
  - rewrite bool_decide_false in E by done. cbn in E. destruct (rp_fetch (Z.of_nat id) client) as [o c1] eqn:Ef.
    destruct (genuine_fetch _ _ _ _ Hid Hg Ef) as [Hg2 Hc]. repeat case_match; simplify_eq; try by eapply IH.
    all: split; [done|]; intros; simplify_eq; auto.
Qed.

Definition worker_genuine (wk : Worker P) : Prop :=
  match wk with Idle c => genuine c | Fetching _ c => genuine c | Gone _ => True end.
Definition result_genuine (x : nat * result (list Z)) : Prop :=
  forall d, x.2 = Ok d -> content (Z.of_nat x.1) d.

(** What holds throughout a run. *)
Record remote_inv (s : Source) (w : World) : Prop := {
  ri_expected : rs_expected s = expected;
  ri_hands : pending_ids s ≡ₚ in_hands s;
  ri_u64 : Forall (fun id => is_u64 (Z.of_nat id)) (in_hands s);
  ri_workers : Forall worker_genuine (rs_workers s);
  ri_results : Forall result_genuine (result_queue s);
  ri_live : bufs_live (pending s) w;
  ri_distinct i j b : pending s !! i = Some b -> pending s !! j = Some b -> i = j;
}.

Lemma worker_step_inv i s w : remote_inv s w -> remote_inv (worker_step i s) w.
Proof.
  intros [I1 I2 I3 I4 I5 I6 I7]. destruct (worker_step_hands i s) as [H1 H2].
  assert (rs_expected (worker_step i s) = expected /\ Forall worker_genuine (rs_workers (worker_step i s)) /\
    Forall result_genuine (result_queue (worker_step i s))) as (G1 & G2 & G3).
  { unfold worker_step. destruct (rs_workers s !! i) as [[c|id c|id]|] eqn:Hi; try done.
    - destruct (request_queue s) as [|id q]; [done|]. split_and!; [done| |done]. apply Forall_insert; [done|].
      by apply (Forall_lookup_1 _ _ _ _ I4 Hi).
    - destruct (fetch_with_reconnect c (rs_net s) (rs_expected s) id) as [[[r c'] net] log] eqn:E. rewrite I1 in E.
      assert (is_u64 (Z.of_nat id)) as Hid.
      { rewrite Forall_forall in I3. apply I3. unfold in_hands. rewrite !elem_of_app. right; left.
        rewrite list_elem_of_In, in_concat. exists [id]. split; [|by left]. apply list_elem_of_In, list_elem_of_fmap.
        exists (Fetching id c). split; [done|]. by eapply list_elem_of_lookup_2. }
      destruct (attempts_genuine _ _ _ _ _ _ _ _ _ _ _ _ Hid (Forall_lookup_1 _ _ _ _ I4 Hi) E) as [Hg Hc].
      destruct r as [r|p]; split_and!; try done; try by apply Forall_insert.
      cbn. apply Forall_app; split; [done|]. constructor; [|done]. intros d Hd. cbn in *. apply Hc. by rewrite Hd. }
  constructor; try done; unfold pending_ids in *; rewrite ?H2; try done; by rewrite H1.
Qed.

Lemma run_workers_inv steps s w : remote_inv s w -> remote_inv (run_workers steps s) w.
Proof.
  revert s. induction steps as [|i steps IH]; intros s I; [done|]. unfold run_workers in *. cbn. by apply IH, worker_step_inv.
Qed.

(** The results of a poll: each one is reported, and a success means that the
    buffer of its request holds the stripe; other buffers are left alone. *)
Lemma take_results_spec results : forall pend w rs pend' w',
  NoDup results.*1 -> (forall id, id ∈ results.*1 -> is_Some (pend !! id)) -> Forall result_genuine results ->
  (forall i j b, pend !! i = Some b -> pend !! j = Some b -> i = j) ->
  take_results results pend w = (rs, pend', w') ->
  rs.*1 = results.*1 /\
  (forall id, id ∈ results.*1 -> pend' !! id = None) /\ (forall id, id ∉ results.*1 -> pend' !! id = pend !! id) /\
  (forall id, (id, true) ∈ rs -> exists b d n, pend !! id = Some b /\ content (Z.of_nat id) d /\
     read_buf w' b = d ++ replicate n 0 /\ length (read_buf w' b) = length (read_buf w b)) /\
  (forall b, (forall id, id ∈ results.*1 -> pend !! id <> Some b) -> read_buf w' b = read_buf w b).
Proof.
  induction results as [|[id r] results IH]; intros pend w rs pend' w' Hnd Hin Hg Hinj E; cbn in E.
  { simplify_eq. split_and!; try done; set_solver. }
  cbn [fmap list_fmap fst] in *. apply NoDup_cons in Hnd as [Hnew Hnd]. apply Forall_cons in Hg as [Hg1 Hg].
  destruct (Hin id) as [b Hb]; [by left|]. rewrite Hb in E.
  destruct (match r with Ok _ => _ | Err _ => _ end) as [ok w1] eqn:Ed.
  destruct (take_results results (delete id pend) w1) as [[rs1 p1] w2] eqn:E1. simplify_eq.
  destruct (IH (delete id pend) w1 rs1 pend' w') as (R1 & R2 & R3 & R4 & R5); try done.
  { intros j Hj. rewrite lookup_delete_ne by (by intros ->). apply Hin. by right. }
  { intros i j x Hi Hj. apply lookup_delete_Some in Hi as [_ Hi]. apply lookup_delete_Some in Hj as [_ Hj]. by eapply Hinj. }
  assert (forall x, x <> b -> read_buf w1 x = read_buf w x) as Hne.
  { intros x Hx. destruct r as [d|e]; [|by simplify_eq]. unfold deliver in Ed. case_decide; simplify_eq; [done|].
    by rewrite read_write_buf_ne. }
  assert (read_buf w' b = read_buf w1 b) as Hbb.
  { apply R5. intros j Hj Hd. apply lookup_delete_Some in Hd as [Hji Hd]. by apply Hji, (Hinj id j b). }
  assert (forall j x, delete id pend !! j = Some x -> x <> b) as Hother.
  { intros j x Hj ->. apply lookup_delete_Some in Hj as [Hji Hj]. by apply Hji, (Hinj id j b). }
  split_and!; [by cbn; rewrite R1| | | |].
  - intros j Hj. apply elem_of_cons in Hj as [->|Hj]; [|by apply R2]. rewrite R3 by done. by rewrite lookup_delete_eq.
  - intros j Hj. apply not_elem_of_cons in Hj as [Hj1 Hj2]. rewrite R3 by done. by rewrite lookup_delete_ne.
  - intros j Hj. apply elem_of_cons in Hj as [Hj|Hj].
    + simplify_eq. destruct r as [d|e]; [|by simplify_eq]. unfold deliver in Ed. case_decide as Hl; simplify_eq.
      exists b, d, (length (read_buf w b) - length d)%nat. rewrite Hbb, read_write_buf_eq.
      split_and!; try done; [by apply Hg1|]. rewrite length_app, length_replicate. lia.
    + destruct (R4 j Hj) as (x & d & n & Hx & Hc & Hr & Hl). exists x, d, n.
      rewrite <- (Hne x) by (by eapply Hother). split_and!; try done. by apply lookup_delete_Some in Hx as [_ Hx].
  - intros x Hx. rewrite R5.
    + apply Hne. intros ->. by apply (Hx id); [left|].
    + intros j Hj Hd. apply lookup_delete_Some in Hd as [_ Hd]. apply (Hx j); [by right|done].
Qed.

Lemma elem_of_pending (s : Source) id : id ∈ pending_ids s <-> is_Some (pending s !! id).
Proof.
  unfold pending_ids. rewrite list_elem_of_fmap. split.
  - intros ([i b] & -> & Hi). apply elem_of_map_to_list in Hi. by exists b.
  - intros [b Hb]. exists (id, b). by split; [|apply elem_of_map_to_list].
Qed.

(** One poll in a run. *)
Lemma remote_poll_inv s w : remote_inv s w ->
  exists rs s' w', ss_poll s w = Done (rs, s', w') /\ remote_inv s' w' /\
    pending_ids s ≡ₚ rs.*1 ++ pending_ids s' /\
    (forall id, (id, true) ∈ rs -> exists b d n, pending s !! id = Some b /\ content (Z.of_nat id) d /\
       read_buf w' b = d ++ replicate n 0 /\ length (read_buf w' b) = length (read_buf w b)) /\
    result_queue s' = [].
Proof.
  intros I. assert (ss_inv s w) as Hl0 by apply (ri_live _ _ I). destruct (ss_poll_safe s w Hl0) as (rs & s' & w' & E & Hf & Hl & _).
  exists rs, s', w'. split; [done|]. pose proof (ss_poll_out _ _ _ _ _ E) as Hout.
  apply (run_workers_inv (hd [] (rs_schedule s))) in I. cbn [ss_poll remote_source] in E. unfold remote_poll in E.
  pose proof (proj2 (run_workers_hands (hd [] (rs_schedule s)) s)) as Hp.
  set (s1 := run_workers _ s) in *. rewrite <- Hp.
  destruct (take_results (result_queue s1) (pending s1) w) as [[rs1 pend] w1] eqn:Et. simplify_eq.
  destruct I as [I1 I2 I3 I4 I5 I6 I7].
  assert (NoDup (in_hands s1)) as Hnd by (rewrite <- I2; apply NoDup_fst_map_to_list).
  assert (forall id, id ∈ (result_queue s1).*1 -> is_Some (pending s1 !! id)) as Hin.
  { intros id Hid. apply elem_of_pending. rewrite I2. unfold in_hands. rewrite !elem_of_app. by right; right. }
  unfold in_hands in Hnd. apply NoDup_app in Hnd as (_ & _ & Hnd). apply NoDup_app in Hnd as (_ & _ & Hnd).
  destruct (take_results_spec _ _ _ _ _ _ Hnd Hin I5 I7 Et) as (R1 & R2 & R3 & R4 & R5).
  assert (pend ⊆ pending s1) as Hsub.
  { apply map_subseteq_spec. intros i b Hi. destruct (decide (i ∈ (result_queue s1).*1)) as [Hi'|Hi'].
    - by rewrite R2 in Hi.
    - by rewrite R3 in Hi. }
  split_and!; try done. constructor; try done.
  - unfold pending_ids, in_hands in *. cbn [pending request_queue rs_workers result_queue] in *.
    apply take_results_out in Et. rewrite Et in I2. rewrite R1 in I2. rewrite fmap_nil, app_nil_r.
    apply (Permutation_app_inv_l (result_queue s1).*1). rewrite I2. solve_Permutation.
  - unfold in_hands in *. cbn. rewrite app_nil_r. rewrite !Forall_app in *. tauto.
  - cbn. intros i j b Hi Hj. by eapply I7; eapply lookup_weaken.
Qed.

(** Runs, with the stripes for which requests were accepted and those that polls
    have reported so far. *)
Inductive remote_step : Source * list nat * list nat * World -> Source * list nat * list nat * World -> Prop :=
| RequestStep id b s asked reported w r s' w' :
    is_u64 (Z.of_nat id) -> pending s !! id = None -> (forall j, pending s !! j <> Some b) -> b ∈ dom (w_bufs w) ->
    ss_request id b s w = Done (r, s', w') ->
    remote_step (s, asked, reported, w) (s', if is_ok r then asked ++ [id] else asked, reported, w')
| PollStep s asked reported w rs s' w' :
    ss_poll s w = Done (rs, s', w') -> remote_step (s, asked, reported, w) (s', asked, reported ++ rs.*1, w')
| OtherStep s asked reported w w' : stable w w' -> remote_step (s, asked, reported, w) (s, asked, reported, w').

Record run_inv (s : Source) (asked reported : list nat) (w : World) : Prop := {
  rn_source : remote_inv s w;
  rn_asked : asked ≡ₚ reported ++ pending_ids s;
  rn_lost : dialing_returns (P := P) (N := N) -> lost_ids s = [];
}.

Lemma remote_step_inv s asked reported w s' asked' reported' w' :
  remote_step (s, asked, reported, w) (s', asked', reported', w') ->
  run_inv s asked reported w -> run_inv s' asked' reported' w'.
Proof.
  intros St [I Ha Hlost]. inversion St as [id b ? ? ? ? r ? ? Hid Hnew Hb Hdom E|? ? ? ? rs ? ? E|? ? ? ? ? Hs]; subst.
  - destruct I as [I1 I2 I3 I4 I5 I6 I7]. cbn in E. unfold remote_request in E. case_match; simplify_eq; [by split|].
    assert (in_hands (mkRemoteSource (rs_source_sector_count s) (remote_headers s) (request_queue s ++ [id])
      (result_queue s) (<[id:=b]> (pending s)) (rs_workers s) (rs_expected s) (rs_net s) (rs_schedule s))
      ≡ₚ id :: in_hands s) as Hh by (unfold in_hands; cbn; solve_Permutation).
    split; [constructor; cbn; try done| |done].
    + rewrite Hh, <- I2. unfold pending_ids. cbn. by rewrite map_to_list_insert.
    + rewrite Hh. by constructor.
    + intros j c. rewrite lookup_insert. case_decide; intros; simplify_eq; [done|by eapply I6].
    + intros i j c. rewrite !lookup_insert. repeat case_decide; intros; simplify_eq; try done; [by edestruct Hb..|by eapply I7].
    + cbn [is_ok]. rewrite Ha. unfold pending_ids. cbn [pending]. rewrite map_to_list_insert by done. cbn. solve_Permutation.
  - destruct (remote_poll_inv s w I) as (rs1 & s1 & w1 & E1 & I1 & Hp & _). rewrite E1 in E. simplify_eq. split; [done| |].
    + by rewrite Ha, Hp, app_assoc.
    + intros Hd. specialize (Hlost Hd). apply (run_workers_lose_none (hd [] (rs_schedule s)) s Hd) in Hlost.
      cbn in E1. unfold remote_poll in E1. destruct (take_results _ _ _) as [[? ?] ?]. by simplify_eq.
  - split; [|done..]. destruct I as [I1 I2 I3 I4 I5 I6 I7]. constructor; try done. by eapply bufs_live_stable.
Qed.

Lemma remote_run_inv s asked reported w s' asked' reported' w' :
  rtc remote_step (s, asked, reported, w) (s', asked', reported', w') ->
  run_inv s asked reported w -> run_inv s' asked' reported' w'.
Proof.
  intros Hr. remember (s, asked, reported, w) as x eqn:Ex. remember (s', asked', reported', w') as y eqn:Ey. revert s asked reported w Ex.
  induction Hr as [?|x [[[s1 a1] r1] w1] y St Hr IH]; intros s asked reported w -> I; [by simplify_eq|].
  eapply (IH Ey); [done|]. by eapply remote_step_inv.
Qed.

Lemma remote_new_inv spawn schedule clients net n s w :
  remote_new spawn schedule clients net n = Ok s -> rs_expected s = expected -> Forall genuine clients -> run_inv s [] [] w.
Proof.
  intros E He Hg. unfold remote_new in E. destruct clients as [|c cs]; [done|]. destruct (get_metadata c) as [m|]; [|done].
  destruct (negb _); [done|]. destruct (checked_mul64 _ _) as [z|]; [|done].
  destruct (foldr _ _ _) as [[]|]; [|done]. cbn [mbind result_bind] in E. injection E as <-.
  assert (forall l : list P, concat (worker_ids <$> (Idle <$> l)) = []) as Hno.
  { induction l as [|x l IH]; [done|]. by rewrite !fmap_cons. }
  assert (Forall worker_genuine (Idle <$> c :: cs)) as Hw by (apply Forall_fmap; exact Hg).
  unfold rs_expected in He.
  split; [|done|].
  - constructor; unfold pending_ids, in_hands; cbn [request_queue rs_workers result_queue pending]; try done;
      change (Idle c :: list_fmap P (Worker P) Idle cs) with (Idle <$> c :: cs); by rewrite Hno.
  - intros _. unfold lost_ids. cbn [rs_workers fmap list_fmap concat app]. clear. induction cs as [|x l IH]; [done|]. exact IH.
Qed.
End faithful.

(** ** Connections to a stripe server on a file are genuine *)

Lemma cl_on_stream_keeps {T A} (f : T -> result A * T) mm :
  keeps (fun c => cl_metadata c = mm) (cl_on_stream f) (fun _ => True).
Proof. intros c Hc. unfold cl_on_stream. destruct (f (cl_stream c)) as [r t]. by exists r, (mkClient t (cl_metadata c)). Qed.

(** A fetch returns, and keeps the metadata. *)
Lemma fetch_stripe_keeps {T} `{Stream T} id mm :
  keeps (fun c : StripeServerClient T => cl_metadata c = mm) (fetch_stripe id) (fun _ => True).
Proof.
  intros c Hc. unfold fetch_stripe. destruct (cl_metadata c) as [m|] eqn:Hm; [|by eexists _, _; split_and!; [done|rewrite Hm|done]].
  refine ((_ : keeps (fun c => cl_metadata c = mm) _ (fun _ => True)) c _); [|by rewrite Hm].
  unfold cl_send, cl_flush, cl_recv.
  repeat first [apply keeps_raise | apply cl_on_stream_keeps | eapply keeps_bind; [apply cl_on_stream_keeps|intros ? _] | case_decide].
Qed.

#[global] Instance client_provider_laws {T} `{Stream T} : ProviderLaws (StripeServerClient T).
Proof.
  constructor. intros id c. cbn [rp_fetch get_metadata client_provider].
  destruct (fetch_stripe_keeps id (cl_metadata c) c eq_refl) as (r & c' & -> & Hc & _). done.
Qed.

Section served.
Context (crc32 : list Z -> Z) (rounds : nat) (m : UbiMetadata) (path : nat) (data : list Z) {S : Type} `{StripeSource S}.
Context (Hwf : metadata_wf m) (Hrounds : (0 < rounds)%nat).
#[local] Set Default Proof Using "All".
Notation Client := (StripeServerClient (Served SyncIoChannel S)).

(** A client in step with its session, or whose session has ended. *)
Definition served_client (c : Client) : Prop :=
  exists op sv, c = mkClient sv (Some m) /\ linked crc32 rounds m path data op [] sv.

Lemma served_fetch id (c : Client) o c' : is_u64 id -> served_client c -> rp_fetch id c = (o, c') ->
  served_client c' /\ forall d, o = Done (Ok d) -> stripe_served m data id = Ok d.
Proof.
  intros Hid ([|] & sv & -> & L) E; cbn [rp_fetch client_provider] in E.
  - destruct (fetch_stripe_linked crc32 rounds m path data Hwf Hrounds sv id L Hid) as (sv' & E1 & L1).
    rewrite E1 in E. simplify_eq. split; [by eexists _, _|]. intros d Hd. by injection Hd.
  - unfold fetch_stripe in E. cbn [cl_metadata] in E.
    erewrite eff_bind_err in E; [|unfold cl_send, cl_on_stream; cbn [cl_stream write_all served_stream];
      unfold served_write; by rewrite (lk_open _ _ _ _ _ _ _ _ L)].
    simplify_eq. split; [by exists false, sv|done].
Qed.

(** Any network whose clients are connected to such servers will do. *)
Lemma served_faithful (N : Type) `{ConnectFn N Client} :
  (forall net c net', dial net = (Done (Ok c), net') -> same_image (fingerprint_of m) c = true -> served_client c) ->
  Faithful Client N (fingerprint_of m) served_client (fun id d => stripe_served m data id = Ok d).
Proof. intros Hd. constructor; [apply served_fetch|exact Hd]. Qed.
End served.

(** ** Main theorems *)

(** C35: a worker that loses its connection redials at most ten times and waits
    at most 121.5 seconds in total; it reads stripes only from servers with the
    geometry it started with, and keeps such a connection; and its answer is
    justified by the last thing that happened: the data of a successful fetch, a
    permanent error of a fetch, a panic or a changed image, or, after all ten
    redials, the last connection error. *)
Theorem reconnect_bounded {P N} `{ProviderLaws P} `{ConnectFn N P} client net expected id r client' net' log :
  same_image expected client = true ->
  fetch_with_reconnect client net expected id = (r, client', net', log) ->
  ends_well expected 121500 r client' log.
Proof.
  intros Hc E. eapply attempts_end_well; [|exact E]. constructor; try done; vm_compute; congruence.
Qed.

(** C20: a remote source loses nothing, answers once and delivers exact data.
    Take a source over clients connected to a server with the stripes [content],
    in any run of requests for stripes that are not pending, with buffers that
    are not in use, polls, worker schedules, dropped connections and redials;
    [asked] are the stripes of the accepted requests and [reported] those that
    the polls have returned, as successes or failures.  Then every accepted
    request has been reported once or is pending, and a pending stripe is in
    exactly one place: the request channel, a running worker, the result channel,
    or lost with a worker thread that has panicked, which happens only if dialing
    panics.  A poll returns and empties the result channel; a success it reports
    means that the buffer of the request holds the stripe's content, padded with
    zeroes.  A worker with something to do brings the work left down, and when
    none is left, only lost stripes are pending after a poll. *)
Theorem remote_source_exact {P N} `{RemoteStripeProvider P} `{ConnectFn N P} genuine content spawn schedule
    (clients : list P) (net : N) n s0 w0 s asked reported w :
  remote_new spawn schedule clients net n = Ok s0 ->
  Faithful P N (rs_expected s0) genuine content -> Forall genuine clients ->
  rtc remote_step (s0, [], [], w0) (s, asked, reported, w) ->
  asked ≡ₚ reported ++ pending_ids s /\
  pending_ids s ≡ₚ request_queue s ++ held_ids s ++ (result_queue s).*1 ++ lost_ids s /\
  (dialing_returns (P := P) (N := N) -> lost_ids s = []) /\
  (forall i, can_step i s -> (work_left (worker_step i s) < work_left s)%nat) /\
  exists rs s' w', ss_poll s w = Done (rs, s', w') /\ result_queue s' = [] /\
    (forall id, (id, true) ∈ rs -> exists b d k, pending s !! id = Some b /\ content (Z.of_nat id) d /\
       read_buf w' b = d ++ replicate k 0 /\ length (read_buf w' b) = length (read_buf w b)) /\
    (work_left s' = 0%nat -> pending_ids s' ≡ₚ lost_ids s').
Proof.
  intros Hnew HF Hg Hrun.
  destruct (remote_run_inv _ genuine content _ _ _ _ _ _ _ _ Hrun (remote_new_inv _ _ content _ _ _ _ _ _ _ Hnew eq_refl Hg)) as [I Ha Hl].
  split_and!; [done|by rewrite <- in_hands_split, (ri_hands _ _ _ _ _ I)|done|intros i; apply worker_step_progress|].
  destruct (remote_poll_inv _ genuine content s w I) as (rs & s' & w' & E & I' & _ & Hok & Hres).
  exists rs, s', w'. split_and!; [done..|]. unfold work_left. intros Hidle. pose proof (ri_hands _ _ _ _ _ I') as Hh.
  rewrite in_hands_split, Hres in Hh. destruct (request_queue s'), (held_ids s'); cbn in *; [done|lia..].
Qed.

(** *** Concrete runs *)

Section demo.
Notation Conn := (Served SyncIoChannel (BlockDeviceStripeSource NullIoChannel)).

(** A connection to a server of the two stripes of [demo_world]; [op] tells
    whether it is still up. *)
Definition demo_client (op : bool) : StripeServerClient Conn :=
  mkClient (mkServed crc32_ieee 1 (mkSession fresh_pipe demo_metadata (mkSyncCh 5 false []) None) demo_world op)
    (Some demo_metadata).

Lemma demo_client_served op :
  served_client crc32_ieee 1 demo_metadata 5 (replicate 512 7 ++ replicate 512 9) (demo_client op).
Proof. exists op, (cl_stream (demo_client op)). split; [done|]. constructor; try done. constructor; try done. by exists []. Qed.

(** A network on which every third dial gets through. *)
#[local] Instance demo_network : ConnectFn nat (StripeServerClient Conn) := {
  dial n := (Done (if decide (n `mod` 3 = 2)%nat then Ok (demo_client true) else Err (IoError TimedOut)), S n);
}.
(** A network that is down. *)
#[local] Instance demo_dead : ConnectFn unit (StripeServerClient Conn) := {
  dial n := (Done (Err (IoError ConnectionReset)), n);
}.

Lemma reconnect_bounded_witness :
  let x := fetch_with_reconnect (demo_client false) tt (fingerprint_of demo_metadata) 0 in
  slept x.2 = 121500 /\ dials x.2 = 10%nat /\ ends_well (fingerprint_of demo_metadata) 121500 x.1.1.1 x.1.1.2 x.2.
Proof.
  intros x. split; [vm_compute; reflexivity|]. split; [vm_compute; reflexivity|].
  apply (reconnect_bounded (demo_client false) tt (fingerprint_of demo_metadata) 0 _ _ x.1.2); [vm_compute; reflexivity|].
  fold x. by destruct x as [[[? ?] ?] ?].
Defined.

Definition demo_source : RemoteStripeSource (StripeServerClient Conn) nat :=
  mkRemoteSource 1 [WRITTEN; 0] [] [] ∅ [Idle (demo_client false)] (fingerprint_of demo_metadata) 0%nat [[0; 0]]%nat.
Definition demo_requested : RemoteStripeSource (StripeServerClient Conn) nat :=
  mkRemoteSource 1 [WRITTEN; 0] [0%nat] [] {[0%nat := 0%nat]} [Idle (demo_client false)] (fingerprint_of demo_metadata) 0%nat
    [[0; 0]]%nat.
Definition demo_bufs : World := (alloc_buf 600 0 demo_world).2.

Lemma demo_faithful : Faithful (StripeServerClient Conn) nat (fingerprint_of demo_metadata)
  (served_client crc32_ieee 1 demo_metadata 5 (replicate 512 7 ++ replicate 512 9))
  (fun id d => stripe_served demo_metadata (replicate 512 7 ++ replicate 512 9) id = Ok d).
Proof.
  apply served_faithful; [apply demo_metadata_wf|lia|]. intros net c net' E _. cbn in E.
  case_decide; simplify_eq. apply demo_client_served.
Qed.

Lemma demo_source_new :
  remote_new (fun _ => Ok tt) [[0; 0]%nat] [demo_client false] 0%nat 1 = Ok demo_source.
Proof. unfold remote_new, demo_source. cbn [demo_client get_metadata client_provider cl_metadata]. reflexivity. Qed.

Lemma demo_run : rtc remote_step (demo_source, [], [], demo_bufs) (demo_requested, [0%nat], [], demo_bufs).
Proof.
  eapply rtc_l; [|apply rtc_refl]. apply (RequestStep 0 0 _ [] [] _ (Ok tt)).
  - vm_compute; split; congruence.
  - apply lookup_empty.
  - intros j. cbn. by rewrite lookup_empty.
  - unfold demo_bufs. cbn. rewrite dom_insert. set_solver.
  - reflexivity.
Qed.

(** The connection is down; the third dial succeeds, and the stripe arrives. *)
Example demo_delivery :
  match ss_poll demo_requested demo_bufs with
  | Done (rs, s', w') => rs = [(0%nat, true)] /\ read_buf w' 0 = replicate 512 7 ++ replicate 88 0 /\
      rs_net s' = 3%nat /\ ss_busy s' = false
  | Panic _ => False
  end.
Proof. vm_compute. split_and!; reflexivity. Qed.

Lemma remote_source_exact_witness :
  [0%nat] ≡ₚ [] ++ pending_ids demo_requested /\
  pending_ids demo_requested ≡ₚ request_queue demo_requested ++ held_ids demo_requested ++ (result_queue demo_requested).*1
    ++ lost_ids demo_requested /\
  (dialing_returns (P := StripeServerClient Conn) (N := nat) -> lost_ids demo_requested = []) /\
  (forall i, can_step i demo_requested -> (work_left (worker_step i demo_requested) < work_left demo_requested)%nat) /\
  exists rs s' w', ss_poll demo_requested demo_bufs = Done (rs, s', w') /\ result_queue s' = [] /\
    (forall id, (id, true) ∈ rs -> exists b d k, pending demo_requested !! id = Some b /\
       stripe_served demo_metadata (replicate 512 7 ++ replicate 512 9) (Z.of_nat id) = Ok d /\
       read_buf w' b = d ++ replicate k 0 /\ length (read_buf w' b) = length (read_buf demo_bufs b)) /\
    (work_left s' = 0%nat -> pending_ids s' ≡ₚ lost_ids s').
Proof.
  apply (remote_source_exact (N := nat) _ (fun id d => stripe_served demo_metadata (replicate 512 7 ++ replicate 512 9) id = Ok d)
    (fun _ => Ok tt) [[0; 0]%nat] [demo_client false] 0%nat 1 demo_source demo_bufs demo_requested [0%nat] [] demo_bufs
    demo_source_new demo_faithful).
  - repeat constructor. apply demo_client_served.
  - apply demo_run.
Defined.
End demo.
