(* ===== verification/ArchiveFormat.v ===== *)
(** * ArchiveFormat: objects of an archive

    Models src/src/archive: the [ArchiveStore] trait with its synchronous
    convenience calls (mod.rs), the in-memory and file-system stores
    (mem_store.rs, fs_store.rs), the framing of compressed stripes
    (compression.rs), the authenticated inputs (hmac.rs), the stripe mapping
    (stripe_hashes.rs, bytes32.rs) and the hash of utils/hash.rs.

    Zstd, SHA-256, HMAC and the CBOR and JSON encoders are parameters:
    [Hashing] and [Codecs], with [CodecLaws] stating that what was encoded is
    decoded again. *)
From S2P Require Import Prelude Metadata SharedState World Device Crypt Secrets Config.
#[local] Open Scope Z_scope.

(** ** Libraries *)

Class Hashing := {
  sha256_bytes : list Z -> list Z;
  hmac_key_accepted : list Z -> bool;          (* [Hmac::new_from_slice] *)
  hmac_sha256 : list Z -> list Z -> list Z;    (* key, message *)
}.
Class HashingLaws `{Hashing} := {
  sha256_length d : length (sha256_bytes d) = 32%nat;
  sha256_u8 d : Forall is_u8 (sha256_bytes d);
  hmac_length k d : length (hmac_sha256 k d) = 32%nat;
}.

(** ** The archive's data *)

Definition ARCHIVE_FORMAT_VERSION : Z := 1.
Definition ARCHIVE_FORMAT_VERSION_MIN : Z := 1.
Definition ARCHIVE_FORMAT_VERSION_MAX : Z := ARCHIVE_FORMAT_VERSION.

Inductive ArchiveCompressionAlgorithm := CompressNone | Zstd (level : Z).

Record ArchiveMetadata := mkArchiveMetadata {
  am_format_version : Z;
  am_stripe_sector_count : Z;
  am_encryption_key : option (list Z);
  am_compression : ArchiveCompressionAlgorithm;
  am_hmac_key : list Z;
  am_metadata_hmac : list Z;
}.

Definition validate_format_version (version : Z) : result unit :=
  if negb ((ARCHIVE_FORMAT_VERSION_MIN <=? version) && (version <=? ARCHIVE_FORMAT_VERSION_MAX))
  then Err (MetadataError OtherMetadataFault) else Ok tt.

Inductive StripeContentSpecifier := Zero | Hash (sha256 : list Z).
#[global] Instance StripeContentSpecifier_eq_dec : EqDecision StripeContentSpecifier.
Proof. solve_decision. Defined.
Notation StripeContentMap := (gmap nat StripeContentSpecifier).

Record StripeMappingFile := mkMapping {
  mf_domain : list Z;
  mf_version : Z;
  mf_ciphertext : list Z;
  mf_plaintext_len : Z;
  mf_hmac_tag : list Z;
}.

(** The serde formats of the two data types and of the mapping's payload, a map
    ordered by key; decoding yields byte strings whose length [bytes32] checks. *)
Class Codecs := {
  zstd_encode : Z -> list Z -> option (list Z);
  zstd_decode : list Z -> option (list Z);
  cbor_of_map : StripeContentMap -> option (list Z);
  cbor_to_map : list Z -> option StripeContentMap;
  cbor_of_file : StripeMappingFile -> option (list Z);
  cbor_to_file : list Z -> option StripeMappingFile;
  json_of_metadata : ArchiveMetadata -> option (list Z);
  json_to_metadata : list Z -> option ArchiveMetadata;
}.
Class CodecLaws `{Codecs} := {
  zstd_roundtrip level d c : zstd_encode level d = Some c -> zstd_decode c = Some d;
  cbor_map_roundtrip m bs : cbor_of_map m = Some bs -> cbor_to_map bs = Some m;
  cbor_file_roundtrip f bs : cbor_of_file f = Some bs -> cbor_to_file bs = Some f;
  json_roundtrip m bs : json_of_metadata m = Some bs -> json_to_metadata bs = Some m;
}.
(** A decoded hash is an array of [u8], whatever the input. *)
Definition hashes_u8 (m : StripeContentMap) : Prop := forall i h, m !! i = Some (Hash h) -> Forall is_u8 h.
Class CodecTypes `{Codecs} := {
  cbor_map_u8 bs m : cbor_to_map bs = Some m -> hashes_u8 m;
}.

(** bytes32.rs: a byte string of another length than 32 is refused. *)
Definition bytes32 (v : list Z) : bool := bool_decide (length v = 32%nat).
Definition specifier_ok (s : StripeContentSpecifier) : bool :=
  match s with Zero => true | Hash h => bytes32 h end.

(** ** Compression *)

Section compression.
Context `{Codecs}.

Definition with_size_header_and_padding (compressed : list Z) : result (list Z) :=
  let size := Z.of_nat (length compressed) in
  if U32_MAX <? size then Err ArchiveError else
  let compressed := to_le 4 size ++ compressed in
  let padding := ((SECTOR_SIZE - length compressed `mod` SECTOR_SIZE) `mod` SECTOR_SIZE)%nat in
  Ok (compressed ++ replicate padding 0).

(** Lengths are [usize]; the slice cannot be out of range after the check. *)
Definition compressed_payload (data : list Z) : result (list Z) :=
  if decide (length data < 4)%nat then Err ArchiveError else
  let compressed_size := Z.to_nat (from_le (take 4 data)) in
  if decide (length data < compressed_size + 4)%nat then Err ArchiveError else
  Ok (take compressed_size (drop 4 data)).

Definition ensure_sector_aligned (decompressed : list Z) : result (list Z) :=
  if decide (length decompressed `mod` SECTOR_SIZE <> 0)%nat then Err ArchiveError else Ok decompressed.

Definition compress (c : ArchiveCompressionAlgorithm) (data : list Z) : outcome (result (list Z)) :=
  if decide (length data `mod` SECTOR_SIZE <> 0)%nat then Panic AssertionFailed else
  match c with
  | CompressNone => Done (Ok data)
  | Zstd level =>
      Done (compressed ← or_err (IoError OtherIo) (zstd_encode level data);
            with_size_header_and_padding compressed)
  end.

Definition decompress (c : ArchiveCompressionAlgorithm) (data : list Z) : result (list Z) :=
  match c with
  | CompressNone => Ok data
  | Zstd _ =>
      compressed_data ← compressed_payload data;
      decompressed ← or_err ArchiveError (zstd_decode compressed_data);
      ensure_sector_aligned decompressed
  end.
End compression.

(** ** Authentication *)

Section hmac.
Context `{Hashing}.

Definition compute_hmac_tag (key bytes : list Z) : result (list Z) :=
  if hmac_key_accepted key then Ok (hmac_sha256 key bytes) else Err ArchiveError.

(** [verify_slice] compares the whole tag. *)
Definition verify_hmac_tag (key bytes tag : list Z) : result unit :=
  if hmac_key_accepted key then
    if decide (tag = hmac_sha256 key bytes) then Ok tt else Err ArchiveError
  else Err ArchiveError.

Definition push_len_prefixed (bytes : list Z) : list Z := to_le 8 (Z.of_nat (length bytes)) ++ bytes.

Definition metadata_hmac_input (m : ArchiveMetadata) : list Z :=
  bytes_of "ARCHIVE_METADATA_HMAC_V1" ++
  to_le 4 (am_format_version m) ++ to_le 8 (am_stripe_sector_count m) ++
  match am_encryption_key m with Some key => 1 :: push_len_prefixed key | None => [0] end ++
  match am_compression m with CompressNone => [0] | Zstd level => 2 :: to_le 4 (wrap32 level) end.

Definition compute_metadata_hmac_tag (key : list Z) (m : ArchiveMetadata) : result (list Z) :=
  compute_hmac_tag key (metadata_hmac_input m).

Definition verify_metadata_hmac_tag (key : list Z) (m : ArchiveMetadata) : result unit :=
  if decide (length (am_metadata_hmac m) <> 32%nat) then Err (MetadataError OtherMetadataFault)
  else verify_hmac_tag key (metadata_hmac_input m) (am_metadata_hmac m).

Definition manifest_hmac_input (domain : list Z) (version plaintext_len : Z) (payload : list Z) : list Z :=
  domain ++ to_le 4 version ++ to_le 8 plaintext_len ++ payload.
End hmac.

(** ** The stripe mapping *)

Definition ARCHIVE_STRIPE_MAPPING_VERSION : Z := 1.
Definition ARCHIVE_STRIPE_MAPPING_DOMAIN : list Z := bytes_of "ubiblk-archive-stripe-mapping".
Definition XTS_SECTOR_START : Z := 2 ^ 60.

Definition pad_to_sector (bytes : list Z) : list Z * Z :=
  let len := length bytes in
  let pad_len := ((SECTOR_SIZE - len `mod` SECTOR_SIZE) `mod` SECTOR_SIZE)%nat in
  (bytes ++ replicate pad_len 0, Z.of_nat len).

Section stripe_mapping.
Context `{Hashing} `{Codecs} `{XtsAes}.

Definition serialize_stripe_mapping (map : StripeContentMap) (hmac_key : list Z) (cipher : option XtsBlockCipher)
  : outcome (result (list Z)) :=
  let? map_bytes := or_err ArchiveError (cbor_of_map map) in
  let '(padded, plaintext_len) := pad_to_sector map_bytes in
  padded ← (match cipher with
            | Some cipher =>
                let sector_count := (length padded `div` SECTOR_SIZE)%nat in
                encrypt cipher padded XTS_SECTOR_START (Z.of_nat sector_count)
            | None => Done padded
            end);
  let? hmac_tag := compute_hmac_tag hmac_key
    (manifest_hmac_input ARCHIVE_STRIPE_MAPPING_DOMAIN ARCHIVE_STRIPE_MAPPING_VERSION plaintext_len padded) in
  Done (or_err ArchiveError (cbor_of_file (mkMapping ARCHIVE_STRIPE_MAPPING_DOMAIN ARCHIVE_STRIPE_MAPPING_VERSION
    padded plaintext_len hmac_tag))).

Definition cbor_file_checked (bytes : list Z) : result StripeMappingFile :=
  file ← or_err ArchiveError (cbor_to_file bytes);
  if bytes32 (mf_hmac_tag file) then Ok file else Err ArchiveError.

Definition cbor_map_checked (bytes : list Z) : result StripeContentMap :=
  map ← or_err ArchiveError (cbor_to_map bytes);
  if forallb (fun x => specifier_ok x.2) (map_to_list map) then Ok map else Err ArchiveError.

Definition deserialize_stripe_mapping (bytes hmac_key : list Z) (cipher : option XtsBlockCipher)
  : outcome (result StripeContentMap) :=
  let? file := cbor_file_checked bytes in
  if negb (mf_version file =? ARCHIVE_STRIPE_MAPPING_VERSION) then Done (Err ArchiveError) else
  if decide (mf_domain file <> ARCHIVE_STRIPE_MAPPING_DOMAIN) then Done (Err ArchiveError) else
  let ciphertext := mf_ciphertext file in
  if decide (length ciphertext `mod` SECTOR_SIZE <> 0)%nat then Done (Err ArchiveError) else
  let? _ := verify_hmac_tag hmac_key
    (manifest_hmac_input (mf_domain file) (mf_version file) (mf_plaintext_len file) ciphertext) (mf_hmac_tag file) in
  decrypted ← (match cipher with
               | Some cipher =>
                   decrypt cipher ciphertext XTS_SECTOR_START (Z.of_nat (length ciphertext `div` SECTOR_SIZE))
               | None => Done ciphertext
               end);
  if Z.of_nat (length decrypted) <? mf_plaintext_len file then Done (Err ArchiveError) else
  Done (cbor_map_checked (take (Z.to_nat (mf_plaintext_len file)) decrypted)).
End stripe_mapping.

(** ** Object names *)

Definition hex_digit (d : Z) : Ascii.ascii :=
  Ascii.ascii_of_nat (Z.to_nat (if d <? 10 then 48 + d else 87 + d)).

Fixpoint hex_encode (bs : list Z) : string :=
  match bs with
  | [] => ""
  | b :: bs => String (hex_digit (b / 16)) (String (hex_digit (b mod 16)) (hex_encode bs))
  end.

Definition object_key (hash : list Z) : string := ("data/" +:+ hex_encode hash)%string.

(** ** Stores *)

Class ArchiveStore (A : Type) := {
  start_put_object : string -> list Z -> A -> A;
  start_get_object : string -> A -> A;
  poll_puts : A -> list (string * result unit) * A;
  poll_gets : A -> list (string * result (list Z)) * A;
}.

Fixpoint scan_results {R} (name : string) (results : list (string * result R)) : option (result R) :=
  match results with
  | [] => None
  | (obj_name, r) :: results => if decide (obj_name = name) then Some r else scan_results name results
  end.

(** The polling loop: [rounds] is the number of polls before the timeout. *)
Fixpoint poll_for {A R} (poll : A -> list (string * result R) * A) (rounds : nat) (name : string) (store : A)
  : result R * A :=
  match rounds with
  | O => (Err ArchiveError, store)
  | S rounds =>
      let '(results, store) := poll store in
      match scan_results name results with
      | Some r => (r, store)
      | None => poll_for poll rounds name store
      end
  end.

Definition put_object {A} `{ArchiveStore A} (rounds : nat) (name : string) (data : list Z) (store : A)
  : result unit * A := poll_for poll_puts rounds name (start_put_object name data store).

Definition get_object {A} `{ArchiveStore A} (rounds : nat) (name : string) (store : A) : result (list Z) * A :=
  poll_for poll_gets rounds name (start_get_object name store).

(** *** The store in memory *)

Record MemStore := mkMemStore {
  ms_objects : gmap string (list Z);
  ms_finished_puts : list (string * result unit);
  ms_finished_gets : list (string * result (list Z));
  ack_puts : bool;
  ack_gets : bool;
}.

Definition mem_new : MemStore := mkMemStore ∅ [] [] true true.
Definition new_with_objects (objects : gmap string (list Z)) : MemStore := mkMemStore objects [] [] true true.

Definition mem_start_put (name : string) (data : list Z) (s : MemStore) : MemStore :=
  mkMemStore (<[name := data]> (ms_objects s))
    (if ack_puts s then ms_finished_puts s ++ [(name, Ok tt)] else ms_finished_puts s)
    (ms_finished_gets s) (ack_puts s) (ack_gets s).

Definition mem_start_get (name : string) (s : MemStore) : MemStore :=
  let r := or_err ArchiveError (ms_objects s !! name) in
  mkMemStore (ms_objects s) (ms_finished_puts s)
    (if ack_gets s then ms_finished_gets s ++ [(name, r)] else ms_finished_gets s) (ack_puts s) (ack_gets s).

#[global] Instance mem_store : ArchiveStore MemStore := {
  start_put_object := mem_start_put;
  start_get_object := mem_start_get;
  poll_puts s := (ms_finished_puts s, mkMemStore (ms_objects s) [] (ms_finished_gets s) (ack_puts s) (ack_gets s));
  poll_gets s := (ms_finished_gets s, mkMemStore (ms_objects s) (ms_finished_puts s) [] (ack_puts s) (ack_gets s));
}.

(** *** The store in a directory

    The files live in the store's file system; the next file operations fail as
    the script says, after writing a prefix of the data ([fs::write] truncates
    the file first). *)
Record FileSystemStore := mkFsStore {
  base_path : string;
  fs_finished_puts : list (string * result unit);
  fs_finished_gets : list (string * result (list Z));
  fs_files : gmap string (list Z);
  fs_faults : list (option (nat * ErrorKind));
}.

(** [create] is the result of [create_dir_all] on the base path. *)
Definition fs_new (create : result unit) (path : string) (files : gmap string (list Z))
    (faults : list (option (nat * ErrorKind))) : result FileSystemStore :=
  _ ← create; Ok (mkFsStore path [] [] files faults).

Definition fs_try_put (name : string) (data : list Z) (s : FileSystemStore)
  : result unit * gmap string (list Z) :=
  let path := join_path (base_path s) name in
  match fs_faults s with
  | Some (n, e) :: _ => (Err (IoError e), match n with O => fs_files s | S n => <[path := take n data]> (fs_files s) end)
  | _ => (Ok tt, <[path := data]> (fs_files s))
  end.

Definition fs_start_put (name : string) (data : list Z) (s : FileSystemStore) : FileSystemStore :=
  let '(r, files) := fs_try_put name data s in
  mkFsStore (base_path s) (fs_finished_puts s ++ [(name, r)]) (fs_finished_gets s) files (tl (fs_faults s)).

Definition fs_try_get (name : string) (s : FileSystemStore) : result (list Z) :=
  match fs_faults s with
  | Some (_, e) :: _ => Err (IoError e)
  | _ => or_err (IoError OtherIo) (fs_files s !! join_path (base_path s) name)
  end.

Definition fs_start_get (name : string) (s : FileSystemStore) : FileSystemStore :=
  mkFsStore (base_path s) (fs_finished_puts s) (fs_finished_gets s ++ [(name, fs_try_get name s)]) (fs_files s)
    (tl (fs_faults s)).

#[global] Instance fs_store : ArchiveStore FileSystemStore := {
  start_put_object := fs_start_put;
  start_get_object := fs_start_get;
  poll_puts s := (fs_finished_puts s, mkFsStore (base_path s) [] (fs_finished_gets s) (fs_files s) (fs_faults s));
  poll_gets s := (fs_finished_gets s, mkFsStore (base_path s) (fs_finished_puts s) [] (fs_files s) (fs_faults s));
}.

(** ** Framing: what goes in comes out *)

Lemma Ok_inj {A} (a b : A) : Ok a = Ok b -> a = b.
Proof. by intros [= ->]. Qed.

Lemma sector_padding n :
  ((n + (SECTOR_SIZE - n `mod` SECTOR_SIZE) `mod` SECTOR_SIZE) `mod` SECTOR_SIZE = 0)%nat.
Proof.
  unfold SECTOR_SIZE. pose proof (Nat.mod_upper_bound n 512 ltac:(lia)).
  rewrite Nat.Div0.add_mod_idemp_r. rewrite (Nat.div_mod_eq n 512) at 1.
  replace (512 * (n / 512) + n `mod` 512 + (512 - n `mod` 512))%nat with ((n / 512 + 1) * 512)%nat by lia.
  apply Nat.Div0.mod_mul.
Qed.

Section framing.
Context `{CodecLaws}.
#[local] Set Default Proof Using "Type*".

Lemma payload_framed c x : with_size_header_and_padding c = Ok x ->
  compressed_payload x = Ok c /\ (length x `mod` SECTOR_SIZE = 0)%nat.
Proof.
  unfold with_size_header_and_padding. destruct (U32_MAX <? _) eqn:Hs; [done|]. apply Z.ltb_ge in Hs.
  set (h := to_le 4 _). assert (length h = 4%nat) as Hh by apply length_to_le.
  assert (from_le h = Z.of_nat (length c)) as Hv
    by (apply from_to_le; unfold U32_MAX in Hs; change (256 ^ Z.of_nat 4) with 4294967296; lia).
  intros <-%Ok_inj. split; [|rewrite (length_app (h ++ c)), length_replicate; apply sector_padding].
  unfold compressed_payload. rewrite <- app_assoc, !length_app, Hh, decide_False by lia.
  rewrite take_app_le, take_ge, Hv by lia.
  rewrite Nat2Z.id, decide_False by lia. by rewrite drop_app_length', take_app_length.
Qed.

(** Compressed data is a whole number of sectors and decompresses to itself. *)
Lemma compress_roundtrip c data x : compress c data = Done (Ok x) ->
  decompress c x = Ok data /\ (length x `mod` SECTOR_SIZE = 0)%nat.
Proof.
  unfold compress. case_decide as Hm; [done|]. destruct c as [|level]; [intros [= <-]; split; [done|lia]|].
  destruct (zstd_encode level data) as [z|] eqn:Ez; [|done]. cbn [or_err mbind result_bind]. intros [= E].
  destruct (payload_framed _ _ E) as [Hp Hl]. split; [|done]. cbn [decompress]. rewrite Hp. cbn [mbind result_bind].
  rewrite (zstd_roundtrip _ _ _ Ez). cbn [or_err mbind result_bind]. unfold ensure_sector_aligned. by rewrite decide_False by lia.
Qed.
End framing.

Section mapping_proofs.
Context `{HashingLaws} `{CodecLaws} `{XtsLaws}.
#[local] Set Default Proof Using "Type*".

Definition map_ok (map : StripeContentMap) : Prop := forall i h, map !! i = Some (Hash h) -> length h = 32%nat.

Lemma map_ok_checked map : map_ok map -> forallb (fun x : nat * _ => specifier_ok x.2) (map_to_list map) = true.
Proof.
  intros Hm. apply forallb_forall. intros [i x] Hi. apply list_elem_of_In, elem_of_map_to_list in Hi.
  destruct x as [|h]; [done|]. apply bool_decide_eq_true. by eapply Hm.
Qed.

(** Encrypting whole sectors keeps their number and can be undone. *)
Lemma cipher_roundtrip (cipher : option XtsBlockCipher) data s :
  (length data `mod` SECTOR_SIZE = 0)%nat ->
  exists x, (match cipher with
             | Some c => encrypt c data s (Z.of_nat (length data `div` SECTOR_SIZE))
             | None => Done data end) = Done x /\ length x = length data /\
    (match cipher with
     | Some c => decrypt c x s (Z.of_nat (length x `div` SECTOR_SIZE))
     | None => Done x end) = Done data.
Proof.
  intros Hm. assert (length data = length data / SECTOR_SIZE * SECTOR_SIZE)%nat as Hl.
  { rewrite (Nat.div_mod_eq (length data) SECTOR_SIZE) at 1. lia. }
  destruct cipher as [c|]; [|by exists data]. rewrite encrypt_spec by (rewrite Nat2Z.id; lia). eexists; split; [done|].
  rewrite crypt_ref_length by apply xts_enc_length. split; [done|]. rewrite decrypt_spec; rewrite Nat2Z.id.
  - by rewrite crypt_ref_dec_enc.
  - rewrite crypt_ref_length by apply xts_enc_length. lia.
Qed.

Lemma mapping_roundtrip map hmac_key cipher bs :
  map_ok map -> serialize_stripe_mapping map hmac_key cipher = Done (Ok bs) ->
  deserialize_stripe_mapping bs hmac_key cipher = Done (Ok map).
Proof.
  intros Hok. unfold serialize_stripe_mapping. destruct (cbor_of_map map) as [mb|] eqn:Em; [|done]. cbn [or_err try_].
  unfold pad_to_sector. set (padded := mb ++ _).
  assert (length padded `mod` SECTOR_SIZE = 0)%nat as Hpad
    by (unfold padded; rewrite length_app, length_replicate; apply sector_padding).
  destruct (cipher_roundtrip cipher padded XTS_SECTOR_START Hpad) as (x & Ex & Hlx & Edx). rewrite Ex.
  cbn [mbind outcome_bind]. unfold compute_hmac_tag. destruct (hmac_key_accepted hmac_key) eqn:Hk; [|done]. cbn [try_].
  destruct (cbor_of_file _) as [fb|] eqn:Ef; [|done]. cbn [or_err]. intros [= <-].
  unfold deserialize_stripe_mapping, cbor_file_checked. rewrite (cbor_file_roundtrip _ _ Ef).
  cbn [or_err mbind result_bind mf_hmac_tag mf_version mf_domain mf_ciphertext mf_plaintext_len].
  unfold bytes32. rewrite bool_decide_true by apply hmac_length. cbn [try_ mf_version mf_domain mf_ciphertext mf_plaintext_len mf_hmac_tag].
  rewrite Z.eqb_refl. cbn [negb]. rewrite decide_False by tauto. rewrite decide_False by (rewrite Hlx; tauto).
  unfold verify_hmac_tag. rewrite Hk, decide_True by done. cbn [try_]. rewrite Edx. cbn [mbind outcome_bind].
  rewrite (proj2 (Z.ltb_ge _ _)) by (unfold padded; rewrite length_app; lia).
  unfold padded. rewrite Nat2Z.id, take_app_length. unfold cbor_map_checked. rewrite (cbor_map_roundtrip _ _ Em).
  cbn [or_err mbind result_bind]. by rewrite (map_ok_checked _ Hok).
Qed.
End mapping_proofs.

(** ** Names and authenticated inputs are unambiguous *)

Lemma hex_digit_inj d d' : 0 <= d < 16 -> 0 <= d' < 16 -> hex_digit d = hex_digit d' -> d = d'.
Proof.
  intros Hd Hd' E. unfold hex_digit in E. apply (f_equal Ascii.nat_of_ascii) in E.
  rewrite !Ascii.nat_ascii_embedding in E by (repeat case_match; lia).
  destruct (Z.ltb_spec d 10), (Z.ltb_spec d' 10); lia.
Qed.

Lemma hex_encode_inj bs bs' : Forall is_u8 bs -> Forall is_u8 bs' -> hex_encode bs = hex_encode bs' -> bs = bs'.
Proof.
  intros Hb. revert bs'. induction Hb as [|b bs Hb _ IH]; intros [|b' bs'] Hb' E; cbn in E; try done.
  apply Forall_cons in Hb' as [Hb1 Hb']. injection E as E1 E2 E3. rewrite (IH bs' Hb' E3). f_equal. unfold is_u8 in *.
  pose proof (Z.mod_pos_bound b 16 ltac:(lia)). pose proof (Z.mod_pos_bound b' 16 ltac:(lia)).
  assert (0 <= b / 16 < 16) by (split; [apply Z.div_pos|apply Z.div_lt_upper_bound]; lia).
  assert (0 <= b' / 16 < 16) by (split; [apply Z.div_pos|apply Z.div_lt_upper_bound]; lia).
  apply hex_digit_inj in E1, E2; try done. rewrite (Z.div_mod b 16), (Z.div_mod b' 16) by lia. lia.
Qed.

Lemma object_key_inj h h' : Forall is_u8 h -> Forall is_u8 h' -> object_key h = object_key h' -> h = h'.
Proof. intros Hh Hh' E. unfold object_key in E. injection E as E. by apply hex_encode_inj. Qed.

Lemma object_key_data h : object_key h <> "metadata.json"%string /\ object_key h <> "stripe-mapping"%string.
Proof. done. Qed.

(** Field widths of an [ArchiveMetadata]. *)
Record archive_metadata_wf (m : ArchiveMetadata) : Prop := {
  aw_version : is_u32 (am_format_version m);
  aw_sectors : is_u64 (am_stripe_sector_count m);
  aw_key : forall k, am_encryption_key m = Some k -> is_u64 (Z.of_nat (length k));
  aw_level : forall l, am_compression m = Zstd l -> - 2 ^ 31 <= l < 2 ^ 31;
}.

Lemma to_le_inj_app n a b l l' :
  0 <= a < 256 ^ Z.of_nat n -> 0 <= b < 256 ^ Z.of_nat n -> to_le n a ++ l = to_le n b ++ l' -> a = b /\ l = l'.
Proof.
  intros Ha Hb E. apply app_inj_1 in E as [E1 E2]; [|by rewrite !length_to_le]. split; [by apply (to_le_inj n)|done].
Qed.

Lemma wrap32_inj a b : - 2 ^ 31 <= a < 2 ^ 31 -> - 2 ^ 31 <= b < 2 ^ 31 -> wrap32 a = wrap32 b -> a = b.
Proof. unfold wrap32. intros. Z.div_mod_to_equations. lia. Qed.

(** The parts of the metadata that its tag covers. *)
Lemma metadata_hmac_input_inj m m' :
  archive_metadata_wf m -> archive_metadata_wf m' -> metadata_hmac_input m = metadata_hmac_input m' ->
  am_format_version m = am_format_version m' /\ am_stripe_sector_count m = am_stripe_sector_count m' /\
  am_encryption_key m = am_encryption_key m' /\ am_compression m = am_compression m'.
Proof.
  intros [W1 W2 W3 W4] [V1 V2 V3 V4] E. unfold metadata_hmac_input in E. apply app_inv_head in E.
  unfold is_u32, is_u64, U32_MAX, U64_MAX in *.
  apply to_le_inj_app in E as [E1 E]; try (change (256 ^ Z.of_nat 4) with 4294967296; lia).
  apply to_le_inj_app in E as [E2 E]; try (change (256 ^ Z.of_nat 8) with 18446744073709551616; lia).
  assert (am_encryption_key m = am_encryption_key m' /\
    match am_compression m with CompressNone => [0] | Zstd level => 2 :: to_le 4 (wrap32 level) end =
    match am_compression m' with CompressNone => [0] | Zstd level => 2 :: to_le 4 (wrap32 level) end) as [E3 E4].
  { destruct (am_encryption_key m) as [k|], (am_encryption_key m') as [k'|]; try discriminate E; [|by injection E].
    apply (f_equal (@tl Z)) in E. cbn [app tl] in E. unfold push_len_prefixed in E. rewrite <- !app_assoc in E.
    specialize (W3 k eq_refl). specialize (V3 k' eq_refl).
    apply to_le_inj_app in E as [El E]; try (change (256 ^ Z.of_nat 8) with 18446744073709551616; lia).
    apply app_inj_1 in E as [-> E]; [done|lia]. }
  split_and!; try done. destruct (am_compression m) as [|l], (am_compression m') as [|l']; try done. f_equal.
  apply wrap32_inj; [by apply W4|by apply V4|]. apply (f_equal (@tl Z)) in E4. cbn [tl] in E4.
  apply (to_le_inj 4); [apply Z.mod_pos_bound; lia..|]. exact E4.
Qed.

Lemma manifest_hmac_input_inj d v n p v' n' p' :
  is_u32 v -> is_u32 v' -> is_u64 n -> is_u64 n' ->
  manifest_hmac_input d v n p = manifest_hmac_input d v' n' p' -> v = v' /\ n = n' /\ p = p'.
Proof.
  unfold is_u32, is_u64, U32_MAX, U64_MAX. intros ???? E. apply app_inv_head in E.
  apply to_le_inj_app in E as [E1 E]; try (change (256 ^ Z.of_nat 4) with 4294967296; lia).
  by apply to_le_inj_app in E as [E2 E]; try (change (256 ^ Z.of_nat 8) with 18446744073709551616; lia).
Qed.

(** ** Main theorem *)

(** C39: tags authenticate what they are meant to.  The byte strings that the two
    tags of an archive are computed over are unambiguous and never confused:
    equal inputs for metadata mean equal version, stripe size, encrypted key and
    compression; equal inputs for the stripe mapping mean equal version, length
    and payload; and no metadata input is a mapping input. *)
Theorem hmac_inputs_separate m m' v n p v' n' p' :
  archive_metadata_wf m -> archive_metadata_wf m' -> is_u32 v -> is_u32 v' -> is_u64 n -> is_u64 n' ->
  (metadata_hmac_input m = metadata_hmac_input m' ->
     am_format_version m = am_format_version m' /\ am_stripe_sector_count m = am_stripe_sector_count m' /\
     am_encryption_key m = am_encryption_key m' /\ am_compression m = am_compression m') /\
  (manifest_hmac_input ARCHIVE_STRIPE_MAPPING_DOMAIN v n p = manifest_hmac_input ARCHIVE_STRIPE_MAPPING_DOMAIN v' n' p' ->
     v = v' /\ n = n' /\ p = p') /\
  metadata_hmac_input m <> manifest_hmac_input ARCHIVE_STRIPE_MAPPING_DOMAIN v n p.
Proof.
  intros. split_and!; [by apply metadata_hmac_input_inj|by apply manifest_hmac_input_inj|done].
Qed.

Lemma hmac_inputs_separate_witness :
  let m := mkArchiveMetadata 1 2048 (Some [7; 8]) (Zstd (-3)) [1] [] in
  let m' := mkArchiveMetadata 1 2048 None CompressNone [2] [] in
  (metadata_hmac_input m = metadata_hmac_input m' ->
     am_format_version m = am_format_version m' /\ am_stripe_sector_count m = am_stripe_sector_count m' /\
     am_encryption_key m = am_encryption_key m' /\ am_compression m = am_compression m') /\
  (manifest_hmac_input ARCHIVE_STRIPE_MAPPING_DOMAIN 1 3 [5] = manifest_hmac_input ARCHIVE_STRIPE_MAPPING_DOMAIN 1 4 [5] ->
     1 = 1 /\ 3 = 4 /\ [5] = [5]) /\
  metadata_hmac_input m <> manifest_hmac_input ARCHIVE_STRIPE_MAPPING_DOMAIN 1 3 [5].
Proof.
  intros m m'. apply (hmac_inputs_separate m m' 1 3 [5] 1 4 [5]); unfold is_u32, is_u64, U32_MAX, U64_MAX; try lia.
  - constructor; unfold is_u32, is_u64, U32_MAX, U64_MAX; cbn; [lia|lia|intros k [= <-]; cbn; lia|intros l [= <-]; lia].
  - constructor; unfold is_u32, is_u64, U32_MAX, U64_MAX; cbn; [lia|lia|intros k [=]|intros l [=]].
Defined.

(** ** A concrete instance of the libraries, for the examples

    The codecs number their values; the hash keeps the first 32 bytes. *)
#[global] Instance compression_eq_dec : EqDecision ArchiveCompressionAlgorithm.
Proof. solve_decision. Defined.
#[global] Instance archive_metadata_eq_dec : EqDecision ArchiveMetadata.
Proof. solve_decision. Defined.
#[global] Instance specifier_countable : Countable StripeContentSpecifier.
Proof.
  apply (inj_countable' (fun s => match s with Zero => None | Hash h => Some h end)
    (fun o => match o with None => Zero | Some h => Hash h end)). by intros [].
Defined.
#[global] Instance compression_countable : Countable ArchiveCompressionAlgorithm.
Proof.
  apply (inj_countable' (fun c => match c with CompressNone => None | Zstd l => Some l end)
    (fun o => match o with None => CompressNone | Some l => Zstd l end)). by intros [].
Defined.
#[global] Instance archive_metadata_countable : Countable ArchiveMetadata.
Proof.
  apply (inj_countable' (fun m => (am_format_version m, am_stripe_sector_count m, am_encryption_key m,
    am_compression m, am_hmac_key m, am_metadata_hmac m)) (fun '(a, b, c, d, e, f) => mkArchiveMetadata a b c d e f)). by intros [].
Defined.

Definition number {T} `{Countable T} (x : T) : option (list Z) := Some [Zpos (countable.encode x)].
Definition unnumber {T} `{Countable T} (bs : list Z) : option T :=
  match bs with [Zpos p] => countable.decode p | _ => None end.

(** Byte strings with their length in front. *)
Definition framed (bs : list Z) : list Z := Z.of_nat (length bs) :: bs.
Definition unframed (bs : list Z) : option (list Z * list Z) :=
  match bs with [] => None | n :: bs => Some (take (Z.to_nat n) bs, drop (Z.to_nat n) bs) end.

Lemma unframed_framed bs rest : unframed (framed bs ++ rest) = Some (bs, rest).
Proof. unfold unframed, framed. cbn [app]. by rewrite Nat2Z.id, take_app_length, drop_app_length. Qed.

Definition toy_file (f : StripeMappingFile) : list Z :=
  framed (mf_domain f) ++ framed (mf_ciphertext f) ++ framed (mf_hmac_tag f) ++ [mf_version f; mf_plaintext_len f].
Definition toy_parse_file (bs : list Z) : option StripeMappingFile :=
  '(domain, bs) ← unframed bs; '(ciphertext, bs) ← unframed bs; '(tag, bs) ← unframed bs;
  match bs with [version; len] => Some (mkMapping domain version ciphertext len tag) | _ => None end.

(** A mapping whose hashes are bytes. *)
Definition hash_u8 (x : nat * StripeContentSpecifier) : bool :=
  match x.2 with Zero => true | Hash h => forallb (fun b => (0 <=? b) && (b <? 256)) h end.
Definition typed_map (m : StripeContentMap) : option StripeContentMap :=
  if forallb hash_u8 (map_to_list m) then Some m else None.

Definition toy_codecs : Codecs := {|
  zstd_encode _ d := Some d; zstd_decode := Some;
  cbor_of_map m := m ← typed_map m; number m; cbor_to_map bs := m ← unnumber bs; typed_map m;
  cbor_of_file f := Some (toy_file f); cbor_to_file := toy_parse_file;
  json_of_metadata := number; json_to_metadata := unnumber;
|}.
Lemma toy_parse_file_ok f : toy_parse_file (toy_file f) = Some f.
Proof.
  unfold toy_parse_file, toy_file. rewrite unframed_framed. cbn [mbind option_bind].
  rewrite unframed_framed. cbn [mbind option_bind]. rewrite unframed_framed. by destruct f.
Qed.

Lemma toy_codec_laws : @CodecLaws toy_codecs.
Proof.
  constructor; cbn; unfold number, unnumber; [congruence| | |intros x bs [= <-]; apply countable.decode_encode].
  - intros m bs. unfold typed_map. destruct (forallb hash_u8 (map_to_list m)) eqn:Hu; [|done]. cbn [mbind option_bind].
    intros [= <-]. rewrite countable.decode_encode. cbn [mbind option_bind]. by rewrite Hu.
  - intros f bs E. apply (inj Some) in E as <-. apply toy_parse_file_ok.
Qed.

(** Every mapping that Rust can hold is encoded. *)
Lemma toy_map_encoded m : hashes_u8 m -> is_Some (cbor_of_map (Codecs := toy_codecs) m).
Proof.
  intros Hm. cbn. unfold typed_map. assert (forallb hash_u8 (map_to_list m) = true) as ->; [|by eexists].
  apply forallb_forall. intros [i x] Hi. apply list_elem_of_In, elem_of_map_to_list in Hi. destruct x as [|h]; [done|]. cbn.
  apply forallb_forall. intros b Hb. apply list_elem_of_In in Hb. specialize (Hm i h Hi). rewrite Forall_forall in Hm.
  specialize (Hm b Hb). unfold is_u8 in Hm. apply andb_true_iff. split; [apply Z.leb_le|apply Z.ltb_lt]; lia.
Qed.

Lemma toy_codec_types : @CodecTypes toy_codecs.
Proof.
  constructor. cbn. intros bs m E i h Hi. destruct (unnumber bs) as [m'|]; [|done]. cbn [mbind option_bind] in E.
  unfold typed_map in E. destruct (forallb hash_u8 (map_to_list m')) eqn:Hu; [|done]. injection E as <-.
  rewrite forallb_forall in Hu. specialize (Hu (i, Hash h)). cbn in Hu. rewrite <- list_elem_of_In, elem_of_map_to_list in Hu.
  specialize (Hu Hi). rewrite forallb_forall in Hu. apply Forall_forall. intros b Hb. apply list_elem_of_In, Hu in Hb.
  apply andb_true_iff in Hb as [H1%Z.leb_le H2%Z.ltb_lt]. done.
Qed.

Definition toy_hash : Hashing := {|
  sha256_bytes d := take 32 (map (fun b => b mod 256) d ++ replicate 32 0);
  hmac_key_accepted _ := true;
  hmac_sha256 k d := take 32 (map (fun b => b mod 256) (k ++ d) ++ replicate 32 0);
|}.
Lemma length_take_padded (l : list Z) : length (take 32 (l ++ replicate 32 0)) = 32%nat.
Proof. rewrite length_take, length_app, length_replicate. lia. Qed.

Lemma toy_hash_laws : @HashingLaws toy_hash.
Proof.
  constructor; intros; [apply length_take_padded| |apply length_take_padded].
  apply Forall_take, Forall_app. split; [|apply Forall_replicate; unfold is_u8; lia].
  apply Forall_fmap, Forall_true. intros b. apply Z.mod_pos_bound. lia.
Qed.
