(* ===== verification/ArchiveSource.v ===== *)
(** * ArchiveSource: stripes of an archive

    Models src/src/stripe_source/archive.rs: opening an archive (metadata, its
    tag, the keys, the stripe mapping) and serving stripes from its store.  The
    store is not trusted: whatever it answers, a stripe is reported as fetched
    only if its object has the hash that the authenticated mapping names.  The
    source is an instance of [SourceSafe] and [SourceContract]. *)
From S2P Require Import Prelude Metadata SharedState World Device StripeSource Crypt Secrets Config ArchiveFormat.
#[local] Open Scope Z_scope.

Record PendingRequest := mkPending {
  pending_stripes : list (nat * nat);       (* stripe and destination buffer *)
  expected_sha256 : list Z;
}.

Record ArchiveStripeSource (A : Type) := mkArchiveSource {
  as_store : A;
  as_xts_cipher : option XtsBlockCipher;
  as_stripe_hashes : StripeContentMap;
  max_stripe_id : nat;
  as_stripe_sector_count : Z;
  as_compression : ArchiveCompressionAlgorithm;
  finished_requests : list (nat * bool);
  pending_requests : gmap string PendingRequest;
}.
Arguments mkArchiveSource {A}.
Arguments as_store {A}.
Arguments as_xts_cipher {A}.
Arguments as_stripe_hashes {A}.
Arguments max_stripe_id {A}.
Arguments as_stripe_sector_count {A}.
Arguments as_compression {A}.
Arguments finished_requests {A}.
Arguments pending_requests {A}.

Section source.
Context `{Hashing} `{Codecs} `{XtsAes} `{Aead} {A : Type} `{ArchiveStore A}.
Notation Source := (ArchiveStripeSource A).

(** *** Opening an archive *)

(** [rounds] is the number of polls before [DEFAULT_ARCHIVE_TIMEOUT]. *)
Definition as_fetch_metadata (rounds : nat) (store : A) : result ArchiveMetadata * A :=
  let '(r, store) := get_object rounds "metadata.json" store in
  (bytes ← r;
   metadata ← or_err (MetadataError OtherMetadataFault) (json_to_metadata bytes);
   _ ← validate_format_version (am_format_version metadata);
   Ok metadata, store).

Definition decrypt_hmac_key (metadata : ArchiveMetadata) (kek : KeyEncryptionCipher) : result (list Z) :=
  key ← decrypt_key_data kek (am_hmac_key metadata);
  if decide (length key = 32%nat) then Ok key else Err (MetadataError OtherMetadataFault).

Definition fetch_stripe_hashes (rounds : nat) (hmac_key : list Z) (cipher : option XtsBlockCipher) (store : A)
  : outcome (result StripeContentMap * A) :=
  let '(r, store) := get_object rounds "stripe-mapping" store in
  match r with
  | Err e => Done (Err e, store)
  | Ok bytes =>
      m ← deserialize_stripe_mapping bytes hmac_key cipher;
      Done (match m with Ok m => Ok m | Err _ => Err (MetadataError OtherMetadataFault) end, store)
  end.

Definition archive_cipher (metadata : ArchiveMetadata) (kek : KeyEncryptionCipher) : result (option XtsBlockCipher) :=
  match am_encryption_key metadata with
  | None => Ok None
  | Some key => c ← from_encrypted_key key kek; Ok (Some c)
  end.

Definition archive_source_new (rounds : nat) (store : A) (kek : KeyEncryptionCipher) : outcome (result Source) :=
  let '(r, store) := as_fetch_metadata rounds store in
  let? metadata := r in
  let? hmac_key := decrypt_hmac_key metadata kek in
  let? _ := verify_metadata_hmac_tag hmac_key metadata in
  let? xts_cipher := archive_cipher metadata kek in
  '(r, store) ← fetch_stripe_hashes rounds hmac_key xts_cipher store;
  let? stripe_hashes := r in
  let max_stripe_id := foldr Nat.max 0%nat (map_to_list stripe_hashes).*1 in
  Done (Ok (mkArchiveSource store xts_cipher stripe_hashes max_stripe_id (am_stripe_sector_count metadata)
              (am_compression metadata) [] ∅)).

(** *** Serving stripes *)

Definition as_set (s : Source) (store : A) (finished : list (nat * bool)) (pending : gmap string PendingRequest) : Source :=
  mkArchiveSource store (as_xts_cipher s) (as_stripe_hashes s) (max_stripe_id s) (as_stripe_sector_count s)
    (as_compression s) finished pending.

Definition start_fetch_stripe (stripe_id : nat) (sha256 : list Z) (buffer : nat) (s : Source) : Source :=
  let object_name := object_key sha256 in
  match pending_requests s !! object_name with
  | Some p =>
      as_set s (as_store s) (finished_requests s)
        (<[object_name := mkPending (pending_stripes p ++ [(stripe_id, buffer)]) (expected_sha256 p)]> (pending_requests s))
  | None =>
      as_set s (start_get_object object_name (as_store s)) (finished_requests s)
        (<[object_name := mkPending [(stripe_id, buffer)] sha256]> (pending_requests s))
  end.

Definition fill_zero (buffer : nat) (w : World) : World :=
  write_buf w buffer (replicate (length (read_buf w buffer)) 0).

Definition archive_request (stripe_id buffer : nat) (s : Source) (w : World) : outcome (result unit * Source * World) :=
  match as_stripe_hashes s !! stripe_id with
  | Some (Hash sha256) => Done (Ok tt, start_fetch_stripe stripe_id sha256 buffer s, w)
  | Some Zero | None =>
      Done (Ok tt, as_set s (as_store s) (finished_requests s ++ [(stripe_id, true)]) (pending_requests s),
            fill_zero buffer w)
  end.

Definition verify_stripe_data (data expected : list Z) : result unit :=
  if decide (sha256_bytes data = expected) then Ok tt else Err ArchiveError.

Definition maybe_decrypt (s : Source) (data : list Z) (stripe_id : nat) : outcome (result (list Z)) :=
  match as_xts_cipher s with
  | None => Done (Ok data)
  | Some cipher =>
      if decide (length data `mod` SECTOR_SIZE <> 0)%nat then Done (Err ArchiveError) else
      let sector_start := wrap64 (Z.of_nat stripe_id * as_stripe_sector_count s) in
      data ← decrypt cipher data sector_start (Z.of_nat (length data `div` SECTOR_SIZE));
      Done (Ok data)
  end.

Definition finish_stripe_fetch (s : Source) (stripe_id buffer : nat) (fetched expected : list Z) (w : World)
  : outcome (result unit * World) :=
  match verify_stripe_data fetched expected with
  | Err e => Done (Err e, w)
  | Ok _ =>
      r ← maybe_decrypt s fetched stripe_id;
      match (decrypted ← r; decompress (as_compression s) decrypted) with
      | Err e => Done (Err e, w)
      | Ok data =>
          let buf := read_buf w buffer in
          if decide (length buf < length data)%nat then Done (Err ArchiveError, w)
          else Done (Ok tt, write_buf w buffer (data ++ replicate (length buf - length data) 0))
      end
  end.

(** [finish_pending_request], adding to the finished requests. *)
Fixpoint finish_pending (s : Source) (stripes : list (nat * nat)) (data expected : list Z)
    (st : list (nat * bool) * World) : outcome (list (nat * bool) * World) :=
  match stripes with
  | [] => Done st
  | (stripe_id, buffer) :: stripes =>
      '(r, w) ← finish_stripe_fetch s stripe_id buffer data expected st.2;
      finish_pending s stripes data expected (st.1 ++ [(stripe_id, is_ok r)], w)
  end.

(** One completed get. *)
Definition archive_completion (c : string * result (list Z)) (st : Source * World) : outcome (Source * World) :=
  let '(object_name, r) := c in let '(s, w) := st in
  match pending_requests s !! object_name with
  | None => Done (s, w)
  | Some p =>
      let rest := delete object_name (pending_requests s) in
      match r with
      | Err _ =>
          Done (as_set s (as_store s) (finished_requests s ++ ((fun x => (x.1, false)) <$> pending_stripes p)) rest, w)
      | Ok data =>
          '(finished, w) ← finish_pending s (pending_stripes p) data (expected_sha256 p) (finished_requests s, w);
          Done (as_set s (as_store s) finished rest, w)
      end
  end.

Definition archive_poll (s : Source) (w : World) : outcome (list (nat * bool) * Source * World) :=
  let '(completions, store) := poll_gets (as_store s) in
  '(s, w) ← for_each archive_completion completions (as_set s store (finished_requests s) (pending_requests s), w);
  Done (finished_requests s, as_set s (as_store s) [] (pending_requests s), w).

Definition archive_sector_count (s : Source) : Z :=
  if decide (as_stripe_hashes s = ∅) then 0
  else wrap64 (Z.of_nat (max_stripe_id s + 1) * as_stripe_sector_count s).

#[global] Instance archive_source : StripeSource Source := {
  ss_request := archive_request;
  ss_poll := archive_poll;
  ss_busy s := negb (bool_decide (pending_requests s = ∅)) || negb (bool_decide (finished_requests s = []));
  ss_sector_count := archive_sector_count;
  has_stripe s stripe_id := bool_decide (is_Some (as_stripe_hashes s !! stripe_id));
}.
End source.

(** ** What a stripe of an archive is *)

(** [d] is what the archive holds for a stripe: nothing for a stripe that is
    zero or absent, otherwise the plain text of an object with the hash of the
    mapping. *)
Definition authentic `{Hashing} `{Codecs} `{XtsAes} {A} (s : ArchiveStripeSource A) (stripe_id : nat) (d : list Z) : Prop :=
  match as_stripe_hashes s !! stripe_id with
  | Some (Hash h) => exists object plain, sha256_bytes object = h /\
      maybe_decrypt s object stripe_id = Done (Ok plain) /\ decompress (as_compression s) plain = Ok d
  | _ => d = []
  end.

(** Requests that were reported are forgotten. *)
Definition forget (asked : gmap nat nat) (rs : list (nat * bool)) : gmap nat nat := foldr (fun x m => delete x.1 m) asked rs.

Lemma lookup_forget asked rs id b : forget asked rs !! id = Some b <-> asked !! id = Some b /\ id ∉ rs.*1.
Proof.
  induction rs as [|[i ok] rs IH]; cbn [forget foldr fmap list_fmap fst]; [set_solver|].
  rewrite lookup_delete_Some, IH, not_elem_of_cons. intuition congruence.
Qed.

Lemma elem_of_keys {V} (m : gmap nat V) id : id ∈ (map_to_list m).*1 <-> is_Some (m !! id).
Proof.
  rewrite list_elem_of_fmap. split.
  - intros ([i b] & -> & Hi). apply elem_of_map_to_list in Hi. by exists b.
  - intros [b Hb]. exists (id, b). by split; [|apply elem_of_map_to_list].
Qed.

Lemma forget_ids asked rs rest : (map_to_list asked).*1 ≡ₚ rs.*1 ++ rest -> (map_to_list (forget asked rs)).*1 ≡ₚ rest.
Proof.
  intros Hp. assert (NoDup (rs.*1 ++ rest)) as Hnd by (rewrite <- Hp; apply NoDup_fst_map_to_list).
  apply NoDup_app in Hnd as (_ & Hdis & Hnd).
  apply NoDup_Permutation; [apply NoDup_fst_map_to_list|done|]. intros id.
  assert (is_Some (asked !! id) <-> id ∈ rs.*1 \/ id ∈ rest) as Hin by (by rewrite <- elem_of_keys, Hp, elem_of_app).
  rewrite elem_of_keys. unfold is_Some in *. setoid_rewrite lookup_forget. naive_solver.
Qed.

Section source_proofs.
Context `{Hashing} `{Codecs} `{XtsLaws} {A : Type} `{ArchiveStore A}.
#[local] Set Default Proof Using "Type*".
Notation Source := (ArchiveStripeSource A).
Implicit Types (s : Source) (w : World).

Lemma maybe_decrypt_returns s data id : exists r, maybe_decrypt s data id = Done r.
Proof.
  unfold maybe_decrypt. destruct (as_xts_cipher s) as [c|]; [|by eexists]. case_decide as Hm; [by eexists|].
  rewrite decrypt_spec; [by eexists|]. rewrite Nat2Z.id. rewrite (Nat.div_mod_eq (length data) SECTOR_SIZE) at 2. lia.
Qed.

(** A fetch that is finished returns and changes no other buffer. *)
Lemma finish_stripe_spec s id b data h w :
  exists r w', finish_stripe_fetch s id b data h w = Done (r, w') /\ (b ∈ dom (w_bufs w) -> frame w w') /\
    (forall b', b' <> b -> read_buf w' b' = read_buf w b') /\ length (read_buf w' b) = length (read_buf w b).
Proof.
  unfold finish_stripe_fetch, verify_stripe_data. case_decide as Hs; [|by do 2 eexists].
  destruct (maybe_decrypt_returns s data id) as [r E]. rewrite E. cbn [mbind outcome_bind].
  destruct r as [plain|e]; cbn [mbind result_bind]; [|by do 2 eexists].
  destruct (decompress (as_compression s) plain) as [d|e] eqn:Ed; [|by do 2 eexists].
  case_decide as Hl; [by do 2 eexists|]. do 2 eexists; split_and!; [done| | |].
  - intros Hb. apply write_buf_frame; [done|]. rewrite length_app, length_replicate. lia.
  - intros b' Hb. by rewrite read_write_buf_ne.
  - rewrite read_write_buf_eq, length_app, length_replicate. lia.
Qed.

(** On success the buffer holds the stripe. *)
Definition promised s (id : nat) (ok : bool) (buf : list Z) : Prop :=
  ok = true -> exists d n, authentic s id d /\ buf = d ++ replicate n 0.

Lemma finish_authentic s id h data b w r w' : as_stripe_hashes s !! id = Some (Hash h) ->
  finish_stripe_fetch s id b data h w = Done (r, w') -> promised s id (is_ok r) (read_buf w' b).
Proof.
  intros Hh. unfold finish_stripe_fetch, verify_stripe_data. case_decide as Hs; [|by intros [= <- <-]].
  destruct (maybe_decrypt_returns s data id) as [x E]. rewrite E. cbn [mbind outcome_bind].
  destruct x as [plain|e]; cbn [mbind result_bind]; [|by intros [= <- <-]].
  destruct (decompress (as_compression s) plain) as [d|e] eqn:Ed; [|by intros [= <- <-]].
  case_decide as Hl; intros; simplify_eq; [done|]. intros _. eexists d, _. rewrite read_write_buf_eq. split; [|done].
  unfold authentic. rewrite Hh. by exists data, plain.
Qed.

(** *** Every request is reported once *)

Definition pending_ids_of (pend : gmap string PendingRequest) : list nat :=
  concat ((fun x => (pending_stripes x.2).*1) <$> map_to_list pend).

Lemma pending_ids_delete pend k p :
  pend !! k = Some p -> pending_ids_of pend ≡ₚ (pending_stripes p).*1 ++ pending_ids_of (delete k pend).
Proof. intros Hk. unfold pending_ids_of. by rewrite <- (map_to_list_delete _ _ _ Hk). Qed.

Lemma pending_ids_insert pend k p :
  pending_ids_of (<[k := p]> pend) ≡ₚ (pending_stripes p).*1 ++ pending_ids_of (delete k pend).
Proof.
  rewrite <- insert_delete_eq. unfold pending_ids_of. rewrite map_to_list_insert by apply lookup_delete_eq. done.
Qed.

Definition as_outstanding s : list nat := (finished_requests s).*1 ++ pending_ids_of (pending_requests s).

Lemma finish_pending_ids s stripes data h : forall fin w fin' w',
  finish_pending s stripes data h (fin, w) = Done (fin', w') -> fin'.*1 = fin.*1 ++ stripes.*1.
Proof.
  induction stripes as [|[id b] stripes IH]; intros fin w fin' w' E; cbn [finish_pending] in E.
  { simplify_eq. by rewrite app_nil_r. }
  destruct (finish_stripe_fetch _ _ _ _ _ _) as [[r w1]|]; [|done]. cbn [mbind outcome_bind fst snd] in E.
  rewrite (IH _ _ _ _ E), fmap_app, <- app_assoc. done.
Qed.

Lemma archive_completion_out c s w s' w' :
  archive_completion c (s, w) = Done (s', w') -> as_outstanding s' ≡ₚ as_outstanding s.
Proof.
  destruct c as [name r]. unfold archive_completion, as_outstanding. destruct (pending_requests s !! name) as [p|] eqn:Hp.
  2: { intros. by simplify_eq. }
  rewrite (pending_ids_delete _ _ _ Hp). destruct r as [data|e].
  - destruct (finish_pending _ _ _ _ _) as [[fin w1]|] eqn:Ef; [|done]. cbn [mbind outcome_bind]. intros. simplify_eq.
    apply finish_pending_ids in Ef. cbn. by rewrite Ef, <- app_assoc.
  - intros. simplify_eq. cbn. rewrite fmap_app, <- list_fmap_compose, <- app_assoc. done.
Qed.

Lemma archive_completions_out cs : forall s w s' w',
  for_each archive_completion cs (s, w) = Done (s', w') -> as_outstanding s' ≡ₚ as_outstanding s.
Proof.
  induction cs as [|c cs IH]; intros s w s' w' E; cbn [for_each] in E; [by simplify_eq|].
  destruct (archive_completion c (s, w)) as [[s1 w1]|] eqn:E1; [|done]. cbn [mbind outcome_bind] in E.
  rewrite (IH _ _ _ _ E). by apply (archive_completion_out c s w _ w1).
Qed.

Lemma as_set_id s : s = as_set s (as_store s) (finished_requests s) (pending_requests s).
Proof using Type. by destruct s. Qed.

(** *** Delivery

    [s0] is the source as it was opened.  [Ans] is what is known of the store's
    answers, [Q] the promise about a stripe that is reported: with success or
    not, and with the bytes then in its buffer. *)

(** What has been asked for and not been reported: the buffer of each stripe. *)
Notation Asked := (gmap nat nat).

Section deliveries.
Context (s0 : Source) (Ans : string -> result (list Z) -> Prop) (Q : nat -> bool -> list Z -> Prop).
Context (Qzero : forall id n, (forall h, as_stripe_hashes s0 !! id <> Some (Hash h)) -> Q id true (replicate n 0)).
Context (Qfailed : forall id h e d, as_stripe_hashes s0 !! id = Some (Hash h) -> Ans (object_key h) (Err e) -> Q id false d).
Context (Qdata : forall id h data b w r w', as_stripe_hashes s0 !! id = Some (Hash h) -> Ans (object_key h) (Ok data) ->
  finish_stripe_fetch s0 id b data h w = Done (r, w') -> Q id (is_ok r) (read_buf w' b)).
#[local] Set Default Proof Using "All".

Definition reported (asked : Asked) w (x : nat * bool) : Prop :=
  exists b, asked !! x.1 = Some b /\ Q x.1 x.2 (read_buf w b).

(** A stripe that waits for an object. *)
Definition waiting (asked : Asked) (h : list Z) (x : nat * nat) : Prop :=
  asked !! x.1 = Some x.2 /\ as_stripe_hashes s0 !! x.1 = Some (Hash h).

Record archive_inv s (asked : Asked) w : Prop := {
  ai_static : s = as_set s0 (as_store s) (finished_requests s) (pending_requests s);
  ai_asked : (map_to_list asked).*1 ≡ₚ as_outstanding s;
  ai_live id b : asked !! id = Some b -> b ∈ dom (w_bufs w);
  ai_distinct i j b : asked !! i = Some b -> asked !! j = Some b -> i = j;
  ai_bytes id h : as_stripe_hashes s0 !! id = Some (Hash h) -> Forall is_u8 h;
  ai_key k p : pending_requests s !! k = Some p -> k = object_key (expected_sha256 p) /\ Forall is_u8 (expected_sha256 p);
  ai_waiting k p : pending_requests s !! k = Some p -> Forall (waiting asked (expected_sha256 p)) (pending_stripes p);
  ai_finished x : x ∈ finished_requests s -> reported asked w x;
}.

Lemma finish_static s id b data h w : s = as_set s0 (as_store s) (finished_requests s) (pending_requests s) ->
  finish_stripe_fetch s id b data h w = finish_stripe_fetch s0 id b data h w.
Proof. by intros ->. Qed.

Lemma finish_pending_spec s asked h data stripes : forall fin w,
  s = as_set s0 (as_store s) (finished_requests s) (pending_requests s) -> Ans (object_key h) (Ok data) ->
  (forall i j b, asked !! i = Some b -> asked !! j = Some b -> i = j) ->
  (forall id b, asked !! id = Some b -> b ∈ dom (w_bufs w)) ->
  NoDup (fin.*1 ++ stripes.*1) -> Forall (waiting asked h) stripes ->
  (forall x, x ∈ fin -> reported asked w x) ->
  exists fin' w', finish_pending s stripes data h (fin, w) = Done (fin', w') /\ frame w w' /\
    (forall x, x ∈ fin' -> reported asked w' x).
Proof.
  induction stripes as [|[id b] stripes IH]; intros fin w Hst Ha Hinj Hlive Hnd Hw Hfin; cbn [finish_pending fst snd].
  { by exists fin, w. }
  apply Forall_cons in Hw as [[Hid Hh] Hw]. cbn [fst snd] in Hid, Hh.
  destruct (finish_stripe_spec s id b data h w) as (r & w1 & E & Hf & Hne & _). rewrite E. cbn [mbind outcome_bind fst snd].
  rewrite (finish_static _ _ _ _ _ _ Hst) in E. pose proof (Qdata _ _ _ _ _ _ _ Hh Ha E) as Hq.
  specialize (Hf (Hlive _ _ Hid)).
  destruct (IH (fin ++ [(id, is_ok r)]) w1) as (fin' & w' & E' & Hf' & Hd); try done.
  - intros j c Hj. by apply Hf, (Hlive j).
  - rewrite fmap_app. cbn [fmap list_fmap fst]. by rewrite <- app_assoc.
  - intros [j ok] Hj. apply elem_of_app in Hj as [Hj|Hj].
    + destruct (Hfin _ Hj) as (c & Hc & Hr). exists c. split; [done|]. rewrite Hne; [done|]. cbn [fst] in Hc.
      intros ->. assert (j = id) as -> by (by eapply Hinj). apply NoDup_app in Hnd as (_ & Hnd & _).
      apply (Hnd id); [|by left]. apply list_elem_of_fmap. by exists (id, ok).
    + apply list_elem_of_singleton in Hj. injection Hj as -> ->. by exists b.
  - exists fin', w'. split_and!; try done. by etransitivity.
Qed.

Lemma archive_completion_inv c s asked w : archive_inv s asked w -> Ans c.1 c.2 ->
  exists s' w', archive_completion c (s, w) = Done (s', w') /\ frame w w' /\ archive_inv s' asked w'.
Proof.
  intros [Is I1 I2 I3 Ib Ik I4 I5] Ha. destruct c as [name r]. cbn [fst snd] in Ha. unfold archive_completion.
  destruct (pending_requests s !! name) as [p|] eqn:Hp; [|by exists s, w].
  assert (forall k q, delete name (pending_requests s) !! k = Some q ->
    Forall (waiting asked (expected_sha256 q)) (pending_stripes q)) as Hwait.
  { intros k q Hk. apply lookup_delete_Some in Hk as [_ Hk]. by apply (I4 k). }
  assert (forall k q, delete name (pending_requests s) !! k = Some q ->
    k = object_key (expected_sha256 q) /\ Forall is_u8 (expected_sha256 q)) as Hkey.
  { intros k q Hk. apply lookup_delete_Some in Hk as [_ Hk]. by apply (Ik k). }
  destruct (Ik _ _ Hp) as [Hname _]. rewrite Hname in Ha.
  pose proof (fun s' w' => archive_completion_out (name, r) s w s' w') as Hout. unfold archive_completion in Hout. rewrite Hp in Hout.
  destruct r as [data|e].
  - assert (NoDup ((finished_requests s).*1 ++ (pending_stripes p).*1)) as Hnd.
    { assert (NoDup (as_outstanding s)) as Hn by (rewrite <- I1; apply NoDup_fst_map_to_list).
      unfold as_outstanding in Hn. rewrite (pending_ids_delete _ _ _ Hp), app_assoc in Hn. by apply NoDup_app in Hn as [? _]. }
    destruct (finish_pending_spec s asked (expected_sha256 p) data (pending_stripes p) (finished_requests s) w
      Is Ha I3 I2 Hnd (I4 _ _ Hp) I5) as (fin & w' & E & Hf & Hd). rewrite E in Hout |- *. cbn [mbind outcome_bind] in *.
    do 2 eexists; split_and!; try done. constructor; try done.
    + by rewrite Is.
    + rewrite I1. symmetry. by eapply Hout.
    + intros id b Hb. by apply Hf, (I2 id).
  - do 2 eexists; split_and!; try done. constructor; try done.
    + by rewrite Is.
    + rewrite I1. symmetry. by eapply Hout.
    + cbn. intros x Hx. apply elem_of_app in Hx as [Hx|Hx]; [by apply I5|].
      apply list_elem_of_fmap in Hx as ([id b] & -> & Hx). pose proof (I4 _ _ Hp) as Hw. rewrite Forall_forall in Hw.
      destruct (Hw _ Hx) as [Hid Hh]. exists b. split; [done|]. by eapply Qfailed.
Qed.

Lemma archive_completions_inv cs : forall s asked w, archive_inv s asked w -> (forall c, c ∈ cs -> Ans c.1 c.2) ->
  exists s' w', for_each archive_completion cs (s, w) = Done (s', w') /\ frame w w' /\ archive_inv s' asked w'.
Proof.
  induction cs as [|c cs IH]; intros s asked w I Ha; cbn [for_each]; [by exists s, w|].
  destruct (archive_completion_inv c s asked w I) as (s1 & w1 & -> & Hf1 & I1); [apply Ha; by left|]. cbn [mbind outcome_bind].
  destruct (IH s1 asked w1 I1) as (s2 & w2 & -> & Hf2 & I2); [intros c' Hc; apply Ha; by right|].
  do 2 eexists; split_and!; try done. by etransitivity.
Qed.

(** One poll: everything finished is reported, as promised. *)
Lemma archive_poll_inv s asked w : archive_inv s asked w -> (forall c, c ∈ (poll_gets (as_store s)).1 -> Ans c.1 c.2) ->
  exists rs s' w', ss_poll s w = Done (rs, s', w') /\ frame w w' /\ archive_inv s' (forget asked rs) w' /\
    (forall x, x ∈ rs -> reported asked w' x).
Proof.
  intros [Is I1 I2 I3 Ib Ik I4 I5] Ha. cbn. unfold archive_poll. destruct (poll_gets (as_store s)) as [cs store].
  set (s1 := as_set s store (finished_requests s) (pending_requests s)).
  destruct (archive_completions_inv cs s1 asked w) as (s2 & w1 & -> & Hf & [Js J1 J2 J3 Jb Jk J4 J5]); [|done|].
  { constructor; try done. unfold s1. by rewrite Is. }
  cbn [mbind outcome_bind]. do 3 eexists; split_and!; [done|done| |exact J5].
  unfold as_outstanding in J1. pose proof (forget_ids _ _ _ J1) as Hk.
  assert (forall id b, forget asked (finished_requests s2) !! id = Some b -> asked !! id = Some b) as Hsub
    by (intros id b Hb; by apply lookup_forget in Hb as [? _]).
  constructor; cbn.
  - by rewrite Js.
  - exact Hk.
  - intros id b Hb. apply (J2 id), Hsub, Hb.
  - intros i j b Hi Hj. apply (J3 i j b); by apply Hsub.
  - exact Jb.
  - exact Jk.
  - intros k p Hp. pose proof (J4 k p Hp) as Hw. rewrite Forall_forall in Hw |- *. intros [id b] Hx.
    destruct (Hw _ Hx) as [Hid Hh]. split; [|done]. cbn [fst snd] in *. apply lookup_forget. split; [done|]. intros Hr.
    assert (NoDup ((finished_requests s2).*1 ++ pending_ids_of (pending_requests s2))) as Hnd
      by (rewrite <- J1; apply NoDup_fst_map_to_list).
    apply NoDup_app in Hnd as (_ & Hnd & _). apply (Hnd id Hr). rewrite (pending_ids_delete _ _ _ Hp), elem_of_app. left.
    apply list_elem_of_fmap. by exists (id, b).
  - intros x Hx. by apply not_elem_of_nil in Hx.
Qed.

(** A request for a stripe that is not asked for, into a buffer of its own. *)
Section request.
Context (s : Source) (asked : Asked) (w : World) (id b : nat).
Context (I : archive_inv s asked w) (Hnew : asked !! id = None) (Hb : forall j, asked !! j <> Some b) (Hdom : b ∈ dom (w_bufs w)).
#[local] Set Default Proof Using "All".
Notation asked' := (<[id := b]> asked).

Lemma asked_ext i c : asked !! i = Some c -> asked' !! i = Some c.
Proof. intros Hi. rewrite lookup_insert_ne; [done|]. intros ->. congruence. Qed.

Lemma asked_distinct i j c : asked' !! i = Some c -> asked' !! j = Some c -> i = j.
Proof.
  rewrite !lookup_insert. repeat case_decide; intros; simplify_eq; try done; [by edestruct Hb..|by eapply (ai_distinct _ _ _ I)].
Qed.

Lemma asked_ids : (map_to_list asked').*1 ≡ₚ id :: as_outstanding s.
Proof. rewrite map_to_list_insert by done. cbn. by rewrite (ai_asked _ _ _ I). Qed.

Lemma asked_waiting h l : Forall (waiting asked h) l -> Forall (waiting asked' h) l.
Proof. intros Hl. eapply Forall_impl; [exact Hl|]. intros x [? ?]. split; [by apply asked_ext|done]. Qed.

Lemma asked_reported x w' : (forall c, c <> b -> read_buf w' c = read_buf w c) -> reported asked w x -> reported asked' w' x.
Proof.
  intros Hw (c & Hc & Hr). exists c. split; [by apply asked_ext|].
  rewrite Hw; [done|]. intros ->. by apply (Hb x.1).
Qed.

Lemma start_fetch_stripe_inv h : as_stripe_hashes s0 !! id = Some (Hash h) ->
  archive_inv (start_fetch_stripe id h b s) asked' w.
Proof.
  intros Hh. pose proof (ai_bytes _ _ _ I _ _ Hh) as Hu.
  assert (exists store p, start_fetch_stripe id h b s = as_set s store (finished_requests s)
      (<[object_key h := p]> (pending_requests s)) /\ expected_sha256 p = h /\
    Forall (waiting asked' h) (pending_stripes p) /\
    id :: pending_ids_of (pending_requests s) ≡ₚ pending_ids_of (<[object_key h := p]> (pending_requests s)))
    as (store & p & -> & Hp & Hw & Hids).
  { unfold start_fetch_stripe. assert (waiting asked' h (id, b)) as Hn by (split; [apply lookup_insert_eq|done]).
    destruct (pending_requests s !! object_key h) as [p|] eqn:Hp; eexists _, _; split_and!; try done; cbn [expected_sha256 pending_stripes].
    - destruct (ai_key _ _ _ I _ _ Hp) as [Hk Hu']. symmetry. by apply object_key_inj.
    - apply Forall_app; split; [|by constructor]. destruct (ai_key _ _ _ I _ _ Hp) as [Hk Hu'].
      apply object_key_inj in Hk as ->; [|done..]. apply asked_waiting. by apply (ai_waiting _ _ _ I _ _ Hp).
    - rewrite pending_ids_insert, (pending_ids_delete _ _ _ Hp). cbn [pending_stripes]. rewrite fmap_app. cbn. solve_Permutation.
    - by constructor.
    - rewrite pending_ids_insert. by rewrite delete_id. }
  constructor; cbn.
  - by rewrite (ai_static _ _ _ I).
  - rewrite asked_ids. unfold as_outstanding. cbn. rewrite <- Hids. solve_Permutation.
  - intros j c. rewrite lookup_insert. case_decide; intros; simplify_eq; [done|by eapply (ai_live _ _ _ I)].
  - apply asked_distinct.
  - apply (ai_bytes _ _ _ I).
  - intros k q. rewrite lookup_insert. case_decide; intros; simplify_eq; [done|by apply (ai_key _ _ _ I)].
  - intros k q. rewrite lookup_insert. case_decide; intros; simplify_eq; [done|].
    apply asked_waiting. by apply (ai_waiting _ _ _ I k).
  - intros x Hx. apply (asked_reported x w); [done|]. by apply (ai_finished _ _ _ I).
Qed.

Lemma zero_request_inv : (forall h, as_stripe_hashes s0 !! id <> Some (Hash h)) ->
  archive_inv (as_set s (as_store s) (finished_requests s ++ [(id, true)]) (pending_requests s)) asked' (fill_zero b w).
Proof.
  intros Hh. assert (frame w (fill_zero b w)) as Hf by (apply write_buf_frame; [done|apply length_replicate]).
  constructor; cbn; try apply (ai_bytes _ _ _ I); try apply (ai_key _ _ _ I); try apply asked_distinct.
  - by rewrite (ai_static _ _ _ I).
  - rewrite asked_ids. unfold as_outstanding. cbn. rewrite fmap_app. cbn. solve_Permutation.
  - intros j c. rewrite lookup_insert. case_decide; intros; simplify_eq; apply Hf; [done|by eapply (ai_live _ _ _ I)].
  - intros k p Hk. apply asked_waiting. by apply (ai_waiting _ _ _ I k).
  - intros x Hx. apply elem_of_app in Hx as [Hx|Hx].
    + apply (asked_reported x (fill_zero b w)); [intros c Hc; by apply read_write_buf_ne|by apply (ai_finished _ _ _ I)].
    + apply list_elem_of_singleton in Hx as ->. exists b. split; [apply lookup_insert_eq|]. unfold fill_zero.
      rewrite read_write_buf_eq. by apply Qzero.
Qed.

Lemma archive_request_inv :
  exists s' w', ss_request id b s w = Done (Ok tt, s', w') /\ frame w w' /\ archive_inv s' asked' w'.
Proof.
  cbn. unfold archive_request. assert (as_stripe_hashes s = as_stripe_hashes s0) as -> by (by rewrite (ai_static _ _ _ I)).
  assert (frame w (fill_zero b w)) as Hf by (apply write_buf_frame; [done|apply length_replicate]).
  destruct (as_stripe_hashes s0 !! id) as [x|] eqn:Hh; [destruct x as [|h]|].
  2: { do 2 eexists; split_and!; [done|done|]. by apply start_fetch_stripe_inv. }
  all: do 2 eexists; split_and!; [done|done|]; apply zero_request_inv; congruence.
Qed.
End request.

(** Nobody else writes to the buffers that were handed over. *)
Lemma archive_inv_stable s asked w w' : stable w w' ->
  (forall id b, asked !! id = Some b -> read_buf w' b = read_buf w b) -> archive_inv s asked w -> archive_inv s asked w'.
Proof using Type.
  intros Hs Hr [Is I1 I2 I3 Ib Ik I4 I5]. constructor; try done.
  - intros id b Hb. by apply Hs, (I2 id).
  - intros x Hx. destruct (I5 x Hx) as (b & Hb & Hq). exists b. split; [done|]. by rewrite (Hr x.1).
Qed.

(** Nothing is asked for. *)
Lemma archive_inv_opened w : finished_requests s0 = [] -> pending_requests s0 = ∅ ->
  hashes_u8 (as_stripe_hashes s0) -> archive_inv s0 ∅ w.
Proof using Type.
  intros Hf Hp Hu. constructor; [apply as_set_id|..]; unfold as_outstanding; rewrite ?Hf, ?Hp; try done.
  intros x Hx. by apply not_elem_of_nil in Hx.
Qed.
End deliveries.

(** *** The promises to the fetcher *)

Definition destinations_live (pend : gmap string PendingRequest) w : Prop :=
  forall k p, pend !! k = Some p -> Forall (fun x => x.2 ∈ dom (w_bufs w)) (pending_stripes p).

Lemma destinations_live_stable pend w w' : stable w w' -> destinations_live pend w -> destinations_live pend w'.
Proof. intros Hs Hl k p Hk. eapply Forall_impl; [by eapply Hl|]. intros x Hx. by apply Hs. Qed.

Lemma destinations_live_delete pend k w : destinations_live pend w -> destinations_live (delete k pend) w.
Proof. intros Hl j p Hj. apply lookup_delete_Some in Hj as [_ Hj]. by eapply Hl. Qed.

Lemma destinations_live_insert pend k p w :
  destinations_live pend w -> Forall (fun x => x.2 ∈ dom (w_bufs w)) (pending_stripes p) -> destinations_live (<[k := p]> pend) w.
Proof. intros Hl Hp j q. rewrite lookup_insert. case_decide; intros; simplify_eq; [done|by eapply Hl]. Qed.

Lemma finish_pending_safe s data h stripes : forall fin w,
  Forall (fun x => x.2 ∈ dom (w_bufs w)) stripes ->
  exists fin' w', finish_pending s stripes data h (fin, w) = Done (fin', w') /\ frame w w'.
Proof.
  induction stripes as [|[id b] stripes IH]; intros fin w Hl; cbn [finish_pending fst snd]; [by eexists _, _|].
  apply Forall_cons in Hl as [Hb Hl]. destruct (finish_stripe_spec s id b data h w) as (r & w1 & -> & Hf & _).
  specialize (Hf Hb). cbn [mbind outcome_bind]. destruct (IH (fin ++ [(id, is_ok r)]) w1) as (fin' & w' & -> & Hf').
  { eapply Forall_impl; [exact Hl|]. intros x Hx. by apply Hf. }
  do 2 eexists; split; [done|by etransitivity].
Qed.

Lemma archive_completions_safe cs : forall s w, destinations_live (pending_requests s) w ->
  exists s' w', for_each archive_completion cs (s, w) = Done (s', w') /\ frame w w' /\
    destinations_live (pending_requests s') w' /\ as_stripe_sector_count s' = as_stripe_sector_count s.
Proof.
  induction cs as [|[name r] cs IH]; intros s w Hl; cbn [for_each]; [by eexists _, _|].
  assert (exists s1 w1, archive_completion (name, r) (s, w) = Done (s1, w1) /\ frame w w1 /\
    destinations_live (pending_requests s1) w1 /\ as_stripe_sector_count s1 = as_stripe_sector_count s)
    as (s1 & w1 & -> & Hf1 & Hl1 & Hs1).
  { unfold archive_completion. destruct (pending_requests s !! name) as [p|] eqn:Hp; [|by eexists _, _].
    destruct r as [data|e].
    - destruct (finish_pending_safe s data (expected_sha256 p) (pending_stripes p) (finished_requests s) w (Hl _ _ Hp))
        as (fin & w' & -> & Hf). cbn [mbind outcome_bind]. do 2 eexists; split_and!; try done. cbn.
      eapply destinations_live_stable; [by apply frame_stable|]. by apply destinations_live_delete.
    - do 2 eexists; split_and!; try done. by apply destinations_live_delete. }
  cbn [mbind outcome_bind]. destruct (IH s1 w1 Hl1) as (s2 & w2 & -> & Hf2 & Hl2 & Hs2).
  do 2 eexists; split_and!; try done; [by etransitivity|congruence].
Qed.
End source_proofs.

#[local] Obligation Tactic := idtac.

#[global] Program Instance archive_source_safe `{Hashing} `{Codecs} `{XtsLaws} {A} `{ArchiveStore A}
  : SourceSafe (ArchiveStripeSource A) := {
  ss_inv s w := destinations_live (pending_requests s) w;
  ss_stripe_sectors _ := 0;                 (* what does not fit a buffer is refused *)
}.
Next Obligation. intros ?? ?? A ? s w w' Hs. by apply destinations_live_stable. Qed.
Next Obligation.
  intros ?? ?? A ? id b s w Hi [Hb _]. cbn. unfold archive_request.
  assert (frame w (fill_zero b w)) as Hf by (apply write_buf_frame; [done|apply length_replicate]).
  destruct (as_stripe_hashes s !! id) as [x|]; [destruct x as [|h]|]; do 3 eexists; split_and!; try done;
    try (eapply destinations_live_stable; [by apply frame_stable|exact Hi]); unfold start_fetch_stripe;
    destruct (pending_requests s !! object_key h) as [p|] eqn:Hp; try done; apply destinations_live_insert; try done; cbn.
  - apply Forall_app; split; [by eapply Hi|by constructor].
  - by constructor.
Qed.
Next Obligation.
  intros ?? ?? A ? s w Hi. cbn. unfold archive_poll. destruct (poll_gets (as_store s)) as [cs store].
  destruct (archive_completions_safe cs (as_set s store (finished_requests s) (pending_requests s)) w Hi)
    as (s' & w' & -> & Hf & Hl & Hs). do 3 eexists; by split_and!.
Qed.

#[global] Program Instance archive_source_contract `{Hashing} `{Codecs} `{XtsLaws} {A} `{ArchiveStore A}
  : SourceContract (ArchiveStripeSource A) := {
  ss_outstanding := as_outstanding;
}.
Next Obligation.
  intros ?? ?? A ? id b s w r s' w' _. cbn. unfold archive_request, as_outstanding.
  destruct (as_stripe_hashes s !! id) as [x|]; [destruct x as [|h]|]; intros; simplify_eq; cbn;
    try (rewrite fmap_app; cbn; solve_Permutation).
  unfold start_fetch_stripe. destruct (pending_requests s !! object_key h) as [p|] eqn:Hp; cbn.
  - rewrite pending_ids_insert, (pending_ids_delete _ _ _ Hp). cbn [pending_stripes]. rewrite fmap_app. cbn. solve_Permutation.
  - rewrite pending_ids_insert, delete_id by done. cbn. solve_Permutation.
Qed.
Next Obligation.
  intros ?? ?? A ? s w rs s' w'. cbn. unfold archive_poll. destruct (poll_gets (as_store s)) as [cs store]. intros E.
  destruct (for_each _ _ _) as [[s1 w1]|] eqn:E1; [|done]. cbn [mbind outcome_bind] in E. simplify_eq.
  pose proof (archive_completions_out _ _ _ _ _ E1) as Hp. symmetry in Hp. exact Hp.
Qed.

(** ** Runs of the source *)

Section runs.
Context `{Hashing} `{Codecs} `{XtsLaws} {A : Type} `{ArchiveStore A}.
#[local] Set Default Proof Using "Type*".
Notation Source := (ArchiveStripeSource A).

(** Between requests and polls the store and the other threads do as they like,
    except that nobody else writes to the buffers that were handed over. *)
Inductive archive_step : Source * gmap nat nat * World -> Source * gmap nat nat * World -> Prop :=
| ArchiveRequest id b s asked w r s' w' :
    asked !! id = None -> (forall j, asked !! j <> Some b) -> b ∈ dom (w_bufs w) ->
    ss_request id b s w = Done (r, s', w') -> archive_step (s, asked, w) (s', <[id := b]> asked, w')
| ArchivePoll s asked w rs s' w' :
    ss_poll s w = Done (rs, s', w') -> archive_step (s, asked, w) (s', forget asked rs, w')
| ArchiveOther s asked w w' store :
    stable w w' -> (forall id b, asked !! id = Some b -> read_buf w' b = read_buf w b) ->
    archive_step (s, asked, w) (as_set s store (finished_requests s) (pending_requests s), asked, w').

(** The store may answer anything. *)
Notation any_answer := (fun (_ : string) (_ : result (list Z)) => True).
Notation run_inv s0 := (archive_inv s0 (promised s0)).

Lemma promised_zero (s : Source) id n : (forall h, as_stripe_hashes s !! id <> Some (Hash h)) -> promised s id true (replicate n 0).
Proof.
  intros Hh _. exists [], n. split; [|done]. unfold authentic. destruct (as_stripe_hashes s !! id) as [[|h]|] eqn:E; [done| |done].
  by destruct (Hh h).
Qed.

Lemma archive_step_inv s0 s asked w s' asked' w' :
  archive_step (s, asked, w) (s', asked', w') -> run_inv s0 s asked w -> run_inv s0 s' asked' w'.
Proof.
  intros St I. inversion St as [id b ? ? ? r ? ? Hn Hb Hd E|? ? ? rs ? ? E|? ? ? ? store Hs Hr]; subst.
  - destruct (archive_request_inv s0 any_answer _ (promised_zero s0) (fun _ _ _ _ _ _ => ltac:(done))
      (fun id h data b w r w' Hh _ => finish_authentic s0 id h data b w r w' Hh) s asked w id b I Hn Hb Hd)
      as (s1 & w1 & E1 & _ & I1). rewrite E1 in E. by simplify_eq.
  - destruct (archive_poll_inv s0 any_answer _ (promised_zero s0) (fun _ _ _ _ _ _ => ltac:(done))
      (fun id h data b w r w' Hh _ => finish_authentic s0 id h data b w r w' Hh) s asked w I (fun _ _ => ltac:(done)))
      as (rs1 & s1 & w1 & E1 & _ & I1 & _). rewrite E1 in E. by simplify_eq.
  - apply (archive_inv_stable _ _ _ _ w); [done..|]. destruct I as [Is I1 I2 I3 Ib Ik I4 I5]. constructor; try done. by rewrite Is.
Qed.

Lemma archive_run_inv s0 s asked w s' asked' w' :
  rtc archive_step (s, asked, w) (s', asked', w') -> run_inv s0 s asked w -> run_inv s0 s' asked' w'.
Proof.
  intros Hr. remember (s, asked, w) as x eqn:Ex. remember (s', asked', w') as y eqn:Ey. revert s asked w Ex.
  induction Hr as [?|x [[s1 a1] w1] y St Hr IH]; intros s asked w -> I; [by simplify_eq|].
  apply (IH Ey s1 a1 w1 eq_refl). by eapply archive_step_inv.
Qed.

Lemma archive_run_poll s0 s asked w : run_inv s0 s asked w ->
  exists rs s' w', ss_poll s w = Done (rs, s', w') /\ forall x, x ∈ rs -> reported (promised s0) asked w' x.
Proof.
  intros I. destruct (archive_poll_inv s0 any_answer _ (promised_zero s0) (fun _ _ _ _ _ _ => ltac:(done))
    (fun id h data b w r w' Hh _ => finish_authentic s0 id h data b w r w' Hh) s asked w I (fun _ _ => ltac:(done)))
    as (rs & s' & w' & E & _ & _ & Hr). by exists rs, s', w'.
Qed.
End runs.

(** ** Opening an archive *)

(** The source holds what the store answered to the two gets of the opening, and
    both answers were authenticated: [metadata] is what the first one decodes to
    and carries a valid tag under the archive's key, [file] is what the second
    one decodes to and carries a valid tag under the same key, and the mapping
    of the source is the plain text of [file]. *)
Definition opened `{Hashing} `{Codecs} `{XtsAes} `{Aead} {A} `{ArchiveStore A} (rounds : nat) (store : A)
    (kek : KeyEncryptionCipher) (s : ArchiveStripeSource A) : Prop :=
  exists metadata_bytes mapping_bytes store' metadata hmac_key file plain,
    get_object rounds "metadata.json" store = (Ok metadata_bytes, store') /\
    json_to_metadata metadata_bytes = Some metadata /\
    decrypt_hmac_key metadata kek = Ok hmac_key /\
    am_metadata_hmac metadata = hmac_sha256 hmac_key (metadata_hmac_input metadata) /\
    get_object rounds "stripe-mapping" store' = (Ok mapping_bytes, as_store s) /\
    cbor_to_file mapping_bytes = Some file /\
    mf_hmac_tag file = hmac_sha256 hmac_key (manifest_hmac_input ARCHIVE_STRIPE_MAPPING_DOMAIN
      ARCHIVE_STRIPE_MAPPING_VERSION (mf_plaintext_len file) (mf_ciphertext file)) /\
    as_stripe_sector_count s = am_stripe_sector_count metadata /\ as_compression s = am_compression metadata /\
    archive_cipher metadata kek = Ok (as_xts_cipher s) /\
    match as_xts_cipher s with
    | Some c => decrypt c (mf_ciphertext file) XTS_SECTOR_START (Z.of_nat (length (mf_ciphertext file) `div` SECTOR_SIZE)) = Done plain
    | None => mf_ciphertext file = plain
    end /\
    cbor_to_map (take (Z.to_nat (mf_plaintext_len file)) plain) = Some (as_stripe_hashes s).

Lemma mapping_authenticated `{Hashing} `{Codecs} `{XtsAes} bytes hmac_key cipher map :
  deserialize_stripe_mapping bytes hmac_key cipher = Done (Ok map) ->
  exists file plain, cbor_to_file bytes = Some file /\
    mf_hmac_tag file = hmac_sha256 hmac_key (manifest_hmac_input ARCHIVE_STRIPE_MAPPING_DOMAIN
      ARCHIVE_STRIPE_MAPPING_VERSION (mf_plaintext_len file) (mf_ciphertext file)) /\
    match cipher with
    | Some c => decrypt c (mf_ciphertext file) XTS_SECTOR_START (Z.of_nat (length (mf_ciphertext file) `div` SECTOR_SIZE)) = Done plain
    | None => mf_ciphertext file = plain
    end /\ cbor_to_map (take (Z.to_nat (mf_plaintext_len file)) plain) = Some map.
Proof.
  unfold deserialize_stripe_mapping, cbor_file_checked. destruct (cbor_to_file bytes) as [file|]; [|done].
  cbn [or_err mbind result_bind]. destruct (bytes32 (mf_hmac_tag file)); [|done]. cbn [try_].
  destruct (mf_version file =? ARCHIVE_STRIPE_MAPPING_VERSION) eqn:Hv; [|done]. apply Z.eqb_eq in Hv. cbn [negb].
  case_decide as Hd; [done|]. case_decide; [done|]. unfold verify_hmac_tag.
  destruct (hmac_key_accepted hmac_key); [|done]. case_decide as Ht; [|done]. cbn [try_].
  intros E. exists file. destruct cipher as [c|].
  - destruct (decrypt c _ _ _) as [plain|] eqn:Ed; [|done]. cbn [mbind outcome_bind] in E. case_match; [done|].
    exists plain. unfold cbor_map_checked in E. destruct (cbor_to_map _) as [m|] eqn:Em; [|done].
    cbn [or_err mbind result_bind] in E. case_match; simplify_eq. split_and!; try done. rewrite Ht, Hv. f_equal. f_equal.
    destruct (decide (mf_domain file = ARCHIVE_STRIPE_MAPPING_DOMAIN)); [done|contradiction].
  - cbn [mbind outcome_bind] in E. case_match; [done|].
    exists (mf_ciphertext file). unfold cbor_map_checked in E. destruct (cbor_to_map _) as [m|] eqn:Em; [|done].
    cbn [or_err mbind result_bind] in E. case_match; simplify_eq. split_and!; try done. rewrite Ht, Hv. f_equal. f_equal.
    destruct (decide (mf_domain file = ARCHIVE_STRIPE_MAPPING_DOMAIN)); [done|contradiction].
Qed.

Lemma archive_source_opened `{Hashing} `{Codecs} `{XtsAes} `{Aead} {A} `{ArchiveStore A} rounds (store : A) kek s :
  archive_source_new rounds store kek = Done (Ok s) ->
  opened rounds store kek s /\ finished_requests s = [] /\ pending_requests s = ∅ /\
  max_stripe_id s = foldr Nat.max 0%nat (map_to_list (as_stripe_hashes s)).*1.
Proof.
  unfold archive_source_new, as_fetch_metadata. destruct (get_object rounds "metadata.json" store) as [r st1] eqn:Eg.
  destruct r as [mb|]; [|done]. cbn [mbind result_bind]. destruct (json_to_metadata mb) as [metadata|] eqn:Ej; [|done].
  cbn [or_err mbind result_bind]. destruct (validate_format_version (am_format_version metadata)); [|by cbn]. cbn [mbind result_bind try_].
  destruct (decrypt_hmac_key metadata kek) as [hmac_key|] eqn:Hk; [|done]. cbn [try_].
  unfold verify_metadata_hmac_tag, verify_hmac_tag. case_decide; [done|]. destruct (hmac_key_accepted hmac_key); [|done].
  case_decide as Ht; [|done]. cbn [try_]. destruct (archive_cipher metadata kek) as [cipher|] eqn:Hc; [|done]. cbn [try_].
  unfold fetch_stripe_hashes. destruct (get_object rounds "stripe-mapping" st1) as [[bytes|] st2] eqn:Eg2; [|done].
  destruct (deserialize_stripe_mapping bytes hmac_key cipher) as [m|] eqn:Hm; [|done]. cbn [mbind outcome_bind].
  destruct m as [m|]; [|done]. cbn [try_]. intros E. injection E as <-. split; [|done].
  destruct (mapping_authenticated _ _ _ _ Hm) as (file & plain & Hb & Hf & Hp & Hmap).
  by exists mb, bytes, st1, metadata, hmac_key, file, plain.
Qed.

Lemma opened_u8 `{Hashing} `{CodecTypes} `{XtsAes} `{Aead} {A} `{ArchiveStore A} rounds (store : A) kek s :
  opened rounds store kek s -> hashes_u8 (as_stripe_hashes s).
Proof. intros (? & ? & ? & ? & ? & ? & ? & ? & ? & ? & ? & ? & ? & ? & ? & ? & ? & ? & Hm). by apply (cbor_map_u8 _ _ Hm). Qed.

(** Opening returns, whatever the store answers. *)
Lemma archive_source_returns `{Hashing} `{Codecs} `{XtsLaws} `{Aead} {A} `{ArchiveStore A} rounds (store : A) kek :
  exists r, archive_source_new rounds store kek = Done r.
Proof.
  assert (forall bytes key cipher, exists m, deserialize_stripe_mapping bytes key cipher = Done m) as Hd.
  { intros bytes key cipher. unfold deserialize_stripe_mapping. destruct (cbor_file_checked bytes) as [file|]; [|by eexists].
    cbn [try_]. destruct (negb _); [by eexists|]. case_decide; [by eexists|]. case_decide as Hm; [by eexists|].
    destruct (verify_hmac_tag _ _ _); [|by eexists]. cbn [try_]. destruct cipher as [c|].
    - rewrite decrypt_spec; [|rewrite Nat2Z.id; rewrite (Nat.div_mod_eq (length (mf_ciphertext file)) SECTOR_SIZE) at 2; lia].
      cbn [mbind outcome_bind]. case_match; by eexists.
    - cbn [mbind outcome_bind]. case_match; by eexists. }
  unfold archive_source_new. destruct (as_fetch_metadata rounds store) as [[metadata|] st1]; [|by eexists]. cbn [try_].
  destruct (decrypt_hmac_key metadata kek) as [key|]; [|by eexists]. cbn [try_].
  destruct (verify_metadata_hmac_tag key metadata); [|by eexists]. cbn [try_].
  destruct (archive_cipher metadata kek) as [cipher|]; [|by eexists]. cbn [try_]. unfold fetch_stripe_hashes.
  destruct (get_object rounds "stripe-mapping" st1) as [[bytes|] st2]; [|by eexists].
  destruct (Hd bytes key cipher) as [[m|] ->]; by eexists.
Qed.

(** ** Main theorem *)

(** C15: the object store need not be trusted.  If an archive opens, then the
    bytes that the store returned for its metadata and for its stripe mapping
    both carried a valid tag under the archive's key, and the source holds what
    they decode to.  And in any run of requests and polls, whatever the store
    answers, every stripe asked for is outstanding once, a poll returns, and a
    success it reports means that the buffer holds the plain text of an object
    with the hash that this mapping names for that stripe (zeroes for a zero or
    absent stripe), padded with zeroes.  The decoder's hashes are bytes
    ([CodecTypes]), as their Rust type says. *)
Theorem archive_source_integrity `{Hashing} `{CodecTypes} `{XtsLaws} `{Aead} {A} `{ArchiveStore A} rounds (store : A) kek
    s0 w0 s asked w :
  archive_source_new rounds store kek = Done (Ok s0) ->
  rtc archive_step (s0, ∅, w0) (s, asked, w) ->
  opened rounds store kek s0 /\ (map_to_list asked).*1 ≡ₚ as_outstanding s /\
  exists rs s' w', ss_poll s w = Done (rs, s', w') /\
    forall id, (id, true) ∈ rs -> exists b d n, asked !! id = Some b /\ authentic s0 id d /\
      read_buf w' b = d ++ replicate n 0.
Proof.
  intros E Hrun. destruct (archive_source_opened _ _ _ _ E) as (Ho & Hf & Hp & _). split; [done|].
  apply (archive_run_inv s0) in Hrun as I; [|by apply archive_inv_opened; eauto using opened_u8].
  split; [apply (ai_asked _ _ _ _ _ I)|]. destruct (archive_run_poll s0 s asked w I) as (rs & s' & w' & Ep & Hd).
  exists rs, s', w'. split; [done|]. intros id Hid. destruct (Hd _ Hid) as (b & Hb & Hq).
  destruct (Hq eq_refl) as (d & n & Ha & Hr). by exists b, d, n.
Qed.

(** *** A concrete archive: stripe 0 holds one sector of sevens, stripe 2 is zero *)

Section demo.
#[local] Existing Instances toy_codecs toy_hash toy_xts toy_aead.

Definition no_kek : KeyEncryptionCipher := mkKek MethodNone None None.
Definition demo_object : list Z := replicate 512 7.
Definition demo_mapping : StripeContentMap := {[ 0%nat := Hash (sha256_bytes demo_object); 2%nat := Zero ]}.
Definition demo_archive_metadata (tag : list Z) : ArchiveMetadata := mkArchiveMetadata 1 1 None CompressNone (replicate 32 5) tag.
Definition demo_objects : gmap string (list Z) :=
  {[ "metadata.json"%string := default [] (json_of_metadata (demo_archive_metadata
       (hmac_sha256 (replicate 32 5) (metadata_hmac_input (demo_archive_metadata [])))));
     "stripe-mapping"%string := match serialize_stripe_mapping demo_mapping (replicate 32 5) None with Done (Ok bs) => bs | _ => [] end;
     object_key (sha256_bytes demo_object) := demo_object ]}.

Definition demo_opened : ArchiveStripeSource MemStore :=
  mkArchiveSource (new_with_objects demo_objects) None demo_mapping 2 1 CompressNone [] ∅.
Definition demo_requested : ArchiveStripeSource MemStore := start_fetch_stripe 0 (sha256_bytes demo_object) 0 demo_opened.
Definition demo_buffers : World :=
  (alloc_buf 600 0 (mkWorld ∅ 0 ∅ [] (new_shared (new_metadata 0 1 0)) [] true)).2.

Lemma demo_archive_opens : archive_source_new 1 (new_with_objects demo_objects) no_kek = Done (Ok demo_opened).
Proof. vm_compute. reflexivity. Qed.

Example demo_delivers :
  match ss_poll demo_requested demo_buffers with
  | Done (rs, s', w') => rs = [(0%nat, true)] /\ read_buf w' 0 = replicate 512 7 ++ replicate 88 0
  | Panic _ => False
  end.
Proof. vm_compute. split; reflexivity. Qed.

Lemma archive_source_integrity_witness :
  opened 1 (new_with_objects demo_objects) no_kek demo_opened /\ (map_to_list ({[0 := 0]} : gmap nat nat)%nat).*1 ≡ₚ as_outstanding demo_requested /\
  exists rs s' w', ss_poll demo_requested demo_buffers = Done (rs, s', w') /\
    forall id, (id, true) ∈ rs -> exists b d n, ({[0 := 0]} : gmap nat nat)%nat !! id = Some b /\ authentic demo_opened id d /\
      read_buf w' b = d ++ replicate n 0.
Proof.
  apply (@archive_source_integrity _ _ toy_codec_types _ toy_xts_laws _ _ _ 1 (new_with_objects demo_objects) no_kek demo_opened
    demo_buffers demo_requested {[0 := 0]}%nat demo_buffers demo_archive_opens).
  eapply rtc_l; [|apply rtc_refl]. apply (ArchiveRequest 0 0 demo_opened ∅ demo_buffers (Ok tt)).
  - apply lookup_empty.
  - intros j. by rewrite lookup_empty.
  - unfold demo_buffers. cbn. rewrite dom_insert. set_solver.
  - vm_compute. reflexivity.
Defined.
End demo.
