(* ===== verification/Archiver.v ===== *)
(** * Archiver: writing an archive

    Models src/src/archive/archiver.rs: [StripeArchiver] reads every stripe with
    data from the device or from the stripe source, compresses, encrypts and
    hashes it, uploads each distinct object once, and finishes with the
    authenticated metadata and stripe mapping.  The main theorem takes an archive
    round: what was archived from a device is read back by [ArchiveStripeSource].

    The loops that wait for the device and the store take fuel; random keys and
    nonces are arguments. *)
From S2P Require Import Prelude Metadata SharedState World Device StripeSource StripeServer Crypt Secrets Config.
From S2P Require Import ArchiveFormat ArchiveSource.
#[local] Open Scope Z_scope.

Record StripeArchiver (C S A : Type) := mkArchiver {
  ar_stripe_source : S;
  ar_io_channel : C;
  ar_stripe_count : nat;
  ar_metadata : UbiMetadata;
  ar_store : A;
  block_cipher : option XtsBlockCipher;
  ar_kek : KeyEncryptionCipher;
  ar_pool : AlignedBufferPool;
  inflight_puts : nat;
  stripe_fetch_buffers : gmap nat nat;
  seen_object_keys : gset string;
  ar_hashes : StripeContentMap;
  ar_hmac_key : list Z;
  ar_compression : ArchiveCompressionAlgorithm;
  physical_size_bytes : Z;
}.
Arguments mkArchiver {C S A}.
Arguments ar_stripe_source {C S A}.
Arguments ar_io_channel {C S A}.
Arguments ar_stripe_count {C S A}.
Arguments ar_metadata {C S A}.
Arguments ar_store {C S A}.
Arguments block_cipher {C S A}.
Arguments ar_kek {C S A}.
Arguments ar_pool {C S A}.
Arguments inflight_puts {C S A}.
Arguments stripe_fetch_buffers {C S A}.
Arguments seen_object_keys {C S A}.
Arguments ar_hashes {C S A}.
Arguments ar_hmac_key {C S A}.
Arguments ar_compression {C S A}.
Arguments physical_size_bytes {C S A}.

Definition is_zero_stripe (data : list Z) : bool := forallb (Z.eqb 0) data.
Definition saturating_add64 (a b : Z) : Z := (a + b) `min` U64_MAX.

Section archiver.
Context `{Hashing} `{Codecs} `{XtsAes} `{Aead} {C S A : Type} `{IoChannel C} `{StripeSource S} `{ArchiveStore A}.
Notation Archiver := (StripeArchiver C S A).
Notation E := (eff (StripeArchiver C S A * World)).

(** [random] are the keys that [XtsBlockCipher::random] draws, [hmac] the bytes
    of [rand_bytes], absent when the generator fails. *)
Definition archiver_new {D} `{BlockDevice D C} (random : option (list Z) * option (list Z)) (hmac : option (list Z))
    (source : S) (bdev : D) (metadata : UbiMetadata) (store : A) (encrypt' : bool)
    (compression : ArchiveCompressionAlgorithm) (kek : KeyEncryptionCipher) (concurrency : nat) (w : World)
  : outcome (result Archiver * World) :=
  match (if encrypt' then c ← xts_random random.1 random.2; Ok (Some c) else Ok None) with
  | Err e => Done (Err e, w)
  | Ok cipher =>
      match hmac with
      | None => Done (Err ArchiveError, w)
      | Some hmac_key =>
          let stripe_count := dev_stripe_count bdev (stripe_sector_count metadata) in
          '(pool, w) ← new_pool BUFFER_ALIGNMENT concurrency
                         (Z.to_nat (stripe_sector_count metadata) * SECTOR_SIZE) w;
          match create_channel bdev w with
          | Err e => Done (Err e, w)
          | Ok ch => Done (Ok (mkArchiver source ch stripe_count metadata store cipher kek pool 0 ∅ ∅ ∅ hmac_key
                                 compression 0), w)
          end
      end
  end.

(** *** The parts of the state an operation changes *)

Definition ar_set_io (a : Archiver) (src : S) (ch : C) : Archiver :=
  mkArchiver src ch (ar_stripe_count a) (ar_metadata a) (ar_store a) (block_cipher a) (ar_kek a) (ar_pool a)
    (inflight_puts a) (stripe_fetch_buffers a) (seen_object_keys a) (ar_hashes a) (ar_hmac_key a) (ar_compression a)
    (physical_size_bytes a).
Definition ar_set_buffers (a : Archiver) (pool : AlignedBufferPool) (fetching : gmap nat nat) : Archiver :=
  mkArchiver (ar_stripe_source a) (ar_io_channel a) (ar_stripe_count a) (ar_metadata a) (ar_store a) (block_cipher a)
    (ar_kek a) pool (inflight_puts a) fetching (seen_object_keys a) (ar_hashes a) (ar_hmac_key a) (ar_compression a)
    (physical_size_bytes a).
Definition ar_set_hashes (a : Archiver) (hashes : StripeContentMap) : Archiver :=
  mkArchiver (ar_stripe_source a) (ar_io_channel a) (ar_stripe_count a) (ar_metadata a) (ar_store a) (block_cipher a)
    (ar_kek a) (ar_pool a) (inflight_puts a) (stripe_fetch_buffers a) (seen_object_keys a) hashes (ar_hmac_key a)
    (ar_compression a) (physical_size_bytes a).
Definition ar_set_store (a : Archiver) (store : A) (inflight : nat) (seen : gset string) (size : Z) : Archiver :=
  mkArchiver (ar_stripe_source a) (ar_io_channel a) (ar_stripe_count a) (ar_metadata a) store (block_cipher a)
    (ar_kek a) (ar_pool a) inflight (stripe_fetch_buffers a) seen (ar_hashes a) (ar_hmac_key a) (ar_compression a) size.

(** *** Stripes *)

Definition header_flag (a : Archiver) (flag : Z) (stripe_id : nat) : outcome bool :=
  header ← index (stripe_headers (ar_metadata a)) stripe_id; Done (negb (Z.land header flag =? 0)).
Definition ar_stripe_written (a : Archiver) := header_flag a WRITTEN.
Definition ar_stripe_fetched (a : Archiver) := header_flag a FETCHED.
Definition stripe_exists_in_source (a : Archiver) := header_flag a HAS_SOURCE.

Definition stripe_should_be_archived (a : Archiver) (stripe_id : nat) : outcome bool :=
  written ← ar_stripe_written a stripe_id;
  if written : bool then Done true else stripe_exists_in_source a stripe_id.

Definition stripe_offset (a : Archiver) (stripe_id : nat) : Z :=
  wrap64 (Z.of_nat stripe_id * stripe_sector_count (ar_metadata a)).

Definition ar_start_fetch (stripe_id buffer : nat) : E unit := fun '(a, w) =>
  written ← ar_stripe_written a stripe_id;
  local ← (if written : bool then Done true else ar_stripe_fetched a stripe_id);
  if local : bool then
    '(ch, w) ← add_read (stripe_offset a stripe_id) (wrap32 (stripe_sector_count (ar_metadata a))) buffer stripe_id
                 (ar_io_channel a) w;
    '(r, ch, w) ← submit ch w;
    Done (r, (ar_set_io a (ar_stripe_source a) ch, w))
  else
    '(r, src, w) ← ss_request stripe_id buffer (ar_stripe_source a) w;
    Done (r, (ar_set_io a src (ar_io_channel a), w)).

Definition maybe_start_next_stripe (stripe_id : nat) : E bool := fun '(a, w) =>
  '(b, pool) ← get_buffer (ar_pool a);
  match b with
  | None => Done (Ok false, (ar_set_buffers a pool (stripe_fetch_buffers a), w))
  | Some buffer =>
      (_ ← ar_start_fetch stripe_id buffer; mret true)
        (ar_set_buffers a pool (<[stripe_id := buffer]> (stripe_fetch_buffers a)), w)
  end.

Definition maybe_encrypt (a : Archiver) (stripe_id : nat) (buffer : list Z) : outcome (list Z) :=
  if decide (length buffer `mod` SECTOR_SIZE <> 0)%nat then Panic AssertionFailed else
  match block_cipher a with
  | None => Done buffer
  | Some cipher => encrypt cipher buffer (stripe_offset a stripe_id) (Z.of_nat (length buffer `div` SECTOR_SIZE))
  end.

(** The end of [start_upload_stripe], once the object is there. *)
Definition upload_object (stripe_id : nat) (object_data : list Z) (a : Archiver) : Archiver :=
  let hash_bytes := sha256_bytes object_data in
  let a := ar_set_hashes a (<[stripe_id := Hash hash_bytes]> (ar_hashes a)) in
  let key := object_key hash_bytes in
  if decide (key ∈ seen_object_keys a) then a else
  ar_set_store a (start_put_object key object_data (ar_store a)) (inflight_puts a + 1)
    ({[key]} ∪ seen_object_keys a) (saturating_add64 (physical_size_bytes a) (Z.of_nat (length object_data))).

Definition start_upload_stripe (stripe_id : nat) : E unit := fun '(a, w) =>
  match stripe_fetch_buffers a !! stripe_id with
  | None => Done (Err ArchiveError, (a, w))
  | Some buffer =>
      let a := ar_set_buffers a (ar_pool a) (delete stripe_id (stripe_fetch_buffers a)) in
      let data := read_buf w buffer in
      if is_zero_stripe data then
        let a := ar_set_hashes a (<[stripe_id := Zero]> (ar_hashes a)) in
        pool ← return_buffer (ar_pool a) buffer w;
        Done (Ok tt, (ar_set_buffers a pool (stripe_fetch_buffers a), w))
      else
        r ← compress (ar_compression a) data;
        match r with
        | Err e => Done (Err e, (a, w))
        | Ok object_data =>
            pool ← return_buffer (ar_pool a) buffer w;
            let a := ar_set_buffers a pool (stripe_fetch_buffers a) in
            object_data ← maybe_encrypt a stripe_id object_data;
            Done (Ok tt, (upload_object stripe_id object_data a, w))
        end
  end.

Fixpoint upload_fetched (completed : list (nat * bool)) : E unit :=
  match completed with
  | [] => mret tt
  | (stripe_id, success) :: completed =>
      if negb success then raise ArchiveError else
      _ ← start_upload_stripe stripe_id; upload_fetched completed
  end.

Definition ar_poll_fetches : E unit := fun '(a, w) =>
  '(completed, ch, w) ← poll (ar_io_channel a) w;
  '(completed', src, w) ← ss_poll (ar_stripe_source a) w;
  upload_fetched (completed ++ completed') (ar_set_io a src ch, w).

Fixpoint count_uploads (results : list (string * result unit)) : E unit := fun '(a, w) =>
  match results with
  | [] => Done (Ok tt, (a, w))
  | (_, Err e) :: _ => Done (Err e, (a, w))
  | (_, Ok _) :: results =>
      match inflight_puts a with
      | O => Done (Err ArchiveError, (a, w))
      | Datatypes.S n =>
          count_uploads results (ar_set_store a (ar_store a) n (seen_object_keys a) (physical_size_bytes a), w)
      end
  end.

Definition poll_uploads : E unit := fun '(a, w) =>
  let '(results, store) := poll_puts (ar_store a) in
  count_uploads results (ar_set_store a store (inflight_puts a) (seen_object_keys a) (physical_size_bytes a), w).

(** *** Metadata *)

(** [n1] and [n2] are the nonces drawn for the two keys. *)
Definition archive_metadata (n1 n2 : list Z) (a : Archiver) : result ArchiveMetadata :=
  encryption_key ← (match block_cipher a with
                    | Some cipher => k ← encrypted_key cipher (ar_kek a) n1; Ok (Some k)
                    | None => Ok None
                    end);
  hmac_key ← encrypt_key_data (ar_kek a) n2 (ar_hmac_key a);
  let m := mkArchiveMetadata ARCHIVE_FORMAT_VERSION (stripe_sector_count (ar_metadata a)) encryption_key
             (ar_compression a) hmac_key [] in
  tag ← compute_metadata_hmac_tag (ar_hmac_key a) m;
  Ok (mkArchiveMetadata ARCHIVE_FORMAT_VERSION (stripe_sector_count (ar_metadata a)) encryption_key
        (ar_compression a) hmac_key tag).

Definition put_counted (rounds : nat) (name : string) (bytes : list Z) : E unit := fun '(a, w) =>
  let '(r, store) := put_object rounds name bytes (ar_store a) in
  let size := if is_ok r then saturating_add64 (physical_size_bytes a) (Z.of_nat (length bytes)) else physical_size_bytes a in
  Done (r, (ar_set_store a store (inflight_puts a) (seen_object_keys a) size, w)).

Definition put_metadata (rounds : nat) (n1 n2 : list Z) : E unit := fun '(a, w) =>
  match (m ← archive_metadata n1 n2 a; or_err ArchiveError (json_of_metadata m)) with
  | Err e => Done (Err e, (a, w))
  | Ok json => put_counted rounds "metadata.json" json (a, w)
  end.

Definition put_stripe_mapping (rounds : nat) (stripe_hashes_bytes : list Z) : E unit :=
  put_counted rounds "stripe-mapping" stripe_hashes_bytes.

Definition serialize_stripe_hashes : E (list Z) := fun '(a, w) =>
  r ← serialize_stripe_mapping (ar_hashes a) (ar_hmac_key a) (block_cipher a); Done (r, (a, w)).

(** *** The whole archive *)

(** The first loop, from [next_stripe_id] on. *)
Fixpoint archive_stripes (fuel next_stripe_id : nat) : E unit := fun '(a, w) =>
  if decide (ar_stripe_count a <= next_stripe_id)%nat then Done (Ok tt, (a, w)) else
  match fuel with
  | O => Panic OutOfFuel
  | Datatypes.S fuel =>
      should ← stripe_should_be_archived a next_stripe_id;
      if negb should then archive_stripes fuel (Datatypes.S next_stripe_id) (a, w) else
      (started ← maybe_start_next_stripe next_stripe_id;
       _ ← ar_poll_fetches;
       _ ← poll_uploads;
       archive_stripes fuel (if started : bool then Datatypes.S next_stripe_id else next_stripe_id)) (a, w)
  end.

Fixpoint drain_inflight (fuel : nat) : E unit := fun '(a, w) =>
  if decide (stripe_fetch_buffers a = ∅) then
    if decide (inflight_puts a = 0%nat) then Done (Ok tt, (a, w))
    else match fuel with
         | O => Panic OutOfFuel
         | Datatypes.S fuel => (_ ← ar_poll_fetches; _ ← poll_uploads; drain_inflight fuel) (a, w)
         end
  else match fuel with
       | O => Panic OutOfFuel
       | Datatypes.S fuel => (_ ← ar_poll_fetches; _ ← poll_uploads; drain_inflight fuel) (a, w)
       end.

Definition archive_all (fuel rounds : nat) (n1 n2 : list Z) : E unit :=
  _ ← archive_stripes fuel 0;
  _ ← drain_inflight fuel;
  bytes ← serialize_stripe_hashes;
  _ ← put_metadata rounds n1 n2;
  put_stripe_mapping rounds bytes.
End archiver.

(** ** Stores that answer at once *)

(** The in-memory and the directory store finish a request before they return:
    what is put is reported by the next poll and found by later gets, and a poll
    reports all gets.  Names are relative paths. *)
Class PromptStore (A : Type) `{ArchiveStore A} := {
  settled : A -> Prop;
  contents : A -> string -> option (list Z);
  answers : A -> list (string * result (list Z));       (* the gets to be reported *)
  store_put n d a : settled a -> is_absolute n = false ->
    exists a', poll_puts (start_put_object n d a) = ([(n, Ok tt)], a') /\ settled a' /\ answers a' = answers a /\
      forall n', is_absolute n' = false -> contents a' n' = if decide (n' = n) then Some d else contents a n';
  store_idle a : settled a ->
    exists a', poll_puts a = ([], a') /\ settled a' /\ answers a' = answers a /\ forall n, contents a' n = contents a n;
  store_get n a : settled a -> settled (start_get_object n a) /\
    (forall n', contents (start_get_object n a) n' = contents a n') /\
    exists r, answers (start_get_object n a) = answers a ++ [(n, r)] /\ forall d, contents a n = Some d -> r = Ok d;
  store_poll a : settled a ->
    exists a', poll_gets a = (answers a, a') /\ settled a' /\ answers a' = [] /\ forall n, contents a' n = contents a n;
}.

#[local] Obligation Tactic := idtac.

#[global] Program Instance mem_prompt : PromptStore MemStore := {
  settled a := ms_finished_puts a = [] /\ ack_puts a = true /\ ack_gets a = true;
  contents a n := ms_objects a !! n;
  answers := ms_finished_gets;
}.
Next Obligation.
  intros n d a (Hp & Hap & Hag) _. cbn. rewrite Hp, Hap. eexists; split_and!; try done. intros n' _. cbn.
  rewrite lookup_insert. repeat case_decide; by subst.
Qed.
Next Obligation. intros a (Hp & Hap & Hag). cbn. rewrite Hp. by eexists. Qed.
Next Obligation.
  intros n a (Hp & Hap & Hag). cbn. rewrite Hag. split_and!; try done. eexists; split; [done|]. by intros d ->.
Qed.
Next Obligation. intros a (Hp & Hap & Hag). cbn. by eexists. Qed.

Lemma chars_inj p p' : chars p = chars p' -> p = p'.
Proof.
  intros E. rewrite <- (String.string_of_list_ascii_of_string p), <- (String.string_of_list_ascii_of_string p').
  by apply (f_equal String.string_of_list_ascii) in E.
Qed.

Lemma of_chars_inj l l' : of_chars l = of_chars l' -> l = l'.
Proof.
  intros E. rewrite <- (String.list_ascii_of_string_of_list_ascii l), <- (String.list_ascii_of_string_of_list_ascii l').
  by apply (f_equal String.list_ascii_of_string) in E.
Qed.

Lemma join_path_inj dir p p' :
  is_absolute p = false -> is_absolute p' = false -> join_path dir p = join_path dir p' -> p = p'.
Proof.
  unfold join_path. intros -> ->. destruct (last (chars dir)) as [c|]; [|done].
  case_decide; intros E; apply of_chars_inj, app_inv_head in E; [by apply chars_inj|].
  injection E as E. by apply chars_inj.
Qed.

#[global] Program Instance fs_prompt : PromptStore FileSystemStore := {
  settled a := fs_finished_puts a = [] /\ fs_faults a = [];
  contents a n := fs_files a !! join_path (base_path a) n;
  answers := fs_finished_gets;
}.
Next Obligation.
  intros n d a (Hp & Hf) Hn. cbn. unfold fs_start_put, fs_try_put. rewrite Hp, Hf. eexists; split_and!; try done.
  intros n' Hn'. cbn. rewrite lookup_insert. case_decide as E; [|by rewrite decide_False by (by intros ->)].
  apply join_path_inj in E as ->; [by rewrite decide_True|done..].
Qed.
Next Obligation. intros a (Hp & Hf). cbn. rewrite Hp. by eexists. Qed.
Next Obligation.
  intros n a (Hp & Hf). cbn. unfold fs_start_get, fs_try_get. rewrite Hf.
  destruct (fs_files a !! join_path (base_path a) n) as [d|] eqn:E; cbn; split_and!; try done;
    (eexists; split; [done|]); intros d' E'; congruence.
Qed.
Next Obligation. intros a (Hp & Hf). cbn. by eexists. Qed.

Section prompt.
Context {A : Type} `{PromptStore A}.
#[local] Set Default Proof Using "Type*".

(** Nothing is left to report. *)
Definition quiet (a : A) : Prop := settled a /\ answers a = [].

Lemma prompt_put n d a : quiet a -> is_absolute n = false ->
  exists a', poll_puts (start_put_object n d a) = ([(n, Ok tt)], a') /\ quiet a' /\
    forall n', is_absolute n' = false -> contents a' n' = if decide (n' = n) then Some d else contents a n'.
Proof. intros [Hs Ha] Hn. destruct (store_put n d a Hs Hn) as (a' & ? & ? & ? & ?). exists a'. split_and!; try done. split; congruence. Qed.

Lemma prompt_idle a : quiet a -> exists a', poll_puts a = ([], a') /\ quiet a' /\ forall n, contents a' n = contents a n.
Proof. intros [Hs Ha]. destruct (store_idle a Hs) as (a' & ? & ? & ? & ?). exists a'. split_and!; try done. split; congruence. Qed.

Lemma prompt_idle_gets a : quiet a -> exists a', poll_gets a = ([], a') /\ quiet a' /\ forall n, contents a' n = contents a n.
Proof. intros [Hs Ha]. destruct (store_poll a Hs) as (a' & ? & ? & ? & ?). exists a'. rewrite <- Ha. by split_and!. Qed.

Lemma prompt_get n d a : quiet a -> contents a n = Some d ->
  exists a', poll_gets (start_get_object n a) = ([(n, Ok d)], a') /\ quiet a' /\ forall n', contents a' n' = contents a n'.
Proof.
  intros [Hs Ha] Hn. destruct (store_get n a Hs) as (Hs1 & Hc1 & r & Hr & Hd).
  destruct (store_poll _ Hs1) as (a' & E & Hs' & Ha' & Hc'). exists a'. rewrite E, Hr, Ha, (Hd d Hn). split_and!; try done.
  intros n'. by rewrite Hc', Hc1.
Qed.

Lemma put_object_prompt rounds n d (a : A) : (0 < rounds)%nat -> quiet a -> is_absolute n = false ->
  exists a', put_object rounds n d a = (Ok tt, a') /\ quiet a' /\
    forall n', is_absolute n' = false -> contents a' n' = if decide (n' = n) then Some d else contents a n'.
Proof.
  intros Hr Hq Hn. destruct (prompt_put n d a Hq Hn) as (a' & E & Hq' & Hc). exists a'. split; [|done].
  unfold put_object. destruct rounds; [lia|]. cbn. rewrite E. cbn. by rewrite decide_True.
Qed.

Lemma get_object_prompt rounds n d (a : A) : (0 < rounds)%nat -> quiet a -> contents a n = Some d ->
  exists a', get_object rounds n a = (Ok d, a') /\ quiet a' /\ forall n', contents a' n' = contents a n'.
Proof.
  intros Hr Hq Hn. destruct (prompt_get n d a Hq Hn) as (a' & E & Hq' & Hc). exists a'. split; [|done].
  unfold get_object. destruct rounds; [lia|]. cbn. rewrite E. cbn. by rewrite decide_True.
Qed.
End prompt.

(** ** An archive of a local device is read back *)

Section upload.
Context `{Hashing} {C S A : Type} `{PromptStore A}.
#[local] Set Default Proof Using "Type*".
Notation Archiver := (StripeArchiver C S A).

(** An object is uploaded unless it is there already. *)
Lemma upload_and_poll k obj (a : Archiver) w : quiet (ar_store a) -> inflight_puts a = 0%nat ->
  let key := object_key (sha256_bytes obj) in
  exists store size, poll_uploads (upload_object k obj a, w) =
      Done (Ok tt, (ar_set_store (ar_set_hashes a (<[k := Hash (sha256_bytes obj)]> (ar_hashes a))) store 0
                      ({[key]} ∪ seen_object_keys a) size, w)) /\
    quiet store /\ forall n, is_absolute n = false -> contents store n =
      if decide (n = key /\ key ∉ seen_object_keys a) then Some obj else contents (ar_store a) n.
Proof.
  intros Hq Hi key. unfold upload_object. fold key. cbn [seen_object_keys ar_set_hashes]. unfold poll_uploads.
  destruct (decide (key ∈ seen_object_keys a)) as [Hs|Hs]; cbn [ar_store ar_set_store ar_set_hashes].
  - destruct (prompt_idle _ Hq) as (st & E & Hq' & Hc). rewrite E. eexists st, (physical_size_bytes a). split_and!; [|done|].
    + cbn. rewrite Hi. replace ({[key]} ∪ seen_object_keys a) with (seen_object_keys a) by set_solver. done.
    + intros n _. by rewrite Hc, decide_False by tauto.
  - destruct (prompt_put key obj _ Hq eq_refl) as (st & E & Hq' & Hc). rewrite E. eexists st, _. split_and!; [|done|].
    + cbn. rewrite Hi. done.
    + intros n Hn. rewrite (Hc n Hn). repeat case_decide; tauto.
Qed.

Lemma poll_uploads_idle (a : Archiver) w : quiet (ar_store a) ->
  exists store, poll_uploads (a, w) = Done (Ok tt, (ar_set_store a store (inflight_puts a) (seen_object_keys a) (physical_size_bytes a), w)) /\
    quiet store /\ forall n, contents store n = contents (ar_store a) n.
Proof. intros Hq. unfold poll_uploads. destruct (prompt_idle _ Hq) as (st & E & Hq' & Hc). rewrite E. by exists st. Qed.
End upload.

Section roundtrip.
Context `{HashingLaws} `{CodecLaws} `{XtsLaws} `{AeadLaws} {S A : Type} `{StripeSource S} `{PromptStore A}.
Context (m : UbiMetadata) (path : nat) (data sy : list Z) (cipher : option XtsBlockCipher) (kek : KeyEncryptionCipher)
  (hmac_key : list Z) (comp : ArchiveCompressionAlgorithm) (src : S).
Notation Archiver := (StripeArchiver SyncIoChannel S A).
Notation count := (length (stripe_headers m)).
Notation size := (Z.to_nat (stripe_size m)).

Definition plain_stripe (i : nat) : list Z := take size (drop (i * size) data).
Definition header_set (h flags : Z) : bool := negb (Z.land h flags =? 0).
Definition archived (i : nat) : bool :=
  match stripe_headers m !! i with Some h => header_set h WRITTEN || header_set h HAS_SOURCE | None => false end.
Definition is_local (i : nat) : bool :=
  match stripe_headers m !! i with Some h => header_set h WRITTEN || header_set h FETCHED | None => false end.

(** The object that holds a stripe. *)
Definition object_result (i : nat) : outcome (result (list Z)) :=
  r ← compress comp (plain_stripe i);
  match r, cipher with
  | Ok x, Some c =>
      x ← encrypt c x (wrap64 (Z.of_nat i * stripe_sector_count m)) (Z.of_nat (length x `div` SECTOR_SIZE)); Done (Ok x)
  | r, _ => Done r
  end.
Definition stripe_object (i : nat) : list Z := match object_result i with Done (Ok x) => x | _ => [] end.

(** Stripe [i] has an object of its own. *)
Definition has_object (i : nat) : Prop := archived i = true /\ is_zero_stripe (plain_stripe i) = false.

Context (Hwf : metadata_wf m).
Context (Hcount : div_ceil (Z.of_nat (length data) / Z.of_nat SECTOR_SIZE) (stripe_sector_count m) = stripe_count m).
Context (Hwhole : forall i, archived i = true -> ((i + 1) * size <= length data)%nat).
Context (Hidle : forall w, ss_poll src w = Done ([], src, w)).
Context (Hlocal : forall i, archived i = true -> is_local i = true).
Context (Hcompress : forall i, archived i = true -> exists x, compress comp (plain_stripe i) = Done (Ok x)).
Context (Hcollision : forall i j, (i < count)%nat -> (j < count)%nat -> has_object i -> has_object j ->
  sha256_bytes (stripe_object i) = sha256_bytes (stripe_object j) -> stripe_object i = stripe_object j).
#[local] Set Default Proof Using "All".

Lemma length_plain i : archived i = true -> length (plain_stripe i) = size.
Proof. intros Hi. specialize (Hwhole i Hi). unfold plain_stripe. rewrite length_take, length_drop. lia. Qed.

(** Decrypting and decompressing an object gives the stripe. *)
Lemma stripe_object_ok i : archived i = true ->
  exists x, compress comp (plain_stripe i) = Done (Ok x) /\ (length x `mod` SECTOR_SIZE = 0)%nat /\
    (match cipher with
     | Some c => encrypt c x (wrap64 (Z.of_nat i * stripe_sector_count m)) (Z.of_nat (length x `div` SECTOR_SIZE))
     | None => Done x end) = Done (stripe_object i) /\ length (stripe_object i) = length x /\
    (match cipher with
     | Some c => decrypt c (stripe_object i) (wrap64 (Z.of_nat i * stripe_sector_count m))
         (Z.of_nat (length (stripe_object i) `div` SECTOR_SIZE))
     | None => Done (stripe_object i) end) = Done x /\ decompress comp x = Ok (plain_stripe i).
Proof.
  intros Hi. destruct (Hcompress i Hi) as [x Hx]. exists x. destruct (compress_roundtrip _ _ _ Hx) as [Hd Hm].
  destruct (cipher_roundtrip cipher x (wrap64 (Z.of_nat i * stripe_sector_count m)) Hm) as (y & Ey & Hly & Edy).
  assert (stripe_object i = y) as ->; [|by split_and!].
  unfold stripe_object, object_result. rewrite Hx. cbn [mbind outcome_bind]. destruct cipher as [c|]; [|by simplify_eq].
  rewrite Ey. done.
Qed.

(** What the mapping says of a stripe, when the stripes below [k] are done. *)
Definition content_upto (k i : nat) : option StripeContentSpecifier :=
  if decide (i < k)%nat then
    if archived i then Some (if is_zero_stripe (plain_stripe i) then Zero else Hash (sha256_bytes (stripe_object i)))
    else None
  else None.

(** The disk is as it was, and the pool has all its buffers. *)
Record at_rest (pool : AlignedBufferPool) (w : World) : Prop := {
  rest_disk : w_disks w !! path = Some (mkDisk data sy);
  rest_faults : w_faults w = [];
  rest_pool : pool_wf pool w;
  rest_free b : ~ handed_out pool b;
  rest_available : has_available pool = true;
  rest_size b : b ∈ pool_buffers pool -> length (read_buf w b) = size;
}.

(** The loop of [archive_all] before stripe [k]. *)
Record at_stripe (k : nat) (a : Archiver) (w : World) : Prop := {
  st_meta : ar_metadata a = m;
  st_count : ar_stripe_count a = count;
  st_channel : exists wr, ar_io_channel a = mkSyncCh path wr [];
  st_source : ar_stripe_source a = src;
  st_cipher : block_cipher a = cipher;
  st_kek : ar_kek a = kek;
  st_hmac : ar_hmac_key a = hmac_key;
  st_comp : ar_compression a = comp;
  st_rest : at_rest (ar_pool a) w;
  st_fetching : stripe_fetch_buffers a = ∅;
  st_inflight : inflight_puts a = 0%nat;
  st_quiet : quiet (ar_store a);
  st_hashes i : ar_hashes a !! i = content_upto k i;
  st_seen key : key ∈ seen_object_keys a <-> exists i, (i < k)%nat /\ has_object i /\ key = object_key (sha256_bytes (stripe_object i));
  st_stored i : (i < k)%nat -> has_object i ->
    contents (ar_store a) (object_key (sha256_bytes (stripe_object i))) = Some (stripe_object i);
}.

(** The stripe is read into a buffer of the pool. *)
Lemma start_stripe k a w : at_stripe k a w -> (k < count)%nat -> archived k = true ->
  exists b pool w' wr, maybe_start_next_stripe k (a, w) =
      Done (Ok true, (ar_set_io (ar_set_buffers a pool {[k := b]}) src (mkSyncCh path wr [(k, true)]), w')) /\
    handed_out pool b /\ read_buf w' b = plain_stripe k /\
    exists pool', return_buffer pool b w' = Done pool' /\ at_rest pool' w'.
Proof.
  intros St Hk Har. pose proof (st_rest _ _ _ St) as R. destruct (st_channel _ _ _ St) as [wr Hch].
  destruct (get_buffer_spec _ w (rest_pool _ _ R) (rest_available _ _ R)) as (b & p & Eg & Wp & Hnb & Hdom & Hbufs & Hout).
  destruct (stripe_sectors_bound m Hwf) as (Hb & Hw32 & Es).
  assert (Z.to_nat (stripe_sector_count m) * SECTOR_SIZE = size)%nat as Esz by (unfold SECTOR_SIZE; lia).
  assert (length (read_buf w b) = size) as Hlb.
  { apply (rest_size _ _ R). rewrite <- Hbufs. destruct (proj2 (Hout b)) as (i & Hi & _); [by left|]. by eapply list_elem_of_lookup_2. }
  assert (length (plain_stripe k) = size) as Hlp by (by apply length_plain).
  pose proof (sync_read_file (wrap64 (Z.of_nat k * stripe_sector_count m)) (stripe_sector_count m) b k
    (mkSyncCh path wr []) w data sy) as Er. cbv zeta in Er. rewrite Esz in Er.
  specialize (Er Hlb (rest_faults _ _ R) (rest_disk _ _ R)). rewrite offset_no_wrap in Er by (unfold stripe_count; lia || done).
  rewrite Nat2Z.id in Er. fold (plain_stripe k) in Er. rewrite bool_decide_true in Er by done.
  rewrite overlay_all in Er by congruence. set (w' := write_buf w b (plain_stripe k)) in *.
  assert (frame w w') as Hf by (apply write_buf_frame; [done|congruence]).
  pose proof (pool_wf_stable _ _ _ (frame_stable _ _ Hf) Wp) as Wp'.
  exists b, p, w', wr. split_and!.
  - unfold maybe_start_next_stripe. rewrite Eg. cbn [mbind outcome_bind]. rewrite (st_fetching _ _ _ St).
    erewrite eff_bind_ok; [done|]. unfold ar_start_fetch, ar_stripe_written, ar_stripe_fetched, header_flag, stripe_offset.
    cbn [ar_metadata ar_set_buffers ar_io_channel ar_stripe_source]. rewrite (st_meta _ _ _ St), (st_source _ _ _ St), Hch, Hw32.
    pose proof (Hlocal k Har) as Hl. unfold is_local in Hl. destruct (stripe_headers m !! k) as [h|] eqn:Hh; [|done].
    rewrite (index_done _ _ _ Hh). cbn [mbind outcome_bind]. unfold header_set in Hl.
    destruct (negb (Z.land h WRITTEN =? 0)); cbn [orb mbind outcome_bind] in *; [|rewrite Hl];
      cbn [add_read sync_channel]; rewrite Er; done.
  - apply Hout. by left.
  - unfold w'. by rewrite read_write_buf_eq.
  - destruct (return_buffer_spec p w' b Wp') as (p' & Ert & Wp2 & Hav & Hb2 & Hout2); [apply Hout; by left|].
    exists p'. split; [done|]. constructor; try done; try apply R.
    + intros c Hc. apply Hout2 in Hc as [Hne Hc]. apply Hout in Hc as [->|Hc]; [done|]. by apply (rest_free _ _ R c).
    + intros c Hc. rewrite Hb2, Hbufs in Hc. unfold w'. rewrite read_write_buf. case_decide; [by subst|]. by apply (rest_size _ _ R).
Qed.

Lemma content_step k i : archived k = true -> content_upto (Datatypes.S k) i =
  if decide (i = k) then Some (if is_zero_stripe (plain_stripe k) then Zero else Hash (sha256_bytes (stripe_object k)))
  else content_upto k i.
Proof. intros Hk. unfold content_upto. repeat case_decide; subst; try lia; try done. by rewrite Hk. Qed.

(** The archiver after a stripe: what one iteration of the loop changes. *)
Lemma stripe_done k a w pool store seen sz spec wr w' :
  at_stripe k a w -> at_rest pool w' -> quiet store ->
  (forall i, <[k := spec]> (ar_hashes a) !! i = content_upto (Datatypes.S k) i) ->
  (forall key, key ∈ seen <-> exists i, (i < Datatypes.S k)%nat /\ has_object i /\ key = object_key (sha256_bytes (stripe_object i))) ->
  (forall i, (i < Datatypes.S k)%nat -> has_object i -> contents store (object_key (sha256_bytes (stripe_object i))) = Some (stripe_object i)) ->
  at_stripe (Datatypes.S k)
    (ar_set_store (ar_set_hashes (ar_set_buffers (ar_set_io a src (mkSyncCh path wr [])) pool ∅) (<[k := spec]> (ar_hashes a)))
       store 0 seen sz) w'.
Proof. intros St R Hq Hh Hs Hst. constructor; cbn; try apply St; try done. by exists wr. Qed.

(** The upload of stripe [k], from the buffer it was read into. *)
Lemma start_upload_spec k (a : Archiver) w b pool : archived k = true ->
  stripe_fetch_buffers a = {[k := b]} -> read_buf w b = plain_stripe k -> return_buffer (ar_pool a) b w = Done pool ->
  ar_compression a = comp -> block_cipher a = cipher -> ar_metadata a = m ->
  start_upload_stripe k (a, w) = Done (Ok tt,
    (if is_zero_stripe (plain_stripe k) then ar_set_hashes (ar_set_buffers a pool ∅) (<[k := Zero]> (ar_hashes a))
     else upload_object k (stripe_object k) (ar_set_buffers a pool ∅), w)).
Proof.
  intros Hk Hf Hr Hp Hc Hx Hm. unfold start_upload_stripe. rewrite Hf, lookup_singleton_eq, delete_singleton_eq.
  cbn [ar_pool ar_compression ar_set_hashes ar_set_buffers ar_hashes stripe_fetch_buffers]. rewrite Hr, Hp, Hc.
  destruct (is_zero_stripe (plain_stripe k)); [done|].
  destruct (stripe_object_ok k Hk) as (x & -> & Hmod & Henc & Hlen' & _). cbn [mbind outcome_bind].
  unfold maybe_encrypt. rewrite decide_False by tauto. cbn [block_cipher ar_set_buffers]. unfold stripe_offset.
  cbn [ar_metadata ar_set_buffers]. rewrite Hx, Hm. destruct cipher as [c|]; [rewrite Henc; done|]. injection Henc as ->. done.
Qed.

Lemma poll_one k (a : Archiver) wr w a' w' : start_upload_stripe k (ar_set_io a src (mkSyncCh path wr []), w) = Done (Ok tt, (a', w')) ->
  ar_poll_fetches (ar_set_io a src (mkSyncCh path wr [(k, true)]), w) = Done (Ok tt, (a', w')).
Proof.
  intros E. unfold ar_poll_fetches. cbn [ar_io_channel ar_stripe_source ar_set_io poll sync_channel mbind outcome_bind].
  rewrite Hidle. cbn [mbind outcome_bind app sync_finished sync_file sync_writable upload_fetched negb].
  change (ar_set_io (ar_set_io a src _) src _) with (ar_set_io a src (mkSyncCh path wr [])). by rewrite (eff_bind_ok _ _ _ _ _ E).
Qed.

Lemma hashes_step k a w i : at_stripe k a w -> archived k = true ->
  <[k := if is_zero_stripe (plain_stripe k) then Zero else Hash (sha256_bytes (stripe_object k))]> (ar_hashes a) !! i =
  content_upto (Datatypes.S k) i.
Proof. intros St Har. rewrite (content_step k i Har), lookup_insert, (st_hashes _ _ _ St i). repeat case_decide; by subst. Qed.

Lemma below_zero k i : is_zero_stripe (plain_stripe k) = true -> (i < Datatypes.S k)%nat -> has_object i -> (i < k)%nat.
Proof. intros Hz Hi [_ Hn]. destruct (decide (i = k)) as [->|]; [congruence|lia]. Qed.

(** The objects in the store once stripe [k] was uploaded. *)
Lemma stored_step k a w store : at_stripe k a w -> (k < count)%nat -> has_object k ->
  (forall n, is_absolute n = false -> contents store n =
     if decide (n = object_key (sha256_bytes (stripe_object k)) /\
                object_key (sha256_bytes (stripe_object k)) ∉ seen_object_keys a)
     then Some (stripe_object k) else contents (ar_store a) n) ->
  forall i, (i < Datatypes.S k)%nat -> has_object i ->
    contents store (object_key (sha256_bytes (stripe_object i))) = Some (stripe_object i).
Proof.
  intros St Hk Hobk Hc i Hi Hob. rewrite Hc by done.
  assert (forall j, (j < count)%nat -> has_object j ->
    object_key (sha256_bytes (stripe_object i)) = object_key (sha256_bytes (stripe_object j)) -> stripe_object j = stripe_object i) as Hsame.
  { intros j Hj Hobj Hkey. apply object_key_inj in Hkey; [|apply sha256_u8..]. apply Hcollision; [lia..|done|done|done]. }
  destruct (decide (object_key (sha256_bytes (stripe_object k)) ∈ seen_object_keys a)) as [Hin|Hout].
  - rewrite decide_False by tauto. destruct (decide (i = k)) as [->|]; [|apply (st_stored _ _ _ St); [lia|done]].
    apply (st_seen _ _ _ St) in Hin as (j & Hj & Hobj & Hkey). rewrite Hkey, (st_stored _ _ _ St j Hj Hobj). f_equal.
    apply Hsame; [lia|done..].
  - destruct (decide (object_key (sha256_bytes (stripe_object i)) = object_key (sha256_bytes (stripe_object k)))) as [Hkey|Hne].
    + rewrite decide_True by done. f_equal. by apply Hsame.
    + rewrite decide_False by tauto. destruct (decide (i = k)) as [->|]; [done|]. apply (st_stored _ _ _ St); [lia|done].
Qed.

Lemma archive_one k a w : at_stripe k a w -> (k < count)%nat -> archived k = true ->
  exists a1 w1 a2 w2 a3 w3, maybe_start_next_stripe k (a, w) = Done (Ok true, (a1, w1)) /\
    ar_poll_fetches (a1, w1) = Done (Ok tt, (a2, w2)) /\ poll_uploads (a2, w2) = Done (Ok tt, (a3, w3)) /\
    at_stripe (Datatypes.S k) a3 w3.
Proof.
  intros St Hk Har. destruct (start_stripe k a w St Hk Har) as (b & pool & w' & wr & Est & Ho & Hrd & pool' & Ert & R).
  pose proof (start_upload_spec k (ar_set_io (ar_set_buffers a pool {[k := b]}) src (mkSyncCh path wr [])) w' b pool' Har eq_refl Hrd
    Ert (st_comp _ _ _ St) (st_cipher _ _ _ St) (st_meta _ _ _ St)) as Eup.
  eexists _, _. rewrite Est. pose proof (poll_one k _ wr w' _ _ Eup) as Ep.
  set (a1 := ar_set_buffers _ pool' ∅) in *. pose proof (st_inflight _ _ _ St) as Hi.
  destruct (is_zero_stripe (plain_stripe k)) eqn:Hz.
  - set (a2 := ar_set_hashes a1 _) in *. assert (quiet (ar_store a2)) as Hq by apply St.
    destruct (poll_uploads_idle a2 w' Hq) as (store & Eu & Hqs & Hc).
    eexists a2, w', _, w'. split_and!; [done|done|exact Eu|].
    change (inflight_puts a2) with (inflight_puts a). change (seen_object_keys a2) with (seen_object_keys a).
    rewrite Hi. apply (stripe_done k a w); try done.
    + intros i. rewrite <- (hashes_step k a w i St Har). by rewrite Hz.
    + intros key. rewrite (st_seen _ _ _ St key). split; intros (i & Hi' & Hob & ->); exists i; (split; [|done]); [lia|].
      by apply below_zero.
    + intros i Hi' Hob. rewrite Hc. apply (st_stored _ _ _ St); [by apply below_zero|done].
  - assert (quiet (ar_store a1)) as Hq by apply St.
    destruct (upload_and_poll k (stripe_object k) a1 w' Hq Hi) as (store & sz & Eu & Hqs & Hc).
    eexists _, w', _, w'. split_and!; [done|exact Ep|exact Eu|].
    assert (has_object k) as Hobk by done. apply (stripe_done k a w); try done.
    + intros i. rewrite <- (hashes_step k a w i St Har). by rewrite Hz.
    + intros key. rewrite elem_of_union, elem_of_singleton. change (seen_object_keys a1) with (seen_object_keys a).
      rewrite (st_seen _ _ _ St key). split.
      * intros [->|(i & Hi' & Hob & ->)]; [exists k|exists i]; (split; [lia|done]).
      * intros (i & Hi' & Hob & ->). destruct (decide (i = k)) as [->|]; [by left|]. right. exists i. split; [lia|done].
    + by apply (stored_step k a w).
Qed.

(** The loop ends with all stripes archived. *)
Lemma archive_stripes_ok fuel : forall k a w, at_stripe k a w -> (k <= count)%nat -> (count - k <= fuel)%nat ->
  exists a' w', archive_stripes fuel k (a, w) = Done (Ok tt, (a', w')) /\ at_stripe count a' w'.
Proof.
  induction fuel as [|fuel IH]; intros k a w St Hk Hfuel; cbn [archive_stripes]; rewrite (st_count _ _ _ St).
  { rewrite decide_True by lia. replace k with count in St by lia. by exists a, w. }
  case_decide as Hend; [replace k with count in St by lia; by exists a, w|].
  assert (k < count)%nat as Hlt by lia.
  assert (stripe_should_be_archived a k = Done (archived k)) as ->.
  { unfold stripe_should_be_archived, ar_stripe_written, stripe_exists_in_source, header_flag, archived.
    rewrite (st_meta _ _ _ St). destruct (lookup_lt_is_Some_2 (stripe_headers m) k Hlt) as [h Hh]. rewrite Hh, (index_done _ _ _ Hh).
    cbn [mbind outcome_bind]. unfold header_set. by destruct (negb (Z.land h WRITTEN =? 0)). }
  cbn [mbind outcome_bind]. destruct (archived k) eqn:Har; cbn [negb].
  - destruct (archive_one k a w St Hlt Har) as (a1 & w1 & a2 & w2 & a3 & w3 & E1 & E2 & E3 & St').
    destruct (IH (Datatypes.S k) a3 w3 St') as (a' & w' & E & St''); [lia..|]. exists a', w'. split; [|done].
    rewrite (eff_bind_ok _ _ _ _ _ E1), (eff_bind_ok _ _ _ _ _ E2), (eff_bind_ok _ _ _ _ _ E3). exact E.
  - apply IH; [|lia..]. destruct St. constructor; try done.
    + intros i. rewrite st_hashes0. unfold content_upto. repeat case_decide; try lia; try done.
      assert (i = k) as -> by lia. by rewrite Har.
    + intros key. rewrite st_seen0. split; intros (i & Hi & Hob & ->); exists i; (split; [|done]); [lia|].
      destruct (decide (i = k)) as [->|]; [destruct Hob; congruence|lia].
    + intros i Hi Hob. apply st_stored0; [|done]. destruct (decide (i = k)) as [->|]; [destruct Hob; congruence|lia].
Qed.

(** *** Metadata and mapping *)

Context (n1 n2 : list Z) (rounds : nat).
Context (Hrounds : (0 < rounds)%nat).
Context (Hn1 : length n1 = GCM_NONCE_SIZE) (Hn2 : length n2 = GCM_NONCE_SIZE).
Context (Hxts : forall c, cipher = Some c -> length (xts_key1 c) = 32%nat /\ length (xts_key2 c) = 32%nat).
Context (Hkek : forall n d, length n = GCM_NONCE_SIZE -> exists e, encrypt_key_data kek n d = Ok e).
Context (Hhmac : length hmac_key = 32%nat) (Haccept : hmac_key_accepted hmac_key = true).
Context (Hjson : forall x, is_Some (json_of_metadata x)).
Context (Hcbor : forall x, hashes_u8 x -> is_Some (cbor_of_map x)).
Context (Hfile : forall x, is_Some (cbor_of_file x)).
#[local] Set Default Proof Using "All".

Lemma metadata_opens k a w : at_stripe k a w -> exists md, archive_metadata n1 n2 a = Ok md /\
  validate_format_version (am_format_version md) = Ok tt /\ decrypt_hmac_key md kek = Ok hmac_key /\
  verify_metadata_hmac_tag hmac_key md = Ok tt /\ archive_cipher md kek = Ok cipher /\
  am_stripe_sector_count md = stripe_sector_count m /\ am_compression md = comp.
Proof.
  intros St. unfold archive_metadata, compute_metadata_hmac_tag, compute_hmac_tag, encrypted_key.
  rewrite (st_cipher _ _ _ St), (st_kek _ _ _ St), (st_hmac _ _ _ St), (st_meta _ _ _ St), (st_comp _ _ _ St), Haccept.
  destruct (Hkek n2 hmac_key Hn2) as [e2 E2]. rewrite E2.
  assert (exists k, (match cipher with Some c => k ← encrypt_key_data kek n1 (xts_key1 c ++ xts_key2 c); Ok (Some k)
                     | None => Ok None end) = Ok k /\
    forall md, am_encryption_key md = k -> archive_cipher md kek = Ok cipher) as (key & -> & Hkey).
  { unfold archive_cipher. destruct cipher as [c|]; [|exists None; split; [done|by intros md ->]].
    destruct (Hkek n1 (xts_key1 c ++ xts_key2 c) Hn1) as [e1 E1]. rewrite E1. exists (Some e1). split; [done|]. intros md ->.
    destruct (Hxts c eq_refl). by rewrite (encrypted_key_roundtrip c kek n1 e1). }
  cbn [mbind result_bind]. eexists; split; [done|]. split_and!; try done; [| |by apply Hkey].
  - unfold decrypt_hmac_key. cbn [am_hmac_key]. rewrite (key_data_roundtrip _ _ _ _ Hn2 E2). cbn [mbind result_bind].
    by rewrite decide_True.
  - unfold verify_metadata_hmac_tag, verify_hmac_tag. cbn [am_metadata_hmac].
    rewrite decide_False by (rewrite hmac_length; tauto). by rewrite Haccept, decide_True.
Qed.

Lemma mapping_written k a w : at_stripe k a w ->
  exists bs, serialize_stripe_mapping (ar_hashes a) hmac_key cipher = Done (Ok bs) /\
    deserialize_stripe_mapping bs hmac_key cipher = Done (Ok (ar_hashes a)).
Proof.
  intros St.
  assert (exists bs, serialize_stripe_mapping (ar_hashes a) hmac_key cipher = Done (Ok bs)) as [bs E].
  { unfold serialize_stripe_mapping. destruct (Hcbor (ar_hashes a)) as [mb ->].
    { intros i h. rewrite (st_hashes _ _ _ St). unfold content_upto. repeat case_match; intros; simplify_eq. apply sha256_u8. }
    cbn [or_err try_]. unfold pad_to_sector.
    set (padded := mb ++ _). assert (length padded `mod` SECTOR_SIZE = 0)%nat as Hpad
      by (unfold padded; rewrite length_app, length_replicate; apply sector_padding).
    destruct (cipher_roundtrip cipher padded XTS_SECTOR_START Hpad) as (x & -> & _). cbn [mbind outcome_bind].
    unfold compute_hmac_tag. rewrite Haccept. cbn [try_].
    edestruct Hfile as [fb ->]. by exists fb. }
  exists bs. split; [done|]. eapply mapping_roundtrip; [|done]. intros i h. rewrite (st_hashes _ _ _ St).
  unfold content_upto. repeat case_match; intros; simplify_eq. apply sha256_length.
Qed.

(** The store of a finished archive. *)
Record complete (store : A) : Prop := {
  cs_quiet : quiet store;
  cs_metadata : exists json md, contents store "metadata.json" = Some json /\ json_to_metadata json = Some md /\
    validate_format_version (am_format_version md) = Ok tt /\ decrypt_hmac_key md kek = Ok hmac_key /\
    verify_metadata_hmac_tag hmac_key md = Ok tt /\ archive_cipher md kek = Ok cipher /\
    am_stripe_sector_count md = stripe_sector_count m /\ am_compression md = comp;
  cs_mapping : exists bs hashes, contents store "stripe-mapping" = Some bs /\
    deserialize_stripe_mapping bs hmac_key cipher = Done (Ok hashes) /\ (forall i, hashes !! i = content_upto count i);
  cs_objects i : (i < count)%nat -> has_object i ->
    contents store (object_key (sha256_bytes (stripe_object i))) = Some (stripe_object i);
}.

Lemma archive_all_ok fuel a w : at_stripe 0 a w -> (count <= fuel)%nat ->
  exists a' w', archive_all fuel rounds n1 n2 (a, w) = Done (Ok tt, (a', w')) /\ complete (ar_store a').
Proof.
  intros St Hfuel. destruct (archive_stripes_ok fuel 0 a w St) as (a1 & w1 & E1 & St1); [lia..|].
  assert (drain_inflight fuel (a1, w1) = Done (Ok tt, (a1, w1))) as E2.
  { destruct fuel; cbn [drain_inflight]; by rewrite (st_fetching _ _ _ St1), (st_inflight _ _ _ St1). }
  destruct (mapping_written _ _ _ St1) as (bs & E3 & Hbs). destruct (metadata_opens _ _ _ St1) as (md & E4 & Hmd).
  destruct (Hjson md) as [json Ejson].
  destruct (put_object_prompt rounds "metadata.json" json (ar_store a1) Hrounds (st_quiet _ _ _ St1) eq_refl)
    as (st1 & E5 & Hq1 & Hc1).
  destruct (put_object_prompt rounds "stripe-mapping" bs st1 Hrounds Hq1 eq_refl) as (st2 & E6 & Hq2 & Hc2).
  eexists _, _. split.
  - unfold archive_all. rewrite (eff_bind_ok _ _ _ _ _ E1), (eff_bind_ok _ _ _ _ _ E2).
    unfold serialize_stripe_hashes at 1, put_metadata, put_stripe_mapping.
    erewrite eff_bind_ok. 2: { rewrite (st_hmac _ _ _ St1), (st_cipher _ _ _ St1), E3. done. }
    erewrite eff_bind_ok. 2: { rewrite E4. cbn [mbind result_bind]. rewrite Ejson. cbn [or_err]. unfold put_counted. rewrite E5. done. }
    unfold put_counted. cbn [ar_store ar_set_store]. rewrite E6. done.
  - cbn [ar_store ar_set_store]. constructor; try done.
    + exists json, md. rewrite Hc2, decide_False, Hc1, decide_True by done. split; [done|]. split; [by apply json_roundtrip|done].
    + exists bs, (ar_hashes a1). rewrite Hc2, decide_True by done. split_and!; [done|done|apply St1].
    + intros i Hi Hob. destruct (object_key_data (sha256_bytes (stripe_object i))) as [Hne1 Hne2].
      rewrite Hc2, decide_False, Hc1, decide_False by done. by apply (st_stored _ _ _ St1).
Qed.

(** *** Reading it back *)

Lemma complete_contents store store' : complete store -> quiet store' -> (forall n, contents store' n = contents store n) -> complete store'.
Proof.
  intros [Hq Hm Hs Ho] Hq' Hc. constructor; [done|..].
  - by rewrite Hc.
  - by rewrite Hc.
  - intros i. rewrite Hc. apply Ho.
Qed.

(** The source that the archive opens to. *)
Record opens_to (s : ArchiveStripeSource A) : Prop := {
  ot_store : complete (as_store s);
  ot_cipher : as_xts_cipher s = cipher;
  ot_hashes i : as_stripe_hashes s !! i = content_upto count i;
  ot_sectors : as_stripe_sector_count s = stripe_sector_count m;
  ot_comp : as_compression s = comp;
  ot_max : max_stripe_id s = foldr Nat.max 0%nat (map_to_list (as_stripe_hashes s)).*1;
  ot_finished : finished_requests s = [];
  ot_pending : pending_requests s = ∅;
}.

Lemma complete_opens store : complete store -> exists s, archive_source_new rounds store kek = Done (Ok s) /\ opens_to s.
Proof.
  intros Cs. destruct (cs_metadata _ Cs) as (json & md & Hm & Hj & Hv & Hh & Ht & Hc & Hs & Hcomp).
  destruct (cs_mapping _ Cs) as (bs & hashes & Hmap & Hd & Hhs).
  destruct (get_object_prompt rounds _ _ store Hrounds (cs_quiet _ Cs) Hm) as (st1 & E1 & Hq1 & Hc1).
  rewrite <- (Hc1 "stripe-mapping"%string) in Hmap.
  destruct (get_object_prompt rounds _ _ st1 Hrounds Hq1 Hmap) as (st2 & E2 & Hq2 & Hc2).
  unfold archive_source_new, as_fetch_metadata. rewrite E1. cbn [mbind result_bind]. rewrite Hj. cbn [or_err mbind result_bind].
  rewrite Hv. cbn [mbind result_bind try_]. rewrite Hh. cbn [try_]. rewrite Ht. cbn [try_]. rewrite Hc. cbn [try_].
  unfold fetch_stripe_hashes. rewrite E2, Hd. cbn [mbind outcome_bind try_]. eexists; split; [done|].
  constructor; try done. apply (complete_contents store); [done|done|]. intros n. cbn. by rewrite Hc2, Hc1.
Qed.

Lemma zero_stripe i : archived i = true -> is_zero_stripe (plain_stripe i) = true -> plain_stripe i = replicate size 0.
Proof.
  intros Hi Hz. symmetry. apply replicate_as_Forall. split; [by apply length_plain|]. rewrite Forall_forall. intros x Hx.
  apply Z.eqb_eq. unfold is_zero_stripe in Hz. rewrite forallb_forall in Hz. apply Hz. by apply list_elem_of_In.
Qed.

(** The object of a stripe is turned into the stripe. *)
Lemma finish_archived s i b w : opens_to s -> archived i = true -> length (read_buf w b) = size ->
  finish_stripe_fetch s i b (stripe_object i) (sha256_bytes (stripe_object i)) w = Done (Ok tt, write_buf w b (plain_stripe i)).
Proof.
  intros [Cs Hc Hh Hs Hcomp _ Hf Hp] Hi Hb. destruct (stripe_object_ok i Hi) as (x & _ & Hmod & _ & Hlx & Hdec & Hdc).
  unfold finish_stripe_fetch, verify_stripe_data. rewrite decide_True by done.
  assert (maybe_decrypt s (stripe_object i) i = Done (Ok x)) as ->.
  { unfold maybe_decrypt. rewrite Hc, Hs. destruct cipher; [|congruence]. rewrite decide_False by (rewrite Hlx; tauto). by rewrite Hdec. }
  assert (length (plain_stripe i) = length (read_buf w b)) as Hl by (rewrite Hb; by apply length_plain).
  cbn [mbind outcome_bind result_bind]. rewrite Hcomp, Hdc, decide_False by lia. by rewrite Hl, Nat.sub_diag, app_nil_r.
Qed.

Lemma archived_stripe_served s i b w : opens_to s -> (i < count)%nat -> length (read_buf w b) = size ->
  exists s1 w1 s2 w2, ss_request i b s w = Done (Ok tt, s1, w1) /\ ss_poll s1 w1 = Done ([(i, true)], s2, w2) /\
    read_buf w2 b = (if archived i then plain_stripe i else replicate size 0).
Proof.
  intros Ot Hi Hb. destruct (Ot) as [Cs Hc Hh Hs Hcomp _ Hf Hp]. cbn [ss_request ss_poll archive_source]. unfold archive_request.
  rewrite Hh. unfold content_upto. rewrite decide_True by done.
  assert (read_buf (fill_zero b w) b = replicate size 0) as Hfill by (unfold fill_zero; rewrite read_write_buf_eq, Hb; done).
  assert (exists s2, archive_poll (as_set s (as_store s) (finished_requests s ++ [(i, true)]) (pending_requests s)) (fill_zero b w) =
    Done ([(i, true)], s2, fill_zero b w)) as [s2 E2].
  { unfold archive_poll. cbn [as_store as_set]. destruct (prompt_idle_gets _ (cs_quiet _ Cs)) as (st & -> & _).
    eexists. cbn [for_each mbind outcome_bind finished_requests as_set]. by rewrite Hf. }
  destruct (archived i) eqn:Har; [|by do 4 eexists].
  destruct (is_zero_stripe (plain_stripe i)) eqn:Hz; [rewrite zero_stripe by done; by do 4 eexists|].
  destruct (prompt_get _ _ _ (cs_quiet _ Cs) (cs_objects _ Cs i Hi (conj Har Hz))) as (st & Eg & _).
  eexists _, w, _, (write_buf w b (plain_stripe i)). split; [done|]. rewrite read_write_buf_eq. split; [|done].
  unfold start_fetch_stripe. rewrite Hp, lookup_empty. unfold archive_poll. cbn [as_store as_set]. rewrite Eg.
  cbn [for_each archive_completion as_set pending_requests finished_requests]. rewrite lookup_insert_eq, Hf.
  cbn [finish_pending pending_stripes expected_sha256 fst snd].
  match goal with |- context [finish_stripe_fetch ?t] => change (finish_stripe_fetch t) with (finish_stripe_fetch s) end.
  rewrite (finish_archived s i b w Ot Har Hb). reflexivity.
Qed.

(** *** From the constructor on *)

Context (random : option (list Z) * option (list Z)) (encrypt' readonly : bool) (concurrency fuel : nat).
Context (bdev : SyncBlockDevice) (store : A) (w : World).
Context (Hrandom : (if encrypt' then c ← xts_random random.1 random.2; Ok (Some c) else Ok None) = Ok cipher).
Context (Hconc : (0 < concurrency)%nat) (Hfuel : (count <= fuel)%nat).
Context (Hfresh : fresh_world w) (Hfaults : w_faults w = []) (Hdisk : w_disks w !! path = Some (mkDisk data sy)).
Context (Hdev : sync_new path readonly w = Ok bdev) (Hquiet : quiet store).
#[local] Set Default Proof Using "All".

Lemma archiver_new_ok : exists a w1,
  archiver_new random (Some hmac_key) src bdev m store encrypt' comp kek concurrency w = Done (Ok a, w1) /\ at_stripe 0 a w1.
Proof.
  destruct (stripe_sectors_bound m Hwf) as (Hb & _ & Es). unfold archiver_new. rewrite Hrandom.
  destruct (new_pool_spec BUFFER_ALIGNMENT concurrency (Z.to_nat (stripe_sector_count m) * SECTOR_SIZE) w eq_refl Hfresh)
    as (p & w1 & -> & Hf & Wp & Hsz & Hfree & Hlp & Hd1 & Hf1). cbn [mbind outcome_bind].
  unfold sync_new in Hdev. rewrite Hdisk in Hdev. cbn [disk_data] in Hdev. case_match; [done|].
  apply Ok_inj in Hdev as <-. cbn [create_channel sync_device sync_path]. rewrite Hd1, Hdisk.
  do 2 eexists. split; [done|]. constructor; try done; cbn.
  - unfold dev_stripe_count. cbn [sector_count sync_device sync_sector_count]. change (Z.of_nat SECTOR_SIZE) with 512.
    change 512 with (Z.of_nat SECTOR_SIZE). rewrite Hcount. unfold stripe_count. lia.
  - by eexists.
  - constructor; cbn; try done; [congruence|congruence| |].
    + unfold has_available. apply negb_true_iff, bool_decide_eq_false. intros Ha.
      destruct (lookup_lt_is_Some_2 (in_use p) 0) as [u Hu]; [rewrite <- (pw_len _ _ Wp); lia|]. destruct u.
      * destruct (lookup_lt_is_Some_2 (pool_buffers p) 0) as [b Hpb]; [lia|]. apply (Hfree b). by exists 0%nat.
      * apply (pw_avail _ _ Wp) in Hu. rewrite Ha in Hu. by apply not_elem_of_nil in Hu.
    + intros b Hin. rewrite (Hsz b Hin). unfold SECTOR_SIZE. lia.
  - intros key. split; [set_solver|]. intros (i & Hi & _). lia.
  - intros i Hi. lia.
Qed.

(** The archive is written and opens. *)
Lemma archive_and_open : exists a w1 a' w' s,
  archiver_new random (Some hmac_key) src bdev m store encrypt' comp kek concurrency w = Done (Ok a, w1) /\
  archive_all fuel rounds n1 n2 (a, w1) = Done (Ok tt, (a', w')) /\
  archive_source_new rounds (ar_store a') kek = Done (Ok s) /\ opens_to s.
Proof.
  destruct archiver_new_ok as (a & w1 & E1 & St). destruct (archive_all_ok fuel a w1 St Hfuel) as (a' & w' & E2 & Cs).
  destruct (complete_opens _ Cs) as (s & E3 & Ot). by exists a, w1, a', w', s.
Qed.
End roundtrip.

(** What the round trip supposes. *)
Record archive_setup `{Hashing} `{Codecs} `{XtsAes} `{Aead} {S A : Type} `{StripeSource S} `{PromptStore A}
    (m : UbiMetadata) (path : nat) (data sy : list Z) (cipher : option XtsBlockCipher) (kek : KeyEncryptionCipher)
    (hmac_key : list Z) (comp : ArchiveCompressionAlgorithm) (src : S) (n1 n2 : list Z)
    (random : option (list Z) * option (list Z)) (encrypt' readonly : bool) (bdev : SyncBlockDevice) (store : A) (w : World)
  : Prop := {
  (* a device whose stripes with data are local and lie inside it *)
  su_wf : metadata_wf m;
  su_count : div_ceil (Z.of_nat (length data) / Z.of_nat SECTOR_SIZE) (stripe_sector_count m) = stripe_count m;
  su_whole i : archived m i = true -> ((i + 1) * Z.to_nat (stripe_size m) <= length data)%nat;
  su_local i : archived m i = true -> is_local m i = true;
  su_fresh : fresh_world w;
  su_faults : w_faults w = [];
  su_disk : w_disks w !! path = Some (mkDisk data sy);
  su_device : sync_new path readonly w = Ok bdev;
  su_source w' : ss_poll src w' = Done ([], src, w');
  su_store : quiet store;
  (* random bytes of the right length *)
  su_nonces : length n1 = GCM_NONCE_SIZE /\ length n2 = GCM_NONCE_SIZE;
  su_hmac_key : length hmac_key = 32%nat /\ hmac_key_accepted hmac_key = true;
  su_random : (if encrypt' then c ← xts_random random.1 random.2; Ok (Some c) else Ok None) = Ok cipher;
  su_cipher c : cipher = Some c -> length (xts_key1 c) = 32%nat /\ length (xts_key2 c) = 32%nat;
  (* the libraries encode what they are given, and SHA-256 tells the objects apart *)
  su_kek n d : length n = GCM_NONCE_SIZE -> exists e, encrypt_key_data kek n d = Ok e;
  su_json x : is_Some (json_of_metadata x);
  su_cbor x : hashes_u8 x -> is_Some (cbor_of_map x);
  su_file x : is_Some (cbor_of_file x);
  su_compress i : archived m i = true -> exists x, compress comp (plain_stripe m data i) = Done (Ok x);
  su_collision i j : (i < length (stripe_headers m))%nat -> (j < length (stripe_headers m))%nat ->
    has_object m data i -> has_object m data j ->
    sha256_bytes (stripe_object m data cipher comp i) = sha256_bytes (stripe_object m data cipher comp j) ->
    stripe_object m data cipher comp i = stripe_object m data cipher comp j;
}.

Section end_to_end.
Context `{HashingLaws} `{CodecLaws} `{XtsLaws} `{AeadLaws} {S A : Type} `{StripeSource S} `{PromptStore A}.
Context (m : UbiMetadata) (path : nat) (data sy : list Z) (cipher : option XtsBlockCipher) (kek : KeyEncryptionCipher)
  (hmac_key : list Z) (comp : ArchiveCompressionAlgorithm) (src : S) (n1 n2 : list Z)
  (random : option (list Z) * option (list Z)) (encrypt' readonly : bool) (bdev : SyncBlockDevice) (store : A) (w : World).
Context (Su : archive_setup m path data sy cipher kek hmac_key comp src n1 n2 random encrypt' readonly bdev store w).
Notation count := (length (stripe_headers m)).
Notation size := (Z.to_nat (stripe_size m)).
#[local] Set Default Proof Using "All".

Lemma setup_archived concurrency fuel rounds : (0 < concurrency)%nat -> (count <= fuel)%nat -> (0 < rounds)%nat ->
  exists a w1 a' w' s,
    archiver_new random (Some hmac_key) src bdev m store encrypt' comp kek concurrency w = Done (Ok a, w1) /\
    archive_all fuel rounds n1 n2 (a, w1) = Done (Ok tt, (a', w')) /\
    archive_source_new rounds (ar_store a') kek = Done (Ok s) /\ opens_to m data cipher kek hmac_key comp s.
Proof. intros Hc Hf Hr. destruct Su as [? ? ? ? ? ? ? ? ? ? [? ?] [? ?]]. by eapply archive_and_open. Qed.

Lemma setup_served s i b v : opens_to m data cipher kek hmac_key comp s -> (i < count)%nat -> length (read_buf v b) = size ->
  exists s1 v1 s2 v2, ss_request i b s v = Done (Ok tt, s1, v1) /\ ss_poll s1 v1 = Done ([(i, true)], s2, v2) /\
    read_buf v2 b = (if archived m i then plain_stripe m data i else replicate size 0).
Proof. intros Ot Hi Hb. destruct Su as [? ? ? ? ? ? ? ? ? ? [? ?] [? ?]]. eapply (archived_stripe_served m path data sy cipher kek hmac_key comp src) with (n1 := n1) (n2 := n2) (rounds := 1%nat); try eassumption; try lia. Qed.

Lemma setup_finish s i b v : opens_to m data cipher kek hmac_key comp s -> archived m i = true -> length (read_buf v b) = size ->
  finish_stripe_fetch s i b (stripe_object m data cipher comp i) (sha256_bytes (stripe_object m data cipher comp i)) v =
    Done (Ok tt, write_buf v b (plain_stripe m data i)).
Proof.
  intros Ot Hi Hb. destruct Su as [? ? ? ? ? ? ? ? ? ? [? ?] [? ?]].
  eapply (finish_archived m path data sy cipher kek hmac_key comp src) with (n1 := n1) (n2 := n2) (rounds := 1%nat); try eassumption; try lia.
Qed.

Lemma setup_zero i : archived m i = true -> is_zero_stripe (plain_stripe m data i) = true -> plain_stripe m data i = replicate size 0.
Proof.
  intros Hi Hz. destruct Su as [? ? ? ? ? ? ? ? ? ? [? ?] [? ?]].
  eapply (zero_stripe m path data sy cipher kek hmac_key comp src) with (n1 := n1) (n2 := n2) (rounds := 1%nat); try eassumption; try lia.
Qed.

(** C12: an archive can be read back, under [archive_setup]: well-formed
    metadata with as many stripes as the device, whose stripes with data are all
    local and lie wholly inside the device (a device that ends inside a stripe
    with data cannot be archived, see [partial_last_stripe_fails]); a file read
    without faults; a store that answers at once; encoders that succeed and a
    SHA-256 that does not collide on the uploaded objects.  Then, for every
    compression, with or without encryption and key encryption, the archiver
    archives the whole device without an error; the store it leaves opens as a
    stripe source with the same stripe size that has exactly the stripes with
    data, and fetching a stripe yields the bytes of the device, or zeroes for a
    stripe without data. *)
Theorem archive_roundtrip concurrency fuel rounds : (0 < concurrency)%nat -> (count <= fuel)%nat -> (0 < rounds)%nat ->
  exists a w1 a' w' s,
  archiver_new random (Some hmac_key) src bdev m store encrypt' comp kek concurrency w = Done (Ok a, w1) /\
  archive_all fuel rounds n1 n2 (a, w1) = Done (Ok tt, (a', w')) /\
  archive_source_new rounds (ar_store a') kek = Done (Ok s) /\ as_stripe_sector_count s = stripe_sector_count m /\
  forall i, (i < count)%nat -> has_stripe s i = archived m i /\
    forall b v, length (read_buf v b) = size ->
      exists s1 v1 s2 v2, ss_request i b s v = Done (Ok tt, s1, v1) /\ ss_poll s1 v1 = Done ([(i, true)], s2, v2) /\
        read_buf v2 b = (if archived m i then plain_stripe m data i else replicate size 0).
Proof.
  intros Hc Hf Hr. destruct (setup_archived concurrency fuel rounds Hc Hf Hr) as (a & w1 & a' & w' & s & E1 & E2 & E3 & Ot).
  exists a, w1, a', w', s. split_and!; try done; [apply Ot|]. intros i Hi. split; [|intros b v Hb; by apply setup_served].
  cbn. rewrite (ot_hashes _ _ _ _ _ _ _ Ot). unfold content_upto. rewrite decide_True by done. by destruct (archived m i).
Qed.
End end_to_end.

(** *** A concrete archive: stripes 0 and 3 hold data, 1 was never written and 2 is zero *)

Section demo.
#[local] Existing Instances toy_codecs toy_hash toy_xts toy_aead.

Definition arch_metadata : UbiMetadata := with_headers (new_metadata 0 4 0) [WRITTEN; 0; Z.lor HAS_SOURCE FETCHED; WRITTEN].
Definition arch_data : list Z := replicate 512 7 ++ replicate 512 9 ++ replicate 512 0 ++ replicate 512 8.
Definition arch_world : World :=
  mkWorld ∅ 0 {[ 5%nat := mkDisk arch_data [] ]} [] (new_shared (new_metadata 0 4 0)) [] true.
Definition arch_cipher : XtsBlockCipher := mkXts (replicate 32 3) (replicate 32 4).
Definition arch_kek : KeyEncryptionCipher := mkKek Aes256Gcm (Some (replicate 32 1)) (Some [9]).
Definition arch_source : BlockDeviceStripeSource NullIoChannel := mkBdevSource (mkNullCh []) 1 0.

Lemma arch_local i : archived arch_metadata i = true -> is_local arch_metadata i = true.
Proof. by destruct i as [|[|[|[|i]]]]. Qed.

Lemma arch_no_collision i j :
  (i < length (stripe_headers arch_metadata))%nat -> (j < length (stripe_headers arch_metadata))%nat ->
  has_object arch_metadata arch_data i -> has_object arch_metadata arch_data j ->
  sha256_bytes (stripe_object arch_metadata arch_data (Some arch_cipher) (Zstd 3) i) =
  sha256_bytes (stripe_object arch_metadata arch_data (Some arch_cipher) (Zstd 3) j) ->
  stripe_object arch_metadata arch_data (Some arch_cipher) (Zstd 3) i =
  stripe_object arch_metadata arch_data (Some arch_cipher) (Zstd 3) j.
Proof.
  intros Hi Hj [Ai Zi] [Aj Zj] E. destruct (decide (i = j)) as [->|Hne]; [reflexivity|].
  assert (forall k, archived arch_metadata k = true -> is_zero_stripe (plain_stripe arch_metadata arch_data k) = false ->
    k = 0%nat \/ k = 3%nat) as Hk.
  { intros k. destruct k as [|[|[|[|k]]]]; vm_compute; intros; try discriminate; tauto. }
  destruct (Hk i Ai Zi) as [-> | ->], (Hk j Aj Zj) as [-> | ->]; try congruence; exfalso; vm_compute in E; discriminate.
Qed.

Lemma arch_setup : archive_setup (A := MemStore) arch_metadata 5 arch_data [] (Some arch_cipher) arch_kek (replicate 32 5) (Zstd 3)
  arch_source (replicate 12 6) (replicate 12 7) (Some (replicate 32 3), Some (replicate 32 4)) true true (mkSyncDev 5 4 true)
  mem_new arch_world.
Proof.
  constructor.
  - constructor; try done. repeat constructor; vm_compute; congruence.
  - reflexivity.
  - intros i. destruct i as [|[|[|[|i]]]]; vm_compute; intros; try discriminate; lia.
  - exact arch_local.
  - intros b Hb. cbn in Hb. rewrite dom_empty_L in Hb. by apply not_elem_of_empty in Hb.
  - reflexivity.
  - reflexivity.
  - vm_compute. reflexivity.
  - reflexivity.
  - done.
  - done.
  - done.
  - reflexivity.
  - intros c [= <-]. done.
  - intros n d _. by eexists.
  - by eexists.
  - apply toy_map_encoded.
  - by eexists.
  - intros i Hi. destruct i as [|[|[|[|i]]]]; [| | | |discriminate Hi]; eexists; vm_compute; reflexivity.
  - exact arch_no_collision.
Qed.

Lemma archive_roundtrip_witness :
  let m := arch_metadata in
  exists a w1 a' w' s,
    archiver_new (A := MemStore) (Some (replicate 32 3), Some (replicate 32 4)) (Some (replicate 32 5)) arch_source
      (mkSyncDev 5 4 true) m mem_new true (Zstd 3) arch_kek 2 arch_world = Done (Ok a, w1) /\
    archive_all 4 1 (replicate 12 6) (replicate 12 7) (a, w1) = Done (Ok tt, (a', w')) /\
    archive_source_new 1 (ar_store a') arch_kek = Done (Ok s) /\ as_stripe_sector_count s = stripe_sector_count m /\
    forall i, (i < length (stripe_headers m))%nat -> has_stripe s i = archived m i /\
      forall b v, length (read_buf v b) = Z.to_nat (stripe_size m) ->
        exists s1 v1 s2 v2, ss_request i b s v = Done (Ok tt, s1, v1) /\ ss_poll s1 v1 = Done ([(i, true)], s2, v2) /\
          read_buf v2 b = (if archived m i then plain_stripe m arch_data i else replicate (Z.to_nat (stripe_size m)) 0).
Proof.
  apply (@archive_roundtrip _ toy_hash_laws _ toy_codec_laws _ toy_xts_laws _ toy_aead_laws _ _ _ _ mem_prompt
    _ _ _ _ _ _ _ _ _ _ _ _ _ _ _ _ _ arch_setup); [lia|cbn; lia|lia].
Defined.

(** The archiver always reads whole stripes: a device of three sectors whose
    second stripe of two sectors holds data cannot be archived, although nothing
    fails and all of it is local. *)
Lemma partial_last_stripe_fails :
  let m := with_headers (new_metadata 1 2 0) [WRITTEN; WRITTEN] in
  let w := mkWorld ∅ 0 {[ 5%nat := mkDisk (replicate 1536 7) [] ]} [] (new_shared m) [] true in
  match archiver_new (A := MemStore) (None, None) (Some (replicate 32 5)) arch_source (mkSyncDev 5 3 true) m mem_new
          false (Zstd 3) arch_kek 2 w with
  | Done (Ok a, w1) =>
      match archive_all 4 1 (replicate 12 6) (replicate 12 7) (a, w1) with
      | Done (Err ArchiveError, _) => True
      | _ => False
      end
  | _ => False
  end.
Proof. vm_compute. exact Logic.I. Qed.
End demo.
