(* ===== verification/Export.v ===== *)
(** * Export: an archive written out as a raw image

    Models src/src/export_archive.rs after the store has been built: the archive
    is opened, the target file is created and sized, and its stripes are fetched,
    up to [MAX_FETCHES] at a time, and written in the order in which they arrive.
    Two theorems: whatever the store answers, the export returns, and a file that
    it reports as exported holds authentic stripes only; and archiving a device followed by exporting
    the archive gives the device's contents.

    [fuel] bounds the rounds of the loop that waits for the store. *)
From S2P Require Import Prelude Metadata SharedState World Device StripeSource StripeServer Crypt Secrets Config.
From S2P Require Import ArchiveFormat ArchiveSource Archiver.
#[local] Open Scope Z_scope.

Definition MAX_FETCHES : nat := 16.

(** ** Files: [File::create], and [seek] with [write_all] *)

Definition create_file (d : nat) (w : World) : result unit * World :=
  let '(fault, w) := next_fault w in
  match fault with
  | Some _ => (Err (IoError OtherIo), w)
  | None => (Ok tt, set_disks w (<[d := mkDisk [] (disk_synced (disk_at w d))]> (w_disks w)))
  end.

Definition seek_write (d : nat) (offset : Z) (bytes : list Z) (w : World) : result unit * World :=
  if I64_MAX <? offset then (Err (IoError OtherIo), w) else
  let '(ok, w) := write_all_at d true (Z.to_nat offset) bytes w in (io_result ok, w).

(** ** The loop *)

Record Export (A : Type) := mkExport {
  ex_source : ArchiveStripeSource A;
  next_submit : nat;
  written : nat;
  in_flight : gmap nat nat;
}.
Arguments mkExport {A}.
Arguments ex_source {A}.
Arguments next_submit {A}.
Arguments written {A}.
Arguments in_flight {A}.

Section export.
Context `{Hashing} `{Codecs} `{XtsAes} `{Aead} {A : Type} `{ArchiveStore A}.
Notation Source := (ArchiveStripeSource A).
Notation E := (eff (Export A * World)).

(** The inner [while]; it runs at most [stripe_count - next_submit] times. *)
Fixpoint fill_requests (n stripe_count stripe_size : nat) : E unit := fun '(x, w) =>
  match n with
  | O => Done (Ok tt, (x, w))
  | S n =>
      if decide (size (in_flight x) < MAX_FETCHES /\ next_submit x < stripe_count)%nat then
        let stripe_id := next_submit x in
        if negb (has_stripe (ex_source x) stripe_id) then
          fill_requests n stripe_count stripe_size
            (mkExport (ex_source x) (S stripe_id) (S (written x)) (in_flight x), w)
        else
          let '(buffer, w) := shared_buffer stripe_size w in
          '(r, source, w) ← ss_request stripe_id buffer (ex_source x) w;
          match r with
          | Err e => Done (Err e, (mkExport source (S stripe_id) (written x) (in_flight x), w))
          | Ok _ => fill_requests n stripe_count stripe_size
                      (mkExport source (S stripe_id) (written x) (<[stripe_id := buffer]> (in_flight x)), w)
          end
      else Done (Ok tt, (x, w))
  end.

Fixpoint write_completions (target stripe_size : nat) (completions : list (nat * bool)) : E unit := fun '(x, w) =>
  match completions with
  | [] => Done (Ok tt, (x, w))
  | (completed_id, success) :: completions =>
      if negb success then Done (Err ArchiveError, (x, w)) else
      match in_flight x !! completed_id with
      | None => write_completions target stripe_size completions (x, w)
      | Some buffer =>
          let x := mkExport (ex_source x) (next_submit x) (written x) (delete completed_id (in_flight x)) in
          let offset := wrap64 (Z.of_nat completed_id * Z.of_nat stripe_size) in
          let '(r, w) := seek_write target offset (read_buf w buffer) w in
          match r with
          | Err e => Done (Err e, (x, w))
          | Ok _ => write_completions target stripe_size completions
                      (mkExport (ex_source x) (next_submit x) (S (written x)) (in_flight x), w)
          end
      end
  end.

Definition poll_source : E (list (nat * bool)) := fun '(x, w) =>
  '(completions, source, w) ← ss_poll (ex_source x) w;
  Done (Ok completions, (mkExport source (next_submit x) (written x) (in_flight x), w)).

Fixpoint export_loop (fuel target stripe_count stripe_size : nat) : E unit := fun '(x, w) =>
  if decide (stripe_count <= written x)%nat then Done (Ok tt, (x, w)) else
  match fuel with
  | O => Panic OutOfFuel
  | S fuel =>
      (_ ← fill_requests (stripe_count - next_submit x) stripe_count stripe_size;
       completions ← poll_source;
       _ ← write_completions target stripe_size completions;
       export_loop fuel target stripe_count stripe_size) (x, w)
  end.

Definition export_source (fuel target : nat) (source : Source) (w : World) : outcome (result unit * World) :=
  let sector_count := ss_sector_count source in
  let stripe_sector_count := as_stripe_sector_count source in
  let total_bytes := wrap64 (sector_count * Z.of_nat SECTOR_SIZE) in
  if sector_count =? 0 then Done (create_file target w) else
  let stripe_count := Z.to_nat (div_ceil sector_count stripe_sector_count) in
  let stripe_size := Z.to_nat (wrap64 (stripe_sector_count * Z.of_nat SECTOR_SIZE)) in
  match create_file target w with
  | (Err e, w) => Done (Err e, w)
  | (Ok _, w) =>
      match set_len target total_bytes w with
      | (Err e, w) => Done (Err e, w)
      | (Ok _, w) =>
          '(r, (_, w)) ← export_loop fuel target stripe_count stripe_size (mkExport source 0 0 ∅, w);
          Done (r, w)
      end
  end.

(** [export_archive], from the store and the key-encryption key on. *)
Definition export_archive (rounds fuel : nat) (store : A) (kek : KeyEncryptionCipher) (target : nat) (w : World)
  : outcome (result unit * World) :=
  r ← archive_source_new rounds store kek;
  match r with
  | Err e => Done (Err e, w)
  | Ok source => export_source fuel target source w
  end.
End export.

(** ** Proofs *)

(** The [i]-th stripe of a file. *)
Definition block (sz i : nat) (data : list Z) : list Z := take sz (drop (i * sz) data).

Lemma block_write sz n i j data bs : length data = (n * sz)%nat -> (i < n)%nat -> length bs = sz ->
  length (file_write data (i * sz) bs) = length data /\
  block sz j (file_write data (i * sz) bs) = if decide (j = i) then bs else block sz j data.
Proof.
  intros Hl Hi Hb. pose proof (block_within i n sz Hi) as Hw. rewrite file_write_splice by lia. split; [apply length_splice; lia|].
  unfold block. case_decide as Hj.
  - subst j. rewrite <- Hb at 1. apply take_drop_splice. lia.
  - apply take_drop_splice_ne; [lia|]. destruct (decide (j < i)%nat); [left|right]; nia.
Qed.

Lemma block_zeroes sz n i : (i < n)%nat -> block sz i (replicate (n * sz) 0) = replicate sz 0.
Proof.
  intros Hi. pose proof (block_within i n sz Hi). unfold block. rewrite drop_replicate, take_replicate. f_equal. lia.
Qed.

(** Fetching a stripe touches nothing but buffers. *)
Definition same_files (w w' : World) : Prop := w_disks w' = w_disks w /\ w_faults w' = w_faults w.

Section files.
Context `{Hashing} `{Codecs} `{XtsAes} {A : Type} `{ArchiveStore A}.
Implicit Types (s : ArchiveStripeSource A) (w : World).

Lemma finish_same_files s id b data h w r w' : finish_stripe_fetch s id b data h w = Done (r, w') -> same_files w w'.
Proof.
  unfold finish_stripe_fetch. destruct (verify_stripe_data _ _); [|by intros [= _ <-]].
  destruct (maybe_decrypt s data id) as [[plain|e]|]; cbn [mbind outcome_bind result_bind]; [|by intros [= _ <-]|done].
  destruct (decompress _ _); [|by intros [= _ <-]]. case_decide; by intros [= _ <-].
Qed.

Lemma finish_pending_same_files s stripes data h : forall fin w fin' w',
  finish_pending s stripes data h (fin, w) = Done (fin', w') -> same_files w w'.
Proof.
  induction stripes as [|[id b] stripes IH]; intros fin w fin' w' E; cbn [finish_pending fst snd] in E; [by simplify_eq|].
  destruct (finish_stripe_fetch s id b data h w) as [[r w1]|] eqn:E1; [|done]. cbn [mbind outcome_bind] in E.
  apply finish_same_files in E1 as [? ?]. apply IH in E as [? ?]. split; congruence.
Qed.

Lemma completions_same_files cs : forall s w s' w',
  for_each archive_completion cs (s, w) = Done (s', w') -> same_files w w'.
Proof.
  induction cs as [|[name r] cs IH]; intros s w s' w' E; cbn [for_each] in E; [by simplify_eq|].
  destruct (archive_completion (name, r) (s, w)) as [[s1 w1]|] eqn:E1; [|done]. cbn [mbind outcome_bind] in E.
  apply IH in E as [? ?]. assert (same_files w w1) as [? ?]; [|split; congruence]. clear -E1. unfold archive_completion in E1.
  destruct (pending_requests s !! name) as [p|]; [|by simplify_eq]. destruct r as [data|e]; [|by simplify_eq].
  destruct (finish_pending _ _ _ _ _) as [[fin w2]|] eqn:E2; [|done]. cbn [mbind outcome_bind] in E1. simplify_eq.
  by eapply finish_pending_same_files.
Qed.

Lemma archive_poll_same_files s w rs s' w' : ss_poll s w = Done (rs, s', w') -> same_files w w'.
Proof.
  cbn. unfold archive_poll. destruct (poll_gets (as_store s)) as [cs store]. destruct (for_each _ _ _) as [[s1 w1]|] eqn:E; [|done].
  cbn [mbind outcome_bind]. intros. simplify_eq. by eapply completions_same_files.
Qed.

Lemma archive_request_same_files id b s w r s' w' : ss_request id b s w = Done (r, s', w') -> same_files w w'.
Proof. cbn. unfold archive_request. intros E. repeat case_match; by simplify_eq. Qed.
End files.

(** A write of the image changes the file only. *)
Lemma write_completion_effect d off bs w ok w' : write_all_at d true off bs w = (ok, w') -> fresh_world w ->
  stable w w' /\ fresh_world w' /\ (forall c, read_buf w' c = read_buf w c) /\
  (ok = true -> disk_data (disk_at w' d) = file_write (disk_data (disk_at w d)) off bs) /\
  (w_faults w = [] -> ok = true /\ w_faults w' = []).
Proof.
  unfold write_all_at, next_fault. cbn [negb]. intros E Hfr.
  destruct (w_faults w) as [|[n|] fs] eqn:Hw; simplify_eq; (split_and!; [by split_and!|done|done| |]); try done;
    intros _; unfold disk_at; cbn; rewrite lookup_insert_eq; done.
Qed.

Lemma forget_delete asked rs id : forget (delete id asked) rs = delete id (forget asked rs).
Proof. induction rs as [|x rs IH]; [done|]. cbn [forget foldr]. fold (forget (delete id asked) rs) (forget asked rs). by rewrite IH, delete_delete. Qed.

Section exporting.
Context `{Hashing} `{Codecs} `{XtsLaws} {A : Type} `{ArchiveStore A}.
Notation Source := (ArchiveStripeSource A).
Context (s0 : Source) (Ans : string -> result (list Z) -> Prop) (Q : nat -> bool -> list Z -> Prop).
Context (Qzero : forall id n, (forall h, as_stripe_hashes s0 !! id <> Some (Hash h)) -> Q id true (replicate n 0)).
Context (Qfailed : forall id h e d, as_stripe_hashes s0 !! id = Some (Hash h) -> Ans (object_key h) (Err e) -> Q id false d).
Context (Qdata : forall id h data b w r w', as_stripe_hashes s0 !! id = Some (Hash h) -> Ans (object_key h) (Ok data) ->
  finish_stripe_fetch s0 id b data h w = Done (r, w') -> Q id (is_ok r) (read_buf w' b)).
(** What is known of the store between the calls. *)
Context (SI : Source -> Prop).
Context (SI_answers : forall s, SI s -> forall c, c ∈ (poll_gets (as_store s)).1 -> Ans c.1 c.2).
Context (SI_request : forall s asked id b w r s' w', SI s -> archive_inv s0 Q s asked w ->
  ss_request id b s w = Done (r, s', w') -> SI s').
Context (SI_poll : forall s w rs s' w', SI s -> ss_poll s w = Done (rs, s', w') -> SI s').
Context (target count sz : nat) (Hfits : Z.of_nat (count * sz) <= I64_MAX).
#[local] Set Default Proof Using "All".
Notation inv := (archive_inv s0 Q).

(** A stripe of the finished image. *)
Definition exported (i : nat) (bytes : list Z) : Prop :=
  if has_stripe s0 i then Q i true bytes else bytes = replicate sz 0.

Record export_inv (asked : gmap nat nat) (x : Export A) (w : World) : Prop := {
  ei_archive : inv (ex_source x) asked w;
  ei_store : SI (ex_source x);
  ei_fresh : fresh_world w;
  ei_next : (next_submit x <= count)%nat;
  ei_written : (written x + size (in_flight x) = next_submit x)%nat;
  ei_flight i b : in_flight x !! i = Some b ->
    (i < next_submit x)%nat /\ has_stripe s0 i = true /\ length (read_buf w b) = sz;
  ei_length : length (disk_data (disk_at w target)) = (count * sz)%nat;
  ei_done i : (i < next_submit x)%nat -> in_flight x !! i = None -> exported i (block sz i (disk_data (disk_at w target)));
  ei_todo i : (next_submit x <= i < count)%nat -> block sz i (disk_data (disk_at w target)) = replicate sz 0;
}.

Lemma has_stripe_static s asked w i : inv s asked w -> has_stripe s i = has_stripe s0 i.
Proof. intros I. cbn. by rewrite (ai_static _ _ _ _ _ I). Qed.

(** One stripe more is asked for. *)
Lemma request_one x w : export_inv (in_flight x) x w -> (next_submit x < count)%nat -> has_stripe s0 (next_submit x) = true ->
  let '(b, w1) := shared_buffer sz w in
  exists s' w', ss_request (next_submit x) b (ex_source x) w1 = Done (Ok tt, s', w') /\ same_files w w' /\
    export_inv (<[next_submit x := b]> (in_flight x)) (mkExport s' (S (next_submit x)) (written x) (<[next_submit x := b]> (in_flight x))) w'.
Proof.
  intros [Ia Is If In Iw Il Ie Id It] Hlt Hh. unfold shared_buffer. pose proof (alloc_frame sz 0 w If) as Hf.
  pose proof (read_buf_alloc sz 0 w) as Hrb. assert (w_disks (alloc_buf sz 0 w).2 = w_disks w /\ w_faults (alloc_buf sz 0 w).2 = w_faults w)
    as [Hd0 Hf0] by done. assert ((alloc_buf sz 0 w).1 = w_next w) as Hb0 by done.
  assert ((alloc_buf sz 0 w).1 ∈ dom (w_bufs (alloc_buf sz 0 w).2)) as Hdom by (cbn; rewrite dom_insert; set_solver).
  assert (forall b, b <> w_next w -> read_buf (alloc_buf sz 0 w).2 b = read_buf w b) as Hother
    by (intros b Hb; unfold read_buf, buf_at; cbn; by rewrite lookup_insert_ne by done).
  destruct (alloc_buf sz 0 w) as [b w1]. cbn [fst snd] in *. subst b.
  assert (forall i c, in_flight x !! i = Some c -> (c < w_next w)%nat) as Hold by (intros i c Hi; by apply If, (ai_live _ _ _ _ _ Ia i)).
  assert (inv (ex_source x) (in_flight x) w1) as Ia1.
  { apply (archive_inv_stable _ _ _ _ w); [by apply frame_stable| |done]. intros i c Hi. apply Hother. pose proof (Hold i c Hi). lia. }
  assert (in_flight x !! next_submit x = None) as Hnew.
  { destruct (in_flight x !! next_submit x) as [c|] eqn:E; [|done]. destruct (Il _ _ E). lia. }
  destruct (archive_request_inv s0 Ans Q Qzero Qfailed Qdata (ex_source x) (in_flight x) w1 (next_submit x) (w_next w) Ia1 Hnew)
    as (s' & w' & E & Hfw & I'); [intros j Hj; pose proof (Hold j _ Hj); lia|done|].
  exists s', w'. destruct (archive_request_same_files _ _ _ _ _ _ _ E) as [Hd1 Hf1].
  assert (disk_at w' target = disk_at w target) as Hdisk by (unfold disk_at; congruence).
  split_and!; [done|split; congruence|]. constructor; cbn; try done; rewrite ?Hdisk; try done.
  - by eapply SI_request.
  - apply Hfw, Hf, If.
  - rewrite map_size_insert_None by done. lia.
  - intros i c. rewrite lookup_insert. case_decide as Hi; intros; simplify_eq.
    + split_and!; [lia|done|]. destruct Hfw as [Hfw _]. destruct (Hfw _ Hdom) as (_ & _ & ->). rewrite Hrb. apply length_replicate.
    + destruct (Il i c) as (? & ? & <-); [done|]. split_and!; [lia|done|]. destruct Hfw as [Hfw _].
      destruct Hf as [Hf _]. pose proof (ai_live _ _ _ _ _ Ia i c ltac:(done)) as Hc. destruct (Hf _ Hc) as (Hc1 & _ & <-).
      by destruct (Hfw _ Hc1) as (_ & _ & ->).
  - intros i Hi. rewrite lookup_insert. case_decide; [done|]. intros Hn. apply Id; [lia|done].
  - intros i Hi. apply It. lia.
Qed.

Lemma fill_spec n : forall x w, export_inv (in_flight x) x w ->
  exists x' w', fill_requests n count sz (x, w) = Done (Ok tt, (x', w')) /\ export_inv (in_flight x') x' w' /\ same_files w w' /\
    (next_submit x <= next_submit x')%nat /\
    (in_flight x = ∅ -> (next_submit x < count)%nat -> (0 < n)%nat -> (next_submit x < next_submit x')%nat).
Proof.
  induction n as [|n IH]; intros x w I; cbn [fill_requests]; [exists x, w; split_and!; try done; lia|].
  case_decide as Hc; [|exists x, w; split_and!; try done; intros He Hn _; rewrite He in Hc; unfold MAX_FETCHES in Hc; rewrite map_size_empty in Hc; lia].
  destruct Hc as [_ Hc]. rewrite (has_stripe_static _ _ _ _ (ei_archive _ _ _ I)).
  destruct (has_stripe s0 (next_submit x)) eqn:Hh; cbn [negb].
  - pose proof (request_one x w I Hc Hh) as Hr. destruct (shared_buffer sz w) as [b w1].
    destruct Hr as (s' & w' & -> & [Hd Hf] & I'). cbn [mbind outcome_bind].
    destruct (IH (mkExport s' (S (next_submit x)) (written x) (<[next_submit x := b]> (in_flight x))) w' I') as (x2 & w2 & -> & I2 & [Hd2 Hf2] & Hle & _). cbn in Hle.
    exists x2, w2. split_and!; try done; [split; congruence|lia].
  - destruct (IH (mkExport (ex_source x) (S (next_submit x)) (S (written x)) (in_flight x)) w) as (x2 & w2 & -> & I2 & Hs & Hle & _).
    2: { cbn in Hle. exists x2, w2. split_and!; try done; lia. }
    destruct I as [Ia Is If In Iw Il Ie Id It]. constructor; cbn; try done; [lia| | |].
    + intros i b Hi. destruct (Il i b Hi) as (? & ? & ?). split_and!; [lia|done..].
    + intros i Hi Hn. destruct (decide (i = next_submit x)) as [->|]; [|apply Id; [lia|done]].
      unfold exported. rewrite Hh. apply It. lia.
    + intros i Hi. apply It. lia.
Qed.

(** A poll, and the completions to be written. *)
Lemma poll_spec x w : export_inv (in_flight x) x w ->
  exists rs s' w', ss_poll (ex_source x) w = Done (rs, s', w') /\ same_files w w' /\ NoDup rs.*1 /\
    (forall y, y ∈ rs -> reported Q (in_flight x) w' y) /\
    export_inv (forget (in_flight x) rs) (mkExport s' (next_submit x) (written x) (in_flight x)) w'.
Proof.
  intros [Ia Is If In Iw Il Ie Id It].
  destruct (archive_poll_inv s0 Ans Q Qzero Qfailed Qdata _ _ _ Ia (SI_answers _ Is)) as (rs & s' & w' & E & Hf & I' & Hr).
  exists rs, s', w'. destruct (archive_poll_same_files _ _ _ _ _ E) as [Hd1 Hf1].
  assert (disk_at w' target = disk_at w target) as Hdisk by (unfold disk_at; congruence).
  split_and!; try done.
  - pose proof (ss_poll_out _ _ _ _ _ E) as Hp. cbn [ss_outstanding archive_source_contract] in Hp. assert (NoDup (as_outstanding (ex_source x))) as Hn
      by (rewrite <- (ai_asked _ _ _ _ _ Ia); apply NoDup_fst_map_to_list). rewrite Hp in Hn. by apply NoDup_app in Hn as [? _].
  - constructor; cbn; try done; rewrite ?Hdisk; try done; [by eapply SI_poll|by apply Hf|].
    intros i b Hi. destruct (Il i b Hi) as (? & ? & <-). split_and!; try done. apply Hf. by apply (ai_live _ _ _ _ _ Ia i).
Qed.

(** The completions are written one after the other; only the file can fail. *)
Lemma write_spec rs : forall x w, NoDup rs.*1 -> (forall y, y ∈ rs -> reported Q (in_flight x) w y) ->
  export_inv (forget (in_flight x) rs) x w ->
  exists r x' w', write_completions target sz rs (x, w) = Done (r, (x', w')) /\
    ex_source x' = ex_source x /\ next_submit x' = next_submit x /\ (is_ok r = true -> export_inv (in_flight x') x' w') /\
    ((forall y, y ∈ rs -> y.2 = true) -> w_faults w = [] -> r = Ok tt /\ w_faults w' = []).
Proof.
  induction rs as [|[id ok] rs IH]; intros x w Hnd Hrep I; cbn [write_completions].
  { exists (Ok tt), x, w. by split_and!. }
  apply NoDup_cons in Hnd as [Hid Hnd]. destruct (Hrep (id, ok)) as (b & Hb & Hq); [by left|]. cbn [fst snd] in *.
  destruct ok; cbn [negb].
  2: { exists (Err ArchiveError), x, w. split_and!; try done. intros Hall _. pose proof (Hall (id, false)) as Hx. cbn in Hx. discriminate Hx. by left. }
  rewrite Hb. destruct (ei_flight _ _ _ I id b Hb) as (Hlt & Hh & Hlb). pose proof (ei_next _ _ _ I) as Hn.
  assert (wrap64 (Z.of_nat id * Z.of_nat sz) = Z.of_nat (id * sz)) as ->.
  { rewrite <- Nat2Z.inj_mul. unfold wrap64. apply Z.mod_small. pose proof (block_within id count sz ltac:(lia)). unfold I64_MAX in Hfits. lia. }
  unfold seek_write. rewrite (proj2 (Z.ltb_ge _ _)) by (pose proof (block_within id count sz ltac:(lia)); lia).
  rewrite Nat2Z.id. destruct (write_all_at target true (id * sz) (read_buf w b) w) as [wok w1] eqn:Ew.
  assert (stable w w1 /\ fresh_world w1 /\ (forall c, read_buf w1 c = read_buf w c) /\
    (wok = true -> disk_data (disk_at w1 target) = file_write (disk_data (disk_at w target)) (id * sz) (read_buf w b)) /\
    (w_faults w = [] -> wok = true /\ w_faults w1 = [])) as (Hst & Hfr & Hrd & Hdk & Hft).
  { apply write_completion_effect in Ew; [done|]. apply I. }
  destruct wok; cbn [io_result].
  2: { eexists _, _, _. split_and!; [done..| |]; [done|]. intros _ Hw. by destruct (Hft Hw). }
  edestruct (IH (mkExport (ex_source x) (next_submit x) (S (written x)) (delete id (in_flight x))) w1 Hnd) as (r & x' & w' & E & Hs & Hx & Hok & Hall).
  - intros y Hy. destruct (Hrep y) as (c & Hc & Hqy); [by right|]. exists c. rewrite Hrd. split; [|done]. cbn. rewrite lookup_delete_ne; [done|].
    intros ->. apply Hid. apply list_elem_of_fmap. by exists y.
  - cbn [in_flight]. rewrite forget_delete. destruct I as [Ia Is If In Iw Il Ie Id It].
    pose proof (fun j => block_write sz count id j _ _ Ie ltac:(lia) Hlb) as Hbw. specialize (Hdk eq_refl).
    constructor; cbn; rewrite ?Hdk; try done.
    + by apply (archive_inv_stable _ _ _ _ w).
    + rewrite map_size_delete_Some by done.
      assert (size (in_flight x) <> 0)%nat by (apply map_size_non_empty_iff; intros Hem; rewrite Hem in Hb; done). lia.
    + intros i c Hi. apply lookup_delete_Some in Hi as [_ Hi]. rewrite Hrd. by apply Il.
    + rewrite (proj1 (Hbw 0%nat)). done.
    + intros i Hi. rewrite (proj2 (Hbw i)). case_decide as Hii.
      * subst i. intros _. unfold exported. by rewrite Hh.
      * rewrite lookup_delete_ne by done. by apply Id.
    + intros i Hi. rewrite (proj2 (Hbw i)), decide_False by lia. by apply It.
  - exists r, x', w'. split; [exact E|]. split_and!; try done. intros Hy Hw. destruct (Hft Hw) as [_ Hw1]. apply Hall; [|done].
    intros y Hiy. apply Hy. by right.
Qed.

(** One round of the loop. *)
Lemma export_round fuel x w : export_inv (in_flight x) x w -> (written x < count)%nat ->
  exists x1 w1 rs s2 w2 r x3 w3,
    export_loop (S fuel) target count sz (x, w) =
      (match r with Ok _ => export_loop fuel target count sz (x3, w3) | Err e => Done (Err e, (x3, w3)) end) /\
    (is_ok r = true -> export_inv (in_flight x3) x3 w3) /\
    export_inv (in_flight x1) x1 w1 /\ ss_poll (ex_source x1) w1 = Done (rs, s2, w2) /\ ex_source x3 = s2 /\
    (next_submit x <= next_submit x3)%nat /\ (in_flight x = ∅ -> (next_submit x < next_submit x3)%nat) /\
    (forall y, y ∈ rs -> reported Q (in_flight x1) w2 y) /\
    ((forall y, y ∈ rs -> y.2 = true) -> w_faults w = [] -> r = Ok tt /\ w_faults w3 = []).
Proof.
  intros I Hw. destruct (fill_spec (count - next_submit x) x w I) as (x1 & w1 & E1 & I1 & [_ Hf1] & Hle & Hlt).
  destruct (poll_spec x1 w1 I1) as (rs & s2 & w2 & E2 & [_ Hf2] & Hnd & Hrep & I2).
  destruct (write_spec rs (mkExport s2 (next_submit x1) (written x1) (in_flight x1)) w2 Hnd Hrep I2) as (r & x3 & w3 & E3 & Hs3 & Hn3 & I3 & Hok). cbn [ex_source next_submit] in Hs3, Hn3.
  exists x1, w1, rs, s2, w2, r, x3, w3. split_and!; try done.
  - cbn [export_loop]. rewrite decide_False by lia. rewrite (eff_bind_ok _ _ _ _ _ E1). unfold poll_source.
    erewrite eff_bind_ok. 2: { rewrite E2. done. } destruct r as [[]|e].
    + by rewrite (eff_bind_ok _ _ _ _ _ E3).
    + by rewrite (eff_bind_err _ _ _ _ _ E3).
  - lia.
  - intros He. pose proof (ei_written _ _ _ I) as Hwr. rewrite He, map_size_empty in Hwr. rewrite Hn3. apply Hlt; [done|lia..].
  - intros Hall Hfl. apply Hok; [done|]. congruence.
Qed.

(** What the loop leaves when it ends well. *)
Definition image_ok (w : World) : Prop :=
  length (disk_data (disk_at w target)) = (count * sz)%nat /\
  forall i, (i < count)%nat -> exported i (block sz i (disk_data (disk_at w target))).

Lemma export_end x w : export_inv (in_flight x) x w -> (count <= written x)%nat -> image_ok w.
Proof.
  intros I Hw. pose proof (ei_next _ _ _ I). pose proof (ei_written _ _ _ I).
  assert (in_flight x = ∅) as He by (apply map_size_empty_inv; lia). split; [apply I|]. intros i Hi.
  apply (ei_done _ _ _ I); [lia|]. by rewrite He, lookup_empty.
Qed.

Lemma export_loop_sound fuel : forall x w, export_inv (in_flight x) x w ->
  match export_loop fuel target count sz (x, w) with
  | Done (Ok _, (_, w')) => image_ok w'
  | Done (Err _, _) => True
  | Panic p => p = OutOfFuel
  end.
Proof.
  induction fuel as [|fuel IH]; intros x w I.
  { cbn [export_loop]. case_decide; [|done]. by apply (export_end x). }
  destruct (decide (count <= written x)%nat) as [Hd|Hd]; [cbn [export_loop]; rewrite decide_True by done; by apply (export_end x)|].
  destruct (export_round fuel x w I) as (x1 & w1 & rs & s2 & w2 & r & x3 & w3 & -> & I3 & _); [lia|].
  destruct r as [u|e]; [|done]. apply IH. by apply I3.
Qed.

(** The loop starts from an empty file. *)
Lemma export_inv_start w : finished_requests s0 = [] -> pending_requests s0 = ∅ ->
  (forall id h, as_stripe_hashes s0 !! id = Some (Hash h) -> Forall is_u8 h) -> SI s0 -> fresh_world w ->
  disk_data (disk_at w target) = replicate (count * sz) 0 -> export_inv ∅ (mkExport s0 0 0 ∅) w.
Proof using Type Hfits.
  intros Hf Hp Hu Hs Hw Hd. constructor; cbn; rewrite ?Hd; try done.
  - by apply archive_inv_opened.
  - lia.
  - by rewrite length_replicate.
  - intros i Hi. lia.
  - intros i Hi. apply block_zeroes; lia.
Qed.

(** With a store that answers at once, no failed stripe and no failed write, the
    loop ends. *)
Lemma export_loop_total fuel : forall x w,
  (forall s w rs s' w', SI s -> ss_poll s w = Done (rs, s', w') -> as_outstanding s' = []) ->
  (forall i ok d, Q i ok d -> length d = sz -> ok = true) ->
  export_inv (in_flight x) x w -> in_flight x = ∅ -> w_faults w = [] -> (count - next_submit x <= fuel)%nat ->
  exists x' w', export_loop fuel target count sz (x, w) = Done (Ok tt, (x', w')) /\ image_ok w'.
Proof.
  induction fuel as [|fuel IH]; intros x w Hdrain Hgood I He Hfl Hfuel; pose proof (ei_written _ _ _ I) as Hwr;
    rewrite He, map_size_empty in Hwr.
  { cbn [export_loop]. rewrite decide_True by lia. exists x, w. split; [done|]. apply (export_end x); [done|lia]. }
  destruct (decide (count <= written x)%nat) as [Hd|Hd].
  { cbn [export_loop]. rewrite decide_True by done. exists x, w. split; [done|]. by apply (export_end x). }
  destruct (export_round fuel x w I) as (x1 & w1 & rs & s2 & w2 & r & x3 & w3 & -> & I3 & I1 & Ep & Hs3 & _ & Hlt & Hrep & Hok); [lia|].
  destruct Hok as [-> Hfl3]; [|done|].
  - intros y Hy. destruct (Hrep y Hy) as (b & Hb & Hq). apply (Hgood _ _ _ Hq).
    destruct (ei_flight _ _ _ I1 _ _ Hb) as (_ & _ & <-).
    destruct (archive_poll_inv s0 Ans Q Qzero Qfailed Qdata _ _ _ (ei_archive _ _ _ I1) (SI_answers _ (ei_store _ _ _ I1)))
      as (rs' & s' & w' & E' & Hf & _). rewrite Ep in E'. simplify_eq. apply Hf.
    by apply (ai_live _ _ _ _ _ (ei_archive _ _ _ I1) y.1).
  - specialize (I3 eq_refl). assert (in_flight x3 = ∅) as He3.
    { pose proof (ai_asked _ _ _ _ _ (ei_archive _ _ _ I3)) as Ha. rewrite Hs3, (Hdrain _ _ _ _ _ (ei_store _ _ _ I1) Ep) in Ha.
      apply Permutation_nil_r, fmap_nil_inv, map_to_list_empty_iff in Ha. done. }
    apply IH; try done. specialize (Hlt He). lia.
Qed.
End exporting.

(** ** The image *)

(** The number of stripes of the image. *)
Definition image_stripes {A} (s : ArchiveStripeSource A) : nat :=
  if decide (as_stripe_hashes s = ∅) then 0 else S (max_stripe_id s).
Definition stripe_bytes {A} (s : ArchiveStripeSource A) : nat := (Z.to_nat (as_stripe_sector_count s) * SECTOR_SIZE)%nat.

Lemma foldr_max_bound l : (forall i, i ∈ l -> i <= foldr Nat.max 0 l)%nat /\ (l <> [] -> foldr Nat.max 0%nat l ∈ l).
Proof.
  induction l as [|x l [IH1 IH2]]; [split; [intros i Hi; by apply not_elem_of_nil in Hi|done]|]. cbn. split.
  - intros i Hi. apply elem_of_cons in Hi as [->|Hi]; [lia|]. pose proof (IH1 i Hi). lia.
  - intros _. destruct (Nat.max_spec x (foldr Nat.max 0%nat l)) as [[Hlt ->]|[_ ->]]; [|by left].
    right. apply IH2. intros ->. cbn in Hlt. lia.
Qed.

(** The image ends with the last stripe of the mapping. *)
Lemma image_stripes_spec {A} (s : ArchiveStripeSource A) :
  max_stripe_id s = foldr Nat.max 0%nat (map_to_list (as_stripe_hashes s)).*1 ->
  (forall i, is_Some (as_stripe_hashes s !! i) -> (i < image_stripes s)%nat) /\
  (image_stripes s = 0%nat \/ is_Some (as_stripe_hashes s !! (image_stripes s - 1)%nat)).
Proof.
  intros Hm. unfold image_stripes. destruct (foldr_max_bound (map_to_list (as_stripe_hashes s)).*1) as [H1 H2].
  rewrite <- Hm in H1, H2. case_decide as He.
  - split; [|by left]. intros i. by rewrite He, lookup_empty, is_Some_alt.
  - split; [intros i Hi; apply elem_of_keys in Hi; pose proof (H1 i Hi); lia|]. right.
    replace (S (max_stripe_id s) - 1)%nat with (max_stripe_id s) by lia. apply elem_of_keys, H2. intros Hn.
    apply fmap_nil_inv, map_to_list_empty_iff in Hn. done.
Qed.

Section start.
Context `{Hashing} `{Codecs} `{XtsAes} {A : Type} `{ArchiveStore A}.
#[local] Set Default Proof Using "Type*".

(** The numbers [export_source] works with, and the empty file it starts from. *)
Lemma export_source_start fuel target (s : ArchiveStripeSource A) w :
  0 < as_stripe_sector_count s -> Z.of_nat (image_stripes s * stripe_bytes s) <= I64_MAX ->
  as_stripe_hashes s = ∅ /\ export_source fuel target s w = Done (create_file target w) \/
  as_stripe_hashes s <> ∅ /\ ((exists e w', export_source fuel target s w = Done (Err e, w') /\ w_faults w <> []) \/
    exists w0, export_source fuel target s w = ('(r, (_, w')) ← export_loop fuel target (image_stripes s) (stripe_bytes s) (mkExport s 0 0 ∅, w0);
                                               Done (r, w')) /\
      disk_data (disk_at w0 target) = replicate (image_stripes s * stripe_bytes s) 0 /\
      (fresh_world w -> fresh_world w0) /\ (w_faults w = [] -> w_faults w0 = [])).
Proof.
  intros Hs Hb. unfold export_source, ss_sector_count. cbn [archive_source]. unfold archive_sector_count, image_stripes, stripe_bytes in *.
  destruct (decide (as_stripe_hashes s = ∅)) as [He|He]; [by left|]. right. split; [done|].
  unfold I64_MAX, SECTOR_SIZE in Hb.
  assert (wrap64 (Z.of_nat (max_stripe_id s + 1) * as_stripe_sector_count s) = Z.of_nat (S (max_stripe_id s)) * as_stripe_sector_count s) as ->
    by (unfold wrap64; rewrite Z.mod_small; nia).
  set (n := S (max_stripe_id s)) in *. rewrite (proj2 (Z.eqb_neq _ 0)) by lia.
  assert (wrap64 (Z.of_nat n * as_stripe_sector_count s * Z.of_nat SECTOR_SIZE) = Z.of_nat (n * (Z.to_nat (as_stripe_sector_count s) * 512))) as ->
    by (unfold wrap64, SECTOR_SIZE; rewrite Z.mod_small; nia).
  assert (Z.to_nat (div_ceil (Z.of_nat n * as_stripe_sector_count s) (as_stripe_sector_count s)) = n) as ->
    by (unfold div_ceil; rewrite Z.mod_mul, Z.div_mul by lia; cbn; lia).
  assert (Z.to_nat (wrap64 (as_stripe_sector_count s * Z.of_nat SECTOR_SIZE)) = (Z.to_nat (as_stripe_sector_count s) * 512)%nat) as ->
    by (unfold wrap64, SECTOR_SIZE; rewrite Z.mod_small; nia).
  set (total := (n * (Z.to_nat (as_stripe_sector_count s) * 512))%nat) in *.
  unfold create_file, next_fault. destruct (w_faults w) as [|[f|] fs] eqn:Hw.
  2: { left. by do 2 eexists. }
  all: unfold set_len; rewrite (proj2 (Z.ltb_ge _ _)) by (unfold I64_MAX; lia).
  2: destruct fs as [|[f|] fs]; [|left; by do 2 eexists|].
  all: right; unfold next_fault; cbn [w_faults set_disks set_faults]; rewrite ?Hw; eexists; split_and!; [done| |done|done];
    unfold disk_at; cbn; rewrite !lookup_insert_eq; cbn; rewrite Nat2Z.id, Nat.sub_0_r, take_ge; [done|by rewrite length_replicate].
Qed.

(** An image that no file can hold is refused. *)
Lemma export_source_too_big fuel target (s : ArchiveStripeSource A) w : 0 < as_stripe_sector_count s ->
  I64_MAX < Z.of_nat (image_stripes s * stripe_bytes s) < 2 ^ 64 -> exists e w', export_source fuel target s w = Done (Err e, w').
Proof.
  intros Hs Hb. unfold export_source, ss_sector_count. cbn [archive_source]. unfold archive_sector_count, image_stripes, stripe_bytes in *.
  destruct (decide (as_stripe_hashes s = ∅)) as [He|He]; [cbn in Hb; unfold I64_MAX in Hb; lia|]. unfold I64_MAX, SECTOR_SIZE in Hb.
  assert (wrap64 (Z.of_nat (max_stripe_id s + 1) * as_stripe_sector_count s) = Z.of_nat (S (max_stripe_id s)) * as_stripe_sector_count s) as ->
    by (unfold wrap64; rewrite Z.mod_small; nia).
  set (n := S (max_stripe_id s)) in *. rewrite (proj2 (Z.eqb_neq _ 0)) by lia.
  assert (wrap64 (Z.of_nat n * as_stripe_sector_count s * Z.of_nat SECTOR_SIZE) = Z.of_nat (n * (Z.to_nat (as_stripe_sector_count s) * 512))) as ->
    by (unfold wrap64, SECTOR_SIZE; rewrite Z.mod_small; nia).
  destruct (create_file target w) as [[u|e] w1]; [|by do 2 eexists]. unfold set_len.
  rewrite (proj2 (Z.ltb_lt _ _)) by (unfold I64_MAX; lia). by do 2 eexists.
Qed.
End start.

(** *** No panics *)

Section returning.
Context `{Hashing} `{Codecs} `{XtsLaws} {A : Type} `{ArchiveStore A}.
#[local] Set Default Proof Using "Type*".
Implicit Types (s : ArchiveStripeSource A) (x : Export A) (w : World).

Lemma fill_requests_returns n count sz : forall x w, exists r y, fill_requests n count sz (x, w) = Done (r, y).
Proof.
  induction n as [|n IH]; intros x w; cbn [fill_requests]; [by do 2 eexists|]. case_decide; [|by do 2 eexists].
  destruct (negb _); [apply IH|]. destruct (shared_buffer sz w) as [b w1]. cbn [ss_request archive_source]. unfold archive_request.
  destruct (as_stripe_hashes _ !! _) as [[|h]|]; cbn [mbind outcome_bind]; apply IH.
Qed.

Lemma finish_pending_returns s stripes data h : forall st, exists st', finish_pending s stripes data h st = Done st'.
Proof.
  induction stripes as [|[id b] stripes IH]; intros st; cbn [finish_pending]; [by eexists|].
  destruct (finish_stripe_spec s id b data h st.2) as (r & w' & -> & _). cbn [mbind outcome_bind]. apply IH.
Qed.

Lemma completions_return cs : forall st : ArchiveStripeSource A * World, exists st', for_each archive_completion cs st = Done st'.
Proof.
  induction cs as [|[name r] cs IH]; intros st; cbn [for_each]; [by eexists|].
  assert (exists st1, archive_completion (name, r) st = Done st1) as [st1 ->]; [|apply IH].
  destruct st as [s w]. unfold archive_completion. destruct (pending_requests s !! name) as [p|]; [|by eexists].
  destruct r as [data|]; [|by eexists].
  destruct (finish_pending_returns s (pending_stripes p) data (expected_sha256 p) (finished_requests s, w)) as [[fin w'] ->].
  by eexists.
Qed.

Lemma write_completions_returns target sz cs : forall x w, exists r y, write_completions target sz cs (x, w) = Done (r, y).
Proof.
  induction cs as [|[id ok] cs IH]; intros x w; cbn [write_completions]; [by do 2 eexists|]. destruct (negb ok); [by do 2 eexists|].
  destruct (in_flight x !! id) as [b|]; [|apply IH]. destruct (seek_write _ _ _ _) as [[u|e] w1]; [apply IH|by do 2 eexists].
Qed.

Lemma export_loop_panics fuel target count sz : forall x w p, export_loop fuel target count sz (x, w) = Panic p -> p = OutOfFuel.
Proof.
  induction fuel as [|fuel IH]; intros x w p; cbn [export_loop]; case_decide; try done; [by intros [= <-]|].
  destruct (fill_requests_returns (count - next_submit x) count sz x w) as (r & [x1 w1] & E1).
  destruct r as [u|]; [rewrite (eff_bind_ok _ _ _ _ _ E1)|by rewrite (eff_bind_err _ _ _ _ _ E1)].
  assert (exists rs s2 w2, poll_source (x1, w1) = Done (Ok rs, (mkExport s2 (next_submit x1) (written x1) (in_flight x1), w2)))
    as (rs & s2 & w2 & E2).
  { unfold poll_source. cbn [ss_poll archive_source]. unfold archive_poll. destruct (poll_gets _) as [cs store].
    edestruct (completions_return cs) as [[s2 w2] E]. rewrite E. by do 3 eexists. }
  rewrite (eff_bind_ok _ _ _ _ _ E2). edestruct (write_completions_returns target sz rs) as (r & [x3 w3] & E3).
  destruct r; [rewrite (eff_bind_ok _ _ _ _ _ E3); apply IH|by rewrite (eff_bind_err _ _ _ _ _ E3)].
Qed.

Lemma export_source_panics fuel target s w p : export_source fuel target s w = Panic p -> p = OutOfFuel.
Proof.
  unfold export_source. case_match; [done|]. destruct (create_file target w) as [[u|] w1]; [|done].
  destruct (set_len _ _ _) as [[u'|] w2]; [|done]. destruct (export_loop _ _ _ _ _) as [[r [y w3]]|q] eqn:E; [done|].
  cbn [mbind outcome_bind]. intros [= <-]. by eapply export_loop_panics.
Qed.
End returning.

(** The image [data] is what the opened archive [s0] says: it ends with the last
    stripe of the mapping, and each stripe is authentic. *)
Definition authentic_image `{Hashing} `{Codecs} `{XtsAes} {A} `{ArchiveStore A} (s0 : ArchiveStripeSource A) (image : list Z) : Prop :=
  length image = (image_stripes s0 * stripe_bytes s0)%nat /\
  (forall i, has_stripe s0 i = true -> (i < image_stripes s0)%nat) /\
  (image_stripes s0 = 0%nat \/ has_stripe s0 (image_stripes s0 - 1) = true) /\
  forall i, (i < image_stripes s0)%nat -> exists d n, authentic s0 i d /\ block (stripe_bytes s0) i image = d ++ replicate n 0.

(** An exported image is authentic. *)
Lemma export_source_authentic `{Hashing} `{Codecs} `{XtsLaws} {A} `{ArchiveStore A} fuel target (s0 : ArchiveStripeSource A) w w' :
  finished_requests s0 = [] -> pending_requests s0 = ∅ ->
  max_stripe_id s0 = foldr Nat.max 0%nat (map_to_list (as_stripe_hashes s0)).*1 ->
  hashes_u8 (as_stripe_hashes s0) ->
  0 < as_stripe_sector_count s0 -> Z.of_nat (image_stripes s0 * stripe_bytes s0) <= I64_MAX -> fresh_world w ->
  export_source fuel target s0 w = Done (Ok tt, w') -> authentic_image s0 (disk_data (disk_at w' target)).
Proof.
  intros Hf Hp Hm Hu Hs Hb Hfr. destruct (image_stripes_spec s0 Hm) as [Hi Hl].
  intros E. enough (length (disk_data (disk_at w' target)) = (image_stripes s0 * stripe_bytes s0)%nat /\
    forall i, (i < image_stripes s0)%nat -> exists d n, authentic s0 i d /\
      block (stripe_bytes s0) i (disk_data (disk_at w' target)) = d ++ replicate n 0) as [? ?].
  { unfold authentic_image. split_and!; try done; cbn [has_stripe archive_source].
    - intros i Hh. by apply bool_decide_eq_true, Hi in Hh.
    - destruct Hl as [?|?]; [by left|]. right. by apply bool_decide_eq_true. }
  destruct (export_source_start fuel target s0 w Hs Hb) as [[He Es]|[_ [(e & w1 & Es & _)|(w0 & Es & Hd & Hw0 & _)]]];
    rewrite Es in E; [|done|].
  { unfold create_file in E. destruct (next_fault w) as [[f|] w1]; [done|]. simplify_eq. unfold image_stripes. rewrite decide_True by done.
    unfold disk_at. cbn. rewrite lookup_insert_eq. split; [done|]. intros i. lia. }
  pose proof (export_loop_sound s0 (fun _ _ => True) (promised s0) (promised_zero s0) (fun _ _ _ _ _ _ => ltac:(done))
    (fun id h data b w r w' Hh _ => finish_authentic s0 id h data b w r w' Hh) (fun _ => True)
    (fun _ _ _ _ => I) (fun _ _ _ _ _ _ _ _ _ _ _ => I) (fun _ _ _ _ _ _ _ => I) target (image_stripes s0) (stripe_bytes s0) Hb
    fuel (mkExport s0 0 0 ∅) w0) as Hloop.
  destruct (export_loop fuel target _ _ _) as [[r [x w1]]|p]; [|done]. cbn [mbind outcome_bind] in E. simplify_eq.
  destruct Hloop as [Hl' Hx]; [apply export_inv_start; auto|]. split; [done|]. intros i Hii.
  specialize (Hx i Hii). unfold exported in Hx. destruct (has_stripe s0 i) eqn:Hh; [by apply Hx|].
  exists [], (stripe_bytes s0). rewrite Hx. split; [|done]. unfold authentic. cbn in Hh. apply bool_decide_eq_false in Hh.
  destruct (as_stripe_hashes s0 !! i); [|done]. destruct Hh. by eexists.
Qed.


(** ** Archive and export *)

(** *** A store that answers at once *)

Section prompt.
Context `{Hashing} `{Codecs} `{XtsAes} {A : Type} `{PromptStore A}.
#[local] Set Default Proof Using "Type*".
Notation Source := (ArchiveStripeSource A).
Implicit Types (s : Source) (w : World).

(** Completions take requests from the table, and leave the store alone. *)
Lemma completions_pending cs : forall s w s' w', for_each archive_completion cs (s, w) = Done (s', w') ->
  as_store s' = as_store s /\
  forall k, is_Some (pending_requests s' !! k) -> is_Some (pending_requests s !! k) /\ k ∉ cs.*1.
Proof.
  induction cs as [|[name r] cs IH]; intros s w s' w' E; cbn [for_each] in E.
  { simplify_eq. split; [done|]. intros k Hk. split; [done|]. cbn. apply not_elem_of_nil. }
  destruct (archive_completion (name, r) (s, w)) as [[s1 w1]|] eqn:E1; [|done]. cbn [mbind outcome_bind] in E.
  destruct (IH _ _ _ _ E) as [Hs Hk]. clear IH E.
  assert (as_store s1 = as_store s /\ pending_requests s1 = delete name (pending_requests s)) as [Hs1 Hp1].
  { unfold archive_completion in E1. destruct (pending_requests s !! name) as [p|] eqn:Hp.
    2: { simplify_eq. split; [done|]. by rewrite delete_id. }
    destruct r; [|by simplify_eq]. destruct (finish_pending _ _ _ _ _) as [[fin w2]|]; [|done].
    cbn [mbind outcome_bind] in E1. by simplify_eq. }
  split; [congruence|]. intros k Hi. destruct (Hk k Hi) as [Hj Hn]. rewrite Hp1 in Hj. destruct Hj as [p Hj].
  apply lookup_delete_Some in Hj as [Hne Hj]. split; [by eexists|]. cbn. apply not_elem_of_cons. done.
Qed.

(** [C] are the objects of the store; every pending object is about to be
    reported. *)
Record serving (C : string -> option (list Z)) s : Prop := {
  sv_settled : settled (as_store s);
  sv_contents n : contents (as_store s) n = C n;
  sv_answers c : c ∈ answers (as_store s) -> exists d, c.2 = Ok d /\ C c.1 = Some d;
  sv_pending k : is_Some (pending_requests s !! k) -> k ∈ (answers (as_store s)).*1;
}.

Lemma serving_answers C s : serving C s -> forall c, c ∈ (poll_gets (as_store s)).1 -> exists d, c.2 = Ok d /\ C c.1 = Some d.
Proof. intros Sv c. destruct (store_poll _ (sv_settled _ _ Sv)) as (st & -> & _). apply Sv. Qed.

Lemma serving_poll C s w rs s' w' : serving C s -> ss_poll s w = Done (rs, s', w') ->
  serving C s' /\ as_outstanding s' = [].
Proof.
  intros Sv. destruct (store_poll _ (sv_settled _ _ Sv)) as (st & Ep & Hst & Ha & Hc). cbn. unfold archive_poll. rewrite Ep.
  destruct (for_each _ _ _) as [[s1 w1]|] eqn:E; [|done]. cbn [mbind outcome_bind]. intros. simplify_eq.
  destruct (completions_pending _ _ _ _ _ E) as [Hs Hk]. cbn in Hs.
  assert (pending_requests s1 = ∅) as Hp.
  { apply map_eq. intros k. rewrite lookup_empty. destruct (pending_requests s1 !! k) as [p|] eqn:Hp; [|done].
    destruct (Hk k) as [Hj Hn]; [by eexists|]. destruct Hn. by apply (sv_pending _ _ Sv). }
  split; [|unfold as_outstanding; cbn; by rewrite Hp]. constructor; cbn; rewrite ?Hs, ?Ha, ?Hp; try done.
  - intros n. rewrite Hc. apply Sv.
  - intros c Hin. by apply not_elem_of_nil in Hin.
  - intros k [p Hi]. by rewrite lookup_empty in Hi.
Qed.

Lemma serving_request C s id b w r s' w' : (forall h, as_stripe_hashes s !! id = Some (Hash h) -> is_Some (C (object_key h))) ->
  serving C s -> ss_request id b s w = Done (r, s', w') -> serving C s'.
Proof.
  intros Hobj Sv. cbn. unfold archive_request. destruct (as_stripe_hashes s !! id) as [[|h]|] eqn:Hh.
  1, 3: intros; simplify_eq; constructor; cbn; apply Sv.
  intros. simplify_eq. unfold start_fetch_stripe. destruct (pending_requests s !! object_key h) as [p|] eqn:Hp.
  - constructor; cbn; try apply Sv. intros k. rewrite lookup_insert. case_decide as Hk; [|apply Sv]. subst k. intros _.
    apply (sv_pending _ _ Sv). by eexists.
  - destruct (store_get (object_key h) _ (sv_settled _ _ Sv)) as (Hst & Hc & x & Ha & Hx). constructor; cbn.
    + done.
    + intros n. rewrite Hc. apply Sv.
    + intros c. rewrite Ha, elem_of_app. intros [Hin|Hin]; [by apply Sv|]. apply list_elem_of_singleton in Hin as ->. cbn.
      destruct (Hobj h eq_refl) as [d Hd]. exists d. split; [|done]. apply Hx. by rewrite (sv_contents _ _ Sv).
    + intros k. rewrite lookup_insert, Ha, fmap_app, elem_of_app. case_decide as Hk; [subst k; right; by left|].
      intros Hi. left. by apply Sv.
Qed.
End prompt.

Section archive_export.
Context `{HashingLaws} `{CodecLaws} `{XtsLaws} `{AeadLaws} {S A : Type} `{StripeSource S} `{PromptStore A}.
Context (m : UbiMetadata) (path : nat) (data sy : list Z) (cipher : option XtsBlockCipher) (kek : KeyEncryptionCipher)
  (hmac_key : list Z) (comp : ArchiveCompressionAlgorithm) (src : S) (n1 n2 : list Z)
  (random : option (list Z) * option (list Z)) (encrypt' readonly : bool) (bdev : SyncBlockDevice) (store : A) (w : World).
Context (Su : archive_setup m path data sy cipher kek hmac_key comp src n1 n2 random encrypt' readonly bdev store w).
Notation count := (length (stripe_headers m)).
Notation size := (Z.to_nat (stripe_size m)).
#[local] Set Default Proof Using "All".

(** A stripe as the guest sees it. *)
Definition guest_stripe (i : nat) : list Z := if archived m i then plain_stripe m data i else replicate size 0.

Notation Opened := (opens_to m data cipher kek hmac_key comp).
Definition fetched_as (i : nat) (ok : bool) (d : list Z) : Prop := length d = size -> ok = true /\ d = guest_stripe i.

Lemma opened_hash (s : ArchiveStripeSource A) i h : Opened s -> as_stripe_hashes s !! i = Some (Hash h) ->
  (i < count)%nat /\ has_object m data i /\ h = sha256_bytes (stripe_object m data cipher comp i) /\
  contents (as_store s) (object_key h) = Some (stripe_object m data cipher comp i).
Proof.
  intros Ot. rewrite (ot_hashes _ _ _ _ _ _ _ Ot). unfold content_upto. case_decide as Hi; [|done].
  destruct (archived m i) eqn:Ha; [|done]. destruct (is_zero_stripe _) eqn:Hz; [done|]. intros [= <-].
  split_and!; try done. by apply (cs_objects _ _ _ _ _ _ _ (ot_store _ _ _ _ _ _ _ Ot)).
Qed.

Lemma opened_zero (s : ArchiveStripeSource A) i n : Opened s ->
  (forall h, as_stripe_hashes s !! i <> Some (Hash h)) -> fetched_as i true (replicate n 0).
Proof.
  intros Ot Hh. unfold fetched_as. rewrite length_replicate. intros ->. split; [done|]. unfold guest_stripe. destruct (archived m i) eqn:Ha; [|done].
  assert (i < count)%nat as Hi.
  { unfold archived in Ha. destruct (stripe_headers m !! i) eqn:E; [|done]. by eapply lookup_lt_Some. }
  symmetry. eapply setup_zero; [exact Su|exact Ha|]. specialize (Hh (sha256_bytes (stripe_object m data cipher comp i))).
  rewrite (ot_hashes _ _ _ _ _ _ _ Ot) in Hh. unfold content_upto in Hh. rewrite decide_True, Ha in Hh by done.
  by destruct (is_zero_stripe _).
Qed.

Lemma opened_data (s : ArchiveStripeSource A) i h d b v r v' : Opened s -> as_stripe_hashes s !! i = Some (Hash h) ->
  contents (as_store s) (object_key h) = Some d -> finish_stripe_fetch s i b d h v = Done (r, v') -> fetched_as i (is_ok r) (read_buf v' b).
Proof.
  intros Ot Hh Hd E Hl. destruct (opened_hash s i h Ot Hh) as (Hi & [Ha _] & -> & Hobj). rewrite Hobj in Hd. injection Hd as <-.
  destruct (finish_stripe_spec s i b (stripe_object m data cipher comp i) (sha256_bytes (stripe_object m data cipher comp i)) v)
    as (r' & v1 & E' & _ & _ & Hlen). rewrite E in E'. simplify_eq.
  erewrite setup_finish in E; [|exact Su|done|done|congruence]. simplify_eq. rewrite read_write_buf_eq. unfold guest_stripe. by rewrite Ha.
Qed.

Lemma opened_hashes_u8 (s : ArchiveStripeSource A) i h : Opened s -> as_stripe_hashes s !! i = Some (Hash h) -> Forall is_u8 h.
Proof. intros Ot Hh. destruct (opened_hash s i h Ot Hh) as (_ & _ & -> & _). apply sha256_u8. Qed.

Lemma stripe_bytes_size (s : ArchiveStripeSource A) : Opened s -> stripe_bytes s = size /\ 0 < as_stripe_sector_count s.
Proof.
  intros Ot. destruct (stripe_sectors_bound m (su_wf _ _ _ _ _ _ _ _ _ _ _ _ _ _ _ _ _ Su)) as (Hb & _ & Es).
  unfold stripe_bytes. rewrite (ot_sectors _ _ _ _ _ _ _ Ot), Es. unfold SECTOR_SIZE. split; lia.
Qed.

(** The image ends with the last stripe that has data. *)
Lemma opened_image (s : ArchiveStripeSource A) : Opened s -> (image_stripes s <= count)%nat /\
  (forall i, archived m i = true -> (i < image_stripes s)%nat) /\
  (image_stripes s = 0%nat \/ archived m (image_stripes s - 1) = true).
Proof.
  intros Ot. destruct (image_stripes_spec s (ot_max _ _ _ _ _ _ _ Ot)) as [H1' H2'].
  assert (forall i, is_Some (as_stripe_hashes s !! i) <-> archived m i = true) as Hi.
  { intros i. rewrite (ot_hashes _ _ _ _ _ _ _ Ot). unfold content_upto. case_decide as Hlt.
    - destruct (archived m i); [split; [done|by eexists]|split; [by intros []|done]].
    - unfold archived. rewrite lookup_ge_None_2 by lia. split; [by intros []|done]. }
  split_and!.
  - destruct H2' as [->|Hs]; [lia|]. apply Hi in Hs. unfold archived in Hs.
    destruct (stripe_headers m !! _) eqn:E; [|done]. apply lookup_lt_Some in E. lia.
  - intros i Ha. by apply H1', Hi.
  - destruct H2' as [->|Hs]; [by left|]. right. by apply Hi.
Qed.

Lemma export_opened fuel target (s : ArchiveStripeSource A) v : Opened s -> fresh_world v -> w_faults v = [] ->
  (image_stripes s <= fuel)%nat -> Z.of_nat (image_stripes s * size) <= I64_MAX ->
  exists v', export_source fuel target s v = Done (Ok tt, v') /\
    length (disk_data (disk_at v' target)) = (image_stripes s * size)%nat /\
    forall i, (i < image_stripes s)%nat -> block size i (disk_data (disk_at v' target)) = guest_stripe i.
Proof.
  intros Ot Hfr Hfl Hfuel Hb. destruct (stripe_bytes_size s Ot) as [Hsz Hpos].
  pose proof (export_source_start fuel target s v Hpos) as Hst. rewrite Hsz in Hst. specialize (Hst Hb).
  destruct Hst as [[He ->]|[_ [(e & w' & _ & Hn)|(v0 & -> & Hd & Hw0 & Hf0)]]]; [|done|].
  { unfold create_file, next_fault. rewrite Hfl. eexists; split; [done|]. unfold image_stripes. rewrite decide_True by done.
    unfold disk_at. cbn. rewrite lookup_insert_eq. split; [done|]. intros i. lia. }
  set (C := contents (as_store s)).
  assert (serving C s) as Sv.
  { destruct (cs_quiet _ _ _ _ _ _ _ (ot_store _ _ _ _ _ _ _ Ot)) as [Hs Ha]. constructor; try done; rewrite ?Ha.
    - intros c Hc. by apply not_elem_of_nil in Hc.
    - rewrite (ot_pending _ _ _ _ _ _ _ Ot). intros k [p Hp]. by rewrite lookup_empty in Hp. }
  edestruct (export_loop_total s (fun k r => exists d, r = Ok d /\ C k = Some d) fetched_as
    (fun i n => opened_zero s i n Ot)) with (SI := serving C) (target := target) (count := image_stripes s) (sz := size)
    (fuel := fuel) (x := mkExport s 0 0 (∅ : gmap nat nat)) (w := v0) as (x' & v' & E & Hl & Hx).
  - by intros i h e d _ (? & ? & _).
  - intros i h d b u r u' Hh (d' & [= <-] & Hc). by apply opened_data.
  - apply serving_answers.
  - intros s1 asked i b u r s2 u' Sv1 I E. eapply serving_request; [|exact Sv1|exact E]. intros h.
    assert (as_stripe_hashes s1 = as_stripe_hashes s) as -> by (by rewrite (ai_static _ _ _ _ _ I)). intros Hh.
    destruct (opened_hash s i h Ot Hh) as (_ & _ & _ & Hc). unfold C. by rewrite Hc.
  - intros s1 u rs s2 u' Sv1 E. by apply (serving_poll _ _ _ _ _ _ Sv1 E).
  - done.
  - intros s1 u rs s2 u' Sv1 E. by apply (serving_poll _ _ _ _ _ _ Sv1 E).
  - intros i ok d Hq Hl. by apply Hq.
  - apply export_inv_start; try done; try apply Ot; [|by apply Hw0]. intros i h. by apply opened_hashes_u8.
  - done.
  - by apply Hf0.
  - cbn. lia.
  - rewrite E. cbn [mbind outcome_bind]. exists v'. split; [done|]. split; [done|]. intros i Hi. specialize (Hx i Hi). unfold exported in Hx.
    destruct (has_stripe s i) eqn:Hh.
    + apply Hx. unfold block. rewrite length_take, length_drop, Hl. pose proof (block_within i _ size Hi). lia.
    + rewrite Hx. unfold guest_stripe. destruct (archived m i) eqn:Ha; [|done]. cbn in Hh. apply bool_decide_eq_false in Hh.
      destruct Hh. rewrite (ot_hashes _ _ _ _ _ _ _ Ot). unfold content_upto. rewrite Ha, decide_True; [by eexists|].
      pose proof (opened_image s Ot). lia.
Qed.

(** C16: archiving a device and exporting the archive is the identity on what the
    guest sees, under [archive_setup], the conditions of the archive round trip
    (stripes with data are local and lie wholly inside the device, a file read
    without faults, a store that answers at once, encoders that succeed and no
    collision of SHA-256 on the uploaded objects), and if the stripes of the
    device fit a file.  Then archiving ends without an error, and exporting the
    archive to any file, without faults, ends without an error and leaves in it
    exactly the stripes of the device, zeroes for stripes without data, up to the
    last stripe that has data. *)
Theorem archive_export_roundtrip concurrency fuel rounds : (0 < concurrency)%nat -> (count <= fuel)%nat -> (0 < rounds)%nat ->
  Z.of_nat (count * size) <= I64_MAX ->
  exists a w1 a' w' n,
    archiver_new random (Some hmac_key) src bdev m store encrypt' comp kek concurrency w = Done (Ok a, w1) /\
    archive_all fuel rounds n1 n2 (a, w1) = Done (Ok tt, (a', w')) /\
    (n <= count)%nat /\ (forall i, archived m i = true -> (i < n)%nat) /\ (n = 0%nat \/ archived m (n - 1) = true) /\
    forall target v, fresh_world v -> w_faults v = [] ->
      exists v', export_archive rounds fuel (ar_store a') kek target v = Done (Ok tt, v') /\
        length (disk_data (disk_at v' target)) = (n * size)%nat /\
        forall i, (i < n)%nat -> block size i (disk_data (disk_at v' target)) = guest_stripe i.
Proof.
  intros Hc Hf Hr Hb. destruct (setup_archived _ _ _ _ _ _ _ _ _ _ _ _ _ _ _ _ _ Su concurrency fuel rounds Hc Hf Hr)
    as (a & w1 & a' & w' & s & E1 & E2 & E3 & Ot). destruct (opened_image s Ot) as (Hn & Ha & Hl).
  exists a, w1, a', w', (image_stripes s). split_and!; try done. intros target v Hfr Hfl. unfold export_archive. rewrite E3.
  cbn [mbind outcome_bind]. apply export_opened; [done|done|done|lia|nia].
Qed.
End archive_export.

(** *** The concrete archives of the two files before *)

Section demo.
#[local] Existing Instances toy_codecs toy_hash toy_xts toy_aead.

Example demo_exports :
  match export_archive 1 3 (new_with_objects demo_objects) no_kek 9 demo_buffers with
  | Done (r, w') => r = Ok tt /\ disk_data (disk_at w' 9) = replicate 512 7 ++ replicate 1024 0
  | Panic _ => False
  end.
Proof. vm_compute. split; reflexivity. Qed.


Lemma archive_export_roundtrip_witness :
  let m := arch_metadata in
  exists a w1 a' w' n,
    archiver_new (A := MemStore) (Some (replicate 32 3), Some (replicate 32 4)) (Some (replicate 32 5)) arch_source
      (mkSyncDev 5 4 true) m mem_new true (Zstd 3) arch_kek 2 arch_world = Done (Ok a, w1) /\
    archive_all 4 1 (replicate 12 6) (replicate 12 7) (a, w1) = Done (Ok tt, (a', w')) /\
    (n <= length (stripe_headers m))%nat /\ (forall i, archived m i = true -> (i < n)%nat) /\
    (n = 0%nat \/ archived m (n - 1) = true) /\
    forall target v, fresh_world v -> w_faults v = [] ->
      exists v', export_archive 1 4 (ar_store a') arch_kek target v = Done (Ok tt, v') /\
        length (disk_data (disk_at v' target)) = (n * Z.to_nat (stripe_size m))%nat /\
        forall i, (i < n)%nat -> block (Z.to_nat (stripe_size m)) i (disk_data (disk_at v' target)) = guest_stripe m arch_data i.
Proof.
  apply (@archive_export_roundtrip _ toy_hash_laws _ toy_codec_laws _ toy_xts_laws _ toy_aead_laws _ _ _ _ mem_prompt
    _ _ _ _ _ _ _ _ _ _ _ _ _ _ _ _ _ arch_setup); [lia|cbn; lia|lia|vm_compute; congruence].
Defined.
End demo.
