(* ===== verification/S3.v ===== *)
(** * S3: the object store behind worker threads

    Models src/src/archive/s3_store.rs and s3_store/s3_store_workers.rs: the
    store hands requests to worker threads over a channel and collects their
    answers over another.  The S3 service and its client are a parameter.  The
    main theorem takes any interleaving of calls and worker steps: every request
    is carried out once, under its own key, and answered once with the answer
    the service gave; and none is lost while a worker is alive.

    Log messages and the text of errors are left out; a call of the client is
    assumed to return. *)
From S2P Require Import Prelude Metadata SharedState World Device StripeSource Crypt Secrets Config ArchiveFormat.
#[local] Open Scope Z_scope.

Inductive S3Request :=
| PutRequest (name key : string) (data : list Z)
| GetRequest (name key : string).

#[global] Instance S3Request_eq_dec : EqDecision S3Request.
Proof. solve_decision. Defined.

Inductive S3Result :=
| PutResult (name : string) (r : result unit)
| GetResult (name : string) (r : result (list Z)).

(** The service, for a fixed bucket. *)
Class S3Client (V : Type) := {
  upload_object : string -> list Z -> V -> result unit * V;
  fetch_object : string -> V -> result (list Z) * V;
}.

(** A worker before its runtime is built, waiting for a request, at work, and
    after its thread has ended. *)
Inductive S3Worker := Starting | Waiting | Working (r : S3Request) | Ended.

#[global] Instance S3Worker_eq_dec : EqDecision S3Worker.
Proof. solve_decision. Defined.

Record S3Store (V : Type) := mkS3Store {
  s3_prefix : option string;
  request_tx : bool;                      (* [Some], until the store is dropped *)
  s3_requests : list S3Request;           (* the channel to the workers *)
  s3_results : list S3Result;             (* the channel back *)
  s3_finished_puts : list (string * result unit);
  s3_finished_gets : list (string * result (list Z));
  s3_workers : list S3Worker;
  s3_service : V;
}.
Arguments mkS3Store {V}.
Arguments s3_prefix {V}.
Arguments request_tx {V}.
Arguments s3_requests {V}.
Arguments s3_results {V}.
Arguments s3_finished_puts {V}.
Arguments s3_finished_gets {V}.
Arguments s3_workers {V}.
Arguments s3_service {V}.

(** [str::trim_matches('/')]. *)
Fixpoint drop_slashes (l : list Ascii.ascii) : list Ascii.ascii :=
  match l with
  | c :: l' => if decide (c = slash) then drop_slashes l' else l
  | [] => []
  end.
Definition trim_slashes (p : string) : list Ascii.ascii := reverse (drop_slashes (reverse (drop_slashes (chars p)))).

Definition normalized_prefix (prefix : option string) : option string :=
  match prefix with
  | None => None
  | Some p => match trim_slashes p with [] => None | l => Some (of_chars (l ++ [slash])) end
  end.

Definition key_with_prefix (prefix : option string) (name : string) : string :=
  match prefix with Some p => (p +:+ name)%string | None => name end.

(** The number of threads is clamped. *)
Definition clamp_workers (worker_threads : nat) : nat :=
  let n := if decide (worker_threads < 1)%nat then 1%nat else worker_threads in
  if decide (128 < n)%nat then 128%nat else n.

Section store.
Context {V : Type} `{S3Client V}.

(** [spawn i] is the result of creating the [i]-th thread. *)
Definition spawn_workers (spawn : nat -> result unit) (worker_threads : nat) : result (list S3Worker) :=
  let n := clamp_workers worker_threads in
  _ ← foldr (fun i r => _ ← spawn i; r) (Ok tt) (seq 0 n);
  Ok (replicate n Starting).

Definition s3_new (spawn : nat -> result unit) (service : V) (prefix : option string) (worker_threads : nat)
  : result (S3Store V) :=
  workers ← spawn_workers spawn worker_threads;
  Ok (mkS3Store (normalized_prefix prefix) true [] [] [] [] workers service).

Definition s3_set (s : S3Store V) requests results puts gets workers service : S3Store V :=
  mkS3Store (s3_prefix s) (request_tx s) requests results puts gets workers service.

(** *** The calls of the owner *)

Definition is_ended (wk : S3Worker) : bool := match wk with Ended => true | _ => false end.

(** [Sender::send] fails when every receiver is gone; the workers hold them. *)
Definition s3_send (s : S3Store V) : bool := request_tx s && negb (forallb is_ended (s3_workers s)).

Definition s3_start_put (name : string) (data : list Z) (s : S3Store V) : S3Store V :=
  let key := key_with_prefix (s3_prefix s) name in
  if s3_send s then
    s3_set s (s3_requests s ++ [PutRequest name key data]) (s3_results s) (s3_finished_puts s) (s3_finished_gets s)
      (s3_workers s) (s3_service s)
  else s3_set s (s3_requests s) (s3_results s) (s3_finished_puts s ++ [(name, Err ArchiveError)]) (s3_finished_gets s)
         (s3_workers s) (s3_service s).

Definition s3_start_get (name : string) (s : S3Store V) : S3Store V :=
  let key := key_with_prefix (s3_prefix s) name in
  if s3_send s then
    s3_set s (s3_requests s ++ [GetRequest name key]) (s3_results s) (s3_finished_puts s) (s3_finished_gets s)
      (s3_workers s) (s3_service s)
  else s3_set s (s3_requests s) (s3_results s) (s3_finished_puts s) (s3_finished_gets s ++ [(name, Err ArchiveError)])
         (s3_workers s) (s3_service s).

Fixpoint sort_results (results : list S3Result) (puts : list (string * result unit)) (gets : list (string * result (list Z)))
  : list (string * result unit) * list (string * result (list Z)) :=
  match results with
  | [] => (puts, gets)
  | PutResult name r :: results => sort_results results (puts ++ [(name, r)]) gets
  | GetResult name r :: results => sort_results results puts (gets ++ [(name, r)])
  end.

Definition drain_results (s : S3Store V) : S3Store V :=
  let '(puts, gets) := sort_results (s3_results s) (s3_finished_puts s) (s3_finished_gets s) in
  s3_set s (s3_requests s) [] puts gets (s3_workers s) (s3_service s).

Definition s3_poll_puts (s : S3Store V) : list (string * result unit) * S3Store V :=
  let s := drain_results s in
  (s3_finished_puts s, s3_set s (s3_requests s) (s3_results s) [] (s3_finished_gets s) (s3_workers s) (s3_service s)).

Definition s3_poll_gets (s : S3Store V) : list (string * result (list Z)) * S3Store V :=
  let s := drain_results s in
  (s3_finished_gets s, s3_set s (s3_requests s) (s3_results s) (s3_finished_puts s) [] (s3_workers s) (s3_service s)).

#[global] Instance s3_store : ArchiveStore (S3Store V) := {
  start_put_object := s3_start_put;
  start_get_object := s3_start_get;
  poll_puts := s3_poll_puts;
  poll_gets := s3_poll_gets;
}.

(** [Drop] begins by dropping the sender; it then waits for the workers. *)
Definition drop_sender (s : S3Store V) : S3Store V :=
  mkS3Store (s3_prefix s) false (s3_requests s) (s3_results s) (s3_finished_puts s) (s3_finished_gets s) (s3_workers s)
    (s3_service s).

(** *** The workers *)

Definition process_request (r : S3Request) (v : V) : S3Result * V :=
  match r with
  | PutRequest name key data => let '(x, v) := upload_object key data v in (PutResult name x, v)
  | GetRequest name key => let '(x, v) := fetch_object key v in (GetResult name x, v)
  end.

(** When the last receiver goes, the channel discards its messages. *)
Definition end_worker (i : nat) (s : S3Store V) : S3Store V :=
  let workers := <[i := Ended]> (s3_workers s) in
  s3_set s (if forallb is_ended workers then [] else s3_requests s) (s3_results s) (s3_finished_puts s)
    (s3_finished_gets s) workers (s3_service s).

(** One step of [run_worker_loop] in worker [i]; [built] says whether the
    worker's runtime could be built. *)
Definition s3_worker_step (i : nat) (built : bool) (s : S3Store V) : S3Store V :=
  let set requests results workers service :=
    s3_set s requests results (s3_finished_puts s) (s3_finished_gets s) workers service in
  match s3_workers s !! i with
  | Some Starting =>
      if built then set (s3_requests s) (s3_results s) (<[i := Waiting]> (s3_workers s)) (s3_service s)
      else end_worker i s
  | Some Waiting =>
      match s3_requests s with
      | r :: requests => set requests (s3_results s) (<[i := Working r]> (s3_workers s)) (s3_service s)
      | [] => if request_tx s then s else end_worker i s
      end
  | Some (Working r) =>
      let '(x, v) := process_request r (s3_service s) in
      set (s3_requests s) (s3_results s ++ [x]) (<[i := Waiting]> (s3_workers s)) v
  | Some Ended | None => s
  end.
End store.

(** ** Runs *)

(** What has happened: requests asked for; requests carried out, with the
    answers, in order; requests refused at once; requests thrown away; answers
    that a poll returned. *)
Record history := mkHistory {
  h_asked : list S3Request;
  h_log : list (S3Request * S3Result);
  h_refused : list S3Request;
  h_lost : list S3Request;
  h_reported : list S3Result;
}.

Definition refusal (r : S3Request) : S3Result :=
  match r with
  | PutRequest name _ _ => PutResult name (Err ArchiveError)
  | GetRequest name _ => GetResult name (Err ArchiveError)
  end.

Definition put_results : list (string * result unit) -> list S3Result := map (fun '(n, r) => PutResult n r).
Definition get_results : list (string * result (list Z)) -> list S3Result := map (fun '(n, r) => GetResult n r).

Section runs.
Context {V : Type} `{S3Client V}.
Notation Store := (S3Store V).

Definition ask (r : S3Request) (s : Store) (h : history) : history :=
  if s3_send s then mkHistory (h_asked h ++ [r]) (h_log h) (h_refused h) (h_lost h) (h_reported h)
  else mkHistory (h_asked h ++ [r]) (h_log h) (h_refused h ++ [r]) (h_lost h) (h_reported h).
Definition reporting (rs : list S3Result) (h : history) : history :=
  mkHistory (h_asked h) (h_log h) (h_refused h) (h_lost h) (h_reported h ++ rs).
Definition carried_out (i : nat) (s : Store) : list (S3Request * S3Result) :=
  match s3_workers s !! i with Some (Working r) => [(r, (process_request r (s3_service s)).1)] | _ => [] end.
Definition thrown_away (s s' : Store) : list S3Request := if forallb is_ended (s3_workers s') then s3_requests s else [].

Inductive s3_step : history * Store -> history * Store -> Prop :=
| StepPut h s name data :
    s3_step (h, s) (ask (PutRequest name (key_with_prefix (s3_prefix s) name) data) s h, start_put_object name data s)
| StepGet h s name :
    s3_step (h, s) (ask (GetRequest name (key_with_prefix (s3_prefix s) name)) s h, start_get_object name s)
| StepPollPuts h s rs s' : poll_puts s = (rs, s') -> s3_step (h, s) (reporting (put_results rs) h, s')
| StepPollGets h s rs s' : poll_gets s = (rs, s') -> s3_step (h, s) (reporting (get_results rs) h, s')
| StepDrop h s : s3_step (h, s) (h, drop_sender s)
| StepWorker h s i built : let s' := s3_worker_step i built s in
    s3_step (h, s) (mkHistory (h_asked h) (h_log h ++ carried_out i s) (h_refused h) (h_lost h ++ thrown_away s s') (h_reported h), s').

(** The answers of the log are those of the service, asked in that order. *)
Fixpoint replay (v : V) (log : list (S3Request * S3Result)) (v' : V) : Prop :=
  match log with
  | [] => v' = v
  | (r, x) :: log => x = (process_request r v).1 /\ replay (process_request r v).2 log v'
  end.

Lemma replay_snoc log r : forall v v', replay v log v' ->
  replay v (log ++ [(r, (process_request r v').1)]) (process_request r v').2.
Proof. induction log as [|[r0 x] log IH]; intros v v'; cbn; [by intros ->|]. intros [-> Hr]. split; [done|]. by apply IH. Qed.

(** The key of a request is its name under the store's prefix. *)
Definition keyed (prefix : option string) (r : S3Request) : Prop :=
  match r with
  | PutRequest name key _ => key = key_with_prefix prefix name
  | GetRequest name key => key = key_with_prefix prefix name
  end.

(** Requests in the hands of workers. *)
Definition in_hand (workers : list S3Worker) : list S3Request :=
  omap (fun wk => match wk with Working r => Some r | _ => None end) workers.

Definition unreported (s : Store) : list S3Result :=
  s3_results s ++ put_results (s3_finished_puts s) ++ get_results (s3_finished_gets s).

Record s3_inv (v0 : V) (h : history) (s : Store) : Prop := {
  si_asked : h_asked h ≡ₚ (h_log h).*1 ++ h_refused h ++ h_lost h ++ in_hand (s3_workers s) ++ s3_requests s;
  si_answers : h_reported h ++ unreported s ≡ₚ (h_log h).*2 ++ (refusal <$> h_refused h);
  si_service : replay v0 (h_log h) (s3_service s);
  si_keyed : Forall (keyed (s3_prefix s)) (h_asked h);
  si_lost : h_lost h <> [] -> forallb is_ended (s3_workers s) = true;
  si_refused : h_refused h <> [] -> s3_send s = false;
  si_ended : forallb is_ended (s3_workers s) = true -> s3_requests s = [];
}.

Lemma in_hand_insert workers i wk wk' : workers !! i = Some wk ->
  in_hand (<[i := wk']> workers) ++ in_hand [wk] ≡ₚ in_hand workers ++ in_hand [wk'].
Proof.
  revert i. induction workers as [|w0 workers IH]; intros i Hi; [done|]. destruct i as [|i]; cbn in Hi.
  - injection Hi as ->. unfold in_hand. cbn. destruct wk, wk'; solve_Permutation.
  - specialize (IH i Hi). unfold in_hand in *. cbn in *. destruct w0; cbn; rewrite IH; done.
Qed.

Lemma put_results_app a b : put_results (a ++ b) = put_results a ++ put_results b.
Proof. apply map_app. Qed.
Lemma get_results_app a b : get_results (a ++ b) = get_results a ++ get_results b.
Proof. apply map_app. Qed.

Lemma sort_results_spec rs : forall puts gets puts' gets', sort_results rs puts gets = (puts', gets') ->
  put_results puts' ++ get_results gets' ≡ₚ rs ++ put_results puts ++ get_results gets.
Proof.
  induction rs as [|[n r|n r] rs IH]; intros puts gets puts' gets' E; cbn in E; [by simplify_eq|..];
    rewrite (IH _ _ _ _ E), ?put_results_app, ?get_results_app; cbn; solve_Permutation.
Qed.

Lemma ended_insert workers i wk : workers !! i = Some wk -> is_ended wk = false -> forallb is_ended workers = false.
Proof.
  intros Hi Hw. apply not_true_is_false. intros Ha. rewrite forallb_forall in Ha. rewrite (Ha wk) in Hw; [done|].
  apply list_elem_of_In. by eapply list_elem_of_lookup_2.
Qed.

(** Ends are final. *)
Lemma ended_stays i built (s : Store) : forallb is_ended (s3_workers s) = true -> s3_worker_step i built s = s.
Proof.
  intros Ha. unfold s3_worker_step. destruct (s3_workers s !! i) as [wk|] eqn:Hi; [|done].
  destruct wk; try done; by rewrite (ended_insert _ _ _ Hi) in Ha.
Qed.

Lemma thrown_none (s s' : Store) i wk : s3_workers s' !! i = Some wk -> is_ended wk = false -> thrown_away s s' = [].
Proof. intros Hi Hw. unfold thrown_away. by rewrite (ended_insert _ _ _ Hi Hw). Qed.

(** A worker without a request ends. *)
Lemma end_worker_inv v0 h (s : Store) i wk : s3_inv v0 h s -> s3_workers s !! i = Some wk -> in_hand [wk] = [] ->
  is_ended wk = false ->
  s3_inv v0 (mkHistory (h_asked h) (h_log h) (h_refused h) (h_lost h ++ thrown_away s (end_worker i s)) (h_reported h)) (end_worker i s).
Proof.
  intros [I1 I2 I3 I4 I5 I6 I7] Hi Hh Hw. pose proof (in_hand_insert _ i _ Ended Hi) as Hp. rewrite Hh in Hp. change (in_hand [Ended]) with (@nil S3Request) in Hp.
  rewrite !app_nil_r in Hp. unfold thrown_away, end_worker. cbn [s3_workers s3_set].
  destruct (forallb is_ended (<[i := Ended]> (s3_workers s))) eqn:Hall; constructor; cbn [h_asked h_log h_refused h_lost h_reported s3_workers
    s3_requests s3_set s3_service s3_prefix]; try done.
  - rewrite I1, Hp, app_nil_r. solve_Permutation.
  - intros Hr. specialize (I6 Hr). unfold s3_send in *. cbn. rewrite Hall. by rewrite andb_false_r.
  - by rewrite I1, Hp, app_nil_r.
  - rewrite app_nil_r. intros Hl. specialize (I5 Hl). by rewrite (ended_insert _ _ _ Hi Hw) in I5.
  - intros Hr. specialize (I6 Hr). unfold s3_send in *. cbn. rewrite (ended_insert _ _ _ Hi Hw) in I6. by destruct (request_tx s).
  - congruence.
Qed.

(** A live worker moves on; the others and the sender stay. *)
Lemma live_worker_inv v0 h (s s' : Store) i wk wk' log :
  s3_inv v0 h s -> s3_workers s !! i = Some wk -> is_ended wk = false -> is_ended wk' = false ->
  s3_workers s' = <[i := wk']> (s3_workers s) -> request_tx s' = request_tx s -> s3_prefix s' = s3_prefix s ->
  log.*1 ++ in_hand [wk'] ++ s3_requests s' ≡ₚ in_hand [wk] ++ s3_requests s ->
  unreported s' ≡ₚ log.*2 ++ unreported s -> replay v0 (h_log h ++ log) (s3_service s') ->
  s3_inv v0 (mkHistory (h_asked h) (h_log h ++ log) (h_refused h) (h_lost h ++ thrown_away s s') (h_reported h)) s'.
Proof.
  intros [I1 I2 I3 I4 I5 I6 I7] Hi Hw Hw' Hws Htx Hpre Hreq Hans Hrep.
  assert (s3_workers s' !! i = Some wk') as Hi' by (rewrite Hws, list_lookup_insert_eq; [done|by eapply lookup_lt_Some]).
  rewrite (thrown_none s s' i wk' Hi' Hw'), app_nil_r.
  pose proof (in_hand_insert _ i _ wk' Hi) as Hp. rewrite <- Hws in Hp.
  constructor; cbn [h_asked h_log h_refused h_lost h_reported]; rewrite ?Hpre; try done.
  - rewrite I1, fmap_app, <- !app_assoc. apply Permutation_app_head.
    transitivity (h_refused h ++ h_lost h ++ log.*1 ++ in_hand (s3_workers s') ++ s3_requests s'); [|solve_Permutation].
    do 2 apply Permutation_app_head. apply (Permutation_app_inv_r (in_hand [wk])).
    transitivity (in_hand (s3_workers s) ++ (in_hand [wk] ++ s3_requests s)); [solve_Permutation|]. rewrite <- Hreq.
    transitivity (log.*1 ++ (in_hand (s3_workers s) ++ in_hand [wk']) ++ s3_requests s'); [solve_Permutation|]. rewrite <- Hp.
    solve_Permutation.
  - rewrite Hans, fmap_app. transitivity (log.*2 ++ (h_reported h ++ unreported s)); [solve_Permutation|]. rewrite I2. solve_Permutation.
  - intros Hl. specialize (I5 Hl). by rewrite (ended_insert _ _ _ Hi Hw) in I5.
  - intros Hr. specialize (I6 Hr). unfold s3_send in *. rewrite Htx, (ended_insert _ _ _ Hi' Hw'), (ended_insert _ _ _ Hi Hw) in *. done.
  - by rewrite (ended_insert _ _ _ Hi' Hw').
Qed.

Lemma same_worker_inv v0 h (s : Store) : s3_inv v0 h s ->
  s3_inv v0 (mkHistory (h_asked h) (h_log h ++ []) (h_refused h) (h_lost h ++ thrown_away s s) (h_reported h)) s.
Proof.
  intros I. assert (thrown_away s s = []) as ->.
  { unfold thrown_away. destruct (forallb _ _) eqn:E; [by apply (si_ended _ _ _ I)|done]. }
  rewrite !app_nil_r. by destruct h.
Qed.

Lemma s3_worker_step_inv v0 h (s : Store) i built : s3_inv v0 h s -> let s' := s3_worker_step i built s in
  s3_inv v0 (mkHistory (h_asked h) (h_log h ++ carried_out i s) (h_refused h) (h_lost h ++ thrown_away s s') (h_reported h)) s'.
Proof.
  intros I s'. subst s'. unfold s3_worker_step, carried_out. destruct (s3_workers s !! i) as [[| |r|]|] eqn:Hi; try by apply same_worker_inv.
  - destruct built; [|rewrite app_nil_r; by eapply end_worker_inv].
    apply (live_worker_inv v0 h s _ i Starting Waiting []); try done. rewrite app_nil_r. apply I.
  - destruct (s3_requests s) as [|r requests] eqn:Hr.
    + destruct (request_tx s) eqn:Ht; [by apply same_worker_inv|]. rewrite app_nil_r. by eapply end_worker_inv.
    + apply (live_worker_inv v0 h s _ i Waiting (Working r) []); try done; [cbn; by rewrite Hr|]. rewrite app_nil_r. apply I.
  - pose proof (replay_snoc _ r _ _ (si_service _ _ _ I)) as Hrep. destruct (process_request r (s3_service s)) as [x v].
    apply (live_worker_inv v0 h s _ i (Working r) Waiting [(r, x)]); try done.
    unfold unreported. cbn. rewrite <- app_assoc. solve_Permutation.
Qed.

Lemma sort_results_unreported (s : Store) puts gets :
  sort_results (s3_results s) (s3_finished_puts s) (s3_finished_gets s) = (puts, gets) ->
  unreported s ≡ₚ put_results puts ++ get_results gets.
Proof. intros E. symmetry. by apply sort_results_spec. Qed.

Ltac s3_fields := cbn [h_asked h_log h_refused h_lost h_reported s3_prefix request_tx s3_requests s3_results s3_finished_puts
  s3_finished_gets s3_workers s3_service s3_set].

(** A poll moves answers to the caller. *)
Lemma poll_inv v0 h (s s' : Store) rs : s3_inv v0 h s -> s3_requests s' = s3_requests s -> s3_workers s' = s3_workers s ->
  request_tx s' = request_tx s -> s3_prefix s' = s3_prefix s -> s3_service s' = s3_service s ->
  unreported s ≡ₚ rs ++ unreported s' -> s3_inv v0 (reporting rs h) s'.
Proof.
  intros [I1 I2 I3 I4 I5 I6 I7] Hr Hw Ht Hp Hv Hu. constructor; cbn; unfold s3_send in *; rewrite ?Hr, ?Hw, ?Ht, ?Hp, ?Hv; try done.
  by rewrite <- app_assoc, <- Hu.
Qed.

(** A request is queued, or refused. *)
Lemma ask_inv v0 h (s : Store) r : s3_inv v0 h s -> keyed (s3_prefix s) r ->
  s3_inv v0 (ask r s h) (match r with PutRequest name _ data => s3_start_put name data s | GetRequest name _ => s3_start_get name s end).
Proof.
  intros [I1 I2 I3 I4 I5 I6 I7] Hk. unfold ask, s3_start_put, s3_start_get.
  assert (Forall (keyed (s3_prefix s)) (h_asked h ++ [r])) as Hkey by (apply Forall_app; split; [done|by constructor]).
  destruct (s3_send s) eqn:Hs.
  - assert (forallb is_ended (s3_workers s) = false) as He
      by (unfold s3_send in Hs; destruct (forallb _ _); [by rewrite andb_false_r in Hs|done]).
    destruct r as [name key data|name key]; cbn in Hk; subst key; constructor; s3_fields; rewrite ?He; try done.
    all: try (rewrite I1; solve_Permutation).
    all: intros Hl; specialize (I5 Hl) || specialize (I6 Hl); congruence.
  - destruct r as [name key data|name key]; constructor; s3_fields; try done; try (rewrite I1; solve_Permutation).
    all: unfold unreported in *; s3_fields; rewrite ?put_results_app, ?get_results_app, fmap_app, (app_assoc (h_log h).*2), <- I2; cbn; solve_Permutation.
Qed.

Lemma s3_step_inv v0 h s h' s' : s3_step (h, s) (h', s') -> s3_inv v0 h s -> s3_inv v0 h' s'.
Proof.
  intros St I. inversion St as [? ? name data|? ? name|? ? rs ? E|? ? rs ? E| |? ? i built s1]; subst; [..|by apply s3_worker_step_inv].
  - by apply (ask_inv v0 h s (PutRequest name _ data)).
  - by apply (ask_inv v0 h s (GetRequest name _)).
  - eapply poll_inv; [exact I|..]; cbn in E; unfold s3_poll_puts, drain_results in E;
      destruct (sort_results _ _ _) as [puts gets] eqn:Es; injection E as <- <-; try done.
    rewrite (sort_results_unreported _ _ _ Es). unfold unreported. cbn. solve_Permutation.
  - eapply poll_inv; [exact I|..]; cbn in E; unfold s3_poll_gets, drain_results in E;
      destruct (sort_results _ _ _) as [puts gets] eqn:Es; injection E as <- <-; try done.
    rewrite (sort_results_unreported _ _ _ Es). unfold unreported. cbn. rewrite app_nil_r. solve_Permutation.
  - destruct I as [I1 I2 I3 I4 I5 I6 I7]. constructor; try done.
Qed.

Lemma s3_steps_inv v0 x y : rtc s3_step x y -> s3_inv v0 x.1 x.2 -> s3_inv v0 y.1 y.2.
Proof. induction 1 as [|[h s] [h1 s1] y St _ IH]; [done|]. intros I. apply IH. by eapply s3_step_inv. Qed.
End runs.

Lemma string_app_inj p a b : (p +:+ a = p +:+ b)%string -> a = b.
Proof. induction p as [|c p IH]; cbn; [done|]. intros [= E]. by apply IH. Qed.

Lemma key_with_prefix_inj prefix a b : key_with_prefix prefix a = key_with_prefix prefix b -> a = b.
Proof. destruct prefix as [p|]; [apply string_app_inj|done]. Qed.

(** ** Progress *)

Definition worker_weight (wk : S3Worker) : nat := match wk with Starting | Working _ => 2 | Waiting => 1 | Ended => 0 end.
Definition work_left {V} (s : S3Store V) : nat := 2 * length (s3_requests s) + sum_list_with worker_weight (s3_workers s).

Lemma sum_weight_insert workers i wk wk' : workers !! i = Some wk ->
  (sum_list_with worker_weight (<[i := wk']> workers) + worker_weight wk = sum_list_with worker_weight workers + worker_weight wk')%nat.
Proof.
  revert i. induction workers as [|w0 workers IH]; intros i Hi; [done|]. destruct i as [|i]; cbn in Hi.
  - injection Hi as ->. cbn. lia.
  - specialize (IH i Hi). change (<[S i := wk']> (w0 :: workers)) with (w0 :: <[i := wk']> workers). cbn [sum_list_with]. lia.
Qed.

Section progress.
Context {V : Type} `{S3Client V}.

Lemma end_worker_less (s : S3Store V) i wk : s3_workers s !! i = Some wk -> is_ended wk = false -> (work_left (end_worker i s) < work_left s)%nat.
Proof.
  intros Hi Hw. pose proof (sum_weight_insert _ i _ Ended Hi) as Hs. unfold work_left, end_worker. cbn [s3_requests s3_workers s3_set].
  assert (0 < worker_weight wk)%nat by (destruct wk; cbn in *; lia || done). cbn [worker_weight] in Hs. case_match; cbn [length]; lia.
Qed.

(** Every step of a worker that does something leaves less to do. *)
Lemma worker_step_less (s : S3Store V) i built : s3_worker_step i built s = s \/ (work_left (s3_worker_step i built s) < work_left s)%nat.
Proof.
  unfold s3_worker_step. destruct (s3_workers s !! i) as [wk|] eqn:Hi; [|by left]. destruct wk as [| |r|]; [..|by left].
  - right. destruct built; [|by eapply end_worker_less]. pose proof (sum_weight_insert _ i _ Waiting Hi) as Hs.
    unfold work_left. cbn in *. lia.
  - destruct (s3_requests s) as [|r requests] eqn:Hr.
    + destruct (request_tx s); [by left|]. right. by eapply end_worker_less.
    + right. pose proof (sum_weight_insert _ i _ (Working r) Hi) as Hs. unfold work_left. rewrite Hr. cbn in *. lia.
  - right. destruct (process_request r (s3_service s)) as [x v]. pose proof (sum_weight_insert _ i _ Waiting Hi) as Hs.
    unfold work_left. cbn in *. lia.
Qed.

(** While a worker is alive, someone can carry on as long as there is work. *)
Lemma workers_progress (s : S3Store V) : forallb is_ended (s3_workers s) = false ->
  in_hand (s3_workers s) = [] /\ s3_requests s = [] \/
  exists i, forall built, (work_left (s3_worker_step i built s) < work_left s)%nat.
Proof.
  intros Ha. destruct (decide (Exists (fun wk => wk <> Waiting /\ wk <> Ended) (s3_workers s))) as [He|He].
  - right. apply Exists_exists in He as (wk & Hin & Hw & Hw'). apply list_elem_of_lookup in Hin as [i Hi]. exists i. intros built.
    destruct (worker_step_less s i built) as [E|]; [exfalso|done]. unfold s3_worker_step in E. rewrite Hi in E.
    destruct wk as [| |r|]; try done.
    + destruct built; apply (f_equal (fun s => s3_workers s !! i)) in E; cbn in E;
        rewrite list_lookup_insert_eq, Hi in E by (by eapply lookup_lt_Some); done.
    + destruct (process_request r (s3_service s)) as [x v]. apply (f_equal (fun s => s3_workers s !! i)) in E. cbn in E.
      rewrite list_lookup_insert_eq, Hi in E by (by eapply lookup_lt_Some). done.
  - assert (Forall (fun wk => wk = Waiting \/ wk = Ended) (s3_workers s)) as Hall.
    { apply Forall_forall. intros wk Hin. destruct (decide (wk = Waiting)); [by left|]. destruct (decide (wk = Ended)); [by right|].
      destruct He. apply Exists_exists. by exists wk. }
    destruct (s3_requests s) as [|r requests] eqn:Hr; [left|right].
    + split; [|done]. clear -Hall. induction Hall as [|wk l [-> | ->] _ IH]; [done|apply IH|apply IH].
    + assert (exists i, s3_workers s !! i = Some Waiting) as [i Hi].
      { clear Hr He. induction (s3_workers s) as [|wk l IH]; [done|]. apply Forall_cons in Hall as [Hwk Hall].
        destruct Hwk as [-> | ->]; [by exists 0%nat|]. destruct IH as [i Hi]; [by cbn in Ha|done|]. by exists (S i). }
      exists i. intros built. unfold s3_worker_step. rewrite Hi, Hr. pose proof (sum_weight_insert _ i _ (Working r) Hi) as Hs.
      unfold work_left. rewrite Hr. cbn in *. lia.
Qed.
End progress.

(** ** Main theorem *)

Section main.
Context {V : Type} `{S3Client V}.

Lemma s3_step_static h (s : S3Store V) h' s' : s3_step (h, s) (h', s') ->
  s3_prefix s' = s3_prefix s /\ length (s3_workers s') = length (s3_workers s).
Proof.
  intros St. inversion St as [| |? ? rs ? E|? ? rs ? E| |? ? i built s1]; subst; cbn.
  - unfold s3_start_put. by destruct (s3_send s).
  - unfold s3_start_get. by destruct (s3_send s).
  - cbn in E. unfold s3_poll_puts, drain_results in E. destruct (sort_results _ _ _). by injection E as _ <-.
  - cbn in E. unfold s3_poll_gets, drain_results in E. destruct (sort_results _ _ _). by injection E as _ <-.
  - done.
  - unfold s1, s3_worker_step, end_worker. destruct (s3_workers s !! i) as [[| |r|]|]; [destruct built| | | |]; cbn; rewrite ?length_insert; try done.
    + destruct (s3_requests s); [destruct (request_tx s)|]; cbn; by rewrite ?length_insert.
    + destruct (process_request r (s3_service s)). cbn. by rewrite length_insert.
Qed.

Lemma s3_steps_static x y : rtc (s3_step (V := V)) x y -> s3_prefix y.2 = s3_prefix x.2 /\ length (s3_workers y.2) = length (s3_workers x.2).
Proof.
  induction 1 as [|[h s] [h1 s1] y St _ [IH1 IH2]]; [done|]. destruct (s3_step_static _ _ _ _ St). cbn in *. split; congruence.
Qed.

Lemma s3_new_inv spawn (v0 : V) prefix n s0 : s3_new spawn v0 prefix n = Ok s0 ->
  s3_inv v0 (mkHistory [] [] [] [] []) s0 /\ s3_prefix s0 = normalized_prefix prefix /\ length (s3_workers s0) = clamp_workers n.
Proof.
  unfold s3_new, spawn_workers. destruct (foldr _ _ _); [|done]. cbn [mbind result_bind]. intros [= <-].
  split_and!; [|done|apply length_replicate]. constructor; try done; cbn; rewrite ?app_nil_r; try done.
  induction (clamp_workers n) as [|k IH]; [done|]. exact IH.
Qed.
End main.

(** C18: the S3 store is a faithful queue in front of the service.  Take any
    interleaving of calls of the store with the steps of its 1 to 128 workers,
    dropping it included.  Every request was carried out, refused at once, or
    is in the hands of a worker or in the queue, and is thrown away only if all
    workers have ended; the answers that were and are yet to be reported are,
    one for one, those of the service to the requests carried out, in some
    order of the service, and refusals; every request used the key of its name
    under the prefix, and different names have different keys.  While a worker
    is alive nothing is thrown away, and as long as something is queued or in
    hand some worker can bring the work left down. *)
Theorem s3_exactly_once {V} `{S3Client V} spawn (v0 : V) prefix n s0 h s :
  s3_new spawn v0 prefix n = Ok s0 -> rtc s3_step (mkHistory [] [] [] [] [], s0) (h, s) ->
  (1 <= length (s3_workers s) <= 128)%nat /\
  h_asked h ≡ₚ (h_log h).*1 ++ h_refused h ++ h_lost h ++ in_hand (s3_workers s) ++ s3_requests s /\
  h_reported h ++ unreported s ≡ₚ (h_log h).*2 ++ (refusal <$> h_refused h) /\
  replay v0 (h_log h) (s3_service s) /\
  Forall (keyed (normalized_prefix prefix)) (h_asked h) /\
  (forall a b, key_with_prefix (normalized_prefix prefix) a = key_with_prefix (normalized_prefix prefix) b -> a = b) /\
  (s3_send s = true -> h_refused h = []) /\
  (forallb is_ended (s3_workers s) = false -> h_lost h = [] /\
     (in_hand (s3_workers s) = [] /\ s3_requests s = [] \/
      exists i, forall built, (work_left (s3_worker_step i built s) < work_left s)%nat)).
Proof.
  intros E Hrun. destruct (s3_new_inv _ _ _ _ _ E) as (I0 & Hp & Hl). pose proof (s3_steps_inv v0 _ _ Hrun I0) as [I1 I2 I3 I4 I5 I6 I7].
  pose proof (s3_steps_static _ _ Hrun) as [Hp' Hl']. cbn [fst snd] in *. rewrite Hp' in I4. rewrite Hp in I4. split_and!; try done.
  - rewrite Hl', Hl. unfold clamp_workers. repeat case_decide; lia.
  - rewrite Hl', Hl. unfold clamp_workers. repeat case_decide; lia.
  - intros a b. apply key_with_prefix_inj.
  - intros Hs. destruct (h_refused h); [done|]. by rewrite I6 in Hs.
  - intros Ha. split; [|by apply workers_progress]. destruct (h_lost h); [done|]. by rewrite I5 in Ha.
Qed.

(** *** A bucket in memory: one put and one get through two workers *)

#[local] Instance bucket_client : S3Client (gmap string (list Z)) := {
  upload_object key data v := (Ok tt, <[key := data]> v);
  fetch_object key v := (or_err ArchiveError (v !! key), v);
}.

Definition bucket_start : S3Store (gmap string (list Z)) :=
  mkS3Store (Some "vm/"%string) true [] [] [] [] [Starting; Starting] ∅.
Definition no_history : history := mkHistory [] [] [] [] [].

(** Put and get are queued, worker 1 does both, worker 0 never starts. *)
Definition bucket_calls (x : history * S3Store (gmap string (list Z))) : history * S3Store (gmap string (list Z)) :=
  let put := (ask (PutRequest "a" (key_with_prefix (s3_prefix x.2) "a") [7]) x.2 x.1, s3_start_put "a" [7] x.2) in
  (ask (GetRequest "a" (key_with_prefix (s3_prefix put.2) "a")) put.2 put.1, s3_start_get "a" put.2).
Definition worker_turn (i : nat) (built : bool) (x : history * S3Store (gmap string (list Z))) :=
  let s' := s3_worker_step i built x.2 in
  (mkHistory (h_asked x.1) (h_log x.1 ++ carried_out i x.2) (h_refused x.1) (h_lost x.1 ++ thrown_away x.2 s') (h_reported x.1), s').
Definition bucket_end := foldl (fun x '(i, built) => worker_turn i built x) (bucket_calls (no_history, bucket_start))
  [(0%nat, false); (1%nat, true); (1%nat, true); (1%nat, true); (1%nat, true); (1%nat, true)].

Example bucket_answers :
  (s3_poll_gets bucket_end.2).1 = [("a"%string, Ok [7])] /\ (s3_poll_puts bucket_end.2).1 = [("a"%string, Ok tt)] /\
  s3_service bucket_end.2 = {[ "vm/a"%string := [7] ]}.
Proof. vm_compute. done. Qed.

Lemma worker_turns steps : forall x, rtc s3_step x (foldl (fun x '(i, built) => worker_turn i built x) x steps).
Proof.
  induction steps as [|[i built] steps IH]; intros [h s]; cbn [foldl]; [done|]. eapply rtc_l; [|apply IH]. apply StepWorker.
Qed.

Lemma bucket_run : rtc s3_step (no_history, bucket_start) bucket_end.
Proof.
  etransitivity; [|apply worker_turns]. eapply rtc_l; [apply (StepPut no_history bucket_start "a" [7])|].
  eapply rtc_l; [|apply rtc_refl]. apply (StepGet _ (s3_start_put "a" [7] bucket_start) "a").
Qed.

Lemma s3_exactly_once_witness :
  let h := bucket_end.1 in let s := bucket_end.2 in
  (1 <= length (s3_workers s) <= 128)%nat /\
  h_asked h ≡ₚ (h_log h).*1 ++ h_refused h ++ h_lost h ++ in_hand (s3_workers s) ++ s3_requests s /\
  h_reported h ++ unreported s ≡ₚ (h_log h).*2 ++ (refusal <$> h_refused h) /\
  replay ∅ (h_log h) (s3_service s) /\
  Forall (keyed (normalized_prefix (Some "/vm//"%string))) (h_asked h) /\
  (forall a b, key_with_prefix (normalized_prefix (Some "/vm//"%string)) a =
     key_with_prefix (normalized_prefix (Some "/vm//"%string)) b -> a = b) /\
  (s3_send s = true -> h_refused h = []) /\
  (forallb is_ended (s3_workers s) = false -> h_lost h = [] /\
     (in_hand (s3_workers s) = [] /\ s3_requests s = [] \/
      exists i, forall built, (work_left (s3_worker_step i built s) < work_left s)%nat)).
Proof.
  intros h s. apply (s3_exactly_once (fun _ => Ok tt) (∅ : gmap string (list Z)) (Some "/vm//"%string) 2 bucket_start h s);
    [reflexivity|]. exact bucket_run.
Defined.
