(* ===== verification/Stack.v ===== *)
(** * Stack: devices built from a configuration

    Models [create_io_engine_device], [build_raw_image_device] and
    [build_block_device] of src/src/backends/common/mod.rs.  A [Box<dyn
    BlockDevice>] that may hold one of two devices is their sum; sums keep every
    promise that both devices keep, so the theorems on clients of block devices
    hold for the devices a configuration selects.

    Which file a path leads to is up to the file system ([FileNames]). *)
From S2P Require Import Prelude Metadata SharedState World Device Flusher StripeSource Crypt Uring Secrets Config.
#[local] Open Scope Z_scope.

(** ** One of two devices *)

#[global] Instance sum_channel {B C} `{IoChannel B} `{IoChannel C} : IoChannel (B + C) := {
  add_read so n b id c w :=
    match c with
    | inl c => '(c, w) ← add_read so n b id c w; Done (inl c, w)
    | inr c => '(c, w) ← add_read so n b id c w; Done (inr c, w)
    end;
  add_write so n b id c w :=
    match c with
    | inl c => '(c, w) ← add_write so n b id c w; Done (inl c, w)
    | inr c => '(c, w) ← add_write so n b id c w; Done (inr c, w)
    end;
  add_flush id c w :=
    match c with
    | inl c => '(c, w) ← add_flush id c w; Done (inl c, w)
    | inr c => '(c, w) ← add_flush id c w; Done (inr c, w)
    end;
  submit c w :=
    match c with
    | inl c => '(r, c, w) ← submit c w; Done (r, inl c, w)
    | inr c => '(r, c, w) ← submit c w; Done (r, inr c, w)
    end;
  poll c w :=
    match c with
    | inl c => '(rs, c, w) ← poll c w; Done (rs, inl c, w)
    | inr c => '(rs, c, w) ← poll c w; Done (rs, inr c, w)
    end;
  busy c := match c with inl c => busy c | inr c => busy c end;
}.

#[global] Instance sum_device {D B E C} `{BlockDevice D B} `{BlockDevice E C} : BlockDevice (D + E) (B + C) := {
  create_channel d w :=
    match d with
    | inl d => match create_channel d w with Ok c => Ok (inl c) | Err e => Err e end
    | inr d => match create_channel d w with Ok c => Ok (inr c) | Err e => Err e end
    end;
  sector_count d := match d with inl d => sector_count d | inr d => sector_count d end;
}.

#[local] Obligation Tactic := idtac.

Section sum_safe.
Context {B C : Type} `{ChannelSafe B} `{ChannelSafe C}.

#[global] Program Instance sum_channel_safe : ChannelSafe (B + C) := {
  ch_inv c w := match c with inl c => ch_inv c w | inr c => ch_inv c w end;
}.
Next Obligation. intros [c|c] w w' Hs; by apply ch_inv_stable. Qed.
Next Obligation.
  intros so n b id [c|c] w Hi Hh; cbn; destruct (add_read_safe so n b id c w Hi Hh) as (c' & w' & -> & ? & ?); do 2 eexists; by split_and!.
Qed.
Next Obligation.
  intros so n b id [c|c] w Hi Hh; cbn; destruct (add_write_safe so n b id c w Hi Hh) as (c' & w' & -> & ? & ?); do 2 eexists; by split_and!.
Qed.
Next Obligation.
  intros id [c|c] w Hi; cbn; destruct (add_flush_safe id c w Hi) as (c' & w' & -> & ? & ?); do 2 eexists; by split_and!.
Qed.
Next Obligation.
  intros [c|c] w Hi; cbn; destruct (submit_safe c w Hi) as (r & c' & w' & -> & ? & ?); do 3 eexists; by split_and!.
Qed.
Next Obligation.
  intros [c|c] w Hi; cbn; destruct (poll_safe c w Hi) as (rs & c' & w' & -> & ? & ?); do 3 eexists; by split_and!.
Qed.

#[global] Instance sum_device_safe {D E} `{!BlockDevice D B} `{!BlockDevice E C} `{!DeviceSafe D B} `{!DeviceSafe E C}
  : DeviceSafe (D + E) (B + C).
Proof.
  constructor. intros [d|d] w c; cbn; destruct (create_channel d w) as [c0|] eqn:Ec; try done; intros [= <-];
    by eapply create_channel_safe.
Qed.
End sum_safe.

(** A step of a sum that returned is a step of one side. *)
Ltac side E := let E1 := fresh "E" in
  match type of E with
  | mbind _ ?m = Done _ => destruct m as [[? ?]|] eqn:E1; [|done]; cbn [mbind outcome_bind] in E
  end; repeat match goal with x : _ * _ |- _ => destruct x end; simplify_eq.

Section sum_contract.
Context {B C : Type} `{ChannelContract B} `{ChannelContract C}.

#[global] Program Instance sum_channel_contract : ChannelContract (B + C) := {
  outstanding c := match c with inl c => outstanding c | inr c => outstanding c end;
}.
Next Obligation. intros so n b id [c|c] w c' w' E; cbn in E; side E; by eapply add_read_out. Qed.
Next Obligation. intros so n b id [c|c] w c' w' E; cbn in E; side E; by eapply add_write_out. Qed.
Next Obligation. intros id [c|c] w c' w' E; cbn in E; side E; by eapply add_flush_out. Qed.
Next Obligation. intros [c|c] w r c' w' E; cbn in E; side E; by eapply submit_out. Qed.
Next Obligation. intros [c|c] w rs c' w' E; cbn in E; side E; by eapply poll_out. Qed.

#[global] Instance sum_reliable `{!ChannelReliable B} `{!ChannelReliable C} : ChannelReliable (B + C).
Proof.
  constructor. intros [c|c] w r c' w' E; cbn in E; side E;
    match goal with Es : submit _ _ = _ |- _ => exact (submit_ok _ _ _ _ _ Es) end.
Qed.

#[global] Instance sum_device_contract {D E} `{!BlockDevice D B} `{!BlockDevice E C} `{!DeviceContract D B} `{!DeviceContract E C}
  : DeviceContract (D + E) (B + C).
Proof.
  constructor. intros [d|d] w c; cbn; destruct (create_channel d w) as [c0|] eqn:Ec; try done; intros [= <-];
    by eapply create_channel_out.
Qed.
End sum_contract.

(** A side that keeps a file does so in the sum. *)
Section sum_backed.
Context {D B E C : Type} `{IoChannel B} `{BlockDevice D B} `{IoChannel C} `{BlockDevice E C}.

Ltac backed Hfb :=
  split;
  [ apply (fb_sectors _ _ _ _ _ Hfb)
  | apply (fb_length _ _ _ _ _ Hfb)
  | intros w Hd; destruct (fb_open _ _ _ _ _ Hfb w Hd) as (c & Ec & Hc); cbn; rewrite Ec; by eexists
  | intros [c|c] b id w Hr Hl; try done; destruct (fb_write _ _ _ _ _ Hfb c b id w Hr Hl) as (w1 & Hd & Hf & Hw);
    exists w1; split_and!; [done..|]; destruct (write_all_at _ _ _ _ w1) as [ok w2]; destruct Hw as (c' & Ew & Hs); cbn; rewrite Ew;
    eexists; split; [done|]; intros w'; destruct (Hs w') as (c1 & c2 & E1 & E2 & Hc); cbn; rewrite E1; do 2 eexists;
    split; [done|]; cbn; rewrite E2; by split
  | intros [c|c] id w Hr; try done; pose proof (fb_flush _ _ _ _ _ Hfb c id w Hr) as Hfl;
    destruct (sync_all _ w) as [ok w2]; destruct Hfl as (c' & Ew & Hs); cbn; rewrite Ew;
    eexists; split; [done|]; intros w'; destruct (Hs w') as (c1 & c2 & E1 & E2 & Hc); cbn; rewrite E1; do 2 eexists;
    split; [done|]; cbn; rewrite E2; by split
  | intros [c|c] b id plain w Hr Hf Hl Hp Hd; try done;
    destruct (fb_read _ _ _ _ _ Hfb c b id plain w Hr Hf Hl Hp Hd) as (c1 & w1 & c2 & c3 & w2 & E1 & E2 & E3 & Hd2 & Hf2 & Hb);
    cbn; rewrite E1; do 5 eexists; split; [done|]; cbn; rewrite E2; split; [done|]; cbn; rewrite E3; by split_and! ].

Lemma sum_backed_l (d : D) rest enc path n : file_backed d rest enc path n ->
  file_backed (inl d : D + E) (fun c : B + C => match c with inl c => rest c | inr _ => False end) enc path n.
Proof. intros Hfb. backed Hfb. Qed.
Lemma sum_backed_r (d : E) rest enc path n : file_backed d rest enc path n ->
  file_backed (inr d : D + E) (fun c : B + C => match c with inr c => rest c | inl _ => False end) enc path n.
Proof. intros Hfb. backed Hfb. Qed.
End sum_backed.

(** An encrypting device starts with an idle channel when its base does. *)
#[global] Instance crypt_device_contract {D B} `{BlockDevice D B} `{ChannelContract B} `{XtsAes} `{!DeviceContract D B}
  : DeviceContract (CryptBlockDevice D) (CryptIoChannel B).
Proof.
  constructor. intros d w c. cbn. destruct (create_channel (cd_base d) w) as [c0|] eqn:Ec; [|done]. intros [= <-].
  by eapply create_channel_out.
Qed.

(** ** The devices of a configuration *)

(** The file that a path leads to. *)
Class FileNames := { file_of : string -> nat }.

Section build.
Context (R : Type) `{Ring R} `{XtsAes} `{FileNames}.

Definition EngineDevice : Type := UringBlockDevice R + SyncBlockDevice.
Definition EngineChannel : Type := UringIoChannel R + SyncIoChannel.
Definition DataDevice : Type := EngineDevice + CryptBlockDevice EngineDevice.
Definition DataChannel : Type := EngineChannel + CryptIoChannel EngineChannel.

Definition create_io_engine_device (engine : IoEngine) (path : string) (queue_size : Z)
    (readonly direct_io write_through : bool) (w : World) : result EngineDevice :=
  match engine with
  | IoUring =>
      d ← uring_device_new (file_of path) queue_size readonly direct_io write_through w;
      Ok (inl d)
  | SyncEngine => d ← sync_new (file_of path) readonly w; Ok (inr d)
  end.

Definition build_raw_image_device (config : Config) (w : World) : result (option EngineDevice) :=
  match s ← cfg_stripe_source config; raw_image_path s with
  | Some path =>
      d ← create_io_engine_device (io_engine (cfg_tuning config)) path 64 true true (write_through (cfg_tuning config)) w;
      Ok (Some d)
  | None => Ok None
  end.

(** [split_at]. *)
Definition split_at (n : nat) (l : list Z) : outcome (list Z * list Z) :=
  if decide (length l < n)%nat then Panic IndexOutOfBounds else Done (take n l, drop n l).

Definition build_block_device (path : string) (config : Config) (readonly : bool) (w : World)
  : outcome (result DataDevice) :=
  match create_io_engine_device (io_engine (cfg_tuning config)) path (queue_size (cfg_tuning config)) readonly true
          (write_through (cfg_tuning config)) w with
  | Err e => Done (Err e)
  | Ok block_device =>
      match cfg_encryption config with
      | None => Done (Ok (inl block_device))
      | Some encryption =>
          match cfg_secrets config !! ref_id (xts_key encryption) with
          | None => Done (Err InvalidParameter)
          | Some xts_key =>
              '(key1, key2) ← split_at 32 xts_key;
              Done (d ← crypt_device_new block_device key1 key2; Ok (inr d))
          end
      end
  end.
End build.

(** ** What is built *)

Section built.
Context {R : Type} `{RingLaws R} `{XtsLaws} `{FileNames}.
#[local] Set Default Proof Using "Type*".

#[global] Instance uring_device_safe : DeviceSafe (UringBlockDevice R) (UringIoChannel R).
Proof.
  constructor. intros d w c E. cbn in E. unfold uring_new in E. destruct (w_disks w !! _); [|done].
  destruct (U32_MAX <? _); [done|]. destruct (ring_new _) as [r|] eqn:Er; [|done]. injection E as <-.
  cbn. by rewrite (ring_new_empty _ _ Er).
Qed.

(** A ring whose submissions the kernel takes. *)
Class RingReliable := {
  ring_submit_ok (r : R) w ok r' w' : ring_submit r w = (ok, r', w') -> ok = true;
}.
#[global] Instance uring_reliable `{!RingReliable} : ChannelReliable (UringIoChannel R).
Proof.
  constructor. intros c w r c' w'. cbn. unfold uring_submit. destruct (pending c =? 0); [by intros [= <- _ _]|].
  destruct (ring_submit (ring c) w) as [[ok r1] w1] eqn:E. apply ring_submit_ok in E as ->. by intros [= <- _ _].
Qed.

#[global] Instance crypt_device_safe {D B} `{DeviceSafe D B} : DeviceSafe (CryptBlockDevice D) (CryptIoChannel B).
Proof.
  constructor. intros d w c E. cbn in E. destruct (create_channel (cd_base d) w) as [c0|] eqn:Ec; [|done]. injection E as <-.
  split; [by eapply create_channel_safe|]. by intros id r Hi.
Qed.

Definition whole_sectors (w : World) (path : nat) : Prop :=
  exists d, w_disks w !! path = Some d /\ Z.of_nat (length (disk_data d)) mod Z.of_nat SECTOR_SIZE = 0.

Definition file_sectors (w : World) (path : nat) : Z := Z.of_nat (length (disk_data (disk_at w path))) / Z.of_nat SECTOR_SIZE.

Lemma engine_device_spec engine path qs readonly direct wt w : is_power_of_two qs = true ->
  match create_io_engine_device R engine path qs readonly direct wt w with
  | Ok d => whole_sectors w (file_of path) /\ sector_count d = file_sectors w (file_of path)
  | Err _ => ~ whole_sectors w (file_of path)
  end.
Proof.
  intros Hq. unfold create_io_engine_device, uring_device_new, sync_new, whole_sectors, file_sectors, disk_at. rewrite Hq. cbn [negb].
  destruct engine, (w_disks w !! file_of path) as [dk|]; cbn [mbind result_bind default]; try by intros (? & ? & _).
  all: destruct (Z.eqb_spec (Z.of_nat (length (disk_data dk)) mod Z.of_nat SECTOR_SIZE) 0) as [E|E]; cbn [negb mbind result_bind];
    [split; [by eexists|done]|intros (d & [= <-] & ?); done].
Qed.

(** A configuration that loads can be built.  The device for a path never
    panics on the way (the key is long enough to be split), and is there exactly
    when the path leads to a file of whole sectors; it has as many sectors as
    the file, and encrypts exactly if the configuration says so, with the two
    halves of the secret as keys. *)
Lemma build_block_device_spec path config readonly w : config_safe config ->
  match build_block_device R path config readonly w with
  | Panic _ => False
  | Done (Err _) => ~ whole_sectors w (file_of path)
  | Done (Ok d) =>
      whole_sectors w (file_of path) /\ sector_count d = file_sectors w (file_of path) /\
      match cfg_encryption config, d with
      | None, inl _ => True
      | Some e, inr d => exists key, cfg_secrets config !! ref_id (xts_key e) = Some key /\
          key = xts_key1 (cd_cipher d) ++ xts_key2 (cd_cipher d) /\
          length (xts_key1 (cd_cipher d)) = 32%nat /\ length (xts_key2 (cd_cipher d)) = 32%nat
      | _, _ => False
      end
  end.
Proof.
  intros Hc. unfold build_block_device.
  pose proof (engine_device_spec (io_engine (cfg_tuning config)) path (queue_size (cfg_tuning config)) readonly true
    (write_through (cfg_tuning config)) w ltac:(apply (cs_queues _ Hc))) as He.
  destruct (create_io_engine_device _ _ _ _ _ _ _ _) as [base|]; [|done]. destruct He as [Hw Hs].
  pose proof (cs_disk _ Hc) as Hk. destruct (cfg_encryption config) as [e|]; [|done].
  destruct Hk as (key & Ek & Hl). rewrite Ek. unfold split_at. rewrite decide_False by lia. cbn [mbind outcome_bind].
  unfold crypt_device_new, xts_new. assert (length (take 32 key) = 32%nat /\ length (drop 32 key) = 32%nat) as [Hk1 Hk2]
    by (rewrite length_take, length_drop; lia).
  rewrite !ensure_32_ok by done. cbn [mbind result_bind]. split_and!; [done..|].
  exists key. cbn [cd_cipher xts_key1 xts_key2]. by rewrite take_drop.
Qed.

(** With the synchronous engine the device keeps its file, as plain or as cipher
    text. *)
Definition stored (config : Config) (n : nat) (data : list Z) : list Z :=
  match cfg_encryption config with
  | None => data
  | Some e =>
      let key := default [] (cfg_secrets config !! ref_id (xts_key e)) in
      crypt_ref XTS_AES_256_enc (mkXts (take 32 key) (drop 32 key)) 0 n data
  end.

Lemma sync_stack_backed path config w n : config_safe config -> io_engine (cfg_tuning config) = SyncEngine ->
  is_Some (w_disks w !! file_of path) -> length (disk_data (disk_at w (file_of path))) = (n * SECTOR_SIZE)%nat ->
  exists (d : DataDevice R) (rest : DataChannel R -> Prop), build_block_device R path config false w = Done (Ok d) /\
    file_backed d rest (stored config n) (file_of path) n.
Proof.
  intros Hc He [dk Hd] Hl. unfold disk_at in Hl. rewrite Hd in Hl. cbn [default] in Hl. change (Datatypes.id dk) with dk in Hl.
  unfold build_block_device, create_io_engine_device, sync_new.
  rewrite He, Hd, Hl.
  replace (Z.of_nat (n * SECTOR_SIZE) mod Z.of_nat SECTOR_SIZE) with 0 by (rewrite Nat2Z.inj_mul, Z_mod_mult; done).
  replace (Z.of_nat (n * SECTOR_SIZE) / Z.of_nat SECTOR_SIZE) with (Z.of_nat n) by (rewrite Nat2Z.inj_mul, Z.div_mul; done).
  cbn [negb Z.eqb mbind result_bind]. pose proof (cs_disk _ Hc) as Hk. unfold stored.
  pose proof (sum_backed_r (D := UringBlockDevice R) (B := UringIoChannel R) _ _ _ _ _ (sync_file_backed (file_of path) n)) as Hb.
  destruct (cfg_encryption config) as [e|].
  - destruct Hk as (key & Ek & Hkl). rewrite Ek. unfold split_at. rewrite decide_False by lia. cbn [mbind outcome_bind default].
    unfold crypt_device_new, xts_new. rewrite !ensure_32_ok by (rewrite ?length_take, ?length_drop; lia). cbn [mbind result_bind].
    do 2 eexists. split; [done|]. apply sum_backed_r. apply (crypt_file_backed _ _ _ _ _ _ Hb).
  - do 2 eexists. split; [done|]. apply sum_backed_l, Hb.
Qed.
End built.
Arguments RingReliable R {_}.
