(* ===== verification/Builder.v ===== *)
(** * Builder: the stripe source of a configuration

    Models src/src/stripe_source/builder.rs, [connect_to_stripe_server] of
    src/src/stripe_server/client.rs, and the credentials and callbacks of
    src/src/stripe_server/psk.rs, with the retries of src/src/utils/s3.rs.  The network, the AWS client and OpenSSL are
    parameters; a [Box<dyn StripeSource>] is the sum of the three sources that
    can be built.

    The theorem on [build]: whatever source comes out keeps the promises that
    the fetcher and the stripe server rely on. *)
From S2P Require Import Prelude Metadata SharedState World Device Flusher StripeSource Crypt Uring StripeServer Secrets Config Remote ArchiveFormat ArchiveSource S3 Stack.
#[local] Open Scope Z_scope.

(** ** Pre-shared keys (psk.rs) *)

Record PskCredentials := mkCreds { cred_identity : string; cred_secret : list Z }.

Definition validate_identity (identity : string) : result unit :=
  match bytes_of identity with [] => Err InvalidParameter | _ => Ok tt end.
Definition creds_validate_secret (secret : list Z) : result unit :=
  if decide (length secret < 16)%nat then Err InvalidParameter else Ok tt.

Definition creds_new (identity : string) (secret : list Z) : result PskCredentials :=
  _ ← validate_identity identity;
  _ ← creds_validate_secret secret;
  Ok (mkCreds identity secret).

Definition parse_psk_credentials `{Aead} `{ConfigEnv} (identity secret_b64 : option string) (kek : KeyEncryptionCipher)
  : result (option PskCredentials) :=
  match identity, secret_b64 with
  | Some identity, Some secret_b64 =>
      encrypted_secret ← or_err InvalidParameter (base64_decode (bytes_of secret_b64));
      decrypted_secret ← decrypt_psk_secret kek encrypted_secret;
      creds ← creds_new identity decrypted_secret;
      Ok (Some creds)
  | None, None => Ok None
  | _, _ => Err InvalidParameter
  end.

(** The callbacks that OpenSSL runs during a handshake: they fill the identity
    and key buffers and return the length of the key, or refuse. *)
Definition psk_client_callback (creds : PskCredentials) (identity_buf psk_buf : list Z)
  : outcome (option (nat * list Z * list Z)) :=
  let identity := bytes_of (cred_identity creds) in
  let secret := cred_secret creds in
  if decide (length identity_buf <= length identity)%nat then Done None else
  if decide (length psk_buf < length secret)%nat then Done None else
  identity_buf ← copy_into identity_buf 0 identity;
  identity_buf ← copy_into identity_buf (length identity) [0];
  psk_buf ← copy_into psk_buf 0 secret;
  Done (Some (length secret, identity_buf, psk_buf)).

(** [openssl::memcmp::eq], which is documented to panic on slices of different
    length. *)
Class Memcmp := { memcmp_eq : list Z -> list Z -> outcome bool }.
Class MemcmpLaws `{Memcmp} := {
  memcmp_same_length a b : length a = length b -> memcmp_eq a b = Done (bool_decide (a = b));
  memcmp_other_length a b : length a <> length b -> memcmp_eq a b = Panic AssertionFailed;
}.

Definition psk_server_callback `{Memcmp} (creds : PskCredentials) (received_identity : option (list Z)) (psk_buf : list Z)
  : outcome (option (nat * list Z)) :=
  same ← memcmp_eq (default [] received_identity) (bytes_of (cred_identity creds));
  if negb same then Done None else
  let secret := cred_secret creds in
  if decide (length psk_buf < length secret)%nat then Done None else
  psk_buf ← copy_into psk_buf 0 secret;
  Done (Some (length secret, psk_buf)).

(** What OpenSSL sends of the identity buffer: the bytes before the first zero. *)
Fixpoint c_string (buf : list Z) : list Z :=
  match buf with [] => [] | b :: buf => if b =? 0 then [] else b :: c_string buf end.

Lemma c_string_app l l' : Forall (fun b => b <> 0) l -> c_string (l ++ 0 :: l') = l.
Proof. induction 1 as [|b l Hb _ IH]; [done|]. cbn. rewrite (proj2 (Z.eqb_neq b 0) Hb). by rewrite IH. Qed.

Lemma copy_into_front (l x : list Z) : (length x <= length l)%nat -> copy_into l 0 x = Done (x ++ drop (length x) l).
Proof. intros Hx. unfold copy_into. rewrite decide_True by lia. done. Qed.

(** C33: the two ends of a TLS handshake with a shared key.  When both have the
    same credentials, without zero bytes in the identity and with room in the
    buffers, the server recognizes the identity that the client sent and both
    use the same key.  A server refuses an identity of the same length that
    differs from its own.  An identity of any other length, or none, is not
    refused: the comparison panics inside the callback. *)
Theorem psk_callbacks `{MemcmpLaws} creds identity_buf psk_buf psk_buf' :
  Forall (fun b => b <> 0) (bytes_of (cred_identity creds)) ->
  (length (bytes_of (cred_identity creds)) < length identity_buf)%nat ->
  (length (cred_secret creds) <= length psk_buf)%nat -> (length (cred_secret creds) <= length psk_buf')%nat ->
  (exists identity_out psk_out psk_out' n,
    psk_client_callback creds identity_buf psk_buf = Done (Some (n, identity_out, psk_out)) /\
    psk_server_callback creds (Some (c_string identity_out)) psk_buf' = Done (Some (n, psk_out')) /\
    take n psk_out = cred_secret creds /\ take n psk_out' = cred_secret creds) /\
  (forall received buf, received <> bytes_of (cred_identity creds) -> length received = length (bytes_of (cred_identity creds)) ->
    psk_server_callback creds (Some received) buf = Done None) /\
  (forall received buf, length (default [] received) <> length (bytes_of (cred_identity creds)) ->
    psk_server_callback creds received buf = Panic AssertionFailed).
Proof.
  intros Hz Hi Hs Hs'. unfold psk_client_callback, psk_server_callback. set (identity := bytes_of _) in *. split_and!.
  - rewrite !decide_False by lia. rewrite (copy_into_front identity_buf) by lia. cbn [mbind outcome_bind].
    rewrite (copy_into_done _ (length identity)) by (rewrite length_app, length_drop; cbn; lia). cbn [mbind outcome_bind].
    unfold splice. rewrite take_app_length. rewrite (copy_into_front psk_buf) by lia. cbn [mbind outcome_bind].
    do 4 eexists. split; [done|]. cbn [default]. change ([0] ++ ?l) with (0 :: l). unfold id. rewrite c_string_app by done.
    rewrite memcmp_same_length, bool_decide_true by done. cbn [negb mbind outcome_bind].
    rewrite ?decide_False, (copy_into_front psk_buf') by lia.
    cbn [mbind outcome_bind]. split_and!; [done|by rewrite take_app_length..].
  - intros received buf Hr Hl. cbn [default]. unfold id. by rewrite memcmp_same_length, bool_decide_false by done.
  - intros received buf Hl. by rewrite memcmp_other_length.
Qed.

#[local] Instance slice_memcmp : Memcmp := {
  memcmp_eq a b := if decide (length a = length b) then Done (bool_decide (a = b)) else Panic AssertionFailed }.
#[local] Instance slice_memcmp_laws : MemcmpLaws.
Proof. split; intros a b Hl; cbn; [by rewrite decide_True|by rewrite decide_False]. Qed.

Lemma psk_callbacks_witness :
  let creds := mkCreds "client1" (replicate 32 7) in
  (exists identity_out psk_out psk_out' n,
    psk_client_callback creds (replicate 128 0) (replicate 256 0) = Done (Some (n, identity_out, psk_out)) /\
    psk_server_callback creds (Some (c_string identity_out)) (replicate 256 1) = Done (Some (n, psk_out')) /\
    take n psk_out = replicate 32 7 /\ take n psk_out' = replicate 32 7) /\
  psk_server_callback creds (Some []) (replicate 256 1) = Panic AssertionFailed.
Proof.
  intros creds. destruct (psk_callbacks creds (replicate 128 0) (replicate 256 0) (replicate 256 1)) as (H1 & _ & H3).
  - repeat constructor; discriminate.
  - cbn. lia.
  - cbn. lia.
  - cbn. lia.
  - split; [exact H1|]. apply H3. discriminate.
Defined.

(** ** Connections to a stripe server *)

(** Sockets [T] of a network [N]; [tls_connect] is the handshake of OpenSSL with
    the client callback above. *)
Class Network (N T : Type) := {
  net_addr : Type;
  parse_socket_addr : string -> option net_addr;
  tcp_connect : net_addr -> Z -> N -> result T * N;
  set_timeouts : Z -> T -> result T;
  tls_connect : (list Z -> list Z -> outcome (option (nat * list Z * list Z))) -> T -> N -> result T * N;
}.

(** The [connect] closure: what it captured, and the network. *)
Record Dialer (N : Type) := mkDialer {
  dl_crc32 : list Z -> Z;
  dl_conf : RemoteStripeConfig;
  dl_secrets : Secrets;
  dl_net : N;
}.
Arguments mkDialer {N}.
Arguments dl_crc32 {N}.
Arguments dl_conf {N}.
Arguments dl_secrets {N}.
Arguments dl_net {N}.

Section connect.
Context {N T : Type} `{Network N T} `{Stream T}.

Definition psk_of (conf : RemoteStripeConfig) (resolved_secrets : Secrets) : result (option PskCredentials) :=
  match rem_psk conf with
  | Some psk =>
      resolved ← get_resolved_secret (psk_secret psk) resolved_secrets;
      creds ← creds_new (psk_identity psk) resolved;
      Ok (Some creds)
  | None => Ok None
  end.

Definition wrap_psk_client_stream (stream : T) (creds : PskCredentials) (net : N) : result T * N :=
  tls_connect (psk_client_callback creds) stream net.

Definition connect_to_stripe_server (crc32 : list Z -> Z) (conf : RemoteStripeConfig) (resolved_secrets : Secrets) (net : N)
  : outcome (result (StripeServerClient T)) * N :=
  match parse_socket_addr (rem_address conf) with
  | None => (Done (Err InvalidParameter), net)
  | Some server_addr =>
      match psk_of conf resolved_secrets with
      | Err e => (Done (Err e), net)
      | Ok creds =>
          let '(tcp, net) := tcp_connect server_addr (rem_connect_timeout_ms conf) net in
          match stream ← tcp; set_timeouts (rem_operation_attempt_timeout_ms conf) stream with
          | Err e => (Done (Err e), net)
          | Ok stream =>
              let '(stream, net) :=
                match creds with
                | Some creds => wrap_psk_client_stream stream creds net
                | None => (Ok stream, net)
                end in
              match stream with
              | Err e => (Done (Err e), net)
              | Ok stream => (handshake crc32 stream, net)
              end
          end
      end
  end.

#[global] Instance dialer_connect : ConnectFn (Dialer N) (StripeServerClient T) := {
  dial d :=
    let '(r, net) := connect_to_stripe_server (dl_crc32 d) (dl_conf d) (dl_secrets d) (dl_net d) in
    (r, mkDialer (dl_crc32 d) (dl_conf d) (dl_secrets d) net);
}.

(** The initial pool: [connections] calls of [connect], until one fails. *)
Fixpoint connect_all (connections : nat) (d : Dialer N) : outcome (result (list (StripeServerClient T)) * Dialer N) :=
  match connections with
  | O => Done (Ok [], d)
  | S connections =>
      let '(r, d) := dial d in
      r ← r;
      match r with
      | Err e => Done (Err e, d)
      | Ok client =>
          '(r, d) ← connect_all connections d;
          Done (clients ← r; Ok (client :: clients), d)
      end
  end.
End connect.

(** ** Archive stores *)

#[global] Instance sum_store {A B} `{ArchiveStore A} `{ArchiveStore B} : ArchiveStore (A + B) := {
  start_put_object name data s :=
    match s with inl s => inl (start_put_object name data s) | inr s => inr (start_put_object name data s) end;
  start_get_object name s :=
    match s with inl s => inl (start_get_object name s) | inr s => inr (start_get_object name s) end;
  poll_puts s :=
    match s with
    | inl s => let '(rs, s) := poll_puts s in (rs, inl s)
    | inr s => let '(rs, s) := poll_puts s in (rs, inr s)
    end;
  poll_gets s :=
    match s with
    | inl s => let '(rs, s) := poll_gets s in (rs, inl s)
    | inr s => let '(rs, s) := poll_gets s in (rs, inr s)
    end;
}.

Record Credentials := mkCredentials {
  access_key_id : string;
  secret_access_key : string;
  session_token : option string;
}.

Record S3ClientTuning := mkS3Tuning {
  st_connect_timeout_ms : Z;
  st_operation_attempt_timeout_ms : Z;
  st_max_attempts : Z;
  st_rate_limited_retry : option (Z * Z);          (* minimal delay and jitter, in milliseconds *)
}.

(** *** Retries of the AWS client (utils/s3.rs) *)

Inductive RetryAction := NoActionIndicated | RetryAfter (delay : Z).

(** Milliseconds as nanoseconds. *)
Definition ms (z : Z) : Z := z * 1000000.

(** [classify_retry] of the rate-limited classifier: [drawn] is the part of the
    jitter that the random number gives, [status] that of the response, if any. *)
Definition classify_retry (min_delay drawn : Z) (status : option Z) : RetryAction :=
  if bool_decide (status ∈ (Some <$> [500; 502; 503; 504; 429])) then RetryAfter (min_delay + drawn) else NoActionIndicated.

(** The cap on delays that [build_s3_client] configures, over the client's own. *)
Definition retry_max_backoff (default_max : Z) (tuning : S3ClientTuning) : Z :=
  match st_rate_limited_retry tuning with
  | Some (min_delay, jitter) => (ms min_delay + ms jitter) `max` default_max
  | None => default_max
  end.

(** A delay is in its window, which the cap never cuts; only throttling and
    transient server errors are delayed. *)
Lemma retry_delay_kept default_max tuning min_delay jitter drawn status d :
  st_rate_limited_retry tuning = Some (min_delay, jitter) -> 0 <= drawn <= ms jitter ->
  classify_retry (ms min_delay) drawn status = RetryAfter d ->
  ms min_delay <= d <= retry_max_backoff default_max tuning /\ exists code, status = Some code /\ (500 <= code <= 504 \/ code = 429).
Proof.
  intros Ht Hd. unfold classify_retry, retry_max_backoff. rewrite Ht. case_bool_decide as Hs; [|done]. intros [= <-]. split; [lia|].
  apply list_elem_of_fmap in Hs as (code & -> & Hc). exists code. split; [done|].
  repeat (apply elem_of_cons in Hc as [->|Hc]; [lia|]). by apply elem_of_nil in Hc.
Qed.

(** What the process finds outside: directories, threads, the AWS client for an
    endpoint, region, credentials and tuning. *)
Record BuildHost (V N : Type) := mkHost {
  create_dir_all : string -> result unit;
  store_files : gmap string (list Z);
  store_faults : list (option (nat * ErrorKind));
  create_runtime : result unit;
  build_s3_client : option string -> option string -> option Credentials -> S3ClientTuning -> result V;
  spawn_thread : nat -> result unit;
  worker_schedule : list (list nat);
  host_net : N;
}.
Arguments create_dir_all {V N}.
Arguments store_files {V N}.
Arguments store_faults {V N}.
Arguments create_runtime {V N}.
Arguments build_s3_client {V N}.
Arguments spawn_thread {V N}.
Arguments worker_schedule {V N}.
Arguments host_net {V N}.

Section stores.
Context {V N : Type} `{S3Client V} (host : BuildHost V N).

Definition resolved_secret_to_string (r : SecretRef) (secrets : Secrets) : result string :=
  secret ← get_resolved_secret r secrets;
  or_err InvalidParameter (from_utf8 secret).

Definition build_aws_credentials (access_key_id secret_access_key : SecretRef) (session_token : option SecretRef)
    (secrets : Secrets) : result (option Credentials) :=
  access_key_id ← resolved_secret_to_string access_key_id secrets;
  secret_access_key ← resolved_secret_to_string secret_access_key secrets;
  session_token ← match session_token with
    | Some t => t ← resolved_secret_to_string t secrets; Ok (Some t)
    | None => Ok None
    end;
  Ok (Some (mkCredentials access_key_id secret_access_key session_token)).

Definition config_kek (config : ArchiveStorageConfig) : option SecretRef :=
  match config with Filesystem _ archive_kek _ => archive_kek | S3 conf => s3_archive_kek conf end.

Definition build_archive_kek (config : ArchiveStorageConfig) (secrets : Secrets) : result KeyEncryptionCipher :=
  match config_kek config with
  | None => Ok (mkKek MethodNone None None)
  | Some archive_kek =>
      match secrets !! ref_id archive_kek with
      | None => Err InvalidParameter
      | Some key => Ok (mkKek Aes256Gcm (Some key) (Some (bytes_of "ubiblk_archive")))
      end
  end.

Definition build_archive_store (config : ArchiveStorageConfig) (secrets : Secrets)
  : result (FileSystemStore + S3Store V) :=
  match config with
  | Filesystem path _ _ =>
      s ← fs_new (create_dir_all host path) path (store_files host) (store_faults host);
      Ok (inl s)
  | S3 conf =>
      decrypted_credentials ← build_aws_credentials (s3_access_key_id conf) (s3_secret_access_key conf)
                                (s3_session_token conf) secrets;
      _ ← create_runtime host;
      client ← build_s3_client host (s3_endpoint conf) (s3_region conf) decrypted_credentials
        (mkS3Tuning (s3_connect_timeout_ms conf) (s3_operation_attempt_timeout_ms conf) (s3_max_attempts conf)
           (if rl_enabled (s3_rate_limited_retry conf)
            then Some (min_delay_ms (s3_rate_limited_retry conf), jitter_ms (s3_rate_limited_retry conf)) else None));
      s ← s3_new (spawn_thread host) client (Config.s3_prefix conf) (Z.to_nat (s3_connections conf));
      Ok (inr s)
  end.
End stores.

(** ** [StripeSourceBuilder] *)

Record StripeSourceBuilder := mkBuilder {
  device_config : Config;
  sb_stripe_sector_count : Z;
  sb_has_fetched_all_stripes : bool;
}.

Section build.
Context (R : Type) {V N T : Type} `{Ring R} `{XtsAes} `{FileNames} `{S3Client V} `{Network N T} `{Stream T}.
Context `{Hashing} `{Codecs} `{Aead}.
Context (crc32 : list Z -> Z) (host : BuildHost V N) (rounds : nat).

Definition ArchiveStoreBox : Type := FileSystemStore + S3Store V.
Definition DeviceSource : Type := BlockDeviceStripeSource (EngineChannel R + NullIoChannel).
Definition RemoteSource : Type := RemoteStripeSource (StripeServerClient T) (Dialer N).
Definition BuiltSource : Type := DeviceSource + (ArchiveStripeSource ArchiveStoreBox + RemoteSource).

Definition device_source (d : EngineDevice R + NullBlockDevice) (stripe_sector_count : Z) (w : World) : result BuiltSource :=
  s ← bdev_source_new d stripe_sector_count w; Ok (inl s).

Definition build (b : StripeSourceBuilder) (w : World) : outcome (result BuiltSource) :=
  if sb_has_fetched_all_stripes b then Done (device_source (inr null_new) (sb_stripe_sector_count b) w) else
  match cfg_stripe_source (device_config b) with
  | Some (Archive config) =>
      let secrets := cfg_secrets (device_config b) in
      let? store := build_archive_store host config secrets in
      let? kek := build_archive_kek config secrets in
      r ← archive_source_new rounds store kek;
      Done (s ← r; Ok (inr (inl s)))
  | Some (Remote config) =>
      let connect := mkDialer crc32 config (cfg_secrets (device_config b)) (host_net host) in
      '(r, connect) ← connect_all (Z.to_nat (rem_connections config)) connect;
      let? clients := r in
      Done (s ← remote_new (spawn_thread host) (worker_schedule host) clients connect (sb_stripe_sector_count b);
            Ok (inr (inr s)))
  | _ =>
      let? image := build_raw_image_device R (device_config b) w in
      Done (device_source (match image with Some d => inl d | None => inr null_new end) (sb_stripe_sector_count b) w)
  end.
End build.

(** ** What is built *)

Section built.
Context {R V N T : Type} `{RingLaws R} `{XtsLaws} `{FileNames} `{S3Client V} `{Network N T} `{Stream T}.
Context `{Hashing} `{Codecs} `{Aead}.
Context (crc32 : list Z -> Z) (host : BuildHost V N) (rounds : nat).
#[local] Set Default Proof Using "Type*".

Lemma connect_all_clients n : forall d clients d', connect_all (T := T) n d = Done (Ok clients, d') -> length clients = n.
Proof.
  induction n as [|n IH]; intros d clients d' E; cbn [connect_all] in E; [by simplify_eq|].
  destruct (dial d) as [r d1]. destruct r as [[client|]|]; [|done..]. cbn [mbind outcome_bind] in E.
  destruct (connect_all n d1) as [[[cs|] d2]|] eqn:E1; [|done..]. cbn in E. simplify_eq. cbn. f_equal. by eapply IH.
Qed.

(** The parts of a remote source that was built. *)
Lemma remote_new_built spawn schedule clients (net : Dialer N) ssc (s : RemoteSource (N := N) (T := T)) :
  remote_new spawn schedule clients net ssc = Ok s ->
  pending s = ∅ /\ fp_stripe_sector_count (rs_expected s) = ssc /\ rs_workers s = Idle <$> clients /\
  exists m, get_metadata <$> head clients = Some (Some m) /\ remote_headers s = stripe_headers m /\ stripe_sector_count m = ssc.
Proof.
  unfold remote_new. destruct clients as [|first clients]; [done|]. destruct (get_metadata first) as [m|] eqn:Em; [|done].
  destruct (Z.eqb_spec (stripe_sector_count m) ssc) as [Es|]; [|done]. cbn [negb].
  destruct (checked_mul64 _ _); [|done]. destruct (foldr _ _ _); [|done]. cbn [mbind result_bind]. intros [= <-].
  split_and!; [done..|]. exists m. cbn in Em |- *. by rewrite Em.
Qed.

Lemma device_source_built d ssc w (src : BuiltSource R (V := V) (N := N) (T := T)) : 0 <= ssc ->
  device_source R d ssc w = Ok src ->
  exists s, src = inl s /\ ss_inv s w /\ bs_stripe_sector_count s = ssc /\ bs_source_sector_count s = sector_count d.
Proof.
  intros Hs. unfold device_source, bdev_source_new. destruct (create_channel d w) as [ch|] eqn:Ec; [|done].
  cbn [mbind result_bind]. intros [= <-]. eexists. split; [done|]. split_and!; [|done..]. split; [|done].
  by eapply create_channel_safe.
Qed.

(** A source that is built keeps what its users rely on.  It needs buffers
    of no more than a stripe of the device and is in a state in which requests
    are safe; when everything has been fetched it has no stripes, and is not
    asked for any.  Otherwise it is what the configuration names: the image
    file, with its size; an archive that is authentic under the configured key;
    or a server whose stripes have the size of the device's stripes, with one
    worker per connection. *)
Lemma built_source_fits b w (src : BuiltSource R) : 0 <= sb_stripe_sector_count b ->
  build R crc32 host rounds b w = Done (Ok src) ->
  ss_inv src w /\ ss_stripe_sectors src <= sb_stripe_sector_count b /\
  (sb_has_fetched_all_stripes b = true -> ss_sector_count src = 0 /\ forall i, has_stripe src i = false) /\
  (sb_has_fetched_all_stripes b = false ->
   match cfg_stripe_source (device_config b), src with
   | None, inl s => ss_sector_count s = 0 /\ forall i, has_stripe s i = false
   | Some (Raw path _ _), inl s => bs_stripe_sector_count s = sb_stripe_sector_count b /\
       whole_sectors w (file_of path) /\ ss_sector_count s = file_sectors w (file_of path)
   | Some (Archive config), inr (inl s) =>
       exists store kek, build_archive_store host config (cfg_secrets (device_config b)) = Ok store /\
         build_archive_kek config (cfg_secrets (device_config b)) = Ok kek /\ opened rounds store kek s
   | Some (Remote config), inr (inr s) =>
       fp_stripe_sector_count (rs_expected s) = sb_stripe_sector_count b /\
       length (rs_workers s) = Z.to_nat (rem_connections config)
   | _, _ => False
   end).
Proof.
  intros Hs. unfold build.
  assert (forall i, has_stripe (S := DeviceSource R) (mkBdevSource (inr (mkNullCh [])) (sb_stripe_sector_count b) 0) i = false) as Hnull.
  { intros i. cbn. unfold bdev_has_stripe. cbn. apply Z.ltb_ge. apply Z.mod_pos_bound. done. }
  destruct (sb_has_fetched_all_stripes b).
  { intros [= <-]. cbn. split_and!; [by split|done..|]. done. }
  assert (forall d, build_raw_image_device R (device_config b) w = Ok d ->
    device_source R (match d with Some d => inl d | None => inr null_new end) (sb_stripe_sector_count b) w = Ok src ->
    exists s, src = inl s /\ ss_inv s w /\ bs_stripe_sector_count s = sb_stripe_sector_count b /\
      match d with Some d => bs_source_sector_count s = sector_count d
      | None => s = mkBdevSource (inr (mkNullCh [])) (sb_stripe_sector_count b) 0 end) as Hraw.
  { intros d _ E. destruct d as [d|]; [by destruct (device_source_built (inl d) _ w src Hs E) as (s & ? & ? & ? & ?); exists s|]. cbn in E. injection E as <-. eexists. by split_and!. }
  destruct (cfg_stripe_source (device_config b)) as [[path af cor|config|config]|] eqn:Ec.
  - destruct (build_raw_image_device R (device_config b) w) as [d|] eqn:Ed; [|done]. cbn [try_]. intros [= E].
    destruct (Hraw d eq_refl E) as (s & -> & Hi & Hb & Hsz). unfold build_raw_image_device in Ed. rewrite Ec in Ed. cbn [mbind option_bind raw_image_path] in Ed.
    pose proof (engine_device_spec (io_engine (cfg_tuning (device_config b))) path 64 true true
      (write_through (cfg_tuning (device_config b))) w eq_refl) as He.
    destruct (create_io_engine_device _ _ _ _ _ _ _ _) as [d0|]; [|done]. injection Ed as <-. destruct He as [He1 He2].
    cbn. split_and!; try done; [apply Hi|apply Hi|by rewrite Hb|]. intros _. by rewrite Hsz.
  - destruct (build_archive_store host config _) as [store|]; [|done]. cbn [try_].
    destruct (build_archive_kek config _) as [kek|] eqn:Ek; [|done]. cbn [try_].
    destruct (archive_source_new rounds store kek) as [[s|]|] eqn:Ea; [|done..]. cbn [mbind outcome_bind result_bind]. intros [= <-].
    destruct (archive_source_opened _ _ _ _ Ea) as (Ho & _ & Hp & _). cbn. split_and!; try done; [|by exists store, kek].
    intros k p Hk. assert ((∅ : gmap string PendingRequest) !! k = Some p) by (by rewrite <- Hp). done.
  - destruct (connect_all _ _) as [[[clients|] net]|] eqn:Ed; [|done..]. cbn [mbind outcome_bind try_].
    destruct (remote_new _ _ _ _ _) as [s|] eqn:En; [|done]. cbn [mbind result_bind]. intros [= <-].
    destruct (remote_new_built _ _ _ _ _ _ En) as (Hp & Hf & Hw & _). cbn. split_and!; try done; [|by rewrite Hf|].
    + unfold bufs_live. by rewrite Hp.
    + intros _. split; [done|]. rewrite Hw, length_fmap. by eapply connect_all_clients.
  - destruct (build_raw_image_device R (device_config b) w) as [d|] eqn:Ed; [|done]. cbn [try_]. intros [= E].
    destruct (Hraw d eq_refl E) as (s & -> & Hi & Hb & Hsz). unfold build_raw_image_device in Ed. rewrite Ec in Ed.
    cbn [mbind option_bind] in Ed. injection Ed as <-. subst s. cbn. split_and!; try done; apply Hi.
Qed.

(** A new source has nothing outstanding. *)
Lemma built_source_idle `{!RingReliable R} b w (src : BuiltSource R (V := V) (N := N) (T := T)) :
  build R crc32 host rounds b w = Done (Ok src) -> ss_outstanding src = [].
Proof.
  assert (forall d ssc, device_source R d ssc w = Ok src -> ss_outstanding src = []) as Hdev.
  { intros d ssc. unfold device_source, bdev_source_new. destruct (create_channel d w) as [ch|] eqn:Ec; [|done].
    cbn [mbind result_bind]. intros [= <-]. exact (create_channel_out _ _ _ Ec). }
  unfold build. destruct (sb_has_fetched_all_stripes b); [by intros [= <-]|].
  destruct (cfg_stripe_source (device_config b)) as [[path af cor|config|config]|].
  - destruct (build_raw_image_device R (device_config b) w); [|done]. cbn [try_]. intros [= E]. exact (Hdev _ _ E).
  - destruct (build_archive_store host config _) as [store|]; [|done]. cbn [try_].
    destruct (build_archive_kek config _) as [kek|] eqn:Ek; [|done]. cbn [try_].
    destruct (archive_source_new rounds store kek) as [[s|]|] eqn:Ea; [|done..]. cbn [mbind outcome_bind result_bind]. intros [= <-].
    destruct (archive_source_opened _ _ _ _ Ea) as (_ & Hn & Hp & _). assert (as_outstanding s = []) as Ho by (unfold as_outstanding; by rewrite Hn, Hp). exact Ho.
  - destruct (connect_all _ _) as [[[clients|] net]|] eqn:Ed; [|done..]. cbn [mbind outcome_bind try_].
    destruct (remote_new _ _ _ _ _) as [s|] eqn:En; [|done]. cbn [mbind result_bind]. intros [= <-].
    destruct (remote_new_built _ _ _ _ _ _ En) as (Hp & _). cbn. unfold pending_ids. by rewrite Hp.
  - destruct (build_raw_image_device R (device_config b) w); [|done]. cbn [try_]. intros [= E]. exact (Hdev _ _ E).
Qed.
End built.

(** *** An image file of three sectors *)

Section demo.
#[local] Existing Instances toy_codecs toy_hash toy_xts toy_xts_laws toy_aead.

#[local] Instance demo_names : FileNames := { file_of p := if decide (p = "base.img"%string) then 7%nat else 8%nat }.
Definition no_network : Network unit Pipe := {|
  net_addr := unit;
  parse_socket_addr _ := Some tt;
  tcp_connect _ _ n := (Err (IoError ConnectionReset), n);
  set_timeouts _ t := Ok t;
  tls_connect _ t n := (Ok t, n);
|}.
Definition no_bucket : S3Client unit := {|
  upload_object _ _ v := (Err ArchiveError, v);
  fetch_object _ v := (Err ArchiveError, v);
|}.
#[local] Existing Instances no_network no_bucket.

Definition demo_host : BuildHost unit unit :=
  mkHost _ _ (fun _ => Ok tt) ∅ [] (Ok tt) (fun _ _ _ _ => Ok tt) (fun _ => Ok tt) [] tt.
Definition demo_config (source : option StripeSourceConfig) : Config :=
  mkConfig (mkDevice "disk" None None None "vm" true) (mkTuning 1 64 65536 4 1000 None SyncEngine false) None
    (mkDanger true true false false false false) source ∅.
Definition demo_builder : StripeSourceBuilder := mkBuilder (demo_config (Some (Raw "base.img" false true))) 2 false.

Lemma built_source_fits_witness :
  exists src : BuiltSource QueueRing (V := unit) (N := unit) (T := Pipe),
    build QueueRing crc32_ieee demo_host 1 demo_builder one_disk_world = Done (Ok src) /\
    ss_inv src one_disk_world /\ ss_stripe_sectors src <= 2 /\
    match src with inl s => ss_sector_count s = 3 | _ => False end.
Proof.
  eexists. split; [reflexivity|].
  destruct (built_source_fits (R := QueueRing) (T := Pipe) crc32_ieee demo_host 1 demo_builder one_disk_world
    (inl (mkBdevSource (inl (inr (mkSyncCh 7 false []))) 2 3)) ltac:(done) eq_refl) as (Hi & Hs & _ & Hb).
  split; [exact Hi|]. split; [exact Hs|]. destruct (Hb eq_refl) as (_ & _ & Hb2). exact Hb2.
Defined.
End demo.
