(* ===== verification/Legacy.v ===== *)
(** * Legacy: serving a volume, old ones included

    Models src/src/stripe_server/legacy.rs, which reads metadata and
    configurations of version 0.2, and src/src/stripe_server/prepare.rs, which
    sets up a stripe server from a configuration.  The YAML parser and the base64
    encoder are parameters.

    The theorems: the translation of old metadata is total and says of every
    stripe whether it is local, and a server that was prepared never runs into a
    stripe that it has to fetch from a source it does not have. *)
From S2P Require Import Prelude Metadata SharedState World Device Flusher StripeSource Crypt Uring StripeServer Secrets Config Remote ArchiveFormat ArchiveSource S3 Stack Builder.
#[local] Open Scope Z_scope.

Definition MAX_LEGACY_STRIPE_SECTOR_COUNT_SHIFT : Z := 16.
Definition LEGACY_XTS_KEY_ID : string := "__legacy_xts_key".

(** ** Metadata *)

Definition is_legacy_v0_2 (buf : list Z) : bool :=
  bool_decide (11 <= length buf)%nat && bool_decide (take 9 buf = UBI_MAGIC) &&
  bool_decide (buf !! 9%nat = Some 0) && bool_decide (buf !! 10%nat = Some 0).

(** The loop over [stripe_headers.iter_mut().zip(legacy_headers)]. *)
Definition translate_headers (headers legacy : list Z) : list Z :=
  zip_with (fun _ l => if l =? 0 then HAS_SOURCE else WRITTEN) headers legacy ++ drop (length legacy) headers.

Definition translate_v0_2_metadata (buf : list Z) (data_sector_count : Z) : outcome (result UbiMetadata) :=
  if decide (length buf < SECTOR_SIZE)%nat then Done (Err (MetadataError OtherMetadataFault)) else
  shift ← index buf 13;
  if MAX_LEGACY_STRIPE_SECTOR_COUNT_SHIFT <? shift then Done (Err (MetadataError OtherMetadataFault)) else
  let stripe_count := Z.to_nat (div_ceil data_sector_count (Z.shiftl 1 shift)) in
  let available := (length buf - SECTOR_SIZE)%nat in
  if decide (available < stripe_count)%nat then Done (Err (MetadataError OtherMetadataFault)) else
  legacy_headers ← slice buf SECTOR_SIZE stripe_count;
  let metadata := new_metadata shift stripe_count 0 in
  Done (Ok (with_headers metadata (translate_headers (stripe_headers metadata) legacy_headers))).

Section load.
Context (crc32 : list Z -> Z) {D C : Type} `{IoChannel C} `{BlockDevice D C}.

Definition read_metadata_bytes (rounds : nat) (d : D) (w : World) : outcome (result nat * World) :=
  match create_channel d w with
  | Err e => Done (Err e, w)
  | Ok ch =>
      if U32_MAX <? sector_count d then Done (Err InvalidParameter, w) else
      match checked_mul64 (sector_count d) (Z.of_nat SECTOR_SIZE) with
      | None => Done (Err InvalidParameter, w)
      | Some byte_len =>
          let '(buf, w) := shared_buffer (Z.to_nat byte_len) w in
          '(ch, w) ← add_read 0 (sector_count d) buf 0 ch w;
          '(r, ch, w) ← submit ch w;
          match r with Err e => Done (Err e, w) | Ok _ =>
            '(r, ch, w) ← wait_for_completion rounds 0 ch w;
            match r with Err e => Done (Err e, w) | Ok _ => Done (Ok buf, w) end
          end
      end
  end.

Definition load_metadata_for_serving (rounds : nat) (d : D) (data_sector_count : Z) (w : World)
  : outcome (result UbiMetadata * World) :=
  '(r, w) ← read_metadata_bytes rounds d w;
  match r with
  | Err e => Done (Err e, w)
  | Ok buf =>
      let bytes := read_buf w buf in
      r ← (if is_legacy_v0_2 bytes then translate_v0_2_metadata bytes data_sector_count else from_bytes crc32 bytes);
      Done (r, w)
  end.
End load.

(** ** Configuration *)

Record LegacyOptions := mkLegacyOptions {
  lo_path : string;
  lo_image_path : option string;
  lo_metadata_path : option string;
  lo_track_written : bool;
  lo_encryption_key : option (list Z * list Z);
}.

Inductive LegacyCipherMethod := LegacyNone | LegacyAes256Gcm.

Record LegacyKek := mkLegacyKek {
  lk_method : LegacyCipherMethod;
  lk_key : option (list Z);
  lk_init_vector : option (list Z);
  lk_auth_data : option (list Z);
}.
Definition default_legacy_kek : LegacyKek := mkLegacyKek LegacyNone None None None.

Definition into_key (bytes : list Z) : result (list Z) :=
  if decide (length bytes = 32%nat) then Ok bytes else Err InvalidParameter.

Definition required (value : option (list Z)) : result (list Z) := or_err InvalidParameter value.

(** Files that hold YAML. *)
Class YamlEnv := {
  yaml_file : string -> result (list Z);
  yaml_options : list Z -> option LegacyOptions;
  yaml_kek : list Z -> option LegacyKek;
}.

Section config.
Context `{Aead} `{ConfigEnv} `{YamlEnv} (base64_encode : list Z -> string).

Definition read_yaml {T} (parse : list Z -> option T) (path : string) : result T :=
  file ← yaml_file path; or_err InvalidParameter (parse file).

(** [cipher.decrypt(nonce, Payload { msg, aad })], the nonce kept apart. *)
Definition decrypt_key (key nonce aad wrapped : list Z) : result (list Z) :=
  plain ← or_err InvalidParameter (open_ key nonce aad wrapped);
  into_key plain.

Definition unwrap_xts_key (wrapped : list Z * list Z) (kek : LegacyKek) : result (list Z) :=
  '(key1, key2) ← match lk_method kek with
    | LegacyNone => k1 ← into_key wrapped.1; k2 ← into_key wrapped.2; Ok (k1, k2)
    | LegacyAes256Gcm =>
        key ← required (lk_key kek);
        iv ← required (lk_init_vector kek);
        let aad := default [] (lk_auth_data kek) in
        _ ← new_cipher key;
        if decide (length iv <> 12%nat) then Err InvalidParameter else
        k1 ← decrypt_key key iv aad wrapped.1;
        k2 ← decrypt_key key iv aad wrapped.2;
        Ok (k1, k2)
    end;
  Ok (key1 ++ key2).

Definition legacy_danger_zone : DangerZone := mkDanger true true true true true false.

Definition load_legacy_config (config_path : string) (kek_path : option string) : eff reads Config :=
  options ← lift_result (read_yaml yaml_options config_path);
  kek ← lift_result (match kek_path with Some path => read_yaml yaml_kek path | None => Ok default_legacy_kek end);
  '(encryption, secrets) ← match lo_encryption_key options with
    | Some wrapped =>
        xts_key ← lift_result (unwrap_xts_key wrapped kek);
        let def := mkSecretDef (Inline (base64_encode xts_key)) Base64 None in
        secrets ← resolve_secrets [(LEGACY_XTS_KEY_ID, def)] legacy_danger_zone;
        mret (Some (mkEncryption (Ref LEGACY_XTS_KEY_ID)), secrets)
    | None => mret (None, ∅)
    end;
  mret (mkConfig
    (mkDevice (lo_path options) (lo_metadata_path options) None None "ubiblk" (lo_track_written options))
    (mkTuning (num_queues default_tuning) 128 (seg_size_max default_tuning) (seg_count_max default_tuning)
       (poll_timeout_us default_tuning) (cpus default_tuning) (io_engine default_tuning) (write_through default_tuning))
    encryption legacy_danger_zone
    ((fun image_path => Raw image_path false false) <$> lo_image_path options) secrets).
End config.

(** ** Preparing a server *)

Definition mark_no_source_stripes_written (m : UbiMetadata) : UbiMetadata :=
  with_headers m (map (fun header => if Z.land header HAS_SOURCE =? 0 then Z.lor header WRITTEN else header) (stripe_headers m)).

(** The loop over the headers of a device without metadata. *)
Definition mark_all_local (m : UbiMetadata) : UbiMetadata :=
  with_headers m (map (fun header => Z.lor header (Z.lor WRITTEN FETCHED)) (stripe_headers m)).

Section prepare.
Context (R : Type) {V N T : Type} `{Ring R} `{XtsAes} `{FileNames} `{S3Client V} `{Network N T} `{Stream T}.
Context `{Hashing} `{Codecs} `{Aead}.
Context (crc32 : list Z -> Z) (host : BuildHost V N) (rounds : nat).

Definition prepare_stripe_server (config : Config) (w : World)
  : outcome (result (StripeServer (DataDevice R) (BuiltSource R)) * World) :=
  r ← build_block_device R (data_path (cfg_device config)) config false w;
  match r with
  | Err e => Done (Err e, w)
  | Ok stripe_device =>
      match metadata_path (cfg_device config) with
      | Some path =>
          r ← build_block_device R path config false w;
          match r with
          | Err e => Done (Err e, w)
          | Ok metadata_device =>
              '(r, w) ← load_metadata_for_serving (C := DataChannel R) crc32 rounds metadata_device
                             (sector_count (C := DataChannel R) stripe_device) w;
              match r with
              | Err e => Done (Err e, w)
              | Ok metadata =>
                  let all_fetched := has_fetched_all_stripes metadata in
                  if negb all_fetched && match cfg_stripe_source config with None => true | Some _ => false end
                  then Done (Err InvalidParameter, w) else
                  let source_builder := mkBuilder config (stripe_sector_count metadata) all_fetched in
                  let metadata := if negb (track_written (cfg_device config)) then mark_no_source_stripes_written metadata
                                  else metadata in
                  Done (Ok (mkServer metadata stripe_device (Some (build R crc32 host rounds source_builder))), w)
              end
          end
      | None =>
          let stripe_count := dev_stripe_count (C := DataChannel R) stripe_device (Z.shiftl 1 DEFAULT_STRIPE_SECTOR_COUNT_SHIFT) in
          let metadata := new_metadata DEFAULT_STRIPE_SECTOR_COUNT_SHIFT stripe_count stripe_count in
          Done (Ok (mkServer (mark_all_local metadata) stripe_device None), w)
      end
  end.
End prepare.

(** ** The translation of old metadata *)

Definition legacy_header (l : Z) : Z := if l =? 0 then HAS_SOURCE else WRITTEN.

Lemma translate_headers_all headers legacy : length headers = length legacy ->
  translate_headers headers legacy = legacy_header <$> legacy.
Proof.
  intros Hl. unfold translate_headers. rewrite drop_ge, app_nil_r by lia.
  revert legacy Hl. induction headers as [|h headers IH]; intros [|l legacy] Hl; try done. cbn. f_equal. apply IH. by injection Hl.
Qed.

Lemma legacy_headers_wf shift n ls : 0 <= shift <= MAX_STRIPE_SECTOR_COUNT_SHIFT -> length ls = n -> Z.of_nat n <= U32_MAX ->
  metadata_wf (with_headers (new_metadata shift n 0) (legacy_header <$> ls)).
Proof.
  intros Hs Hl Hn. split; try done; cbn; [|by rewrite length_fmap, Hl].
  apply Forall_fmap, Forall_forall. intros l _. unfold compose, legacy_header, is_u8. destruct (l =? 0); done.
Qed.

Lemma legacy_translated buf data_sector_count : Forall is_u8 buf -> 0 <= data_sector_count ->
  match translate_v0_2_metadata buf data_sector_count with
  | Panic _ => False
  | Done (Err _) => (length buf < SECTOR_SIZE)%nat \/ exists shift, buf !! 13%nat = Some shift /\
      (16 < shift \/ Z.of_nat (length buf - SECTOR_SIZE) < div_ceil data_sector_count (2 ^ shift))
  | Done (Ok m) => exists shift, buf !! 13%nat = Some shift /\ stripe_sector_count m = 2 ^ shift /\
      stripe_count m = div_ceil data_sector_count (2 ^ shift) /\
      (forall i h, stripe_headers m !! i = Some h -> exists l, buf !! (SECTOR_SIZE + i)%nat = Some l /\
         has_flag h WRITTEN = negb (l =? 0) /\ has_flag h HAS_SOURCE = (l =? 0) /\ has_flag h FETCHED = false) /\
      (stripe_count m <= U32_MAX -> metadata_wf m)
  end.
Proof.
  intros Hu Hd. unfold translate_v0_2_metadata. case_decide as Hl; [by left|]. unfold index.
  destruct (buf !! 13%nat) as [shift|] eqn:Es; [|apply lookup_ge_None in Es; unfold SECTOR_SIZE in Hl; lia].
  cbn [mbind outcome_bind]. pose proof (Forall_lookup_1 _ _ _ _ Hu Es) as Hsh. unfold is_u8 in Hsh.
  unfold MAX_LEGACY_STRIPE_SECTOR_COUNT_SHIFT. destruct (Z.ltb_spec 16 shift) as [|H16]; [right; exists shift; by split; [|left]|].
  rewrite Z.shiftl_1_l. pose proof (div_ceil_spec data_sector_count (2 ^ shift) ltac:(lia)) as Hc.
  assert (0 <= div_ceil data_sector_count (2 ^ shift)) as Hc0 by nia.
  case_decide as Hn; [right; exists shift; split; [done|]; right; lia|]. rewrite slice_done by lia. cbn [mbind outcome_bind].
  set (n := Z.to_nat _) in *. set (ls := take n _).
  assert (length ls = n) as Hls by (unfold ls; rewrite length_take, length_drop; lia).
  rewrite translate_headers_all by (cbn; rewrite length_map, length_seq; lia). exists shift. split; [done|].
  split_and!; cbn [stripe_headers with_headers].
  - unfold stripe_sector_count. cbn. by rewrite Z.shiftl_1_l.
  - unfold stripe_count. cbn. rewrite length_fmap, Hls. lia.
  - intros i h. rewrite list_lookup_fmap. intros (l & Hi & ->)%fmap_Some. exists l. split.
    + unfold ls in Hi. apply lookup_take_Some in Hi as [Hi _]. by rewrite lookup_drop in Hi.
    + unfold legacy_header. by destruct (l =? 0).
  - unfold stripe_count. cbn. rewrite length_fmap, Hls. intros Hm. apply legacy_headers_wf; try done.
    unfold MAX_STRIPE_SECTOR_COUNT_SHIFT. lia.
Qed.

(** The translation of metadata of version 0.2 is total.  Whatever the
    bytes, it does not panic, and it fails only if they are too short, the
    stripe size is out of range, or there are fewer headers than the data device
    has stripes.  Otherwise the result has exactly the stripes of the data
    device, every one is marked as local or as still in the source (never both)
    by its old header, and, as long as their number fits 32 bits, it is
    well-formed metadata of the current version. *)
Theorem legacy_translation buf data_sector_count : Forall is_u8 buf -> 0 <= data_sector_count ->
  match translate_v0_2_metadata buf data_sector_count with
  | Panic _ => False
  | Done (Err _) => (length buf < SECTOR_SIZE)%nat \/ exists shift, buf !! 13%nat = Some shift /\
      (16 < shift \/ Z.of_nat (length buf - SECTOR_SIZE) < div_ceil data_sector_count (2 ^ shift))
  | Done (Ok m) => exists shift, buf !! 13%nat = Some shift /\ stripe_sector_count m = 2 ^ shift /\
      stripe_count m = div_ceil data_sector_count (2 ^ shift) /\
      (forall i h, stripe_headers m !! i = Some h -> exists l, buf !! (SECTOR_SIZE + i)%nat = Some l /\
         has_flag h WRITTEN = negb (l =? 0) /\ has_flag h HAS_SOURCE = (l =? 0) /\ has_flag h FETCHED = false) /\
      (stripe_count m <= U32_MAX -> metadata_wf m)
  end.
Proof. apply legacy_translated. Qed.

Lemma legacy_translation_witness :
  let buf := UBI_MAGIC ++ [0; 0; 1; 0; 1] ++ replicate 498 0 ++ [0; 3; 2] in
  exists m, translate_v0_2_metadata buf 6 = Done (Ok m) /\ stripe_headers m = [HAS_SOURCE; WRITTEN; WRITTEN] /\
    stripe_count m = 3 /\ metadata_wf m.
Proof.
  intros buf. assert (Forall is_u8 buf) as Hu by (apply (bool_decide_unpack _); vm_compute; exact I).
  eexists. split; [vm_compute; reflexivity|]. split; [reflexivity|]. split; [reflexivity|].
  pose proof (legacy_translation buf 6 Hu ltac:(lia)) as Ht.
  replace (translate_v0_2_metadata buf 6) with (Done (Ok (with_headers (new_metadata 1 3 0) [HAS_SOURCE; WRITTEN; WRITTEN]))) in Ht
    by (vm_compute; reflexivity).
  destruct Ht as (shift & _ & _ & _ & _ & Hw). apply Hw. apply (bool_decide_unpack _). vm_compute. exact I.
Defined.

(** ** An old configuration is as safe as a current one *)

Section legacy_config.
Context `{Aead} `{ConfigEnv} `{YamlEnv} (base64_encode : list Z -> string).
Hypothesis base64_law : forall bs, decode (bytes_of (base64_encode bs)) Base64 = Ok bs.
#[local] Set Default Proof Using "Type*".

Lemma into_key_length bs k : into_key bs = Ok k -> length k = 32%nat.
Proof using Type. unfold into_key. case_decide; [by intros [= <-]|done]. Qed.

Lemma decrypt_key_length key nonce aad wrapped k : decrypt_key key nonce aad wrapped = Ok k -> length k = 32%nat.
Proof using Type. unfold decrypt_key. destruct (or_err _ _) as [plain|]; [|done]. apply into_key_length. Qed.

Lemma unwrap_xts_key_length wrapped kek k : unwrap_xts_key wrapped kek = Ok k -> length k = 64%nat.
Proof using Type.
  unfold unwrap_xts_key. destruct (lk_method kek).
  - destruct (into_key wrapped.1) as [k1|] eqn:E1; [|done]. destruct (into_key wrapped.2) as [k2|] eqn:E2; [|done]. cbn.
    intros [= <-]. by rewrite length_app, (into_key_length _ _ E1), (into_key_length _ _ E2).
  - destruct (required (lk_key kek)) as [key|]; [|done]. destruct (required (lk_init_vector kek)) as [iv|]; [|done].
    cbn [mbind result_bind]. destruct (new_cipher key); [|done]. cbn [mbind result_bind]. case_decide; [done|].
    destruct (decrypt_key _ _ _ wrapped.1) as [k1|] eqn:E1; [|done]. destruct (decrypt_key _ _ _ wrapped.2) as [k2|] eqn:E2; [|done].
    cbn. intros [= <-]. by rewrite length_app, (decrypt_key_length _ _ _ _ _ E1), (decrypt_key_length _ _ _ _ _ E2).
Qed.

(** A single inline secret resolves to what was encoded. *)
Lemma resolve_inline n bs log : (length bs <= MAX_SECRET_BYTES)%nat ->
  resolve_secrets [(n, mkSecretDef (Inline (base64_encode bs)) Base64 None)] legacy_danger_zone log
  = Done (Ok {[ n := bs ]}, log ++ [n]).
Proof.
  intros Hl. set (def := mkSecretDef _ _ _).
  assert (maybe_resolve_secret n def ∅ legacy_danger_zone log = Done (Ok (Some bs), log ++ [n])) as Hr.
  { unfold maybe_resolve_secret. cbn [sd_encrypted_by def].
    rewrite (eff_bind_ok _ _ _ (bytes_of (base64_encode bs)) (log ++ [n])) by done.
    rewrite (eff_bind_ok _ _ _ bs (log ++ [n])) by (unfold lift_result; cbn [sd_encoding def]; by rewrite base64_law).
    rewrite (eff_bind_ok _ _ _ tt (log ++ [n])); [done|]. unfold lift_result, validate_secret_length. by rewrite decide_False by lia. }
  unfold resolve_secrets. change (negb (keks_present _)) with false. cbv iota. cbn [resolve_loop length].
  rewrite decide_True by (rewrite map_size_empty; lia).
  rewrite (eff_bind_ok _ _ _ ({[ n := bs ]}, []) (log ++ [n])).
  - cbn [length]. rewrite decide_False by lia. by rewrite decide_False by (rewrite map_size_singleton; lia).
  - cbn [resolve_pass]. by rewrite (eff_bind_ok _ _ _ _ _ Hr).
Qed.

(** A configuration of version 0.2 that loads satisfies the rules for current
    ones, and has the unwrapped key as its only secret. *)
Lemma legacy_config_safe config_path kek_path config log log' :
  load_legacy_config base64_encode config_path kek_path log = Done (Ok config, log') ->
  config_safe config /\ (is_Some (cfg_encryption config) -> exists key, cfg_secrets config = {[ LEGACY_XTS_KEY_ID := key ]} /\ length key = 64%nat).
Proof.
  intros E. unfold load_legacy_config in E. apply eff_bind_inv in E as [(options & l1 & _ & E)|(e & _ & ?)]; [|done].
  apply eff_bind_inv in E as [(kek & l2 & _ & E)|(e & _ & ?)]; [|done].
  assert (forall enc secrets, (enc = None /\ secrets = ∅ \/ exists key, enc = Some (mkEncryption (Ref LEGACY_XTS_KEY_ID)) /\
      secrets = {[ LEGACY_XTS_KEY_ID := key ]} /\ length key = 64%nat) ->
    cfg_encryption config = enc -> cfg_secrets config = secrets -> cfg_danger_zone config = legacy_danger_zone ->
    (forall rc, cfg_stripe_source config <> Some (Remote rc)) -> (forall a, cfg_stripe_source config <> Some (Archive a)) ->
    num_queues (cfg_tuning config) = 1 -> queue_size (cfg_tuning config) = 128 ->
    config_safe config /\ (is_Some (cfg_encryption config) -> exists key, cfg_secrets config = {[ LEGACY_XTS_KEY_ID := key ]} /\ length key = 64%nat)) as Hsafe.
  { intros enc secrets Hk He Hs Hz Hr Ha Hn Hq. split.
    - split; [|by intros rc ?%Hr|by intros p k a ?%Ha|by rewrite Hn, Hq]. rewrite He, Hs, Hz. destruct Hk as [[-> ->]|(key & -> & -> & Hl)]; [done|].
      exists key. split; [apply lookup_singleton_eq|done].
    - rewrite He, Hs. destruct Hk as [[-> ->]|(key & -> & -> & Hl)]; [by intros []|]. intros _. by exists key. }
  apply eff_bind_inv in E as [([enc secrets] & l3 & Ek & E)|(e & _ & ?)]; [|done]. injection E as <- <-.
  apply (Hsafe enc secrets); try done; try by (destruct (lo_image_path options)).
  destruct (lo_encryption_key options) as [wrapped|]; [right|by left; injection Ek as <- <-].
  apply eff_bind_inv in Ek as [(key & l4 & Eu & Ek)|(e & _ & ?)]; [|done]. unfold lift_result in Eu. injection Eu as Eu _.
  apply unwrap_xts_key_length in Eu as Hl. exists key. 
  rewrite (eff_bind_ok _ _ _ _ _ (resolve_inline LEGACY_XTS_KEY_ID key l4 ltac:(rewrite Hl; vm_compute; lia))) in Ek.
  injection Ek as <- <- _. done.
Qed.
End legacy_config.

(** ** A prepared server can serve *)

Lemma has_flag_marked h f : has_flag (if Z.land h HAS_SOURCE =? 0 then Z.lor h WRITTEN else h) f =
  has_flag h f || negb (has_flag h HAS_SOURCE) && has_flag WRITTEN f.
Proof.
  unfold has_flag at 3. destruct (Z.land h HAS_SOURCE =? 0); cbn [negb andb]; [apply has_flag_lor|by rewrite orb_false_r].
Qed.

Section prepared.
Context {R V N T : Type} `{RingLaws R} `{XtsLaws} `{FileNames} `{S3Client V} `{Network N T} `{Stream T}.
Context `{Hashing} `{Codecs} `{Aead}.
Context (crc32 : list Z -> Z) (host : BuildHost V N) (rounds : nat).
#[local] Set Default Proof Using "Type*".

(** What is read from the metadata device are bytes. *)
Definition delivers_bytes (config : Config) (w : World) : Prop := forall path (d : DataDevice R) buf w',
  metadata_path (cfg_device config) = Some path -> build_block_device R path config false w = Done (Ok d) ->
  read_metadata_bytes (C := DataChannel R) rounds d w = Done (Ok buf, w') -> Forall is_u8 (read_buf w' buf).

Lemma loaded_metadata_wf (d : DataDevice R) n w m w' :
  (forall buf v, read_metadata_bytes (C := DataChannel R) rounds d w = Done (Ok buf, v) -> Forall is_u8 (read_buf v buf)) ->
  0 <= n -> load_metadata_for_serving (C := DataChannel R) crc32 rounds d n w = Done (Ok m, w') ->
  stripe_count m <= U32_MAX -> metadata_wf m.
Proof.
  intros Hu Hn E Hc. unfold load_metadata_for_serving in E.
  destruct (read_metadata_bytes rounds d w) as [[[buf|] w1]|] eqn:Er; [|done..]. cbn [mbind outcome_bind] in E.
  pose proof (Hu _ _ eq_refl) as Hb. destruct (is_legacy_v0_2 _).
  - pose proof (legacy_translated (read_buf w1 buf) n Hb Hn) as Ht. destruct (translate_v0_2_metadata _ _) as [[m'|]|]; [|done..].
    cbn in E. injection E as -> ->. destruct Ht as (shift & _ & _ & _ & _ & Hw). by apply Hw.
  - destruct (from_bytes crc32 _) as [[m'|]|] eqn:Ef; [|done..]. cbn in E. injection E as -> ->.
    by destruct (from_bytes_accepted crc32 _ _ Hb Ef) as (Hw & _).
Qed.

(** What preparing a server leaves of its metadata. *)
Definition header_prepared (config : Config) (builder : option StripeSourceBuilder) (h : Z) : Prop :=
  (track_written (cfg_device config) = false -> has_flag h WRITTEN || has_flag h HAS_SOURCE = true) /\
  (has_flag h HAS_SOURCE = true -> has_flag h FETCHED = false ->
   exists b, builder = Some b /\ sb_has_fetched_all_stripes b = false /\ is_Some (cfg_stripe_source (device_config b))).

Lemma loaded_prepared config m b : negb (has_fetched_all_stripes m) &&
    match cfg_stripe_source config with None => true | Some _ => false end = false ->
  device_config b = config -> sb_has_fetched_all_stripes b = has_fetched_all_stripes m ->
  Forall (header_prepared config (Some b))
    (stripe_headers (if negb (track_written (cfg_device config)) then mark_no_source_stripes_written m else m)).
Proof.
  intros Hs Hb Ha. assert (forall h, h ∈ stripe_headers m -> has_flag h HAS_SOURCE = true -> has_flag h FETCHED = false ->
    exists b', Some b = Some b' /\ sb_has_fetched_all_stripes b' = false /\ is_Some (cfg_stripe_source (device_config b'))) as Hm.
  { intros h Hh Hsrc Hfet. exists b. rewrite Ha, Hb. split; [done|]. destruct (has_fetched_all_stripes m) eqn:Hf.
    - unfold has_fetched_all_stripes in Hf. rewrite forallb_forall in Hf. apply list_elem_of_In in Hh. specialize (Hf h Hh).
      unfold has_flag at 1 in Hsrc. rewrite Hfet in Hf. by destruct (Z.land h HAS_SOURCE =? 0).
    - split; [done|]. cbn in Hs. by destruct (cfg_stripe_source config). }
  destruct (track_written (cfg_device config)) eqn:Ht; cbn [negb].
  - apply Forall_forall. intros h Hh. split; [by rewrite Ht|]. by apply Hm.
  - cbn [mark_no_source_stripes_written stripe_headers with_headers]. apply Forall_map, Forall_forall. intros h Hh.
    unfold compose, header_prepared. rewrite !has_flag_marked. change (has_flag WRITTEN WRITTEN) with true.
    change (has_flag WRITTEN HAS_SOURCE) with false. change (has_flag WRITTEN FETCHED) with false.
    rewrite !andb_false_r, !orb_false_r, !andb_true_r. split; [intros _; by destruct (has_flag h WRITTEN), (has_flag h HAS_SOURCE)|].
    by apply Hm.
Qed.

Lemma marked_wf m : metadata_wf m -> metadata_wf (mark_no_source_stripes_written m).
Proof.
  intros []. split; try done; cbn; [|by rewrite length_map]. apply Forall_map. eapply Forall_impl; [done|]. intros h Hh. cbn.
  destruct (_ =? 0); [|done]. by apply is_u8_lor.
Qed.

(** A device without metadata: everything is local. *)
Lemma all_local_wf n : Z.of_nat n <= U32_MAX ->
  metadata_wf (mark_all_local (new_metadata DEFAULT_STRIPE_SECTOR_COUNT_SHIFT n n)).
Proof.
  intros Hn. destruct (new_metadata_wf DEFAULT_STRIPE_SECTOR_COUNT_SHIFT n n) as []; [done..|]. split; try done; cbn.
  - apply Forall_map. eapply Forall_impl; [done|]. intros h Hh. by apply is_u8_lor.
  - by rewrite !length_map, length_seq.
Qed.

(** The metadata and the builder of a prepared server. *)
Lemma prepared_facts config w (server : StripeServer (DataDevice R) (BuiltSource R)) w' :
  delivers_bytes config w -> config_safe config ->
  prepare_stripe_server R crc32 host rounds config w = Done (Ok server, w') ->
  stripe_count (srv_metadata server) <= U32_MAX ->
  exists builder, srv_source_builder server = build R crc32 host rounds <$> builder /\
    metadata_wf (srv_metadata server) /\ Forall (header_prepared config builder) (stripe_headers (srv_metadata server)) /\
    (forall b, builder = Some b -> sb_stripe_sector_count b = stripe_sector_count (srv_metadata server)).
Proof.
  intros Hu Hc E Hm. unfold prepare_stripe_server in E.
  pose proof (build_block_device_spec (R := R) (data_path (cfg_device config)) config false w Hc) as Hd.
  destruct (build_block_device R _ config false w) as [[dev|]|]; [|done..]. destruct Hd as (_ & Hsc & _). cbn [mbind outcome_bind] in E.
  destruct (metadata_path (cfg_device config)) as [path|] eqn:Ep.
  - destruct (build_block_device R path config false w) as [[mdev|]|] eqn:Eb; [|done..]. cbn [mbind outcome_bind] in E.
    destruct (load_metadata_for_serving _ _ _ _ w) as [[[m|] w1]|] eqn:El; [|done..]. cbn [mbind outcome_bind] in E.
    destruct (negb _ && _) eqn:Hs in E; [done|]. injection E as <- <-. cbn [srv_metadata srv_source_builder] in *.
    eexists (Some _). split; [done|]. split; [|split; [by apply loaded_prepared|]].
    + assert (stripe_count m <= U32_MAX -> metadata_wf m) as Hw.
      { eapply (loaded_metadata_wf mdev _ w m w1 (fun buf v => Hu path mdev buf v Ep Eb)); [|exact El].
        refine (eq_ind_r (fun z => 0 <= z) _ Hsc). unfold file_sectors. apply Z.div_pos; [lia|done]. }
      unfold stripe_count in *. destruct (negb (track_written (cfg_device config))); [|by apply Hw]. apply marked_wf, Hw. cbn in Hm. by rewrite length_map in Hm.
    + intros ? [= <-]. cbn. by destruct (negb (track_written (cfg_device config))).
  - injection E as <- <-. cbn [srv_metadata srv_source_builder] in *. exists None. split; [done|]. split; [|split; [|done]].
    + apply all_local_wf. unfold stripe_count in Hm. cbn in Hm. by rewrite !length_map, length_seq in Hm.
    + cbn. apply Forall_map, Forall_forall. intros h _. unfold compose, header_prepared. rewrite !has_flag_lor.
      change (has_flag WRITTEN WRITTEN) with true. change (has_flag FETCHED FETCHED) with true. by rewrite !orb_true_r.
Qed.

(** Sessions of a prepared server end. *)
Lemma prepared_sessions_end config w (server : StripeServer (DataDevice R) (BuiltSource R (V := V) (N := N) (T := T))) w' pipe v s :
  delivers_bytes config w -> config_safe config -> prepare_stripe_server R crc32 host rounds config w = Done (Ok server, w') ->
  stripe_count (srv_metadata server) <= U32_MAX -> fresh_world v -> Forall is_u8 (p_in pipe) ->
  start_session (C := DataChannel R) server pipe v = Done (Ok s) ->
  exists st', handle_requests crc32 rounds (S (length (p_in pipe))) (s, v) = Done st'.
Proof.
  intros Hu Hc E Hm Hv Hp Hst. destruct (prepared_facts config w server w' Hu Hc E Hm) as (builder & Hb & Hw & _ & Hs).
  refine (sessions_end (D := DataDevice R) (C := DataChannel R) crc32 rounds server pipe v s Hw Hv Hp _ Hst).
  intros bld src Hbld Ebld. rewrite Hb in Hbld. destruct builder as [b|]; [|done]. injection Hbld as <-.
  destruct (stripe_sectors_bound _ Hw) as (Hpos & _). specialize (Hs b eq_refl).
  destruct (built_source_fits crc32 host rounds b v src ltac:(lia) Ebld) as (Hi & Hle & _). split; [done|]. by rewrite <- Hs.
Qed.

(** A source whose stripes have [ssc] sectors, where the code makes sure of it:
    an image file is cut into such stripes, and a server's stripe size is
    compared; an archive's is not. *)
Definition serves_stripes_of (ssc : Z) (src : BuiltSource R (V := V) (N := N) (T := T)) : Prop :=
  match src with
  | inl s => bs_stripe_sector_count s = ssc
  | inr (inl _) => True
  | inr (inr s) => fp_stripe_sector_count (rs_expected s) = ssc
  end.

Lemma built_serves b v src : 0 <= sb_stripe_sector_count b -> sb_has_fetched_all_stripes b = false ->
  is_Some (cfg_stripe_source (device_config b)) -> build R crc32 host rounds b v = Done (Ok src) ->
  serves_stripes_of (sb_stripe_sector_count b) src.
Proof.
  intros Hp Hf [c Hc] E. destruct (built_source_fits crc32 host rounds b v src Hp E) as (_ & _ & _ & H'). specialize (H' Hf).
  rewrite Hc in H'. destruct c, src as [s|[s|s]]; cbn; tauto.
Qed.

(** C32: a server that was prepared from a configuration that loads can serve.
    Over any devices, and whether its metadata is current, old or absent: a
    stripe that it may have to take from the source has one.  That is, when the
    metadata has stripes that are not fetched, which does not keep the server
    from starting, a source is configured, sessions build that source, and an
    image file or a remote server that is built has the server's stripe size (the
    stripe size of an archive is not compared with it).  A device that does not
    track writes answers for every stripe, so no client takes a written stripe
    for an empty one.  And every session of the server ends, on any input,
    without a panic.  The metadata device delivers bytes and the number of
    stripes is a [u32]. *)
Theorem prepared_server_serves config w (server : StripeServer (DataDevice R) (BuiltSource R)) w' :
  delivers_bytes config w -> config_safe config ->
  prepare_stripe_server R crc32 host rounds config w = Done (Ok server, w') ->
  stripe_count (srv_metadata server) <= U32_MAX ->
  (forall i h, stripe_headers (srv_metadata server) !! i = Some h ->
     (has_flag h HAS_SOURCE = true -> has_flag h FETCHED = false ->
      exists b, srv_source_builder server = Some (build R crc32 host rounds b) /\ sb_has_fetched_all_stripes b = false /\
        is_Some (cfg_stripe_source (device_config b)) /\
        forall v src, build R crc32 host rounds b v = Done (Ok src) ->
          serves_stripes_of (stripe_sector_count (srv_metadata server)) src) /\
     (track_written (cfg_device config) = false -> has_flag h WRITTEN || has_flag h HAS_SOURCE = true)) /\
  forall pipe v s, fresh_world v -> Forall is_u8 (p_in pipe) -> start_session server pipe v = Done (Ok s) ->
    exists st', handle_requests crc32 rounds (S (length (p_in pipe))) (s, v) = Done st'.
Proof.
  intros Hu Hc E Hm. destruct (prepared_facts config w server w' Hu Hc E Hm) as (builder & Hb & Hw & Hh & Hs). split.
  - intros i h Hi. destruct (Forall_lookup_1 _ _ _ _ Hh Hi) as [H1' H2']. split; [|done]. intros Hx Hy.
    destruct (H2' Hx Hy) as (b & -> & ? & ?). exists b. split_and!; try done.
    intros v src. rewrite <- (Hs b eq_refl). apply built_serves; try done. rewrite (Hs b eq_refl). destruct (stripe_sectors_bound _ Hw). lia.
  - intros pipe v s Hv Hp Hst. by eapply prepared_sessions_end.
Qed.
End prepared.

(** *** An old volume of three stripes over an image *)

Section demo.
#[local] Existing Instances toy_codecs toy_hash toy_xts toy_xts_laws toy_aead no_network no_bucket.

#[local] Instance legacy_names : FileNames := {
  file_of p := if decide (p = "disk"%string) then 7%nat else if decide (p = "meta"%string) then 8%nat else 9%nat }.
Definition legacy_image : list Z := UBI_MAGIC ++ [0; 0; 1; 0; 0] ++ replicate 498 0 ++ [0; 3; 2] ++ replicate 509 0.
Definition legacy_world : World :=
  mkWorld ∅ 0 {[ 7%nat := mkDisk (replicate 1536 5) []; 8%nat := mkDisk legacy_image []; 9%nat := mkDisk (replicate 1536 6) [] ]}
    [] (mkShared [] [] 0 0 0) [] true.
Definition legacy_demo_config : Config :=
  mkConfig (mkDevice "disk" (Some "meta"%string) None None "ubiblk" false) (mkTuning 1 128 65536 4 1000 None SyncEngine false) None
    legacy_danger_zone (Some (Raw "image" false false)) ∅.

Lemma legacy_demo_safe : config_safe legacy_demo_config.
Proof. by split. Qed.

Definition legacy_server : StripeServer (DataDevice QueueRing) (BuiltSource QueueRing (V := unit) (N := unit) (T := Pipe)) :=
  mkServer (with_headers (new_metadata 0 3 0) [HAS_SOURCE; WRITTEN; WRITTEN]) (inl (inr (mkSyncDev 7 3 false)))
    (Some (build QueueRing crc32_ieee demo_host 1 (mkBuilder legacy_demo_config 1 false))).

Lemma legacy_prepared : exists w', prepare_stripe_server QueueRing crc32_ieee demo_host 1 legacy_demo_config legacy_world = Done (Ok legacy_server, w').
Proof. eexists. vm_compute. reflexivity. Qed.

Lemma legacy_bytes : delivers_bytes (R := QueueRing) 1 legacy_demo_config legacy_world.
Proof.
  intros path d buf w' [= <-] Hb. replace d with (inl (inr (mkSyncDev 8 2 false)) : DataDevice QueueRing).
  2: { vm_compute in Hb. by injection Hb. }
  clear Hb. intros Hr. assert (read_buf w' buf = legacy_image) as ->.
  { vm_compute in Hr. injection Hr as <- <-. vm_compute. reflexivity. }
  apply (bool_decide_unpack _). vm_compute. exact I.
Qed.

Lemma prepared_server_serves_witness :
  exists w' s, prepare_stripe_server QueueRing crc32_ieee demo_host 1 legacy_demo_config legacy_world = Done (Ok legacy_server, w') /\
    (exists b, srv_source_builder legacy_server = Some (build QueueRing crc32_ieee demo_host 1 b) /\
       sb_has_fetched_all_stripes b = false /\ is_Some (cfg_stripe_source (device_config b)) /\
       forall v src, build QueueRing crc32_ieee demo_host 1 b v = Done (Ok src) -> serves_stripes_of 1 src) /\
    start_session legacy_server (mkPipe demo_input UnexpectedEof [] []) legacy_world = Done (Ok s) /\
    exists st', handle_requests crc32_ieee 1 (S (length demo_input)) (s, legacy_world) = Done st'.
Proof.
  destruct legacy_prepared as [w' E].
  destruct (prepared_server_serves crc32_ieee demo_host 1 legacy_demo_config legacy_world legacy_server w' legacy_bytes legacy_demo_safe E)
    as [Hh Hs]; [vm_compute; congruence|].
  exists w'. eexists. split; [exact E|]. split; [|split; [reflexivity|]].
  - destruct (Hh 0%nat HAS_SOURCE eq_refl) as [Hb _]. exact (Hb eq_refl eq_refl).
  - refine (Hs (mkPipe demo_input UnexpectedEof [] []) legacy_world _ _ _ eq_refl).
    + apply no_buffers_fresh. reflexivity.
    + repeat constructor; vm_compute; congruence.
Defined.
End demo.
