(* ===== verification/Backend.v ===== *)
(** * Backend: setting up and running a device

    Models src/src/backends/common/mod.rs: [init_metadata] with
    [ensure_metadata_file], [BackendEnv] with its background worker thread, and
    [run_backend_loop].  The parts of the file that build devices are in
    Stack.v.  File metadata (kind and mode) lives in a directory; the contents
    of files are those of the world.

    The theorems: metadata that was initialized is what the backend loads,
    through encryption too, and is on stable storage in a private regular file;
    stopping the worker thread always returns. *)
From S2P Require Import Prelude Metadata SharedState World Device Flusher StripeSource Fetcher BgWorker LazyDevice Crypt Uring IoTracking StripeServer Secrets Config Remote ArchiveFormat ArchiveSource S3 Stack Builder.
#[local] Open Scope Z_scope.

(** ** Files of a directory *)

Inductive FileKind := RegularFile | SymLink | OtherFile.
Record Inode := mkInode { i_kind : FileKind; i_mode : Z }.
Notation Directory := (gmap string Inode).

(** [Path::parent]: the path without its last component, unless there is none. *)
Definition path_parent (p : string) : option (list Component) :=
  match last (components p) with
  | None | Some RootDir => None
  | Some _ => Some (removelast (components p))
  end.

Definition PRIVATE_MODE : Z := 384.        (* 0o600 *)
Definition MODE_BITS : Z := 4095.          (* 0o7777 *)

Section files.
Context `{FileNames} (umask : Z).

(** [open] with [create_new], O_NOFOLLOW and mode 0600: [inl] when the path
    exists already. *)
Definition open_new (path : string) (dir : Directory) (w : World) : (unit + result unit) * Directory * World :=
  let '(fault, w) := next_fault w in
  match fault with
  | Some _ => (inr (Err (IoError OtherIo)), dir, w)
  | None =>
      match dir !! path with
      | Some _ => (inl tt, dir, w)
      | None => (inr (Ok tt), <[path := mkInode RegularFile (Z.land PRIVATE_MODE (Z.lnot umask))]> dir,
                 set_disks w (<[file_of path := mkDisk [] []]> (w_disks w)))
      end
  end.

(** [open] of an existing file with O_NOFOLLOW. *)
Definition open_existing (path : string) (dir : Directory) (w : World) : result unit * World :=
  let '(fault, w) := next_fault w in
  match fault, dir !! path with
  | None, Some (mkInode (RegularFile | OtherFile) _) => (Ok tt, w)
  | _, _ => (Err (IoError OtherIo), w)
  end.

(** [File::metadata] with the size of the file, [set_permissions], and opening and syncing a directory. *)
Definition stat (path : string) (dir : Directory) (w : World) : result (Inode * Z) * Directory * World :=
  let '(fault, w) := next_fault w in
  match fault, dir !! path with
  | None, Some i => (Ok (i, Z.of_nat (length (disk_data (disk_at w (file_of path))))), dir, w)
  | _, _ => (Err (IoError OtherIo), dir, w)
  end.
Definition set_permissions (path : string) (mode : Z) (dir : Directory) (w : World) : result unit * Directory * World :=
  let '(fault, w) := next_fault w in
  match fault, dir !! path with
  | None, Some i => (Ok tt, <[path := mkInode (i_kind i) mode]> dir, w)
  | _, _ => (Err (IoError OtherIo), dir, w)
  end.
(** The empty path names nothing. *)
Definition sync_dir (path : list Component) (w : World) : result unit * World :=
  let '(fault, w) := next_fault w in
  match fault, path with
  | None, _ :: _ => let '(fault, w) := next_fault w in
                    (match fault with None => Ok tt | Some _ => Err (IoError OtherIo) end, w)
  | _, _ => (Err (IoError OtherIo), w)
  end.

Notation E := (eff (Directory * World)).

Definition on_files {A} (f : Directory -> World -> result A * Directory * World) : E A :=
  fun '(dir, w) => let '(r, dir, w) := f dir w in Done (r, (dir, w)).
Definition on_world {A} (f : World -> result A * World) : E A :=
  fun '(dir, w) => let '(r, w) := f w in Done (r, (dir, w)).

(** Opens or creates the file; whether it was created. *)
Definition open_or_create (path : string) : E bool := fun '(dir, w) =>
  let '(r, dir, w) := open_new path dir w in
  match r with
  | inr (Ok _) => Done (Ok true, (dir, w))
  | inr (Err e) => Done (Err e, (dir, w))
  | inl _ => let '(r, w) := open_existing path dir w in Done (_ ← r; Ok false, (dir, w))
  end.

Definition ensure_metadata_file (path : string) (minimum_size : nat) : E unit :=
  created ← open_or_create path;
  '(stat_result, len) ← on_files (stat path);
  match i_kind stat_result with
  | RegularFile =>
      _ ← (if negb (Z.land (i_mode stat_result) MODE_BITS =? PRIVATE_MODE)
           then on_files (set_permissions path PRIVATE_MODE) else mret tt);
      _ ← (if len <? Z.of_nat minimum_size then on_world (set_len (file_of path) (Z.of_nat minimum_size)) else mret tt);
      _ ← on_world (fun w => let '(ok, w) := sync_all (file_of path) w in (io_result ok, w));
      if created : bool then
        match path_parent path with
        | None => raise InvalidParameter
        | Some parent => on_world (sync_dir parent)
        end
      else mret tt
  | SymLink | OtherFile => raise InvalidParameter
  end.
End files.

(** ** Initializing metadata *)

Section init.
Context (R : Type) {V N T : Type} `{Ring R} `{XtsAes} `{FileNames} `{S3Client V} `{Network N T} `{Stream T}.
Context `{Hashing} `{Codecs} `{Aead}.
Context (crc32 : list Z -> Z) (host : BuildHost V N) (umask : Z) (rounds : nat).
Notation E := (eff (Directory * World)).

Definition peek {A} (f : World -> outcome (result A)) : E A := fun '(dir, w) => r ← f w; Done (r, (dir, w)).

Definition save_metadata (m : UbiMetadata) (d : DataDevice R) : E unit := fun '(dir, w) =>
  '(r, w) ← save_to_bdev (C := DataChannel R) crc32 rounds m d w; Done (r, (dir, w)).

Definition init_metadata (config : Config) (stripe_sector_count_shift : Z) : E unit :=
  metadata_path ← lift_result (or_err InvalidParameter (metadata_path (cfg_device config)));
  disk_bdev ← peek (build_block_device R (data_path (cfg_device config)) config false);
  let stripe_sector_count := Z.shiftl 1 (stripe_sector_count_shift mod 64) in
  let base_stripe_count := dev_stripe_count (C := DataChannel R) disk_bdev stripe_sector_count in
  metadata ← match cfg_stripe_source config with
    | None => mret (new_metadata stripe_sector_count_shift base_stripe_count 0)
    | Some _ =>
        stripe_source ← peek (build R (T := T) crc32 host rounds (mkBuilder config stripe_sector_count false));
        mret (new_from_stripe_source stripe_sector_count_shift base_stripe_count (has_stripe (S := BuiltSource R) stripe_source))
    end;
  _ ← ensure_metadata_file umask metadata_path (metadata_size metadata);
  metadata_bdev ← peek (build_block_device R metadata_path config false);
  save_metadata metadata metadata_bdev.
End init.

(** ** The environment of a backend *)

Section env.
Context (R : Type) {V N T : Type} `{Ring R} `{XtsAes} `{FileNames} `{S3Client V} `{Network N T} `{Stream T}.
Context `{Hashing} `{Codecs} `{Aead}.
Context (crc32 : list Z -> Z) (host : BuildHost V N) (rounds : nat).
(** [statfs] gives the block size of a file system, [thread] whether a thread
    can be created. *)
Context (statfs : string -> option Z) (thread : bool).

Definition Source : Type := BuiltSource R (V := V) (N := N) (T := T).
Definition Worker : Type := BgWorker Source (DataChannel R) (DataChannel R).

(** The shared state and the receiver of requests are parts of the world. *)
Record BgWorkerConfig := mkBgConfig {
  bc_target_dev : DataDevice R;
  bc_stripe_source_builder : StripeSourceBuilder;
  bc_metadata_dev : DataDevice R;
  bc_alignment : Z;
  bc_autofetch : bool;
}.

(** A thread that was spawned: it runs the worker, or has ended. *)
Inductive BgThread := Running (worker : Worker) | Finished.

Record BackendEnv := mkEnv {
  env_bdev : DataDevice R + LazyBlockDevice (DataDevice R) (EngineDevice R);
  bgworker_config : option BgWorkerConfig;
  bgworker_sender : bool;
  bgworker_thread : option BgThread;
  env_alignment : Z;
  env_config : Config;
  status_reporter : option Z;              (* the sectors of the disk *)
  io_trackers : list IoTracker;
}.

Definition determine_alignment (path : string) : result Z :=
  match statfs path with
  | None => Err InvalidParameter
  | Some block_size => Ok (BUFFER_ALIGNMENT `max` wrap64 block_size)
  end.

Definition build_io_trackers (config : Config) : list IoTracker :=
  replicate (Z.to_nat (num_queues (cfg_tuning config))) (tracker_new (Z.to_nat (queue_size (cfg_tuning config)))).

Definition build_bdev_lazy (disk_device : DataDevice R) (config : Config) (w : World)
  : result (LazyBlockDevice (DataDevice R) (EngineDevice R)) :=
  raw_image_device ← match cfg_stripe_source config with
    | None => Ok None
    | Some s => if copy_on_read s then Ok None else build_raw_image_device R config w
    end;
  Ok (mkLazyDev disk_device raw_image_device (track_written (cfg_device config))).

(** The channel to the worker is created here, with its receiver alive. *)
Definition share (m : UbiMetadata) (w : World) : World :=
  mkWorld (w_bufs w) (w_next w) (w_disks w) (w_faults w) (new_shared m) [] true.

Definition build_with_bgworker (disk_device metadata_device : DataDevice R) (config : Config) (alignment : Z) (w : World)
  : outcome (result BackendEnv * World) :=
  '(r, w) ← load_from_bdev (C := DataChannel R) crc32 rounds metadata_device w;
  match r with
  | Err e => Done (Err e, w)
  | Ok metadata =>
      let w := share metadata w in
      let reporter := sector_count (C := DataChannel R) disk_device in
      match build_bdev_lazy disk_device config w with
      | Err e => Done (Err e, w)
      | Ok bdev_lazy =>
          let builder := mkBuilder config (shared_stripe_sector_count (w_shared w)) (has_fetched_all_stripes metadata) in
          let autofetch := match cfg_stripe_source config with Some s => ssc_autofetch s | None => false end in
          Done (Ok (mkEnv (inr bdev_lazy) (Some (mkBgConfig disk_device builder metadata_device alignment autofetch))
                      true None alignment config (Some reporter) (build_io_trackers config)), w)
      end
  end.

Definition env_build (config : Config) (w : World) : outcome (result BackendEnv * World) :=
  match determine_alignment (data_path (cfg_device config)) with
  | Err e => Done (Err e, w)
  | Ok alignment =>
      r ← build_block_device R (data_path (cfg_device config)) config false w;
      match r with
      | Err e => Done (Err e, w)
      | Ok disk_device =>
          match metadata_path (cfg_device config) with
          | None =>
              Done (Ok (mkEnv (inl disk_device) None false None alignment config None (build_io_trackers config)), w)
          | Some path =>
              r ← build_block_device R path config false w;
              match r with
              | Err e => Done (Err e, w)
              | Ok metadata_dev => build_with_bgworker disk_device metadata_dev config alignment w
              end
          end
      end
  end.

(** *** The worker's thread *)

Definition build_bgworker (c : BgWorkerConfig) (w : World) : outcome (result Worker * World) :=
  r ← build R crc32 host rounds (bc_stripe_source_builder c) w;
  match r with
  | Err e => Done (Err e, w)
  | Ok stripe_source =>
      worker_new (C := DataChannel R) (M := DataChannel R) crc32 rounds stripe_source (bc_target_dev c) (bc_metadata_dev c)
        (bc_alignment c) (bc_autofetch c) w
  end.

Definition env_set (env : BackendEnv) (config : option BgWorkerConfig) (sender : bool) (th : option BgThread) : BackendEnv :=
  mkEnv (env_bdev env) config sender th (env_alignment env) (env_config env) (status_reporter env) (io_trackers env).

(** The receiver goes with a thread that ends without running the worker. *)
Definition receiver_gone (w : World) : World :=
  mkWorld (w_bufs w) (w_next w) (w_disks w) (w_faults w) (w_shared w) [] false.

(** A panic while the worker is built ends the thread, and with it the channel
    for its status. *)
Definition run_bgworker_thread (env : BackendEnv) (w : World) : result unit * BackendEnv * World :=
  match bgworker_config env with
  | None => (Ok tt, env, w)
  | Some config =>
      if negb thread then (Err ThreadCreation, env_set env None (bgworker_sender env) (bgworker_thread env), receiver_gone w) else
      match build_bgworker config w with
      | Done (Ok worker, w) => (Ok tt, env_set env None (bgworker_sender env) (Some (Running worker)), w)
      | Done (Err e, w) => (Err e, env_set env None (bgworker_sender env) (Some Finished), receiver_gone w)
      | Panic _ => (Err ChannelError, env_set env None (bgworker_sender env) (Some Finished), receiver_gone w)
      end
  end.

(** The thread's loop, until it ends; [None] when it is not over after [fuel]
    iterations or blocks.  A panic ends it too. *)
Fixpoint run_worker (fuel : nat) (senders : bool) (b : Worker) (w : World) : option World :=
  if bw_done b then Some (receiver_gone w) else
  match fuel with
  | O => None
  | S fuel =>
      match run_iteration crc32 senders b w with
      | Done (Some (b, w)) => run_worker fuel senders b w
      | Done None => None
      | Panic _ => Some (receiver_gone w)
      end
  end.

(** The sender is taken and used for the request, then dropped; the device
    keeps a clone of it. *)
Definition stop_bgworker_thread (fuel : nat) (env : BackendEnv) (w : World) : option (BackendEnv * World) :=
  let w := if bgworker_sender env then (LazyDevice.send Shutdown w).2 else w in
  let senders := match env_bdev env with inr _ => true | inl _ => false end in
  match bgworker_thread env with
  | Some (Running b) => w ← run_worker fuel senders b w; Some (env_set env (bgworker_config env) false None, w)
  | Some Finished | None => Some (env_set env (bgworker_config env) false None, w)
  end.

(** *** The loop of a backend *)

Section serve.
(** [serve] runs the front end until its client is gone. *)
Context (rpc : string -> result unit) (serve : BackendEnv -> World -> outcome (result unit * World)).

Fixpoint serve_forever (fuel : nat) (env : BackendEnv) (w : World) : outcome (result unit * World) :=
  match fuel with
  | O => Panic OutOfFuel
  | S fuel =>
      '(r, w) ← serve env w;
      match r with Ok _ => serve_forever fuel env w | Err e => Done (Err e, w) end
  end.

(** What happens between building the environment and dropping it. *)
Definition serve_env (fuel : nat) (config : Config) (loop_forever : bool) (env : BackendEnv) (w : World)
  : outcome (result unit * BackendEnv * World) :=
  let '(r, env, w) := run_bgworker_thread env w in
  match _ ← r; match rpc_socket (cfg_device config) with Some path => rpc path | None => Ok tt end with
  | Err e => Done (Err e, env, w)
  | Ok _ => '(r, w) ← (if loop_forever then serve_forever fuel env w else serve env w); Done (r, env, w)
  end.

(** The environment is dropped at the end, which stops the worker. *)
Definition run_backend_loop (fuel : nat) (config : Config) (loop_forever : bool) (w : World)
  : outcome (result unit * option World) :=
  '(r, w) ← env_build config w;
  match r with
  | Err e => Done (Err e, Some w)
  | Ok env =>
      '(r, env, w) ← serve_env fuel config loop_forever env w;
      Done (r, snd <$> stop_bgworker_thread fuel env w)
  end.
End serve.
End env.

(** ** The metadata file *)

Section ensured.
Context `{FileNames} (umask : Z).

(** A file that was there or starts out empty, extended with zeroes. *)
Definition grown (old : list Z) (minimum_size : nat) : list Z := old ++ replicate (minimum_size - length old) 0.

Definition old_contents (path : string) (dir : Directory) (w : World) : list Z :=
  match dir !! path with Some _ => disk_data (disk_at w (file_of path)) | None => [] end.

Record ensured (path : string) (minimum_size : nat) (dir : Directory) (w : World) (dir' : Directory) (w' : World) : Prop := {
  en_was : match dir !! path with Some i => i_kind i = RegularFile | None => True end;
  en_private : exists mode, dir' !! path = Some (mkInode RegularFile mode) /\ Z.land mode MODE_BITS = PRIVATE_MODE;
  en_others p : p <> path -> dir' !! p = dir !! p;
  en_disk : w_disks w' !! file_of path = Some (mkDisk (grown (old_contents path dir w) minimum_size)
                                                      (grown (old_contents path dir w) minimum_size));
  en_disks d : d <> file_of path -> w_disks w' !! d = w_disks w !! d;
}.

Lemma no_fault w f w' : next_fault w = (f, w') -> w_disks w' = w_disks w.
Proof. unfold next_fault. destruct (w_faults w); intros; by simplify_eq. Qed.

Lemma open_spec path dir w created dir1 w1 : open_or_create umask path (dir, w) = Done (Ok created, (dir1, w1)) ->
  created = bool_decide (dir !! path = None) /\
  (forall p, p <> path -> dir1 !! p = dir !! p) /\ is_Some (dir1 !! path) /\
  (dir !! path = None \/ dir1 = dir) /\ (dir !! path = None -> exists mode, dir1 !! path = Some (mkInode RegularFile mode)) /\
  (forall d, d <> file_of path -> w_disks w1 !! d = w_disks w !! d) /\
  disk_data (disk_at w1 (file_of path)) = old_contents path dir w.
Proof.
  unfold open_or_create, open_new, open_existing, old_contents. destruct (next_fault w) as [f wf] eqn:Ef.
  pose proof (no_fault _ _ _ Ef) as Hd.
  destruct f; [done|]. destruct (dir !! path) as [i|] eqn:Ei.
  - destruct (next_fault wf) as [f2 wf2] eqn:Ef2.
    pose proof (no_fault _ _ _ Ef2) as Hd2.
    destruct f2; [done|]. rewrite ?Ei. destruct i as [[] mode]; try done; intros E; injection E as <- <- <-;
      rewrite bool_decide_false by done; unfold disk_at; rewrite Hd2, Hd, ?Ei; split_and!; eauto; done.
  - intros E. injection E as <- <- <-. rewrite bool_decide_true by done. cbn. unfold disk_at. cbn.
    split_and!; [done| | |by left| | |by rewrite lookup_insert_eq].
    + intros p Hp. by rewrite lookup_insert_ne.
    + rewrite lookup_insert_eq. by eexists.
    + intros _. rewrite lookup_insert_eq. by eexists.
    + intros d Hne. by rewrite lookup_insert_ne, Hd.
Qed.

(** File operations that succeeded. *)
Lemma set_len_spec d len w w' : set_len d (Z.of_nat len) w = (Ok tt, w') ->
  disk_data (disk_at w' d) = take len (grown (disk_data (disk_at w d)) len) /\
  forall k, k <> d -> w_disks w' !! k = w_disks w !! k.
Proof.
  unfold set_len. destruct (I64_MAX <? _); [done|]. destruct (next_fault w) as [[|] wf] eqn:Ef; [done|]. intros [= <-].
  rewrite Nat2Z.id. unfold disk_at. cbn. rewrite (no_fault _ _ _ Ef), lookup_insert_eq. split; [done|].
  intros k Hk. by rewrite lookup_insert_ne.
Qed.

Lemma sync_all_spec d w w' : sync_all d w = (true, w') ->
  w_disks w' !! d = Some (mkDisk (disk_data (disk_at w d)) (disk_data (disk_at w d))) /\
  forall k, k <> d -> w_disks w' !! k = w_disks w !! k.
Proof.
  unfold sync_all. destruct (next_fault w) as [[|] wf] eqn:Ef; [done|]. intros [= <-]. unfold disk_at. cbn.
  rewrite (no_fault _ _ _ Ef), lookup_insert_eq. split; [done|]. intros k Hk. by rewrite lookup_insert_ne.
Qed.

Lemma sync_dir_spec p w r w' : sync_dir p w = (r, w') -> w_disks w' = w_disks w /\ (r = Ok tt -> p <> []).
Proof.
  unfold sync_dir. destruct (next_fault w) as [f wf] eqn:Ef. pose proof (no_fault _ _ _ Ef) as Hd.
  destruct f, p as [|c p]; try (intros [= <- <-]; by split). destruct (next_fault wf) as [f2 wf2] eqn:Ef2.
  pose proof (no_fault _ _ _ Ef2) as Hd2. intros [= <- <-]. rewrite Hd2. by split.
Qed.

(** The check of the mode, and the file grown to its minimal size. *)
Lemma private_spec path i dir w dir' w' : dir !! path = Some i -> i_kind i = RegularFile ->
  (if negb (Z.land (i_mode i) MODE_BITS =? PRIVATE_MODE) then on_files (set_permissions path PRIVATE_MODE) else mret tt) (dir, w)
    = Done (Ok tt, (dir', w')) ->
  w_disks w' = w_disks w /\ (forall p, p <> path -> dir' !! p = dir !! p) /\
  exists mode, dir' !! path = Some (mkInode RegularFile mode) /\ Z.land mode MODE_BITS = PRIVATE_MODE.
Proof.
  intros Ei Ek E. destruct (Z.eqb_spec (Z.land (i_mode i) MODE_BITS) PRIVATE_MODE) as [Hm|Hm]; cbn [negb] in E.
  - injection E as <- <-. split_and!; [done..|]. exists (i_mode i). rewrite Ei. split; [|done]. destruct i. cbn in *. by subst.
  - unfold on_files, set_permissions in E. destruct (next_fault w) as [[|] wg] eqn:Eg; [done|]. rewrite Ei in E. injection E as <- <-.
    rewrite (no_fault _ _ _ Eg). split_and!; [done|intros p Hp; by rewrite lookup_insert_ne|].
    exists PRIVATE_MODE. by rewrite lookup_insert_eq, Ek.
Qed.

Lemma grow_spec d minimum_size dir w dir' w' (old := disk_data (disk_at w d)) :
  (if Z.of_nat (length old) <? Z.of_nat minimum_size then on_world (set_len d (Z.of_nat minimum_size)) else mret tt) (dir, w)
    = Done (Ok tt, (dir', w')) ->
  dir' = dir /\ disk_data (disk_at w' d) = grown old minimum_size /\ forall k, k <> d -> w_disks w' !! k = w_disks w !! k.
Proof.
  intros E. destruct (Z.ltb_spec (Z.of_nat (length old)) (Z.of_nat minimum_size)) as [Hlt|Hge].
  - unfold on_world in E. destruct (set_len _ _ w) as [r wl] eqn:Esl. injection E as -> <- <-.
    apply set_len_spec in Esl as [Hx Hy]. split_and!; [done| |done]. rewrite Hx. fold old. unfold grown.
    rewrite take_ge; [done|]. rewrite length_app, length_replicate. lia.
  - injection E as <- <-. split_and!; [done| |done]. unfold grown. replace (minimum_size - _)%nat with 0%nat by lia.
    cbn. by rewrite app_nil_r.
Qed.

(** What a successful call leaves behind. *)
Lemma ensure_spec path minimum_size dir w dir' w' :
  ensure_metadata_file umask path minimum_size (dir, w) = Done (Ok tt, (dir', w')) ->
  ensured path minimum_size dir w dir' w' /\ (dir !! path = None -> exists parent, path_parent path = Some parent /\ parent <> []).
Proof.
  intros E. unfold ensure_metadata_file in E.
  apply eff_bind_inv in E as [(created & [dir1 w1] & Eo & E)|(e & _ & ?)]; [|done].
  apply open_spec in Eo as (-> & Hoth & Hin & Hdir & Hnew & Hd1 & Hc1).
  apply eff_bind_inv in E as [([i len] & [dir2 w2] & Es & E)|(e & _ & ?)]; [|done].
  unfold on_files, stat in Es. destruct (next_fault w1) as [f wf] eqn:Ef. pose proof (no_fault _ _ _ Ef) as Hdf.
  destruct f; [done|]. destruct (dir1 !! path) as [i1|] eqn:Ei; [|done]. injection Es as <- <- <- <-.
  destruct (i_kind i1) eqn:Ek; [|done..].
  apply eff_bind_inv in E as [([] & [dir3 w3] & Ep & E)|(e & _ & ?)]; [|done].
  apply (private_spec path i1) in Ep as (Hd3 & Hoth3 & Hmode); [|done..]. rewrite Hdf in Hd3.
  apply eff_bind_inv in E as [([] & [dir4 w4] & El & E)|(e & _ & ?)]; [|done].
  assert (disk_data (disk_at wf (file_of path)) = disk_data (disk_at w3 (file_of path))) as Hwf by (unfold disk_at; by rewrite Hdf, Hd3).
  rewrite Hwf in El. apply grow_spec in El as (-> & Hc4 & Hd4).
  assert (disk_data (disk_at w3 (file_of path)) = old_contents path dir w) as Hc3 by (rewrite <- Hc1; unfold disk_at; by rewrite Hd3).
  rewrite Hc3 in Hc4.
  apply eff_bind_inv in E as [([] & [dir5 w5] & Ey & E)|(e & _ & ?)]; [|done].
  unfold on_world in Ey. destruct (sync_all (file_of path) w4) as [[] ws] eqn:Esy; [|done]. injection Ey as <- <-.
  apply sync_all_spec in Esy as [Hs1 Hs2]. rewrite Hc4 in Hs1.
  assert (w_disks w' = w_disks ws /\ dir' = dir3 /\ (dir !! path = None -> exists parent, path_parent path = Some parent /\ parent <> [])) as (Hw' & -> & Hpar).
  { destruct (bool_decide_reflect (dir !! path = None)) as [Hn|Hn].
    - destruct (path_parent path) as [parent|]; [|done]. unfold on_world in E. destruct (sync_dir parent ws) as [r wd] eqn:Ed.
      injection E as -> <- <-. apply sync_dir_spec in Ed as [Hd Hp]. split_and!; [done..|]. intros _. exists parent. by split; [|apply Hp].
    - injection E as <- <-. split_and!; done. }
  split; [|done]. split.
  - destruct Hdir as [-> | ->]; [done|]. by rewrite Ei.
  - done.
  - intros p Hp. rewrite Hoth3, Hoth by done. done.
  - by rewrite Hw'.
  - intros d Hne. rewrite Hw', Hs2, Hd4, Hd3 by done. by apply Hd1.
Qed.

(** Without faults the call comes to its last step: the directory of a new file. *)
Lemma ensure_reaches path minimum_size dir w : w_faults w = [] -> Z.of_nat minimum_size <= I64_MAX ->
  match dir !! path with Some i => i_kind i = RegularFile | None => True end ->
  exists dir' w', w_faults w' = [] /\ (exists i, dir' !! path = Some i /\ i_kind i = RegularFile) /\
    ensure_metadata_file umask path minimum_size (dir, w) =
      (if bool_decide (dir !! path = None) then
         match path_parent path with None => raise InvalidParameter | Some parent => on_world (sync_dir parent) end
       else mret tt) (dir', w').
Proof.
  intros Hf Hm Hp. assert (exists dir1 w1 i, open_or_create umask path (dir, w) = Done (Ok (bool_decide (dir !! path = None)), (dir1, w1)) /\
    w_faults w1 = [] /\ dir1 !! path = Some i /\ i_kind i = RegularFile) as (dir1 & w1 & i & Eo & Hf1 & Hi & Hk).
  { unfold open_or_create, open_new, open_existing, next_fault. rewrite Hf. destruct (dir !! path) as [i|] eqn:Ei.
    - rewrite Hf, Ei. destruct i as [k mode]. cbn in Hp. subst k. rewrite bool_decide_false by done. by do 3 eexists.
    - rewrite bool_decide_true by done. do 3 eexists. split; [done|]. cbn. by rewrite lookup_insert_eq. }
  unfold ensure_metadata_file. rewrite (eff_bind_ok _ _ _ _ _ Eo).
  rewrite (eff_bind_ok _ _ _ (i, Z.of_nat (length (disk_data (disk_at w1 (file_of path))))) (dir1, w1))
    by (unfold on_files, stat, next_fault; by rewrite Hf1, Hi).
  rewrite Hk. match goal with |- context [(?m ≫= _) (dir1, w1)] =>
    assert (exists dir2, m (dir1, w1) = Done (Ok tt, (dir2, w1)) /\ exists i, dir2 !! path = Some i /\ i_kind i = RegularFile) as (dir2 & Ep & Hi2) end.
  { destruct (negb _); [|by eauto]. unfold on_files, set_permissions, next_fault. rewrite Hf1, Hi. eexists. split; [done|].
    rewrite lookup_insert_eq. by eexists. }
  rewrite (eff_bind_ok _ _ _ _ _ Ep).
  match goal with |- context [(?m ≫= _) (dir2, w1)] =>
    assert (exists w2, m (dir2, w1) = Done (Ok tt, (dir2, w2)) /\ w_faults w2 = []) as (w2 & El & Hf2) end.
  { destruct (_ <? _); [|by eexists]. unfold on_world, set_len, next_fault. rewrite (proj2 (Z.ltb_ge _ _) Hm), Hf1. by eexists. }
  rewrite (eff_bind_ok _ _ _ _ _ El). unfold sync_all, next_fault.
  rewrite (eff_bind_ok _ _ _ tt (dir2, set_disks w2 (<[file_of path := mkDisk (disk_data (disk_at w2 (file_of path)))
    (disk_data (disk_at w2 (file_of path)))]> (w_disks w2)))) by (unfold on_world; by rewrite Hf2).
  eexists dir2, _. split; [|split; [exact Hi2|reflexivity]]. exact Hf2.
Qed.

(** It succeeds on a new path in some directory, and on a regular file. *)
Lemma ensure_succeeds path minimum_size dir w : w_faults w = [] -> Z.of_nat minimum_size <= I64_MAX ->
  match dir !! path with
  | Some i => i_kind i = RegularFile
  | None => exists c parent, path_parent path = Some (c :: parent)
  end ->
  exists dir' w', ensure_metadata_file umask path minimum_size (dir, w) = Done (Ok tt, (dir', w')) /\ w_faults w' = [].
Proof.
  intros Hf Hm Hp. destruct (ensure_reaches path minimum_size dir w Hf Hm) as (dir' & w' & Hf' & _ & ->); [by destruct (dir !! path)|].
  destruct (dir !! path); [rewrite bool_decide_false by done; by do 2 eexists|]. rewrite bool_decide_true by done.
  destruct Hp as (c & parent & ->). unfold on_world, sync_dir, next_fault. rewrite Hf'. cbn. rewrite Hf'. by do 2 eexists.
Qed.

(** A metadata path without a directory.  Without any fault, the first
    call for a new file that is named without a directory, such as [meta], fails
    with an I/O error, after it has created the file: the parent of such a path
    is the empty path, which cannot be opened to be synced.  The same call
    succeeds when it is repeated, since the file is then there. *)
Lemma bare_path_fails_once path minimum_size dir w : path_parent path = Some [] -> dir !! path = None ->
  w_faults w = [] -> Z.of_nat minimum_size <= I64_MAX ->
  exists dir1 w1, ensure_metadata_file umask path minimum_size (dir, w) = Done (Err (IoError OtherIo), (dir1, w1)) /\
    is_Some (dir1 !! path) /\
    exists dir2 w2, ensure_metadata_file umask path minimum_size (dir1, w1) = Done (Ok tt, (dir2, w2)).
Proof.
  intros Hp Hn Hf Hm. destruct (ensure_reaches path minimum_size dir w Hf Hm) as (dir1 & w1 & Hf1 & (i & Hi & Hk) & ->); [by rewrite Hn|].
  rewrite bool_decide_true, Hp by done. exists dir1, w1. split; [|split; [by eexists|]].
  - unfold on_world, sync_dir, next_fault. by rewrite Hf1.
  - destruct (ensure_succeeds path minimum_size dir1 w1 Hf1 Hm) as (dir2 & w2 & -> & _); [by rewrite Hi|]. by do 2 eexists.
Qed.
End ensured.

(** ** Initialized metadata is what a backend loads *)

Lemma new_from_stripe_source_wf shift n has : 0 <= shift <= MAX_STRIPE_SECTOR_COUNT_SHIFT -> Z.of_nat n <= U32_MAX ->
  metadata_wf (new_from_stripe_source shift n has).
Proof.
  intros Hs Hn. split; try done; cbn [stripe_headers new_from_stripe_source]; [|by rewrite length_map, length_seq].
  apply Forall_map, Forall_forall. intros i _. cbn. by destruct (has i).
Qed.

Section initialized.
Context {R V N T : Type} `{RingLaws R} `{XtsLaws} `{FileNames} `{S3Client V} `{Network N T} `{Stream T}.
Context `{Hashing} `{Codecs} `{Aead}.
Context (crc32 : list Z -> Z) (host : BuildHost V N) (umask : Z) (rounds : nat) (statfs : string -> option Z).
#[local] Set Default Proof Using "Type*".

(** The metadata that belongs to a configuration. *)
Definition initial_metadata (config : Config) (shift : Z) (w : World) (m : UbiMetadata) : Prop :=
  let count := Z.to_nat (div_ceil (file_sectors w (file_of (data_path (cfg_device config)))) (2 ^ shift)) in
  match cfg_stripe_source config with
  | None => m = new_metadata shift count 0
  | Some _ => exists src : BuiltSource R, build R (T := T) crc32 host (S rounds) (mkBuilder config (2 ^ shift) false) w = Done (Ok src) /\
      m = new_from_stripe_source shift count (has_stripe src)
  end.

Lemma initial_metadata_wf config shift w m : 0 <= shift <= MAX_STRIPE_SECTOR_COUNT_SHIFT ->
  div_ceil (file_sectors w (file_of (data_path (cfg_device config)))) (2 ^ shift) <= U32_MAX ->
  initial_metadata config shift w m -> metadata_wf m.
Proof.
  intros Hs Hc. assert (Z.of_nat (Z.to_nat (div_ceil (file_sectors w (file_of (data_path (cfg_device config)))) (2 ^ shift))) <= U32_MAX)
    by (unfold U32_MAX in *; lia).
  unfold initial_metadata. destruct (cfg_stripe_source config).
  - intros (src & _ & ->). by apply new_from_stripe_source_wf.
  - intros ->. by apply new_metadata_wf.
Qed.

(** The image of a configuration that was initialized is there. *)
Lemma initial_image config shift w m s p : 0 <= shift -> initial_metadata config shift w m ->
  cfg_stripe_source config = Some s -> raw_image_path s = Some p -> whole_sectors w (file_of p).
Proof.
  intros Hs Hi Hc Hp. unfold initial_metadata in Hi. rewrite Hc in Hi. destruct Hi as (src & Eb & _).
  destruct (built_source_fits crc32 host (S rounds) (mkBuilder config (2 ^ shift) false) w src) as (_ & _ & _ & Hsrc); [cbn; lia|done|].
  specialize (Hsrc eq_refl). cbn in Hsrc. rewrite Hc in Hsrc. destruct s; try done. injection Hp as <-. destruct src; [|done]. by apply Hsrc.
Qed.

(** The calls of an initialization that succeeded. *)
Lemma init_metadata_steps config shift mp dir w dir' w' : config_safe config -> 0 <= shift <= MAX_STRIPE_SECTOR_COUNT_SHIFT ->
  metadata_path (cfg_device config) = Some mp ->
  init_metadata R (T := T) crc32 host umask (S rounds) config shift (dir, w) = Done (Ok tt, (dir', w')) ->
  exists m d w1, initial_metadata config shift w m /\ whole_sectors w (file_of (data_path (cfg_device config))) /\
    ensured mp (metadata_size m) dir w dir' w1 /\
    build_block_device R mp config false w1 = Done (Ok d) /\
    save_to_bdev (C := DataChannel R) crc32 (S rounds) m d w1 = Done (Ok tt, w').
Proof.
  intros Hc Hs Hm E. unfold init_metadata in E.
  apply eff_bind_inv in E as [(mp' & [dir1 w1] & E1 & E)|(e & _ & ?)]; [|done]. unfold lift_result in E1. rewrite Hm in E1.
  injection E1 as <- <- <-. apply eff_bind_inv in E as [(dev & [dir2 w2] & E2 & E)|(e & _ & ?)]; [|done].
  unfold peek in E2. pose proof (build_block_device_spec (R := R) (data_path (cfg_device config)) config false w Hc) as Hdev.
  destruct (build_block_device R (data_path _) config false w) as [[dev'|]|]; [|done..]. injection E2 as <- <- <-. destruct Hdev as (Hdp & Hsec & _).
  rewrite Z.shiftl_1_l, (Z.mod_small shift 64) in E by (unfold MAX_STRIPE_SECTOR_COUNT_SHIFT in Hs; lia).
  apply eff_bind_inv in E as [(m & [dir3 w3] & E3 & E)|(e & _ & ?)]; [|done].
  assert (initial_metadata config shift w m /\ dir3 = dir /\ w3 = w) as (Him & -> & ->).
  { unfold initial_metadata. replace (dev_stripe_count (C := DataChannel R) dev' (2 ^ shift)) with
      (Z.to_nat (div_ceil (file_sectors w (file_of (data_path (cfg_device config)))) (2 ^ shift))) in E3
      by (unfold dev_stripe_count; by rewrite <- Hsec).
    destruct (cfg_stripe_source config).
    - apply eff_bind_inv in E3 as [(src & [dir4 w4] & E4 & E3)|(e & _ & ?)]; [|done]. unfold peek in E4.
      destruct (build R _ _ _ _ w) as [[src'|]|] eqn:Eb; [|done..]. injection E4 as <- <- <-. injection E3 as <- <- <-.
      split; [|done]. exists src'. by split.
    - injection E3 as <- <- <-. by split. }
  apply eff_bind_inv in E as [([] & [dir5 w5] & E5 & E)|(e & _ & ?)]; [|done]. apply ensure_spec in E5 as [Hen _].
  apply eff_bind_inv in E as [(d & [dir6 w6] & E6 & E)|(e & _ & ?)]; [|done]. unfold peek in E6.
  destruct (build_block_device R mp config false w5) as [[d'|]|] eqn:Ed; [|done..]. injection E6 as <- <- <-.
  unfold save_metadata in E. destruct (save_to_bdev _ _ _ _ w5) as [[r w7]|] eqn:Es; [|done]. injection E as -> <- <-.
  exists m, d', w5. by split_and!.
Qed.

Lemma whole_sectors_same w v path : w_disks v !! path = w_disks w !! path -> whole_sectors w path -> whole_sectors v path.
Proof. intros E (d & Hd & Hl). exists d. by rewrite E. Qed.

Lemma whole_sectors_length w path : whole_sectors w path ->
  is_Some (w_disks w !! path) /\ exists n, length (disk_data (disk_at w path)) = (n * SECTOR_SIZE)%nat.
Proof.
  intros (d & Hd & Hm). unfold disk_at. rewrite Hd. split; [by eexists|]. cbn. exists (length (disk_data d) / SECTOR_SIZE)%nat.
  rewrite <- Nat2Z.inj_mod in Hm. pose proof (Nat.div_mod_eq (length (disk_data d)) SECTOR_SIZE). lia.
Qed.

(** A device that is there, in a later world. *)
Lemma build_again path config w : config_safe config -> whole_sectors w (file_of path) ->
  exists d, build_block_device R path config false w = Done (Ok d).
Proof.
  intros Hc Hw. pose proof (build_block_device_spec (R := R) path config false w Hc) as Hb.
  destruct (build_block_device R path config false w) as [[d|]|]; [by eexists|done..].
Qed.

Lemma image_again config w : (forall s p, cfg_stripe_source config = Some s -> raw_image_path s = Some p -> whole_sectors w (file_of p)) ->
  exists image, build_raw_image_device R config w = Ok image.
Proof.
  intros Hw. unfold build_raw_image_device. destruct (cfg_stripe_source config) as [s|]; [|by eexists]. cbn [mbind option_bind].
  destruct (raw_image_path s) as [p|] eqn:Ep; [|by eexists]. specialize (Hw s p eq_refl Ep).
  pose proof (engine_device_spec (R := R) (io_engine (cfg_tuning config)) p 64 true true (write_through (cfg_tuning config)) w eq_refl) as He.
  destruct (create_io_engine_device _ _ _ _ _ _ _ _); [by eexists|done].
Qed.

Lemma save_ok_bound m (d : DataDevice R) w w' :
  save_to_bdev (C := DataChannel R) crc32 (S rounds) m d w = Done (Ok tt, w') -> sector_count (C := DataChannel R) d <= U32_MAX.
Proof.
  unfold save_to_bdev. destruct (create_channel d w); [|done]. destruct (U32_MAX <? _) eqn:E; [done|]. intros _. by apply Z.ltb_ge in E.
Qed.

(** The files and the configuration hold metadata [m] on [n] sectors, and can
    be opened. *)
Record startable (config : Config) (mp : string) (m : UbiMetadata) (n : nat) (v : World) : Prop := {
  st_safe : config_safe config;
  st_engine : io_engine (cfg_tuning config) = SyncEngine;
  st_path : metadata_path (cfg_device config) = Some mp;
  st_wf : metadata_wf m;
  st_fit : (metadata_size m <= n * SECTOR_SIZE)%nat;
  st_sectors : Z.of_nat n <= U32_MAX;
  st_faults : w_faults v = [];
  st_there : is_Some (w_disks v !! file_of mp);
  st_data : disk_data (disk_at v (file_of mp)) = stored config n (saved_image crc32 m n);
  st_length : length (disk_data (disk_at v (file_of mp))) = (n * SECTOR_SIZE)%nat;
  st_disk : whole_sectors v (file_of (data_path (cfg_device config)));
  st_image s p : cfg_stripe_source config = Some s -> raw_image_path s = Some p -> whole_sectors v (file_of p);
}.

(** The metadata device of such files, and loading from it. *)
Lemma startable_loads config mp m n v : startable config mp m n v ->
  exists d : DataDevice R, build_block_device R mp config false v = Done (Ok d) /\
  forall v1, w_disks v1 = w_disks v -> w_faults v1 = [] ->
    exists v2, load_from_bdev (C := DataChannel R) crc32 (S rounds) d v1 = Done (Ok m, v2) /\ w_disks v2 = w_disks v /\ w_faults v2 = [].
Proof.
  intros [Hc He _ Hwf Hfit Hn _ Hd Hdata Hl _ _].
  destruct (sync_stack_backed mp config v n Hc He Hd Hl) as (d & rest & Ed & Hfb). exists d. split; [done|]. intros v1 Hv Hf.
  destruct (load_resolved crc32 m d rest _ _ n Hfb Hwf Hfit Hn rounds v1) as (v2 & El & Hd2 & Hf2); [by rewrite Hv|done|unfold disk_at; by rewrite Hv|].
  exists v2. by rewrite Hd2, Hv.
Qed.

(** The configuration of the worker that belongs to metadata [m]. *)
Definition worker_config config m bs (dev d : DataDevice R) : BgWorkerConfig R :=
  mkBgConfig R dev (mkBuilder config (stripe_sector_count m) (has_fetched_all_stripes m)) d (BUFFER_ALIGNMENT `max` wrap64 bs)
    (match cfg_stripe_source config with Some s => ssc_autofetch s | None => false end).

(** Building the environment on files that hold metadata [m]. *)
Lemma env_build_loads config mp m n bs v : startable config mp m n v -> statfs (data_path (cfg_device config)) = Some bs ->
  exists env v' dev d, env_build R (V := V) (N := N) (T := T) crc32 (S rounds) statfs config v = Done (Ok env, v') /\
    build_block_device R mp config false v = Done (Ok d) /\
    w_shared v' = new_shared m /\ w_requests v' = [] /\ w_worker_alive v' = true /\ w_disks v' = w_disks v /\ w_faults v' = [] /\
    (fresh_world v -> fresh_world v') /\ (exists l, env_bdev _ env = inr l) /\
    bgworker_sender _ env = true /\ bgworker_thread _ env = None /\ bgworker_config _ env = Some (worker_config config m bs dev d).
Proof.
  intros Hst Hbs. destruct (startable_loads _ _ _ _ _ Hst) as (d & Ed & Hload). destruct (Hload v eq_refl (st_faults _ _ _ _ _ Hst)) as (w1 & El & Hd1 & Hf1).
  unfold env_build, determine_alignment. rewrite Hbs, (st_path _ _ _ _ _ Hst).
  destruct (build_again (data_path (cfg_device config)) config v (st_safe _ _ _ _ _ Hst) (st_disk _ _ _ _ _ Hst)) as [dev Edev].
  rewrite Edev, Ed. cbn [mbind outcome_bind]. unfold build_with_bgworker. rewrite El. cbn [mbind outcome_bind]. unfold build_bdev_lazy.
  destruct (image_again config (share m w1)) as [image Ei].
  { intros s p Hs Hp. apply (whole_sectors_same v); [cbn; by rewrite Hd1|by eapply (st_image _ _ _ _ _ Hst)]. }
  assert (exists image, (match cfg_stripe_source config with
    | Some s => if copy_on_read s then Ok None else build_raw_image_device R config (share m w1) | None => Ok None end) = Ok image) as [image' ->].
  { rewrite Ei. destruct (cfg_stripe_source config) as [s|]; [destruct (copy_on_read s)|]; by eexists. }
  cbn [mbind result_bind]. do 2 eexists. exists dev, d. split; [done|]. split_and!; try done.
  - intros Hfr. pose proof (load_frame (C := DataChannel R) crc32 (S rounds) d v _ w1 Hfr El) as (_ & _ & Hfw & _). exact (Hfw Hfr).
  - by eexists.
  - cbn. unfold worker_config. repeat f_equal. unfold shared_stripe_sector_count. cbn [w_shared share].
    by destruct (new_shared_states m) as (_ & _ & ->).
Qed.

(** What an initialization needs to succeed. *)
Record initializable (config : Config) (shift : Z) (mp : string) (dir : Directory) (w : World) : Prop := {
  in_faults : w_faults w = [];
  in_data : whole_sectors w (file_of (data_path (cfg_device config)));
  in_source : is_Some (cfg_stripe_source config) ->
    exists src : BuiltSource R, build R (T := T) crc32 host (S rounds) (mkBuilder config (2 ^ shift) false) w = Done (Ok src);
  in_path : match dir !! mp with
    | Some i => i_kind i = RegularFile /\ whole_sectors w (file_of mp) /\ file_sectors w (file_of mp) <= U32_MAX
    | None => exists c parent, path_parent mp = Some (c :: parent)
    end;
}.

Lemma metadata_size_bound m : metadata_wf m -> Z.of_nat (metadata_size m) <= U32_MAX * 2 /\ (metadata_size m `mod` SECTOR_SIZE = 0)%nat.
Proof.
  intros Hwf. pose proof (wf_count _ Hwf) as Hc. unfold metadata_size, stripe_header_sector_count. split.
  - pose proof (ndiv_ceil_spec (length (stripe_headers m)) STRIPE_HEADERS_PER_SECTOR ltac:(unfold STRIPE_HEADERS_PER_SECTOR, SECTOR_SIZE, CRC32_SIZE; lia)).
    unfold STRIPE_HEADERS_PER_SECTOR, SECTOR_SIZE, CRC32_SIZE, U32_MAX in *. lia.
  - rewrite <- (Nat.mul_1_l SECTOR_SIZE) at 1. rewrite <- Nat.mul_add_distr_r. apply Nat.Div0.mod_mul.
Qed.

Lemma grown_sectors old k : (length old `mod` SECTOR_SIZE = 0)%nat -> (k `mod` SECTOR_SIZE = 0)%nat ->
  exists n, length (grown old k) = (n * SECTOR_SIZE)%nat /\ (n * SECTOR_SIZE = length old \/ n * SECTOR_SIZE = k)%nat.
Proof.
  intros Ho Hk. unfold grown. rewrite length_app, length_replicate.
  pose proof (Nat.div_mod_eq (length old) SECTOR_SIZE). pose proof (Nat.div_mod_eq k SECTOR_SIZE).
  destruct (Nat.le_ge_cases k (length old)); [exists (length old / SECTOR_SIZE)%nat|exists (k / SECTOR_SIZE)%nat]; lia.
Qed.

Lemma init_metadata_succeeds config shift mp dir w : config_safe config -> io_engine (cfg_tuning config) = SyncEngine ->
  metadata_path (cfg_device config) = Some mp -> 0 <= shift <= MAX_STRIPE_SECTOR_COUNT_SHIFT ->
  div_ceil (file_sectors w (file_of (data_path (cfg_device config)))) (2 ^ shift) <= U32_MAX ->
  initializable config shift mp dir w ->
  exists dir' w', init_metadata R (T := T) crc32 host umask (S rounds) config shift (dir, w) = Done (Ok tt, (dir', w')).
Proof.
  intros Hc He Hm Hs Hcnt [Hf Hdp Hsrc Hp].
  destruct (build_again (data_path (cfg_device config)) config w Hc Hdp) as [dev Edev].
  pose proof (build_block_device_spec (R := R) (data_path (cfg_device config)) config false w Hc) as Hsec. rewrite Edev in Hsec. destruct Hsec as (_ & Hsec & _).
  assert (exists m, initial_metadata config shift w m) as [m Him].
  { unfold initial_metadata. destruct (cfg_stripe_source config); [|by eexists]. destruct (Hsrc ltac:(by eexists)) as [src Eb]. by eexists _, src. }
  pose proof (initial_metadata_wf _ _ _ _ Hs Hcnt Him) as Hwf. destruct (metadata_size_bound m Hwf) as [Hms Hmm].
  destruct (ensure_succeeds umask mp (metadata_size m) dir w Hf) as (dir1 & w1 & Een & Hf1);
    [unfold U32_MAX, I64_MAX in *; lia|by destruct (dir !! mp); [apply Hp|]|].
  pose proof (proj1 (ensure_spec _ _ _ _ _ _ _ Een)) as Hen. pose proof (en_disk _ _ _ _ _ _ Hen) as Hd.
  assert (exists n, length (disk_data (disk_at w1 (file_of mp))) = (n * SECTOR_SIZE)%nat /\ Z.of_nat n <= U32_MAX /\ (metadata_size m <= n * SECTOR_SIZE)%nat)
    as (n & Hl & Hn & Hfit).
  { unfold disk_at. rewrite Hd. cbn. destruct (grown_sectors (old_contents mp dir w) (metadata_size m)) as (n & Hg & Hor); [|done|].
    - unfold old_contents. destruct (dir !! mp); [|done]. destruct Hp as (_ & Hw & _). destruct (whole_sectors_length _ _ Hw) as [_ [k ->]]. apply Nat.Div0.mod_mul.
    - exists n. split; [done|]. split; [|rewrite <- Hg; unfold grown; rewrite length_app, length_replicate; lia].
      destruct Hor as [Hor|Hor]; [|unfold SECTOR_SIZE, U32_MAX in *; lia]. unfold old_contents in Hor.
      destruct (dir !! mp); [|cbn in Hor; unfold SECTOR_SIZE, U32_MAX in *; lia]. destruct Hp as (_ & _ & Hb). unfold file_sectors in Hb.
      rewrite <- Hor, Nat2Z.inj_mul, Z.div_mul in Hb by done. done. }
  destruct (sync_stack_backed mp config w1 n Hc He) as (d & rest & Ed & Hfb); [by rewrite Hd|done|].
  destruct (save_then_load crc32 m d rest _ _ n Hfb Hwf Hfit Hn rounds w1) as (r & w2 & Es & Hr & _); [by rewrite Hd|done|].
  destruct (Hr Hf1) as [-> _]. exists dir1, w2. unfold init_metadata.
  rewrite (eff_bind_ok _ _ _ mp (dir, w)) by (unfold lift_result; by rewrite Hm).
  rewrite (eff_bind_ok _ _ _ dev (dir, w)) by (unfold peek; by rewrite Edev).
  rewrite Z.shiftl_1_l, (Z.mod_small shift 64) by (unfold MAX_STRIPE_SECTOR_COUNT_SHIFT in Hs; lia).
  replace (dev_stripe_count (C := DataChannel R) dev (2 ^ shift)) with
    (Z.to_nat (div_ceil (file_sectors w (file_of (data_path (cfg_device config)))) (2 ^ shift)))
    by (unfold dev_stripe_count; by rewrite <- Hsec).
  rewrite (eff_bind_ok _ _ _ m (dir, w)).
  - rewrite (eff_bind_ok _ _ _ _ _ Een). rewrite (eff_bind_ok _ _ _ d (dir1, w1)) by (unfold peek; by rewrite Ed).
    unfold save_metadata. by rewrite Es.
  - unfold initial_metadata in Him. destruct (cfg_stripe_source config); [|by rewrite Him]. destruct Him as (src & Eb & ->).
    rewrite (eff_bind_ok _ _ _ src (dir, w)) by (unfold peek; by rewrite Eb). done.
Qed.

(** C14: metadata that was initialized is what the backend loads.  For a
    configuration that loads, with the synchronous engine, with or without
    encryption, whose metadata file is not one of the other files and whose disk
    has at most [U32_MAX] stripes.  [init_metadata] succeeds if nothing fails, the
    disk and the stripe source open, and the metadata path is a regular file of
    whole sectors or is new in a directory that its name gives ([initializable];
    a new path without a directory fails, see [bare_path_fails_once]).  When it
    reports success, on any sequence of faults, the metadata path is a regular
    file that only its owner can use, and its stable contents are an image of the
    metadata that belongs to the configuration: the stripes of the disk, with
    source bits for the stripes of the stripe source.  A backend built later, in
    any state of the process with the same files and without faults, shares the
    states of exactly that metadata with its threads and leaves the files as they
    are. *)
Theorem init_metadata_loads config shift mp dir w :
  config_safe config -> io_engine (cfg_tuning config) = SyncEngine -> metadata_path (cfg_device config) = Some mp ->
  file_of (data_path (cfg_device config)) <> file_of mp ->
  (forall s p, cfg_stripe_source config = Some s -> raw_image_path s = Some p -> file_of p <> file_of mp) ->
  0 <= shift <= MAX_STRIPE_SECTOR_COUNT_SHIFT ->
  div_ceil (file_sectors w (file_of (data_path (cfg_device config)))) (2 ^ shift) <= U32_MAX ->
  (initializable config shift mp dir w ->
    exists dir' w', init_metadata R (T := T) crc32 host umask (S rounds) config shift (dir, w) = Done (Ok tt, (dir', w'))) /\
  forall dir' w', init_metadata R (T := T) crc32 host umask (S rounds) config shift (dir, w) = Done (Ok tt, (dir', w')) ->
  (exists mode, dir' !! mp = Some (mkInode RegularFile mode) /\ Z.land mode MODE_BITS = PRIVATE_MODE) /\
  exists m n, initial_metadata config shift w m /\ metadata_wf m /\
    disk_synced (disk_at w' (file_of mp)) = stored config n (saved_image crc32 m n) /\
    forall v block_size, w_disks v = w_disks w' -> w_faults v = [] -> statfs (data_path (cfg_device config)) = Some block_size ->
      exists env v', env_build R (V := V) (N := N) (T := T) crc32 (S rounds) statfs config v = Done (Ok env, v') /\
        w_shared v' = new_shared m /\ w_requests v' = [] /\ w_disks v' = w_disks v.
Proof.
  intros Hc He Hm Hdm Him Hs Hcnt. split; [by apply init_metadata_succeeds|]. intros dir' w' E.
  destruct (init_metadata_steps config shift mp dir w dir' w' Hc Hs Hm E) as (m & d & w1 & Hinit & Hdp & Hen & Ed & Es).
  split; [apply (en_private _ _ _ _ _ _ Hen)|]. pose proof (initial_metadata_wf _ _ _ _ Hs Hcnt Hinit) as Hwf.
  pose proof (build_block_device_spec (R := R) mp config false w1 Hc) as Hb. rewrite Ed in Hb. destruct Hb as (Hw1 & Hsc & _).
  destruct (whole_sectors_length _ _ Hw1) as [Hd1 [n Hl]]. pose proof (save_ok_bound _ _ _ _ Es) as Hbound.
  assert (Z.of_nat n <= U32_MAX) as Hn.
  { refine (Z.le_trans _ _ _ _ Hbound). refine (eq_ind_r (fun z => _ <= z) _ Hsc). unfold file_sectors. rewrite Hl.
    rewrite Nat2Z.inj_mul, Z.div_mul by done. lia. }
  assert (metadata_size m <= n * SECTOR_SIZE)%nat as Hfit.
  { rewrite <- Hl. unfold disk_at. rewrite (en_disk _ _ _ _ _ _ Hen). cbn. unfold grown. rewrite length_app, length_replicate. lia. }
  destruct (sync_stack_backed mp config w1 n Hc He Hd1 Hl) as (d0 & rest & Ed0 & Hfb). rewrite Ed0 in Ed. injection Ed as ->.
  destruct (save_then_load crc32 m d rest _ _ n Hfb Hwf Hfit Hn rounds w1 Hd1 Hl) as (r & w2 & Es' & _ & Hoth & Hd2 & Hok).
  assert (r = Ok tt /\ w2 = w') as [-> ->] by (split; congruence). destruct (Hok eq_refl) as [Hsy Hda]. exists m, n. split_and!; [done..|].
  assert (forall p, whole_sectors w p -> p <> file_of mp -> whole_sectors w' p) as Hlater.
  { intros p Hp Hne. apply (whole_sectors_same w); [|done]. rewrite Hoth by done. by apply (en_disks _ _ _ _ _ _ Hen). }
  assert (forall v p, w_disks v = w_disks w' -> whole_sectors w' p -> whole_sectors v p) as Hv.
  { intros v p Hv. apply whole_sectors_same. by rewrite Hv. }
  intros v bs Hvd Hvf Hst. assert (startable config mp m n v) as Hv'.
  { split; try done.
    - by rewrite Hvd.
    - unfold disk_at in *. by rewrite Hvd.
    - unfold disk_at in *. rewrite Hvd, Hda. rewrite (fb_length _ _ _ _ _ Hfb); by rewrite length_saved_image.
    - by apply Hv, Hlater.
    - intros s p Hsrc Hp. apply Hv, Hlater; [done| |by eapply Him]. eapply (initial_image config shift); [apply Hs|done..]. }
  destruct (env_build_loads config mp m n bs v Hv' Hst) as (env & v' & _ & _ & Eb & _ & Hsh & Hrq & _ & Hds & _). eauto 10.
Qed.
End initialized.

(** ** Running and stopping the worker *)

Section stop.
Context {R V N T : Type} `{Ring R} `{XtsAes} `{FileNames} `{S3Client V} `{Network N T} `{Stream T}.
Context `{Hashing} `{Codecs} `{Aead} (crc32 : list Z -> Z).
Implicit Types (b : Worker R (V := V) (N := N) (T := T)) (env : BackendEnv R (V := V) (N := N) (T := T)) (w : World).

(** The request to shut down ends the loop, whatever is queued before it. *)
Lemma drain_shutdown senders reqs : forall b w b', drain senders (reqs ++ [Shutdown]) b w = Done b' -> bw_done b' = true.
Proof.
  induction reqs as [|r reqs IH]; intros b w b'; cbn [drain app].
  - cbn. destruct senders; by intros [= <-].
  - destruct (BgWorker.process_request r b w) as [b1|]; [|done]. cbn [mbind outcome_bind]. by apply IH.
Qed.

Lemma receive_shutdown block senders b w reqs r : w_requests w = reqs ++ [Shutdown] ->
  receive_requests block senders b w = Done r -> exists b' w', r = Some (b', w') /\ bw_done b' = true.
Proof.
  intros Hq. unfold receive_requests. rewrite Hq. destruct block.
  - destruct reqs as [|q reqs]; cbn [app].
    + cbn. destruct senders; intros [= <-]; by do 2 eexists.
    + destruct (BgWorker.process_request q b w) as [b1|]; [|done]. cbn [mbind outcome_bind].
      destruct (drain senders (reqs ++ [Shutdown]) b1 w) as [b2|] eqn:Ed; [|done]. intros [= <-].
      do 2 eexists. split; [done|]. by eapply drain_shutdown.
  - destruct (drain senders (reqs ++ [Shutdown]) b w) as [b2|] eqn:Ed; [|done]. intros [= <-].
    do 2 eexists. split; [done|]. by eapply drain_shutdown.
Qed.

Lemma shutdown_ends senders b w reqs : w_requests w = reqs ++ [Shutdown] ->
  exists w', run_worker R crc32 1 senders b w = Some (receiver_gone w').
Proof.
  intros Hq. cbn [run_worker]. destruct (bw_done b) eqn:Hd; [by eexists|]. unfold run_iteration. rewrite Hd.
  destruct (receive_requests _ senders b w) as [r|] eqn:Er; [|by eexists]. cbn [mbind outcome_bind].
  destruct (receive_shutdown _ _ _ _ _ _ Hq Er) as (b1 & w1 & -> & Hd1).
  destruct (worker_update crc32 b1 w1) as [[b2 w2]|] eqn:Eu; [|by eexists]. cbn [mbind outcome_bind].
  assert (bw_done b2 = true) as ->; [|by eexists]. rewrite <- Hd1. clear Er. revert Eu. unfold worker_update.
  destruct (fetcher_update _ _) as [[f w3]|]; [|done]. cbn [mbind outcome_bind]. destruct (take_finished_fetches f) as [fin f'].
  destruct (for_each _ _ _) as [fl|]; [|done]. cbn [mbind outcome_bind].
  destruct (flusher_update crc32 fl w3) as [[fl' w4]|]; [|done]. by intros [= <- <-].
Qed.

(** A thread that runs can be asked to stop; otherwise nobody listens. *)
Definition stoppable env w : Prop :=
  match bgworker_thread R env with
  | Some (Running _ _) => bgworker_sender R env = true /\ w_worker_alive w = true
  | _ => w_worker_alive w = false
  end.

Lemma stop_returns env w : stoppable env w ->
  exists w', stop_bgworker_thread R crc32 1 env w = Some (env_set R env (bgworker_config R env) false None, w') /\
    w_worker_alive w' = false /\
    stop_bgworker_thread R crc32 1 (env_set R env (bgworker_config R env) false None) w'
      = Some (env_set R env (bgworker_config R env) false None, w').
Proof.
  unfold stoppable, stop_bgworker_thread. destruct (bgworker_thread R env) as [[b|]|].
  2-3: intros Ha; unfold LazyDevice.send; rewrite Ha; destruct (bgworker_sender R env); by eexists.
  intros [-> Ha]. unfold LazyDevice.send. rewrite Ha.
  match goal with |- context [run_worker R crc32 1 ?s b ?v] => destruct (shutdown_ends s b v (w_requests w) eq_refl) as [w' ->] end.
  by eexists.
Qed.
End stop.

Section started.
Context {R V N T : Type} `{RingLaws R} `{!RingReliable R} `{XtsLaws} `{FileNames} `{S3Client V} `{Network N T} `{Stream T}.
Context `{Hashing} `{Codecs} `{Aead}.
Context (crc32 : list Z -> Z) (host : BuildHost V N) (rounds : nat) (statfs : string -> option Z) (thread : bool).
#[local] Set Default Proof Using "Type*".
Notation Env := (BackendEnv R (V := V) (N := N) (T := T)).

(** The worker keeps the metadata that it loads. *)
Lemma worker_metadata k (src : Source R (V := V) (N := N) (T := T)) (dev d : DataDevice R) alignment autofetch m w w1 b w' :
  load_from_bdev (C := DataChannel R) crc32 k d w = Done (Ok m, w1) ->
  worker_new (C := DataChannel R) (M := DataChannel R) crc32 k src dev d alignment autofetch w = Done (Ok b, w') ->
  mf_metadata (bw_flusher b) = m.
Proof.
  intros El. unfold worker_new, flusher_new. destruct (create_channel d w) as [ch|]; [|done]. rewrite El. cbn [mbind outcome_bind].
  destruct (stripe_count m <? _); [done|]. destruct (new_pool _ _ _ w1) as [[pool w2]|]; [|done]. cbn [mbind outcome_bind].
  destruct (fetcher_new _ _ _ _ _ w2) as [[[f|] w3]|]; [|done..]. by intros [= <- <-].
Qed.

(** A worker that was started is in the state its invariant asks for. *)
Lemma worker_started config mp m n bs v (dev d : DataDevice R) v1 b v2 :
  startable crc32 config mp m n v -> Forall header_ok (stripe_headers m) -> is_power_of_two (BUFFER_ALIGNMENT `max` wrap64 bs) = true ->
  build_block_device R mp config false v = Done (Ok d) ->
  fresh_world v1 -> w_disks v1 = w_disks v -> w_faults v1 = [] -> w_shared v1 = new_shared m -> w_requests v1 = [] ->
  build_bgworker R (V := V) (N := N) (T := T) crc32 host (S rounds) (worker_config config m bs dev d) v1 = Done (Ok b, v2) ->
  worker_inv (fun id => stripe_fetch_states (new_shared m) !! id = Some Fetched) b v2.
Proof.
  intros Hst Hok Hal Ed Hfr Hd Hf Hsh Hrq E. destruct (startable_loads crc32 rounds _ _ _ _ _ Hst) as (d' & Ed' & Hload).
  rewrite Ed' in Ed. injection Ed as ->. destruct (Hload v1 Hd Hf) as (w1 & El & _).
  unfold build_bgworker, worker_config in E. cbn [bc_stripe_source_builder bc_target_dev bc_metadata_dev bc_alignment bc_autofetch] in E.
  destruct (build R crc32 host (S rounds) _ v1) as [[src|]|] eqn:Eb; [|done..]. cbn [mbind outcome_bind] in E.
  pose proof (worker_metadata (S rounds) src dev d _ _ m v1 w1 b v2 El E) as Hm.
  assert (0 <= stripe_sector_count m) as Hpos by (apply Z.shiftl_nonneg; lia).
  destruct (built_source_fits crc32 host (S rounds) (mkBuilder config (stripe_sector_count m) (has_fetched_all_stripes m)) v1 src Hpos Eb)
    as (Hsi & Hss & _).
  rewrite <- Hsh. refine (worker_new_inv crc32 (S rounds) src dev d _ _ v1 b v2 Hfr Hal E _ _ _ Hrq Hsi (built_source_idle _ _ _ _ _ _ Eb) _).
  - exact (eq_ind_r metadata_wf (st_wf _ _ _ _ _ _ Hst) Hm).
  - exact (eq_ind_r (fun m => Forall header_ok (stripe_headers m)) Hok Hm).
  - exact (eq_ind_r (fun m => w_shared v1 = new_shared m) Hsh Hm).
  - exact (eq_ind_r (fun m => ss_stripe_sectors src <= stripe_sector_count m) Hss Hm).
Qed.

(** C13: a backend that starts runs a worker that is safe, and that stops.  For a
    configuration with the synchronous engine, on files that hold metadata and
    while nothing fails ([startable]), the environment is built.  Starting its
    worker succeeds or fails, for instance because the stripe source cannot be
    reached.  If it fails, no worker runs and nobody receives requests.  If it
    succeeds, the worker runs, and from then on, with any interleaving of its
    loop, of requests for existing stripes from other threads and of I/O with any
    faults, its loop never panics, and a stripe is shown as fetched only if the
    loaded metadata says so or the worker has copied it.  At any time while the
    worker runs, and after a failed start, the environment can be stopped: the
    loop ends after at most one more iteration, nobody receives requests any
    more, and stopping again does nothing. *)
Theorem started_worker_serves config mp m n bs v :
  startable crc32 config mp m n v -> Forall header_ok (stripe_headers m) -> fresh_world v ->
  statfs (data_path (cfg_device config)) = Some bs -> is_power_of_two (BUFFER_ALIGNMENT `max` wrap64 bs) = true ->
  exists (env : Env) v1, env_build R crc32 (S rounds) statfs config v = Done (Ok env, v1) /\
  forall r env' v2, run_bgworker_thread R crc32 host (S rounds) thread env v1 = (r, env', v2) ->
  let stops (e : Env) w := exists e' w', stop_bgworker_thread R crc32 1 e w = Some (e', w') /\ bgworker_thread R e' = None /\
    w_worker_alive w' = false /\ stop_bgworker_thread R crc32 1 e' w' = Some (e', w') in
  match r with
  | Err _ => (forall b, bgworker_thread R env' <> Some (Running R b)) /\ w_worker_alive v2 = false /\ stops env' v2
  | Ok _ => exists b, bgworker_thread R env' = Some (Running R b) /\
      forall b' w, rtc (BgWorker.worker_step crc32) (b, v2) (b', w) ->
        (forall senders, exists r, run_iteration crc32 senders b' w = Done r) /\
        (forall id, stripe_fetch_states (w_shared w) !! id = Some Fetched ->
           stripe_fetch_states (new_shared m) !! id = Some Fetched \/ stripe_states (bw_fetcher b') !! id = Some FFetched) /\
        (w_worker_alive w = true -> stops (env_set R env' (bgworker_config R env') (bgworker_sender R env') (Some (Running R b'))) w)
  end.
Proof.
  intros Hst Hok Hfr Hbs Hal.
  destruct (env_build_loads crc32 host rounds statfs config mp m n bs v Hst Hbs)
    as (env & v1 & dev & d & Eb & Ed & Hsh & Hrq & Ha & Hd & Hf & Hfresh & _ & Hse & Hth & Hcf).
  exists env, v1. split; [exact Eb|]. intros r env' v2 E stops.
  assert (forall e w, stoppable e w -> stops e w) as Hstop.
  { intros e w Hs. destruct (stop_returns crc32 e w Hs) as (w' & E1 & E2 & E3). exists (env_set R e (bgworker_config R e) false None), w'. by split_and!. }
  unfold run_bgworker_thread in E. rewrite Hcf in E. destruct thread; cbn [negb] in E.
  2: { injection E as <- <- <-. assert (bgworker_thread R (env_set R env None (bgworker_sender R env) (bgworker_thread R env)) = None) as Hn
         by (by cbn). split_and!; [by rewrite Hn|done|]. apply Hstop. unfold stoppable. by rewrite Hn. }
  destruct (build_bgworker _ _ _ _ _ v1) as [[[b|] v3]|] eqn:Ew; injection E as <- <- <-; [|by split_and!; [..|apply Hstop]..].
  exists b. split; [done|]. intros b' w Hsteps.
  pose proof (worker_started config mp m n bs v dev d v1 b v3 Hst Hok Hal Ed (Hfresh Hfr) Hd Hf Hsh Hrq Ew) as Hinv.
  pose proof (worker_steps_inv crc32 _ _ _ Hsteps Hinv) as I. cbn [fst snd] in I. split_and!.
  - intros senders. destruct (run_iteration_inv crc32 _ senders b' w I) as [(E1 & _)|(b2 & w2 & E1 & _)]; by eexists.
  - apply (wi_published _ _ _ I).
  - intros Hal'. apply Hstop. by split.
Qed.
End started.

(** *** A backend over an image of two sectors *)

Section demo.
#[local] Existing Instances toy_codecs toy_hash toy_xts toy_xts_laws toy_aead no_network no_bucket.

(** A kernel without io_uring. *)
#[local] Instance no_ring : Ring Empty_set := {
  ring_new _ := Err (IoError OtherIo);
  push _ r := match r with end;
  ring_submit r _ := match r with end;
  ring_next r _ := match r with end;
  in_sq r := match r with end;
  in_kernel r := match r with end;
}.
#[local] Instance no_ring_laws : RingLaws Empty_set.
Proof. split; intros; try done; match goal with r : Empty_set |- _ => destruct r end. Qed.
#[local] Instance no_ring_reliable : RingReliable Empty_set.
Proof. split. intros []. Qed.

#[local] Instance backend_names : FileNames := {
  file_of p := if decide (p = "/disk"%string) then 7%nat else if decide (p = "/meta"%string) then 8%nat else 9%nat }.
Definition backend_demo_config : Config :=
  mkConfig (mkDevice "/disk" (Some "/meta"%string) None None "ubiblk" false) (mkTuning 1 128 65536 4 1000 None SyncEngine false) None
    (mkDanger true true false false false false) (Some (Raw "/image" false false)) ∅.
Definition backend_disks (meta : gmap nat Disk) : World :=
  mkWorld ∅ 0 (meta ∪ {[ 7%nat := mkDisk (replicate 1536 0) []; 9%nat := mkDisk (replicate 1024 6) [] ]})
    [] (mkShared [] [] 0 0 0) [] true.
Definition backend_demo_metadata : UbiMetadata := with_headers (new_metadata 0 3 0) [HAS_SOURCE; HAS_SOURCE; 0].

Lemma backend_demo_safe : config_safe backend_demo_config.
Proof. by split. Qed.

Definition backend_init :=
  init_metadata Empty_set (V := unit) (N := unit) (T := Pipe) crc32_ieee demo_host 18 1 backend_demo_config 0 (∅, backend_disks ∅).

Lemma init_metadata_loads_witness :
  exists dir' w', backend_init = Done (Ok tt, (dir', w')) /\
    (exists mode, dir' !! "/meta"%string = Some (mkInode RegularFile mode) /\ Z.land mode MODE_BITS = PRIVATE_MODE) /\
    exists env v', env_build Empty_set (V := unit) (N := unit) (T := Pipe) crc32_ieee 1 (fun _ => Some 4096) backend_demo_config w'
      = Done (Ok env, v') /\ w_requests v' = [].
Proof.
  destruct (init_metadata_loads (R := Empty_set) (T := Pipe) crc32_ieee demo_host 18 0 (fun _ => Some 4096) backend_demo_config 0 "/meta" ∅ (backend_disks ∅))
    as [Hok Hload].
  - exact backend_demo_safe.
  - reflexivity.
  - reflexivity.
  - vm_compute. discriminate.
  - intros s p [= <-] [= <-]. vm_compute. discriminate.
  - vm_compute. split; discriminate.
  - vm_compute. discriminate.
  - destruct Hok as (dir' & w' & E).
    + split; [done|by eexists| |cbn]. { intros _. eexists. vm_compute. reflexivity. } by do 2 eexists.
    + exists dir', w'. split; [exact E|]. destruct (Hload dir' w' E) as [Hm (m & n & _ & _ & _ & Hl)]. split; [exact Hm|].
      destruct (Hl w' 4096 eq_refl) as (env & v' & Eb & _ & Hq & _); [|reflexivity|exact (ex_intro _ env (ex_intro _ v' (conj Eb Hq)))].
      assert (match backend_init with Done (Ok _, (_, w)) => w_faults w = [] | _ => True end) as Hf by (vm_compute; reflexivity).
      unfold backend_init in Hf. rewrite E in Hf. exact Hf.
Defined.

Lemma bare_path_fails_once_witness :
  exists dir1 w1, ensure_metadata_file 18 "meta" 1024 (∅, backend_disks ∅) = Done (Err (IoError OtherIo), (dir1, w1)) /\
    is_Some (dir1 !! "meta"%string) /\
    exists dir2 w2, ensure_metadata_file 18 "meta" 1024 (dir1, w1) = Done (Ok tt, (dir2, w2)).
Proof. apply (bare_path_fails_once 18 "meta" 1024 ∅ (backend_disks ∅)); [reflexivity..|]. vm_compute. discriminate. Defined.

(** The image has two stripes, the disk three. *)
Definition backend_world : World :=
  backend_disks {[ 8%nat := mkDisk (saved_image crc32_ieee backend_demo_metadata 2) [] ]}.

Lemma backend_startable : startable crc32_ieee backend_demo_config "/meta" backend_demo_metadata 2 backend_world.
Proof.
  split; try reflexivity.
  - exact backend_demo_safe.
  - split; [reflexivity..|vm_compute; split; discriminate|repeat constructor; vm_compute; congruence|vm_compute; discriminate].
  - vm_compute. discriminate.
  - by eexists.
  - by eexists.
  - intros s p [= <-] [= <-]. by eexists.
Qed.

Definition started (config : Config) (w : World) :=
  match env_build Empty_set (V := unit) (N := unit) (T := Pipe) crc32_ieee 1 (fun _ => Some 4096) config w with
  | Done (Ok env, w) => Some (run_bgworker_thread Empty_set crc32_ieee demo_host 1 true env w)
  | _ => None
  end.

Lemma started_worker_serves_witness :
  exists env' v2 b, started backend_demo_config backend_world = Some (Ok tt, env', v2) /\
    bgworker_thread Empty_set env' = Some (Running Empty_set b) /\
    (forall senders, exists r, run_iteration crc32_ieee senders b v2 = Done r).
Proof.
  destruct (started_worker_serves (R := Empty_set) (T := Pipe) crc32_ieee demo_host 0 (fun _ => Some 4096) true backend_demo_config "/meta"
    backend_demo_metadata 2 4096 backend_world) as (env & v1 & Eb & Hrun).
  - exact backend_startable.
  - repeat constructor; unfold header_ok; vm_compute; discriminate.
  - exact (no_buffers_fresh backend_world eq_refl).
  - reflexivity.
  - reflexivity.
  - assert (match started backend_demo_config backend_world with Some (Ok _, _, _) => True | _ => False end) as Hs by (vm_compute; exact I).
    unfold started in *. rewrite Eb in *.
    destruct (run_bgworker_thread Empty_set crc32_ieee demo_host 1 true env v1) as [[[[]|] env'] v2] eqn:Er; [|destruct Hs].
    destruct (Hrun _ _ _ eq_refl) as (b & Hb & Hw). exists env', v2, b. split; [reflexivity|]. split; [exact Hb|].
    exact (proj1 (Hw b v2 (rtc_refl _ _))).
Defined.
End demo.
