(* ===== verification/Rpc.v ===== *)
(** * Rpc: the control socket of a backend

    Models src/src/backends/common/rpc.rs: the commands, the line protocol of a
    client's thread, the listener and the creation of the socket, with
    src/src/utils/umask_guard.rs.  JSON text (serde_json) is a parameter.

    The theorems: a client gets one answer, on one line, for each line that is
    not blank, in order; a client's thread ends on any input; the socket is
    never open to others and the umask of the process is restored. *)
From S2P Require Import Prelude Metadata SharedState World Device IoTracking Secrets Backend.
#[local] Open Scope Z_scope.

(** ** JSON values and commands *)

Inductive Json :=
| JNull
| JNumber (z : Z)
| JString (s : string)
| JArray (vs : list Json)
| JObject (fields : list (string * Json)).

(** The reporter holds the shared states and the sectors of the disk. *)
Record RpcState := mkRpcState {
  rpc_status_reporter : option (SharedMetadataState * Z);
  rpc_io_trackers : list IoTracker;
}.

Definition json_of_view (v : IoView) : Json :=
  match v with
  | ViewRead offset len => JArray [JString "read"; JNumber offset; JNumber len]
  | ViewWrite offset len => JArray [JString "write"; JNumber offset; JNumber len]
  | ViewFlush => JArray [JString "flush"]
  end.

Fixpoint queue_snapshots (trackers : list IoTracker) : outcome (list Json) :=
  match trackers with
  | [] => Done []
  | t :: trackers =>
      views ← queue_snapshot t;
      rest ← queue_snapshots trackers;
      Done (JArray (map json_of_view views) :: rest)
  end.

Definition json_of_report (r : StatusReport) : Json :=
  let s := stripes r in
  JObject [("stripes"%string, JObject [("total"%string, JNumber (SharedState.total s)); ("source"%string, JNumber (SharedState.source s));
                                       ("fetched"%string, JNumber (SharedState.fetched s))])].

Definition json_of_stats (t : IoTracker) : Json :=
  let '(bytes_read, bytes_written, read_ops, write_ops, flush_ops) := cumulative_stats t in
  JObject [("bytes_read"%string, JNumber bytes_read); ("bytes_written"%string, JNumber bytes_written);
           ("read_ops"%string, JNumber read_ops); ("write_ops"%string, JNumber write_ops); ("flush_ops"%string, JNumber flush_ops)].

Definition rpc_error (text : string) : Json := JObject [("error"%string, JString text)].

Definition process_command (version command : string) (state : RpcState) : outcome Json :=
  if decide (command = "version"%string) then Done (JObject [("version"%string, JString version)])
  else if decide (command = "status"%string) then
    let status := (fun '(s, n) => report s n) <$> rpc_status_reporter state in
    Done (JObject [("status"%string, match status with Some r => json_of_report r | None => JNull end)])
  else if decide (command = "queues"%string) then
    snapshots ← queue_snapshots (rpc_io_trackers state);
    Done (JObject [("queues"%string, JArray snapshots)])
  else if decide (command = "stats"%string) then
    Done (JObject [("stats"%string, JObject [("queues"%string, JArray (map json_of_stats (rpc_io_trackers state)))])])
  else Done (rpc_error ("unknown command: " ++ command)).

(** ** A client's connection *)

(** [serde_json]: a request with its command or the text of the error, and the
    compact writer; [json_value] is a reader of values, for the other side. *)
Class JsonText := {
  json_request : list Z -> string + string;
  json_bytes : Json -> list Z;
  json_value : list Z -> option Json;
}.
(** A written value can be read, and has no line feed. *)
Class JsonTextLaws `{JsonText} := {
  json_bytes_value v : json_value (json_bytes v) = Some v;
  json_bytes_line v : 10 ∉ json_bytes v;
}.

(** Bytes that arrive, whether an error follows them, bytes sent, and the fate
    of the coming writes: [Some n] fails after [n] bytes. *)
Record RpcSocket := mkSocket {
  so_in : list Z;
  so_broken : bool;
  so_out : list Z;
  so_faults : list (option nat);
}.

(** Up to and with the first line feed. *)
Fixpoint take_line (bs : list Z) : list Z * list Z :=
  match bs with
  | [] => ([], [])
  | b :: bs => if b =? 10 then ([b], bs) else let '(line, rest) := take_line bs in (b :: line, rest)
  end.

(** [BufRead::read_line]: a line that ends with a line feed or with the input,
    [None] on an error or if it is not UTF-8. *)
Definition read_line (s : RpcSocket) : option (list Z) * RpcSocket :=
  let '(line, rest) := take_line (so_in s) in
  let s := mkSocket rest (so_broken s) (so_out s) (so_faults s) in
  if so_broken s && bool_decide (last line <> Some 10) then (None, s)
  else if utf8_valid line then (Some line, s) else (None, s).

(** [str::trim]: the UTF-8 sequences of the characters with White_Space. *)
Definition white_space : list (list Z) :=
  map (fun b => [b]) [9; 10; 11; 12; 13; 32] ++ [[194; 133]; [194; 160]; [225; 154; 128]] ++
  map (fun i => [226; 128; 128 + Z.of_nat i]) (seq 0 11) ++
  [[226; 128; 168]; [226; 128; 169]; [226; 128; 175]; [226; 129; 159]; [227; 128; 128]].

Definition strip (seqs : list (list Z)) (bs : list Z) : option (list Z) :=
  match list_find (fun s => take (length s) bs = s) seqs with
  | Some (_, s) => Some (drop (length s) bs)
  | None => None
  end.
Fixpoint trim_front (fuel : nat) (seqs : list (list Z)) (bs : list Z) : list Z :=
  match fuel, strip seqs bs with
  | S fuel, Some bs => trim_front fuel seqs bs
  | _, _ => bs
  end.
Definition trim (bs : list Z) : list Z :=
  let front := trim_front (length bs) white_space bs in
  reverse (trim_front (length front) (map reverse white_space) (reverse front)).

Section client.
Context `{JsonText} (version : string).

(** [write_all] of the payload; [flush] does nothing on a socket. *)
Definition send_response (response : Json) (s : RpcSocket) : bool * RpcSocket :=
  let payload := json_bytes response ++ [10] in
  match so_faults s with
  | Some n :: faults => (false, mkSocket (so_in s) (so_broken s) (so_out s ++ take n payload) faults)
  | None :: faults => (true, mkSocket (so_in s) (so_broken s) (so_out s ++ payload) faults)
  | [] => (true, mkSocket (so_in s) (so_broken s) (so_out s ++ payload) [])
  end.

Definition respond (line : list Z) (state : RpcState) : outcome Json :=
  match json_request line with
  | inr command => process_command version command state
  | inl e => Done (rpc_error ("invalid request: " ++ e))
  end.

(** The loop of a client's thread; [states k] is the state at its [k]-th turn.
    Every turn but the last takes a byte. *)
Fixpoint handle_client (fuel : nat) (states : nat -> RpcState) (k : nat) (s : RpcSocket) : outcome RpcSocket :=
  match fuel with
  | O => Panic OutOfFuel
  | S fuel =>
      let '(r, s) := read_line s in
      match r with
      | None | Some [] => Done s
      | Some line =>
          let trimmed := trim line in
          if decide (trimmed = []) then handle_client fuel states (S k) s else
          response ← respond trimmed (states k);
          let '(sent, s) := send_response response s in
          if sent : bool then handle_client fuel states (S k) s else Done s
      end
  end.
End client.

(** ** The socket and its listener *)

Definition RPC_UMASK : Z := 79.            (* 0o117 *)
Definition RPC_MODE : Z := 432.            (* 0o660 *)

(** What the process can do to a path: the directory, its umask, and the fate
    of the coming system calls. *)
Record RpcHost := mkRpcHost { rh_dir : Directory; rh_umask : Z; rh_faults : list bool }.

Definition rpc_fault (h : RpcHost) : bool * RpcHost :=
  match rh_faults h with
  | f :: faults => (f, mkRpcHost (rh_dir h) (rh_umask h) faults)
  | [] => (false, h)
  end.

(** [UmaskGuard::set] gives the previous mask, which its drop restores. *)
Definition guard_set (mask : Z) (h : RpcHost) : Z * RpcHost := (rh_umask h, mkRpcHost (rh_dir h) mask (rh_faults h)).
Definition guard_drop (previous : Z) (h : RpcHost) : RpcHost := mkRpcHost (rh_dir h) previous (rh_faults h).

(** [fs::remove_file]; its callers tell [NotFound] from other errors. *)
Inductive removal := Removed | NotFound | RemoveFailed.
Definition remove_file (path : string) (h : RpcHost) : removal * RpcHost :=
  let '(fault, h) := rpc_fault h in
  if fault : bool then (RemoveFailed, h) else
  match rh_dir h !! path with
  | Some _ => (Removed, mkRpcHost (delete path (rh_dir h)) (rh_umask h) (rh_faults h))
  | None => (NotFound, h)
  end.

(** [UnixListener::bind] makes a socket with mode 0777 less the umask. *)
Definition bind_listener (path : string) (h : RpcHost) : result unit * RpcHost :=
  let '(fault, h) := rpc_fault h in
  if fault : bool then (Err (IoError OtherIo), h) else
  match rh_dir h !! path with
  | Some _ => (Err (IoError OtherIo), h)
  | None => (Ok tt, mkRpcHost (<[path := mkInode OtherFile (Z.land 511 (Z.lnot (rh_umask h)))]> (rh_dir h)) (rh_umask h) (rh_faults h))
  end.

Definition rpc_set_permissions (path : string) (mode : Z) (h : RpcHost) : result unit * RpcHost :=
  let '(fault, h) := rpc_fault h in
  match fault, rh_dir h !! path with
  | false, Some i => (Ok tt, mkRpcHost (<[path := mkInode (i_kind i) mode]> (rh_dir h)) (rh_umask h) (rh_faults h))
  | _, _ => (Err (IoError OtherIo), h)
  end.

(** The handle and the listener's thread are not part of the result: the thread
    runs [run_listener]. *)
Definition listen (path : string) (spawned : bool) (h : RpcHost) : result unit * RpcHost :=
  let '(previous, h) := guard_set RPC_UMASK h in
  let '(listener, h) := bind_listener path h in
  let h := guard_drop previous h in
  match listener with
  | Err _ => (Err RpcError, h)
  | Ok _ =>
      let '(r, h) := rpc_set_permissions path RPC_MODE h in
      match r with
      | Err e => (Err e, h)
      | Ok _ => (if spawned then Ok tt else Err ThreadCreation, h)
      end
  end.

Definition start_rpc_server (path : string) (spawned : bool) (h : RpcHost) : result unit * RpcHost :=
  let '(r, h) := remove_file path h in
  match r with
  | RemoveFailed => (Err RpcError, h)
  | Removed | NotFound => listen path spawned h
  end.

(** What [accept] yields: a client, an interrupted call, or another error; with
    the stop flag at that time and whether a thread can be had. *)
Inductive accepted := Client (s : RpcSocket) | Interrupted | AcceptFailed.
Record arrival := mkArrival { ar_stop : bool; ar_thread : bool; ar_stream : accepted }.

(** The clients that get a thread, and whether the listener has ended. *)
Fixpoint serve_clients (arrivals : list arrival) : list RpcSocket * bool :=
  match arrivals with
  | [] => ([], false)
  | a :: arrivals =>
      if ar_stop a then ([], true) else
      match ar_stream a with
      | Client s => let '(clients, ended) := serve_clients arrivals in ((if ar_thread a then [s] else []) ++ clients, ended)
      | Interrupted => serve_clients arrivals
      | AcceptFailed => ([], true)
      end
  end.

(** Once it has ended, the listener removes its socket. *)
Definition run_listener (path : string) (arrivals : list arrival) (h : RpcHost) : list RpcSocket * bool * RpcHost :=
  let '(clients, ended) := serve_clients arrivals in
  (clients, ended, if ended : bool then (remove_file path h).2 else h).

(** ** The socket is private *)

(** What a call does to the rest. *)
Definition only_path (path : string) (h h' : RpcHost) : Prop :=
  rh_umask h' = rh_umask h /\ forall p, p <> path -> rh_dir h' !! p = rh_dir h !! p.

Lemma rpc_fault_same h f h' : rpc_fault h = (f, h') -> rh_umask h' = rh_umask h /\ rh_dir h' = rh_dir h.
Proof. unfold rpc_fault. destruct (rh_faults h); intros [= <- <-]; done. Qed.

Lemma remove_file_spec path h r h' : remove_file path h = (r, h') ->
  only_path path h h' /\ (rh_dir h' !! path = rh_dir h !! path \/ rh_dir h' !! path = None).
Proof.
  unfold remove_file. destruct (rpc_fault h) as [f h1] eqn:Ef. destruct (rpc_fault_same _ _ _ Ef) as [Hu Hd].
  destruct f; [intros [= <- <-]; unfold only_path; rewrite Hu, Hd; auto|]. rewrite Hd.
  destruct (rh_dir h !! path) eqn:E; intros [= <- <-]; unfold only_path; cbn; rewrite Hu, ?Hd; [|auto].
  split; [split; [done|]; intros p Hp; by rewrite lookup_delete_ne|right; apply lookup_delete_eq].
Qed.

Lemma bind_listener_spec path h r h' : bind_listener path h = (r, h') ->
  only_path path h h' /\
  match r with
  | Ok _ => rh_dir h' !! path = Some (mkInode OtherFile (Z.land 511 (Z.lnot (rh_umask h))))
  | Err _ => rh_dir h' !! path = rh_dir h !! path
  end.
Proof.
  unfold bind_listener. destruct (rpc_fault h) as [f h1] eqn:Ef. destruct (rpc_fault_same _ _ _ Ef) as [Hu Hd].
  destruct f; [intros [= <- <-]; unfold only_path; by rewrite Hu, Hd|]. rewrite Hd.
  destruct (rh_dir h !! path) eqn:E; intros [= <- <-]; unfold only_path; cbn; rewrite Hu, ?Hd; [done|].
  split; [split; [done|]; intros p Hp; by rewrite lookup_insert_ne|apply lookup_insert_eq].
Qed.

Lemma rpc_set_permissions_spec path mode h r h' : rpc_set_permissions path mode h = (r, h') ->
  only_path path h h' /\
  match r with
  | Ok _ => exists i, rh_dir h !! path = Some i /\ rh_dir h' !! path = Some (mkInode (i_kind i) mode)
  | Err _ => rh_dir h' !! path = rh_dir h !! path
  end.
Proof.
  unfold rpc_set_permissions. destruct (rpc_fault h) as [f h1] eqn:Ef. destruct (rpc_fault_same _ _ _ Ef) as [Hu Hd].
  destruct f; [intros [= <- <-]; unfold only_path; by rewrite Hu, Hd|]. rewrite Hd.
  destruct (rh_dir h !! path) eqn:E; intros [= <- <-]; unfold only_path; cbn; rewrite Hu, ?Hd; [|done].
  split; [split; [done|]; intros p Hp; by rewrite lookup_insert_ne|]. eexists. split; [done|]. apply lookup_insert_eq.
Qed.

Lemma only_path_trans path h1 h2 h3 : only_path path h1 h2 -> only_path path h2 h3 -> only_path path h1 h3.
Proof. intros [U1 D1] [U2 D2]. split; [by rewrite U2|]. intros p Hp. by rewrite D2, D1. Qed.

Lemma listen_spec path spawned h r h' : listen path spawned h = (r, h') ->
  only_path path h h' /\
  (rh_dir h' !! path = rh_dir h !! path \/
   exists mode, rh_dir h' !! path = Some (mkInode OtherFile mode) /\ Z.land mode (Z.lnot RPC_MODE) = 0) /\
  (r = Ok tt -> rh_dir h' !! path = Some (mkInode OtherFile RPC_MODE)).
Proof.
  unfold listen. cbn [guard_set]. destruct (bind_listener path _) as [r2 h2] eqn:Eb.
  destruct (bind_listener_spec _ _ _ _ Eb) as [[_ O2] D2]. cbn in O2, D2.
  assert (only_path path h (guard_drop (rh_umask h) h2)) as O3 by done.
  destruct r2; [|intros [= <- <-]; split_and!; auto; done].
  destruct (rpc_set_permissions path RPC_MODE _) as [r3 h3] eqn:Ep. destruct (rpc_set_permissions_spec _ _ _ _ _ Ep) as [O4 D4].
  pose proof (only_path_trans _ _ _ _ O3 O4) as O5. cbn [guard_drop rh_dir] in D4. destruct r3; intros [= <- <-].
  - destruct D4 as (i & Hi & D4). rewrite D2 in Hi. injection Hi as <-. split_and!; [apply O5..| |by destruct spawned].
    right. eexists. by split.
  - split_and!; [apply O5..| |done]. right. rewrite D4, D2. eexists. by split.
Qed.

(** The control socket is never open to others.  Whatever calls fail, the
    umask of the process is as before and only the path of the socket changes;
    if a socket was made, it never had a permission beyond those of its owner
    and group, and after a successful start these can read and write. *)
Lemma rpc_socket_private path spawned h r h' : start_rpc_server path spawned h = (r, h') ->
  rh_umask h' = rh_umask h /\ (forall p, p <> path -> rh_dir h' !! p = rh_dir h !! p) /\
  (rh_dir h' !! path = rh_dir h !! path \/ rh_dir h' !! path = None \/
   exists mode, rh_dir h' !! path = Some (mkInode OtherFile mode) /\ Z.land mode (Z.lnot RPC_MODE) = 0) /\
  (r = Ok tt -> rh_dir h' !! path = Some (mkInode OtherFile RPC_MODE)).
Proof.
  unfold start_rpc_server. destruct (remove_file path h) as [rm h1] eqn:Er. destruct (remove_file_spec _ _ _ _ Er) as [O1 D1]. intros E.
  assert (rm = RemoveFailed /\ r = Err RpcError /\ h' = h1 \/ listen path spawned h1 = (r, h')) as [(-> & -> & ->)|El]
    by (destruct rm; [by right..|left; by injection E as <- <-]).
  - destruct O1 as [Hu Hp]. split_and!; [done..| |done]. destruct D1; auto.
  - destruct (listen_spec _ _ _ _ _ El) as (O2 & D2 & Ho). destruct (only_path_trans _ _ _ _ O1 O2) as [Hu Hp].
    split_and!; [done..| |done]. destruct D2 as [->|]; [|by auto]. destruct D1; auto.
Qed.

Lemma rpc_socket_private_witness :
  let h := mkRpcHost {[ "/run/rpc.sock"%string := mkInode OtherFile 511 ]} 18 [] in
  exists h', start_rpc_server "/run/rpc.sock" true h = (Ok tt, h') /\ rh_umask h' = 18 /\
    rh_dir h' !! "/run/rpc.sock"%string = Some (mkInode OtherFile RPC_MODE).
Proof.
  intros h. eexists. split; [reflexivity|].
  destruct (rpc_socket_private "/run/rpc.sock" true h _ _ eq_refl) as (Hu & _ & _ & Hm). split; [exact Hu|]. apply Hm. reflexivity.
Defined.

(** ** Answers *)

(** A reader of answers: one value per line. *)
Fixpoint read_answers `{JsonText} (fuel : nat) (bs : list Z) : option (list Json) :=
  match fuel, bs with
  | _, [] => Some []
  | O, _ => None
  | S fuel, _ =>
      let '(line, rest) := take_line bs in
      v ← json_value (removelast line);
      vs ← read_answers fuel rest;
      Some (v :: vs)
  end.

Lemma take_line_app l rest : 10 ∉ l -> take_line (l ++ 10 :: rest) = (l ++ [10], rest).
Proof.
  induction l as [|b l IH]; intros Hn; [done|]. apply not_elem_of_cons in Hn as [Hb Hn]. cbn.
  rewrite (proj2 (Z.eqb_neq b 10)) by congruence. by rewrite IH.
Qed.

Lemma take_line_spec bs line rest : take_line bs = (line, rest) -> bs = line ++ rest /\ (bs <> [] -> line <> []).
Proof.
  revert line rest. induction bs as [|b bs IH]; intros line rest; cbn; [by intros [= <- <-]|].
  destruct (b =? 10); [by intros [= <- <-]|]. destruct (take_line bs) as [l r]. intros [= <- <-].
  destruct (IH l r eq_refl) as [-> _]. done.
Qed.

Lemma utf8_valid_app l m : utf8_valid l = true -> utf8_valid (l ++ m) = utf8_valid m.
Proof.
  remember (length l) as n eqn:Hn. revert l Hn. induction (lt_wf n) as [n _ IH]. intros l ->.
  destruct l as [|b0 l]; [done|]. cbn. destruct (between 0 127 b0); [intros; by eapply IH; [|done|]; [cbn; lia|]|].
  destruct l as [|b1 l]; [done|]. cbn. destruct (between 194 223 b0).
  { intros [-> Hl]%andb_true_iff. cbn. by eapply IH; [|done|]; [cbn; lia|]. }
  destruct l as [|b2 l]; [done|]. cbn. destruct (between 224 239 b0).
  { intros [[-> ->]%andb_true_iff Hl]%andb_true_iff. cbn. by eapply IH; [|done|]; [cbn; lia|]. }
  destruct l as [|b3 l]; [done|]. cbn. intros [[[[-> ->]%andb_true_iff ->]%andb_true_iff ->]%andb_true_iff Hl]%andb_true_iff.
  cbn. by eapply IH; [|done|]; [cbn; lia|].
Qed.

Section session.
Context `{JsonTextLaws} (version : string).
#[local] Set Default Proof Using "Type*".

Definition frame_answer (v : Json) : list Z := json_bytes v ++ [10].

Lemma read_answers_frames vs : forall fuel, (length (concat (map frame_answer vs)) <= fuel)%nat ->
  read_answers fuel (concat (map frame_answer vs)) = Some vs.
Proof.
  induction vs as [|v vs IH]; intros fuel Hf; [by destruct fuel|]. cbn in *. unfold frame_answer at 1.
  rewrite <- app_assoc. cbn [app]. unfold frame_answer in Hf at 1. rewrite !length_app in Hf. cbn in Hf.
  destruct fuel as [|fuel]; [lia|]. cbn. destruct (json_bytes v ++ 10 :: _) as [|b bs] eqn:E; [by destruct (json_bytes v)|].
  rewrite <- E, take_line_app by apply json_bytes_line. rewrite removelast_last, json_bytes_value. cbn.
  by rewrite IH by lia.
Qed.

(** Trackers that went through the tracker's operations. *)
Definition tracker_ok (t : IoTracker) : Prop := exists tbl sums, refines t tbl sums.

Lemma queue_snapshots_tables trackers tables : Forall2 (fun t tbl => exists sums, refines t tbl sums) trackers tables ->
  queue_snapshots trackers = Done (map (fun tbl => JArray (map json_of_view (omap id tbl))) tables).
Proof.
  induction 1 as [|t tbl ts tbls [sums Ht] _ IH]; [done|]. cbn [queue_snapshots map].
  by rewrite (queue_snapshot_refines _ _ _ Ht), IH.
Qed.

Lemma respond_total line state : Forall tracker_ok (rpc_io_trackers state) -> exists v, respond version line state = Done v.
Proof.
  intros Ht. unfold respond, process_command. destruct (json_request line) as [e|command]; [by eexists|].
  repeat case_decide; try by eexists. assert (exists tables, Forall2 (fun t tbl => exists sums, refines t tbl sums) (rpc_io_trackers state) tables)
    as [tables Hts].
  { clear -Ht. induction Ht as [|t ts (tbl & sums & Ht) _ [tables IH]]; [by exists []|]. exists (tbl :: tables). constructor; [by exists sums|done]. }
  rewrite (queue_snapshots_tables _ _ Hts). by eexists.
Qed.

Context (states : nat -> RpcState) (Hok : forall k, Forall tracker_ok (rpc_io_trackers (states k))).

Lemma handle_client_ends fuel : forall s k, (length (so_in s) < fuel)%nat -> exists s', handle_client version fuel states k s = Done s'.
Proof.
  induction fuel as [|fuel IH]; intros s k Hf; [lia|]. cbn [handle_client]. unfold read_line.
  destruct (take_line (so_in s)) as [line rest] eqn:El. destruct (take_line_spec _ _ _ El) as [Hs Hne].
  assert (line <> [] -> (length rest < fuel)%nat) as Hrest.
  { intros Hl. rewrite Hs, length_app in Hf. destruct line; [done|]. cbn in Hf. lia. }
  cbn [so_broken]. destruct (so_broken s && _); [by eexists|]. destruct (utf8_valid line); [|by eexists].
  destruct line as [|b line]; [by eexists|]. specialize (Hrest ltac:(done)). case_decide; [by apply IH|].
  destruct (respond_total (trim (b :: line)) (states k) (Hok k)) as [v ->]. cbn [mbind outcome_bind].
  unfold send_response. cbn [so_faults]. destruct (so_faults s) as [|[n|] fs]; [by apply IH|by eexists|by apply IH].
Qed.

(** The lines that are answered, with the turn at which they arrive. *)
Definition asked (k : nat) (ls : list (list Z)) : list (nat * list Z) :=
  filter (fun '(_, l) => trim (l ++ [10]) <> []) (zip (seq k (length ls)) ls).

Lemma handle_client_answers ls : forall fuel k out, Forall (fun l => 10 ∉ l /\ utf8_valid l = true) ls ->
  (length (concat (map (fun l => l ++ [10%Z]) ls)) < fuel)%nat ->
  exists vs, handle_client version fuel states k (mkSocket (concat (map (fun l => l ++ [10]) ls)) false out [])
    = Done (mkSocket [] false (out ++ concat (map frame_answer vs)) []) /\
    Forall2 (fun '(j, l) v => respond version (trim (l ++ [10])) (states j) = Done v) (asked k ls) vs.
Proof.
  induction ls as [|l ls IH]; intros fuel k out Hls Hf; (destruct fuel as [|fuel]; [cbn in Hf; lia|]).
  { exists []. cbn. split; [by rewrite app_nil_r|constructor]. }
  apply Forall_cons in Hls as [[Hn Hu] Hls]. cbn [map concat] in Hf |- *. rewrite !length_app in Hf. cbn in Hf.
  cbn [handle_client]. unfold read_line. cbn [so_in]. rewrite <- app_assoc. cbn [app]. rewrite take_line_app by done.
  cbn [so_broken andb]. rewrite utf8_valid_app by done. cbn [utf8_valid]. change (between 0 127 10) with true. cbn [so_out so_faults].
  destruct (l ++ [10]) as [|b line] eqn:El; [by destruct l|]. rewrite <- El.
  unfold asked. cbn [length seq zip]. rewrite filter_cons. case_decide as Ht.
  - rewrite decide_False by (intros Hx; by apply Hx). apply IH; [done|lia].
  - rewrite decide_True by done. destruct (respond_total (trim (l ++ [10])) (states k) (Hok k)) as [v Ev]. rewrite Ev. cbn [mbind outcome_bind].
    unfold send_response. cbn [so_faults so_in so_broken so_out].
    destruct (IH fuel (S k) (out ++ frame_answer v) Hls ltac:(lia)) as (vs & E & Hvs). exists (v :: vs).
    split; [|by constructor]. change (json_bytes v ++ [10]) with (frame_answer v). rewrite E. cbn [map concat]. by rewrite app_assoc.
Qed.

(** C21: the control socket answers.  With trackers that went through the
    tracker's operations, a client's thread ends without a panic on any input
    and any failing write, after at most one turn per byte.  A client that sends
    lines of UTF-8 gets an answer for each line that is not blank, in order:
    what is sent back, read line by line, are the values for these lines, each
    computed from the state at its turn.  And the answer to [queues] lists, for
    every tracker, the requests that are in flight. *)
Theorem rpc_answers :
  (forall s k, exists s', handle_client version (S (length (so_in s))) states k s = Done s') /\
  (forall ls, Forall (fun l => 10 ∉ l /\ utf8_valid l = true) ls ->
    let input := concat (map (fun l => l ++ [10]) ls) in
    exists s' vs, handle_client version (S (length input)) states 0 (mkSocket input false [] []) = Done s' /\
      read_answers (length (so_out s')) (so_out s') = Some vs /\
      Forall2 (fun '(k, l) v => respond version (trim (l ++ [10])) (states k) = Done v) (asked 0 ls) vs) /\
  (forall k tables, Forall2 (fun t tbl => exists sums, refines t tbl sums) (rpc_io_trackers (states k)) tables ->
    process_command version "queues" (states k) =
      Done (JObject [("queues"%string, JArray (map (fun tbl => JArray (map json_of_view (omap id tbl))) tables))])).
Proof.
  split_and!.
  - intros s k. apply handle_client_ends. lia.
  - intros ls Hls input. destruct (handle_client_answers ls (S (length input)) 0 [] Hls ltac:(unfold input; lia)) as (vs & E & Hvs).
    eexists _, vs. split; [exact E|]. split; [|done]. cbn [so_out app]. by apply read_answers_frames.
  - intros k tables Hts. unfold process_command. do 2 rewrite decide_False by done. rewrite decide_True by done.
    by rewrite (queue_snapshots_tables _ _ Hts).
Qed.
End session.

(** *** A small encoding of values as lines *)

Fixpoint json_tree (v : Json) : gen_tree (Z + string) :=
  match v with
  | JNull => GenNode 0 []
  | JNumber z => GenLeaf (inl z)
  | JString s => GenLeaf (inr s)
  | JArray vs => GenNode 1 (map json_tree vs)
  | JObject fields => GenNode 2 (map (fun '(k, v) => GenNode 0 [GenLeaf (inr k); json_tree v]) fields)
  end.
Fixpoint tree_json (t : gen_tree (Z + string)) : Json :=
  match t with
  | GenLeaf (inl z) => JNumber z
  | GenLeaf (inr s) => JString s
  | GenNode 1 ts => JArray (map tree_json ts)
  | GenNode 2 ts => JObject (map (fun t => match t with GenNode _ [GenLeaf (inr k); t] => (k, tree_json t) | _ => (EmptyString, JNull) end) ts)
  | _ => JNull
  end.

Lemma tree_json_tree : forall v, tree_json (json_tree v) = v.
Proof.
  fix IH 1. intros [|z|s|vs|fields]; try reflexivity; cbn [json_tree tree_json]; f_equal.
  - induction vs as [|v vs IHvs]; [done|]. cbn [map]. by rewrite IH, IHvs.
  - induction fields as [|[k v] fields IHf]; [done|]. cbn [map]. by rewrite IH, IHf.
Qed.

Fixpoint bits (p : positive) : list Z :=
  match p with xH => [] | xO p => 48 :: bits p | xI p => 49 :: bits p end.
Fixpoint of_bits (bs : list Z) : positive :=
  match bs with [] => xH | b :: bs => if b =? 48 then xO (of_bits bs) else xI (of_bits bs) end.
Lemma of_bits_bits p : of_bits (bits p) = p.
Proof. induction p as [p IH|p IH|]; cbn; congruence. Qed.
Lemma bits_digits p : Forall (fun b => b = 48 \/ b = 49) (bits p).
Proof. induction p; constructor; auto. Qed.

(** Requests are commands without quotes. *)
#[local] Instance toy_json : JsonText := {
  json_request bs := inr (string_of_bytes bs);
  json_bytes v := bits (countable.encode (json_tree v));
  json_value bs := tree_json <$> countable.decode (of_bits bs);
}.
#[local] Instance toy_json_laws : JsonTextLaws.
Proof.
  split; intros v; cbn.
  - rewrite of_bits_bits, countable.decode_encode. cbn. by rewrite tree_json_tree.
  - intros Hin. destruct (proj1 (Forall_forall _ _) (bits_digits _) _ Hin); lia.
Qed.

(** Two commands and a blank line. *)
Definition rdemo_lines : list (list Z) := [bytes_of "version"; [32; 9]; bytes_of " queues "].
Definition rdemo_state : RpcState := mkRpcState None [tracker_add_read 1 8 2 (tracker_new 2)].

Lemma rpc_answers_witness :
  exists s', handle_client "0.3.0" (S (length (concat (map (fun l => l ++ [10]) rdemo_lines)))) (fun _ => rdemo_state) 0
    (mkSocket (concat (map (fun l => l ++ [10]) rdemo_lines)) false [] []) = Done s' /\
  read_answers (length (so_out s')) (so_out s') =
    Some [JObject [("version"%string, JString "0.3.0")];
          JObject [("queues"%string, JArray [JArray [JArray [JString "read"; JNumber 8; JNumber 2]]])]].
Proof.
  destruct (rpc_answers "0.3.0" (fun _ => rdemo_state)) as (_ & Hls & _).
  - intros _. constructor; [|constructor]. destruct (tracker_apply_refines (OpAdd 1 (ViewRead 8 2)) (tracker_new 2) _ _ (tracker_new_refines 2)).
    do 2 eexists. by split.
  - destruct (Hls rdemo_lines) as (s' & vs & E & Hr & Hvs); [|].
    + repeat constructor; vm_compute; try reflexivity; intros Hin; apply list_elem_of_In in Hin; cbn in Hin; lia.
    + exists s'. split; [exact E|]. rewrite Hr. f_equal.
      assert (asked 0 rdemo_lines = [(0%nat, bytes_of "version"); (2%nat, bytes_of " queues ")]) as Ha by (vm_compute; reflexivity).
      rewrite Ha in Hvs. inversion_clear Hvs as [|? v1 ? vs1 H1 Ht]. inversion_clear Ht as [|? v2 ? vs2 H2 Hn]. inversion_clear Hn.
      vm_compute in H1, H2. injection H1 as <-. injection H2 as <-. reflexivity.
Defined.
