(* ===== verification/VhostBackend.v ===== *)
(** * VhostBackend: the device that the vhost-user daemon drives

    Models src/src/backends/vhost/backend.rs ([UbiBlkBackend], whose methods the
    vhost-user-backend crate calls), src/src/utils/block.rs (the configuration
    space of the device) and src/src/backends/vhost/backend_loop.rs (one client
    served).  The work on a queue is in Vhost.v.

    The theorems: every queue has exactly one thread, with an invariant that
    makes its work safe; the configuration space reads back as the virtio
    specification lays it out; handling an event never loses a request that
    arrives while notifications are being enabled, and returns. *)
From S2P Require Import Prelude Metadata SharedState World Device StripeSource IoTracking Secrets Config Backend Rpc Vhost.
#[local] Open Scope Z_scope.

(** ** The configuration space (utils/block.rs) *)

Record VirtioBlockGeometry := mkGeometry { cylinders : Z; heads : Z; geo_sectors : Z }.

Record VirtioBlockConfig := mkBlockConfig {
  capacity : Z;
  size_max : Z;
  seg_max : Z;
  geometry : VirtioBlockGeometry;
  blk_size : Z;
  physical_block_exp : Z;
  alignment_offset : Z;
  min_io_size : Z;
  opt_io_size : Z;
  writeback : Z;
  unused : Z;
  vc_num_queues : Z;
  max_discard_sectors : Z;
  max_discard_seg : Z;
  discard_sector_alignment : Z;
  max_write_zeroes_sectors : Z;
  max_write_zeroes_seg : Z;
  write_zeroes_may_unmap : Z;
  unused1 : list Z;
}.

(** [as_slice] of the packed struct: its fields in order, little endian. *)
Definition config_bytes (c : VirtioBlockConfig) : list Z :=
  to_le 8 (capacity c) ++ to_le 4 (size_max c) ++ to_le 4 (seg_max c) ++
  to_le 2 (cylinders (geometry c)) ++ to_le 1 (heads (geometry c)) ++ to_le 1 (geo_sectors (geometry c)) ++
  to_le 4 (blk_size c) ++ to_le 1 (physical_block_exp c) ++ to_le 1 (alignment_offset c) ++
  to_le 2 (min_io_size c) ++ to_le 4 (opt_io_size c) ++ to_le 1 (writeback c) ++ to_le 1 (unused c) ++
  to_le 2 (vc_num_queues c) ++ to_le 4 (max_discard_sectors c) ++ to_le 4 (max_discard_seg c) ++
  to_le 4 (discard_sector_alignment c) ++ to_le 4 (max_write_zeroes_sectors c) ++ to_le 4 (max_write_zeroes_seg c) ++
  to_le 1 (write_zeroes_may_unmap c) ++ unused1 c.

(** ** The backend *)

(** A lock is poisoned only by a panic, so it is not modelled; [ub_pinned] is
    [pin_attempted] of the threads. *)
Record UbiBlkBackend (C : Type) := mkBackend {
  ub_threads : list (UbiBlkBackendThread C);
  ub_pinned : list bool;
  ub_config : VirtioBlockConfig;
  ub_queues_per_thread : list Z;
  ub_backend_config : Config;
}.
Arguments mkBackend {C}.
Arguments ub_threads {C}.
Arguments ub_pinned {C}.
Arguments ub_config {C}.
Arguments ub_queues_per_thread {C}.
Arguments ub_backend_config {C}.

(** Bits of the virtio and vhost-user specifications. *)
Definition VIRTIO_BLK_F_SIZE_MAX : Z := 1.
Definition VIRTIO_BLK_F_SEG_MAX : Z := 2.
Definition VIRTIO_BLK_F_BLK_SIZE : Z := 6.
Definition VIRTIO_BLK_F_FLUSH : Z := 9.
Definition VIRTIO_BLK_F_TOPOLOGY : Z := 10.
Definition VIRTIO_BLK_F_CONFIG_WCE : Z := 11.
Definition VIRTIO_BLK_F_MQ : Z := 12.
Definition VIRTIO_RING_F_INDIRECT_DESC : Z := 28.
Definition VIRTIO_RING_F_EVENT_IDX : Z := 29.
Definition VIRTIO_F_VERSION_1 : Z := 32.
Definition PROTOCOL_FEATURES : Z := 1073741824.          (* bit 30 *)

Definition features : Z :=
  foldr (fun bit acc => Z.lor (Z.shiftl 1 bit) acc) PROTOCOL_FEATURES
    [VIRTIO_BLK_F_SEG_MAX; VIRTIO_BLK_F_BLK_SIZE; VIRTIO_BLK_F_SIZE_MAX; VIRTIO_BLK_F_FLUSH; VIRTIO_BLK_F_TOPOLOGY;
     VIRTIO_BLK_F_MQ; VIRTIO_BLK_F_CONFIG_WCE; VIRTIO_RING_F_EVENT_IDX; VIRTIO_F_VERSION_1; VIRTIO_RING_F_INDIRECT_DESC].

(** [1 << i] of a [u64]. *)
Definition queue_mask (i : nat) : Z := Z.shiftl 1 (Z.of_nat i mod 64).

Definition virtio_config (config : Config) (nsectors : Z) : VirtioBlockConfig :=
  let t := cfg_tuning config in
  mkBlockConfig nsectors (seg_size_max t) (seg_count_max t) (mkGeometry 0 0 0) (Z.of_nat SECTOR_SIZE) 0 0 1 1
    (if write_through t then 0 else 1) 0 (num_queues t mod 65536) 0 0 0 0 0 0 [0; 0; 0].

Section backend.
Context {D C : Type} `{BlockDevice D C}.
(** Whether the exit event of a thread can be created, and a CPU be pinned. *)
Context (event_ok : nat -> bool) (pin_ok : nat -> bool).

(** The threads from [idx] on. *)
Fixpoint new_threads (n idx : nat) (d : D) (config : Config) (alignment : Z) (trackers : list IoTracker) (w : World)
  : outcome (result (list (UbiBlkBackendThread C)) * World) :=
  match n with
  | O => Done (Ok [], w)
  | S n =>
      let t := cfg_tuning config in
      match create_channel d w with
      | Err e => Done (Err e, w)
      | Ok ch =>
          let tracker := default (tracker_new (Z.to_nat (queue_size t))) (trackers !! idx) in
          '(th, w) ← thread_new ch (seg_count_max t) (seg_size_max t) (Z.to_nat (queue_size t))
                       (bytes_of (Config.device_id (cfg_device config))) alignment tracker w;
          if negb (event_ok idx) then Done (Err ThreadCreation, w) else
          '(r, w) ← new_threads n (S idx) d config alignment trackers w;
          Done (ths ← r; Ok (th :: ths), w)
      end
  end.

Definition backend_new (config : Config) (d : D) (alignment : Z) (trackers : list IoTracker) (w : World)
  : outcome (result (UbiBlkBackend C) * World) :=
  let n := Z.to_nat (num_queues (cfg_tuning config)) in
  '(r, w) ← new_threads n 0 d config alignment trackers w;
  Done (threads ← r;
        Ok (mkBackend threads (replicate n false) (virtio_config config (sector_count d)) (map queue_mask (seq 0 n)) config), w).

Definition backend_num_queues (b : UbiBlkBackend C) : Z := vc_num_queues (ub_config b).
Definition max_queue_size (b : UbiBlkBackend C) : Z := queue_size (cfg_tuning (ub_backend_config b)).

Definition set_threads (b : UbiBlkBackend C) (threads : list (UbiBlkBackendThread C)) (pinned : list bool) : UbiBlkBackend C :=
  mkBackend threads pinned (ub_config b) (ub_queues_per_thread b) (ub_backend_config b).

Definition set_event_idx (enabled : bool) (b : UbiBlkBackend C) : UbiBlkBackend C :=
  set_threads b (map (fun t => mkThread enabled (io_channel t) (request_slots t) (device_id t) (th_alignment t)
                                 (ios_pending_signal t) (io_tracker t)) (ub_threads b)) (ub_pinned b).

(** The offset is ignored. *)
Definition get_config (offset size : Z) (b : UbiBlkBackend C) : outcome (list Z) :=
  let bytes := config_bytes (ub_config b) in
  let requested_size := Z.to_nat size in
  let copy_len := Nat.min requested_size (length bytes) in
  copy_into (replicate requested_size 0) 0 (take copy_len bytes).

(** [pin_to_cpu] tries once. *)
Definition maybe_pin_cpu (thread_index : nat) (b : UbiBlkBackend C) : outcome (result bool * UbiBlkBackend C) :=
  match cpus (cfg_tuning (ub_backend_config b)) with
  | None => Done (Ok false, b)
  | Some cpus =>
      match cpus !! thread_index with
      | None => Panic IndexOutOfBounds
      | Some cpu =>
          if default false (ub_pinned b !! thread_index) then Done (Ok false, b) else
          let b := set_threads b (ub_threads b) (<[thread_index := true]> (ub_pinned b)) in
          Done (if pin_ok cpu then Ok true else Err CpuPinning, b)
      end
  end.
End backend.

(** ** Handling an event *)

(** [Queue::enable_notification], [None] on an error; its answer, whether more
    chains have arrived, is not used. *)
Class VirtNotify (V : Type) := { enable_notification : V -> option V }.
Class VirtNotifyLaws (V : Type) `{VirtQueue V} `{VirtNotify V} := {
  enable_used (v v' : V) : enable_notification v = Some v' -> used_heads v' = used_heads v;
}.

Section event.
Context {C : Type} `{IoChannel C} {M : Type} `{GuestMemory M} {V : Type} `{VirtQueue V} `{VirtNotify V}.
Context (pin_ok : nat -> bool).
(** What the guest and the other threads do before the [k]-th turn of a loop,
    and the time at its end, in microseconds; the clock is read once more,
    before the first turn. *)
Context (env : nat -> Guest M V -> World -> Guest M V * World) (clock : nat -> Z).
Notation turn := (UbiBlkBackendThread C * Guest M V * World)%type.

(** Polls until [timeout] has passed without work. *)
Fixpoint poll_loop (fuel k : nat) (timeout now : Z) (t : UbiBlkBackendThread C) (g : Guest M V) (w : World)
  : outcome (nat * turn) :=
  match fuel with
  | O => Panic OutOfFuel
  | S fuel =>
      let '(g, w) := env k g w in
      '(_, is_busy, t, g, w) ← process_queue t g w;
      if is_busy : bool then poll_loop fuel (S k) timeout (clock (S k)) t g w
      else if timeout <? clock (S k) - now then Done (S k, (t, g, w))
      else poll_loop fuel (S k) timeout now t g w
  end.

(** Enables notifications and processes the queue until it finds nothing. *)
Fixpoint notify_loop (fuel k : nat) (t : UbiBlkBackendThread C) (g : Guest M V) (w : World) : outcome (result unit * turn) :=
  match fuel with
  | O => Panic OutOfFuel
  | S fuel =>
      match enable_notification (g_ring g) with
      | None => Done (Err (IoError OtherIo), (t, g, w))
      | Some v =>
          let '(g, w) := env k (mkGuest (g_mem g) v) w in
          '(_, is_busy, t, g, w) ← process_queue t g w;
          if is_busy : bool then notify_loop fuel (S k) t g w else Done (Ok tt, (t, g, w))
      end
  end.

(** The match on device event 0, for the ring of the thread. *)
Definition serve_queue (fuel : nat) (timeout : Z) (t : UbiBlkBackendThread C) (g : Guest M V) (w : World)
  : outcome (result unit * turn) :=
  '(k, (t, g, w)) ← poll_loop fuel 0 timeout (clock 0) t g w;
  if event_idx t then notify_loop fuel k t g w
  else
    let '(g, w) := env k g w in
    '(_, _, t, g, w) ← process_queue t g w;
    Done (Ok tt, (t, g, w)).

Definition handle_event (fuel : nat) (device_event : Z) (evset_in : bool) (thread_id : nat) (b : UbiBlkBackend C)
    (g : Guest M V) (w : World) : outcome (result unit * UbiBlkBackend C * Guest M V * World) :=
  if negb evset_in then Done (Err (IoError OtherIo), b, g, w) else
  match ub_threads b !! thread_id with
  | None => Panic IndexOutOfBounds
  | Some _ =>
      '(_, b) ← maybe_pin_cpu pin_ok thread_id b;
      match ub_threads b !! thread_id with
      | None => Panic IndexOutOfBounds
      | Some t =>
          if device_event =? 0 then
            '(r, (t, g, w)) ← serve_queue fuel (poll_timeout_us (cfg_tuning (ub_backend_config b))) t g w;
            Done (r, set_threads b (<[thread_id := t]> (ub_threads b)) (ub_pinned b), g, w)
          else Done (Err (IoError OtherIo), b, g, w)
      end
  end.
End event.

(** ** Serving one client (backend_loop.rs) *)

(** Errors of the vhost-user protocol that mean that the client is gone, and all
    other errors of the daemon. *)
Inductive daemon_error := Disconnected | PartialMessage | InvalidMessage | SocketBroken | OtherDaemonError.

(** The daemon of the vhost-user-backend crate: whether it can be made and
    started, how serving ends; and the listener of the vhost crate, which
    replaces what is at the path. *)
Record Daemon := mkDaemon {
  daemon_new : result unit;
  listener_new : string -> RpcHost -> result unit * RpcHost;
  daemon_start : result unit;
  daemon_wait : option daemon_error;
}.

Definition finished (e : option daemon_error) : result unit :=
  match e with
  | None | Some (Disconnected | PartialMessage | InvalidMessage | SocketBroken) => Ok tt
  | Some OtherDaemonError => Err VhostUserBackendError
  end.

(** From the socket on. *)
Definition serve_socket (daemon : Daemon) (socket : string) (h : RpcHost) : result unit * RpcHost :=
  let '(previous, h) := guard_set RPC_UMASK h in
  let '(listener, h) := listener_new daemon socket h in
  let h := guard_drop previous h in
  match listener with
  | Err e => (Err e, h)
  | Ok _ =>
      let '(r, h) := rpc_set_permissions socket RPC_MODE h in
      (_ ← r; _ ← daemon_start daemon; finished (daemon_wait daemon), h)
  end.

Definition serve_vhost {D C} `{BlockDevice D C} (event_ok : nat -> bool) (daemon : Daemon) (config : Config) (d : D)
    (alignment : Z) (trackers : list IoTracker) (h : RpcHost) (w : World) : outcome (result unit * RpcHost * World) :=
  '(backend, w) ← backend_new event_ok config d alignment trackers w;
  match backend, daemon_new daemon, vhost_socket (cfg_device config) with
  | Err e, _, _ => Done (Err e, h, w)
  | Ok _, Err e, _ => Done (Err e, h, w)
  | Ok _, Ok _, None => Done (Err InvalidParameter, h, w)
  | Ok _, Ok _, Some socket => let '(r, h) := serve_socket daemon socket h in Done (r, h, w)
  end.

(** A listener as documented: it touches only its path, and makes a socket with
    mode 0777 less the umask. *)
Definition listener_behaves (daemon : Daemon) : Prop :=
  forall path h r h', listener_new daemon path h = (r, h') ->
    only_path path h h' /\
    (r = Ok tt -> rh_dir h' !! path = Some (mkInode OtherFile (Z.land 511 (Z.lnot (rh_umask h))))).

(** The socket of the disk is as private as the control socket, and a client
    that goes away is not an error. *)
Lemma vhost_socket_private daemon socket h r h' : listener_behaves daemon -> serve_socket daemon socket h = (r, h') ->
  only_path socket h h' /\
  (forall e, daemon_wait daemon = Some e -> r = Ok tt -> e <> OtherDaemonError) /\
  (r = Ok tt -> rh_dir h' !! socket = Some (mkInode OtherFile RPC_MODE)).
Proof.
  intros Hl. unfold serve_socket. cbn [guard_set]. destruct (listener_new daemon socket _) as [r1 h1] eqn:E1.
  destruct (Hl _ _ _ _ E1) as [[Hu Hp] Hs]. cbn in Hu, Hp, Hs.
  assert (only_path socket h (guard_drop (rh_umask h) h1)) as O1 by done.
  destruct r1 as [[]|]; [|intros [= <- <-]; by split_and!].
  destruct (rpc_set_permissions socket RPC_MODE _) as [r2 h2] eqn:E2. destruct (rpc_set_permissions_spec _ _ _ _ _ E2) as [O2 D2].
  pose proof (only_path_trans _ _ _ _ O1 O2) as O3. intros [= <- <-]. split; [done|].
  destruct r2 as [[]|]; [|done]. destruct D2 as (i & Hi & D2). cbn in Hi. rewrite (Hs eq_refl) in Hi. injection Hi as <-.
  cbn. split; [|by rewrite D2]. intros e -> Hr ->. destruct (daemon_start daemon); done.
Qed.

(** ** Queues and threads *)

Lemma queue_mask_bit i q : (i < 64)%nat -> Z.testbit (queue_mask i) (Z.of_nat q) = bool_decide (q = i).
Proof.
  intros Hi. unfold queue_mask. rewrite Z.mod_small by lia. rewrite Z.shiftl_1_l.
  destruct (bool_decide_reflect (q = i)) as [->|Hn]; [apply Z.pow2_bits_true; lia|apply Z.pow2_bits_false; lia].
Qed.

Section created.
Context {D C : Type} `{DeviceSafe D C} `{!ChannelContract C} `{!DeviceContract D C}.
Context {M : Type} `{GuestMemoryLaws M} {V : Type} `{VirtQueueLaws V}.
Context (event_ok pin_ok : nat -> bool).
#[local] Set Default Proof Using "Type*".

Definition thread_ready (w : World) (t : UbiBlkBackendThread C) : Prop :=
  forall (m : M) (v : V), used_heads v = [] -> thread_inv [] [] [] t (mkGuest m v) w.

Lemma new_threads_ready n : forall idx (d : D) config alignment trackers w, is_power_of_two alignment = true -> fresh_world w ->
  exists r w', new_threads event_ok n idx d config alignment trackers w = Done (r, w') /\ frame w w' /\
    forall ts, r = Ok ts -> length ts = n /\ Forall (thread_ready w') ts.
Proof.
  induction n as [|n IH]; intros idx d config alignment trackers w Hal Hfr; cbn [new_threads].
  { do 2 eexists. split_and!; [done..|]. by intros ts [= <-]. }
  destruct (create_channel d w) as [ch|e] eqn:Ec; [|by do 2 eexists].
  edestruct (thread_new_inv (M := M) (V := V) ch (seg_count_max (cfg_tuning config)) (seg_size_max (cfg_tuning config))) as (t & w1 & -> & Hf1 & Ht);
    [exact Hal|exact Hfr|by eapply create_channel_safe|by eapply create_channel_out|]. cbn [mbind outcome_bind].
  destruct (event_ok idx); cbn [negb]; [|by do 2 eexists].
  destruct (IH (S idx) d config alignment trackers w1 Hal) as (r & w2 & -> & Hf2 & Hr). { by apply Hf1. }
  cbn [mbind outcome_bind]. do 2 eexists. split; [done|]. split; [by etrans|]. intros ts.
  destruct r as [ts'|]; [|done]. cbn. intros [= <-]. destruct (Hr ts' eq_refl) as [Hl Hts]. split; [cbn; by rewrite Hl|].
  constructor; [|done]. intros m v Hv. apply (thread_inv_evolves _ _ _ _ _ w1); [by apply frame_evolves|by apply Ht].
Qed.

(** Every queue has one thread, and every thread can start.  With tuning
    that was validated, creating the backend returns; if it succeeds, there are
    as many threads as queues are reported to the driver, each queue is in the
    mask of exactly one thread, pinning a thread finds its CPU, and each thread
    meets the invariant of its queue's worker for any guest memory and empty
    used ring. *)
Lemma backend_threads (d : D) config alignment trackers w :
  tuning_validate (cfg_tuning config) = Ok tt -> is_power_of_two alignment = true -> fresh_world w ->
  0 <= num_queues (cfg_tuning config) ->
  exists r w', backend_new event_ok config d alignment trackers w = Done (r, w') /\ frame w w' /\
  forall b, r = Ok b ->
    let n := length (ub_threads b) in
    backend_num_queues b = Z.of_nat n /\ length (ub_queues_per_thread b) = n /\
    (forall q, (q < n)%nat -> exists! i, exists mask, ub_queues_per_thread b !! i = Some mask /\ Z.testbit mask (Z.of_nat q) = true) /\
    (forall i, (i < n)%nat -> exists r b', maybe_pin_cpu pin_ok i b = Done (r, b') /\ ub_threads b' = ub_threads b) /\
    Forall (thread_ready w') (ub_threads b).
Proof.
  intros Hv Hal Hfr Hn0. unfold backend_new.
  destruct (new_threads_ready (Z.to_nat (num_queues (cfg_tuning config))) 0 d config alignment trackers w Hal Hfr) as (r & w' & -> & Hf & Hr).
  cbn [mbind outcome_bind]. do 2 eexists. split_and!; [done..|]. intros b Hb. destruct r as [ts|]; [|done]. cbn in Hb. injection Hb as <-.
  destruct (Hr ts eq_refl) as [Hl Hts]. destruct (tuning_validate_ok _ Hv) as (Hq1 & Hq2 & _). unfold MAX_NUM_QUEUES in Hq2.
  cbn [ub_threads ub_queues_per_thread]. rewrite Hl. split_and!; [| |intros q Hq|intros i Hi|done].
  - unfold backend_num_queues. cbn. rewrite Z.mod_small by lia. lia.
  - by rewrite length_map, length_seq.
  - exists q. split.
    + exists (queue_mask q). split; [|by rewrite queue_mask_bit, bool_decide_true by lia].
      rewrite list_lookup_fmap, lookup_seq_lt by done. done.
    + intros i (mask & Hm & Hbit). rewrite list_lookup_fmap in Hm. destruct (seq 0 _ !! i) as [j|] eqn:Ej; [|done].
      apply lookup_seq in Ej as [-> Hi]. cbn in Hm. injection Hm as <-. rewrite queue_mask_bit in Hbit by lia.
      by apply bool_decide_eq_true in Hbit.
  - unfold maybe_pin_cpu. cbn [ub_backend_config]. destruct (cpus (cfg_tuning config)) as [l|] eqn:El; [|by do 2 eexists].
    destruct (lookup_lt_is_Some_2 l i) as [cpu ->]. { pose proof (tuning_validate_cpus _ _ Hv El). lia. }
    destruct (default false _); by do 2 eexists.
Qed.
End created.

(** ** The configuration space, read by the driver *)

(** Offset, size and value of the fields that the driver uses, as the virtio
    specification lays them out. *)
Definition config_layout (config : Config) (nsectors : Z) : list (nat * nat * Z) :=
  let t := cfg_tuning config in
  [(0%nat, 8%nat, nsectors); (8%nat, 4%nat, seg_size_max t); (12%nat, 4%nat, seg_count_max t); (20%nat, 4%nat, 512);
   (32%nat, 1%nat, if write_through t then 0 else 1); (34%nat, 2%nat, num_queues t)].

Lemma get_config_bytes {C} offset size (b : UbiBlkBackend C) : 0 <= size ->
  get_config offset size b = Done (take (Z.to_nat size) (config_bytes (ub_config b) ++ replicate (Z.to_nat size) 0)).
Proof.
  intros Hs. unfold get_config. set (bytes := config_bytes _). set (n := Z.to_nat size).
  rewrite copy_into_done by (rewrite length_take, length_replicate; lia). f_equal. unfold splice.
  rewrite length_take, drop_replicate, take_0. cbn [app]. destruct (Nat.le_ge_cases n (length bytes)).
  - rewrite take_app_le by lia. replace (n - _)%nat with 0%nat by lia. rewrite app_nil_r. f_equal. lia.
  - rewrite (take_ge bytes) by lia. rewrite take_app_ge by lia. f_equal. rewrite take_replicate. f_equal. lia.
Qed.

(** The configuration space reads back.  Whatever offset and size a front
    end asks for, it gets exactly so many bytes, and every field that lies in
    them has the value of the device: its sectors, the limits of the tuning, the
    write cache and the number of queues. *)
Lemma config_space_reads {C} config nsectors (b : UbiBlkBackend C) offset size :
  tuning_validate (cfg_tuning config) = Ok tt -> 0 <= num_queues (cfg_tuning config) ->
  0 <= seg_size_max (cfg_tuning config) -> 0 <= seg_count_max (cfg_tuning config) -> 0 <= nsectors < 2 ^ 64 ->
  ub_config b = virtio_config config nsectors -> 0 <= size ->
  exists bytes, get_config offset size b = Done bytes /\ length bytes = Z.to_nat size /\
    forall off len value, (off, len, value) ∈ config_layout config nsectors -> (off + len <= Z.to_nat size)%nat ->
      from_le (take len (drop off bytes)) = value.
Proof.
  intros Hv Hq Hss Hsc Hn Hb Hsize. eexists. split; [by apply get_config_bytes|]. rewrite Hb. split.
  { rewrite length_take, length_app, length_replicate. lia. }
  destruct (tuning_validate_ok _ Hv) as (_ & Hq2 & _). unfold MAX_NUM_QUEUES in Hq2.
  destruct (tuning_validate_segments _ Hv) as [Hss2 Hsc2].
  intros off len value Hin Hfit. rewrite take_drop_commute, take_take, Nat.min_l, <- take_drop_commute by lia.
  set (bytes := config_bytes _ ++ _). cbn [config_layout] in Hin.
  repeat (apply elem_of_cons in Hin as [[= -> -> ->]|Hin]); [..|by apply elem_of_nil in Hin].
  - change (take 8 (drop 0 bytes)) with (to_le 8 nsectors). apply from_to_le. lia.
  - change (take 4 (drop 8 bytes)) with (to_le 4 (seg_size_max (cfg_tuning config))). apply from_to_le. lia.
  - change (take 4 (drop 12 bytes)) with (to_le 4 (seg_count_max (cfg_tuning config))). apply from_to_le. lia.
  - reflexivity.
  - change (take 1 (drop 32 bytes)) with (to_le 1 (if write_through (cfg_tuning config) then 0 else 1)).
    by destruct (write_through _).
  - change (take 2 (drop 34 bytes)) with (to_le 2 (num_queues (cfg_tuning config) mod 65536)).
    rewrite Z.mod_small by lia. apply from_to_le. lia.
Qed.

(** ** Events *)

(** A turn that reports an idle queue found nothing and left nothing running. *)
Lemma process_queue_idle {C} `{IoChannel C} {M} `{GuestMemory M} {V} `{VirtQueue V}
    (t : UbiBlkBackendThread C) (g : Guest M V) w cs t' g' w' :
  process_queue t g w = Done (cs, false, t', g', w') -> cs = [] /\ busy (io_channel t') = false.
Proof.
  unfold process_queue. destruct (process_chains _ _ _ _ _) as [[[[popped t1] g1] w1]|]; [|done]. cbn [mbind outcome_bind].
  destruct (submit _ _) as [[[r ch] w2]|]; [|done]. cbn [mbind outcome_bind].
  destruct (poll_io _ _ _) as [[[t3 g3] w3]|]; [|done]. cbn [mbind outcome_bind].
  destruct (needs_signalling t3 g3) as [[] g4]; intros [= -> Hb <- <- <-]; apply orb_false_iff in Hb as [Hb1 Hb2];
    apply negb_false_iff, bool_decide_eq_true in Hb1; by split.
Qed.

(** Processing a queue does not change how the thread is notified. *)
Section same_event.
Context {C : Type} `{IoChannel C} {M : Type} `{GuestMemory M} {V : Type} `{VirtQueue V}.
Implicit Types (t : UbiBlkBackendThread C) (g : Guest M V) (w : World).

Ltac walk E :=
  unfold mbind, outcome_bind in E;
  repeat (first [ progress simplify_eq/=
                | match type of E with context [match ?x with _ => _ end] => destruct x eqn:? end ]);
  try done.

Lemma get_slot_event len r c t w id t' w' : get_request_slot len r c t w = Done (id, t', w') -> event_idx t' = event_idx t.
Proof. intros E. unfold get_request_slot in E. walk E. Qed.
Lemma put_slot_event id t t' : put_request_slot id t = Done t' -> event_idx t' = event_idx t.
Proof. intros E. unfold put_request_slot in E. walk E. Qed.
Lemma complete_event c addr st t g t' g' : complete_io c addr st t g = (t', g') -> event_idx t' = event_idx t.
Proof. intros E. unfold complete_io in E. walk E. Qed.

Ltac events :=
  repeat match goal with
  | E : get_request_slot _ _ _ _ _ = Done _ |- _ => apply get_slot_event in E
  | E : put_request_slot _ _ = Done _ |- _ => apply put_slot_event in E
  | E : complete_io _ _ _ _ _ = _ |- _ => apply complete_event in E
  end; cbn in *; congruence.

Lemma process_chain_event c t g w t' g' w' : process_chain c (t, g, w) = Done (t', g', w') -> event_idx t' = event_idx t.
Proof.
  intros E. unfold process_chain in E. destruct (parse (g_mem g) c) as [e|r]; [by simplify_eq/=|].
  unfold process_read, process_write, process_flush, process_get_device_id in E. destruct (request_type r); walk E; events.
Qed.

Lemma finish_io_event r t g w t' g' w' : finish_io r (t, g, w) = Done (t', g', w') -> event_idx t' = event_idx t.
Proof. intros E. destruct r as [id ok]. unfold finish_io in E. walk E; events. Qed.

Lemma finish_ios_keep {A} (f : UbiBlkBackendThread C -> A) :
  (forall r t g w t' g' w', finish_io r (t, g, w) = Done (t', g', w') -> f t' = f t) ->
  forall rs t g w t' g' w', for_each finish_io rs (t, g, w) = Done (t', g', w') -> f t' = f t.
Proof.
  intros Hf. induction rs as [|r rs IH]; intros t g w t' g' w' E; [by simplify_eq/=|]. cbn [for_each] in E.
  destruct (finish_io r (t, g, w)) as [[[t1 g1] w1]|] eqn:Ef; [|done]. rewrite <- (Hf _ _ _ _ _ _ _ Ef). by eapply IH.
Qed.

Lemma process_chains_event fuel : forall t g w popped cs t' g' w',
  process_chains fuel t g w popped = Done (cs, t', g', w') -> event_idx t' = event_idx t.
Proof.
  induction fuel as [|fuel IH]; intros t g w popped cs t' g' w' E; [done|]. cbn [process_chains] in E.
  destruct (pop_chain (g_ring g)) as [[c v]|]; [|by simplify_eq/=]. destruct (process_chain c _) as [[[t1 g1] w1]|] eqn:Ec; [|done].
  apply process_chain_event in Ec as <-. by eapply IH.
Qed.

Lemma process_queue_event t g w cs b t' g' w' : process_queue t g w = Done (cs, b, t', g', w') -> event_idx t' = event_idx t.
Proof.
  unfold process_queue. destruct (process_chains _ _ _ _ _) as [[[[popped t1] g1] w1]|] eqn:E1; [|done]. cbn [mbind outcome_bind].
  apply process_chains_event in E1 as <-. destruct (submit _ _) as [[[r ch] w2]|]; [|done]. cbn [mbind outcome_bind].
  unfold poll_io. destruct (poll _ _) as [[[rs ch3] w3]|]; [|done]. cbn [mbind outcome_bind].
  destruct (for_each finish_io rs _) as [[[t4 g4] w4]|] eqn:E4; [|done]. cbn [mbind outcome_bind].
  apply (finish_ios_keep _ finish_io_event) in E4. cbn in E4. destruct (needs_signalling t4 g4) as [[] g5]; intros; simplify_eq/=; done.
Qed.

Lemma put_slot_channel id t t' : put_request_slot id t = Done t' -> io_channel t' = io_channel t.
Proof. intros E. unfold put_request_slot in E. walk E. Qed.
Lemma complete_channel c addr st t g t' g' : complete_io c addr st t g = (t', g') -> io_channel t' = io_channel t.
Proof. intros E. unfold complete_io in E. walk E. Qed.
Lemma finish_io_channel r t g w t' g' w' : finish_io r (t, g, w) = Done (t', g', w') -> io_channel t' = io_channel t.
Proof.
  intros E. destruct r as [id ok]. unfold finish_io in E. walk E.
  match goal with Ep : put_request_slot _ _ = Done _, Ec : complete_io _ _ _ _ _ = _ |- _ =>
    apply put_slot_channel in Ep; apply complete_channel in Ec; congruence end.
Qed.
End same_event.

Section events.
Context {C : Type} `{ChannelServes C} `{!ChannelContract C} {M : Type} `{GuestMemoryLaws M} {V : Type} `{VirtQueueLaws V}.
Context `{!VirtNotify V} `{!VirtNotifyLaws V}.
Context (env : nat -> Guest M V -> World -> Guest M V * World) (clock : nat -> Z).
(** The guest behaves whenever the queue is about to be processed, and between
    two turns it and the rest of the program keep to what Vhost.v lets them do. *)
Hypothesis guest_behaves : forall k p (t : UbiBlkBackendThread C) g w g' w',
  vhost_inv (p, t, g, w) -> env k g w = (g', w') -> guest_ok t g' w'.
Hypothesis env_behaves : forall k g w g' w', env k g w = (g', w') ->
  used_heads (g_ring g') = used_heads (g_ring g) /\ (forall a, check_address (g_mem g') a = check_address (g_mem g) a) /\
  stable w w' /\ (fresh_world w -> fresh_world w').
#[local] Set Default Proof Using "All".
Implicit Types (t : UbiBlkBackendThread C) (g : Guest M V) (w : World).
Notation inv p t g w := (vhost_inv (p, t, g, w)).

(** One turn: the environment acts, then the queue is processed. *)
Lemma turn_inv p k t g w : inv p t g w ->
  exists g0 w0 cs b t' g' w', env k g w = (g0, w0) /\ process_queue t g0 w0 = Done (cs, b, t', g', w') /\
    inv (p ++ map head_index cs) t' g' w'.
Proof.
  intros Hi. destruct (env k g w) as [g0 w0] eqn:E. destruct (env_behaves _ _ _ _ _ E) as (Hu & Ha & Hs & Hf).
  pose proof (vhost_step_inv _ _ (vs_env p t g w g0 w0 Hu Ha Hs Hf) Hi) as Hi0.
  destruct (process_queue_inv p t g0 w0 Hi0 (guest_behaves _ _ _ _ _ _ _ Hi E)) as (cs & b & t' & g' & w' & Eq & Hi'). by exists g0, w0, cs, b, t', g', w'.
Qed.

Lemma poll_loop_inv timeout fuel : forall p k now t g w, inv p t g w ->
  poll_loop env clock fuel k timeout now t g w = Panic OutOfFuel \/
  exists p' k' t' g' w', poll_loop env clock fuel k timeout now t g w = Done (k', (t', g', w')) /\ inv (p ++ p') t' g' w'.
Proof.
  induction fuel as [|fuel IH]; intros p k now t g w Hi; cbn [poll_loop]; [by left|].
  destruct (turn_inv p k t g w Hi) as (g0 & w0 & cs & b & t1 & g1 & w1 & -> & -> & Hi1). cbn [mbind outcome_bind].
  assert (forall now, poll_loop env clock fuel (S k) timeout now t1 g1 w1 = Panic OutOfFuel \/
    exists p' k' t' g' w', poll_loop env clock fuel (S k) timeout now t1 g1 w1 = Done (k', (t', g', w')) /\ inv (p ++ p') t' g' w') as Hnext.
  { intros now'. destruct (IH _ (S k) now' _ _ _ Hi1) as [->|(p' & k' & t' & g' & w' & -> & Hi2)]; [by left|right].
    exists (map head_index cs ++ p'), k', t', g', w'. rewrite app_assoc. by split. }
  destruct b; [apply Hnext|]. destruct (timeout <? _); [|apply Hnext]. right. by exists (map head_index cs), (S k), t1, g1, w1.
Qed.

(** Notifications were enabled on the ring, and after that a turn found nothing. *)
Definition nothing_lost t' g' w' : Prop :=
  exists k t gr v w g0 w0, enable_notification (g_ring gr) = Some v /\ env k (mkGuest (g_mem gr) v) w = (g0, w0) /\
    process_queue t g0 w0 = Done ([], false, t', g', w') /\ busy (io_channel t') = false.

Lemma notify_loop_inv fuel : forall p k t g w, inv p t g w ->
  notify_loop env fuel k t g w = Panic OutOfFuel \/
  exists p' r t' g' w', notify_loop env fuel k t g w = Done (r, (t', g', w')) /\ inv (p ++ p') t' g' w' /\
    (r = Ok tt -> nothing_lost t' g' w').
Proof.
  induction fuel as [|fuel IH]; intros p k t g w Hi; cbn [notify_loop]; [by left|].
  destruct (enable_notification (g_ring g)) as [v|] eqn:Ev.
  2: { right. exists [], (Err (IoError OtherIo)), t, g, w. by rewrite app_nil_r. }
  assert (inv p t (mkGuest (g_mem g) v) w) as Hi0.
  { refine (vhost_step_inv _ _ (vs_env p t g w (mkGuest (g_mem g) v) w _ (fun _ => eq_refl) _ _) Hi); [|done..]. cbn. by apply enable_used. }
  destruct (turn_inv p k t _ w Hi0) as (g0 & w0 & cs & b & t1 & g1 & w1 & Ee & Eq & Hi1). rewrite Ee, Eq. cbn [mbind outcome_bind].
  destruct b.
  - destruct (IH _ (S k) _ _ _ Hi1) as [->|(p' & r & t' & g' & w' & -> & Hi2 & Hn)]; [by left|right].
    exists (map head_index cs ++ p'), r, t', g', w'. rewrite app_assoc. by split_and!.
  - right. destruct (process_queue_idle _ _ _ _ _ _ _ Eq) as [-> Hb]. exists [], (Ok tt), t1, g1, w1. split_and!; [done..|].
    intros _. by exists k, t, g, v, w, g0, w0.
Qed.

(** Quiet: from turn [K] on the queue is idle, and time passes. *)
Definition quiet (K : nat) : Prop :=
  (forall k t g w p g0 w0 cs b t' g' w', (K <= k)%nat -> inv p t g w -> env k g w = (g0, w0) ->
     process_queue t g0 w0 = Done (cs, b, t', g', w') -> b = false) /\
  (forall now, exists k, (K <= k)%nat /\ forall j, (k <= j)%nat -> now < clock j).

Lemma poll_loop_quiet K timeout : quiet K ->
  forall n k now t g w p, (K <= k)%nat -> inv p t g w -> (exists j, (k < j)%nat /\ (j <= k + n)%nat /\ now + timeout < clock j) ->
  exists k' t' g' w', (K <= k')%nat /\ forall more, poll_loop env clock (n + more) k timeout now t g w = Done (k', (t', g', w')).
Proof.
  intros [Hq _]. induction n as [|n IH]; intros k now t g w p Hk Hi (j & Hj1 & Hj2 & Hj3); [lia|].
  destruct (turn_inv p k t g w Hi) as (g0 & w0 & cs & b & t1 & g1 & w1 & Ee & Eq & Hi1).
  assert (b = false) as -> by (eapply (Hq k); [exact Hk|exact Hi|exact Ee|exact Eq]). cbn [Nat.add poll_loop]. rewrite Ee, Eq. cbn [mbind outcome_bind].
  destruct (Z.ltb_spec timeout (clock (S k) - now)) as [Hlt|Hge].
  - exists (S k), t1, g1, w1. split; [lia|]. intros more. done.
  - destruct (IH (S k) now t1 g1 w1 _ ltac:(lia) Hi1) as (k' & t' & g' & w' & Hk' & E).
    { exists j. assert (j <> S k) by (intros ->; lia). split_and!; lia || done. }
    exists k', t', g', w'. by split.
Qed.

(** Before that, polling ends or comes to turn [K]. *)
Lemma poll_loop_reaches timeout d : forall k now t g w p, inv p t g w ->
  (exists s, forall more, poll_loop env clock (d + more) k timeout now t g w = Done s) \/
  exists now' t' g' w' p', inv p' t' g' w' /\
    forall more, poll_loop env clock (d + more) k timeout now t g w = poll_loop env clock more (k + d) timeout now' t' g' w'.
Proof.
  induction d as [|d IH]; intros k now t g w p Hi; [right; exists now, t, g, w, p; split; [done|]; intros more; by rewrite Nat.add_0_r|].
  destruct (turn_inv p k t g w Hi) as (g0 & w0 & cs & b & t1 & g1 & w1 & Ee & Eq & Hi1). cbn [Nat.add poll_loop]. rewrite Ee, Eq.
  cbn [mbind outcome_bind]. replace (k + S d)%nat with (S k + d)%nat by lia.
  destruct b; [by eapply IH|]. destruct (timeout <? _); [left; by eexists|by eapply IH].
Qed.

Lemma poll_loop_returns K timeout : quiet K -> forall now t g w p, inv p t g w ->
  exists n s, forall more, poll_loop env clock (n + more) 0 timeout now t g w = Done s.
Proof.
  intros HK now t g w p Hi. destruct (poll_loop_reaches timeout K 0 now t g w p Hi) as [(s & Es)|(now' & t' & g' & w' & p' & Hi' & Er)]; [by exists K, s|].
  destruct (proj2 HK (now' + timeout)) as (k & Hk & Hc).
  destruct (poll_loop_quiet K timeout HK (S (k - K)) K now' t' g' w' p' (le_n K) Hi') as (k1 & t1 & g1 & w1 & _ & E1).
  { exists (S k). split_and!; [lia..|]. apply Hc. lia. }
  exists (K + S (k - K))%nat, (k1, (t1, g1, w1)). intros more. rewrite <- Nat.add_assoc, Er. apply E1.
Qed.

Lemma notify_loop_returns K : quiet K -> forall d k t g w p, (K <= k + d)%nat -> inv p t g w ->
  exists s, forall more, notify_loop env (S d + more) k t g w = Done s.
Proof.
  intros HK. induction d as [|d IH]; intros k t g w p Hk Hi; cbn [Nat.add notify_loop];
    (destruct (enable_notification (g_ring g)) as [v|] eqn:Ev; [|by eexists]).
  all: assert (inv p t (mkGuest (g_mem g) v) w) as Hi0 by
    (refine (vhost_step_inv _ _ (vs_env p t g w (mkGuest (g_mem g) v) w _ (fun _ => eq_refl) _ _) Hi); [cbn; by apply enable_used|done..]).
  all: destruct (turn_inv p k t _ w Hi0) as (g0 & w0 & cs & b & t1 & g1 & w1 & Ee & Eq & Hi1); rewrite Ee, Eq; cbn [mbind outcome_bind].
  - assert (b = false) as -> by (eapply (proj1 HK k); [lia|exact Hi0|exact Ee|exact Eq]). by eexists.
  - destruct b; [|by eexists]. by eapply (IH (S k)); [lia|].
Qed.

Lemma serve_queue_returns K timeout t g w p : quiet K -> inv p t g w -> exists fuel s, serve_queue env clock fuel timeout t g w = Done s.
Proof.
  intros HK Hi. destruct (poll_loop_returns K timeout HK (clock 0) t g w p Hi) as (n & [k [[t1 g1] w1]] & E1).
  destruct (poll_loop_inv timeout (n + S K) p 0 (clock 0) t g w Hi) as [E|(p1 & k1 & t2 & g2 & w2 & E & Hi1)]; [by rewrite E1 in E|].
  rewrite E1 in E. injection E as <- <- <- <-. destruct (notify_loop_returns K HK K k t1 g1 w1 _ ltac:(lia) Hi1) as [s Es].
  exists (n + S K)%nat. unfold serve_queue. rewrite E1. cbn [mbind outcome_bind]. destruct (event_idx t1).
  - exists s. replace (n + S K)%nat with (S K + n)%nat by lia. apply Es.
  - destruct (turn_inv _ k t1 g1 w1 Hi1) as (g0 & w0 & cs & b & t3 & g3 & w3 & -> & -> & _). by eexists.
Qed.

Lemma poll_loop_event timeout fuel : forall k now t g w k' t' g' w',
  poll_loop env clock fuel k timeout now t g w = Done (k', (t', g', w')) -> event_idx t' = event_idx t.
Proof.
  induction fuel as [|fuel IH]; intros k now t g w k' t' g' w' E; [done|]. cbn [poll_loop] in E.
  destruct (env k g w) as [g0 w0]. destruct (process_queue t g0 w0) as [[[[[cs b] t1] g1] w1]|] eqn:Eq; [|done]. cbn [mbind outcome_bind] in E.
  apply process_queue_event in Eq as <-. destruct b; [by eapply IH|]. destruct (timeout <? _); [by simplify_eq/=|by eapply IH].
Qed.

Lemma serve_queue_inv fuel timeout t g w p : inv p t g w ->
  serve_queue env clock fuel timeout t g w = Panic OutOfFuel \/
  exists p' r t' g' w', serve_queue env clock fuel timeout t g w = Done (r, (t', g', w')) /\ inv (p ++ p') t' g' w' /\
    (r = Ok tt -> event_idx t = true -> nothing_lost t' g' w').
Proof.
  intros Hi. unfold serve_queue. destruct (poll_loop_inv timeout fuel p 0 (clock 0) t g w Hi) as [->|(p1 & k & t1 & g1 & w1 & E1 & Hi1)]; [by left|].
  rewrite E1. cbn [mbind outcome_bind]. apply poll_loop_event in E1 as <-. destruct (event_idx t1) eqn:Ev.
  - destruct (notify_loop_inv fuel _ k t1 g1 w1 Hi1) as [->|(p2 & r & t' & g' & w' & -> & Hi2 & Hn)]; [by left|right].
    exists (p1 ++ p2), r, t', g', w'. rewrite app_assoc. split_and!; [done..|]. intros Hr _. by apply Hn.
  - right. destruct (turn_inv _ k t1 g1 w1 Hi1) as (g0 & w0 & cs & b & t3 & g3 & w3 & -> & -> & Hi3). cbn [mbind outcome_bind].
    exists (p1 ++ map head_index cs), (Ok tt), t3, g3, w3. rewrite app_assoc. by split_and!.
Qed.
End events.


(** *** One read on a null device *)

#[local] Instance read_queue_notify : VirtNotify ReadQueue := { enable_notification v := Some v }.
#[local] Instance read_queue_notify_laws : VirtNotifyLaws ReadQueue.
Proof. split. by intros v v' [= <-]. Qed.

Definition bdemo_config : Config :=
  mkConfig (mkDevice "/disk" None (Some "/run/vhost.sock"%string) None "disk0" false) (mkTuning 2 4 512 1 1000 (Some [0%nat; 1%nat]) SyncEngine false) None
    (mkDanger true true false false false false) None ∅.

Lemma backend_threads_witness :
  exists b w', backend_new (fun _ => true) bdemo_config (mkNullDev 8) 512 [] vdemo_world = Done (Ok b, w') /\
    length (ub_threads b) = 2%nat /\
    (exists! i, exists mask, ub_queues_per_thread b !! i = Some mask /\ Z.testbit mask (Z.of_nat 1) = true) /\
    Forall (thread_ready (M := list Z) (V := ReadQueue) w') (ub_threads b).
Proof.
  destruct (backend_threads (M := list Z) (V := ReadQueue) (fun _ => true) (fun _ => true) (mkNullDev 8) bdemo_config 512 [] vdemo_world)
    as (r & w' & E & _ & Hb); [reflexivity|reflexivity|exact (no_buffers_fresh vdemo_world eq_refl)|vm_compute; discriminate|].
  assert (match r with Ok b => length (ub_threads b) = 2%nat | Err _ => False end) as Hr.
  { assert (match backend_new (fun _ => true) bdemo_config (mkNullDev 8) 512 [] vdemo_world with
      | Done (Ok b, _) => length (ub_threads b) = 2%nat | _ => False end) as Hx by (vm_compute; reflexivity).
    rewrite E in Hx. exact Hx. }
  destruct r as [b|]; [|destruct Hr]. exists b, w'. split; [exact E|]. split; [exact Hr|].
  destruct (Hb b eq_refl) as (_ & _ & Hq & _ & Hts). split; [|exact Hts]. apply Hq. rewrite Hr. lia.
Defined.

Lemma config_space_reads_witness :
  exists bytes, get_config 256 60 (mkBackend (C := NullIoChannel) [] [] (virtio_config bdemo_config 123456) [] bdemo_config) = Done bytes /\
    length bytes = 60%nat /\ from_le (take 8 (drop 0 bytes)) = 123456 /\ from_le (take 2 (drop 34 bytes)) = 2.
Proof.
  destruct (config_space_reads bdemo_config 123456 (mkBackend (C := NullIoChannel) [] [] (virtio_config bdemo_config 123456) [] bdemo_config) 256 60)
    as (bytes & E & Hl & Hf); try reflexivity; try (vm_compute; congruence).
  - lia.
  - exists bytes. split; [exact E|]. split; [exact Hl|]. split; (apply Hf; [cbn; set_solver|vm_compute; lia]).
Defined.

(** The chain is taken in the first turn, after which the guest adds nothing. *)
Definition bdemo_env (k : nat) (g : Guest (list Z) ReadQueue) (w : World) : Guest (list Z) ReadQueue * World :=
  match k with O => (g, w) | S _ => (mkGuest (g_mem g) (mkRQ [] (rq_used (g_ring g))), w) end.
Definition bdemo_clock (k : nat) : Z := 400 * Z.of_nat k.

Lemma bdemo_quiet : quiet (C := NullIoChannel) bdemo_env bdemo_clock 1.
Proof.
  split.
  - intros k t g w p g0 w0 cs b t' g' w' Hk _ Ee. destruct k as [|k]; [lia|]. injection Ee as <- <-.
    unfold process_queue. cbn [process_chains g_ring pop_chain demo_queue rq_avail available length].
    cbn [mbind outcome_bind submit null_channel]. unfold poll_io. cbn [poll null_channel mbind outcome_bind].
    destruct (for_each finish_io _ _) as [[[t4 g4] w4]|] eqn:E4; [|done]. cbn [mbind outcome_bind].
    apply (finish_ios_keep _ finish_io_channel) in E4. cbn in E4. rewrite E4. destruct (needs_signalling t4 g4) as [[] g5]; intros; by simplify_eq/=.
  - intros now. exists (S (Z.to_nat now)). split; [lia|]. intros j Hj. unfold bdemo_clock. lia.
Qed.

Definition bdemo_thread : UbiBlkBackendThread NullIoChannel * World :=
  match thread_new (mkNullCh []) 1 512 1 [] 512 (tracker_new 1) vdemo_world with
  | Done (t, w) => (mkThread true (io_channel t) (request_slots t) (device_id t) (th_alignment t) (ios_pending_signal t) (io_tracker t), w)
  | Panic _ => (mkThread true (mkNullCh []) [] [] 512 false (tracker_new 1), vdemo_world)
  end.
Definition bdemo_backend : UbiBlkBackend NullIoChannel :=
  mkBackend [bdemo_thread.1; bdemo_thread.1] [false; false] (virtio_config bdemo_config 8) [1; 2] bdemo_config.

