(* ===== verification/UblkDevice.v ===== *)
(** * UblkDevice: a disk as a ublk device

    Models the rest of src/src/backends/ublk/mod.rs (the requests are in
    Ublk.v): the parameters of the kernel device, the queues' threads, and the
    symbolic link by which the device can be found while it is served.  The
    control device of libublk is a parameter.

    The theorems: the link points to the device while it is served and is gone
    afterwards, nothing else that existed is touched, and what somebody else put
    in its place is left alone; the thread of every queue starts in the state
    from which Ublk.v answers every request exactly once. *)
From S2P Require Import Prelude Metadata SharedState World Device StripeSource IoTracking Secrets Config Backend Ublk.
#[local] Open Scope Z_scope.

(** ** Names in the file system *)

#[global] Instance Component_countable : Countable Component.
Proof.
  apply (inj_countable' (fun c => match c with RootDir => inl 0%nat | CurDir => inl 1%nat | ParentDir => inl 2%nat | Normal s => inr s end)
    (fun x => match x with inl 0%nat => RootDir | inl 1%nat => CurDir | inl _ => ParentDir | inr s => Normal s end)).
  by intros [].
Defined.
Notation Path := (list Component).

Inductive LinkEntry := LinkTo (target : string) | DirEntry | FileEntry.

(** The entries by their path, and the fate of the coming system calls. *)
Record LinkHost := mkLinkHost { lh_entries : gmap Path LinkEntry; lh_faults : list bool }.

Definition link_fault (h : LinkHost) : bool * LinkHost :=
  match lh_faults h with
  | f :: faults => (f, mkLinkHost (lh_entries h) faults)
  | [] => (false, h)
  end.
Definition set_entries (h : LinkHost) (es : gmap Path LinkEntry) : LinkHost := mkLinkHost es (lh_faults h).

Section links.
(** Whether the target of a link is a directory. *)
Context (leads_to_dir : string -> bool).

(** The working directory and the root are always there. *)
Definition is_dir (p : Path) (h : LinkHost) : bool :=
  match p with
  | [] | [RootDir] | [CurDir] => true
  | _ => match lh_entries h !! p with
         | Some DirEntry => true
         | Some (LinkTo t) => leads_to_dir t
         | Some FileEntry | None => false
         end
  end.

Inductive fs_result := Created | Missing | Refused.

(** [mkdir]. *)
Definition make_dir (p : Path) (h : LinkHost) : fs_result * LinkHost :=
  let '(fault, h) := link_fault h in
  if fault : bool then (Refused, h)
  else if is_dir p h then (Refused, h)
  else match lh_entries h !! p with
       | Some _ => (Refused, h)
       | None =>
           if is_dir (removelast p) h then (Created, set_entries h (<[p := DirEntry]> (lh_entries h)))
           else match lh_entries h !! removelast p with
                | None => (Missing, h)
                | Some _ => (Refused, h)
                end
       end.

(** [fs::create_dir_all], on the reversed path: the parent is its tail. *)
Fixpoint create_dir_all (rp : Path) (h : LinkHost) : result unit * LinkHost :=
  match rp with
  | [] => (Ok tt, h)
  | _ :: parent =>
      let p := rev rp in
      let settle (r : fs_result) (h : LinkHost) :=
        match r with
        | Created => (Ok tt, h)
        | Missing | Refused => (if is_dir p h then Ok tt else Err (IoError OtherIo), h)
        end in
      let '(r, h) := make_dir p h in
      match r with
      | Missing =>
          let '(r, h) := create_dir_all parent h in
          match r with
          | Err e => (Err e, h)
          | Ok _ => let '(r, h) := make_dir p h in settle r h
          end
      | _ => settle r h
      end
  end.

(** [fs::symlink_metadata]: [inl] tells [NotFound] from other errors. *)
Definition symlink_metadata (p : Path) (h : LinkHost) : (bool + LinkEntry) * LinkHost :=
  let '(fault, h) := link_fault h in
  if fault : bool then (inl false, h) else
  match lh_entries h !! p with
  | Some e => (inr e, h)
  | None => (inl true, h)
  end.

(** [fs::remove_file], which refuses directories. *)
Definition unlink (p : Path) (h : LinkHost) : result unit * LinkHost :=
  let '(fault, h) := link_fault h in
  if fault : bool then (Err (IoError OtherIo), h) else
  match lh_entries h !! p with
  | None | Some DirEntry => (Err (IoError OtherIo), h)
  | Some _ => (Ok tt, set_entries h (delete p (lh_entries h)))
  end.

(** [std::os::unix::fs::symlink]. *)
Definition symlink (target : string) (p : Path) (h : LinkHost) : result unit * LinkHost :=
  let '(fault, h) := link_fault h in
  if fault : bool then (Err (IoError OtherIo), h) else
  match lh_entries h !! p with
  | Some _ => (Err (IoError OtherIo), h)
  | None =>
      if is_dir (removelast p) h && negb (is_dir p h) then (Ok tt, set_entries h (<[p := LinkTo target]> (lh_entries h)))
      else (Err (IoError OtherIo), h)
  end.

(** ** The link to the device *)

(** What is at the path is removed first. *)
Definition replace_link (target : string) (link : Path) (h : LinkHost) : result unit * LinkHost :=
  let '(m, h) := symlink_metadata link h in
  match m with
  | inr _ =>
      let '(r, h) := unlink link h in
      match r with
      | Err e => (Err e, h)
      | Ok _ => symlink target link h
      end
  | inl true => symlink target link h
  | inl false => (Err (IoError OtherIo), h)
  end.

Definition create_device_symlink (target link : string) (h : LinkHost) : result unit * LinkHost :=
  match path_parent link with
  | None => replace_link target (components link) h
  | Some parent =>
      let '(r, h) := create_dir_all (rev parent) h in
      match r with
      | Err e => (Err e, h)
      | Ok _ => replace_link target (components link) h
      end
  end.

Definition remove_device_symlink (link : string) (h : LinkHost) : result unit * LinkHost :=
  let '(m, h) := symlink_metadata (components link) h in
  match m with
  | inr (LinkTo _) => unlink (components link) h
  | inr _ => (Ok tt, h)
  | inl true => (Ok tt, h)
  | inl false => (Err (IoError OtherIo), h)
  end.

(** Failing to make the link is not an error of the device. *)
Definition announce_ublk_device (bdev_path : string) (device_symlink : option string) (h : LinkHost) : LinkHost :=
  match device_symlink with
  | Some link => (create_device_symlink bdev_path link h).2
  | None => h
  end.

Definition withdraw_symlink (device_symlink : option string) (h : LinkHost) : LinkHost :=
  match device_symlink with
  | Some link => (remove_device_symlink link h).2
  | None => h
  end.
End links.

(** ** The kernel device *)

Definition U16 : Z := 65536.

(** What [UblkCtrlBuilder] and [configure_ublk_device] are given. *)
Record UblkParams := mkParams {
  up_name : string;
  up_nr_queues : Z;
  up_depth : Z;
  up_io_buf_bytes : Z;
  up_device_size : Z;
}.

Definition ublk_params (config : Config) (nsectors : Z) : UblkParams :=
  let t := cfg_tuning config in
  mkParams ("ubiblk-" ++ Config.device_id (cfg_device config)) (num_queues t mod U16) (queue_size t mod U16)
    (seg_size_max t) (wrap64 (nsectors * Z.of_nat SECTOR_SIZE)).

(** The control device of libublk: whether it can be built, the path of the
    block device, whether it was started, in which case it is announced, and
    how [run_target] ends. *)
Record UblkCtrl := mkCtrl {
  ctrl_build : UblkParams -> result unit;
  get_bdev_path : string;
  ctrl_started : bool;
  run_target : result unit;
}.

Section serve.
Context (leads_to_dir : string -> bool).
(** What others do to the file system while the device is served. *)
Context (others : LinkHost -> LinkHost).

Definition serve_ublk (ctrl : UblkCtrl) (config : Config) (nsectors : Z) (device_symlink : option string) (h : LinkHost)
  : result unit * LinkHost :=
  match ctrl_build ctrl (ublk_params config nsectors) with
  | Err e => (Err e, h)
  | Ok _ =>
      let h := if ctrl_started ctrl then announce_ublk_device leads_to_dir (get_bdev_path ctrl) device_symlink h else h in
      let h := others h in
      match run_target ctrl with
      | Err e => (Err e, h)
      | Ok _ => (Ok tt, withdraw_symlink device_symlink h)
      end
  end.

(** The handler of Ctrl-C deletes the device, which may fail, and the link. *)
Definition handle_ctrlc_shutdown (del_dev : result unit) (device_symlink : option string) (h : LinkHost) : LinkHost :=
  withdraw_symlink device_symlink h.
End serve.

(** ** The thread of a queue *)

(** What libublk gives a queue: the size of its buffers and their number, the
    buffers, and whether the queue is created and its commands submitted. *)
Record UblkDev := mkUblkDev {
  max_io_buf_bytes : nat;
  queue_depth : nat;
  alloc_queue_io_bufs : list (list Z);
  queue_new : nat -> bool;
  submit_fetch_commands : nat -> bool;
}.

Section queue.
Context {D C : Type} `{BlockDevice D C}.

(** The handler that [wait_and_handle_io] runs, if the queue comes up; the
    tracker is looked up by the caller. *)
Definition serve_ublk_queue (qid : nat) (dev : UblkDev) (bdev : D) (alignment : Z) (io_trackers : list IoTracker) (w : World)
  : outcome (option (UblkIoHandler C) * World) :=
  match io_trackers !! qid with
  | None => Panic IndexOutOfBounds
  | Some io_tracker =>
      match create_channel bdev w with
      | Err _ => Done (None, w)
      | Ok io_channel =>
          if queue_new dev qid && submit_fetch_commands dev qid then
            '(h, w) ← handler_new alignment (max_io_buf_bytes dev) io_channel (alloc_queue_io_bufs dev) (queue_depth dev) io_tracker w;
            Done (Some h, w)
          else Done (None, w)
      end
  end.
End queue.

(** ** Queues *)

(** With validated tuning the kernel device has the queues of the
    configuration, and their depth unless that is 65536, which is passed on as 0. *)
Lemma ublk_params_tuning config nsectors : tuning_validate (cfg_tuning config) = Ok tt -> 0 <= num_queues (cfg_tuning config) ->
  up_nr_queues (ublk_params config nsectors) = num_queues (cfg_tuning config) /\
  up_depth (ublk_params config nsectors) =
    (if queue_size (cfg_tuning config) =? 65536 then 0 else queue_size (cfg_tuning config)).
Proof.
  intros Hv Hq. destruct (tuning_validate_ok _ Hv) as (_ & Hn & Hs & Hp). cbn [ublk_params up_nr_queues up_depth].
  unfold MAX_NUM_QUEUES in Hn. unfold U16. split; [apply Z.mod_small; lia|].
  apply andb_true_iff in Hp as [?%Z.ltb_lt _]. destruct (Z.eqb_spec (queue_size (cfg_tuning config)) 65536) as [->|]; [done|].
  apply Z.mod_small. lia.
Qed.

(** The thread of every queue that comes up runs a handler that meets the
    invariant of Ublk.v, over any device whose new channels serve. *)
Lemma ublk_queue_ready {D C} `{BlockDevice D C} `{ChannelServes C} `{!ChannelContract C} (d : D) dev qid alignment trackers w :
  (forall c : C, create_channel d w = Ok c -> cs_inv c w) -> (qid < length trackers)%nat -> is_power_of_two alignment = true -> length (alloc_queue_io_bufs dev) = queue_depth dev -> fresh_world w ->
  exists o w', serve_ublk_queue (C := C) qid dev d alignment trackers w = Done (o, w') /\
    forall h, o = Some h -> ublk_inv ([], h, w') /\ trackers !! qid = Some (uh_tracker h).
Proof.
  intros Hcs Hq Ha Hl Hf. unfold serve_ublk_queue. destruct (lookup_lt_is_Some_2 trackers qid Hq) as [t ->].
  destruct (create_channel d w) as [c|e] eqn:Ec; [|by do 2 eexists]. destruct (_ && _); [|by do 2 eexists].
  destruct (handler_new alignment (max_io_buf_bytes dev) c (alloc_queue_io_bufs dev) (queue_depth dev) t w) as [[h w']|p] eqn:En.
  - cbn [mbind outcome_bind]. do 2 eexists. split; [done|]. intros h' [= <-]. split.
    + by apply (handler_new_inv _ _ _ _ _ _ _ _ _ (Hcs c eq_refl) Hl Hf En).
    + unfold handler_new in En. rewrite Ha, andb_false_r in En. destruct (alloc_pool _ _ w) as [bs w1]. by injection En as <- <-.
  - unfold handler_new in En. rewrite Ha, andb_false_r in En. by destruct (alloc_pool _ _ w) as [bs w1].
Qed.

(** ** What happens to the file system *)

Section frames.
Context (leads_to_dir : string -> bool).

(** Directories may appear at the prefixes of a path; the rest stays. *)
Definition dirs_added (parent : Path) (h h' : LinkHost) : Prop :=
  forall q, lh_entries h' !! q = lh_entries h !! q \/
    (lh_entries h !! q = None /\ lh_entries h' !! q = Some DirEntry /\ q `prefix_of` parent).

Lemma dirs_added_refl parent h h' : lh_entries h' = lh_entries h -> dirs_added parent h h'.
Proof. intros E q. left. by rewrite E. Qed.

Lemma dirs_added_trans parent h1 h2 h3 : dirs_added parent h1 h2 -> dirs_added parent h2 h3 -> dirs_added parent h1 h3.
Proof.
  intros H1 H2 q. destruct (H1 q) as [E1|(E1 & E2 & Hp)], (H2 q) as [E3|(E3 & E4 & Hp')];
    [left; congruence|right; split_and!; congruence || done..|congruence].
Qed.

Lemma dirs_added_weaken p parent h h' : p `prefix_of` parent -> dirs_added p h h' -> dirs_added parent h h'.
Proof. intros Hp Hd q. destruct (Hd q) as [|(? & ? & ?)]; [by left|right]. split_and!; [done..|by etrans]. Qed.

(** Directories stay directories. *)
Lemma dirs_added_is_dir parent h h' q : dirs_added parent h h' -> is_dir leads_to_dir q h = true -> is_dir leads_to_dir q h' = true.
Proof.
  intros Hd. unfold is_dir. destruct (Hd q) as [E|(E1 & E2 & _)]; [by rewrite E|]. rewrite E1, E2. by destruct q as [|[] []].
Qed.

Lemma link_fault_entries h : lh_entries (link_fault h).2 = lh_entries h.
Proof. unfold link_fault. by destruct (lh_faults h). Qed.

Lemma is_dir_entries q h h' : lh_entries h' = lh_entries h -> is_dir leads_to_dir q h' = is_dir leads_to_dir q h.
Proof. intros E. unfold is_dir. by rewrite E. Qed.

Lemma is_dir_new q h : is_dir leads_to_dir q (set_entries h (<[q := DirEntry]> (lh_entries h))) = true.
Proof. unfold is_dir. cbn. rewrite lookup_insert_eq. by destruct q as [|[] []]. Qed.

Lemma make_dir_frame p h r h' : make_dir leads_to_dir p h = (r, h') ->
  dirs_added p h h' /\ (r = Created -> is_dir leads_to_dir p h' = true) /\ (r <> Created -> lh_entries h' = lh_entries h).
Proof.
  unfold make_dir. pose proof (link_fault_entries h) as He. destruct (link_fault h) as [f h1]. cbn in He.
  destruct f; [intros [= <- <-]; split_and!; [by apply dirs_added_refl|done..]|].
  destruct (is_dir _ p h1); [intros [= <- <-]; split_and!; [by apply dirs_added_refl|done..]|].
  destruct (lh_entries h1 !! p) eqn:Ep; [intros [= <- <-]; split_and!; [by apply dirs_added_refl|done..]|].
  destruct (is_dir _ (removelast p) h1).
  - intros [= <- <-]. split_and!; [|intros _; apply is_dir_new|done]. intros q. cbn. rewrite He in Ep |- *.
    destruct (decide (q = p)) as [->|Hq]; [right; by rewrite lookup_insert_eq|left; by rewrite lookup_insert_ne].
  - destruct (lh_entries h1 !! removelast p); intros [= <- <-]; split_and!; try done; by apply dirs_added_refl.
Qed.

Lemma create_dir_all_frame rp : forall h r h', create_dir_all leads_to_dir rp h = (r, h') ->
  dirs_added (rev rp) h h' /\ (r = Ok tt -> is_dir leads_to_dir (rev rp) h' = true).
Proof.
  induction rp as [|c parent IH]; intros h r h'; cbn [create_dir_all].
  { intros [= <- <-]. split; [by apply dirs_added_refl|done]. }
  set (p := rev (c :: parent)). assert (rev parent `prefix_of` p) as Hpre by (by exists [c]).
  destruct (make_dir _ p h) as [r1 h1] eqn:E1. destruct (make_dir_frame _ _ _ _ E1) as (D1 & C1 & _).
  destruct r1.
  - intros [= <- <-]. auto.
  - destruct (create_dir_all _ parent h1) as [r2 h2] eqn:E2. destruct (IH _ _ _ E2) as [D2 _].
    pose proof (dirs_added_trans _ _ _ _ D1 (dirs_added_weaken _ _ _ _ Hpre D2)) as D3.
    destruct r2 as [[]|e]; [|intros [= <- <-]; by split].
    destruct (make_dir _ p h2) as [r3 h3] eqn:E3. destruct (make_dir_frame _ _ _ _ E3) as (D4 & C4 & _).
    pose proof (dirs_added_trans _ _ _ _ D3 D4) as D5. destruct r3; intros [= <- <-]; split; auto;
      destruct (is_dir _ p h3) eqn:Ed; done.
  - intros [= <- <-]. split; [done|]. destruct (is_dir _ p h1) eqn:Ed; done.
Qed.

(** Without faults, and with nothing but directories in the way. *)
Lemma create_dir_all_succeeds rp : forall h, lh_faults h = [] ->
  (forall q, q `prefix_of` rev rp -> lh_entries h !! q = None \/ is_dir leads_to_dir q h = true) ->
  exists h', create_dir_all leads_to_dir rp h = (Ok tt, h') /\ lh_faults h' = [].
Proof.
  induction rp as [|c parent IH]; intros h Hf Hway; cbn [create_dir_all]; [by exists h|].
  set (p := rev (c :: parent)) in *. assert (rev parent `prefix_of` p) as Hpre by (by exists [c]).
  assert (removelast p = rev parent) as Hrm by apply removelast_last.
  assert (forall h, lh_faults h = [] -> link_fault h = (false, h)) as Hnf by (intros k E; unfold link_fault; by rewrite E).
  unfold make_dir at 1. rewrite Hnf, Hrm by done.
  destruct (is_dir leads_to_dir p h) eqn:Ep; [exists h; rewrite Ep; done|].
  assert (lh_entries h !! p = None) as Hp by (destruct (Hway p ltac:(done)); [done|congruence]). rewrite Hp.
  destruct (is_dir leads_to_dir (rev parent) h) eqn:Eq; [by eexists|].
  assert (lh_entries h !! rev parent = None) as -> by (destruct (Hway (rev parent) Hpre); [done|congruence]).
  destruct (IH h Hf) as (h2 & E2 & Hf2); [intros q Hq; apply Hway; by etrans|]. rewrite E2.
  destruct (create_dir_all_frame _ _ _ _ E2) as [D2 C2].
  assert (lh_entries h2 !! p = None) as Hp2.
  { destruct (D2 p) as [->|(_ & _ & Hlen)]; [done|]. apply prefix_length in Hlen. unfold p in Hlen. cbn in Hlen.
    rewrite length_app in Hlen. cbn in Hlen. lia. }
  unfold make_dir. rewrite Hnf, Hrm, C2, Hp2 by done.
  destruct (is_dir leads_to_dir p h2) eqn:Ep2; [by exists h2; rewrite Ep2|by eexists].
Qed.

(** Only the link changes. *)
Definition only_entry (l : Path) (h h' : LinkHost) : Prop := forall q, q <> l -> lh_entries h' !! q = lh_entries h !! q.

Lemma only_entry_eq l h h' : lh_entries h' = lh_entries h -> only_entry l h h'.
Proof. intros E q _. by rewrite E. Qed.
Lemma only_entry_trans l h1 h2 h3 : only_entry l h1 h2 -> only_entry l h2 h3 -> only_entry l h1 h3.
Proof. intros H1 H2 q Hq. by rewrite H2, H1. Qed.

Lemma unlink_frame l h r h' : unlink l h = (r, h') -> only_entry l h h' /\
  (r = Ok tt -> lh_entries h' !! l = None) /\ (r <> Ok tt -> lh_entries h' = lh_entries h).
Proof.
  unfold unlink. pose proof (link_fault_entries h) as He. destruct (link_fault h) as [f h1]. cbn in He.
  destruct f; [intros [= <- <-]; split_and!; [by apply only_entry_eq|done..]|].
  destruct (lh_entries h1 !! l) as [[]|]; intros [= <- <-]; split_and!; try done; try by apply only_entry_eq.
  all: try (intros q Hq; cbn; rewrite lookup_delete_ne by done; by rewrite He).
  all: intros _; cbn; by rewrite lookup_delete_eq.
Qed.

Lemma symlink_frame t l h r h' : symlink leads_to_dir t l h = (r, h') -> only_entry l h h' /\
  (r = Ok tt -> lh_entries h' !! l = Some (LinkTo t)).
Proof.
  unfold symlink. pose proof (link_fault_entries h) as He. destruct (link_fault h) as [f h1]. cbn in He.
  destruct f; [intros [= <- <-]; split; [by apply only_entry_eq|done]|].
  destruct (lh_entries h1 !! l); [intros [= <- <-]; split; [by apply only_entry_eq|done]|].
  destruct (_ && _); intros [= <- <-]; (split; [|done]) || split; [|intros _; cbn; by rewrite lookup_insert_eq|by apply only_entry_eq].
  intros q Hq. cbn. by rewrite lookup_insert_ne, He.
Qed.

Lemma replace_link_frame t l h r h' : replace_link leads_to_dir t l h = (r, h') -> only_entry l h h' /\
  (r = Ok tt -> lh_entries h' !! l = Some (LinkTo t)).
Proof.
  unfold replace_link, symlink_metadata. pose proof (link_fault_entries h) as He. destruct (link_fault h) as [f h1]. cbn in He.
  destruct f; [intros [= <- <-]; split; [by apply only_entry_eq|done]|].
  assert (only_entry l h h1) as O1 by by apply only_entry_eq.
  destruct (lh_entries h1 !! l).
  - destruct (unlink l h1) as [r2 h2] eqn:E2. destruct (unlink_frame _ _ _ _ E2) as (O2 & _).
    pose proof (only_entry_trans _ _ _ _ O1 O2) as O3. destruct r2; [|intros [= <- <-]; by split].
    intros E. apply symlink_frame in E as [O4 Hr]. split; [by eapply only_entry_trans|done].
  - intros E. apply symlink_frame in E as [O4 Hr]. split; [by eapply only_entry_trans|done].
Qed.

Lemma remove_link_spec link h r h' : let l := components link in
  remove_device_symlink link h = (r, h') -> only_entry l h h' /\
  ((forall t, lh_entries h !! l <> Some (LinkTo t)) -> lh_entries h' = lh_entries h) /\
  (lh_faults h = [] -> forall t, lh_entries h !! l = Some (LinkTo t) -> lh_entries h' !! l = None).
Proof.
  intros l. unfold remove_device_symlink, symlink_metadata. fold l. pose proof (link_fault_entries h) as He.
  destruct (link_fault h) as [f h1] eqn:Ef. cbn in He.
  assert (lh_faults h = [] -> f = false /\ lh_faults h1 = []) as Hf.
  { intros Hf. unfold link_fault in Ef. rewrite Hf in Ef. injection Ef as <- <-. done. }
  destruct f; [intros [= <- <-]; split_and!; [by apply only_entry_eq|done|intros E; by destruct (Hf E)]|].
  rewrite He. destruct (lh_entries h !! l) as [[t| |]|] eqn:El;
    [|intros [= <- <-]; split_and!; [by apply only_entry_eq|done|intros _ t' [=]]..].
  intros E. destruct (unlink_frame _ _ _ _ E) as (O & Hok & _).
  split_and!; [by eapply only_entry_trans; [apply only_entry_eq|]|intros Hn; by destruct (Hn t)|].
  intros E0 t' _. apply Hok. destruct (Hf E0) as [_ Hf1]. unfold unlink, link_fault in E. rewrite Hf1, He, El in E. by injection E as <- _.
Qed.
End frames.

Lemma no_dir_here leads_to_dir parent name h : lh_entries h !! (parent ++ [Normal name]) = None ->
  is_dir leads_to_dir (parent ++ [Normal name]) h = false.
Proof. intros E. unfold is_dir. rewrite E. by destruct parent as [|[] [|? ?]]. Qed.

Lemma replace_link_succeeds leads_to_dir t parent name h : let l := parent ++ [Normal name] in
  lh_faults h = [] -> is_dir leads_to_dir parent h = true -> lh_entries h !! l <> Some DirEntry ->
  (replace_link leads_to_dir t l h).1 = Ok tt.
Proof.
  intros l Hf Hd He. unfold replace_link, symlink_metadata, link_fault. rewrite Hf. cbn iota beta.
  assert (forall k, lh_faults k = [] -> lh_entries k !! l = None -> is_dir leads_to_dir parent k = true ->
    (symlink leads_to_dir t l k).1 = Ok tt) as Hs.
  { intros k Hk Hn Hk2. unfold symlink, link_fault. rewrite Hk, Hn. unfold l in *. rewrite removelast_last, Hk2, no_dir_here by done. done. }
  assert (l <> parent) as Hne by (intros E; apply (f_equal length) in E; unfold l in E; rewrite length_app in E; cbn in E; lia).
  destruct (lh_entries h !! l) as [e|] eqn:El; [|by apply Hs].
  assert (unlink l h = (Ok tt, set_entries h (delete l (lh_entries h)))) as ->.
  { unfold unlink, link_fault. rewrite Hf, El. by destruct e. }
  apply Hs; [done|cbn; by rewrite lookup_delete_eq|].
  revert Hd. unfold is_dir. cbn. by rewrite lookup_delete_ne.
Qed.

(** C23: the link to a ublk device.  Let a device be started with a link path that
    ends in a name.  Announcing it changes nothing that exists except at that
    path; only missing parents appear.  Unless a system call fails, a directory
    is at the path or something else is in the way of its parents, the path is a
    link to the device while it is served; a file or another link that was there
    before has been replaced.  The end of serving touches only the path: when
    [run_target] succeeds, a link there is removed, unless a system call fails,
    and anything else that others have put there is left alone; when it fails,
    nothing is removed and the link stays. *)
Theorem device_link_lifecycle leads_to_dir others ctrl config nsectors link name h :
  let l := components link in
  let h1 := announce_ublk_device leads_to_dir (get_bdev_path ctrl) (Some link) h in
  let h2 := others h1 in
  let h' := (serve_ublk leads_to_dir others ctrl config nsectors (Some link) h).2 in
  last l = Some (Normal name) -> ctrl_build ctrl (ublk_params config nsectors) = Ok tt -> ctrl_started ctrl = true ->
  (forall q, q <> l -> lh_entries h1 !! q = lh_entries h !! q \/
     (lh_entries h !! q = None /\ lh_entries h1 !! q = Some DirEntry /\ q `prefix_of` removelast l)) /\
  (lh_faults h = [] -> lh_entries h !! l <> Some DirEntry ->
   (forall q, q `prefix_of` removelast l -> lh_entries h !! q = None \/ is_dir leads_to_dir q h = true) ->
   lh_entries h1 !! l = Some (LinkTo (get_bdev_path ctrl))) /\
  (forall q, q <> l -> lh_entries h' !! q = lh_entries h2 !! q) /\
  (run_target ctrl = Ok tt -> forall e, lh_entries h2 !! l = e ->
     match e with
     | Some (LinkTo _) => lh_faults h2 = [] -> lh_entries h' !! l = None
     | _ => lh_entries h' !! l = e
     end) /\
  (run_target ctrl <> Ok tt -> h' = h2).
Proof.
  intros l h1 h2 h' Hlast Hb Hs. apply last_Some in Hlast as [parent Hl].
  assert (removelast l = parent) as Hrm by (rewrite Hl; apply removelast_last). rewrite Hrm.
  assert (path_parent link = Some parent) as Hpp by (unfold path_parent; fold l; rewrite Hl, last_snoc, removelast_last; done).
  assert (h1 = (create_device_symlink leads_to_dir (get_bdev_path ctrl) link h).2) as Eh1 by done.
  unfold create_device_symlink in Eh1. rewrite Hpp in Eh1. fold l in Eh1.
  destruct (create_dir_all leads_to_dir (rev parent) h) as [r0 h0] eqn:E0.
  destruct (create_dir_all_frame _ _ _ _ _ E0) as [D0 C0]. rewrite rev_involutive in D0, C0.
  split_and!.
  - intros q Hq. destruct r0 as [[]|]; [|rewrite Eh1; apply D0].
    destruct (replace_link _ _ l h0) as [r3 h3] eqn:E3. destruct (replace_link_frame _ _ _ _ _ _ E3) as [O3 _].
    rewrite Eh1. cbn [snd]. rewrite O3 by done. apply D0.
  - intros Hf He Hway. destruct (create_dir_all_succeeds leads_to_dir (rev parent) h Hf) as (k & Ek & Hk); [by rewrite rev_involutive|].
    rewrite E0 in Ek. injection Ek as -> ->.
    destruct (replace_link _ _ l k) as [r3 h3] eqn:E3. destruct (replace_link_frame _ _ _ _ _ _ E3) as [_ H3]. rewrite Eh1. apply H3.
    change r3 with (r3, h3).1. rewrite <- E3, Hl. apply replace_link_succeeds; [done|by apply C0|]. rewrite <- Hl.
    destruct (D0 l) as [->|(_ & _ & Hp)]; [done|]. apply prefix_length in Hp. rewrite Hl, length_app in Hp. cbn in Hp. lia.
  - assert (only_entry l h2 h') as O; [|done]. unfold h', serve_ublk. rewrite Hb, Hs. fold h1 h2.
    destruct (run_target ctrl); [|by apply only_entry_eq]. cbn [snd withdraw_symlink].
    destruct (remove_device_symlink link h2) as [r3 h3] eqn:E3. by destruct (remove_link_spec _ _ _ _ E3).
  - intros Hr e He. unfold h', serve_ublk. rewrite Hb, Hs, Hr. fold h1 h2. cbn [snd withdraw_symlink].
    destruct (remove_device_symlink link h2) as [r3 h3] eqn:E3. destruct (remove_link_spec _ _ _ _ E3) as (_ & Hkeep & Hgone).
    fold l in Hkeep, Hgone. cbn [snd]. destruct e as [[t| |]|]; [intros Hf; by apply (Hgone Hf t)|..];
      (rewrite Hkeep; [done|]); intros t'; by rewrite He.
  - intros Hr. unfold h', serve_ublk. rewrite Hb, Hs. fold h1 h2. by destruct (run_target ctrl) as [[]|].
Qed.

Definition ldemo_ctrl : UblkCtrl := mkCtrl (fun _ => Ok tt) "/dev/ublkb0" true (Ok tt).
Definition ldemo_dev : Path := [RootDir; Normal "dev"].
Definition ldemo_link : Path := ldemo_dev ++ [Normal "ubi"; Normal "disk"].
Definition ldemo_host : LinkHost := mkLinkHost {[ ldemo_dev := DirEntry ]} [].

Lemma device_link_lifecycle_witness :
  let h1 := announce_ublk_device (fun _ => false) "/dev/ublkb0" (Some "/dev/ubi/disk"%string) ldemo_host in
  lh_entries h1 !! ldemo_link = Some (LinkTo "/dev/ublkb0") /\
  lh_entries (serve_ublk (fun _ => false) id ldemo_ctrl backend_demo_config 8 (Some "/dev/ubi/disk"%string) ldemo_host).2 !! ldemo_link = None.
Proof.
  intros h1.
  destruct (device_link_lifecycle (fun _ => false) id ldemo_ctrl backend_demo_config 8 "/dev/ubi/disk" "disk" ldemo_host) as (_ & Hl & _ & Hg & _);
    [reflexivity..|].
  split.
  - apply Hl; [reflexivity|by vm_compute|].
    intros q [k Hk]. change (removelast _) with [RootDir; Normal "dev"; Normal "ubi"] in Hk.
    destruct q as [|a q]; [by right|]. injection Hk as <- Hk. destruct q as [|a q]; [by right|]. injection Hk as <- Hk.
    destruct q as [|a q]; [by right|]. injection Hk as <- Hk. destruct q as [|a q]; [by left|done].
  - by apply (Hg eq_refl (Some (LinkTo "/dev/ublkb0"))).
Defined.
