(* ===== verification/Tools.v ===== *)
(** * Tools: the offline programs

    Models src/src/bin/xts.rs (encrypting and decrypting images),
    src/src/bin/init-metadata.rs and the report of
    src/src/bin/dump-metadata.rs.  Parsing of command lines is left out.

    [run] of the two metadata programs takes the loaded configuration.

    The theorems: decoding an encoded image gives the image back, at any range
    of sectors; a list of stripes is printed as ranges that stand for exactly
    that list. *)
From stdpp Require Import pretty.
From S2P Require Import Prelude Metadata SharedState World Device StripeSource Crypt Uring StripeServer Secrets Config Remote ArchiveFormat S3 Stack Builder Backend.
#[local] Open Scope Z_scope.

(** ** Encoding and decoding images (xts.rs) *)

Definition MAX_CHUNK_SECTORS : Z := 1024.

Record XtsArgs := mkXtsArgs {
  xa_start_sector : option Z;
  xa_sector_count : option Z;
  xa_input : string;
  xa_output : string;
}.

(** The start and the number of sectors to process of [total]. *)
Definition sectors_to_process (args : XtsArgs) (total : Z) : result (Z * Z) :=
  let start_sector := default 0 (xa_start_sector args) in
  if total <=? start_sector then Err InvalidParameter else
  let max_available := total - start_sector in
  match xa_sector_count args with
  | Some len =>
      if len =? 0 then Ok (start_sector, 0)
      else if max_available <? len then Err InvalidParameter else Ok (start_sector, len)
  | None => Ok (start_sector, max_available)
  end.

(** [std::io::BufWriter] over the file that was created: what has been written
    is the file, the rest is buffered. *)
Record BufWriter := mkBufWriter { bw_file : nat; bw_pos : nat; bw_buf : list Z }.
Definition BUF_CAPACITY : nat := 8192.

Definition flush_buf (bw : BufWriter) (w : World) : bool * BufWriter * World :=
  match bw_buf bw with
  | [] => (true, bw, w)
  | buf =>
      let '(ok, w) := write_all_at (bw_file bw) true (bw_pos bw) buf w in
      (ok, if ok : bool then mkBufWriter (bw_file bw) (bw_pos bw + length buf) [] else bw, w)
  end.

Definition buf_write_all (data : list Z) (bw : BufWriter) (w : World) : bool * BufWriter * World :=
  if decide (length data < BUF_CAPACITY - length (bw_buf bw))%nat
  then (true, mkBufWriter (bw_file bw) (bw_pos bw) (bw_buf bw ++ data), w) else
  let '(ok, bw, w) := if decide (BUF_CAPACITY - length (bw_buf bw) < length data)%nat then flush_buf bw w else (true, bw, w) in
  if negb ok then (false, bw, w) else
  if decide (BUF_CAPACITY <= length data)%nat then
    let '(ok, w) := write_all_at (bw_file bw) true (bw_pos bw) data w in
    (ok, if ok : bool then mkBufWriter (bw_file bw) (bw_pos bw + length data) (bw_buf bw) else bw, w)
  else (true, mkBufWriter (bw_file bw) (bw_pos bw) (bw_buf bw ++ data), w).

(** [OpenOptions] with [create] and [truncate]. *)
Definition create_truncate (file : nat) (w : World) : result unit * World :=
  let '(fault, w) := next_fault w in
  match fault with
  | Some _ => (Err (IoError OtherIo), w)
  | None => (Ok tt, set_disks w (<[file := mkDisk [] (disk_synced (disk_at w file))]> (w_disks w)))
  end.

Section xts.
Context `{XtsAes} `{FileNames} (rounds : nat).
Notation Channel := (CryptIoChannel SyncIoChannel).

(** The loop of [decode]; every turn but the last processes a sector. *)
Fixpoint decode_loop (fuel : nat) (current_sector remaining : Z) (c : Channel) (bw : BufWriter) (w : World)
  : outcome (result unit * BufWriter * World) :=
  match fuel with
  | O => Panic OutOfFuel
  | S fuel =>
      if remaining <=? 0 then Done (Ok tt, bw, w) else
      let chunk_sectors := Z.min remaining MAX_CHUNK_SECTORS in
      let chunk_bytes := (Z.to_nat chunk_sectors * SECTOR_SIZE)%nat in
      let '(buffer, w) := shared_buffer chunk_bytes w in
      '(c, w) ← add_read current_sector chunk_sectors buffer 0 c w;
      '(r, c, w) ← submit c w;
      match r with
      | Err e => Done (Err e, bw, w)
      | Ok _ =>
          '(r, c, w) ← wait_for_completion rounds 0 c w;
          match r with
          | Err e => Done (Err e, bw, w)
          | Ok _ =>
              data ← slice (read_buf w buffer) 0 chunk_bytes;
              let '(ok, bw, w) := buf_write_all data bw w in
              if negb ok then Done (Err (IoError OtherIo), bw, w)
              else decode_loop fuel (current_sector + chunk_sectors) (remaining - chunk_sectors) c bw w
          end
      end
  end.

(** Dropping the writer after an error writes what is buffered, if it can. *)
Definition decode (args : XtsArgs) (key1 key2 : list Z) (w : World) : outcome (result unit * World) :=
  match base_device ← sync_new (file_of (xa_input args)) true w;
        crypt_device ← crypt_device_new base_device key1 key2;
        range ← sectors_to_process args (sector_count crypt_device);
        Ok (crypt_device, range) with
  | Err e => Done (Err e, w)
  | Ok (crypt_device, (start_sector, n)) =>
      let '(r, w) := create_truncate (file_of (xa_output args)) w in
      match _ ← r; create_channel crypt_device w with
      | Err e => Done (Err e, w)
      | Ok channel =>
          '(r, bw, w) ← decode_loop (S (Z.to_nat n)) start_sector n channel (mkBufWriter (file_of (xa_output args)) 0 []) w;
          let '(ok, _, w) := flush_buf bw w in
          Done (_ ← r; io_result ok, w)
      end
  end.

(** The loop of [encode]; [pos] is the position of the input file. *)
Fixpoint encode_loop (fuel : nat) (input pos : nat) (current_sector remaining : Z) (c : Channel) (w : World)
  : outcome (result unit * World) :=
  match fuel with
  | O => Panic OutOfFuel
  | S fuel =>
      if remaining <=? 0 then Done (Ok tt, w) else
      let chunk_sectors := Z.min remaining MAX_CHUNK_SECTORS in
      let chunk_bytes := (Z.to_nat chunk_sectors * SECTOR_SIZE)%nat in
      let '(buffer, w) := shared_buffer chunk_bytes w in
      dst ← slice (read_buf w buffer) 0 chunk_bytes;
      let '(ok, filled, w) := read_exact_at input pos dst w in
      let w := write_buf w buffer (filled ++ drop chunk_bytes (read_buf w buffer)) in
      if negb ok then Done (Err (IoError OtherIo), w) else
      '(c, w) ← add_write current_sector chunk_sectors buffer 0 c w;
      '(r, c, w) ← submit c w;
      match r with
      | Err e => Done (Err e, w)
      | Ok _ =>
          '(r, c, w) ← wait_for_completion rounds 0 c w;
          match r with
          | Err e => Done (Err e, w)
          | Ok _ => encode_loop fuel input (pos + chunk_bytes) (current_sector + chunk_sectors) (remaining - chunk_sectors) c w
          end
      end
  end.

Definition encode_image (args : XtsArgs) (key1 key2 : list Z) (w : World) : outcome (result unit * World) :=
  let input := file_of (xa_input args) in
  let output := file_of (xa_output args) in
  match w_disks w !! input with
  | None => Done (Err (IoError OtherIo), w)
  | Some disk =>
      let input_len := Z.of_nat (length (disk_data disk)) in
      if negb (input_len mod Z.of_nat SECTOR_SIZE =? 0) then Done (Err InvalidParameter, w) else
      match sectors_to_process args (input_len / Z.of_nat SECTOR_SIZE) with
      | Err e => Done (Err e, w)
      | Ok (start_sector, n) =>
          let '(r, w) := create_truncate output w in
          match r with
          | Err e => Done (Err e, w)
          | Ok _ =>
              let '(r, w) := set_len output (wrap64 (n * Z.of_nat SECTOR_SIZE)) w in
              match _ ← r;
                    base_device ← sync_new output false w;
                    crypt_device ← crypt_device_new base_device key1 key2;
                    create_channel crypt_device w with
              | Err e => Done (Err e, w)
              | Ok channel =>
                  encode_loop (S (Z.to_nat n)) input (Z.to_nat (wrap64 (start_sector * Z.of_nat SECTOR_SIZE))) start_sector n channel w
              end
          end
      end
  end.

Inductive Action := Encode | Decode.

(** [run] after the configuration is loaded: [xts_key[..32]] and
    [xts_key[32..]] need 32 bytes. *)
Definition xts_run (action : Action) (args : XtsArgs) (config : Config) (w : World) : outcome (result unit * World) :=
  match encryption ← or_err InvalidParameter (cfg_encryption config);
        or_err InvalidParameter (cfg_secrets config !! ref_id (xts_key encryption)) with
  | Err e => Done (Err e, w)
  | Ok key =>
      '(key1, key2) ← split_at 32 key;
      match action with
      | Decode => decode args key1 key2 w
      | Encode => encode_image args key1 key2 w
      end
  end.
End xts.

(** ** Writing in pieces *)

Lemma file_write_append data bs : file_write data (length data) bs = data ++ bs.
Proof.
  unfold file_write. rewrite Nat.sub_diag, app_nil_r, take_ge, drop_ge by lia. by rewrite app_nil_r.
Qed.

Lemma file_write_twice data off a b :
  file_write (file_write data off a) (off + length a) b = file_write data off (a ++ b).
Proof.
  unfold file_write. set (pre := take off (data ++ replicate (off - length data) 0)).
  assert (length pre = off) as Hp by (unfold pre; rewrite length_take, length_app, length_replicate; lia).
  assert (forall y, take (off + length a) ((pre ++ a ++ y) ++ replicate (off + length a - length (pre ++ a ++ y)) 0) = pre ++ a) as Ht.
  { intros y. rewrite !app_assoc, <- (app_assoc (pre ++ a)). apply take_app_length'. rewrite length_app. lia. }
  rewrite Ht, <- !app_assoc. do 3 f_equal. rewrite app_assoc, (drop_app_ge (pre ++ a)) by (rewrite length_app; lia).
  rewrite drop_drop. f_equal. rewrite !length_app. lia.
Qed.

Section pieces.
Context `{XtsLaws}.
#[local] Set Default Proof Using "Type*".

Lemma crypt_ref_split f x s n m a b : length a = (n * SECTOR_SIZE)%nat ->
  crypt_ref f x s (n + m) (a ++ b) = crypt_ref f x s n a ++ crypt_ref f x (s + Z.of_nat n) m b.
Proof.
  revert s a. induction n as [|n IH]; intros s a Ha.
  { apply nil_length_inv in Ha as ->. cbn. by rewrite Z.add_0_r. }
  cbn [Nat.add crypt_ref]. rewrite take_app_le, drop_app_le by lia. rewrite IH by (rewrite length_drop; lia).
  rewrite <- app_assoc. do 3 f_equal. lia.
Qed.
End pieces.

(** ** Buffered writes *)

(** The file and the buffer together. *)
Definition written (bw : BufWriter) (w : World) : list Z := disk_data (disk_at w (bw_file bw)) ++ bw_buf bw.
Record writing (bw : BufWriter) (w : World) : Prop := {
  wr_faults : w_faults w = [];
  wr_pos : length (disk_data (disk_at w (bw_file bw))) = bw_pos bw;
}.

(** A write at the end of the file. *)
Lemma append_file file data w : w_faults w = [] -> exists w', write_all_at file true (length (disk_data (disk_at w file))) data w = (true, w') /\
  w_faults w' = [] /\ disk_data (disk_at w' file) = disk_data (disk_at w file) ++ data /\
  (forall p, p <> file -> w_disks w' !! p = w_disks w !! p) /\ w_bufs w' = w_bufs w.
Proof.
  intros Hf. unfold write_all_at, next_fault. rewrite Hf. cbn [negb]. eexists. split; [done|]. split; [done|].
  unfold disk_at. cbn. rewrite lookup_insert_eq. cbn. split; [apply file_write_append|]. split; [|done].
  intros p Hp. by rewrite lookup_insert_ne.
Qed.

Lemma flush_buf_spec bw w : writing bw w -> exists bw' w', flush_buf bw w = (true, bw', w') /\ writing bw' w' /\
  bw_file bw' = bw_file bw /\ bw_buf bw' = [] /\ written bw' w' = written bw w /\
  (forall p, p <> bw_file bw -> w_disks w' !! p = w_disks w !! p) /\ w_bufs w' = w_bufs w.
Proof.
  intros [Hf Hp]. unfold flush_buf, written. destruct (bw_buf bw) as [|b buf] eqn:Eb; [exists bw, w; rewrite Eb; by split_and!; [..|split]|].
  destruct (append_file (bw_file bw) (b :: buf) w Hf) as (w' & E & Hf' & Hd & Ho & Hb). rewrite Hp in E. rewrite E.
  do 2 eexists. split; [done|]. cbn [bw_file bw_buf]. rewrite Hd, app_nil_r. split_and!; try done. split; [done|]. cbn [bw_file bw_pos].
  by rewrite Hd, length_app, Hp.
Qed.

Lemma buf_write_all_spec data bw w : writing bw w -> exists bw' w', buf_write_all data bw w = (true, bw', w') /\ writing bw' w' /\
  bw_file bw' = bw_file bw /\ written bw' w' = written bw w ++ data /\
  (forall p, p <> bw_file bw -> w_disks w' !! p = w_disks w !! p) /\ w_bufs w' = w_bufs w.
Proof.
  intros Hw. unfold buf_write_all, written. case_decide as H1.
  { do 2 eexists. split; [done|]. cbn [bw_file bw_buf]. rewrite app_assoc. by split_and!; [split; apply Hw|..]. }
  assert (exists bw1 w1, (if decide (BUF_CAPACITY - length (bw_buf bw) < length data)%nat then flush_buf bw w else (true, bw, w)) = (true, bw1, w1) /\
    writing bw1 w1 /\ bw_file bw1 = bw_file bw /\ (bw_buf bw1 = [] \/ (length data < BUF_CAPACITY)%nat) /\ written bw1 w1 = written bw w /\
    (forall p, p <> bw_file bw -> w_disks w1 !! p = w_disks w !! p) /\ w_bufs w1 = w_bufs w) as (bw1 & w1 & -> & Hw1 & Hfile & Hbuf & Hwr & Ho & Hb).
  { case_decide as H2.
    - destruct (flush_buf_spec bw w Hw) as (bw' & w' & E & Hw' & Hf & Hb & Hx & Ho & Hbs). exists bw', w'. rewrite E. split_and!; auto.
    - exists bw, w. split_and!; auto. destruct (bw_buf bw) as [|y ys] eqn:Ey; [by left|right]. cbn in *. lia. }
  cbn [negb]. destruct Hw1 as [Hf1 Hp1]. rewrite <- Hfile in Ho. case_decide as H3.
  - assert (bw_buf bw1 = []) as Hn by (destruct Hbuf; [done|lia]).
    destruct (append_file (bw_file bw1) data w1 Hf1) as (w2 & E & Hf2 & Hd & Ho2 & Hb2). rewrite Hp1 in E. rewrite E.
    do 2 eexists. split; [done|]. cbn [bw_file bw_buf]. unfold written in Hwr. rewrite Hn, app_nil_r in Hwr.
    rewrite Hd, Hn, app_nil_r, Hwr. split_and!; try done.
    + split; [done|]. cbn [bw_file bw_pos]. by rewrite Hd, length_app, Hp1.
    + intros p Hp. rewrite Hfile in *. rewrite Ho2 by done. by apply Ho.
    + by rewrite Hb2.
  - do 2 eexists. split; [done|]. cbn [bw_file bw_buf]. unfold written in Hwr. rewrite app_assoc, Hwr.
    split_and!; try done. by rewrite <- Hfile.
Qed.

(** ** The loops *)

Lemma new_buffer n w : exists b w', shared_buffer (Z.to_nat n * SECTOR_SIZE) w = (b, w') /\ holds w' b n /\
  length (read_buf w' b) = (Z.to_nat n * SECTOR_SIZE)%nat /\ w_disks w' = w_disks w /\ w_faults w' = w_faults w.
Proof.
  unfold shared_buffer, alloc_buf. do 2 eexists. split; [done|]. unfold holds, read_buf, buf_at. cbn.
  rewrite lookup_insert_eq. cbn. rewrite length_replicate. split_and!; [|done..]. set_solver.
Qed.

Lemma file_write_length data off bs : length (file_write data off bs) = Nat.max (length data) (off + length bs).
Proof. unfold file_write. rewrite !length_app, length_take, length_app, length_replicate, length_drop. lia. Qed.

Section loops.
#[local] Set Default Proof Using "Type*".
Context `{XtsLaws} (rounds : nat) (x : XtsBlockCipher) (input output : nat) (Hne : input <> output).
#[local] Abbreviation cipher := (crypt_ref XTS_AES_256_enc x).

(** One turn of the loop of [encode] reads a chunk and writes its cipher text. *)
Lemma encode_turn fuel pos cur rem w plain :
  let n := Z.min rem MAX_CHUNK_SECTORS in
  let len := (Z.to_nat n * SECTOR_SIZE)%nat in
  w_faults w = [] -> 0 < rem -> length plain = len ->
  take len (drop pos (disk_data (disk_at w input))) = plain ->
  exists w', encode_loop (S rounds) (S fuel) input pos cur rem (mkCryptCh (mkSyncCh output true []) x []) w =
      encode_loop (S rounds) fuel input (pos + len) (cur + n) (rem - n) (mkCryptCh (mkSyncCh output true []) x []) w' /\
    w_faults w' = [] /\ (forall p, p <> output -> w_disks w' !! p = w_disks w !! p) /\
    disk_data (disk_at w' output) = file_write (disk_data (disk_at w output)) (byte_offset cur) (cipher cur (Z.to_nat n) plain).
Proof.
  intros n len Hf Hrem Hl Hin. cbn [encode_loop]. rewrite (proj2 (Z.leb_gt _ _)) by lia. fold n.
  destruct (new_buffer n w) as (b & w1 & -> & Hh & Hb & Hd1 & Hf1). fold len in Hb |- *.
  rewrite slice_done by lia. rewrite drop_0, take_ge by lia. cbn [mbind outcome_bind].
  unfold read_exact_at, next_fault. rewrite Hf1, Hf, Hb.
  assert (disk_at w1 input = disk_at w input) as -> by (unfold disk_at; by rewrite Hd1).
  rewrite Hin, bool_decide_eq_true_2, overlay_all by lia. cbn [negb]. rewrite drop_ge, app_nil_r by lia.
  set (w2 := write_buf w1 b plain). assert (holds w2 b n) as Hh2.
  { split; [|unfold w2; rewrite read_write_buf_eq; unfold len in Hl; lia]. unfold w2, write_buf. cbn. set_solver. }
  assert (w_faults w2 = []) as Hf2 by (unfold w2; cbn; by rewrite Hf1).
  rewrite (crypt_sync_write x output cur n w2 Hf2 b 0 [] Hh2). cbn [mbind outcome_bind].
  set (w3 := set_disks _ _). cbn [submit crypt_channel sync_channel cc_base mbind outcome_bind].
  rewrite (wait_first_poll _ _ true _ (mkCryptCh (mkSyncCh output true []) x []) w3 w3) by reflexivity. cbn [mbind outcome_bind].
  exists w3. split; [done|]. split; [done|]. split.
  - intros p Hp. unfold w3. cbn. rewrite lookup_insert_ne by done. by rewrite Hd1.
  - unfold w3, disk_at. cbn [w_disks set_disks write_buf set_bufs]. rewrite lookup_insert_eq. cbn [default disk_data from_option id].
    unfold w2. rewrite read_write_buf_eq, take_ge by (unfold len in Hl; lia). unfold disk_at. cbn. by rewrite Hd1.
Qed.

(** The loop of [encode] writes the cipher text of what it reads. *)
Lemma encode_loop_spec fuel pos cur rem w :
  let len := (Z.to_nat rem * SECTOR_SIZE)%nat in
  w_faults w = [] -> 0 <= rem < Z.of_nat fuel -> 0 <= cur -> (cur + rem) * Z.of_nat SECTOR_SIZE < 2 ^ 64 ->
  (pos + len <= length (disk_data (disk_at w input)))%nat ->
  (rem = 0 -> (byte_offset cur <= length (disk_data (disk_at w output)))%nat) ->
  exists w', encode_loop (S rounds) fuel input pos cur rem (mkCryptCh (mkSyncCh output true []) x []) w = Done (Ok tt, w') /\
    w_faults w' = [] /\ (forall p, p <> output -> w_disks w' !! p = w_disks w !! p) /\
    disk_data (disk_at w' output) = file_write (disk_data (disk_at w output)) (byte_offset cur)
      (cipher cur (Z.to_nat rem) (take len (drop pos (disk_data (disk_at w input))))).
Proof.
  revert pos cur rem w. induction fuel as [|fuel IH]; intros pos cur rem w len Hf Hrem Hcur Hsmall Hin Hend; [lia|].
  destruct (decide (rem = 0)) as [->|Hz].
  { exists w. split; [done|]. cbn [Z.to_nat crypt_ref]. rewrite file_write_nil by by apply Hend. done. }
  set (n := Z.min rem MAX_CHUNK_SECTORS). set (l1 := (Z.to_nat n * SECTOR_SIZE)%nat).
  assert (0 < n <= rem) as Hn by (unfold n, MAX_CHUNK_SECTORS; lia).
  assert (l1 <= len)%nat as Hlen by (unfold len, l1; nia).
  assert (length (take l1 (drop pos (disk_data (disk_at w input)))) = l1) as Hp1 by (rewrite length_take, length_drop; lia).
  destruct (encode_turn fuel pos cur rem w _ Hf ltac:(lia) Hp1 eq_refl) as (w1 & -> & Hf1 & Ho1 & Hd1). fold n l1 in Hd1 |- *.
  assert (disk_at w1 input = disk_at w input) as Hi1 by (unfold disk_at; by rewrite Ho1).
  assert (length (cipher cur (Z.to_nat n) (take l1 (drop pos (disk_data (disk_at w input))))) = l1) as Hc1
    by (by rewrite crypt_ref_length by apply xts_enc_length).
  assert (byte_offset (cur + n) = byte_offset cur + l1)%nat as Hoff by (rewrite !byte_offset_small by lia; unfold l1; lia).
  destruct (IH (pos + l1)%nat (cur + n) (rem - n) w1) as (w2 & E & Hf2 & Ho2 & Hd2); try lia; [done|rewrite Hi1; unfold l1, len in *; lia|..].
  { intros _. rewrite Hd1, file_write_length, Hc1. lia. }
  exists w2. split; [done|]. split; [done|]. split; [intros p Hp; by rewrite Ho2, Ho1|].
  rewrite Hd2, Hd1, Hoff, Hi1. rewrite <- Hc1 at 2. rewrite file_write_twice. f_equal.
  replace (Z.to_nat rem) with (Z.to_nat n + Z.to_nat (rem - n))%nat by lia.
  replace len with (l1 + Z.to_nat (rem - n) * SECTOR_SIZE)%nat by (unfold l1, len; nia).
  rewrite <- take_take_drop, crypt_ref_split, drop_drop by done. do 2 f_equal. lia.
Qed.

(** One turn of the loop of [decode] reads a chunk and appends its plain text. *)
Lemma decode_turn fuel cur rem rs bw w plain :
  let n := Z.min rem MAX_CHUNK_SECTORS in
  let len := (Z.to_nat n * SECTOR_SIZE)%nat in
  writing bw w -> bw_file bw = output -> no_reads rs -> 0 < rem -> length plain = len ->
  take len (drop (byte_offset cur) (disk_data (disk_at w input))) = cipher cur (Z.to_nat n) plain ->
  exists rs' bw' w', decode_loop (S rounds) (S fuel) cur rem (mkCryptCh (mkSyncCh input false []) x rs) bw w =
      decode_loop (S rounds) fuel (cur + n) (rem - n) (mkCryptCh (mkSyncCh input false []) x rs') bw' w' /\
    writing bw' w' /\ bw_file bw' = output /\ no_reads rs' /\ (forall p, p <> output -> w_disks w' !! p = w_disks w !! p) /\
    written bw' w' = written bw w ++ plain.
Proof.
  intros n len [Hf Hpos] Hfile Hrs Hrem Hl Hin. cbn [decode_loop]. rewrite (proj2 (Z.leb_gt _ _)) by lia. fold n.
  destruct (new_buffer n w) as (b & w1 & -> & Hh & Hb & Hd1 & Hf1). fold len in Hb |- *. rewrite Hf in Hf1.
  assert (disk_at w1 input = disk_at w input) as Hi1 by (unfold disk_at; by rewrite Hd1).
  destruct (crypt_sync_read x input cur n w1 Hf1 b 0 plain false rs Hrs Hh Hl) as (c2 & w2 & -> & Es & rs' & w3 & Ep & Hrs' & Hd3 & Hf3 & Hb3);
    [by rewrite Hi1|].
  cbn [mbind outcome_bind]. rewrite Es. cbn [mbind outcome_bind]. rewrite (wait_first_poll _ _ true _ _ _ _ Ep). cbn [mbind outcome_bind].
  rewrite drop_ge, app_nil_r in Hb3 by (unfold len in Hb; lia).
  rewrite Hb3, slice_done by lia. rewrite drop_0, take_ge by lia. cbn [mbind outcome_bind].
  destruct (buf_write_all_spec plain bw w3) as (bw' & w4 & -> & Hw4 & Hf4 & Hwr & Ho4 & _).
  { split; [done|]. unfold disk_at. by rewrite Hd3, Hd1. }
  exists rs', bw', w4. split; [done|]. split_and!; [done|by rewrite Hf4|done| |].
  - intros p Hp. rewrite Ho4 by (by rewrite Hfile). by rewrite Hd3, Hd1.
  - rewrite Hwr. f_equal. unfold written, disk_at. by rewrite Hd3, Hd1.
Qed.

(** The loop of [decode] appends the plain text of what it reads. *)
Lemma decode_loop_spec fuel cur rem rs bw w plain :
  let len := (Z.to_nat rem * SECTOR_SIZE)%nat in
  writing bw w -> bw_file bw = output -> no_reads rs -> 0 <= rem < Z.of_nat fuel -> 0 <= cur -> (cur + rem) * Z.of_nat SECTOR_SIZE < 2 ^ 64 ->
  length plain = len ->
  take len (drop (byte_offset cur) (disk_data (disk_at w input))) = cipher cur (Z.to_nat rem) plain ->
  exists bw' w', decode_loop (S rounds) fuel cur rem (mkCryptCh (mkSyncCh input false []) x rs) bw w = Done (Ok tt, bw', w') /\
    writing bw' w' /\ bw_file bw' = output /\ (forall p, p <> output -> w_disks w' !! p = w_disks w !! p) /\
    written bw' w' = written bw w ++ plain.
Proof.
  revert cur rem rs bw w plain. induction fuel as [|fuel IH]; intros cur rem rs bw w plain len Hw Hfile Hrs Hrem Hcur Hsmall Hl Hin; [lia|].
  destruct (decide (rem = 0)) as [->|Hz].
  { apply nil_length_inv in Hl as ->. exists bw, w. rewrite app_nil_r. by split_and!. }
  set (n := Z.min rem MAX_CHUNK_SECTORS). set (l1 := (Z.to_nat n * SECTOR_SIZE)%nat).
  assert (0 < n <= rem) as Hn by (unfold n, MAX_CHUNK_SECTORS; lia).
  assert (l1 <= len)%nat as Hlen by (unfold len, l1; nia).
  assert (byte_offset (cur + n) = byte_offset cur + l1)%nat as Hoff by (rewrite !byte_offset_small by lia; unfold l1; lia).
  assert (length (take l1 plain) = l1) as Hp1 by (rewrite length_take; lia).
  assert (len = l1 + Z.to_nat (rem - n) * SECTOR_SIZE)%nat as Hsum by (unfold l1, len; nia).
  replace (Z.to_nat rem) with (Z.to_nat n + Z.to_nat (rem - n))%nat in Hin by lia.
  assert (len <= length (drop (byte_offset cur) (disk_data (disk_at w input))))%nat as Hlong.
  { apply (f_equal length) in Hin. rewrite length_take, crypt_ref_length in Hin by apply xts_enc_length. lia. }
  rewrite <- (take_drop l1 plain), crypt_ref_split, Hsum, <- take_take_drop in Hin by done.
  apply app_inj_1 in Hin as [Hin1 Hin2]; [|rewrite crypt_ref_length, length_take by apply xts_enc_length; lia].
  destruct (decode_turn fuel cur rem rs bw w (take l1 plain) Hw Hfile Hrs ltac:(lia) Hp1 Hin1) as (rs1 & bw1 & w1 & -> & Hw1 & Hf1 & Hrs1 & Ho1 & Hwr1).
  fold n. destruct (IH (cur + n) (rem - n) rs1 bw1 w1 (drop l1 plain)) as (bw2 & w2 & E & Hw2 & Hf2 & Ho2 & Hwr2); try done; try lia.
  - rewrite length_drop. lia.
  - unfold disk_at. rewrite Ho1 by done. rewrite Hoff, <- drop_drop. fold (disk_at w input). rewrite Hin2. f_equal. lia.
  - exists bw2, w2. split_and!; [done..|by intros; rewrite Ho2, Ho1|]. by rewrite Hwr2, Hwr1, <- app_assoc, take_drop.
Qed.
End loops.

(** ** Whole images *)

Definition args_unsigned (args : XtsArgs) : Prop :=
  0 <= default 0 (xa_start_sector args) /\ 0 <= default 0 (xa_sector_count args).

Lemma sectors_to_process_ok args total start n : args_unsigned args -> sectors_to_process args total = Ok (start, n) ->
  start = default 0 (xa_start_sector args) /\ 0 <= start /\ 0 <= n /\ start + n <= total /\
  (0 < n -> sectors_to_process args (start + n) = Ok (start, n)).
Proof.
  intros [Hs Hc]. unfold sectors_to_process. destruct (total <=? _) eqn:E1; [done|]. apply Z.leb_gt in E1.
  destruct (xa_sector_count args) as [len|]; cbn in Hc.
  - destruct (len =? 0) eqn:E2; [intros [= <- <-]; split_and!; lia|]. destruct (_ <? len) eqn:E3; [done|].
    apply Z.ltb_ge in E3. intros [= <- <-]. split_and!; try lia. intros Hn.
    rewrite (proj2 (Z.leb_gt _ _)), (proj2 (Z.ltb_ge _ _)) by lia. done.
  - intros [= <- <-]. split_and!; try lia. intros Hn. rewrite (proj2 (Z.leb_gt _ _)) by lia. do 2 f_equal. lia.
Qed.

Section images.
#[local] Set Default Proof Using "Type*".
Context `{XtsLaws} `{FileNames} (rounds : nat) (key1 key2 : list Z).
Context (Hkey1 : length key1 = 32%nat) (Hkey2 : length key2 = 32%nat).
Context (args : XtsArgs) (Hargs : args_unsigned args).
#[local] Abbreviation input := (file_of (xa_input args)).
#[local] Abbreviation output := (file_of (xa_output args)).
#[local] Abbreviation x := (mkXts key1 key2).

Lemma keys_ok : xts_new key1 key2 = Ok x.
Proof. unfold xts_new, ensure_32_bytes. rewrite Hkey1, Hkey2. done. Qed.

Lemma open_crypt p ro d w : w_disks w !! p = Some d -> Z.of_nat (length (disk_data d)) mod Z.of_nat SECTOR_SIZE = 0 ->
  sync_new p ro w = Ok (mkSyncDev p (Z.of_nat (length (disk_data d)) / Z.of_nat SECTOR_SIZE) ro) /\
  forall k, create_channel (mkCryptDev (mkSyncDev p k ro) x) w = Ok (mkCryptCh (mkSyncCh p (negb ro) []) x []).
Proof.
  intros Hd Hm. unfold sync_new. rewrite Hd, Hm. split; [done|]. intros k.
  cbn [create_channel crypt_device sync_device cd_base sync_path]. by rewrite Hd.
Qed.

(** Encoding creates the output and writes the cipher text of the range at the
    position it has in the input. *)
Lemma encode_spec disk start n w :
  w_faults w = [] -> input <> output -> w_disks w !! input = Some disk ->
  Z.of_nat (length (disk_data disk)) mod Z.of_nat SECTOR_SIZE = 0 -> Z.of_nat (length (disk_data disk)) <= I64_MAX ->
  sectors_to_process args (Z.of_nat (length (disk_data disk)) / Z.of_nat SECTOR_SIZE) = Ok (start, n) -> 0 < n ->
  exists w', encode_image (S rounds) args key1 key2 w = Done (Ok tt, w') /\ w_faults w' = [] /\
    (forall p, p <> output -> w_disks w' !! p = w_disks w !! p) /\
    disk_data (disk_at w' output) = file_write (replicate (Z.to_nat n * SECTOR_SIZE) 0) (Z.to_nat start * SECTOR_SIZE)
      (crypt_ref XTS_AES_256_enc x start (Z.to_nat n)
        (take (Z.to_nat n * SECTOR_SIZE) (drop (Z.to_nat start * SECTOR_SIZE) (disk_data disk)))).
Proof.
  intros Hf Hne Hd Hmod Hbound Hs Hn. unfold encode_image. rewrite Hd, Hmod, Hs. cbn [negb Z.eqb].
  destruct (sectors_to_process_ok _ _ _ _ Hargs Hs) as (_ & Hs0 & Hn0 & Htot & _).
  assert ((start + n) * Z.of_nat SECTOR_SIZE <= Z.of_nat (length (disk_data disk))) as Hfit.
  { pose proof (Z.mul_div_le (Z.of_nat (length (disk_data disk))) (Z.of_nat SECTOR_SIZE) ltac:(done)). nia. }
  unfold I64_MAX in Hbound. assert (wrap64 (n * Z.of_nat SECTOR_SIZE) = n * Z.of_nat SECTOR_SIZE) as ->
    by (unfold wrap64; apply Z.mod_small; nia).
  unfold create_truncate, next_fault. rewrite Hf. cbn [mbind outcome_bind].
  unfold set_len, next_fault. rewrite (proj2 (Z.ltb_ge _ _)) by (unfold I64_MAX; nia). cbn [w_faults set_disks]. rewrite Hf.
  unfold disk_at. cbn [w_disks set_disks]. rewrite lookup_insert_eq. cbn [default from_option id disk_data disk_synced app length].
  rewrite Nat.sub_0_r, take_ge by (rewrite length_replicate; lia). set (w2 := set_disks _ _).
  assert (w_disks w2 !! output = Some (mkDisk (replicate (Z.to_nat n * SECTOR_SIZE) 0) (disk_synced (disk_at w output)))) as Hout.
  { unfold w2. cbn [w_disks set_disks]. rewrite lookup_insert_eq. do 3 f_equal. lia. }
  destruct (open_crypt output false _ w2 Hout) as [-> Ho].
  { cbn [disk_data]. rewrite length_replicate, Nat2Z.inj_mul. apply Z_mod_mult. }
  cbn [mbind result_bind]. unfold crypt_device_new. rewrite keys_ok. cbn [mbind result_bind]. rewrite Ho. cbn [mbind result_bind negb].
  assert (w_disks w2 !! input = Some disk) as Hi2.
  { unfold w2. cbn [w_disks set_disks]. by rewrite !lookup_insert_ne. }
  fold (byte_offset start). rewrite byte_offset_small by nia.
  destruct (encode_loop_spec rounds x input output Hne (S (Z.to_nat n)) (Z.to_nat start * SECTOR_SIZE) start n w2) as (w3 & E & Hf3 & Ho3 & Hd3);
    try (unfold disk_at; rewrite ?Hi2; cbn [default from_option id]); [done|lia|lia|nia|nia|lia|].
  exists w3. split; [done|]. split; [done|]. split.
  - intros p Hp. rewrite Ho3 by done. unfold w2. cbn [w_disks set_disks]. by rewrite !lookup_insert_ne.
  - fold (disk_at w3 output). rewrite Hd3, byte_offset_small by nia. unfold disk_at. by rewrite Hi2, Hout.
Qed.

(** Decoding creates an output with the plain text of the range. *)
Lemma decode_spec disk start n plain w :
  w_faults w = [] -> input <> output -> w_disks w !! input = Some disk ->
  Z.of_nat (length (disk_data disk)) mod Z.of_nat SECTOR_SIZE = 0 -> Z.of_nat (length (disk_data disk)) <= I64_MAX ->
  sectors_to_process args (Z.of_nat (length (disk_data disk)) / Z.of_nat SECTOR_SIZE) = Ok (start, n) ->
  length plain = (Z.to_nat n * SECTOR_SIZE)%nat ->
  take (length plain) (drop (Z.to_nat start * SECTOR_SIZE) (disk_data disk)) = crypt_ref XTS_AES_256_enc x start (Z.to_nat n) plain ->
  exists w', decode (S rounds) args key1 key2 w = Done (Ok tt, w') /\ disk_data (disk_at w' output) = plain.
Proof.
  intros Hf Hne Hd Hmod Hbound Hs Hl Hin. unfold decode.
  destruct (sectors_to_process_ok _ _ _ _ Hargs Hs) as (_ & Hs0 & Hn0 & Htot & _).
  assert ((start + n) * Z.of_nat SECTOR_SIZE <= Z.of_nat (length (disk_data disk))) as Hfit.
  { pose proof (Z.mul_div_le (Z.of_nat (length (disk_data disk))) (Z.of_nat SECTOR_SIZE) ltac:(done)). nia. }
  unfold I64_MAX in Hbound. destruct (open_crypt input true _ w Hd Hmod) as [-> _].
  cbn [mbind result_bind]. unfold crypt_device_new. rewrite keys_ok. cbn [mbind result_bind].
  cbn [sector_count crypt_device sync_device cd_base sync_sector_count]. rewrite Hs. cbn [mbind result_bind].
  unfold create_truncate, next_fault. rewrite Hf. cbn [mbind result_bind]. set (w1 := set_disks _ _).
  assert (w_disks w1 !! input = Some disk) as Hi1 by (unfold w1; cbn [w_disks set_disks]; by rewrite lookup_insert_ne).
  destruct (open_crypt input true _ w1 Hi1 Hmod) as [_ ->]. cbn [negb].
  set (bw := mkBufWriter output 0 []).
  assert (disk_data (disk_at w1 output) = []) as Hnil by (unfold disk_at, w1; cbn [w_disks set_disks]; by rewrite lookup_insert_eq).
  destruct (decode_loop_spec rounds x input output Hne (S (Z.to_nat n)) start n [] bw w1 plain) as (bw' & w2 & -> & Hw2 & Hf2 & _ & Hwr);
    [split; [done|unfold bw; cbn [bw_file bw_pos]; by rewrite Hnil]|done|by intros i r|lia|lia|nia|done| |].
  { rewrite <- Hl, byte_offset_small by nia. unfold disk_at. by rewrite Hi1. }
  cbn [mbind outcome_bind]. destruct (flush_buf_spec bw' w2 Hw2) as (bw3 & w3 & -> & _ & Hf3 & Hb3 & Hwr3 & _).
  exists w3. split; [done|]. unfold written in Hwr, Hwr3. cbn [bw_file bw_buf bw] in Hwr.
  rewrite Hb3, Hf3, Hf2, app_nil_r in Hwr3. rewrite Hf2, Hnil in Hwr. rewrite Hwr3, Hwr. done.
Qed.
End images.

(** C24: the two directions of the image tool are inverse.  On files without
    faults, for a range of at least one sector, decoding an encoded image with
    the same range and keys gives exactly the sectors of the input.  The encoded
    file is [start + n] sectors long: the cipher text is written at the
    position the range has in the input, behind the [n] sectors asked for. *)
Theorem xts_roundtrip `{XtsLaws} `{FileNames} rounds key1 key2 args out disk start n w :
  length key1 = 32%nat -> length key2 = 32%nat -> args_unsigned args ->
  file_of (xa_input args) <> file_of (xa_output args) -> file_of (xa_output args) <> file_of out ->
  w_faults w = [] -> w_disks w !! file_of (xa_input args) = Some disk ->
  Z.of_nat (length (disk_data disk)) mod Z.of_nat SECTOR_SIZE = 0 -> Z.of_nat (length (disk_data disk)) <= I64_MAX ->
  sectors_to_process args (Z.of_nat (length (disk_data disk)) / Z.of_nat SECTOR_SIZE) = Ok (start, n) -> 0 < n ->
  exists w1 w2,
    encode_image (S rounds) args key1 key2 w = Done (Ok tt, w1) /\
    decode (S rounds) (mkXtsArgs (xa_start_sector args) (xa_sector_count args) (xa_output args) out) key1 key2 w1 = Done (Ok tt, w2) /\
    length (disk_data (disk_at w1 (file_of (xa_output args)))) = (Z.to_nat (start + n) * SECTOR_SIZE)%nat /\
    disk_data (disk_at w2 (file_of out)) = take (Z.to_nat n * SECTOR_SIZE) (drop (Z.to_nat start * SECTOR_SIZE) (disk_data disk)).
Proof.
  intros Hk1 Hk2 Hargs Hne Hne2 Hf Hd Hmod Hbound Hs Hn.
  destruct (sectors_to_process_ok _ _ _ _ Hargs Hs) as (_ & Hs0 & _ & Htot & Hback).
  assert ((start + n) * Z.of_nat SECTOR_SIZE <= Z.of_nat (length (disk_data disk))) as Hfit.
  { pose proof (Z.mul_div_le (Z.of_nat (length (disk_data disk))) (Z.of_nat SECTOR_SIZE) ltac:(done)). nia. }
  destruct (encode_spec rounds key1 key2 Hk1 Hk2 args Hargs disk start n w) as (w1 & E1 & Hf1 & _ & Hd1); try done.
  set (plain := take _ (drop _ _)) in *. assert (length plain = (Z.to_nat n * SECTOR_SIZE)%nat) as Hl
    by (unfold plain; rewrite length_take, length_drop; nia).
  set (cipher := crypt_ref _ _ _ _ _) in *. assert (length cipher = length plain) as Hc
    by (unfold cipher; by rewrite crypt_ref_length by apply xts_enc_length).
  assert (length (disk_data (disk_at w1 (file_of (xa_output args)))) = (Z.to_nat (start + n) * SECTOR_SIZE)%nat) as Hlen
    by (rewrite Hd1, file_write_length, length_replicate, Hc, Hl; nia).
  destruct (w_disks w1 !! file_of (xa_output args)) as [d1|] eqn:Ed1; unfold disk_at in Hd1, Hlen; rewrite Ed1 in Hd1, Hlen; cbn [default from_option id] in Hd1, Hlen;
    [|exfalso; cbn [disk_data length] in Hlen; unfold SECTOR_SIZE in Hlen; lia].
  destruct (decode_spec rounds key1 key2 Hk1 Hk2 (mkXtsArgs (xa_start_sector args) (xa_sector_count args) (xa_output args) out) Hargs d1 start n plain w1)
    as (w2 & E2 & Hd2); try done.
  - rewrite Hlen, Nat2Z.inj_mul. apply Z_mod_mult.
  - rewrite Hlen, Nat2Z.inj_mul, Z2Nat.id by lia. by etrans; [|apply Hbound].
  - rewrite Hlen, Nat2Z.inj_mul, Z.div_mul, Z2Nat.id by (done || lia). by apply Hback.
  - rewrite Hd1, <- Hc. apply file_write_read.
  - exists w1, w2. split_and!; [done|done| |done]. unfold disk_at. by rewrite Ed1.
Qed.

Lemma xts_roundtrip_witness :
  let _ : FileNames := {| file_of s := String.length s |} in
  let args := mkXtsArgs (Some 1) (Some 2) "a" "ab" in
  let disk := mkDisk (replicate 2048 7) [] in
  let w := mkWorld ∅ 0 {[ 1%nat := disk ]} [] (mkShared [] [] 0 0 0) [] true in
  let k := replicate 32 5 in
  exists w1 w2,
    @encode_image toy_xts _ 1 args k k w = Done (Ok tt, w1) /\
    @decode toy_xts _ 1 (mkXtsArgs (Some 1) (Some 2) "ab" "abc") k k w1 = Done (Ok tt, w2) /\
    length (disk_data (disk_at w1 2)) = (3 * SECTOR_SIZE)%nat /\
    disk_data (disk_at w2 3) = take 1024 (drop 512 (disk_data disk)).
Proof.
  intros F args disk w k. apply (@xts_roundtrip toy_xts toy_xts_laws F 0 k k args "abc" disk 1 2 w); done.
Defined.

(** ** Initializing metadata (init-metadata.rs) *)

Definition STRIPE_SECTOR_COUNT_SHIFT_MIN : Z := 6.
Definition STRIPE_SECTOR_COUNT_SHIFT_MAX : Z := 16.

Section init_metadata.
Context (R : Type) {V N T : Type} `{Ring R} `{XtsAes} `{FileNames} `{S3Client V} `{Network N T} `{Stream T}.
Context `{Hashing} `{Codecs} `{Aead}.
Context (crc32 : list Z -> Z) (host : BuildHost V N) (umask : Z) (rounds : nat).

Definition init_metadata_run (config : Config) (shift : Z) : eff (Directory * World) unit :=
  if negb ((STRIPE_SECTOR_COUNT_SHIFT_MIN <=? shift) && (shift <=? STRIPE_SECTOR_COUNT_SHIFT_MAX)) then raise InvalidParameter
  else init_metadata R (T := T) crc32 host umask rounds config shift.
End init_metadata.

(** ** Reporting metadata (dump-metadata.rs) *)

Definition push_range (output : list string) (start last : nat) : list string :=
  match (last - start)%nat with
  | 0%nat => output ++ [pretty start]
  | 1%nat => output ++ [pretty start; pretty last]
  | _ => output ++ [pretty start +:+ "-" +:+ pretty last]
  end.

Fixpoint format_loop (formatted : list string) (start prev : nat) (rest : list nat) : list string :=
  match rest with
  | [] => push_range formatted start prev
  | value :: rest =>
      if decide (value = (prev + 1)%nat) then format_loop formatted start value rest
      else format_loop (push_range formatted start prev) value value rest
  end.

Definition format_list (l : list nat) : string :=
  match l with
  | [] => ""
  | start :: rest => String.concat ", " (format_loop [] start start rest)
  end.

(** The stripes whose header has a flag, in order. *)
Definition stripes_with (flag : Z) (headers : list Z) : list nat :=
  omap (fun '(i, h) => if has_flag h flag then Some i else None) (imap pair headers).

Section dump_metadata.
Context (R : Type) `{Ring R} `{XtsAes} `{FileNames} (crc32 : list Z -> Z) (rounds : nat).

Definition opt_text (o : option string) : string := default "None" o.

Definition format_source_info (config : Config) (w : World) : result string :=
  match cfg_stripe_source config with
  | Some (Raw image_path _ _) =>
      dev ← uring_device_new (R := R) (file_of image_path) (queue_size (cfg_tuning config)) true true (write_through (cfg_tuning config)) w;
      let image_size := wrap64 (sector_count (C := UringIoChannel R) dev * Z.of_nat SECTOR_SIZE) in
      Ok ("raw (path: " +:+ image_path +:+ ", size: " +:+ pretty image_size +:+ " bytes)")
  | Some (Remote conf) =>
      Ok ("remote (address: " +:+ rem_address conf +:+ ", psk_identity: " +:+ opt_text (psk_identity <$> rem_psk conf) +:+ ")")
  | Some (Archive (Filesystem path _ _)) => Ok ("archive filesystem (path: " +:+ path +:+ ")")
  | Some (Archive (Config.S3 conf)) =>
      Ok ("archive s3 (bucket: " +:+ Config.s3_bucket conf +:+ ", prefix: " +:+ opt_text (Config.s3_prefix conf) +:+
          ", region: " +:+ opt_text (Config.s3_region conf) +:+ ")")
  | None => Ok "None"
  end.

(** The printed lines. *)
Definition report_lines (data_path : string) (data_size : Z) (source_info : string) (metadata : UbiMetadata) : list string :=
  [ "data file: " +:+ data_path +:+ " (" +:+ pretty data_size +:+ " bytes)";
    "source: " +:+ source_info;
    "metadata version: " +:+ pretty (version_major_u16 metadata) +:+ "." +:+ pretty (version_minor_u16 metadata);
    "stripe size: " +:+ pretty (stripe_size metadata) +:+ " bytes";
    "fetched stripes: " +:+ format_list (stripes_with FETCHED (stripe_headers metadata));
    "written stripes: " +:+ format_list (stripes_with WRITTEN (stripe_headers metadata));
    "has-source stripes: " +:+ format_list (stripes_with HAS_SOURCE (stripe_headers metadata)) ].

Definition dump_metadata_run (config : Config) : eff World (list string) :=
  let open path := fun w => r ← build_block_device R path config true w; Done (r, w) in
  base_dev ← open (data_path (cfg_device config));
  let data_size := wrap64 (sector_count (C := DataChannel R) base_dev * Z.of_nat SECTOR_SIZE) in
  source_info ← (fun w => Done (format_source_info config w, w));
  metadata_path ← lift_result (or_err InvalidParameter (metadata_path (cfg_device config)));
  metadata_dev ← open metadata_path;
  metadata ← load_from_bdev (C := DataChannel R) crc32 rounds metadata_dev;
  mret (report_lines (data_path (cfg_device config)) data_size source_info metadata).
End dump_metadata.

(** *** What a list in the report stands for *)

(** An item is one stripe or a range with both ends. *)
Definition item_text (item : nat * nat) : string :=
  if decide (item.1 = item.2) then pretty item.1 else pretty item.1 +:+ "-" +:+ pretty item.2.
Definition item_stripes (item : nat * nat) : list nat := seq item.1 (S (item.2 - item.1)).

(** Texts that stand for a list of stripes. *)
Definition stand_for (texts : list string) (l : list nat) : Prop :=
  exists items, texts = map item_text items /\ Forall (fun item => item.1 <= item.2)%nat items /\ concat (map item_stripes items) = l.

Lemma push_range_stands texts l start last : (start <= last)%nat -> stand_for texts l ->
  stand_for (push_range texts start last) (l ++ seq start (S (last - start))).
Proof.
  intros Hle (items & -> & Hall & <-). unfold push_range.
  assert (forall items', Forall (fun item => item.1 <= item.2)%nat items' -> concat (map item_stripes items') = seq start (S (last - start)) ->
    stand_for (map item_text items ++ map item_text items') (concat (map item_stripes items) ++ seq start (S (last - start)))) as Hitems.
  { intros items' Hall' <-. exists (items ++ items'). rewrite !map_app, concat_app. split_and!; [done|by apply Forall_app|done]. }
  destruct (last - start)%nat as [|[|k]] eqn:E.
  - assert (last = start) as -> by lia. generalize (Hitems [(start, start)]). unfold item_stripes, item_text. cbn.
    rewrite Nat.sub_diag, decide_True by done. intros Hi. apply Hi; [by repeat constructor|done].
  - assert (last = S start) as -> by lia. generalize (Hitems [(start, start); (S start, S start)]). unfold item_stripes, item_text. cbn.
    rewrite !Nat.sub_diag, !decide_True by done. intros Hi. apply Hi; [by repeat constructor|done].
  - generalize (Hitems [(start, last)]). unfold item_stripes, item_text. cbn.
    rewrite E, app_nil_r, decide_False by lia. intros Hi. apply Hi; [by repeat constructor|done].
Qed.

Lemma format_loop_stands rest : forall texts l start prev, (start <= prev)%nat -> stand_for texts l ->
  stand_for (format_loop texts start prev rest) (l ++ seq start (S (prev - start)) ++ rest).
Proof.
  induction rest as [|value rest IH]; intros texts l start prev Hle Hst; cbn [format_loop].
  { rewrite app_nil_r. by apply push_range_stands. }
  case_decide as Hv.
  - subst value. assert (seq start (S (prev + 1 - start)) = seq start (S (prev - start)) ++ [(prev + 1)%nat]) as Hs.
    { replace (S (prev + 1 - start)) with (S (prev - start) + 1)%nat by lia. rewrite seq_app. do 2 f_equal. cbn. f_equal. lia. }
    generalize (IH texts l start (prev + 1)%nat ltac:(lia) Hst). by rewrite Hs, <- app_assoc.
  - generalize (IH _ _ value value ltac:(done) (push_range_stands _ _ _ _ Hle Hst)).
    by rewrite Nat.sub_diag, <- app_assoc.
Qed.

Lemma stripes_with_spec flag headers i : i ∈ stripes_with flag headers <-> exists h, headers !! i = Some h /\ has_flag h flag = true.
Proof.
  unfold stripes_with. rewrite list_elem_of_omap. split.
  - intros ([j h] & Hj & Hf). apply elem_of_lookup_imap in Hj as (k & y & [= -> ->] & Hk).
    destruct (has_flag _ flag) eqn:E; [|done]. injection Hf as <-. eauto.
  - intros (h & Hh & Hf). exists (i, h). split; [|by rewrite Hf]. apply elem_of_lookup_imap. eauto.
Qed.

(** The report names the right stripes.  The text of a flag's line is a
    list of numbers and ranges; spelt out, it has
    exactly the stripes whose header has the flag. *)
Lemma report_names_stripes flag headers :
  exists items, format_list (stripes_with flag headers) = String.concat ", " (map item_text items) /\
    Forall (fun item => item.1 <= item.2)%nat items /\
    concat (map item_stripes items) = stripes_with flag headers /\
    forall i, i ∈ concat (map item_stripes items) <-> exists h, headers !! i = Some h /\ has_flag h flag = true.
Proof.
  assert (exists items, format_list (stripes_with flag headers) = String.concat ", " (map item_text items) /\
    Forall (fun item => item.1 <= item.2)%nat items /\ concat (map item_stripes items) = stripes_with flag headers) as (items & Ht & Hall & Hc).
  { destruct (stripes_with flag headers) as [|start rest]; [by exists []|].
    destruct (format_loop_stands rest [] [] start start ltac:(done)) as (items & Hi & Hall & Hc); [by exists []|].
    exists items. cbn [format_list]. rewrite Hi, Hc, Nat.sub_diag. done. }
  exists items. split_and!; [done..|]. intros i. rewrite Hc. apply stripes_with_spec.
Qed.
