(* ===== verification/Shell.v ===== *)
(** * Shell: exploring a stripe server by hand

    Models src/src/bin/remote-stripe-shell.rs: the commands, their arguments and
    the cache of fetched stripes, over the client of StripeServer.v.  The line
    editor is a parameter (the lines it yields); the text of errors is left out.

    The theorems: the shell never panics on any input, and the bytes it dumps of
    a written stripe are the bytes the server holds there. *)
From S2P Require Import Prelude Metadata SharedState World Device StripeSource StripeServer Secrets ArchiveFormat Backend Rpc.
#[local] Open Scope Z_scope.

(** ** Words and numbers *)

(** Up to white space; a white-space sequence starts at a character. *)
Fixpoint take_word (bs : list Z) : list Z * list Z :=
  match bs with
  | [] => ([], [])
  | b :: rest =>
      match strip white_space bs with
      | Some _ => ([], bs)
      | None => let '(word, rest) := take_word rest in (b :: word, rest)
      end
  end.

(** [str::split_whitespace]; every word takes a byte. *)
Fixpoint split_whitespace (fuel : nat) (bs : list Z) : list (list Z) :=
  match fuel with
  | O => []
  | S fuel =>
      match trim_front (length bs) white_space bs with
      | [] => []
      | bs => let '(word, rest) := take_word bs in word :: split_whitespace fuel rest
      end
  end.

Fixpoint decimal (acc : Z) (digits : list Z) : option Z :=
  match digits with
  | [] => Some acc
  | d :: digits =>
      if (48 <=? d) && (d <=? 57) then
        let acc := acc * 10 + (d - 48) in
        if U64_MAX <? acc then None else decimal acc digits
      else None
  end.

(** [u64::from_str]: an optional plus sign, then digits. *)
Definition parse_u64 (bs : list Z) : option Z :=
  let digits := match bs with 43 :: rest => rest | _ => bs end in
  match digits with [] => None | _ => decimal 0 digits end.

Inductive parse_error := MissingArgument | InvalidNumber (value : list Z).

Definition parse_arg (input : option (list Z)) : parse_error + Z :=
  match input with
  | None => inl MissingArgument
  | Some value => match parse_u64 value with Some n => inr n | None => inl (InvalidNumber value) end
  end.

(** ** Commands *)

Inductive shell_output :=
| OHelp
| OInvalidStripe
| OInvalidRange
| ONotFetchedFromRemote
| OHeader (header : Z) (written : bool)
| OFetched
| OHex (text : string)
| OBadArgument (e : parse_error)
| OError (e : UbiblkError)
| OUnknownCommand (cmd : list Z).

Definition word (s : string) : list Z := bytes_of s.

Definition saturating_add (a b : Z) : Z := Z.min (a + b) U64_MAX.

Section shell.
Context {T : Type} `{Stream T}.
(** The metadata of the server, and its stripe size. *)
Context (m : UbiMetadata).
Notation stripe_len_bytes := (stripe_size m).

Record Shell := mkShell { sh_client : StripeServerClient T; fetched_stripes : gmap Z (list Z) }.

Definition stripe_header_cmd (arg : option (list Z)) : shell_output :=
  match parse_arg arg with
  | inl e => OBadArgument e
  | inr stripe_idx =>
      match stripe_headers m !! Z.to_nat stripe_idx with
      | None => OInvalidStripe
      | Some header => OHeader header (has_flag header WRITTEN)
      end
  end.

Definition fetch_stripe_cmd (arg : option (list Z)) (sh : Shell) : outcome (shell_output * Shell) :=
  match parse_arg arg with
  | inl e => Done (OBadArgument e, sh)
  | inr stripe_idx =>
      if stripe_count m <=? stripe_idx then Done (OInvalidStripe, sh) else
      '(r, client) ← fetch_stripe stripe_idx (sh_client sh);
      match r with
      | Ok data => Done (OFetched, mkShell client (<[stripe_idx := data]> (fetched_stripes sh)))
      | Err e => Done (OError e, mkShell client (fetched_stripes sh))
      end
  end.

Definition dump_range (stripe_idx offset len : Z) (sh : Shell) : outcome shell_output :=
  match stripe_headers m !! Z.to_nat stripe_idx with
  | None => Done OInvalidStripe
  | Some header =>
      if negb (has_flag header WRITTEN) then
        if stripe_len_bytes <? saturating_add offset len then Done OInvalidRange
        else Done (OHex (hex_encode (replicate (Z.to_nat len) 0)))
      else
        match fetched_stripes sh !! stripe_idx with
        | None => Done ONotFetchedFromRemote
        | Some data =>
            if Z.of_nat (length data) <? saturating_add offset len then Done OInvalidRange else
            bytes ← slice data (Z.to_nat offset) (Z.to_nat len);
            Done (OHex (hex_encode bytes))
        end
  end.

(** The first argument that is not a number is reported. *)
Definition dump_stripe_cmd (args : list (list Z)) (sh : Shell) : outcome shell_output :=
  match parse_arg (args !! 0%nat), parse_arg (args !! 1%nat), parse_arg (args !! 2%nat) with
  | inr stripe_idx, inr offset, inr len => dump_range stripe_idx offset len sh
  | inl e, _, _ | _, inl e, _ | _, _, inl e => Done (OBadArgument e)
  end.

(** One command; [None] ends the shell. *)
Definition command (words : list (list Z)) (sh : Shell) : outcome (option shell_output * Shell) :=
  match words with
  | [] => Panic UnwrapNone
  | cmd :: args =>
      if decide (cmd = word "exit" \/ cmd = word "quit") then Done (None, sh)
      else if decide (cmd = word "help") then Done (Some OHelp, sh)
      else if decide (cmd = word "stripe_header") then Done (Some (stripe_header_cmd (args !! 0%nat)), sh)
      else if decide (cmd = word "fetch_stripe") then
        '(o, sh) ← fetch_stripe_cmd (args !! 0%nat) sh; Done (Some o, sh)
      else if decide (cmd = word "dump_stripe") then
        o ← dump_stripe_cmd args sh; Done (Some o, sh)
      else Done (Some (OUnknownCommand cmd), sh)
  end.

Inductive readline := Line (bs : list Z) | ReadInterrupted | ReadEof | ReadFailed.

(** The words of a line that is not blank. *)
Definition words_of (bs : list Z) : list (list Z) :=
  let trimmed := trim bs in split_whitespace (S (length trimmed)) trimmed.

(** The loop over what the line editor yields; the output goes with the words it
    answers. *)
Fixpoint shell_loop (input : list readline) (sh : Shell) : outcome (result unit * list (list (list Z) * shell_output) * Shell) :=
  match input with
  | [] | ReadEof :: _ => Done (Ok tt, [], sh)
  | ReadInterrupted :: input => shell_loop input sh
  | ReadFailed :: _ => Done (Err (IoError OtherIo), [], sh)
  | Line bs :: input =>
      if decide (trim bs = []) then shell_loop input sh else
      '(o, sh) ← command (words_of bs) sh;
      match o with
      | None => Done (Ok tt, [], sh)
      | Some o => '(r, os, sh) ← shell_loop input sh; Done (r, (words_of bs, o) :: os, sh)
      end
  end.
End shell.
Arguments Shell : clear implicits.
Arguments mkShell {T}.
Arguments sh_client {T}.
Arguments fetched_stripes {T}.

(** ** Words of a line *)

Lemma strip_prefix seqs a b : strip seqs (a ++ b) = None -> strip seqs a = None.
Proof.
  unfold strip. destruct (list_find (fun s => take (length s) (a ++ b) = s) seqs) as [[j t]|] eqn:E2; [done|]. intros _.
  destruct (list_find (fun s => take (length s) a = s) seqs) as [[i s]|] eqn:E; [exfalso|done]. apply list_find_Some in E as (Hi & Hs & _).
  apply list_find_None in E2. rewrite Forall_forall in E2. apply (E2 s); [by eapply list_elem_of_lookup_2|].
  rewrite take_app_le; [done|]. rewrite <- Hs at 1. rewrite length_take. lia.
Qed.

Lemma strip_shorter seqs bs bs' : Forall (fun s => s <> []) seqs -> strip seqs bs = Some bs' -> (length bs' < length bs)%nat.
Proof.
  unfold strip. intros Hne. destruct (list_find _ seqs) as [[i s]|] eqn:E; [|done]. intros [= <-].
  apply list_find_Some in E as (Hi & Hs & _). rewrite Forall_forall in Hne. specialize (Hne s ltac:(by eapply list_elem_of_lookup_2)).
  rewrite length_drop. destruct s; [done|]. destruct bs; [done|]. cbn. lia.
Qed.

Lemma trim_front_stripped fuel seqs bs : Forall (fun s => s <> []) seqs -> (length bs <= fuel)%nat ->
  strip seqs (trim_front fuel seqs bs) = None.
Proof.
  intros Hne. revert bs. induction fuel as [|fuel IH]; intros bs Hl; cbn [trim_front].
  - destruct bs; [|cbn in Hl; lia]. destruct (strip seqs []) eqn:E; [|done]. by apply strip_shorter in E; [cbn in E; lia|].
  - destruct (strip seqs bs) eqn:E; [|done]. apply IH. apply strip_shorter in E; [lia|done].
Qed.

Lemma trim_front_suffix fuel seqs bs : exists pre, bs = pre ++ trim_front fuel seqs bs.
Proof.
  revert bs. induction fuel as [|fuel IH]; intros bs; cbn [trim_front]; [by exists []|].
  destruct (strip seqs bs) as [bs'|] eqn:E; [|by exists []]. destruct (IH bs') as [pre Hp]. unfold strip in E.
  destruct (list_find _ seqs) as [[i s]|]; [|done]. injection E as E. exists (take (length s) bs ++ pre).
  by rewrite <- app_assoc, <- Hp, <- E, take_drop.
Qed.

(** A line that is not blank has a first word. *)
Lemma words_nonempty bs : trim bs <> [] -> exists cmd args, words_of bs = cmd :: args.
Proof.
  intros Ht. unfold words_of. assert (strip white_space (trim bs) = None) as Hs.
  { unfold trim. set (front := trim_front _ _ bs). assert (strip white_space front = None) as Hf
      by (apply trim_front_stripped; [by repeat constructor|lia]).
    destruct (trim_front_suffix (length front) (map reverse white_space) (reverse front)) as [pre Hp].
    apply (strip_prefix _ _ (reverse pre)). rewrite <- reverse_app, <- Hp, reverse_involutive. done. }
  set (t := trim bs) in *. cbn [split_whitespace].
  assert (trim_front (length t) white_space t = t) as -> by (destruct t; [done|]; cbn [length trim_front]; by rewrite Hs).
  destruct t as [|b t]; [done|]. destruct (take_word (b :: t)) as [w r]. by do 2 eexists.
Qed.

Lemma parse_u64_bound bs n : parse_u64 bs = Some n -> is_u64 n.
Proof.
  assert (forall ds acc, is_u64 acc -> decimal acc ds = Some n -> is_u64 n) as Hd.
  { induction ds as [|d ds IH]; intros acc Ha; cbn [decimal]; [by intros [= <-]|].
    destruct ((48 <=? d) && (d <=? 57)) eqn:E; [|done]. apply andb_true_iff in E as [E1%Z.leb_le E2%Z.leb_le].
    destruct (U64_MAX <? _) eqn:E3; [done|]. apply Z.ltb_ge in E3. apply IH. unfold is_u64 in *. lia. }
  unfold parse_u64. destruct (match bs with 43 :: rest => rest | _ => bs end) as [|d ds]; [done|].
  apply Hd. unfold is_u64, U64_MAX. lia.
Qed.

(** ** What is shown *)

(** An output is right for the words it answers: a dump has the bytes asked for,
    of the stripe if it was written and zeroes otherwise. *)
Definition stripe_bytes (m : UbiMetadata) (data : list Z) (i off len : Z) : list Z :=
  take (Z.to_nat len) (drop (Z.to_nat (i * stripe_size m + off)) data).

Definition shown (m : UbiMetadata) (data : list Z) (entry : list (list Z) * shell_output) : Prop :=
  let '(words, o) := entry in
  let arg k := words !! k ≫= parse_u64 in
  match o with
  | OHex text => exists i off len h, words !! 0%nat = Some (word "dump_stripe") /\
      arg 1%nat = Some i /\ arg 2%nat = Some off /\ arg 3%nat = Some len /\
      stripe_headers m !! Z.to_nat i = Some h /\ off + len <= stripe_size m /\
      text = hex_encode (if has_flag h WRITTEN then stripe_bytes m data i off len else replicate (Z.to_nat len) 0)
  | OHeader h written => exists i, arg 1%nat = Some i /\ stripe_headers m !! Z.to_nat i = Some h /\ written = has_flag h WRITTEN
  | OFetched => exists i bs, arg 1%nat = Some i /\ stripe_served m data i = Ok bs
  | _ => True
  end.

Section shown.
Context (crc32 : list Z -> Z) (rounds : nat) (m : UbiMetadata) (path : nat) (data : list Z).
Context (Hwf : metadata_wf m) (Hr : (0 < rounds)%nat) (Hlen : Z.of_nat (length data) = stripe_count m * stripe_size m).
Context {S : Type} `{StripeSource S}.
#[local] Set Default Proof Using "All".

(** The client is connected, and the cache has what the server serves. *)
Definition shell_ok (sh : Shell (Served SyncIoChannel S)) : Prop :=
  exists sv, sh_client sh = mkClient sv (Some m) /\ linked crc32 rounds m path data true [] sv /\
    forall i bs, fetched_stripes sh !! i = Some bs -> stripe_served m data i = Ok bs.

Lemma parse_arg_some input n : parse_arg input = inr n -> input ≫= parse_u64 = Some n /\ is_u64 n.
Proof.
  unfold parse_arg. destruct input as [bs|]; [|done]. cbn. destruct (parse_u64 bs) eqn:E; [|done]. intros [= <-].
  split; [done|]. by eapply parse_u64_bound.
Qed.

(** Text of a range of a stripe that was fetched. *)
Lemma served_slice i bs off len : is_u64 i -> 0 <= off -> 0 <= len -> stripe_served m data i = Ok bs -> off + len <= Z.of_nat (length bs) ->
  take (Z.to_nat len) (drop (Z.to_nat off) bs) = stripe_bytes m data i off len /\ length bs = Z.to_nat (stripe_size m).
Proof.
  intros Hi Ho Hl Hs Hfit. unfold stripe_served in Hs. destruct (stripe_headers m !! Z.to_nat i) as [h|] eqn:Hh; [|done].
  destruct (_ || _); [done|]. case_decide as Hd; [|done]. injection Hs as <-. unfold is_u64 in Hi.
  destruct (stripe_sectors_bound m Hwf) as (Hb & _ & Es). rewrite length_take, length_drop in Hfit |- *.
  split; [|nia]. unfold stripe_bytes. rewrite take_drop_commute, take_take, Nat.min_l, <- take_drop_commute, drop_drop by lia.
  f_equal. f_equal. nia.
Qed.

Lemma dump_range_shown sh i off len words : shell_ok sh -> is_u64 i -> is_u64 off -> is_u64 len ->
  words !! 0%nat = Some (word "dump_stripe") -> words !! 1%nat ≫= parse_u64 = Some i ->
  words !! 2%nat ≫= parse_u64 = Some off -> words !! 3%nat ≫= parse_u64 = Some len ->
  exists o, dump_range m i off len sh = Done o /\ shown m data (words, o).
Proof.
  intros (sv & Hc & _ & Hcache) Hi Ho Hl W0 W1 W2 W3. unfold dump_range, saturating_add.
  destruct (stripe_sectors_bound m Hwf) as (Hb & _ & Es). unfold is_u64, U64_MAX in *.
  destruct (stripe_headers m !! Z.to_nat i) as [h|] eqn:Hh; [|by exists OInvalidStripe].
  destruct (has_flag h WRITTEN) eqn:Hw; cbn [negb].
  - destruct (fetched_stripes sh !! i) as [bs|] eqn:Hbs; [|by exists ONotFetchedFromRemote].
    destruct (_ <? _) eqn:Ef; [by exists OInvalidRange|]. apply Z.ltb_ge in Ef. pose proof (Hcache i bs Hbs) as Hs.
    assert (length bs <= Z.to_nat (stripe_size m))%nat as Hmax.
    { unfold stripe_served in Hs. rewrite Hh, Hw in Hs. destruct (_ || _); [done|]. case_decide; [|done].
      injection Hs as <-. rewrite length_take. lia. }
    destruct (served_slice i bs off len Hi) as [Esl Hbl]; [lia|lia|done|lia|].
    rewrite slice_done by lia. cbn [mbind outcome_bind]. eexists. split; [done|]. cbn [shown].
    exists i, off, len, h. rewrite Hw, Esl. split_and!; try done. lia.
  - destruct (_ <? _) eqn:Ef; [by exists OInvalidRange|]. apply Z.ltb_ge in Ef. eexists. split; [done|].
    exists i, off, len, h. rewrite Hw. split_and!; try done. lia.
Qed.

Lemma command_shown words sh : shell_ok sh -> words <> [] ->
  exists o sh', command m words sh = Done (o, sh') /\ shell_ok sh' /\ forall out, o = Some out -> shown m data (words, out).
Proof.
  intros Hok Hne. destruct words as [|cmd args]; [done|]. cbn [command].
  assert (forall o, shown m data (cmd :: args, o) -> exists o' sh', Done (Some o, sh) = Done (o', sh') /\ shell_ok sh' /\
    forall out, o' = Some out -> shown m data (cmd :: args, out)) as Hsame
    by (intros o Ho; exists (Some o), sh; split_and!; [done..|by intros ? [= <-]]).
  case_decide; [by exists None, sh|]. case_decide; [by apply Hsame|].
  case_decide; [|case_decide; [|case_decide as Hd]].
  - apply Hsame. unfold stripe_header_cmd.
    destruct (parse_arg (args !! 0%nat)) as [e|i] eqn:Ea; [done|]. apply parse_arg_some in Ea as [Ea _].
    destruct (stripe_headers m !! Z.to_nat i) as [h|] eqn:Hh; [|done]. by exists i.
  - unfold fetch_stripe_cmd. destruct (parse_arg (args !! 0%nat)) as [e|i] eqn:Ea;
      [by apply Hsame|].
    apply parse_arg_some in Ea as [Ea Hi]. destruct (stripe_count m <=? i);
      [by apply Hsame|].
    destruct Hok as (sv & Hc & L & Hcache). rewrite Hc.
    destruct (fetch_whole_linked crc32 rounds m path data Hwf Hr sv i L Hi Hlen) as (sv' & -> & L'). cbn [mbind outcome_bind].
    destruct (stripe_served m data i) as [bs|e] eqn:Es; cbn [mbind outcome_bind].
    + do 2 eexists. split; [done|]. split; [|intros ? [= <-]; by exists i, bs]. exists sv'. split_and!; [done..|].
      intros j bs'. cbn [fetched_stripes]. destruct (decide (j = i)) as [->|Hj];
        [rewrite lookup_insert_eq; by intros [= <-]|rewrite lookup_insert_ne by done; apply Hcache].
    + do 2 eexists. split; [done|]. split; [by exists sv'|by intros ? [= <-]].
  - unfold dump_stripe_cmd.
    destruct (parse_arg (args !! 0%nat)) as [e|i] eqn:E1; [by apply Hsame|].
    destruct (parse_arg (args !! 1%nat)) as [e|off] eqn:E2; [by apply Hsame|].
    destruct (parse_arg (args !! 2%nat)) as [e|len] eqn:E3; [by apply Hsame|].
    apply parse_arg_some in E1 as [E1 B1], E2 as [E2 B2], E3 as [E3 B3].
    destruct (dump_range_shown sh i off len (cmd :: args) Hok B1 B2 B3 ltac:(by rewrite Hd) E1 E2 E3) as (o & -> & Ho).
    cbn [mbind outcome_bind]. by apply Hsame.
  - by apply Hsame.
Qed.

Lemma shell_loop_shown input : forall sh, shell_ok sh ->
  exists r os sh', shell_loop m input sh = Done (r, os, sh') /\ Forall (shown m data) os.
Proof.
  induction input as [|[bs| | |] input IH]; intros sh Hok; cbn [shell_loop]; try (by do 3 eexists); [|by apply IH].
  case_decide as Ht; [by apply IH|]. destruct (words_nonempty bs Ht) as (cmd & args & Ew).
  destruct (command_shown (words_of bs) sh Hok) as (o & sh1 & -> & Hok1 & Ho); [by rewrite Ew|]. cbn [mbind outcome_bind].
  destruct o as [o|]; [|by do 3 eexists]. destruct (IH sh1 Hok1) as (r & os & sh2 & -> & Hos). cbn [mbind outcome_bind].
  do 3 eexists. split; [done|]. constructor; [by apply Ho|done].
Qed.
End shown.

(** C22: the shell shows what the server holds.  Let a server serve a file of
    whole stripes, and let a shell connect to it.  For any lines that the user
    enters, the shell does not panic, and every dump that it prints has exactly
    the bytes asked for: those that the file holds in that range of the stripe
    if the stripe was written, and zeroes otherwise; the headers it prints are
    those of the server, and a stripe is reported as fetched only if the server
    has it. *)
Theorem shell_shows_served crc32 rounds m path data sy (S : Type) `{StripeSource S} w input :
  metadata_wf m -> Z.of_nat (metadata_size m) <= MAX_REMOTE_METADATA_SIZE -> (0 < rounds)%nat ->
  w_disks w !! path = Some (mkDisk data sy) -> w_faults w = [] ->
  Z.of_nat (length data) = stripe_count m * stripe_size m ->
  let server := mkServer (S := S) m (mkSyncDev path (Z.of_nat (length data) / 512) true) None in
  exists s client r os sh', start_session server fresh_pipe w = Done (Ok s) /\
    handshake crc32 (mkServed crc32 rounds s w true) = Done (Ok client) /\
    shell_loop m input (mkShell client ∅) = Done (r, os, sh') /\ Forall (shown m data) os.
Proof.
  intros Hwf Hmax Hr Hd Hf Hlen server.
  destruct (connect_linked crc32 rounds m path data sy S w Hwf Hmax Hr Hd Hf) as (s & sv & Es & Eh & L).
  destruct (shell_loop_shown crc32 rounds m path data Hwf Hr Hlen input (mkShell (mkClient sv (Some m)) ∅)) as (r & os & sh' & E & Hos).
  { exists sv. split_and!; [done..|]. intros i bs. cbn [fetched_stripes]. by rewrite lookup_empty. }
  exists s, (mkClient sv (Some m)), r, os, sh'. by split_and!.
Qed.

Lemma shell_shows_served_witness :
  let data := replicate 512 7 ++ replicate 512 9 in
  let server := mkServer (S := BlockDeviceStripeSource NullIoChannel) demo_metadata (mkSyncDev 5 (Z.of_nat (length data) / 512) true) None in
  let input := [Line (word " fetch_stripe 0"); Line (word "dump_stripe 0 510 2"); Line (word "dump_stripe 1 0 +3"); ReadInterrupted;
                Line (word "dump_stripe"); Line (word "quit")] in
  exists s client r os sh', start_session server fresh_pipe demo_world = Done (Ok s) /\
    handshake crc32_ieee (mkServed crc32_ieee 1 s demo_world true) = Done (Ok client) /\
    shell_loop demo_metadata input (mkShell client ∅) = Done (r, os, sh') /\ Forall (shown demo_metadata data) os.
Proof.
  intros data server input.
  apply (shell_shows_served crc32_ieee 1 demo_metadata 5 data [] (BlockDeviceStripeSource NullIoChannel) demo_world input).
  - apply demo_metadata_wf.
  - vm_compute. congruence.
  - lia.
  - reflexivity.
  - reflexivity.
  - vm_compute. reflexivity.
Defined.

(** The answers of that session. *)
Example shell_demo :
  let sh := mkShell (T := Pipe) (mkClient (mkPipe [] UnexpectedEof [] []) (Some demo_metadata)) {[ 0 := replicate 512 7 ]} in
  (fun '(r, os, _) => (r, map snd os)) <$> shell_loop demo_metadata
    [Line (word "dump_stripe 0 510 2"); Line (word " dump_stripe 1 0 +3 "); Line (word "dump_stripe 0 511 2"); Line (word "dump_stripe 5 0 0");
     Line (word "stripe_header 0"); Line (word "dump_stripe x"); Line (word "quit"); Line (word "help")] sh
  = Done (Ok tt, [OHex "0707"; OHex "000000"; OInvalidRange; OInvalidStripe; OHeader 2 true; OBadArgument (InvalidNumber [120])]).
Proof. vm_compute. reflexivity. Qed.
