(* ===== verification/Programs.v ===== *)
(** * Programs: the stripe server and the archiver as programs

    Models [run] of src/src/bin/remote-stripe-server.rs and of
    src/src/bin/archive.rs: how the components are put together.  The
    configurations are those that were loaded (Config.v, Legacy.v), the TLS
    handshake is a parameter, and the threads of the clients run with the state
    they find.

    The theorem: whatever clients send, each connection of a server that was
    prepared ends without a panic, and the server goes on until [accept] fails. *)
From S2P Require Import Prelude Metadata SharedState World Device StripeSource Crypt Uring StripeServer Secrets Config Remote ArchiveFormat ArchiveSource Archiver S3 Stack Builder Legacy Backend.
#[local] Open Scope Z_scope.

(** ** The stripe server *)

Record ServerArgs := mkServerArgs { sa_config : string; sa_legacy : bool; sa_legacy_kek : option string }.

(** Which configuration is read: [--legacy-kek] needs [--legacy]. *)
Definition server_config {A} (load load_legacy : eff reads A) (args : ServerArgs) : eff reads A :=
  if negb (sa_legacy args) && bool_decide (is_Some (sa_legacy_kek args)) then raise InvalidParameter
  else if sa_legacy args then load_legacy else load.

Definition server_psk (listen : RemoteStripeServerConfig) : result (option PskCredentials) :=
  match rem_psk (rs_server listen) with
  | None => Ok None
  | Some psk =>
      secret ← or_err InvalidParameter (rs_secrets listen !! ref_id (psk_secret psk));
      creds ← creds_new (psk_identity psk) secret;
      Ok (Some creds)
  end.

(** A client: whether its timeouts can be set, its end of the connection, and
    the state its thread finds. *)
Record Connection := mkConnection { cn_timeouts : bool; cn_pipe : Pipe; cn_world : World }.

Section server.
Context {D C S : Type} `{IoChannel C} `{!BlockDevice D C} `{StripeSource S}.
Context (crc32 : list Z -> Z) (rounds : nat) (wrap_psk_server_stream : PskCredentials -> Pipe -> outcome (result Pipe)).

(** The body of a client's thread. *)
Definition serve_connection (stripe_server : StripeServer D S) (psk : option PskCredentials) (conn : Connection)
  : outcome (result unit) :=
  if negb (cn_timeouts conn) then Done (Err (IoError OtherIo)) else
  stream ← match psk with Some creds => wrap_psk_server_stream creds (cn_pipe conn) | None => Done (Ok (cn_pipe conn)) end;
  match stream with
  | Err e => Done (Err e)
  | Ok stream =>
      session ← start_session (C := C) (S := S) (T := Pipe) stripe_server stream (cn_world conn);
      match session with
      | Err e => Done (Err e)
      | Ok session =>
          _ ← handle_requests (C := C) (S := S) (T := Pipe) crc32 rounds (Datatypes.S (length (p_in stream))) (session, cn_world conn);
          Done (Ok tt)
      end
  end.

(** The accept loop: the ends of the threads it has started, and its error. *)
Fixpoint accept_loop (stripe_server : StripeServer D S) (psk : option PskCredentials) (arrivals : list (result Connection))
  : list (outcome (result unit)) * result unit :=
  match arrivals with
  | [] => ([], Ok tt)
  | Err e :: _ => ([], Err e)
  | Ok conn :: arrivals =>
      let '(threads, r) := accept_loop stripe_server psk arrivals in
      (serve_connection stripe_server psk conn :: threads, r)
  end.
End server.

Section run.
Context (R : Type) {V N T : Type} `{Ring R} `{XtsAes} `{FileNames} `{S3Client V} `{Network N T} `{Stream T}.
Context `{Hashing} `{Codecs} `{Aead}.
Context (crc32 : list Z -> Z) (host : BuildHost V N) (rounds : nat).

(** [run] of the server after the configurations are loaded. *)
Definition server_run (wrap_psk_server_stream : PskCredentials -> Pipe -> outcome (result Pipe)) (bind : string -> result unit)
    (config : Config) (listen : RemoteStripeServerConfig) (arrivals : list (result Connection)) (w : World)
  : outcome (list (outcome (result unit)) * result unit * World) :=
  '(server, w) ← prepare_stripe_server R (T := T) crc32 host rounds config w;
  Done (match server, server_psk listen with
        | Ok server, Ok psk =>
            match bind (rem_address (rs_server listen)) with
            | Ok _ => accept_loop (C := DataChannel R) crc32 rounds wrap_psk_server_stream server psk arrivals
            | Err e => ([], Err e)
            end
        | Err e, _ | _, Err e => ([], Err e)
        end, w).

(** ** The archiver *)

Inductive CompressionChoice := ChooseNone | ChooseZstd.
Record ArchiveArgs := mkArchiveArgs {
  aa_encrypt : bool; aa_compression : CompressionChoice; aa_zstd_level : Z; aa_stats : bool }.
Record ArchiveStats := mkStats { st_physical_size_bytes : Z; st_logical_size_bytes : Z }.

Definition compression_of (args : ArchiveArgs) : ArchiveCompressionAlgorithm :=
  match aa_compression args with ChooseNone => CompressNone | ChooseZstd => Zstd (aa_zstd_level args) end.

Definition open_device (path : string) (config : Config) : eff World (DataDevice R) :=
  fun w => r ← build_block_device R path config true w; Done (r, w).

Definition open_source (b : StripeSourceBuilder) : eff World (BuiltSource R (V := V) (N := N) (T := T)) :=
  fun w => r ← build R (T := T) crc32 host rounds b w; Done (r, w).

Notation Store := (FileSystemStore + S3Store V)%type.
Notation Archiver := (StripeArchiver (DataChannel R) (BuiltSource R (V := V) (N := N) (T := T)) Store).

Definition run_archiver (fuel : nat) (n1 n2 : list Z) (archiver : Archiver) : eff World Archiver := fun w =>
  '(r, (a, w)) ← archive_all (C := DataChannel R) (S := BuiltSource R) (A := Store) fuel rounds n1 n2 (archiver, w);
  Done (match r with Ok _ => Ok a | Err e => Err e end, w).

(** [random], [hmac] and the nonces are the bytes that are drawn; the result is
    the statistics to be written, if asked for. *)
Definition archive_run (fuel : nat) (random : option (list Z) * option (list Z)) (hmac : option (list Z)) (n1 n2 : list Z)
    (config : Config) (target : eff World ArchiveTargetConfig) (args : ArchiveArgs) : eff World (option ArchiveStats) :=
  metadata_path ← lift_result (or_err InvalidParameter (metadata_path (cfg_device config)));
  metadata_dev ← open_device metadata_path config;
  metadata ← load_from_bdev (C := DataChannel R) crc32 rounds metadata_dev;
  disk_dev ← open_device (data_path (cfg_device config)) config;
  let stripe_sector_count := Z.shiftl 1 (stripe_sector_count_shift metadata mod 64) in
  stripe_source ← open_source (mkBuilder config stripe_sector_count (has_fetched_all_stripes metadata));
  target_config ← target;
  store ← lift_result (build_archive_store host (at_target target_config) (at_secrets target_config));
  kek ← lift_result (build_archive_kek (at_target target_config) (at_secrets target_config));
  archiver ← archiver_new (C := DataChannel R) (S := BuiltSource R) (A := Store) random hmac stripe_source disk_dev metadata store
               (aa_encrypt args) (compression_of args) kek 4;
  archiver ← run_archiver fuel n1 n2 archiver;
  mret (if aa_stats args
        then Some (mkStats (physical_size_bytes archiver)
                     (Z.min (sector_count (C := DataChannel R) disk_dev * Z.of_nat SECTOR_SIZE) U64_MAX))
        else None).
End run.

(** ** Clients cannot bring the server down *)

Section clients.
Context {R V N T : Type} `{RingLaws R} `{XtsLaws} `{FileNames} `{S3Client V} `{Network N T} `{Stream T}.
Context `{Hashing} `{Codecs} `{Aead}.
Context (crc32 : list Z -> Z) (host : BuildHost V N) (rounds : nat).
Context (wrap_psk_server_stream : PskCredentials -> Pipe -> outcome (result Pipe)).
#[local] Set Default Proof Using "Type*".

(** A handshake that returns yields a stream of bytes. *)
Definition handshake_returns (psk : option PskCredentials) (conn : Connection) : Prop :=
  match psk with
  | None => Forall is_u8 (p_in (cn_pipe conn))
  | Some creds => exists r, wrap_psk_server_stream creds (cn_pipe conn) = Done r /\
      forall stream, r = Ok stream -> Forall is_u8 (p_in stream)
  end.

(** Opening a session returns: a source that is configured can be built or not. *)
Definition session_returns (server : StripeServer (DataDevice R) (BuiltSource R (V := V) (N := N) (T := T))) (conn : Connection) : Prop :=
  fresh_world (cn_world conn) /\ forall stream : Pipe, exists r, start_session (C := DataChannel R) server stream (cn_world conn) = Done r.

(** Every client's thread of a prepared server ends without a panic, whatever the
    client sends; there is one for each client up to the first error of
    [accept], which ends the server. *)
Lemma clients_end config w (server : StripeServer (DataDevice R) (BuiltSource R (V := V) (N := N) (T := T))) w' psk clients e rest :
  delivers_bytes rounds config w -> config_safe config -> prepare_stripe_server R crc32 host rounds config w = Done (Ok server, w') ->
  stripe_count (srv_metadata server) <= U32_MAX -> Forall (handshake_returns psk) clients -> Forall (session_returns server) clients ->
  exists ends, accept_loop (C := DataChannel R) crc32 rounds wrap_psk_server_stream server psk (map Ok clients ++ Err e :: rest) = (map Done ends, Err e) /\
    length ends = length clients.
Proof.
  intros Hu Hc E Hm Hh Hs. induction clients as [|conn clients IH]; [by exists []|].
  apply Forall_cons in Hh as [Hh Hhs], Hs as [[Hf Hs] Hss]. destruct (IH Hhs Hss) as (ends & E1 & Hl).
  cbn [map app accept_loop]. rewrite E1.
  assert (exists x, serve_connection (C := DataChannel R) crc32 rounds wrap_psk_server_stream server psk conn = Done x) as [x ->];
    [|exists (x :: ends); cbn; by rewrite Hl].
  unfold serve_connection. destruct (cn_timeouts conn); cbn [negb]; [|by eexists].
  assert (forall stream : Pipe, Forall is_u8 (p_in stream) -> exists x,
    (session ← start_session (C := DataChannel R) server stream (cn_world conn);
     match session with
     | Err e => Done (Err e)
     | Ok session => _ ← handle_requests crc32 rounds (S (length (p_in stream))) (session, cn_world conn); Done (Ok tt)
     end) = Done x) as Hserve.
  { intros stream Hb. destruct (Hs stream) as [[s|e'] Es]; rewrite Es; cbn [mbind outcome_bind]; [|by eexists].
    destruct (prepared_sessions_end crc32 host rounds config w server w' stream (cn_world conn) s Hu Hc E Hm Hf Hb Es) as [st' ->]. by eexists. }
  destruct psk as [creds|]; cbn [handshake_returns] in Hh; cbn [mbind outcome_bind]; [|by apply Hserve].
  destruct Hh as ([stream|e'] & -> & Hb); cbn [mbind outcome_bind]; [by apply Hserve, Hb|by eexists].
Qed.
End clients.
